(* ===== verification/_CoqProject ===== *)
-Q . S2P
Prelude.v
JsSort.v
Js.v
UploadTypes.v
Accounting.v
AsyncQueue.v
Throughput.v
Reporter.v
Control.v
Security.v
Native.v
Api.v
Preflight.v
Prepare.v
Ledger.v
UploadSession.v
SessionBooks.v
SessionWorkers.v
SessionProducer.v
SessionLedger.v
SessionStarts.v
SessionProperties.v
SessionProgress.v
UploadManager.v
Diagnostics.v
SelectionStore.v
MediaSelection.v
DragGesture.v
Connection.v
ConnectionSafety.v
ConnectionTrust.v
ConnectionHealth.v
QrScanner.v
Preferences.v
Shell.v
Browser.v
BrowserUpload.v
BrowserPreflight.v
BrowserHashing.v
BrowserRun.v
BrowserBooks.v
BrowserBytes.v
BrowserTurns.v
BrowserTransfers.v
BrowserInvariant.v
BrowserEnd.v
BrowserProperties.v
BrowserChunks.v
BrowserSecurity.v
DiagnosticStorage.v
DiagnosticPruning.v
TransferView.v
TransferViewProperties.v
TransferEta.v
History.v
ProblemPreviews.v
