(* ===== verification/Prelude.v ===== *)
(** * A verification library for Local Media Transfer

    Local Media Transfer moves photos and videos from an iPhone to a Windows desktop over the
    local network. This library models the core of its iOS client (TypeScript, under
    [src/src/LocalMediaTransfer.iOS/src/]; file names below are relative to it) and of the
    page the desktop serves to other phones (JavaScript, under
    [src/src/Server/static/js/]), and proves what makes them correct.

    ** The program

    The user picks assets ([features/media]), connects to a desktop ([app/hooks], [api],
    [security]) and starts a transfer ([services/UploadManager.ts]). A transfer is one call of
    [uploadFilesConcurrent]: a producer prepares windows of assets ([prepareAssets.ts]) and
    asks the desktop which files it already has ([duplicatePreflight.ts]); the files it keeps
    go through a bounded queue ([BoundedAsyncQueue.ts]) to two workers, which hand them to the
    native uploader or send them in chunks, under retries ([RetryPolicy.ts]) and thermal
    throttling ([ThermalController.ts]); outcomes, rates and worker activity are accounted
    ([TransferAccounting.ts], [ThroughputTracker.ts]), reported to the desktop
    ([ClientMetricsReporter.ts]) and collected in a diagnostics report
    ([services/diagnostics]). The screen of a transfer, the history the desktop keeps and the
    previews of files that had problems are hooks and stores around it.

    The page of the desktop does the same for a browser: [core/security.js] finds the token,
    [upload/manager.js] keeps the queue and runs workers ([upload/workers.js]) that send each
    file whole or in chunks, after [upload/preflight.js] has asked for duplicates.

    ** How it is modelled

    JavaScript runs a function without interruption up to its next [await]. A method that does
    not await is a function on a record of its object's fields. Code that awaits is cut at its
    awaits: each stretch is a definition, a program counter says where a function is
    suspended, a stored [resolve] callback is the suspended call itself, and a step relation
    or an executable [exec] runs any suspended function next, or delivers any answer. Where
    only one computation runs (an attempt to connect) a state and error monad is used, with
    the answers of the outside as functions of a clock. What is not the program's own code is
    an input: the network, the native module (Swift), the Photos library, the storage, the
    user, timers and clocks; it appears as an argument or a record of answers and may answer
    anything unless a theorem names a hypothesis.

    Numbers: counts, byte sizes and times are integers [Z], exact below 2^53 as in the code;
    rates and pixels are exact rationals, so rounding is not modelled; numbers that come
    from outside are [jsnum] or [jsnumber], with NaN and the infinities. [unknown] values are
    [Js.jsval]. Strings are byte strings; case mapping and trimming are those of ASCII text.

    ** The files

    - [Prelude], [Js]: shared notation, tactics, lists, batches, insertion-ordered groups,
      runs of step relations; JavaScript values and the guards the code uses on them.
    - [UploadTypes]: data, errors and policies of the upload pipeline ([types.ts],
      [errors.ts], [mediaVariants.ts], [transferLimits.ts], [preparationPolicy.ts]).
    - [Accounting], [AsyncQueue], [Throughput], [Reporter], [Control]: one file per class of
      [services/upload/]: outcomes and worker activity, the bounded queue with its suspended
      callers, rates, the metrics reporter with its timer, retries and the thermal controller.
    - [Security], [Native], [Api]: environments and pairing payloads, the parsers at the
      native boundary, the desktop API client.
    - [Preflight], [Prepare]: one prepared window: duplicate checks; both ways to prepare it.
    - [UploadSession]: the pipeline of [uploadFilesConcurrent] as interleaved runs of
      producer, enqueuer, workers, cancellation and thermal changes, every operation one
      [Definition]; [Ledger]: the abstract specification of its books; [SessionBooks],
      [SessionWorkers], [SessionProducer], [SessionLedger]: the simulation, run by run;
      [SessionStarts]: what it starts; [SessionProperties]: the theorems about whole runs;
      [SessionProgress]: that it is never stuck.
    - [UploadManager]: the function around the pipeline: guard, set-up, conclusion, error
      paths and [finally]; it runs a session of [UploadSession].
    - [Diagnostics]: the report of a transfer and its coalescing writer.
    - [SelectionStore], [MediaSelection]: the selection with its listeners in a heap; grid,
      drag selection, paging and select-all of the media picker.
    - [Connection]: the connection controller and every way to connect; [ConnectionSafety]:
      what an attempt sends and where; [ConnectionTrust]: which desktops are trusted.
    - [DragGesture]: the drag gesture of the picker on its two threads.
    - [Shell]: screens, alerts, discovery and the inputs of a transfer around all of it.
    - [ConnectionHealth]: the pings of an open connection; [QrScanner]: from a scanned text to
      a call to connect; [Preferences]: stored preferences, of the transfer and of the
      connection.
    - [JsSort]: sorting with a comparison function, used by the stored diagnostics and the
      screen of a transfer.
    - [DiagnosticStorage]: the stored diagnostic reports, as operations on a directory that
      may be cut short anywhere; [DiagnosticPruning]: what pruning and writing leave there.
    - [TransferView]: the state behind the screen of a transfer ([useTransferController.ts]),
      [TransferViewProperties]: its invariants; [TransferEta]: rates and remaining time.
    - [History]: items of the history and the hook that loads it; [ProblemPreviews]: the job
      queue, index and images of [ProblemPreviewStore.ts].
    - [Browser], [BrowserUpload], [BrowserPreflight], [BrowserRun]: the upload manager of the
      page: its queue and counters, one upload, the duplicate preflight, a whole run;
      [BrowserHashing]: the pool of hash workers behind the preflight and their loop;
      [BrowserBytes], [BrowserBooks], [BrowserTransfers], [BrowserTurns], [BrowserInvariant],
      [BrowserEnd], [BrowserChunks]: its invariants, parts and end; [BrowserProperties]: the
      theorems about whole runs; [BrowserSecurity]: its credential.

    ** What is shown

    - Of a transfer: the session refines its ledger under every interleaving; at success
      every file is accounted for; acknowledged bytes stay within the plan; an upload starts
      only for a pending file the preflight chose, two at a time, and after a cancellation
      only where the worker had passed its gate before (it does not ask again); the pipeline
      is never stuck, and every transfer ends idle with one balanced report; cancelling while
      the producer waits at a full queue is nevertheless reported as fatal.
    - Of its parts: the queue is a bounded FIFO channel and loses nothing when it closes;
      outcome counters are the tally of the first outcomes; idle time, rates and the report
      totals, all kept incrementally, equal their definitions from the history; samples,
      retries and thermal waits are bounded; a duplicate is skipped only when its content is
      on the desktop or chosen for upload; preparation accounts for every component, whatever
      the order of its workers, and always ends.
    - Of the boundaries: what the parsers accept is well formed, and well-formed values are
      read back exactly.
    - Of connecting: requests leave only for the entered address, over https only under the
      pinned certificate, and over http only with consent; an attempt to connect stores trust
      only after the desktop's approval; a desktop found nearby is served only when it is the
      trusted one.
    - Of the picker: the shown assets are of the chosen album, each once, and its flags say
      what it waits for; a "select all" that fails hides what it had read until an album is
      chosen again; a drag selects exactly its range, a listener hears exactly the changes of
      its asset.
    - Of the page: every file is handed to exactly one worker, all are done at the end, a run
      ends within a bounded number of answers, byte counters and file counts are sums over
      the files, a chunked upload carries the file's slices in order; the history counts every
      file, and counts twice those that failed and were skipped later; the controls are open
      exactly when the desktop confirmed the page's token; every hash asked for is answered once, with the hash of
      its own whole file.
    - Of the application: a transfer keeps the assets and preferences it was started with and
      its screen is left for good reasons only; a drag over the grid, with its auto-scrolling
      on another thread, selects what it would without; an answered search for desktops may
      come back after discovery was switched off.
    - Of the screens: the summary of a transfer shows every file and no timer outlives it; a
      fatal error, however, adds every selected asset as failed, also the saved ones; the
      remaining time is exact at a constant rate; the history shows the newest answer only.
    - Of the storage: pruning keeps the newest reports, a report file is never torn, but a
      crash at the wrong moment loses it; previews stay within their bounds and a clearing
      leaves none of its scope; a choice of a transfer preference is kept, one of the
      connection may be overridden by a late load.
    - Of an open connection: monitoring pings until three pings in a row failed and ignores
      what answers later than its effect lives, a scanned code connects once.

    ** Bounds and fuel

    Loops over lists are structural. Loops with fuel: retiring samples (one unit per sample,
    enough because each iteration passes one), the producer's batches (one per asset), the
    retry loop (the code's own bound), the turns a worker of the page takes without waiting
    (one per file of the queue and one to find none left). Loops that wait are program
    counters, not fuel. Termination is stated as such: bounded attempts, a measure that every
    step decreases, and the existence of the finishing steps.

    ** Hypotheses

    [choice_ok] (session): preparation hands over fresh item ids and sizes of at least one
    byte. [native_full] (success of a session): an uploader that succeeds has acknowledged
    the file. [pins_https]: the native module pins https addresses only. Pages of the Photos
    library are slices of one album and end with it. Each is instantiated by the witness of
    the theorem that uses it. [decay] (remaining time): two to the power of a negative
    fraction lies between zero and one. The native module's thumbnails are stored under keys
    the preview store makes itself. The incremental digest of slices is that of the whole
    file ([BrowserHashing]). While an attempt to connect runs, nothing else changes the
    client's configuration or the pin.

    ** Not modelled

    React components other than the hooks and the shell named above, theme, animations and
    haptics (layout over the modelled state); clocks measured for diagnostics only; log texts; elements, dialogs, translations and
    icons of the page. The receivers: the C++ server and the Windows application (other
    languages), the Swift uploader behind [NativeCapabilities.ts] (an input here), tests,
    tools and build scripts. *)

From Stdlib Require Export ZArith Lia.
From stdpp Require Export base tactics list strings gmap sets relations.

#[global] Set Default Goal Selector "!".
#[global] Set Warnings "-clear-no-such-hyp".

Declare Scope lmt_scope.
Delimit Scope lmt_scope with lmt.
#[global] Open Scope Z_scope.

(** ** JavaScript arithmetic on integers that are exact in a double *)

Notation "'Math.max' a b" := (Z.max a b)
  (at level 10, a at level 9, b at level 9, only parsing) : lmt_scope.
Notation "'Math.min' a b" := (Z.min a b)
  (at level 10, a at level 9, b at level 9, only parsing) : lmt_scope.

(** [Math.ceil(a / b)] for integers, [b > 0]. *)
Definition ceil_div (a b : Z) : Z := (a + b - 1) `div` b.

Lemma ceil_div_spec a b : 0 < b → (ceil_div a b - 1) * b < a <= ceil_div a b * b.
Proof.
  intros Hb. unfold ceil_div.
  pose proof (Z.div_mod (a + b - 1) b ltac:(lia)).
  pose proof (Z.mod_pos_bound (a + b - 1) b Hb). nia.
Qed.

Lemma ceil_div_le a b c : 0 < b → a <= c * b ↔ ceil_div a b <= c.
Proof. intros Hb. pose proof (ceil_div_spec a b Hb). nia. Qed.

Lemma ceil_div_nonneg a b : 0 < b → 0 <= a → 0 <= ceil_div a b.
Proof. intros Hb Ha. pose proof (ceil_div_spec a b Hb). nia. Qed.

(** [Number(b)] for a boolean [b]. *)
Definition number_of_bool (b : bool) : Z := if b then 1 else 0.

(** JavaScript truthiness of a string: only the empty string is falsy. *)
Definition truthy (s : string) : bool := negb (bool_decide (s = "")).

(** [a || b] on strings. *)
Definition js_or (a b : string) : string := if truthy a then a else b.

Lemma truthy_true s : truthy s = true ↔ s ≠ "".
Proof. unfold truthy. case_bool_decide; naive_solver. Qed.

Lemma truthy_false s : truthy s = false ↔ s = "".
Proof. unfold truthy. case_bool_decide; naive_solver. Qed.

(** A number the code guards with [Number.isFinite]: a finite (integral) one, or
    one of [NaN], [Infinity], [-Infinity]. *)
Inductive jsnum := Finite (z : Z) | NotFinite.

#[global] Instance jsnum_eq_dec : EqDecision jsnum.
Proof. solve_decision. Defined.

(** [Number.isFinite(x) ? Math.max(0, x ?? 0) : 0] for an optional [x]. *)
Definition finite_nonneg (x : option jsnum) : Z :=
  match x with Some (Finite z) => Z.max 0 z | _ => 0 end.

Lemma finite_nonneg_nonneg x : 0 <= finite_nonneg x.
Proof. destruct x as [[z|]|]; simpl; lia. Qed.

(** The literals of a string union, and the guard that recognises one. *)
Fixpoint of_literal {A} (table : list (string * A)) (s : string) : option A :=
  match table with
  | [] => None
  | (k, v) :: table => if bool_decide (s = k) then Some v else of_literal table s
  end.

(** ** Sums over lists *)

Definition sumZ {A} (f : A → Z) (l : list A) : Z := foldr (λ x acc, f x + acc) 0 l.
Arguments sumZ : simpl never.

Section sums.
Context {A : Type}.
Implicit Types (f g : A → Z) (l : list A).

Lemma sumZ_nil f : sumZ f [] = 0.
Proof. done. Qed.

Lemma sumZ_cons f x l : sumZ f (x :: l) = f x + sumZ f l.
Proof. done. Qed.

Lemma sumZ_app f l1 l2 : sumZ f (l1 ++ l2) = sumZ f l1 + sumZ f l2.
Proof. induction l1 as [|x l1 IH]; simpl; rewrite ?sumZ_nil, ?sumZ_cons; lia. Qed.

Lemma sumZ_singleton f x : sumZ f [x] = f x.
Proof. unfold sumZ; simpl; lia. Qed.

Lemma sumZ_ext f g l : (∀ x, x ∈ l → f x = g x) → sumZ f l = sumZ g l.
Proof.
    induction l as [|x l IH]; intros H; [done|]. rewrite !sumZ_cons, H, IH; [done|..];
      intros; try apply H; set_solver.
Qed.

Lemma sumZ_add f g l : sumZ (λ x, f x + g x) l = sumZ f l + sumZ g l.
Proof. induction l as [|x l IH]; [done|]. rewrite !sumZ_cons, IH. lia. Qed.

Lemma sumZ_zero l : sumZ (λ _, 0) l = 0.
Proof. induction l as [|x l IH]; [done|]. by rewrite sumZ_cons, IH. Qed.

Lemma sumZ_nonneg f l : (∀ x, x ∈ l → 0 <= f x) → 0 <= sumZ f l.
Proof.
    induction l as [|x l IH]; intros H; [done|]. rewrite sumZ_cons.
    assert (0 <= f x) by (apply H; set_solver).
    assert (0 <= sumZ f l) by (apply IH; set_solver). lia.
Qed.

Lemma sumZ_const_one l : sumZ (λ _, 1) l = Z.of_nat (length l).
Proof. induction l as [|x l IH]; [done|]. rewrite sumZ_cons, IH; simpl length; lia. Qed.

Lemma sumZ_Permutation f l1 l2 : l1 ≡ₚ l2 → sumZ f l1 = sumZ f l2.
Proof. unfold sumZ. induction 1; simpl in *; lia. Qed.

Lemma sumZ_filter_split (P : A → bool) f l :
    sumZ f l = sumZ f (base.filter (λ x, P x = true) l)
             + sumZ f (base.filter (λ x, P x = false) l).
Proof.
    induction l as [|x l IH]; [done|]. rewrite sumZ_cons, !filter_cons.
    destruct (P x) eqn:E; repeat case_decide; try congruence; rewrite ?sumZ_cons; lia.
Qed.

  (** Replacing one element of an array changes a sum by the difference. *)
Lemma sumZ_insert f l i x y :
    l !! i = Some x → sumZ f (<[i := y]> l) = sumZ f l - f x + f y.
Proof.
    revert i. induction l as [|z l IH]; intros [|i] H; simplify_eq/=.
    - rewrite !sumZ_cons. lia.
    - rewrite !sumZ_cons, (IH i); [lia|done].
Qed.

Lemma sumZ_foldl f l acc : foldl (λ total x, total + f x) acc l = acc + sumZ f l.
Proof.
    revert acc. induction l as [|x l IH]; intros acc; simpl; [rewrite sumZ_nil; lia|].
    rewrite IH, sumZ_cons. lia.
Qed.
End sums.

Lemma omap_insert_perm {A B} (f : A → option B) l i x y :
  l !! i = Some x →
  option_list (f x) ++ omap f (<[i := y]> l) ≡ₚ option_list (f y) ++ omap f l.
Proof.
  revert i. induction l as [|z l IH]; intros [|i] Hi; simplify_eq/=.
  - destruct (f x), (f y); simpl; try done. apply Permutation_swap.
  - specialize (IH i Hi). unfold omap in IH. destruct (f z) as [w|]; [|done].
    rewrite <-!Permutation_middle. by f_equiv.
Qed.

Lemma sumZ_elem_le {A} (g : A → Z) l x : (∀ y, y ∈ l → 0 <= g y) → x ∈ l → g x <= sumZ g l.
Proof.
  induction l as [|y l IH]; intros Hnn Hx; [by apply elem_of_nil in Hx|]. rewrite sumZ_cons.
  assert (0 <= sumZ g l) by (apply sumZ_nonneg; intros; apply Hnn; by right).
  assert (0 <= g y) by (apply Hnn; left).
  apply elem_of_cons in Hx as [->|Hx]; [lia|].
  enough (g x <= sumZ g l) by lia. apply IH; [intros; apply Hnn; by right|done].
Qed.

Lemma sumZ_fmap {A B} (g : B → Z) (h : A → B) l : sumZ g (h <$> l) = sumZ (λ x, g (h x)) l.
Proof. induction l as [|x l IH]; [done|]. rewrite fmap_cons, !sumZ_cons. by rewrite IH. Qed.

Definition lengthZ {A} (l : list A) : Z := Z.of_nat (length l).

Lemma lengthZ_nonneg {A} (l : list A) : 0 <= lengthZ l.
Proof. unfold lengthZ; lia. Qed.

Lemma lengthZ_app {A} (l1 l2 : list A) : lengthZ (l1 ++ l2) = lengthZ l1 + lengthZ l2.
Proof. unfold lengthZ. rewrite length_app. lia. Qed.

Create HintDb lmt.
Create Rewrite HintDb lmt.
#[export] Hint Rewrite @sumZ_nil @sumZ_cons @sumZ_app @sumZ_singleton @lengthZ_app : lmt.
#[export] Hint Resolve lengthZ_nonneg : lmt.

Lemma NoDup_fmap_filter {A B} (f : A → B) (P : A → Prop) `{∀ x, Decision (P x)} (l : list A) :
  NoDup (f <$> l) → NoDup (f <$> filter P l).
Proof.
  induction l as [|x l IH]; [done|]. rewrite filter_cons, fmap_cons. intros [Hx Hl]%NoDup_cons.
  destruct (decide (P x)); [|by apply IH]. rewrite fmap_cons. apply NoDup_cons. split; [|by apply IH].
  intros (y & Hy & [_ Hin]%list_elem_of_filter)%list_elem_of_fmap. apply Hx. rewrite Hy. by apply list_elem_of_fmap_2.
Qed.

Lemma filter_iff_in {A} (P Q : A → Prop) `{∀ x, Decision (P x)} `{∀ x, Decision (Q x)} (l : list A) :
  (∀ x, x ∈ l → P x ↔ Q x) → filter P l = filter Q l.
Proof.
  induction l as [|x l IH]; intros H'; [done|]. rewrite !filter_cons, IH by (intros; apply H'; by right).
  specialize (H' x ltac:(left)). destruct (decide (P x)), (decide (Q x)); tauto.
Qed.

Lemma filter_fmap {A B} (f : A → B) (P : B → Prop) `{∀ y, Decision (P y)} (l : list A) :
  filter P (f <$> l) = f <$> filter (λ x, P (f x)) l.
Proof. induction l as [|x l IH]; [done|]. rewrite fmap_cons, !filter_cons, IH. by destruct (decide (P (f x))). Qed.

(** ** Lists seen through a projection *)

Section projection.
Context {A B : Type} (p : A → B).

Lemma alter_proj f k (l : list A) : (∀ x, p (f x) = p x) → p <$> alter f k l = p <$> l.
Proof.
  intros Hf. apply list_eq. intros j. rewrite !list_lookup_fmap. destruct (decide (j = k)) as [->|Hj].
  - rewrite list_lookup_alter_eq. destruct (l !! k); simpl; [by rewrite Hf|done].
  - by rewrite list_lookup_alter_ne.
Qed.

Lemma alter_proj_at f k (l : list A) x : l !! k = Some x → p (f x) = p x → p <$> alter f k l = p <$> l.
Proof.
  intros Hk Hf. apply list_eq. intros j. rewrite !list_lookup_fmap. destruct (decide (j = k)) as [->|Hj].
  - by rewrite list_lookup_alter_eq, Hk; simpl; rewrite Hf.
  - by rewrite list_lookup_alter_ne.
Qed.

Lemma proj_lookup (l l' : list A) k x : p <$> l' = p <$> l → l' !! k = Some x → ∃ y, l !! k = Some y ∧ p y = p x.
Proof.
  intros H Hk. assert ((p <$> l') !! k = Some (p x)) as Hx by (by rewrite list_lookup_fmap, Hk).
  rewrite H, list_lookup_fmap in Hx. destruct (l !! k) as [y|]; [|done]. apply (inj Some) in Hx. by exists y.
Qed.

Lemma sumZ_proj (h : A → Z) (l l' : list A) :
  (∀ x y, p x = p y → h x = h y) → p <$> l' = p <$> l → sumZ h l' = sumZ h l.
Proof.
  intros Hh. revert l. induction l' as [|x l' IH]; intros [|y l] H; try done.
  rewrite !fmap_cons in H. pose proof (f_equal head H) as Hx. apply (inj Some) in Hx. apply (f_equal tail) in H.
  rewrite !sumZ_cons. f_equal; [by apply Hh|by apply IH].
Qed.
End projection.

(** ** The loop [for (i = 0; i < l.length; i += n) { batch = l.slice(i, i + n); ... }] *)

Fixpoint batches_fuel {A} (fuel : nat) (n : nat) (l : list A) : list (list A) :=
  match fuel, l with
  | _, [] => []
  | O, _ => []
  | S fuel, _ => take n l :: batches_fuel fuel n (drop n l)
  end.

(** One unit of fuel per element is enough: each iteration drops [n > 0] of them. *)
Definition batches {A} (n : nat) (l : list A) : list (list A) := batches_fuel (length l) n l.

Section batches.
Context {A : Type}.
Implicit Types (l : list A) (n : nat).

Lemma batches_fuel_concat fuel n l :
    (0 < n)%nat → (length l <= fuel)%nat → concat (batches_fuel fuel n l) = l.
Proof.
    intros Hn. revert l. induction fuel as [|fuel IH]; intros [|x l] Hl; simpl in *; try done; [lia|].
    rewrite IH; [by rewrite take_drop|]. rewrite length_drop. simpl. lia.
Qed.

Lemma batches_concat n l : (0 < n)%nat → concat (batches n l) = l.
Proof. intros Hn. by apply batches_fuel_concat. Qed.

Lemma batches_fuel_bound fuel n l b :
    (0 < n)%nat → b ∈ batches_fuel fuel n l → (0 < length b <= n)%nat.
Proof.
    intros Hn. revert l. induction fuel as [|fuel IH]; intros [|x l] Hb; simpl in Hb;
      [by apply elem_of_nil in Hb..|].
    apply elem_of_cons in Hb as [->|Hb]; [|by eapply IH].
    rewrite length_take; simpl. lia.
Qed.

Lemma batches_bound n l b : (0 < n)%nat → b ∈ batches n l → (0 < length b <= n)%nat.
Proof. apply batches_fuel_bound. Qed.

Lemma batches_elem n l b x : (0 < n)%nat → b ∈ batches n l → x ∈ b → x ∈ l.
Proof.
    intros Hn Hb Hx. rewrite <-(batches_concat n l Hn).
    apply list_elem_of_In, in_concat. exists b. by rewrite <-!list_elem_of_In.
Qed.

Lemma elem_batches n l x : (0 < n)%nat → x ∈ l → ∃ b, b ∈ batches n l ∧ x ∈ b.
Proof.
    intros Hn Hx. rewrite <-(batches_concat n l Hn) in Hx.
    apply list_elem_of_In, in_concat in Hx as (b & Hb & Hx). exists b.
    by rewrite !list_elem_of_In.
Qed.
End batches.

(** ** Groups in a [Map] that keeps its insertion order *)

Section groups.
Context {K : Type} `{EqDecision K} {A : Type}.

(** [const group = groups.get(k) ?? []; group.push(x); groups.set(k, group)]. *)
Fixpoint push_group (k : K) (x : A) (groups : list (K * list A)) : list (K * list A) :=
  match groups with
  | [] => [(k, [x])]
  | (k', g) :: groups =>
    if decide (k' = k) then (k', g ++ [x]) :: groups else (k', g) :: push_group k x groups
  end.

Definition group_by (key : A → K) (l : list A) : list (K * list A) :=
  foldl (λ groups x, push_group (key x) x groups) [] l.

Lemma push_group_keys k x groups :
  NoDup (fst <$> groups) →
  NoDup (fst <$> push_group k x groups)
  ∧ ∀ k', k' ∈ fst <$> push_group k x groups ↔ k' = k ∨ k' ∈ fst <$> groups.
Proof.
  induction groups as [|[k' g] groups IH]; simpl; intros Hnd.
  - split; [by apply NoDup_singleton|]. intros k'. set_solver.
  - apply NoDup_cons in Hnd as [Hk' Hnd]. destruct (IH Hnd) as [Hnd' Hin].
    case_decide as Hk; simpl; [subst; split; [by apply NoDup_cons|]; set_solver|].
    split; [apply NoDup_cons; split; [|done]; rewrite Hin; intros [?|?]; done|].
    intros k''. rewrite !elem_of_cons, Hin. naive_solver.
Qed.

Lemma push_group_elem k0 x groups k g :
  NoDup (fst <$> groups) → (k, g) ∈ push_group k0 x groups →
  (k ≠ k0 ∧ (k, g) ∈ groups)
  ∨ (k = k0 ∧ ((∃ g0, (k0, g0) ∈ groups ∧ g = g0 ++ [x]) ∨ (k0 ∉ fst <$> groups ∧ g = [x]))).
Proof.
  induction groups as [|[k' g'] groups IH]; simpl; intros Hnd Hin.
  - apply list_elem_of_singleton in Hin. simplify_eq. right. split; [done|]. right. split; [set_solver|done].
  - apply NoDup_cons in Hnd as [Hk' Hnd]. case_decide as Hk.
    + subst k'. apply elem_of_cons in Hin as [Heq|Hin]; simplify_eq.
      * right. split; [done|]. left. exists g'. split; [left|done].
      * left. split; [|by right]. intros ->. apply Hk'. apply (list_elem_of_fmap_2 fst) in Hin. done.
    + apply elem_of_cons in Hin as [Heq|Hin]; simplify_eq.
      * left. split; [done|left].
      * destruct (IH Hnd Hin) as [[? ?]|[-> [(g0 & ? & ->)|[Hno ->]]]].
        -- left. split; [done|by right].
        -- right. split; [done|]. left. exists g0. split; [by right|done].
        -- right. split; [done|]. right. split; [|done]. intros [?|?]%elem_of_cons; done.
Qed.

(** Every group is the elements of its key, in order. *)
Lemma group_by_spec (key : A → K) l :
  NoDup (fst <$> group_by key l)
  ∧ (∀ k g, (k, g) ∈ group_by key l → g = base.filter (λ x, key x = k) l ∧ g ≠ [])
  ∧ (∀ x, x ∈ l → key x ∈ fst <$> group_by key l).
Proof.
  induction l as [|x l IH] using rev_ind; [split_and!; [constructor|set_solver..]|].
  destruct IH as (Hnd & Hg & Hall). unfold group_by in *. rewrite foldl_snoc.
  set (groups := foldl _ [] l) in *. clearbody groups.
  destruct (push_group_keys (key x) x groups Hnd) as [Hnd' Hin]. split_and!; [done| |].
  - intros k g Hk. rewrite filter_app, filter_cons, filter_nil.
    apply push_group_elem in Hk as [[Hne Hk]|[-> [(g0 & Hk & ->)|[Hno ->]]]]; [| | |done].
    + rewrite decide_False by done. rewrite app_nil_r. by apply Hg.
    + rewrite decide_True by done. destruct (Hg _ _ Hk) as [<- _]. split; [done|]. by destruct g0.
    + rewrite decide_True by done. split; [|done].
      assert (base.filter (λ y, key y = key x) l = []) as ->; [|done].
      destruct (base.filter _ l) as [|y ys] eqn:Hf; [done|exfalso].
      assert (y ∈ base.filter (λ y, key y = key x) l) as Hy by (rewrite Hf; left).
      apply list_elem_of_filter in Hy as [Hkey Hy]. apply Hno. rewrite <-Hkey. by apply Hall.
  - intros y [Hy|Hy%list_elem_of_singleton]%elem_of_app; rewrite Hin; [right; by apply Hall|left; by subst].
Qed.
End groups.

(** ** Updating one field of a record

    A record with an [Eta] instance, the function that rebuilds it from its fields, has the
    notation [s <| field := v |>]: the setter is found by abstracting the field in the
    rebuilt record. *)

Class Eta (R : Type) := eta : R → R.
Class Update {R T : Type} (field : R → T) := update : (R → T) → R → R.

Ltac derive_update :=
  match goal with
  | |- @Update ?R ?T ?field =>
    let inst := constr:(_ : Eta R) in
    let body := eval cbv beta delta [eta] in (@eta R inst) in
    let body := eval red in body in
    let abstracted := eval pattern field in body in
    match abstracted with ?setter _ => exact setter end
  end.

#[export] Hint Extern 0 (Update _) => derive_update : typeclass_instances.

Notation "s <| field := v |>" := (@update _ _ field _ (λ _, v) s)
  (at level 12, left associativity, field at level 9, v at level 200,
   format "s  <| field  :=  v |>").

(** ** Invariants of step relations and of operation sequences *)

Lemma rtc_invariant {S} (step : relation S) (I : S → Prop) :
  (∀ s s', I s → step s s' → I s') → ∀ s s', rtc step s s' → I s → I s'.
Proof. intros Hstep s s'. induction 1; eauto. Qed.

Lemma foldl_invariant {S Op} (step : S → Op → S) (I : S → Prop) :
  (∀ s o, I s → I (step s o)) → ∀ ops s, I s → I (foldl step s ops).
Proof. intros H ops. induction ops as [|o ops IH]; intros s Hs; simpl; [done|]. by apply IH, H. Qed.

(** The same for a fold over a list whose elements satisfy more. *)
Lemma foldl_invariant_in {S A} (step : S → A → S) (I : S → Prop) l :
  (∀ s x, x ∈ l → I s → I (step s x)) → ∀ s, I s → I (foldl step s l).
Proof.
  induction l as [|x l IH]; intros H s Hs; simpl; [done|].
  apply IH; [intros; apply H; [by right|done]|]. apply H; [left|done].
Qed.

(** Case analysis on every boolean or decidable test of the goal or a hypothesis. *)
Ltac destruct_tests :=
  repeat (case_match || case_bool_decide || case_decide); simplify_eq/=.

Ltac unfold_lia := autorewrite with lmt in *; lia.
