(* ===== verification/JsSort.v ===== *)
(** * [Array.prototype.sort]

    The sort of the language is stable. It is modelled by insertion from the right, an
    element before those it is not after; [before a b]: the comparator of the code is
    negative on [a] and [b]. The laws assume what the standard asks of a comparator. *)

From Stdlib Require Import Sorted.
From S2P Require Import Prelude.

Section sort.
Context {A : Type} (before : A → A → bool).

Fixpoint insert_sorted (x : A) (l : list A) : list A :=
  match l with
  | [] => [x]
  | y :: l' => if before y x then y :: insert_sorted x l' else x :: l
  end.

Definition js_sort (l : list A) : list A := foldr insert_sorted [] l.

Lemma insert_sorted_perm x l : insert_sorted x l ≡ₚ x :: l.
Proof. induction l as [|y l IH]; simpl; [done|]. destruct (before y x); [|done]. rewrite IH. apply Permutation_swap. Qed.

Lemma js_sort_perm l : js_sort l ≡ₚ l.
Proof. induction l as [|x l IH]; simpl; [done|]. by rewrite insert_sorted_perm, IH. Qed.

Lemma js_sort_length l : length (js_sort l) = length l.
Proof. by rewrite js_sort_perm. Qed.

(** [a] may stand before [b]. *)
Definition in_order (a b : A) : Prop := before b a = false.

Lemma insert_sorted_id x l : Forall (in_order x) l → insert_sorted x l = x :: l.
Proof. destruct l as [|y l]; [done|]. intros [Hy _]%Forall_cons. simpl. by rewrite Hy. Qed.

Lemma js_sort_id l : StronglySorted in_order l → js_sort l = l.
Proof. induction 1 as [|x l Hl IH Hx]; [done|]. simpl. rewrite IH. by apply insert_sorted_id. Qed.

Hypothesis before_asym : ∀ a b, before a b = true → before b a = false.
Hypothesis in_order_trans : ∀ a b c, in_order a b → in_order b c → in_order a c.

Lemma insert_sorted_sorted x l : StronglySorted in_order l → StronglySorted in_order (insert_sorted x l).
Proof.
  induction 1 as [|y l Hl IH Hy]; simpl; [by repeat constructor|]. destruct (before y x) eqn:E.
  - constructor; [done|]. rewrite insert_sorted_perm. constructor; [by apply before_asym|done].
  - constructor; [by constructor|]. constructor; [done|]. eapply Forall_impl; [done|]. intros z Hz. by apply (in_order_trans x y z).
Qed.

Lemma js_sort_sorted l : StronglySorted in_order (js_sort l).
Proof. induction l as [|x l IH]; simpl; [constructor|]. by apply insert_sorted_sorted. Qed.

(** Stability: leaving elements out before or after the sort is the same. *)
Lemma js_sort_filter (P : A → Prop) `{∀ x, Decision (P x)} l : js_sort (filter P l) = filter P (js_sort l).
Proof.
  induction l as [|x l IH]; [done|]. rewrite filter_cons. cbn [js_sort foldr]. fold (js_sort l).
  assert (∀ m, StronglySorted in_order m →
    filter P (insert_sorted x m) = if decide (P x) then insert_sorted x (filter P m) else filter P m) as Hins.
  { clear l IH. intros m. induction 1 as [|y m Hm IHm Hy]; [simpl; by rewrite filter_cons|]. cbn [insert_sorted]. rewrite (filter_cons P y m).
    destruct (before y x) eqn:E.
    - rewrite filter_cons, IHm. destruct (decide (P y)), (decide (P x)); try done. cbn [insert_sorted]. by rewrite E.
    - rewrite filter_cons, (filter_cons P y m). destruct (decide (P x)); [|done]. destruct (decide (P y)); cbn [insert_sorted]; [by rewrite E|].
      symmetry. apply insert_sorted_id. apply Forall_forall. intros z [_ Hz]%list_elem_of_filter. rewrite Forall_forall in Hy.
      by apply (in_order_trans x y z); [|apply Hy]. }
  rewrite Hins by apply js_sort_sorted. rewrite <-IH. by destruct (decide (P x)).
Qed.
End sort.

(** A comparator [key b - key a] or [key a - key b]. *)
Section keys.
Context {A : Type} (key : A → Z).

Definition higher_first (a b : A) : bool := key b <? key a.
Definition lower_first (a b : A) : bool := key a <? key b.

Lemma higher_first_asym a b : higher_first a b = true → higher_first b a = false.
Proof. unfold higher_first. lia. Qed.
Lemma higher_first_trans a b c : in_order higher_first a b → in_order higher_first b c → in_order higher_first a c.
Proof. unfold in_order, higher_first. lia. Qed.
Lemma lower_first_asym a b : lower_first a b = true → lower_first b a = false.
Proof. unfold lower_first. lia. Qed.
Lemma lower_first_trans a b c : in_order lower_first a b → in_order lower_first b c → in_order lower_first a c.
Proof. unfold in_order, lower_first. lia. Qed.
End keys.
