(* ===== verification/Js.v ===== *)
(** * JavaScript values crossing a boundary

    Values received from the server, the native module or storage have the type [unknown]
    in the code and are inspected with [typeof], property reads and comparisons. This file
    has those values and operations; numbers are exact rationals or one of the three
    non-finite doubles. *)

From Stdlib Require Import QArith Qcanon.
From S2P Require Import Prelude.
Open Scope Z_scope.

Inductive jsnumber := Num (q : Qc) | NaN | PosInfinity | NegInfinity.

Inductive jsval :=
  | JUndefined
  | JNull
  | JBool (b : bool)
  | JNum (n : jsnumber)
  | JStr (s : string)
  | JArr (items : list jsval)
  | JObj (fields : list (string * jsval)).

#[global] Instance jsnumber_eq_dec : EqDecision jsnumber.
Proof. solve_decision. Defined.

Definition num_of_Z (z : Z) : jsnumber := Num (Q2Qc (inject_Z z)).
Coercion num_of_Z : Z >-> jsnumber.

(** [Number.isFinite], [Number.isInteger]. *)
Definition isFinite (n : jsnumber) : bool := match n with Num _ => true | _ => false end.
Definition integer_value (n : jsnumber) : option Z :=
  match n with
  | Num q => if (Qden (this q) =? 1)%positive then Some (Qnum (this q)) else None
  | _ => None
  end.
Definition isInteger (n : jsnumber) : bool := bool_decide (is_Some (integer_value n)).

(** [n <= k], [n >= k] and [n === k] against an integer literal: false on [NaN]. *)
Definition num_le (n : jsnumber) (k : Z) : bool :=
  match n with
  | Num q => Qle_bool (this q) (inject_Z k)
  | NegInfinity => true
  | _ => false
  end.
Definition num_ge (n : jsnumber) (k : Z) : bool :=
  match n with
  | Num q => Qle_bool (inject_Z k) (this q)
  | PosInfinity => true
  | _ => false
  end.
Definition num_gt (n : jsnumber) (k : Z) : bool :=
  match n with Num q => negb (Qle_bool (this q) (inject_Z k)) | PosInfinity => true | _ => false end.
Definition num_lt (n : jsnumber) (k : Z) : bool :=
  match n with Num q => negb (Qle_bool (inject_Z k) (this q)) | NegInfinity => true | _ => false end.
Definition num_is (n : jsnumber) (k : Z) : bool := bool_decide (n = num_of_Z k).

(** [typeof v === 'object' && v !== null]: a plain object or an array. *)
Definition is_object (v : jsval) : bool :=
  match v with JObj _ | JArr _ => true | _ => false end.

(** The own fields of an object; reading an absent one gives [undefined], and the field
    names the code reads are not properties of arrays. Of repeated keys the last counts. *)
Fixpoint lookup_field (fields : list (string * jsval)) (name : string) : jsval :=
  match fields with
  | [] => JUndefined
  | (k, v) :: fields =>
    match lookup_field fields name with
    | JUndefined => if bool_decide (k = name) then v else JUndefined
    | later => later
    end
  end.
Definition field (v : jsval) (name : string) : jsval :=
  match v with JObj fields => lookup_field fields name | _ => JUndefined end.

(** [v === 'literal'] and [v === true]. *)
Definition is_str (v : jsval) (literal : string) : bool :=
  match v with JStr s => bool_decide (s = literal) | _ => false end.
Definition is_true (v : jsval) : bool := match v with JBool b => b | _ => false end.

(** [typeof v === 'string' ? v : fallback], the same for numbers that satisfy a guard, and
    the optional forms. *)
Definition str_or (v : jsval) (fallback : string) : string :=
  match v with JStr s => s | _ => fallback end.
Definition opt_str (v : jsval) : option string := match v with JStr s => Some s | _ => None end.
Definition opt_nonempty (v : jsval) : option string :=
  match v with JStr s => if truthy s then Some s else None | _ => None end.
Definition num_or (guard : jsnumber → bool) (v : jsval) (fallback : jsnumber) : jsnumber :=
  match v with JNum n => if guard n then n else fallback | _ => fallback end.
Definition opt_num (v : jsval) : option jsnumber := match v with JNum n => Some n | _ => None end.
Definition is_num (v : jsval) : bool := match v with JNum _ => true | _ => false end.

(** A value as a condition. *)
Definition js_truthy (v : jsval) : bool :=
  match v with
  | JUndefined | JNull => false
  | JBool b => b
  | JNum (Num q) => negb (bool_decide (q = 0%Qc))
  | JNum NaN => false
  | JStr s => truthy s
  | _ => true
  end.

(** A string that is one of the literals of a table. *)
Definition str_literal {A} (table : list (string * A)) (v : jsval) : option A :=
  match v with JStr s => of_literal table s | _ => None end.

Definition nonneg_finite (n : jsnumber) : bool := isFinite n && num_ge n 0.

Lemma integer_value_Z z : integer_value (num_of_Z z) = Some z.
Proof.
  unfold num_of_Z, integer_value, Q2Qc, this, Qred, inject_Z.
  pose proof (Z.ggcd_gcd z 1) as Hg. pose proof (Z.ggcd_correct_divisors z 1) as Hd.
  destruct (Z.ggcd z 1) as [g [a b]]. simpl in *. rewrite Z.gcd_1_r in Hg. subst g.
  destruct Hd as [Ha Hb]. assert (b = 1) as -> by lia. simpl. f_equal. lia.
Qed.

Lemma num_or_nonneg v :
  ∀ n, num_or nonneg_finite v 0 = n → isFinite n = true ∧ num_ge n 0 = true.
Proof.
  intros n <-. unfold num_or. destruct v; try done. destruct (nonneg_finite n) eqn:H; [|done].
  by apply andb_prop in H.
Qed.

(** ** Strings *)

Fixpoint string_length (s : string) : nat :=
  match s with EmptyString => 0 | String _ s => S (string_length s) end.

Fixpoint string_filter (P : Ascii.ascii → bool) (s : string) : string :=
  match s with
  | EmptyString => EmptyString
  | String c s => if P c then String c (string_filter P s) else string_filter P s
  end.

Fixpoint string_forallb (P : Ascii.ascii → bool) (s : string) : bool :=
  match s with EmptyString => true | String c s => P c && string_forallb P s end.

Fixpoint startsWith (s p : string) : bool :=
  match p, s with
  | EmptyString, _ => true
  | String c p, String d s => bool_decide (c = d) && startsWith s p
  | String _ _, EmptyString => false
  end.

(** [String.prototype.toLowerCase] on ASCII text; other characters are kept, and none of
    them lowers to a hexadecimal digit. *)
Definition ascii_lower (c : Ascii.ascii) : Ascii.ascii :=
  let n := Ascii.nat_of_ascii c in
  if (65 <=? n)%nat && (n <=? 90)%nat then Ascii.ascii_of_nat (n + 32) else c.

Fixpoint toLowerCase (s : string) : string :=
  match s with
  | EmptyString => EmptyString
  | String c s => String (ascii_lower c) (toLowerCase s)
  end.

(** [[0-9a-f]]. *)
Definition is_hex (c : Ascii.ascii) : bool :=
  let n := Ascii.nat_of_ascii c in
  (48 <=? n)%nat && (n <=? 57)%nat || (97 <=? n)%nat && (n <=? 102)%nat.

(** [/^[0-9a-f]{64}$/]. *)
Definition is_hex64 (s : string) : bool :=
  (string_length s =? 64)%nat && string_forallb is_hex s.

Lemma is_hex64_truthy s : is_hex64 s = true → truthy s = true.
Proof. destruct s; done. Qed.

Lemma string_filter_forallb P s : string_forallb P (string_filter P s) = true.
Proof. induction s as [|c s IH]; simpl; [done|]. destruct (P c) eqn:E; simpl; [by rewrite E|done]. Qed.

Lemma string_filter_id P s : string_forallb P s = true → string_filter P s = s.
Proof.
  induction s as [|c s IH]; simpl; [done|]. intros [-> ?]%andb_prop. by rewrite IH.
Qed.

Lemma ascii_lower_hex c : is_hex c = true → ascii_lower c = c.
Proof. destruct c as [[] [] [] [] [] [] [] []]; vm_compute; done. Qed.

Lemma ascii_lower_idem c : ascii_lower (ascii_lower c) = ascii_lower c.
Proof. destruct c as [[] [] [] [] [] [] [] []]; vm_compute; done. Qed.

Lemma toLowerCase_hex s : string_forallb is_hex s = true → toLowerCase s = s.
Proof.
  induction s as [|c s IH]; simpl; [done|]. intros [Hc Hs]%andb_prop.
  by rewrite ascii_lower_hex, IH.
Qed.

Lemma startsWith_app s p : startsWith (p +:+ s) p = true.
Proof. induction p as [|c p IH]; simpl; [by destruct s|]. by rewrite bool_decide_eq_true_2. Qed.

(** ** [String.prototype.trim], for ASCII white space *)

Definition is_space (c : Ascii.ascii) : bool :=
  let n := Ascii.nat_of_ascii c in (n =? 32)%nat || ((9 <=? n) && (n <=? 13))%nat.
Fixpoint trim_start (s : string) : string :=
  match s with String c s' => if is_space c then trim_start s' else s | EmptyString => EmptyString end.
Fixpoint trim_end (s : string) : string :=
  match s with
  | EmptyString => EmptyString
  | String c s => match trim_end s with
                  | EmptyString => if is_space c then EmptyString else String c EmptyString
                  | s => String c s
                  end
  end.
Definition trim (s : string) : string := trim_end (trim_start s).
