(* ===== verification/UploadTypes.v ===== *)
(** * Shared data of the upload pipeline

    The enumerations, records and small total functions of
    [services/upload/{types,errors,mediaVariants,transferLimits,preparationPolicy}.ts],
    [services/MediaScanner.ts] (the asset record), [api/types.ts] and [api/errors.ts].
    Optional properties ([x?: T]) are [option T]. The literals of a string union are the
    constructors of an inductive type; its table gives the strings themselves. *)

From S2P Require Import Prelude Js.

(** ** [mediaVariants.ts] *)

(* src: services/upload/mediaVariants.ts:1-15 [MediaVariantRole] *)
Inductive MediaVariantRole :=
  | original_photo | original_video | raw_original | jpeg_companion
  | live_photo_still | live_photo_motion | edited_photo | edited_video
  | edited_live_photo_still | expo_fallback_role | unknown_role.

(* src: services/upload/mediaVariants.ts:16-16 [MediaComponentSemantics] *)
Inductive MediaComponentSemantics := primary | optional.

(* src: services/upload/mediaVariants.ts:17-24 [MediaMaterializationPath] *)
Inductive MediaMaterializationPath :=
  | photo_resource | video_resource | raw_resource | live_photo_motion_path
  | current_image | current_video | expo_direct.

#[global] Instance MediaVariantRole_eq_dec : EqDecision MediaVariantRole.
Proof. solve_decision. Defined.
#[global] Instance MediaComponentSemantics_eq_dec : EqDecision MediaComponentSemantics.
Proof. solve_decision. Defined.
#[global] Instance MediaMaterializationPath_eq_dec : EqDecision MediaMaterializationPath.
Proof. solve_decision. Defined.

(* src: services/upload/mediaVariants.ts:1-13 [MEDIA_VARIANT_ROLES] *)
Definition MEDIA_VARIANT_ROLES : list (string * MediaVariantRole) :=
  [ ("original-photo", original_photo); ("original-video", original_video);
    ("raw-original", raw_original); ("jpeg-companion", jpeg_companion);
    ("live-photo-still", live_photo_still); ("live-photo-motion", live_photo_motion);
    ("edited-photo", edited_photo); ("edited-video", edited_video);
    ("edited-live-photo-still", edited_live_photo_still);
    ("expo-fallback", expo_fallback_role); ("unknown", unknown_role) ].

(* src: services/upload/mediaVariants.ts:26-30 [isMediaVariantRole] *)
Definition isMediaVariantRole (value : string) : option MediaVariantRole :=
  of_literal MEDIA_VARIANT_ROLES value.

(* src: services/upload/mediaVariants.ts:32-46 [mediaVariantLabel] *)
Definition mediaVariantLabel (role : MediaVariantRole) : string :=
  match role with
  | original_photo => "Original photo"
  | original_video => "Original video"
  | raw_original => "RAW original"
  | jpeg_companion => "JPEG companion"
  | live_photo_still => "Live Photo still"
  | live_photo_motion => "Live Photo motion"
  | edited_photo => "Current edited photo"
  | edited_video => "Current edited video"
  | edited_live_photo_still => "Current edited Live Photo still"
  | expo_fallback_role => "Expo compatibility file"
  | unknown_role => "Media file"
  end.

(* src: services/upload/mediaVariants.ts:48-57 [mediaComponentFailureMessage] *)
Definition mediaComponentFailureMessage
    (role : MediaVariantRole) (semantics : MediaComponentSemantics) (message : string) : string :=
  let component := mediaVariantLabel role in
  match semantics with
  | optional => "Optional " +:+ toLowerCase component
                +:+ " failed. The main media can still transfer. " +:+ message
  | primary => message
  end.

(** ** [errors.ts] *)

(* src: services/upload/errors.ts:1-8 [TransferStage] *)
Inductive TransferStage :=
  | stage_rendition | stage_metadata | stage_filename | stage_preflight
  | stage_upload | stage_network | stage_server.

(* src: services/upload/errors.ts:10-32 [TransferErrorCode] *)
Inductive TransferErrorCode :=
  | asset_info_unavailable | file_missing | file_size_unavailable | temporary_storage_limit
  | invalid_prepared_file | icloud_resource_unavailable | prepared_file_not_owned | file_changed
  | native_hashing_unavailable | asset_not_found | resource_not_found | invalid_filename_request
  | filename_resolution_failed | preflight_unavailable | file_empty | file_read_failed
  | request_timeout | unauthorized | server_rejected | upload_failed | cancelled | unexpected.

#[global] Instance TransferStage_eq_dec : EqDecision TransferStage.
Proof. solve_decision. Defined.
#[global] Instance TransferErrorCode_eq_dec : EqDecision TransferErrorCode.
Proof. solve_decision. Defined.

(* src: services/upload/errors.ts:34-57 [userMessages] *)
Definition userMessages (code : TransferErrorCode) : string :=
  match code with
  | asset_info_unavailable => "The selected item could not be loaded from Photos."
  | file_missing => "The selected item is not currently available on this iPhone."
  | file_size_unavailable => "The selected item size could not be read."
  | temporary_storage_limit => "This iPhone does not have enough free space to prepare this media item. Free storage, then retry. For smaller selections, Settings > Transfer while preparing reduces temporary storage use."
  | invalid_prepared_file => "The prepared media item could not be registered safely. Try selecting it again."
  | icloud_resource_unavailable => "The original is stored in iCloud. Download it in Photos, then retry the transfer."
  | prepared_file_not_owned => "The prepared file is no longer part of this transfer. Prepare the selection again."
  | file_changed => "The prepared file changed while duplicates were being checked. Prepare it again."
  | native_hashing_unavailable => "Native duplicate checking is unavailable in this installed app. Reinstall or update the app before retrying."
  | asset_not_found => "Photos could not find the selected item."
  | resource_not_found => "Photos did not provide the original filename for this item."
  | invalid_filename_request => "The selected item had invalid filename information."
  | filename_resolution_failed => "The original filename could not be verified."
  | preflight_unavailable => "The desktop duplicate check was unavailable."
  | file_empty => "The selected item contains no transferable data."
  | file_read_failed => "The selected item could not be read."
  | request_timeout => "The desktop did not respond in time."
  | unauthorized => "The desktop session changed. Scan the current QR code to reconnect."
  | server_rejected => "The desktop rejected this file."
  | upload_failed => "The file could not be uploaded."
  | cancelled => "The transfer was cancelled."
  | unexpected => "An unexpected transfer error occurred."
  end.

(* src: services/upload/errors.ts:59-68 [TransferFailure] *)
Record TransferFailure := {
  tf_stage : TransferStage;
  tf_code : TransferErrorCode;
  tf_fatal : bool }.

Definition failure_of (stage : TransferStage) (code : TransferErrorCode) : TransferFailure :=
  {| tf_stage := stage; tf_code := code; tf_fatal := false |}.
Definition fatal_failure (stage : TransferStage) (code : TransferErrorCode) : TransferFailure :=
  {| tf_stage := stage; tf_code := code; tf_fatal := true |}.

(* src: api/errors.ts:1-7 [ApiRequestError] *)
Record ApiRequestError := { are_message : string; are_status : Z }.

(** A value a [catch] clause receives: one of the two classes the code tests with
    [instanceof], or anything else. *)
Inductive thrown :=
  | ThrownTransferFailure (f : TransferFailure)
  | ThrownApiRequestError (e : ApiRequestError)
  | ThrownOther (message : string).

#[global] Instance TransferFailure_eq_dec : EqDecision TransferFailure.
Proof. solve_decision. Defined.
#[global] Instance ApiRequestError_eq_dec : EqDecision ApiRequestError.
Proof. solve_decision. Defined.
#[global] Instance thrown_eq_dec : EqDecision thrown.
Proof. solve_decision. Defined.

(* src: api/errors.ts:9-12 [isUnauthorizedError] *)
Definition isUnauthorizedError (error : thrown) : bool :=
  match error with ThrownApiRequestError e => are_status e =? 401 | _ => false end.

(* src: services/upload/errors.ts:70-77 [transferFailure] *)
Definition transferFailure (value : thrown) (stage : TransferStage) (fallbackCode : TransferErrorCode)
    : TransferFailure :=
  match value with
  | ThrownTransferFailure f => f
  | _ => failure_of stage fallbackCode
  end.

(* src: services/upload/errors.ts:79-81 [transferErrorMessage] *)
Definition transferErrorMessage (code : TransferErrorCode) : string := userMessages code.

(** ** [transferLimits.ts] *)

Module TransferLimits.
(* src: services/upload/transferLimits.ts:3-3 [MaxChunksPerFile] *)
Definition MaxChunksPerFile : Z := 10000.
(* src: services/upload/transferLimits.ts:4-4 [MaxFileBytes] *)
Definition MaxFileBytes : Z := 107374182400.
(* src: services/upload/transferLimits.ts:5-5 [MaxQueuedFiles] *)
Definition MaxQueuedFiles : Z := 1000.
(* src: services/upload/transferLimits.ts:6-6 [NativeChunkBytes] *)
Definition NativeChunkBytes : Z := 8388608.
(* src: services/upload/transferLimits.ts:7-7 [CompatibilityChunkBytes] *)
Definition CompatibilityChunkBytes : Z := 4194304.
(* src: services/upload/transferLimits.ts:9-9 [MaxChunkBytes] *)
Definition MaxChunkBytes : Z := 67108864.
End TransferLimits.

(** ** [types.ts], [MediaScanner.ts] and [api/types.ts] *)

(* src: services/upload/types.ts:11-11 [ThermalState] *)
Inductive ThermalState := nominal | fair | serious | critical.
(* src: services/upload/types.ts:12-12 [ThermalPolicy] *)
Inductive ThermalPolicy := monitor_only | adaptive.
(* src: services/upload/types.ts:13-13 [PreparationMode] *)
Inductive PreparationMode := prepare_first | streaming.
(* src: services/upload/types.ts:14-14 [TransferCompletionStatus] *)
Inductive TransferCompletionStatus := status_completed | status_mixed | status_cancelled | status_fatal.
(* src: services/upload/types.ts:15-15 [PreparationActivity] *)
Inductive PreparationActivity := activity_preparing | activity_checking | activity_waiting | activity_complete.
(* src: services/upload/types.ts:16-16 [DuplicateCheckStage] *)
Inductive DuplicateCheckStage := finding_matches | checking_contents | verifying_windows.
(* src: api/types.ts:18-18 [PreflightAction] *)
Inductive PreflightAction := upload | skip | hash_required.
(* src: services/upload/types.ts:38-38 [DuplicateSource] *)
Inductive DuplicateSource := receiver_preflight | outgoing_selection.
(* src: services/upload/types.ts:30-30 [FilenameSource] *)
Inductive FilenameSource := apple_resource | expo_fallback.
(* src: services/MediaScanner.ts:6-6 [MediaType] *)
Inductive MediaType := photo | video.

#[global] Instance ThermalState_eq_dec : EqDecision ThermalState.
Proof. solve_decision. Defined.
#[global] Instance ThermalPolicy_eq_dec : EqDecision ThermalPolicy.
Proof. solve_decision. Defined.
#[global] Instance PreparationMode_eq_dec : EqDecision PreparationMode.
Proof. solve_decision. Defined.
#[global] Instance TransferCompletionStatus_eq_dec : EqDecision TransferCompletionStatus.
Proof. solve_decision. Defined.
#[global] Instance PreflightAction_eq_dec : EqDecision PreflightAction.
Proof. solve_decision. Defined.
#[global] Instance DuplicateSource_eq_dec : EqDecision DuplicateSource.
Proof. solve_decision. Defined.
#[global] Instance FilenameSource_eq_dec : EqDecision FilenameSource.
Proof. solve_decision. Defined.
#[global] Instance MediaType_eq_dec : EqDecision MediaType.
Proof. solve_decision. Defined.

(* src: services/MediaScanner.ts:3-12 [MediaAsset] *)
Record MediaAsset := {
  asset_id : string;
  asset_uri : string;
  asset_type : MediaType;
  asset_filename : string }.

(* src: services/upload/types.ts:18-40 [PreparedUploadFile] *)
Record PreparedUploadFile := {
  f_asset : MediaAsset;
  f_variantId : string;
  f_mediaRole : MediaVariantRole;
  f_componentSemantics : MediaComponentSemantics;
  f_originalFilename : string;
  f_fileRef : Z;
  f_windowIndex : Z;
  f_nativeUri : string;
  f_size : Z;
  f_computedHash : string;
  f_transferFilename : string;
  f_filenameSource : FilenameSource;
  f_temporary : option bool;
  f_contentType : option string;
  f_materializationPath : option MediaMaterializationPath;
  f_materializationDurationMs : option jsnum;
  f_temporaryBytesWritten : option jsnum;
  f_preflightAction : option PreflightAction;
  f_duplicateMatchedFilename : option string;
  f_duplicateSource : option DuplicateSource;
  f_preflightFailureCode : option TransferErrorCode }.

#[export] Instance eta_PreparedUploadFile : Eta PreparedUploadFile := λ f,
  {| f_asset := f_asset f; f_variantId := f_variantId f; f_mediaRole := f_mediaRole f;
     f_componentSemantics := f_componentSemantics f; f_originalFilename := f_originalFilename f;
     f_fileRef := f_fileRef f; f_windowIndex := f_windowIndex f; f_nativeUri := f_nativeUri f;
     f_size := f_size f; f_computedHash := f_computedHash f;
     f_transferFilename := f_transferFilename f; f_filenameSource := f_filenameSource f;
     f_temporary := f_temporary f; f_contentType := f_contentType f;
     f_materializationPath := f_materializationPath f;
     f_materializationDurationMs := f_materializationDurationMs f;
     f_temporaryBytesWritten := f_temporaryBytesWritten f;
     f_preflightAction := f_preflightAction f;
     f_duplicateMatchedFilename := f_duplicateMatchedFilename f;
     f_duplicateSource := f_duplicateSource f; f_preflightFailureCode := f_preflightFailureCode f |}.

(* src: services/upload/types.ts:42-52 [PreparationFailure] *)
Record PreparationFailure := {
  pf_asset : MediaAsset;
  pf_itemId : string;
  pf_mediaRole : option MediaVariantRole;
  pf_componentSemantics : option MediaComponentSemantics;
  pf_originalFilename : option string;
  pf_fileRef : Z;
  pf_windowIndex : Z;
  pf_stage : TransferStage;
  pf_code : TransferErrorCode }.

(* src: services/upload/types.ts:54-66 [PreparedWindow] *)
Record PreparedWindow := {
  pw_windowIndex : Z;
  pw_files : list PreparedUploadFile;
  pw_failures : list PreparationFailure;
  pw_filenameResolutionAppleCount : Z;
  pw_discoveredBytes : Z;
  pw_selectedMediaBytes : Z;
  pw_additionalComponentsBytes : Z;
  pw_selectedMediaFiles : Z;
  pw_additionalComponentsFiles : Z }.

(** ** [preparationPolicy.ts] *)

(* src: services/upload/preparationPolicy.ts:3-3 [MAX_PREPARE_FIRST_ASSETS] *)
Definition MAX_PREPARE_FIRST_ASSETS : Z := 250.
(* src: services/upload/preparationPolicy.ts:4-4 [STREAMING_PREPARATION_WINDOW_SIZE] *)
Definition STREAMING_PREPARATION_WINDOW_SIZE : Z := 16.
(* src: services/upload/preparationPolicy.ts:5-5 [STREAMING_READY_QUEUE_CAPACITY] *)
Definition STREAMING_READY_QUEUE_CAPACITY : Z := 2.

(* src: services/upload/preparationPolicy.ts:7-13 [PreparationPolicy] *)
Record PreparationPolicy := {
  requestedMode : PreparationMode;
  effectiveMode : PreparationMode;
  automaticallyStreamsLargeSelection : bool;
  windowSize : Z;
  queueCapacity : Z }.

(* src: services/upload/preparationPolicy.ts:22-49 [resolvePreparationPolicy] *)
Definition resolvePreparationPolicy
    (requested : PreparationMode) (nativeAvailable : bool) (selectedAssetCount : Z)
    : PreparationPolicy :=
  let automaticallyStreams :=
    nativeAvailable && bool_decide (requested = prepare_first)
    && (MAX_PREPARE_FIRST_ASSETS <? selectedAssetCount) in
  let boundedNativeStreaming :=
    nativeAvailable && (bool_decide (requested = streaming) || automaticallyStreams) in
  {| requestedMode := requested;
     effectiveMode := if boundedNativeStreaming then streaming else requested;
     automaticallyStreamsLargeSelection := automaticallyStreams;
     windowSize := if boundedNativeStreaming
                   then STREAMING_PREPARATION_WINDOW_SIZE else MAX_PREPARE_FIRST_ASSETS;
     queueCapacity := if boundedNativeStreaming
                      then STREAMING_READY_QUEUE_CAPACITY else MAX_PREPARE_FIRST_ASSETS |}.

(** ** Properties *)

(** An installed app never retains more exported components than one prepare-first
    window: prepare-first is kept only for a selection that fits the window, larger
    ones stream through windows of 16 and a ready queue of 2; a mode the user asked for
    is otherwise honoured, and without the native module nothing changes. *)
Lemma resolvePreparationPolicy_bounded requested nativeAvailable n :
  let p := resolvePreparationPolicy requested nativeAvailable n in
  (nativeAvailable = true → effectiveMode p = prepare_first →
     n <= MAX_PREPARE_FIRST_ASSETS ∧ requested = prepare_first
     ∧ windowSize p = MAX_PREPARE_FIRST_ASSETS ∧ queueCapacity p = MAX_PREPARE_FIRST_ASSETS)
  ∧ (nativeAvailable = true → effectiveMode p = streaming →
     windowSize p = STREAMING_PREPARATION_WINDOW_SIZE
     ∧ queueCapacity p = STREAMING_READY_QUEUE_CAPACITY)
  ∧ (nativeAvailable = false →
     effectiveMode p = requested ∧ windowSize p = MAX_PREPARE_FIRST_ASSETS)
  ∧ (automaticallyStreamsLargeSelection p = true ↔
     nativeAvailable = true ∧ requested = prepare_first ∧ MAX_PREPARE_FIRST_ASSETS < n).
Proof.
  unfold resolvePreparationPolicy, MAX_PREPARE_FIRST_ASSETS; simpl.
  destruct nativeAvailable, requested, (Z.ltb_spec 250 n); simpl; repeat case_bool_decide; simpl; try done;
    repeat split; intros; destruct_and?; try done; lia.
Qed.

Lemma resolvePreparationPolicy_positive requested native n :
  0 < windowSize (resolvePreparationPolicy requested native n)
  ∧ 0 < queueCapacity (resolvePreparationPolicy requested native n).
Proof. unfold resolvePreparationPolicy; simpl. destruct_tests; split; reflexivity. Qed.
