(* ===== verification/Accounting.v ===== *)
(** * Transfer accounting ([services/upload/TransferAccounting.ts])

    [TransferOutcomes] records one terminal outcome per expanded media item;
    [UploadWorkerActivity] measures the time in which every upload worker is idle. Each
    class is a record of its private fields with one function per method. *)

From S2P Require Import Prelude UploadTypes.

(** ** Terminal outcomes *)

(* src: services/upload/TransferAccounting.ts:4-8 [counts] *)
Record OutcomeCounts := {
  filesCompleted : Z; uploadedFiles : Z; skippedFiles : Z; failedFiles : Z;
  preparationFailedFiles : Z; successfulUploadedBytes : Z; skippedBytes : Z;
  avoidedBytes : Z; finalizationDuplicateBytes : Z; serverSkippedFiles : Z;
  serverSkippedBytes : Z }.

Definition zero_counts : OutcomeCounts :=
  {| filesCompleted := 0; uploadedFiles := 0; skippedFiles := 0; failedFiles := 0;
     preparationFailedFiles := 0; successfulUploadedBytes := 0; skippedBytes := 0;
     avoidedBytes := 0; finalizationDuplicateBytes := 0; serverSkippedFiles := 0;
     serverSkippedBytes := 0 |}.

(** [counts.x += ...] on every field. *)
Definition add_counts (a b : OutcomeCounts) : OutcomeCounts :=
  {| filesCompleted := filesCompleted a + filesCompleted b;
     uploadedFiles := uploadedFiles a + uploadedFiles b;
     skippedFiles := skippedFiles a + skippedFiles b;
     failedFiles := failedFiles a + failedFiles b;
     preparationFailedFiles := preparationFailedFiles a + preparationFailedFiles b;
     successfulUploadedBytes := successfulUploadedBytes a + successfulUploadedBytes b;
     skippedBytes := skippedBytes a + skippedBytes b;
     avoidedBytes := avoidedBytes a + avoidedBytes b;
     finalizationDuplicateBytes := finalizationDuplicateBytes a + finalizationDuplicateBytes b;
     serverSkippedFiles := serverSkippedFiles a + serverSkippedFiles b;
     serverSkippedBytes := serverSkippedBytes a + serverSkippedBytes b |}.

Lemma OutcomeCounts_ext a b :
  filesCompleted a = filesCompleted b → uploadedFiles a = uploadedFiles b →
  skippedFiles a = skippedFiles b → failedFiles a = failedFiles b →
  preparationFailedFiles a = preparationFailedFiles b →
  successfulUploadedBytes a = successfulUploadedBytes b → skippedBytes a = skippedBytes b →
  avoidedBytes a = avoidedBytes b →
  finalizationDuplicateBytes a = finalizationDuplicateBytes b →
  serverSkippedFiles a = serverSkippedFiles b → serverSkippedBytes a = serverSkippedBytes b →
  a = b.
Proof. destruct a, b; simpl; congruence. Qed.

Ltac counts_eq := apply OutcomeCounts_ext; simpl; lia.

Lemma add_counts_assoc a b c : add_counts a (add_counts b c) = add_counts (add_counts a b) c.
Proof. counts_eq. Qed.
Lemma add_counts_comm a b : add_counts a b = add_counts b a.
Proof. counts_eq. Qed.
Lemma add_counts_0_l a : add_counts zero_counts a = a.
Proof. counts_eq. Qed.
Lemma add_counts_0_r a : add_counts a zero_counts = a.
Proof. counts_eq. Qed.

Inductive SkipStage := skip_preflight | skip_finalization.

Module TransferOutcomes.

(* src: services/upload/TransferAccounting.ts:2-8 [TransferOutcomes] *)
Record t := { terminalIds : gset string; counts : OutcomeCounts }.

Definition new : t := {| terminalIds := ∅; counts := zero_counts |}.

(* src: services/upload/TransferAccounting.ts:24-29 [begin] *)
Definition begin (s : t) (id : string) : bool * t :=
  if decide (id ∈ terminalIds s) then (false, s) else
  let c := counts s in
  (true,
   {| terminalIds := {[ id ]} ∪ terminalIds s;
      counts := {| filesCompleted := filesCompleted c + 1; uploadedFiles := uploadedFiles c;
                   skippedFiles := skippedFiles c; failedFiles := failedFiles c;
                   preparationFailedFiles := preparationFailedFiles c;
                   successfulUploadedBytes := successfulUploadedBytes c;
                   skippedBytes := skippedBytes c; avoidedBytes := avoidedBytes c;
                   finalizationDuplicateBytes := finalizationDuplicateBytes c;
                   serverSkippedFiles := serverSkippedFiles c;
                   serverSkippedBytes := serverSkippedBytes c |} |}).

(** The counters after [begin] returned [true] and the method added its own part. *)
Definition commit (s : t) (c : OutcomeCounts) : t :=
  {| terminalIds := terminalIds s; counts := c |}.

(* src: services/upload/TransferAccounting.ts:31-36 [fail] *)
Definition fail (s : t) (id : string) (preparation : bool) : bool * t :=
  let (fresh, s) := begin s id in
  if negb fresh then (false, s) else
  let c := counts s in
  (true, commit s
    {| filesCompleted := filesCompleted c; uploadedFiles := uploadedFiles c;
       skippedFiles := skippedFiles c; failedFiles := failedFiles c + 1;
       preparationFailedFiles := if preparation then preparationFailedFiles c + 1
                                 else preparationFailedFiles c;
       successfulUploadedBytes := successfulUploadedBytes c;
       skippedBytes := skippedBytes c; avoidedBytes := avoidedBytes c;
       finalizationDuplicateBytes := finalizationDuplicateBytes c;
       serverSkippedFiles := serverSkippedFiles c; serverSkippedBytes := serverSkippedBytes c |}).

(* src: services/upload/TransferAccounting.ts:38-48 [skip] *)
Definition skip (s : t) (id : string) (bytes : Z) (stage : SkipStage) : t :=
  let (fresh, s) := begin s id in
  if negb fresh then s else
  let c := counts s in
  commit s
    match stage with
    | skip_preflight =>
      {| filesCompleted := filesCompleted c; uploadedFiles := uploadedFiles c;
         skippedFiles := skippedFiles c + 1; failedFiles := failedFiles c;
         preparationFailedFiles := preparationFailedFiles c;
         successfulUploadedBytes := successfulUploadedBytes c;
         skippedBytes := skippedBytes c + bytes; avoidedBytes := avoidedBytes c + bytes;
         finalizationDuplicateBytes := finalizationDuplicateBytes c;
         serverSkippedFiles := serverSkippedFiles c;
         serverSkippedBytes := serverSkippedBytes c |}
    | skip_finalization =>
      {| filesCompleted := filesCompleted c; uploadedFiles := uploadedFiles c;
         skippedFiles := skippedFiles c + 1; failedFiles := failedFiles c;
         preparationFailedFiles := preparationFailedFiles c;
         successfulUploadedBytes := successfulUploadedBytes c;
         skippedBytes := skippedBytes c + bytes; avoidedBytes := avoidedBytes c;
         finalizationDuplicateBytes := finalizationDuplicateBytes c + bytes;
         serverSkippedFiles := serverSkippedFiles c + 1;
         serverSkippedBytes := serverSkippedBytes c + bytes |}
    end.

(* src: services/upload/TransferAccounting.ts:50-54 [save] *)
Definition save (s : t) (id : string) (bytes : Z) : t :=
  let (fresh, s) := begin s id in
  if negb fresh then s else
  let c := counts s in
  commit s
    {| filesCompleted := filesCompleted c; uploadedFiles := uploadedFiles c + 1;
       skippedFiles := skippedFiles c; failedFiles := failedFiles c;
       preparationFailedFiles := preparationFailedFiles c;
       successfulUploadedBytes := successfulUploadedBytes c + bytes;
       skippedBytes := skippedBytes c; avoidedBytes := avoidedBytes c;
       finalizationDuplicateBytes := finalizationDuplicateBytes c;
       serverSkippedFiles := serverSkippedFiles c; serverSkippedBytes := serverSkippedBytes c |}.

End TransferOutcomes.

(** *** Abstract specification: the first outcome of each item, tallied *)

Inductive outcome :=
  | Failed (preparation : bool)
  | Skipped (bytes : Z) (stage : SkipStage)
  | Saved (bytes : Z).

(** One call of [fail], [skip] or [save]. *)
Definition record_outcome (s : TransferOutcomes.t) (op : string * outcome) : TransferOutcomes.t :=
  match op with
  | (id, Failed preparation) => snd (TransferOutcomes.fail s id preparation)
  | (id, Skipped bytes stage) => TransferOutcomes.skip s id bytes stage
  | (id, Saved bytes) => TransferOutcomes.save s id bytes
  end.

Definition record_all (ops : list (string * outcome)) : TransferOutcomes.t :=
  foldl record_outcome TransferOutcomes.new ops.

(** What one terminal outcome contributes to a report. *)
Definition tally_one (o : outcome) : OutcomeCounts :=
  let b (c : bool) (z : Z) := if c then z else 0 in
  let is_fail := match o with Failed _ => true | _ => false end in
  let is_prep := match o with Failed p => p | _ => false end in
  let is_skip := match o with Skipped _ _ => true | _ => false end in
  let is_final := match o with Skipped _ skip_finalization => true | _ => false end in
  let is_save := match o with Saved _ => true | _ => false end in
  let bytes := match o with Failed _ => 0 | Skipped n _ => n | Saved n => n end in
  {| filesCompleted := 1; uploadedFiles := b is_save 1; skippedFiles := b is_skip 1;
     failedFiles := b is_fail 1; preparationFailedFiles := b is_prep 1;
     successfulUploadedBytes := b is_save bytes; skippedBytes := b is_skip bytes;
     avoidedBytes := b (is_skip && negb is_final) bytes;
     finalizationDuplicateBytes := b is_final bytes; serverSkippedFiles := b is_final 1;
     serverSkippedBytes := b is_final bytes |}.

Definition tally (os : list outcome) : OutcomeCounts :=
  foldr (λ o acc, add_counts (tally_one o) acc) zero_counts os.

(** The calls that are the first for their item. *)
Fixpoint first_outcomes (seen : gset string) (ops : list (string * outcome)) : list (string * outcome) :=
  match ops with
  | [] => []
  | (id, o) :: ops =>
    if decide (id ∈ seen) then first_outcomes seen ops
    else (id, o) :: first_outcomes ({[ id ]} ∪ seen) ops
  end.

Lemma tally_app os1 os2 : tally (os1 ++ os2) = add_counts (tally os1) (tally os2).
Proof.
  induction os1 as [|o os1 IH]; simpl; [by rewrite add_counts_0_l|].
  by rewrite IH, add_counts_assoc.
Qed.

Lemma tally_Permutation os1 os2 : os1 ≡ₚ os2 → tally os1 = tally os2.
Proof.
  induction 1 as [| | |? ? ? ? IH1 ? IH2]; simpl; [done|congruence| |congruence].
  rewrite !add_counts_assoc. f_equal. apply add_counts_comm.
Qed.

(** One call on a seen item changes nothing; on a fresh item it adds its tally. *)
Lemma record_outcome_seen s id o :
  id ∈ TransferOutcomes.terminalIds s → record_outcome s (id, o) = s.
Proof.
  intros Hid. destruct o; simpl;
    unfold TransferOutcomes.fail, TransferOutcomes.skip, TransferOutcomes.save,
      TransferOutcomes.begin; by rewrite decide_True.
Qed.

Lemma record_outcome_fresh s id o :
  id ∉ TransferOutcomes.terminalIds s →
  record_outcome s (id, o) =
    {| TransferOutcomes.terminalIds := {[ id ]} ∪ TransferOutcomes.terminalIds s;
       TransferOutcomes.counts := add_counts (TransferOutcomes.counts s) (tally_one o) |}.
Proof.
  intros Hid. destruct o as [[]|? []|]; simpl;
    unfold TransferOutcomes.fail, TransferOutcomes.skip, TransferOutcomes.save,
      TransferOutcomes.begin, TransferOutcomes.commit;
    rewrite decide_False by done; simpl; f_equal; counts_eq.
Qed.

#[local] Arguments record_outcome : simpl never.

Lemma record_outcomes_tally ops s :
  TransferOutcomes.counts (foldl record_outcome s ops) =
  add_counts (TransferOutcomes.counts s)
    (tally (snd <$> first_outcomes (TransferOutcomes.terminalIds s) ops)).
Proof.
  revert s. induction ops as [|[id o] ops IH]; intros s; simpl; [by rewrite add_counts_0_r|].
  rewrite IH. case_decide as Hid.
  - by rewrite record_outcome_seen.
  - rewrite record_outcome_fresh by done. simpl. by rewrite add_counts_assoc.
Qed.

Lemma record_outcomes_ids ops s :
  TransferOutcomes.terminalIds (foldl record_outcome s ops) =
  TransferOutcomes.terminalIds s ∪ list_to_set (fst <$> ops).
Proof.
  revert s. induction ops as [|[id o] ops IH]; intros s; simpl; [set_solver|].
  rewrite IH. destruct (decide (id ∈ TransferOutcomes.terminalIds s)).
  - rewrite record_outcome_seen by done. set_solver.
  - rewrite record_outcome_fresh by done. simpl. set_solver.
Qed.

Lemma first_outcomes_fresh seen ops id o :
  (id, o) ∈ first_outcomes seen ops → id ∉ seen.
Proof.
  revert seen. induction ops as [|[i x] ops IH]; intros seen; simpl; [by intros ?%elem_of_nil|].
  case_decide; [by apply IH|]. intros [?|Hin]%elem_of_cons; [naive_solver|].
  apply IH in Hin. set_solver.
Qed.

Lemma first_outcomes_NoDup seen ops : NoDup (fst <$> first_outcomes seen ops).
Proof.
  revert seen. induction ops as [|[i x] ops IH]; intros seen; simpl; [constructor|].
  case_decide; [done|]. apply NoDup_cons; split; [|done].
  intros ([i' o'] & Heq & Hin)%list_elem_of_fmap. simpl in Heq. subst i'.
  apply first_outcomes_fresh in Hin. clear -Hin. set_solver.
Qed.

Lemma union_rotate (x y z : gset string) : x ∪ y ∪ z = y ∪ (x ∪ z).
Proof. set_solver. Qed.

Lemma first_outcomes_ids seen ops :
  list_to_set (fst <$> first_outcomes seen ops) ∪ seen
  =@{gset string} list_to_set (fst <$> ops) ∪ seen.
Proof.
  revert seen. induction ops as [|[i x] ops IH]; intros seen; simpl; [done|].
  rewrite (union_rotate {[ i ]}). case_decide as Hi; simpl.
  - assert ({[ i ]} ∪ seen = seen) as -> by (clear -Hi; set_solver). apply IH.
  - rewrite (union_rotate {[ i ]}). apply IH.
Qed.

Lemma first_outcomes_ids_empty ops :
  list_to_set (fst <$> first_outcomes ∅ ops) =@{gset string} list_to_set (fst <$> ops).
Proof. pose proof (first_outcomes_ids ∅ ops) as H. by rewrite !(right_id_L ∅ (∪)) in H. Qed.

Lemma record_all_counts ops :
  TransferOutcomes.counts (record_all ops) = tally (snd <$> first_outcomes ∅ ops).
Proof. unfold record_all. by rewrite record_outcomes_tally, add_counts_0_l. Qed.

Lemma record_all_ids ops :
  TransferOutcomes.terminalIds (record_all ops) = list_to_set (fst <$> ops).
Proof. unfold record_all. rewrite record_outcomes_ids. apply (left_id_L ∅ (∪)). Qed.

#[export] Hint Rewrite record_all_counts record_all_ids : lmt.

(** The report is exactly the tally of the first outcome of every item: whatever
    sequence of [fail], [skip] and [save] calls a session makes, repeated and late calls
    for an item change no counter, and the items counted are the items called for, each
    once. *)
Lemma TransferOutcomes_tally ops :
  TransferOutcomes.counts (record_all ops) = tally (snd <$> first_outcomes ∅ ops)
  ∧ TransferOutcomes.terminalIds (record_all ops) = list_to_set (fst <$> ops)
  ∧ NoDup (fst <$> first_outcomes ∅ ops)
  ∧ list_to_set (fst <$> first_outcomes ∅ ops) =@{gset string} list_to_set (fst <$> ops).
Proof.
  split_and!; [apply record_all_counts|apply record_all_ids|apply first_outcomes_NoDup|].
  apply first_outcomes_ids_empty.
Qed.

(** Conservation laws that hold of a tally hold of every report. *)
Definition counts_balanced (c : OutcomeCounts) : Prop :=
  filesCompleted c = uploadedFiles c + skippedFiles c + failedFiles c
  ∧ 0 <= preparationFailedFiles c <= failedFiles c
  ∧ skippedBytes c = avoidedBytes c + finalizationDuplicateBytes c
  ∧ serverSkippedBytes c = finalizationDuplicateBytes c
  ∧ 0 <= serverSkippedFiles c <= skippedFiles c
  ∧ 0 <= uploadedFiles c ∧ 0 <= skippedFiles c ∧ 0 <= failedFiles c.

Lemma tally_balanced os : counts_balanced (tally os).
Proof.
  unfold counts_balanced. induction os as [|o os IH]; simpl; [lia|].
  destruct o as [[]|? []|]; simpl; lia.
Qed.

Lemma record_all_balanced ops : counts_balanced (TransferOutcomes.counts (record_all ops)).
Proof. rewrite record_all_counts. apply tally_balanced. Qed.

Lemma record_all_nonneg ops :
  let c := TransferOutcomes.counts (record_all ops) in
  0 <= uploadedFiles c ∧ 0 <= skippedFiles c ∧ 0 <= failedFiles c.
Proof.
  cbv zeta. rewrite record_all_counts. generalize (snd <$> first_outcomes ∅ ops). intros os.
  induction os as [|[]]; simpl; lia.
Qed.

Lemma tally_filesCompleted os : filesCompleted (tally os) = lengthZ os.
Proof. unfold lengthZ. induction os as [|o os IH]; simpl; [done|]. rewrite IH. lia. Qed.

(** At every point of a session the counters agree with each other: the completed
    files are the distinct items recorded and split exactly into uploaded, skipped and
    failed; skipped bytes split into avoided and finalization-duplicate bytes; the
    preparation failures are among the failures and the server skips among the skips. *)
Lemma TransferOutcomes_balanced ops :
  let s := record_all ops in
  counts_balanced (TransferOutcomes.counts s)
  ∧ filesCompleted (TransferOutcomes.counts s) = Z.of_nat (size (TransferOutcomes.terminalIds s)).
Proof.
  simpl. rewrite record_all_counts, record_all_ids. split; [apply tally_balanced|].
  rewrite tally_filesCompleted, <-first_outcomes_ids_empty.
  rewrite size_list_to_set by apply first_outcomes_NoDup.
  unfold lengthZ. by rewrite !length_fmap.
Qed.

(** Two workers may reach their items in either order: when the items are distinct, the
    report does not depend on it. *)
Lemma record_all_Permutation ops1 ops2 :
  NoDup (fst <$> ops1) → ops1 ≡ₚ ops2 →
  TransferOutcomes.counts (record_all ops1) = TransferOutcomes.counts (record_all ops2).
Proof.
  intros Hnd Hp. rewrite !record_all_counts.
  assert (∀ ops seen, NoDup (fst <$> ops) → (∀ i, i ∈ fst <$> ops → i ∉ seen) →
            first_outcomes seen ops = ops) as Hall.
  { clear. induction ops as [|[i o] ops IH]; intros seen Hnd Hf; [done|]. simpl in *.
    apply NoDup_cons in Hnd as [Hi Hnd].
    rewrite decide_False by (apply Hf; left). f_equal. apply IH; [done|].
    intros j Hj [->%elem_of_singleton|Hin]%elem_of_union; [done|].
    revert Hin. apply Hf. by right. }
  rewrite !Hall; try done.
  - by apply tally_Permutation, fmap_Permutation.
  - by rewrite <-Hp.
Qed.

(** ** Upload worker activity *)

Module UploadWorkerActivity.

(* src: services/upload/TransferAccounting.ts:58-66 [UploadWorkerActivity] *)
Record t := {
  started : bool;
  idleSince : option Z;
  completedIdleMs : Z;
  active : Z;
  peak : Z }.

Definition new : t :=
  {| started := false; idleSince := None; completedIdleMs := 0; active := 0; peak := 0 |}.

(* src: services/upload/TransferAccounting.ts:67-71 [start] *)
Definition start (s : t) (now : Z) : t :=
  if started s then s else
  {| started := true; idleSince := Some now; completedIdleMs := completedIdleMs s;
     active := active s; peak := peak s |}.

(* src: services/upload/TransferAccounting.ts:72-80 [busy] *)
Definition busy (s : t) (now : Z) : Z * t :=
  let s1 :=
    match idleSince s with
    | Some since =>
      if active s =? 0 then
        {| started := started s; idleSince := None;
           completedIdleMs := completedIdleMs s + Z.max 0 (now - since);
           active := active s; peak := peak s |}
      else s
    | None => s
    end in
  let a := active s1 + 1 in
  (a, {| started := started s1; idleSince := idleSince s1;
         completedIdleMs := completedIdleMs s1; active := a; peak := Z.max (peak s1) a |}).

(* src: services/upload/TransferAccounting.ts:81-84 [idle] *)
Definition idle (s : t) (now : Z) : t :=
  let a := Z.max 0 (active s - 1) in
  {| started := started s;
     idleSince := if started s && (a =? 0) then Some now else idleSince s;
     completedIdleMs := completedIdleMs s; active := a; peak := peak s |}.

(* src: services/upload/TransferAccounting.ts:85-88 [idleMilliseconds] *)
Definition idleMilliseconds (s : t) (now : Z) : Z :=
  completedIdleMs s +
  match idleSince s with
  | Some since => if started s && (active s =? 0) then Z.max 0 (now - since) else 0
  | None => 0
  end.

End UploadWorkerActivity.

(** *** Reference: integrate "started and no worker busy" over the calls *)

Inductive activity_call := CallStart | CallBusy | CallIdle.

Definition activity_step (s : UploadWorkerActivity.t) (e : Z * activity_call) : UploadWorkerActivity.t :=
  match e with
  | (now, CallStart) => UploadWorkerActivity.start s now
  | (now, CallBusy) => snd (UploadWorkerActivity.busy s now)
  | (now, CallIdle) => UploadWorkerActivity.idle s now
  end.

(** The reference walks the same calls keeping only whether the workers are started and
    how many are busy; between two calls the clock advances by [now - last]. *)
Record activity_spec := { sp_started : bool; sp_active : Z; sp_last : Z; sp_idle : Z }.

Definition spec_advance (s : activity_spec) (now : Z) : activity_spec :=
  {| sp_started := sp_started s; sp_active := sp_active s; sp_last := now;
     sp_idle := if sp_started s && (sp_active s =? 0)
                then sp_idle s + (now - sp_last s) else sp_idle s |}.

Definition spec_step (s : activity_spec) (e : Z * activity_call) : activity_spec :=
  let s := spec_advance s e.1 in
  match e.2 with
  | CallStart => {| sp_started := true; sp_active := sp_active s; sp_last := sp_last s; sp_idle := sp_idle s |}
  | CallBusy => {| sp_started := sp_started s; sp_active := sp_active s + 1; sp_last := sp_last s; sp_idle := sp_idle s |}
  | CallIdle => {| sp_started := sp_started s; sp_active := sp_active s - 1; sp_last := sp_last s; sp_idle := sp_idle s |}
  end.

Definition spec_init (t0 : Z) : activity_spec :=
  {| sp_started := false; sp_active := 0; sp_last := t0; sp_idle := 0 |}.

(** Calls of one session: the clock does not go back, and a worker that reports idle
    reported busy before (the [try]/[finally] of the upload loop). *)
Fixpoint well_bracketed (last busy : Z) (calls : list (Z * activity_call)) : bool :=
  match calls with
  | [] => true
  | (now, c) :: calls =>
    (last <=? now) &&
    match c with
    | CallStart => well_bracketed now busy calls
    | CallBusy => well_bracketed now (busy + 1) calls
    | CallIdle => (0 <? busy) && well_bracketed now (busy - 1) calls
    end
  end.

(** The class state and the reference agree: idle time already banked plus the open
    idle period up to the last call. *)
Definition activity_rel (s : UploadWorkerActivity.t) (r : activity_spec) : Prop :=
  UploadWorkerActivity.started s = sp_started r
  ∧ UploadWorkerActivity.active s = sp_active r ∧ 0 <= sp_active r
  ∧ if sp_started r && (sp_active r =? 0) then
      ∃ since, UploadWorkerActivity.idleSince s = Some since ∧ since <= sp_last r
        ∧ sp_idle r = UploadWorkerActivity.completedIdleMs s + (sp_last r - since)
    else
      sp_idle r = UploadWorkerActivity.completedIdleMs s
      ∧ (sp_started r = false → UploadWorkerActivity.idleSince s = None).

Lemma activity_step_rel s r now c :
  activity_rel s r → sp_last r <= now → (c = CallIdle → 0 < sp_active r) →
  activity_rel (activity_step s (now, c)) (spec_step r (now, c)).
Proof.
  destruct s as [st since idle act pk], r as [rst ract rlast ridle].
  intros (Hst & Hact & Hpos & Hrel) Hle Hidle. simpl in *. subst.
  unfold activity_rel, spec_step, spec_advance; destruct c; simpl;
    unfold UploadWorkerActivity.start, UploadWorkerActivity.busy, UploadWorkerActivity.idle; simpl.
  all: try specialize (Hidle eq_refl).
  all: destruct rst, (Z.eqb_spec ract 0); simpl in *; try lia.
  all: try destruct Hrel as (x & -> & ? & ->); try destruct Hrel as [-> Hnone];
       try (rewrite (Hnone eq_refl)).
  all: try destruct since; simpl; split_and!; try lia;
    repeat match goal with |- context [?a =? ?b] => destruct (Z.eqb_spec a b); simpl end;
    try lia; try done; try (split; [lia|done]); (eexists; split_and!; [done|lia..]).
Qed.

Lemma activity_run_rel calls s r last busy :
  activity_rel s r → sp_last r = last → sp_active r = busy → well_bracketed last busy calls = true →
  activity_rel (foldl activity_step s calls) (foldl spec_step r calls).
Proof.
  revert s r last busy. induction calls as [|[now c] calls IH]; intros s r last busy Hrel <- <- Hwb; [done|].
  simpl in Hwb. apply andb_prop in Hwb as [Hle Hwb]. apply Z.leb_le in Hle. simpl.
  eapply (IH _ _ now); [|by destruct c|done|].
  - apply activity_step_rel; [done|done|]. intros ->.
    apply andb_prop in Hwb as [Hb _]. by apply Z.ltb_lt.
  - destruct c; simpl in *; try done. by apply andb_prop in Hwb as [_ Hb].
Qed.

(** The idle time reported to diagnostics is the total time, between the session's
    calls and up to [now], during which the workers were started and none was busy. *)
Lemma idleMilliseconds_correct calls t0 now :
  well_bracketed t0 0 calls = true →
  sp_last (foldl spec_step (spec_init t0) calls) <= now →
  UploadWorkerActivity.idleMilliseconds (foldl activity_step UploadWorkerActivity.new calls) now =
  sp_idle (spec_advance (foldl spec_step (spec_init t0) calls) now).
Proof.
  intros Hwb Hle.
  destruct (activity_run_rel calls UploadWorkerActivity.new (spec_init t0) t0 0)
    as (Hst & Hact & _ & Hrel); try done.
  unfold UploadWorkerActivity.idleMilliseconds, spec_advance; simpl.
  rewrite Hst, Hact. destruct (sp_started _ && _).
  - destruct Hrel as (since & -> & ? & ->). lia.
  - destruct Hrel as [-> _]. destruct (UploadWorkerActivity.idleSince _); lia.
Qed.

Lemma idleMilliseconds_correct_witness :
  let calls := [(10, CallStart); (15, CallBusy); (18, CallBusy); (20, CallIdle); (30, CallIdle)] in
  well_bracketed 0 0 calls = true
  ∧ UploadWorkerActivity.idleMilliseconds (foldl activity_step UploadWorkerActivity.new calls) 37 = 12
  ∧ sp_idle (spec_advance (foldl spec_step (spec_init 0) calls) 37) = 12.
Proof.
  split_and!; [reflexivity| |reflexivity].
  refine (eq_trans (idleMilliseconds_correct _ 0 37 _ _) _); vm_compute; congruence.
Defined.
