(* ===== verification/AsyncQueue.v ===== *)
(** * The bounded ready queue ([services/upload/BoundedAsyncQueue.ts])

    A JavaScript function runs without interruption up to its next [await], so each method
    is modelled as the code between two suspension points; a stored [resolve] callback is
    the suspended call itself, here the pair of its caller and its argument. [config] adds
    the calls that are suspended or woken and the history, [step] lets any of them run
    next, in any order. *)

From S2P Require Import Prelude.

Module BoundedAsyncQueue.
Section queue.
Context {V : Type}.

(** Names of the calls of [push] and of [shift]. *)
Notation pid := nat (only parsing).
Notation cid := nat (only parsing).

(* src: services/upload/BoundedAsyncQueue.ts:1-6 [BoundedAsyncQueue] *)
Record t := {
  capacity : nat;
  items : list V;
  waitingConsumers : list cid;
  waitingProducers : list (pid * V);
  closed : bool;
  observedMaxDepth : nat }.

(* src: services/upload/BoundedAsyncQueue.ts:8-12 [constructor] *)
Definition new (cap : Z) : option t :=
  if cap <=? 0 then None else
  Some {| capacity := Z.to_nat cap; items := []; waitingConsumers := [];
          waitingProducers := []; closed := false; observedMaxDepth := 0 |}.

(* src: services/upload/BoundedAsyncQueue.ts:14-16 [maxDepth] *)
Definition maxDepth (q : t) : nat := observedMaxDepth q.

(* src: services/upload/BoundedAsyncQueue.ts:18-20 [depth] *)
Definition depth (q : t) : nat := length (items q).

(** What one run of [push] up to its next suspension does. *)
Inductive push_result :=
  | PushSuspended
  | PushThrew
  | PushHanded (consumer : cid)
  | PushStored.

(** The loop head of [push]: entered by the call, and again when its promise is resolved.
    [waiting] is the local flag; the third component lists the [onCapacityWaitChange]
    calls of this run. *)
(* src: services/upload/BoundedAsyncQueue.ts:22-46 [push] *)
Definition push (q : t) (waiting : bool) (p : pid) (value : V) : t * push_result * list bool :=
  if negb (closed q) && (capacity q <=? length (items q))%nat then
    ({| capacity := capacity q; items := items q; waitingConsumers := waitingConsumers q;
        waitingProducers := waitingProducers q ++ [(p, value)]; closed := closed q;
        observedMaxDepth := observedMaxDepth q |},
     PushSuspended, if waiting then [] else [true])
  else
    let finally := if waiting then [false] else [] in
    if closed q then (q, PushThrew, finally) else
    match waitingConsumers q with
    | consumer :: consumers =>
      ({| capacity := capacity q; items := items q; waitingConsumers := consumers;
          waitingProducers := waitingProducers q; closed := closed q;
          observedMaxDepth := observedMaxDepth q |},
       PushHanded consumer, finally)
    | [] =>
      ({| capacity := capacity q; items := items q ++ [value]; waitingConsumers := [];
          waitingProducers := waitingProducers q; closed := closed q;
          observedMaxDepth := Nat.max (observedMaxDepth q) (length (items q ++ [value])) |},
       PushStored, finally)
    end.

(** What a call of [shift] does: return an item (and the producer it wakes), return
    [null], or suspend. *)
Inductive shift_result :=
  | ShiftItem (value : V) (woken : option (pid * V))
  | ShiftNull
  | ShiftSuspended.

(* src: services/upload/BoundedAsyncQueue.ts:48-56 [shift] *)
Definition shift (q : t) (c : cid) : t * shift_result :=
  match items q with
  | value :: rest =>
    ({| capacity := capacity q; items := rest; waitingConsumers := waitingConsumers q;
        waitingProducers := tail (waitingProducers q); closed := closed q;
        observedMaxDepth := observedMaxDepth q |},
     ShiftItem value (head (waitingProducers q)))
  | [] =>
    if closed q then (q, ShiftNull) else
    ({| capacity := capacity q; items := []; waitingConsumers := waitingConsumers q ++ [c];
        waitingProducers := waitingProducers q; closed := closed q;
        observedMaxDepth := observedMaxDepth q |},
     ShiftSuspended)
  end.

(** The consumers resolved with [null] and the producers woken by [close]. *)
(* src: services/upload/BoundedAsyncQueue.ts:58-63 [close] *)
Definition close (q : t) : t * list cid * list (pid * V) :=
  if closed q then (q, [], []) else
  ({| capacity := capacity q; items := items q; waitingConsumers := [];
      waitingProducers := []; closed := true; observedMaxDepth := observedMaxDepth q |},
   waitingConsumers q, waitingProducers q).

(** ** The queue with its callers *)

Record config := {
  queue : t;
  woken : list (pid * V);
  accepted : list V;
  delivered : list V }.

(** What the callers observe: a push that completes or throws, a shift that returns an item
    or [null], and the call of [close]. *)
Inductive label :=
  | Accept (value : V)
  | Reject (value : V)
  | Deliver (value : V)
  | Exhausted
  | Closed.

(** The configuration after a run of [push]: a handed value is delivered at once. *)
Definition after_push (c : config) (woken' : list (pid * V)) (value : V)
    (q' : t) (r : push_result) : config :=
  {| queue := q'; woken := woken';
     accepted := match r with
                 | PushHanded _ | PushStored => accepted c ++ [value]
                 | _ => accepted c
                 end;
     delivered := match r with PushHanded _ => delivered c ++ [value] | _ => delivered c end |}.

Definition push_labels (value : V) (r : push_result) : list label :=
  match r with
  | PushSuspended => []
  | PushThrew => [Reject value]
  | PushHanded _ => [Accept value; Deliver value]
  | PushStored => [Accept value]
  end.

(** The scheduler's choices: a new call, or the continuation of the [i]-th woken push. *)
Inductive choice :=
  | CallPush (p : pid) (value : V)
  | ResumePush (i : nat)
  | CallShift (k : cid)
  | CallClose.

Definition exec (c : config) (o : choice) : option (config * list label) :=
  match o with
  | CallPush p value =>
    let '(q', r, _) := push (queue c) false p value in
    Some (after_push c (woken c) value q' r, push_labels value r)
  | ResumePush i =>
    '(p, value) ← woken c !! i;
    let '(q', r, _) := push (queue c) true p value in
    Some (after_push c (delete i (woken c)) value q' r, push_labels value r)
  | CallShift k =>
    let '(q', r) := shift (queue c) k in
    match r with
    | ShiftItem value w =>
      Some ({| queue := q'; woken := woken c ++ option_list w; accepted := accepted c;
               delivered := delivered c ++ [value] |}, [Deliver value])
    | ShiftNull =>
      Some ({| queue := q'; woken := woken c; accepted := accepted c;
               delivered := delivered c |}, [Exhausted])
    | ShiftSuspended =>
      Some ({| queue := q'; woken := woken c; accepted := accepted c;
               delivered := delivered c |}, [])
    end
  | CallClose =>
    let '(q', ks, ps) := close (queue c) in
    Some ({| queue := q'; woken := woken c ++ ps; accepted := accepted c;
             delivered := delivered c |}, Closed :: ((λ _, Exhausted) <$> ks))
  end.

(** A run of the scheduler and everything its callers observed. *)
Fixpoint exec_all (c : config) (os : list choice) : option (config * list label) :=
  match os with
  | [] => Some (c, [])
  | o :: os =>
    '(c1, ls1) ← exec c o; '(c2, ls2) ← exec_all c1 os; Some (c2, ls1 ++ ls2)
  end.

Definition start (q : t) : config := {| queue := q; woken := []; accepted := []; delivered := [] |}.

(** *** Abstract specification: a bounded first-in first-out channel *)

Record channel := { ch_bound : nat; ch_buffer : list V; ch_closed : bool }.

Inductive channel_step : channel → label → channel → Prop :=
  | channel_accept n b v :
      (length b < n)%nat →
      channel_step {| ch_bound := n; ch_buffer := b; ch_closed := false |} (Accept v)
                   {| ch_bound := n; ch_buffer := b ++ [v]; ch_closed := false |}
  | channel_reject n b v :
      channel_step {| ch_bound := n; ch_buffer := b; ch_closed := true |} (Reject v)
                   {| ch_bound := n; ch_buffer := b; ch_closed := true |}
  | channel_deliver n b v cl :
      channel_step {| ch_bound := n; ch_buffer := v :: b; ch_closed := cl |} (Deliver v)
                   {| ch_bound := n; ch_buffer := b; ch_closed := cl |}
  | channel_exhausted n :
      channel_step {| ch_bound := n; ch_buffer := []; ch_closed := true |} Exhausted
                   {| ch_bound := n; ch_buffer := []; ch_closed := true |}
  | channel_close n b cl :
      channel_step {| ch_bound := n; ch_buffer := b; ch_closed := cl |} Closed
                   {| ch_bound := n; ch_buffer := b; ch_closed := true |}.

Inductive channel_run : channel → list label → channel → Prop :=
  | channel_run_nil s : channel_run s [] s
  | channel_run_cons s1 l s2 ls s3 :
      channel_step s1 l s2 → channel_run s2 ls s3 → channel_run s1 (l :: ls) s3.

Lemma channel_run_app s1 ls1 s2 ls2 s3 :
  channel_run s1 ls1 s2 → channel_run s2 ls2 s3 → channel_run s1 (ls1 ++ ls2) s3.
Proof. induction 1; simpl; [done|]. intros. econstructor; eauto. Qed.

(** The channel a queue implements. *)
Definition abstract (q : t) : channel :=
  {| ch_bound := capacity q; ch_buffer := items q; ch_closed := closed q |}.

(** ** Invariants *)

Definition queue_ok (q : t) : Prop :=
  (0 < capacity q)%nat
  ∧ (length (items q) <= observedMaxDepth q <= capacity q)%nat
  ∧ (waitingConsumers q ≠ [] → items q = [])
  ∧ (closed q = true → waitingConsumers q = [] ∧ waitingProducers q = []).

Definition config_ok (c : config) : Prop :=
  queue_ok (queue c) ∧ accepted c = delivered c ++ items (queue c).

(** The upload session has one producer: it calls [push] only when its last call of
    [push] has completed. *)
Definition single_producer (c : config) (o : choice) : Prop :=
  match o with CallPush _ _ => waitingProducers (queue c) = [] ∧ woken c = [] | _ => True end.

Inductive producer_ok (c : config) : Prop :=
  | ProducerRunning :
      waitingProducers (queue c) = [] → woken c = [] → producer_ok c
  | ProducerBlocked call :
      waitingProducers (queue c) = [call] → woken c = [] →
      length (items (queue c)) = capacity (queue c) → producer_ok c
  | ProducerWoken call :
      waitingProducers (queue c) = [] → woken c = [call] →
      closed (queue c) = true ∨ (length (items (queue c)) < capacity (queue c))%nat →
      producer_ok c.

Fixpoint runs_single (c : config) (os : list choice) : Prop :=
  match os with
  | [] => True
  | o :: os =>
    single_producer c o
    ∧ match exec c o with Some (c1, _) => runs_single c1 os | None => True end
  end.
End queue.
Arguments t : clear implicits.
Arguments config : clear implicits.
Arguments label : clear implicits.
Arguments choice : clear implicits.
Arguments channel : clear implicits.
End BoundedAsyncQueue.

Import BoundedAsyncQueue.

(** Splits a step of the scheduler into the branches of the method it runs. *)
Ltac exec_cases c o H :=
  destruct c as [[cap its wc wp cl mx] wk acc del], o; destruct cl; simpl in *;
  try match type of H with context [?w !! ?i] =>
        destruct (w !! i) as [[? ?]|] eqn:?; simpl in H; [|done] end;
  unfold push, shift, close in H; simpl in H;
  repeat (case_match; simplify_option_eq; simpl in * ); simplify_eq; simpl in *;
  rewrite ?Nat.leb_le, ?Nat.leb_gt, ?length_app in *; simpl in *.

Section proofs.
Context {V : Type}.
Implicit Types (c : config V) (q : t V) (o : choice V).

Lemma new_ok cap q : new cap = Some q → queue_ok q ∧ config_ok (start q) ∧ producer_ok (start q).
Proof.
  unfold new. destruct (Z.leb_spec cap 0); intros; simplify_eq.
  unfold config_ok, queue_ok; split_and!; simpl; [naive_solver lia..|by constructor].
Qed.

Lemma exec_ok c o c' ls : config_ok c → exec c o = Some (c', ls) → config_ok c'.
Proof.
  intros [(Hcap & Hmax & Hcons & Hcl) Ha] H. unfold config_ok, queue_ok.
  exec_cases c o H; try lia.
  all: try destruct (Hcl eq_refl); try specialize (Hcons ltac:(done)); subst; simpl in *.
  all: split; [split_and!; intros; try lia; try done; naive_solver|].
  all: rewrite ?app_nil_r, <-?app_assoc; done.
Qed.

#[local] Hint Constructors channel_run channel_step : core.

(** An item handed straight to a waiting consumer passes through the empty buffer. *)
Lemma channel_hand n (v : V) :
  (0 < n)%nat →
  channel_run {| ch_bound := n; ch_buffer := []; ch_closed := false |} [Accept v; Deliver v]
              {| ch_bound := n; ch_buffer := []; ch_closed := false |}.
Proof. intros. econstructor; [by apply channel_accept|]. simpl. eauto. Qed.

Lemma channel_exhausted_many {A} n (l : list A) :
  let s : channel V := {| ch_bound := n; ch_buffer := []; ch_closed := true |} in
  channel_run s ((λ _, Exhausted) <$> l) s.
Proof. simpl. induction l; simpl; eauto. Qed.

Lemma exec_refines c o c' ls :
  config_ok c → exec c o = Some (c', ls) →
  channel_run (abstract (queue c)) ls (abstract (queue c')).
Proof.
  intros [(Hcap & Hmax & Hcons & Hcl) Ha] H. unfold abstract.
  exec_cases c o H; try lia.
  all: try destruct (Hcl eq_refl); try specialize (Hcons ltac:(done)); subst; simpl in *.
  all: eauto using channel_hand.
  eapply channel_run_cons; [constructor|]. destruct wc as [|k wc]; [constructor|].
  rewrite Hcons by done. apply channel_exhausted_many.
Qed.

Lemma exec_all_ok os c c' ls : config_ok c → exec_all c os = Some (c', ls) → config_ok c'.
Proof.
  revert c ls. induction os as [|o os IH]; intros c ls Hc H; simpl in H; simplify_option_eq; [done|].
  repeat case_match; simplify_option_eq; repeat case_match; simplify_option_eq.
  eapply IH; [|done]. by eapply exec_ok.
Qed.

Lemma exec_all_refines os c c' ls :
  config_ok c → exec_all c os = Some (c', ls) →
  channel_run (abstract (queue c)) ls (abstract (queue c')).
Proof.
  revert c ls. induction os as [|o os IH]; intros c ls Hc H; simpl in H; simplify_option_eq; [constructor|].
  repeat case_match; simplify_option_eq; repeat case_match; simplify_option_eq.
  eapply channel_run_app; [by eapply exec_refines|]. eapply IH; [|done]. by eapply exec_ok.
Qed.

Lemma exec_producer_ok c o c' ls :
  config_ok c → producer_ok c → single_producer c o → exec c o = Some (c', ls) → producer_ok c'.
Proof.
  intros [(Hcap & Hmax & Hcons & Hcl) Ha] Hp Hone H.
  exec_cases c o H; destruct Hp as [Hwp Hwk|call Hwp Hwk Hfull|call Hwp Hwk Hroom];
    simpl in *; subst; simpl in *; try lia.
  all: try destruct i as [|[|i]]; try destruct (Hcl eq_refl); try (by destruct Hone); simplify_eq/=.
  all: try (by constructor).
  all: try (eapply ProducerBlocked; simpl; [done|done|lia]).
  all: try (eapply ProducerWoken; simpl; [done|done|lia || by left]).
Qed.

Lemma exec_all_producer_ok os c c' ls :
  config_ok c → producer_ok c → runs_single c os → exec_all c os = Some (c', ls) → producer_ok c'.
Proof.
  revert c ls. induction os as [|o os IH]; intros c ls Hc Hp Hone H; simpl in H, Hone;
    simplify_option_eq; [done|].
  destruct Hone as [Hone Hrest]. repeat case_match; simplify_option_eq; repeat case_match; simplify_option_eq.
  eapply IH; [..|done|done]; [by eapply exec_ok|by eapply exec_producer_ok].
Qed.

(** Shifting a closed queue returns what is left, in order, then [null]. *)
Lemma drain_closed k n (c : config V) :
  closed (queue c) = true →
  ∃ c', exec_all c (replicate (length (items (queue c)) + n) (CallShift k)) =
    Some (c', (Deliver <$> items (queue c)) ++ replicate n Exhausted).
Proof.
  destruct c as [[cap its wc wp cl mx] wk acc del]; simpl. intros ->.
  revert wp wk del. induction its as [|v its IH]; intros wp wk del; simpl.
  - induction n as [|n IHn]; simpl; [eauto|]. unfold shift; simpl.
    destruct IHn as [c' ->]; simpl; eauto.
  - edestruct IH as [c' Hc']. rewrite Hc'. simpl. eauto.
Qed.

(** C9: for any interleaving of producers, consumers and [close], what the callers observe
    is a run of a first-in first-out channel bounded by the capacity: no item is lost,
    duplicated or reordered, a rejected push puts nothing in, and [null] is returned only
    from a closed and empty channel. *)
Theorem queue_refines_channel cap (q : t V) os c ls :
  new cap = Some q → exec_all (start q) os = Some (c, ls) →
  channel_run {| ch_bound := Z.to_nat cap; ch_buffer := []; ch_closed := false |} ls
              (abstract (queue c))
  ∧ accepted c = delivered c ++ items (queue c)
  ∧ Z.of_nat (depth (queue c)) <= Z.of_nat (maxDepth (queue c)) <= cap.
Proof.
  intros Hnew H. pose proof (new_ok _ _ Hnew) as (_ & Hok & _).
  pose proof (exec_all_ok _ _ _ _ Hok H) as [(_ & Hmax & _) Hacc].
  pose proof (exec_all_refines _ _ _ _ Hok H) as Hrun. pose proof Hrun as Hcap.
  unfold new in Hnew. destruct (Z.leb_spec cap 0); simplify_eq. split_and!; [done..| |].
  - unfold depth, maxDepth. lia.
  - unfold maxDepth. assert (capacity (queue c) = Z.to_nat cap); [|lia].
    clear -Hcap. change (Z.to_nat cap) with
      (ch_bound (abstract (queue (@start V {| capacity := Z.to_nat cap; items := []; waitingConsumers := [];
          waitingProducers := []; closed := false; observedMaxDepth := 0 |})))).
    change (capacity (queue c)) with (ch_bound (abstract (queue c))).
    induction Hcap as [|s1 l s2 ls s3 Hs _ IH]; [done|]. rewrite IH. by destruct Hs.
Qed.

(** With one producer, as in an upload session, nothing is ever stuck: while the
    producer waits for room the queue is full and no consumer waits, so the next [shift]
    returns an item and wakes the producer; and a woken [push] completes without waiting
    again. *)
Lemma single_producer_progress cap (q : t V) os c ls :
  new cap = Some q → runs_single (start q) os → exec_all (start q) os = Some (c, ls) →
  (waitingProducers (queue c) ≠ [] →
     waitingConsumers (queue c) = []
     ∧ ∀ k, ∃ v call, (shift (queue c) k).2 = ShiftItem v (Some call))
  ∧ (∀ i p v, woken c !! i = Some (p, v) → (push (queue c) true p v).1.2 ≠ PushSuspended).
Proof.
  intros Hnew Hone H. pose proof (new_ok _ _ Hnew) as (_ & Hok & Hp).
  pose proof (exec_all_ok _ _ _ _ Hok H) as [(Hcap & _ & Hcons & _) _].
  pose proof (exec_all_producer_ok _ _ _ _ Hok Hp Hone H) as Hpc. clear H Hone Hp Hok Hnew.
  destruct Hpc as [Hwp Hwk|call Hwp Hwk Hfull|call Hwp Hwk Hroom]; rewrite Hwp, Hwk.
  - by split.
  - split; [|done]. intros _. destruct (items (queue c)) as [|v rest] eqn:Hi; simpl in *; [lia|].
    split; [destruct (waitingConsumers (queue c)); naive_solver|].
    intros k. unfold shift. rewrite Hi, Hwp. simpl. eauto.
  - split; [done|]. intros i p v _. unfold push.
    assert (negb (closed (queue c)) && (capacity (queue c) <=? length (items (queue c)))%nat = false) as ->.
    { destruct Hroom as [->|]; [done|]. rewrite andb_false_iff, Nat.leb_gt. auto. }
    by destruct (closed _), (waitingConsumers _).
Qed.

(** Once [close] was called no call waits any more: the items already accepted are
    still returned in order, every further [shift] returns [null], and every pending or
    new [push] throws. *)
Lemma close_drains cap (q : t V) os c ls k n :
  new cap = Some q → exec_all (start q) os = Some (c, ls) → closed (queue c) = true →
  waitingConsumers (queue c) = [] ∧ waitingProducers (queue c) = []
  ∧ (∀ p v w, (push (queue c) w p v).1 = (queue c, PushThrew))
  ∧ ∃ c', exec_all c (replicate (length (items (queue c)) + n) (CallShift k)) =
      Some (c', (Deliver <$> items (queue c)) ++ replicate n Exhausted).
Proof.
  intros Hnew H Hcl. pose proof (new_ok _ _ Hnew) as (_ & Hok & _).
  pose proof (exec_all_ok _ _ _ _ Hok H) as [(_ & _ & _ & Hlists) _].
  destruct (Hlists Hcl). split_and!; [done..| |by apply drain_closed].
  intros p v w. unfold push. by rewrite Hcl.
Qed.
End proofs.

(** A session's queue of capacity 1: the producer is blocked, woken, and the queue closed. *)
Definition queue1 : t Z :=
  {| capacity := 1; items := []; waitingConsumers := []; waitingProducers := [];
     closed := false; observedMaxDepth := 0 |}.

Definition blocked_run : list (choice Z) := [CallPush 1 10; CallPush 1 11].
Definition closed_run : list (choice Z) := blocked_run ++ [CallClose].
Definition full_run : list (choice Z) :=
  blocked_run ++ [CallShift 1; ResumePush 0; CallClose; CallShift 2].

Definition end_of (os : list (choice Z)) : config Z * list (label Z) :=
  default (start queue1, []) (exec_all (start queue1) os).
Definition blocked_end := Eval vm_compute in end_of blocked_run.
Definition closed_end := Eval vm_compute in end_of closed_run.
Definition full_end := Eval vm_compute in end_of full_run.

Lemma queue_refines_channel_witness :
  exec_all (start queue1) full_run = Some (full_end.1, full_end.2)
  ∧ full_end.2 = [Accept 10; Deliver 10; Accept 11; Closed; Deliver 11]
  ∧ channel_run {| ch_bound := 1; ch_buffer := []; ch_closed := false |} full_end.2
      (abstract (queue full_end.1)).
Proof.
  split_and!; [by vm_compute|done|].
  eapply (queue_refines_channel 1 queue1 full_run); by vm_compute.
Defined.

Lemma single_producer_progress_witness :
  exec_all (start queue1) blocked_run = Some (blocked_end.1, blocked_end.2)
  ∧ waitingProducers (queue blocked_end.1) ≠ [] ∧ waitingConsumers (queue blocked_end.1) = [].
Proof.
  split_and!; [by vm_compute|done|].
  eapply (single_producer_progress 1 queue1 blocked_run _ blocked_end.2); by vm_compute.
Defined.

Lemma close_drains_witness :
  exec_all (start queue1) closed_run = Some (closed_end.1, closed_end.2)
  ∧ ∃ c', exec_all closed_end.1 [CallShift 3; CallShift 3] = Some (c', [Deliver 10; Exhausted]).
Proof.
  split; [by vm_compute|].
  refine (proj2 (proj2 (proj2 (close_drains 1 queue1 closed_run closed_end.1 closed_end.2
                                 3%nat 1%nat _ _ _)))); by vm_compute.
Defined.

(** The discipline of one producer is needed: with two, [shift] wakes one producer per
    item it returns and a hand-over to a waiting consumer wakes nobody, so a second
    producer can stay suspended while the queue is empty and every consumer waits. *)
Example two_producers_can_stall :
  match exec_all (start queue1)
      [CallPush 0 10; CallPush 1 11; CallPush 2 12; CallShift 3; CallShift 4; ResumePush 0; CallShift 5] with
  | Some (c, _) =>
    items (queue c) = [] ∧ woken c = [] ∧ closed (queue c) = false
    ∧ waitingProducers (queue c) = [(2%nat, 12)] ∧ waitingConsumers (queue c) = [5%nat]
  | None => False
  end.
Proof. by vm_compute. Qed.
