(* ===== verification/Throughput.v ===== *)
(** * Transfer rates ([services/upload/ThroughputTracker.ts], [rateFreshness.ts])

    Byte counts and clock readings are integers; rates are doubles in the code and exact
    rationals here, so the formulas are the code's but rounding is not modelled. *)

From Stdlib Require Import QArith Qminmax Qround.
From S2P Require Import Prelude.
Open Scope Z_scope.

Module ThroughputTracker.

(* src: services/upload/ThroughputTracker.ts:1-5 [ThroughputSample] *)
Record ThroughputSample := {
  acknowledgedAt : Z;
  mediaBytes : Z;
  encodedBytes : Z }.

(* src: services/upload/ThroughputTracker.ts:7-7 [BYTES_PER_MB] *)
Definition BYTES_PER_MB : Z := 1000000.

(* src: services/upload/ThroughputTracker.ts:9-17 [ThroughputRates] *)
Record ThroughputRates := {
  currentMediaMBps : Q;
  averageMediaMBps : Q;
  peakMediaMBps : Q;
  currentEncodedMBps : Q;
  rate_uploadedMediaBytes : Z;
  rate_acknowledgedEncodedBytes : Z;
  sampledAt : Z }.

(* src: services/upload/ThroughputTracker.ts:19-38 [ThroughputTracker] *)
Record t := {
  startedAt : Z;
  windowMs : Z;
  samples : list ThroughputSample;
  firstActiveSampleIndex : nat;
  activeMediaBytes : Z;
  activeEncodedBytes : Z;
  uploadedMediaBytes : Z;
  acknowledgedEncodedBytes : Z;
  trackedPeakMediaMBps : Q;
  rates : ThroughputRates }.

(* src: services/upload/ThroughputTracker.ts:27-30 [rates] *)
Definition initial_rates : ThroughputRates :=
  {| currentMediaMBps := 0; averageMediaMBps := 0; peakMediaMBps := 0; currentEncodedMBps := 0;
     rate_uploadedMediaBytes := 0; rate_acknowledgedEncodedBytes := 0; sampledAt := 0 |}.

(* src: services/upload/ThroughputTracker.ts:35-38 [constructor] *)
Definition new (startedAt windowMs : Z) : t :=
  {| startedAt := startedAt; windowMs := windowMs; samples := []; firstActiveSampleIndex := 0;
     activeMediaBytes := 0; activeEncodedBytes := 0; uploadedMediaBytes := 0;
     acknowledgedEncodedBytes := 0; trackedPeakMediaMBps := 0; rates := initial_rates |}.

(* src: services/upload/ThroughputTracker.ts:33-33 [current] *)
Definition current (s : t) : ThroughputRates := rates s.

(** The [while] loop that retires samples that left the window. Each iteration moves the
    index over one sample, so [length samples] units of fuel are enough. *)
(* src: services/upload/ThroughputTracker.ts:46-54 [recordAcknowledgement] *)
Fixpoint retire (fuel : nat) (samples : list ThroughputSample) (cutoff : Z)
    (first : nat) (media encoded : Z) : nat * Z * Z :=
  match fuel, samples !! first with
  | S fuel, Some x =>
    if acknowledgedAt x <=? cutoff
    then retire fuel samples cutoff (S first) (media - mediaBytes x) (encoded - encodedBytes x)
    else (first, media, encoded)
  | _, _ => (first, media, encoded)
  end.

(** [first > samples.length / 2] on exact numbers is [2 * first > samples.length]. *)
(* src: services/upload/ThroughputTracker.ts:55-58 [recordAcknowledgement] *)
Definition compact (samples : list ThroughputSample) (first : nat) : list ThroughputSample * nat :=
  if (1024 <? first)%nat && (length samples <? 2 * first)%nat
  then (drop first samples, 0%nat) else (samples, first).

(* src: services/upload/ThroughputTracker.ts:60-60 [recordAcknowledgement] *)
Definition elapsedSeconds (startedAt now : Z) : Q :=
  Qmax (1 # 1000) (inject_Z (now - startedAt) / inject_Z 1000).

(* src: services/upload/ThroughputTracker.ts:61-61 [recordAcknowledgement] *)
Definition windowSeconds (windowMs startedAt now : Z) : Q :=
  Qmax (1 # 1000) (Qmin (inject_Z windowMs / inject_Z 1000) (elapsedSeconds startedAt now)).

(** [bytes / BYTES_PER_MB / seconds]. *)
Definition megabytes_per_second (bytes : Z) (seconds : Q) : Q :=
  (inject_Z bytes / inject_Z BYTES_PER_MB / seconds)%Q.

(* src: services/upload/ThroughputTracker.ts:40-74 [recordAcknowledgement] *)
Definition recordAcknowledgement (s : t) (mediaBytes encodedBytes now : Z) : t :=
  let uploaded := uploadedMediaBytes s + mediaBytes in
  let acknowledged := acknowledgedEncodedBytes s + encodedBytes in
  let samples1 := samples s ++ [ {| acknowledgedAt := now; mediaBytes := mediaBytes;
                                    encodedBytes := encodedBytes |} ] in
  let cutoff := now - windowMs s in
  let '(first, activeMedia, activeEncoded) :=
    retire (length samples1) samples1 cutoff (firstActiveSampleIndex s)
      (activeMediaBytes s + mediaBytes) (activeEncodedBytes s + encodedBytes) in
  let '(samples2, first) := compact samples1 first in
  let elapsed := elapsedSeconds (startedAt s) now in
  let window := windowSeconds (windowMs s) (startedAt s) now in
  let current := megabytes_per_second activeMedia window in
  let peak := Qmax (trackedPeakMediaMBps s) current in
  {| startedAt := startedAt s; windowMs := windowMs s; samples := samples2;
     firstActiveSampleIndex := first; activeMediaBytes := activeMedia;
     activeEncodedBytes := activeEncoded; uploadedMediaBytes := uploaded;
     acknowledgedEncodedBytes := acknowledged; trackedPeakMediaMBps := peak;
     rates :=
       {| currentMediaMBps := current;
          averageMediaMBps := megabytes_per_second uploaded elapsed;
          peakMediaMBps := peak;
          currentEncodedMBps := megabytes_per_second activeEncoded window;
          rate_uploadedMediaBytes := uploaded;
          rate_acknowledgedEncodedBytes := acknowledged;
          sampledAt := now |} |}.

(** *** Reference: the rates recomputed from the whole history *)

Definition acknowledge (s : t) (x : ThroughputSample) : t :=
  recordAcknowledgement s (mediaBytes x) (encodedBytes x) (acknowledgedAt x).

Definition in_window (windowMs now : Z) (h : list ThroughputSample) : list ThroughputSample :=
  base.filter (λ x, now - windowMs < acknowledgedAt x) h.

(** The rate shown at [now] when the acknowledgements so far are [h]. *)
Definition window_rate (startedAt windowMs now : Z) (h : list ThroughputSample) : Q :=
  megabytes_per_second (sumZ mediaBytes (in_window windowMs now h))
    (windowSeconds windowMs startedAt now).

(** The highest of the rates shown after each acknowledgement, [prev] being the earlier ones. *)
Fixpoint peak_rate (startedAt windowMs : Z) (prev : list ThroughputSample) (peak : Q)
    (h : list ThroughputSample) : Q :=
  match h with
  | [] => peak
  | x :: h =>
    peak_rate startedAt windowMs (prev ++ [x])
      (Qmax peak (window_rate startedAt windowMs (acknowledgedAt x) (prev ++ [x]))) h
  end.

Definition reference_rates (startedAt windowMs : Z) (h : list ThroughputSample) : ThroughputRates :=
  match last h with
  | None => initial_rates
  | Some x =>
    let now := acknowledgedAt x in
    {| currentMediaMBps := window_rate startedAt windowMs now h;
       averageMediaMBps := megabytes_per_second (sumZ mediaBytes h) (elapsedSeconds startedAt now);
       peakMediaMBps := peak_rate startedAt windowMs [] 0 h;
       currentEncodedMBps :=
         megabytes_per_second (sumZ encodedBytes (in_window windowMs now h))
           (windowSeconds windowMs startedAt now);
       rate_uploadedMediaBytes := sumZ mediaBytes h;
       rate_acknowledgedEncodedBytes := sumZ encodedBytes h;
       sampledAt := now |}
  end.

(** The clock of successive acknowledgements does not go back. *)
Fixpoint clock_ordered (from : Z) (h : list ThroughputSample) : bool :=
  match h with
  | [] => true
  | x :: h => (from <=? acknowledgedAt x) && clock_ordered (acknowledgedAt x) h
  end.
End ThroughputTracker.

Import ThroughputTracker.

(** ** The window *)

Lemma clock_ordered_mono from from' l :
  from' <= from → clock_ordered from l = true → clock_ordered from' l = true.
Proof. destruct l as [|x l]; simpl; [done|]. rewrite !andb_true_iff, !Z.leb_le. intros ? [? ?]; split; [lia|done]. Qed.

Lemma clock_ordered_filter (P : ThroughputSample → Prop) `{∀ x, Decision (P x)} from l :
  clock_ordered from l = true → clock_ordered from (base.filter P l) = true.
Proof.
  revert from. induction l as [|x l IH]; intros from; [done|]. rewrite filter_cons. simpl.
  rewrite andb_true_iff, Z.leb_le. intros [Hle Hl]. case_decide; simpl.
  - rewrite andb_true_iff, Z.leb_le. auto.
  - eapply clock_ordered_mono; [done|auto].
Qed.

Lemma clock_ordered_app from l x :
  clock_ordered from (l ++ [x]) = true ↔
  clock_ordered from l = true ∧ from <= acknowledgedAt x ∧
    ∀ y, y ∈ l → acknowledgedAt y <= acknowledgedAt x.
Proof.
  revert from. induction l as [|y l IH]; intros from; simpl.
  - rewrite andb_true_r, Z.leb_le. set_solver.
  - rewrite !andb_true_iff, !Z.leb_le, IH. split.
    + intros (? & ? & ? & Hall). split_and!; [done..|lia|]. intros z [->|?]%elem_of_cons; auto.
    + intros ([? ?] & ? & Hall). split_and!; [done..| |]; intros; apply Hall; set_solver.
Qed.

(** On an ordered list everything after the first sample inside the window is inside it. *)
Lemma window_all from cutoff l :
  clock_ordered from l = true → cutoff < from →
  base.filter (λ x, cutoff < acknowledgedAt x) l = l.
Proof.
  revert from. induction l as [|x l IH]; intros from; simpl; [done|].
  rewrite andb_true_iff, Z.leb_le. intros [Hle Hl] Hc. rewrite filter_cons, decide_True by lia.
  f_equal. eapply IH; [done|lia].
Qed.

Lemma retire_spec fuel samples cutoff first media encoded from :
  clock_ordered from (drop first samples) = true →
  (length (drop first samples) <= fuel)%nat → (first <= length samples)%nat →
  let '(first', media', encoded') := retire fuel samples cutoff first media encoded in
  drop first' samples = base.filter (λ x, cutoff < acknowledgedAt x) (drop first samples)
  ∧ (first' <= length samples)%nat
  ∧ media' = media - sumZ mediaBytes (drop first samples) + sumZ mediaBytes (drop first' samples)
  ∧ encoded' = encoded - sumZ encodedBytes (drop first samples) + sumZ encodedBytes (drop first' samples).
Proof.
  revert from first media encoded. induction fuel as [|fuel IH]; intros from first media encoded Hord Hfuel Hlen; simpl.
  { destruct (drop first samples); simpl in *; [|lia]. rewrite filter_nil. split_and!; lia || done. }
  destruct (samples !! first) as [x|] eqn:Hx.
  2:{ apply lookup_ge_None in Hx. rewrite drop_ge by done. rewrite filter_nil. split_and!; lia || done. }
  pose proof (drop_S _ _ _ Hx) as Hdrop. rewrite Hdrop in *. simpl in Hord, Hfuel.
  apply andb_prop in Hord as [_ Hord]. rewrite filter_cons.
  destruct (Z.leb_spec (acknowledgedAt x) cutoff) as [Hle|Hlt].
  - rewrite decide_False by lia.
    specialize (IH (acknowledgedAt x) (S first) (media - mediaBytes x) (encoded - encodedBytes x)
      Hord ltac:(lia) ltac:(apply lookup_lt_Some in Hx; lia)).
    destruct (retire _ _ _ _ _ _) as [[f' m'] e']. destruct IH as (-> & Hlen' & -> & ->).
    rewrite !sumZ_cons. split_and!; lia || done.
  - rewrite decide_True by lia. erewrite window_all by done. rewrite Hdrop.
    split_and!; lia || done.
Qed.

Lemma compact_spec samples first samples' first' :
  compact samples first = (samples', first') → (first <= length samples)%nat →
  drop first' samples' = drop first samples ∧ (first' <= length samples')%nat.
Proof. unfold compact. case_match; intros; simplify_eq; split; done || lia. Qed.

(** ** The tracker equals the reference *)

Definition tracks (started window : Z) (h : list ThroughputSample) (s : t) : Prop :=
  startedAt s = started ∧ windowMs s = window
  ∧ uploadedMediaBytes s = sumZ mediaBytes h
  ∧ acknowledgedEncodedBytes s = sumZ encodedBytes h
  ∧ (firstActiveSampleIndex s <= length (samples s))%nat
  ∧ drop (firstActiveSampleIndex s) (samples s) =
      match last h with Some x => in_window window (acknowledgedAt x) h | None => [] end
  ∧ activeMediaBytes s = sumZ mediaBytes (drop (firstActiveSampleIndex s) (samples s))
  ∧ activeEncodedBytes s = sumZ encodedBytes (drop (firstActiveSampleIndex s) (samples s))
  ∧ trackedPeakMediaMBps s = peak_rate started window [] 0 h
  ∧ rates s = reference_rates started window h.

Lemma peak_rate_app started window prev peak h x :
  peak_rate started window prev peak (h ++ [x]) =
  Qmax (peak_rate started window prev peak h)
       (window_rate started window (acknowledgedAt x) (prev ++ h ++ [x])).
Proof.
  revert prev peak. induction h as [|y h IH]; intros prev peak; simpl; [done|].
  rewrite IH. by rewrite <-app_assoc.
Qed.

(** Retiring once more from what was in the window gives what is in the window now. *)
Lemma in_window_step window last now h x :
  last <= now → acknowledgedAt x = now →
  base.filter (λ y, now - window < acknowledgedAt y) (in_window window last h ++ [x]) =
  in_window window now (h ++ [x]).
Proof.
  intros Hle Hx. unfold in_window. rewrite !filter_app, list_filter_filter. f_equal.
  apply list_filter_iff. intros y. lia.
Qed.

Lemma acknowledge_tracks started window h s x from :
  clock_ordered from (h ++ [x]) = true → tracks started window h s →
  tracks started window (h ++ [x]) (acknowledge s x).
Proof.
  intros Hord (Hst & Hwin & Hup & Hack & Hlen & Hdrop & Hact & Hacte & Hpeak & _).
  pose proof (proj1 (clock_ordered_app _ _ _) Hord) as (Hh & Hfrom & Hlast).
  destruct x as [now m e]. unfold acknowledge, recordAcknowledgement; cbn -[retire compact].
  set (x := Build_ThroughputSample now m e) in *.
  set (active := drop (firstActiveSampleIndex s) (samples s)) in *.
  assert (drop (firstActiveSampleIndex s) (samples s ++ [x]) = active ++ [x]) as Hnew
    by (by rewrite drop_app_le).
  assert (clock_ordered from (active ++ [x]) = true) as Hactive.
  { apply clock_ordered_app. rewrite Hdrop. destruct (last h) as [y|]; [|simpl; set_solver].
    split_and!; [by apply clock_ordered_filter|done|].
    intros z [_ Hz]%list_elem_of_filter. by apply Hlast. }
  pose proof (retire_spec (length (samples s ++ [x])) (samples s ++ [x]) (now - windowMs s)
    (firstActiveSampleIndex s) (activeMediaBytes s + m) (activeEncodedBytes s + e) from) as Hret.
  rewrite Hnew in Hret.
  destruct (retire _ _ _ _ _ _) as [[f m'] e'].
  assert (base.filter (λ y, now - windowMs s < acknowledgedAt y) (active ++ [x])
          = in_window window now (h ++ [x])) as Hwindow.
  { rewrite Hwin, Hdrop. destruct (last h) as [y|] eqn:Hl.
    - apply in_window_step with (last := acknowledgedAt y); [|done].
      apply Hlast. apply last_Some_elem_of. done.
    - apply last_None in Hl as ->. done. }
  destruct Hret as (Hf & Hflen & -> & ->); [done|unfold active; rewrite !length_app, length_drop; lia
    |rewrite length_app; lia|].
  rewrite Hwindow in Hf.
  destruct (compact (samples s ++ [x]) f) as [samples2 first2] eqn:Hc.
  apply compact_spec in Hc as [Hc Hclen]; [|done].
  rewrite Hact, Hacte, !sumZ_app, !sumZ_singleton, Hup, Hack, Hf, Hst, Hwin, Hpeak; simpl.
  replace (sumZ mediaBytes active + m - (sumZ mediaBytes active + m) + _)
    with (sumZ mediaBytes (in_window window now (h ++ [x]))) by lia.
  replace (sumZ encodedBytes active + e - (sumZ encodedBytes active + e) + _)
    with (sumZ encodedBytes (in_window window now (h ++ [x]))) by lia.
  unfold tracks, reference_rates; simpl.
  rewrite last_snoc, !sumZ_app, !sumZ_singleton, peak_rate_app, Hc, Hf. simpl.
  split_and!; done.
Qed.

Lemma new_tracks started window : tracks started window [] (new started window).
Proof. unfold tracks; simpl. split_and!; done. Qed.

Lemma history_tracks started window h :
  clock_ordered started h = true →
  tracks started window h (foldl acknowledge (new started window) h).
Proof.
  induction h as [|x h IH] using rev_ind; intros Hord; [apply new_tracks|].
  rewrite foldl_snoc. eapply acknowledge_tracks; [done|].
  apply IH. by apply clock_ordered_app in Hord as [? _].
Qed.

(** C10: after any acknowledgements at a clock that does not go back, the incrementally
    maintained and compacted tracker shows exactly the rates recomputed from the whole
    history: the current rates over the samples of the last [windowMs], the averages over
    everything acknowledged, and the highest current rate so far. *)
Theorem ThroughputTracker_correct started window h :
  clock_ordered started h = true →
  current (foldl acknowledge (new started window) h) = reference_rates started window h.
Proof. intros Hord. apply (history_tracks started window h Hord). Qed.

Lemma ThroughputTracker_correct_witness :
  let h := (λ x : Z * Z, Build_ThroughputSample x.1 x.2 x.2) <$>
             [(1000, 4000000); (3000, 2000000); (9000, 8000000); (9000, 1000000)] in
  clock_ordered 0 h = true
  ∧ rate_uploadedMediaBytes (current (foldl acknowledge (new 0 5000) h)) = 15000000
  ∧ Qeq (currentMediaMBps (current (foldl acknowledge (new 0 5000) h))) (9 # 5).
Proof.
  split_and!; [reflexivity|reflexivity|].
  rewrite (ThroughputTracker_correct 0 5000); reflexivity.
Defined.

(** ** [rateFreshness.ts] *)

(* src: services/upload/rateFreshness.ts:2-2 [MAX_NATIVE_PROGRESS_BYTES] *)
Definition MAX_NATIVE_PROGRESS_BYTES : Z := 8 * 1024 * 1024.

(** [None] is a rate that is not a finite number. *)
(* src: services/upload/rateFreshness.ts:4-9 [rateStaleAfterMs] *)
Definition rateStaleAfterMs (currentMediaMBps : option Q) : Q :=
  match currentMediaMBps with
  | None => 5000
  | Some rate =>
    if Qle_bool rate 0 then 5000 else
    Qmax 5000 (Qmin 30000
      (inject_Z (2 * MAX_NATIVE_PROGRESS_BYTES) / (rate * inject_Z BYTES_PER_MB) * inject_Z 1000))
  end.

(* src: services/upload/rateFreshness.ts:11-14 [isRateFresh] *)
Definition isRateFresh (sampledAt : Z) (currentMediaMBps : Q) (now : Z) : bool :=
  (0 <? sampledAt) && negb (Qle_bool currentMediaMBps 0) && (sampledAt <=? now)
  && Qle_bool (inject_Z (now - sampledAt)) (rateStaleAfterMs (Some currentMediaMBps)).

Lemma rateStaleAfterMs_range rate : (5000 <= rateStaleAfterMs rate <= 30000)%Q.
Proof.
  assert (5000 <= 5000 <= 30000)%Q by (split; by apply Qle_bool_iff).
  destruct rate as [rate|]; simpl; [|done]. case_match; [done|].
  split; [apply Q.le_max_l|]. apply Q.max_lub; [done|]. apply Q.le_min_l.
Qed.

Lemma slow_rate_bound rate age bytes :
  (0 < rate)%Q →
  (inject_Z age <= inject_Z bytes / (rate * inject_Z BYTES_PER_MB) * inject_Z 1000)%Q →
  (rate * inject_Z BYTES_PER_MB * (inject_Z age / 1000) <= inject_Z bytes)%Q.
Proof.
  intros Hr Hage.
  assert (0 < rate * inject_Z BYTES_PER_MB)%Q as Hpos by (apply Qmult_lt_0_compat; done).
  apply (Qle_shift_div_r _ 1000) in Hage; [|done].
  rewrite Qmult_comm. eapply Qle_trans; [apply Qmult_le_compat_r; [exact Hage|by apply Qlt_le_weak]|].
  rewrite Qmult_comm, Qmult_div_r; [apply Qle_refl|]. intros H0. rewrite H0 in Hpos. by apply Qlt_irrefl in Hpos.
Qed.

(** A rate is fresh while the time its two largest native progress chunks take, at that
    rate, has not passed since it was measured, with a floor of 5 s and a ceiling of 30 s;
    a rate that is absent, not positive or measured in the future is never fresh. *)
Lemma isRateFresh_bounds sampledAt rate now :
  let age := now - sampledAt in
  (isRateFresh sampledAt rate now = true →
     0 < sampledAt ∧ (0 < rate)%Q ∧ 0 <= age <= 30000
     ∧ (5000 < age → (rate * inject_Z BYTES_PER_MB * (inject_Z age / 1000)
                      <= inject_Z (2 * MAX_NATIVE_PROGRESS_BYTES))%Q))
  ∧ (0 < sampledAt → (0 < rate)%Q → 0 <= age <= 5000 → isRateFresh sampledAt rate now = true).
Proof.
  simpl. unfold isRateFresh. rewrite !andb_true_iff, negb_true_iff, Z.ltb_lt, Z.leb_le, !Qle_bool_iff.
  assert (Qle_bool rate 0 = false ↔ (0 < rate)%Q) as Hpos.
  { rewrite <-not_true_iff_false, Qle_bool_iff. split; [apply Qnot_le_lt|apply Qlt_not_le]. }
  rewrite Hpos. pose proof (rateStaleAfterMs_range (Some rate)) as [Hlo Hhi]. split.
  - intros (((? & Hr) & ?) & Hage).
    assert (now - sampledAt <= 30000).
    { rewrite Zle_Qle. by eapply Qle_trans. }
    split_and!; [done..|lia|done|]. intros Hslow.
    simpl in Hage. apply Hpos in Hr as Hr'. rewrite Hr' in Hage.
    apply Q.max_le in Hage as [Hage|Hage].
    { change 5000%Q with (inject_Z 5000) in Hage. rewrite <-Zle_Qle in Hage. lia. }
    apply Q.min_glb_r in Hage. by apply slow_rate_bound.
  - intros ? Hr ?. split_and!; [done..|lia|]. eapply Qle_trans; [|exact Hlo].
    change 5000%Q with (inject_Z 5000). rewrite <-Zle_Qle. lia.
Qed.

Lemma isRateFresh_bounds_witness :
  isRateFresh 1000 (1 # 2) 31000 = true ∧ isRateFresh 1000 (1 # 2) 31001 = false
  ∧ isRateFresh 1000 3 6500 = true ∧ isRateFresh 1000 3 6600 = false
  ∧ isRateFresh 1000 10 6000 = true.
Proof. split_and!; [reflexivity..|]. by apply (isRateFresh_bounds 1000 10 6000). Defined.
