(* ===== verification/Reporter.v ===== *)
(** * The client metrics reporter ([services/upload/ClientMetricsReporter.ts])

    The calls of the session, the timer callback and the clock are the inputs of the model;
    [sendChain] is the sequence of samples handed to [send], which the code chains so that
    each starts after the one before it settled. Rates are given in bytes per second,
    already multiplied by [BYTES_PER_MB]. *)

From S2P Require Import Prelude.

Module ClientMetricsReporter.

(* src: services/upload/ClientMetricsReporter.ts:13-29 [ClientMetricsReporter] *)
Record t := {
  intervalMs : Z;
  sessionId : string;
  lastSentAt : option Z;
  pendingBytesPerSecond : option Z;
  timer : option Z;   (** the instant from which the callback may run *)
  sendChain : list (string * Z);
  stopped : bool }.

(* src: services/upload/ClientMetricsReporter.ts:22-29 [constructor] *)
Definition new (sessionId : string) (intervalMs : option Z) : t :=
  {| intervalMs := default 1000 intervalMs; sessionId := sessionId; lastSentAt := None;
     pendingBytesPerSecond := None; timer := None; sendChain := []; stopped := false |}.

(* src: services/upload/ClientMetricsReporter.ts:65-69 [enqueue] *)
Definition enqueue (s : t) (bytesPerSecond : Z) : t :=
  {| intervalMs := intervalMs s; sessionId := sessionId s; lastSentAt := lastSentAt s;
     pendingBytesPerSecond := pendingBytesPerSecond s; timer := timer s;
     sendChain := sendChain s ++ [(sessionId s, bytesPerSecond)]; stopped := stopped s |}.

(* src: services/upload/ClientMetricsReporter.ts:57-63 [flush] *)
Definition flush (s : t) (now : Z) : t :=
  if stopped s then s else
  match pendingBytesPerSecond s with
  | None => s
  | Some bytesPerSecond =>
    enqueue {| intervalMs := intervalMs s; sessionId := sessionId s; lastSentAt := Some now;
               pendingBytesPerSecond := None; timer := timer s; sendChain := sendChain s;
               stopped := stopped s |} bytesPerSecond
  end.

(* src: services/upload/ClientMetricsReporter.ts:31-45 [recordCurrentMediaRate] *)
Definition recordCurrentMediaRate (s : t) (currentMediaRate now : Z) : t :=
  if stopped s then s else
  let s1 := {| intervalMs := intervalMs s; sessionId := sessionId s; lastSentAt := lastSentAt s;
               pendingBytesPerSecond := Some (Z.max 0 currentMediaRate); timer := timer s;
               sendChain := sendChain s; stopped := stopped s |} in
  match lastSentAt s with
  | None => flush s1 now
  | Some sentAt =>
    if intervalMs s <=? now - sentAt then flush s1 now else
    match timer s with
    | Some _ => s1
    | None =>
      {| intervalMs := intervalMs s; sessionId := sessionId s; lastSentAt := lastSentAt s1;
         pendingBytesPerSecond := pendingBytesPerSecond s1;
         timer := Some (now + (intervalMs s - (now - sentAt)));
         sendChain := sendChain s1; stopped := stopped s1 |}
    end
  end.

(** The callback given to [setTimeout]; it runs only while the timer is armed. *)
(* src: services/upload/ClientMetricsReporter.ts:40-43 [recordCurrentMediaRate] *)
Definition timerCallback (s : t) (now : Z) : t :=
  flush {| intervalMs := intervalMs s; sessionId := sessionId s; lastSentAt := lastSentAt s;
           pendingBytesPerSecond := pendingBytesPerSecond s; timer := None;
           sendChain := sendChain s; stopped := stopped s |} now.

(* src: services/upload/ClientMetricsReporter.ts:47-55 [finish] *)
Definition finish (s : t) : t :=
  if stopped s then s else
  enqueue {| intervalMs := intervalMs s; sessionId := sessionId s; lastSentAt := lastSentAt s;
             pendingBytesPerSecond := None; timer := None; sendChain := sendChain s;
             stopped := true |} 0.

Inductive event := Rate (rate : Z) | TimerRuns | Finish.

(** One event at [now]; [setTimeout] runs its callback no earlier than asked. *)
Definition reporter_step (s : t) (e : Z * event) : option t :=
  match e.2 with
  | Rate rate => Some (recordCurrentMediaRate s rate e.1)
  | TimerRuns =>
    match timer s with
    | Some due => if due <=? e.1 then Some (timerCallback s e.1) else None
    | None => None
    end
  | Finish => Some (finish s)
  end.

Fixpoint reporter_run (s : t) (last : Z) (es : list (Z * event)) : option t :=
  match es with
  | [] => Some s
  | e :: es => if last <=? e.1 then s' ← reporter_step s e; reporter_run s' e.1 es else None
  end.

(** *** The instants of the rate samples *)

(** A sample was sent by this event exactly if it changed [lastSentAt]'s sample. *)
Definition sent_by (s s' : t) (e : Z * event) : list Z :=
  match e.2 with
  | Finish => []
  | _ => if decide (length (sendChain s) < length (sendChain s'))%nat then [e.1] else []
  end.

Fixpoint send_times (s : t) (es : list (Z * event)) : list Z :=
  match es with
  | [] => []
  | e :: es =>
    match reporter_step s e with
    | Some s' => sent_by s s' e ++ send_times s' es
    | None => []
    end
  end.

(** The callback runs before any later call: the event loop is not behind. *)
Fixpoint timer_prompt (s : t) (es : list (Z * event)) : bool :=
  match es with
  | [] => true
  | e :: es =>
    match e.2, timer s with
    | Rate _, Some due => e.1 <? due
    | _, _ => true
    end && match reporter_step s e with Some s' => timer_prompt s' es | None => true end
  end.

Fixpoint spaced (interval : Z) (times : list Z) : Prop :=
  match times with
  | a :: (b :: _) as rest => interval <= b - a ∧ spaced interval rest
  | _ => True
  end.

(** Every third sample is an interval after the first of the three. *)
Fixpoint spaced_every_other (interval : Z) (times : list Z) : Prop :=
  match times with
  | a :: (_ :: c :: _) as rest => interval <= c - a ∧ spaced_every_other interval rest
  | _ => True
  end.
End ClientMetricsReporter.

Import ClientMetricsReporter.

(** ** Spacing of the samples *)

(** [recent] is the last two samples, oldest first. The timer, when armed, is due one
    interval after the last sample, or was overtaken by a sample sent without it. *)
Definition paced (s : t) (last : Z) (recent : list Z) : Prop :=
  match recent with
  | [] => lastSentAt s = None ∧ timer s = None
  | [sent] => lastSentAt s = Some sent ∧ sent <= last
      ∧ ∀ due, timer s = Some due → due = sent + intervalMs s
  | [before; sent] => lastSentAt s = Some sent ∧ before <= sent <= last
      ∧ ∀ due, timer s = Some due → due = sent + intervalMs s ∨ intervalMs s <= sent - before
  | _ => False
  end.

Definition last_two (recent : list Z) (times : list Z) : list Z :=
  let l := recent ++ times in drop (length l - 2) l.

(** What one event does to the fields that pace the samples. *)
Lemma step_effect s e s' :
  reporter_step s e = Some s' →
  intervalMs s' = intervalMs s ∧
  ((sent_by s s' e = [] ∧ lastSentAt s' = lastSentAt s
    ∧ (timer s' = timer s ∨ timer s' = None
       ∨ ∃ sent, lastSentAt s = Some sent ∧ timer s' = Some (sent + intervalMs s)))
   ∨ (sent_by s s' e = [e.1] ∧ lastSentAt s' = Some e.1 ∧ timer s' = timer s
      ∧ (∃ rate, e.2 = Rate rate)
      ∧ ∀ sent, lastSentAt s = Some sent → intervalMs s <= e.1 - sent)
   ∨ (sent_by s s' e = [e.1] ∧ lastSentAt s' = Some e.1 ∧ timer s' = None
      ∧ ∃ due, timer s = Some due ∧ due <= e.1)).
Proof.
  destruct e as [now ev], s as [ival sid sent pend tm chain stop].
  unfold reporter_step, sent_by, recordCurrentMediaRate, timerCallback, finish, flush, enqueue.
  destruct ev as [rate| |], stop; simpl; intros H;
    repeat (case_match; simpl in * ); simplify_eq; simpl in *;
    rewrite ?length_app, ?Z.leb_le, ?Z.leb_gt in *; simpl in *; try lia.
  all: split; [done|]; try (left; split_and!; by auto).
  all: try (right; left; split_and!; [done..|eauto|naive_solver lia]).
  all: try (right; right; split_and!; [done..|eauto]).
  all: try match goal with
    | n : ¬ (_ < length (_ ++ _))%nat |- _ => destruct n; rewrite length_app; simpl; lia end.
  left; split_and!; [done..|]. right; right. eexists; split; [done|f_equal; lia].
Qed.

Lemma step_paced s e s' last recent :
  paced s last recent → last <= e.1 → reporter_step s e = Some s' →
  paced s' e.1 (last_two recent (sent_by s s' e))
  ∧ spaced_every_other (intervalMs s) (recent ++ sent_by s s' e).
Proof.
  intros Hp Hle [Hint Hs]%step_effect. unfold last_two, paced.
  destruct Hs as [(-> & -> & Ht)|[(-> & -> & -> & _ & Hgap)|(-> & -> & -> & due & Hdue & Hrun)]];
    rewrite ?Hint; destruct recent as [|a [|b [|]]]; simpl in *; try tauto;
    destruct Hp as [Hsent Hp]; rewrite ?Hsent in *; simpl in *.
  all: try specialize (Hgap _ eq_refl); try match type of Hp with _ ∧ _ => destruct Hp as [Hab Hp] end.
  all: try apply Hp in Hdue as Hd.
  all: try destruct Ht as [-> | [-> | (sent & ? & ->)]]; simplify_eq.
  all: try (split_and!; naive_solver lia).
Qed.

Lemma spaced_every_other_app interval recent new rest :
  spaced_every_other interval (recent ++ new) →
  spaced_every_other interval (last_two recent new ++ rest) →
  spaced_every_other interval (recent ++ new ++ rest).
Proof.
  unfold last_two. rewrite app_assoc. generalize (recent ++ new). clear recent new.
  intros l. induction l as [|a l IH]; intros Hl Hr; [done|].
  destruct l as [|b l]; [exact Hr|]. destruct l as [|c l]; [exact Hr|].
  destruct Hl as [Hac Hl]. split; [exact Hac|]. apply IH; [exact Hl|].
  by replace (length (a :: b :: c :: l) - 2)%nat with (S (length (b :: c :: l) - 2)) in Hr by (simpl; lia).
Qed.

Lemma run_paced es s s' last recent :
  paced s last recent → spaced_every_other (intervalMs s) recent →
  reporter_run s last es = Some s' →
  spaced_every_other (intervalMs s) (recent ++ send_times s es).
Proof.
  revert s last recent. induction es as [|e es IH]; intros s last recent Hp Hsp Hrun; simpl in *.
  { by rewrite app_nil_r. }
  destruct (Z.leb_spec last e.1) as [Hle|]; [|done].
  destruct (reporter_step s e) as [s1|] eqn:Hs; simpl in Hrun; [|done].
  pose proof (step_paced _ _ _ _ _ Hp Hle Hs) as [Hp1 Hsp1].
  pose proof (step_effect _ _ _ Hs) as [Hint _]. rewrite <-Hint in *.
  apply spaced_every_other_app; [done|]. eapply IH; [done| |done].
  clear -Hsp1. revert Hsp1. unfold last_two. generalize (recent ++ sent_by s s1 e). intros l.
  generalize (length l - 2)%nat. intros n. revert l. induction n as [|n IH]; intros [|a l] Hl; try done.
  simpl. apply IH. destruct l as [|b [|c l]]; [done..|]. apply Hl.
Qed.

Lemma new_paced sid ival now : paced (new sid ival) now [].
Proof. done. Qed.

(** When the callback is never behind, the last sample is what paces the next one. *)
Definition paced_prompt (s : t) (last : Z) (sent : option Z) : Prop :=
  lastSentAt s = sent ∧ (∀ l, sent = Some l → l <= last)
  ∧ ∀ due, timer s = Some due → ∃ l, sent = Some l ∧ due = l + intervalMs s.

Lemma run_spaced es s s' last sent :
  paced_prompt s last sent → reporter_run s last es = Some s' → timer_prompt s es = true →
  spaced (intervalMs s) (option_list sent ++ send_times s es).
Proof.
  revert s last sent. induction es as [|e es IH]; intros s last sent Hp Hrun Hprompt; simpl in *.
  { by destruct sent. }
  destruct (Z.leb_spec last e.1) as [Hle|]; [|done].
  destruct (reporter_step s e) as [s1|] eqn:Hs; simpl in Hrun; [|done].
  apply andb_prop in Hprompt as [Hnow Hprompt]. destruct Hp as (Hl & Hlast & Ht).
  pose proof (step_effect _ _ _ Hs) as [Hint Heff]. rewrite <-Hint in *.
  destruct Heff as [(-> & Hl1 & Ht1)|[(-> & Hl1 & Ht1 & [rate Hev] & Hgap)|(-> & Hl1 & Ht1 & due & Hdue & Hr)]].
  - apply (IH _ e.1 sent); try done.
    split_and!; [congruence|intros l Hsome; specialize (Hlast l Hsome); lia|].
    intros due Hd. destruct Ht1 as [Ht1|[Ht1|(l & ? & Ht1)]]; rewrite Ht1 in Hd; naive_solver.
  - specialize (IH s1 e.1 (Some e.1)). simpl in IH.
    assert (timer s = None) as Hnone.
    { destruct (timer s) as [due|] eqn:Htm; [|done]. rewrite Hev in Hnow. apply Z.ltb_lt in Hnow.
      destruct (Ht due eq_refl) as (l & Hsent & ->). specialize (Hgap l ltac:(congruence)). lia. }
    assert (spaced (intervalMs s1) (e.1 :: send_times s1 es)) as Hsp.
    { apply IH; try done. split_and!; [done|naive_solver lia|]. rewrite Ht1, Hnone. done. }
    destruct sent as [l|]; [|done]. split; [|done]. apply Hgap. congruence.
  - specialize (IH s1 e.1 (Some e.1)). simpl in IH.
    assert (spaced (intervalMs s1) (e.1 :: send_times s1 es)) as Hsp.
    { apply IH; try done. split_and!; [done|naive_solver lia|]. rewrite Ht1. done. }
    destruct (Ht due Hdue) as (l & -> & ->). split; [lia|done].
Qed.

(** ** What is sent *)

(** An unsent sample always has a timer that will send it. *)
Definition pending_armed (s : t) : Prop :=
  (pendingBytesPerSecond s ≠ None → stopped s = false ∧ timer s ≠ None)
  ∧ (lastSentAt s = None → timer s = None)
  ∧ (∀ x, x ∈ sendChain s → x.1 = sessionId s ∧ 0 <= x.2).

Definition pending_nonneg (s : t) : Prop := ∀ v, pendingBytesPerSecond s = Some v → 0 <= v.

Lemma step_pending s e s' :
  pending_armed s → pending_nonneg s → reporter_step s e = Some s' →
  pending_armed s' ∧ pending_nonneg s' ∧ sessionId s' = sessionId s.
Proof.
  destruct e as [now ev], s as [ival sid sent pend tm chain stop].
  unfold pending_armed, pending_nonneg, reporter_step, recordCurrentMediaRate, timerCallback,
    finish, flush, enqueue; simpl.
  intros (Hp & Hl & Hc) Hnn H. destruct ev as [rate| |], stop; simpl in H;
    repeat (case_match; simpl in * ); simplify_eq; simpl in *.
  all: split_and!; intros; simplify_eq; try done; try lia; auto.
  all: try match goal with H : _ ∈ _ ++ [_] |- _ =>
    apply elem_of_app in H as [?|Hx%list_elem_of_singleton]; [by apply Hc|subst; split; simpl; [done|]] end.
  all: try lia.
  all: try (apply Hp; done).
  all: try (by destruct Hp).
  all: by apply Hnn.
Qed.

Lemma run_pending es s s' last :
  pending_armed s → pending_nonneg s → reporter_run s last es = Some s' →
  pending_armed s' ∧ pending_nonneg s' ∧ sessionId s' = sessionId s.
Proof.
  revert s last. induction es as [|e es IH]; intros s last Hp Hn H; simpl in H; [by simplify_eq|].
  destruct (last <=? e.1); [|done].
  destruct (reporter_step s e) as [s1|] eqn:Hs; simpl in H; [|done].
  destruct (step_pending _ _ _ Hp Hn Hs) as (? & ? & <-). by eapply IH.
Qed.

Lemma run_stopped es s s' last :
  stopped s = true → timer s = None → reporter_run s last es = Some s' → s' = s.
Proof.
  revert last. induction es as [|e es IH]; intros last Hst Ht H; simpl in H; [by simplify_eq|].
  destruct (last <=? e.1); [|done].
  assert (reporter_step s e = None ∨ reporter_step s e = Some s) as [Hs|Hs].
  { unfold reporter_step, recordCurrentMediaRate, finish. rewrite Hst, Ht. destruct e.2; auto. }
  - by rewrite Hs in H.
  - rewrite Hs in H. by eapply IH.
Qed.

(** At most two metric samples are sent within any interval, and consecutive ones are
    a full interval apart whenever the timer callback runs before the next rate event:
    the clock does not go back and [setTimeout] never fires early. *)
Lemma reporter_rate_limited sid ival es last s :
  reporter_run (new sid ival) last es = Some s →
  spaced_every_other (default 1000 ival) (send_times (new sid ival) es)
  ∧ (timer_prompt (new sid ival) es = true →
     spaced (default 1000 ival) (send_times (new sid ival) es)).
Proof.
  intros Hrun. split.
  - by apply (run_paced es (new sid ival) s last []).
  - by apply (run_spaced es (new sid ival) s last None).
Qed.

(** Nothing recorded is lost and nothing is sent after the end: while the transfer
    runs, an unsent rate has an armed timer whose callback sends exactly that rate; finishing
    discards it, sends one final zero for the same session, and later calls send nothing. *)
Lemma reporter_finish sid ival es last s :
  reporter_run (new sid ival) last es = Some s →
  (∀ v, pendingBytesPerSecond s = Some v →
     ∃ due, timer s = Some due
       ∧ ∀ now, sendChain (timerCallback s now) = sendChain s ++ [(sid, v)])
  ∧ (∀ x, x ∈ sendChain s → x.1 = sid ∧ 0 <= x.2)
  ∧ (stopped s = false →
       sendChain (finish s) = sendChain s ++ [(sid, 0)]
       ∧ ∀ es' last' s', reporter_run (finish s) last' es' = Some s' → s' = finish s).
Proof.
  intros Hrun.
  destruct (run_pending es (new sid ival) s last) as ((Hp & _ & Hc) & Hn & Hsid); try done.
  { unfold pending_armed; simpl. split_and!; [done..|]. by intros x ?%elem_of_nil. }
  simpl in Hsid. split_and!.
  - intros v Hv. rewrite Hv in Hp. destruct Hp as [Hst Ht]; [done|].
    destruct (timer s) as [due|] eqn:Hdue; [|done]. exists due; split; [done|]. intros now.
    unfold timerCallback, flush; simpl. rewrite Hst, Hv. simpl. by rewrite Hsid.
  - intros x Hx. rewrite <-Hsid. by apply Hc.
  - intros Hst. unfold finish. rewrite Hst. simpl. rewrite Hsid. split; [done|].
    intros es' last' s'. by apply run_stopped.
Qed.

Definition late_timer : list (Z * event) :=
  [(0, Rate 5); (100, Rate 6); (1000, Rate 7); (1001, Rate 8); (1002, TimerRuns)].

Definition end_state (es : list (Z * event)) : t :=
  default (new "s" None) (reporter_run (new "s" None) 0 es).

Lemma reporter_rate_limited_witness :
  send_times (new "s" None) late_timer = [0; 1000; 1002]
  ∧ spaced_every_other 1000 (send_times (new "s" None) late_timer).
Proof.
  split; [reflexivity|].
  refine (proj1 (reporter_rate_limited "s" None late_timer 0 (end_state late_timer) _)). by vm_compute.
Defined.

Lemma reporter_finish_witness :
  sendChain (finish (end_state [(0, Rate 5); (100, Rate 6)])) = [("s", 5)] ++ [("s", 0)].
Proof.
  refine (proj1 (proj2 (proj2 (reporter_finish "s" None [(0, Rate 5); (100, Rate 6)] 0
    (end_state [(0, Rate 5); (100, Rate 6)]) _)) _)); by vm_compute.
Defined.

(** [flush] leaves an armed timer behind when a rate event overtakes it, so a callback that
    runs late sends again before the interval is over. *)
Theorem reporter_late_timer_sends_early :
  reporter_run (new "s" None) 0 late_timer = Some (end_state late_timer)
  ∧ send_times (new "s" None) late_timer = [0; 1000; 1002]
  ∧ ¬ spaced 1000 (send_times (new "s" None) late_timer).
Proof. split_and!; [by vm_compute..|]. vm_compute. naive_solver. Qed.
