(* ===== verification/Control.v ===== *)
(** * Retries and thermal control
    ([services/upload/RetryPolicy.ts], [services/upload/ThermalController.ts]) *)

From S2P Require Import Prelude UploadTypes.

(** ** [RetryPolicy.ts] *)

Section retry.
Context {T : Type}.

Inductive settled := Resolved (value : T) | Rejected (error : thrown).

(** What one attempt meets: [isCancelled()] when it starts and in its [catch] clause, how the
    request settled, and whether the attempt's timer had aborted the signal by then. *)
Record attempt_env := {
  cancelledAtStart : bool;
  request : settled;
  aborted : bool;
  cancelledAtCatch : bool }.

Definition TransferFailure_instance (error : thrown) : bool :=
  match error with ThrownTransferFailure _ => true | _ => false end.

(** The body of the [try]: throws before the request when cancelled, and only then has the
    controller not been added to [activeRequests]. *)
Definition attempt_body (env : attempt_env) : settled :=
  if cancelledAtStart env
  then Rejected (ThrownTransferFailure (failure_of stage_upload cancelled))
  else request env.

(** The [catch] clause: [inl] rethrows, [inr] waits and retries. The timer is set only after
    the cancellation check, so the signal of an attempt that never started is not aborted. *)
(* src: services/upload/RetryPolicy.ts:23-32 [retryChunkRequest] *)
Definition attempt_catch (retries : Z) (attempt : Z) (env : attempt_env) (error : thrown)
    : thrown + unit :=
  if isUnauthorizedError error then inl error else
  if (retries <=? attempt) || cancelledAtCatch env || TransferFailure_instance error then
    if negb (cancelledAtStart env) && aborted env && negb (cancelledAtCatch env)
    then inl (ThrownTransferFailure (failure_of stage_network request_timeout))
    else inl error
  else inr ().

(** One run of the loop from attempt [attempt] on: the result, the controllers still in
    [activeRequests] (named by attempt), and the delays waited. The loop makes at most
    [retries + 1] attempts; [None] would be fuel exhausted. *)
(* src: services/upload/RetryPolicy.ts:14-37 [retryChunkRequest] *)
Fixpoint retry_loop (fuel : nat) (retries : Z) (env : Z → attempt_env) (attempt : Z)
    (activeRequests : gset Z) (delays : list Z) : option (settled * gset Z * list Z * Z) :=
  match fuel with
  | O => None
  | S fuel =>
    let active1 :=
      if cancelledAtStart (env attempt) then activeRequests else {[ attempt ]} ∪ activeRequests in
    let finally := active1 ∖ {[ attempt ]} in
    match attempt_body (env attempt) with
    | Resolved value => Some (Resolved value, finally, delays, attempt + 1)
    | Rejected error =>
      match attempt_catch retries attempt (env attempt) error with
      | inl error => Some (Rejected error, finally, delays, attempt + 1)
      | inr _ => retry_loop fuel retries env (attempt + 1) finally (delays ++ [500 * (attempt + 1)])
      end
    end
  end.

(* src: services/upload/RetryPolicy.ts:4-38 [retryChunkRequest] *)
Definition retryChunkRequest (retries : Z) (env : Z → attempt_env) : option (settled * gset Z * list Z * Z) :=
  retry_loop (S (Z.to_nat retries)) retries env 0 ∅ [].

(** An attempt after which the loop goes on. *)
Definition retryable (env : attempt_env) : Prop :=
  ∃ error, attempt_body env = Rejected error ∧ isUnauthorizedError error = false
    ∧ TransferFailure_instance error = false ∧ cancelledAtCatch env = false.

(** What the caller gets from the last attempt. *)
Definition final_result (env : attempt_env) (r : settled) : Prop :=
  match attempt_body env with
  | Resolved value => r = Resolved value
  | Rejected error =>
    if isUnauthorizedError error then r = Rejected error else
    if negb (cancelledAtStart env) && aborted env && negb (cancelledAtCatch env)
    then r = Rejected (ThrownTransferFailure (failure_of stage_network request_timeout))
    else r = Rejected error
  end.

(** [500, 1000, 1500, ...]: [n] waits. *)
Definition linear_backoff (from n : nat) : list Z :=
  (λ k, 500 * (Z.of_nat k + 1)) <$> seq from n.

Lemma retry_loop_spec fuel retries env attempt active delays :
  attempt ∉ active → (∀ k, attempt <= k → k ∉ active) →
  0 <= attempt → Z.max 0 (retries - attempt) < Z.of_nat fuel → attempt <= Z.max 0 retries →
  ∃ r n, retry_loop fuel retries env attempt active delays
      = Some (r, active, delays ++ linear_backoff (Z.to_nat attempt) n, attempt + Z.of_nat n + 1)
    ∧ attempt + Z.of_nat n <= Z.max 0 retries
    ∧ final_result (env (attempt + Z.of_nat n)) r
    ∧ (∀ k, attempt <= k < attempt + Z.of_nat n → retryable (env k)).
Proof.
  revert attempt active delays. induction fuel as [|fuel IH];
    intros attempt active delays Hna Hfresh Hpos Hfuel Hle; [lia|]. simpl.
  set (active1 := (if cancelledAtStart _ then _ else _) ∖ _).
  assert (active1 = active) as ->.
  { subst active1. destruct (cancelledAtStart _); set_solver. }
  assert (∀ r, final_result (env attempt) r →
    ∃ r' n, Some (r, active, delays, attempt + 1)
      = Some (r', active, delays ++ linear_backoff (Z.to_nat attempt) n, attempt + Z.of_nat n + 1)
    ∧ attempt + Z.of_nat n <= Z.max 0 retries ∧ final_result (env (attempt + Z.of_nat n)) r'
    ∧ (∀ k, attempt <= k < attempt + Z.of_nat n → retryable (env k))) as Hstop.
  { intros r Hr. exists r, 0%nat. unfold linear_backoff; simpl.
    rewrite app_nil_r, Z.add_0_r. split_and!; [done|lia|done|lia]. }
  destruct (attempt_body (env attempt)) as [v|error] eqn:Hbody.
  { apply Hstop. unfold final_result. by rewrite Hbody. }
  destruct (attempt_catch retries attempt (env attempt) error) as [error'|] eqn:Hcatch.
  { apply Hstop. unfold final_result, attempt_catch in *. rewrite Hbody.
    repeat case_match; simplify_eq; done. }
  assert (retryable (env attempt) ∧ attempt < retries) as [Hretry Hlt].
  { unfold attempt_catch in Hcatch. repeat case_match; simplify_eq. split; [|lia].
    exists error. destruct (cancelledAtCatch _), (TransferFailure_instance _); split_and!;
      done || lia || (repeat (rewrite ?orb_true_r in *; simpl in * ); done). }
  destruct (IH (attempt + 1) active (delays ++ [500 * (attempt + 1)])) as (r & n & Hloop & Hn & Hr & Hall);
    [apply Hfresh; lia|intros; apply Hfresh; lia|lia..|].
  exists r, (S n). rewrite Hloop.
  replace (attempt + Z.of_nat (S n)) with (attempt + 1 + Z.of_nat n) by lia.
  split_and!; [|lia|done|].
  - rewrite <-app_assoc. do 3 f_equal. unfold linear_backoff. simpl.
    rewrite Z2Nat.id by lia.
    by replace (Z.to_nat (attempt + 1)) with (S (Z.to_nat attempt)) by lia.
  - intros k Hk. destruct (decide (k = attempt)) as [->|]; [done|]. apply Hall. lia.
Qed.

(** A chunk request always ends after at most [retries + 1] attempts with linear
    back-off between them: every attempt but the last failed in a retryable way, the result
    is the last attempt's (its timeout reported as such), and no controller is left in
    [activeRequests]. *)
Lemma retryChunkRequest_bounded retries env :
  ∃ r n, retryChunkRequest retries env = Some (r, ∅, linear_backoff 0 n, Z.of_nat n + 1)
    ∧ Z.of_nat n <= Z.max 0 retries
    ∧ final_result (env (Z.of_nat n)) r
    ∧ (∀ k, 0 <= k < Z.of_nat n → retryable (env k)).
Proof.
  destruct (retry_loop_spec (S (Z.to_nat retries)) retries env 0 ∅ []) as (r & n & H);
    [set_solver..|lia|lia|lia|]. by exists r, n.
Qed.
End retry.
Arguments settled : clear implicits.
Arguments attempt_env : clear implicits.

(** ** [ThermalController.ts] *)

Module ThermalController.

(* src: services/upload/ThermalController.ts:3-8 [ThermalController] *)
Record t := {
  state : ThermalState;
  was_cancelled : bool;
  waiters : list Z;   (** the suspended calls of [waitForUpload], by worker index *)
  policy : ThermalPolicy }.

(* src: services/upload/ThermalController.ts:8-8 [constructor] *)
Definition new (policy : ThermalPolicy) : t :=
  {| state := nominal; was_cancelled := false; waiters := []; policy := policy |}.

Inductive ControlMode := normal | reduced | paused.

Definition hot (s : ThermalState) : bool := match s with serious | critical => true | _ => false end.

(* src: services/upload/ThermalController.ts:14-18 [controlMode] *)
Definition controlMode (c : t) : ControlMode :=
  match policy c with
  | monitor_only => normal
  | adaptive => if hot (state c) then reduced else normal
  end.

(** The waiters resolved, and the set without them. *)
(* src: services/upload/ThermalController.ts:51-54 [wake] *)
Definition wake (c : t) : t * list Z :=
  ({| state := state c; was_cancelled := was_cancelled c; waiters := []; policy := policy c |}, waiters c).

(* src: services/upload/ThermalController.ts:20-24 [update] *)
Definition update (c : t) (s : ThermalState) : t * list Z :=
  if decide (s = state c) then (c, []) else
  wake {| state := s; was_cancelled := was_cancelled c; waiters := waiters c; policy := policy c |}.

(* src: services/upload/ThermalController.ts:42-45 [cancel] *)
Definition cancel (c : t) : t * list Z :=
  wake {| state := state c; was_cancelled := true; waiters := waiters c; policy := policy c |}.

(* src: services/upload/ThermalController.ts:26-28 [waitForPreparation] *)
Definition waitForPreparation (c : t) : bool := negb (was_cancelled c).

(** A run of [waitForUpload] up to its next suspension: [None] suspended, else the result.
    A resumed call runs the loop condition again. *)
(* src: services/upload/ThermalController.ts:30-40 [waitForUpload] *)
Definition waitForUpload (c : t) (workerIndex : Z) : t * option bool :=
  match policy c with
  | monitor_only => (c, Some (negb (was_cancelled c)))
  | adaptive =>
    if negb (was_cancelled c) && hot (state c) && (0 <? workerIndex)
    then ({| state := state c; was_cancelled := was_cancelled c;
             waiters := waiters c ++ [workerIndex]; policy := policy c |}, None)
    else (c, Some (negb (was_cancelled c)))
  end.

(** The controller with the calls resolved but not yet run again. *)
Record config := { controller : t; resolved : list Z }.

Inductive thermal_step : config → config → Prop :=
  | thermal_call c w c' r :
      waitForUpload (controller c) w = (c', r) →
      thermal_step c {| controller := c'; resolved := resolved c |}
  | thermal_resume c before w after c' r :
      resolved c = before ++ w :: after → waitForUpload (controller c) w = (c', r) →
      thermal_step c {| controller := c'; resolved := before ++ after |}
  | thermal_update c s c' ws :
      update (controller c) s = (c', ws) →
      thermal_step c {| controller := c'; resolved := resolved c ++ ws |}
  | thermal_cancel c c' ws :
      cancel (controller c) = (c', ws) →
      thermal_step c {| controller := c'; resolved := resolved c ++ ws |}.

(** Suspended calls are of workers other than the first, under a thermal reduction. *)
Definition waiters_ok (c : t) : Prop :=
  waiters c ≠ [] →
  policy c = adaptive ∧ hot (state c) = true ∧ was_cancelled c = false ∧ ∀ w, w ∈ waiters c → 0 < w.
End ThermalController.

Lemma thermal_step_ok c c' :
  ThermalController.waiters_ok (ThermalController.controller c) →
  ThermalController.thermal_step c c' →
  ThermalController.waiters_ok (ThermalController.controller c')
  ∧ ThermalController.policy (ThermalController.controller c')
      = ThermalController.policy (ThermalController.controller c).
Proof.
  assert (∀ k w k' r, ThermalController.waiters_ok k →
    ThermalController.waitForUpload k w = (k', r) →
    ThermalController.waiters_ok k' ∧ ThermalController.policy k' = ThermalController.policy k) as Hwait.
  { intros [s c0 ws p] w k' r Hok H. unfold ThermalController.waitForUpload in H; simpl in H.
    destruct p; simplify_eq; [done|].
    destruct (negb c0 && ThermalController.hot s && (0 <? w)) eqn:Hc; simplify_eq; [|done].
    apply andb_prop in Hc as [[Hc Hh]%andb_prop Hw]. apply negb_true_iff in Hc. apply Z.ltb_lt in Hw.
    split; [|done]. intros _. split_and!; [done..|]. simpl.
    intros x [Hx|Hx%list_elem_of_singleton]%elem_of_app; [|by subst].
    apply Hok; [|done]. simpl. by intros ->; apply elem_of_nil in Hx. }
  intros Hok Hs. destruct Hs as [c w k r H|c b w a k r _ H|c s k ws H|c k ws H]; simpl.
  - by eapply Hwait.
  - by eapply Hwait.
  - unfold ThermalController.update, ThermalController.wake in H. case_decide; by simplify_eq.
  - unfold ThermalController.cancel, ThermalController.wake in H. by simplify_eq.
Qed.

(** In every reachable state the first upload worker is never held back, nobody waits
    in a monitor-only session, while the device is not hot, or after [cancel]; a call that
    runs when the device is not hot, or after [cancel], returns at once, with [false] exactly
    after [cancel]. *)
Lemma thermal_never_blocks_session policy c :
  rtc ThermalController.thermal_step
    {| ThermalController.controller := ThermalController.new policy;
       ThermalController.resolved := [] |} c →
  let k := ThermalController.controller c in
  ThermalController.waiters_ok k
  ∧ (∀ w, w <= 0 ∨ policy = monitor_only ∨ ThermalController.hot (ThermalController.state k) = false
           ∨ ThermalController.was_cancelled k = true →
         ThermalController.waitForUpload k w = (k, Some (negb (ThermalController.was_cancelled k))))
  ∧ ThermalController.waitForPreparation k = negb (ThermalController.was_cancelled k).
Proof.
  intros Hreach k.
  assert (ThermalController.waiters_ok k ∧ ThermalController.policy k = policy) as [Hok Hpol].
  { refine (rtc_invariant _ (λ c, ThermalController.waiters_ok (ThermalController.controller c)
      ∧ ThermalController.policy (ThermalController.controller c) = policy) _ _ _ Hreach _); [|done].
    intros s s' [Hs Hp] Hstep. apply thermal_step_ok in Hstep as [? ->]; done. }
  split_and!; [done| |done]. intros w Hw. unfold ThermalController.waitForUpload. rewrite Hpol.
  destruct policy; [done|].
  assert (negb (ThermalController.was_cancelled k) && ThermalController.hot (ThermalController.state k)
          && (0 <? w) = false) as ->; [|done].
  destruct Hw as [Hw|[?|[->| ->]]]; rewrite ?andb_false_r; [|done..].
  by rewrite (proj2 (Z.ltb_ge 0 w)), andb_false_r.
Qed.

Lemma thermal_never_blocks_session_witness :
  let k := {| ThermalController.state := critical; ThermalController.was_cancelled := false;
              ThermalController.waiters := [1]; ThermalController.policy := adaptive |} in
  ThermalController.waitForUpload k 0 = (k, Some true).
Proof.
  refine (proj1 (proj2 (thermal_never_blocks_session adaptive
    {| ThermalController.controller := _; ThermalController.resolved := [] |} _)) 0 _); [|left; lia].
  eapply rtc_l; [by eapply (ThermalController.thermal_update _ critical)|].
  eapply rtc_l; [by eapply (ThermalController.thermal_call _ 1)|]. apply rtc_refl.
Defined.
