(* ===== verification/Security.v ===== *)
(** * Environments and pairing payloads
    ([config/runtimeEnvironment.ts], [security/ConnectionSecurity.ts])

    [JSON.parse] is part of the platform: a payload is given as the value it returns,
    [None] when it throws. *)

From S2P Require Import Prelude Js.

(** ** [runtimeEnvironment.ts] *)

(* src: config/runtimeEnvironment.ts:1-1 [IosClientEnvironment] *)
Inductive IosClientEnvironment := production | test.

#[global] Instance IosClientEnvironment_eq_dec : EqDecision IosClientEnvironment.
Proof. solve_decision. Defined.

Definition environments : list (string * IosClientEnvironment) :=
  [("production", production); ("test", test)].
Definition environment_name (e : IosClientEnvironment) : string :=
  match e with production => "production" | test => "test" end.

(** [configured] is the build variable, when it is set. *)
(* src: config/runtimeEnvironment.ts:5-10 [configuredIosEnvironment] *)
Definition configuredIosEnvironment (configured : option string) : option IosClientEnvironment :=
  c ← configured; of_literal environments c.

(* src: config/runtimeEnvironment.ts:12-17 [iosClientEnvironment] *)
Definition iosClientEnvironment (configured : option string) (nativeAvailable : bool)
    : IosClientEnvironment :=
  if negb nativeAvailable then test else default production (configuredIosEnvironment configured).

(* src: config/runtimeEnvironment.ts:19-21 [discoveryPortForEnvironment] *)
Definition discoveryPortForEnvironment (e : IosClientEnvironment) : Z :=
  match e with test => 45893 | production => 45892 end.

(* src: config/runtimeEnvironment.ts:36-43 [environmentStorageKeyForProfile] *)
Definition environmentStorageKeyForProfile (key : string) (e : IosClientEnvironment)
    (nativeAvailable : bool) : string :=
  if bool_decide (e = production) && nativeAvailable then key
  else key +:+ "_" +:+ environment_name e +:+ "_"
       +:+ (if nativeAvailable then "installed" else "expo-go").

(* src: config/runtimeEnvironment.ts:23-34 [environmentStorageKey] *)
Definition environmentStorageKey (unitTest : bool) (configured : option string)
    (key : string) (nativeAvailable : bool) : string :=
  if unitTest then key else
  environmentStorageKeyForProfile key (iosClientEnvironment configured nativeAvailable) nativeAvailable.

(** ** [ConnectionSecurity.ts] *)

(* src: security/ConnectionSecurity.ts:1-11 [PairingPayload] *)
Record PairingPayload := {
  pp_environment : IosClientEnvironment;
  pp_serverId : string;
  pp_name : string;
  pp_httpsUrl : string;
  pp_certificateFingerprint : string;
  pp_token : string;
  pp_httpUrl : option string }.

(* src: security/ConnectionSecurity.ts:20-21 [normalizeFingerprint] *)
Definition normalizeFingerprint (value : string) : string := string_filter is_hex (toLowerCase value).

(* src: security/ConnectionSecurity.ts:27-29 [optionalString] *)
Definition optionalString (v : jsval) : option string := opt_nonempty v.

(** What the QR parser does: return a payload or [null], or throw the one error it
    rethrows. *)
(* src: security/ConnectionSecurity.ts:13-18 [UnsupportedPairingPayloadVersionError] *)
Inductive pairing_parse :=
  | Payload (p : PairingPayload)
  | NotAPayload
  | UnsupportedVersion (version : jsnumber).

(* src: security/ConnectionSecurity.ts:36-89 [parsePairingPayload] *)
Definition parsePairingPayload (json : option jsval) : pairing_parse :=
  match json with
  | None => NotAPayload
  | Some parsed =>
    if negb (is_object parsed) then NotAPayload else
    if negb (is_str (field parsed "type") "lmt-pair") then NotAPayload else
    let version := field parsed "version" in
    match opt_num version with
    | Some n => if num_is n 3 then
        let fingerprint := normalizeFingerprint
          (default "" (optionalString (field parsed "certificateFingerprint"))) in
        let name := default "Desktop" (optionalString (field parsed "name")) in
        let httpUrl := optionalString (field parsed "httpUrl") in
        match str_literal environments (field parsed "environment"),
              optionalString (field parsed "serverId"),
              optionalString (field parsed "httpsUrl"),
              optionalString (field parsed "token") with
        | Some environment, Some serverId, Some httpsUrl, Some token =>
          if startsWith httpsUrl "https://" && (string_length fingerprint =? 64)%nat
             && match httpUrl with Some u => startsWith u "http://" | None => true end
          then Payload {| pp_environment := environment; pp_serverId := serverId; pp_name := name;
                          pp_httpsUrl := httpsUrl; pp_certificateFingerprint := fingerprint;
                          pp_token := token; pp_httpUrl := httpUrl |}
          else NotAPayload
        | _, _, _, _ => NotAPayload
        end
      else UnsupportedVersion n
    | None => NotAPayload
    end
  end.

(** ** Properties *)

Lemma normalizeFingerprint_hex v : string_forallb is_hex (normalizeFingerprint v) = true.
Proof. apply string_filter_forallb. Qed.

Lemma normalizeFingerprint_idem v : normalizeFingerprint (normalizeFingerprint v) = normalizeFingerprint v.
Proof.
  pose proof (normalizeFingerprint_hex v) as H. unfold normalizeFingerprint at 1.
  rewrite toLowerCase_hex by done. by apply string_filter_id.
Qed.

Lemma of_literal_name s e : of_literal environments s = Some e → s = environment_name e.
Proof. simpl. repeat case_bool_decide; naive_solver. Qed.

(** A payload that can be used to connect securely. *)
Definition payload_ok (p : PairingPayload) : Prop :=
  is_hex64 (pp_certificateFingerprint p) = true
  ∧ startsWith (pp_httpsUrl p) "https://" = true
  ∧ pp_serverId p ≠ "" ∧ pp_token p ≠ "" ∧ pp_name p ≠ ""
  ∧ (∀ u, pp_httpUrl p = Some u → startsWith u "http://" = true).

Lemma optionalString_ne v s : optionalString v = Some s → s ≠ "".
Proof. unfold optionalString, opt_nonempty. destruct v; try done. case_match; [|done].
  intros; simplify_eq. by apply truthy_true. Qed.

(** The payload written as the object the desktop encodes in its QR code. *)
Definition payload_json (p : PairingPayload) : jsval :=
  JObj ([("type", JStr "lmt-pair"); ("version", JNum 3);
         ("environment", JStr (environment_name (pp_environment p)));
         ("serverId", JStr (pp_serverId p)); ("name", JStr (pp_name p));
         ("httpsUrl", JStr (pp_httpsUrl p));
         ("certificateFingerprint", JStr (pp_certificateFingerprint p));
         ("token", JStr (pp_token p))]
        ++ match pp_httpUrl p with Some u => [("httpUrl", JStr u)] | None => [] end).

Lemma optionalString_str s : s ≠ "" → optionalString (JStr s) = Some s.
Proof. intros Hs. simpl. by rewrite (proj2 (truthy_true s)). Qed.

(** A QR code is accepted only as a version-3 payload of a known environment that
    carries a full SHA-256 pin, an https address and a token; a number other than 3 as
    version is reported as such; everything else, including text that is not JSON, is no
    payload. *)
Lemma parsePairingPayload_sound json :
  match parsePairingPayload json with
  | Payload p => payload_ok p
      ∧ ∃ v, json = Some v ∧ field v "type" = JStr "lmt-pair" ∧ field v "version" = JNum 3
          ∧ field v "environment" = JStr (environment_name (pp_environment p))
          ∧ field v "token" = JStr (pp_token p) ∧ field v "httpsUrl" = JStr (pp_httpsUrl p)
  | UnsupportedVersion n =>
      n ≠ num_of_Z 3 ∧ ∃ v, json = Some v ∧ field v "type" = JStr "lmt-pair" ∧ field v "version" = JNum n
  | NotAPayload => True
  end.
Proof.
  unfold parsePairingPayload. destruct json as [v|]; [|done].
  destruct (is_object v) eqn:Hobj; simpl; [|done].
  destruct (is_str (field v "type") "lmt-pair") eqn:Htype; simpl; [|done].
  assert (field v "type" = JStr "lmt-pair") as Ht.
  { unfold is_str in Htype. destruct (field v "type"); try done. case_bool_decide; by subst. }
  destruct (field v "version") as [| | |n| | |] eqn:Hver; simpl; try done.
  unfold num_is. case_bool_decide as Hn; [subst n|by eauto].
  destruct (str_literal environments (field v "environment")) as [e|] eqn:He; [|done].
  destruct (optionalString (field v "serverId")) as [sid|] eqn:Hs; [|done].
  destruct (optionalString (field v "httpsUrl")) as [url|] eqn:Hu; [|done].
  destruct (optionalString (field v "token")) as [tok|] eqn:Hk; [|done].
  destruct (startsWith _ _ && _ && _) eqn:Hguard; [|done].
  apply andb_prop in Hguard as [[Hurl Hfp]%andb_prop Hhttp].
  assert (∀ name s, optionalString (field v name) = Some s → field v name = JStr s) as Hstr.
  { intros name s. unfold optionalString, opt_nonempty. destruct (field v name); try done.
    destruct (truthy _); intros; by simplify_eq. }
  split.
  - unfold payload_ok; simpl. split_and!; [|done|by eapply optionalString_ne|by eapply optionalString_ne| |].
    + unfold is_hex64. by rewrite Hfp, normalizeFingerprint_hex.
    + destruct (optionalString (field v "name")) eqn:Hname; simpl; [by eapply optionalString_ne|done].
    + intros u Hu'. by rewrite Hu' in Hhttp.
  - exists v. split_and!; [done..| |by apply Hstr|by apply Hstr]. simpl.
    unfold str_literal in He. destruct (field v "environment"); try done.
    by apply of_literal_name in He as ->.
Qed.

(** C37: round trip: the payload a desktop encodes is read back exactly. *)
Theorem parsePairingPayload_roundtrip p :
  payload_ok p → parsePairingPayload (Some (payload_json p)) = Payload p.
Proof.
  intros (Hfp & Hurl & Hsid & Htok & Hname & Hhttp). apply andb_prop in Hfp as [Hlen Hhex].
  destruct p as [e sid name url fp tok http]; simpl in *.
  assert (normalizeFingerprint fp = fp) as Hnorm.
  { unfold normalizeFingerprint. by rewrite toLowerCase_hex, string_filter_id. }
  assert (fp ≠ "") as Hne by (intros ->; done).
  assert (str_literal environments (JStr (environment_name e)) = Some e) as He by (by destruct e).
  set (p := Build_PairingPayload e sid name url fp tok http).
  set (v := payload_json p). change (parsePairingPayload (Some v) = Payload p).
  assert (field v "type" = JStr "lmt-pair" ∧ field v "version" = JNum 3
    ∧ field v "environment" = JStr (environment_name e) ∧ field v "serverId" = JStr sid
    ∧ field v "name" = JStr name ∧ field v "httpsUrl" = JStr url
    ∧ field v "certificateFingerprint" = JStr fp ∧ field v "token" = JStr tok
    ∧ field v "httpUrl" = match http with Some u => JStr u | None => JUndefined end)
    as (H1 & H2 & H3 & H4 & H5 & H6 & H7 & H8 & H9) by (by destruct http).
  assert (is_object v = true) as H0 by done. clearbody v.
  unfold parsePairingPayload. rewrite H0, H1, H2, H3, H4, H5, H6, H7, H8, H9, He,
    (optionalString_str sid), (optionalString_str name), (optionalString_str fp),
    (optionalString_str tok), (optionalString_str url) by (done || by intros ->).
  change (opt_num (JNum 3)) with (Some (num_of_Z 3)). cbv beta iota.
  assert (num_is 3 3 = true) as -> by done.
  cbn [default negb is_str id]. rewrite bool_decide_eq_true_2 by done. cbn [negb].
  rewrite Hurl, Hnorm, Hlen. destruct http as [u|]; [|done].
  assert (u ≠ "") by (intros ->; by specialize (Hhttp _ eq_refl)).
  rewrite optionalString_str by done. by rewrite (Hhttp u eq_refl).
Qed.

Definition sample_payload : PairingPayload :=
  {| pp_environment := test; pp_serverId := "s"; pp_name := "Desktop";
     pp_httpsUrl := "https://10.0.0.2:8443";
     pp_certificateFingerprint := "0123456789abcdef0123456789abcdef0123456789abcdef0123456789abcdef";
     pp_token := "t"; pp_httpUrl := Some "http://10.0.0.2:8080" |}.

Lemma parsePairingPayload_roundtrip_witness :
  payload_ok sample_payload ∧ parsePairingPayload (Some (payload_json sample_payload)) = Payload sample_payload.
Proof.
  assert (payload_ok sample_payload) as Hok.
  { unfold payload_ok. split_and!; try done. intros u Hu. simpl in Hu. by simplify_eq. }
  split; [exact Hok|]. exact (parsePairingPayload_roundtrip sample_payload Hok).
Defined.

(** Storage written for one environment and kind of app is never read by another: apart
    from production installs, which keep the historic names, the key names differ by
    their suffix. *)
Lemma environment_suffix e e' n n' :
  (if bool_decide (e = production) && n then "" else
     "_" +:+ environment_name e +:+ "_" +:+ (if n then "installed" else "expo-go")) =
  (if bool_decide (e' = production) && n' then "" else
     "_" +:+ environment_name e' +:+ "_" +:+ (if n' then "installed" else "expo-go")) →
  e = e' ∧ n = n'.
Proof. destruct e, e', n, n'; intros H; first [done|vm_compute in H; discriminate H]. Qed.

Lemma string_app_nil_r (s : string) : s +:+ "" = s.
Proof. induction s as [|c s IH]; [done|]. change (String c (s +:+ "") = String c s). by rewrite IH. Qed.

Lemma string_app_inv_head (s t u : string) : s +:+ t = s +:+ u → t = u.
Proof.
  induction s as [|c s IH]; [done|].
  change (String c (s +:+ t) = String c (s +:+ u) → t = u). intros H. injection H as H. auto.
Qed.

(** The storage keys of different environments or app kinds never collide, and a build
    without the native module never uses the production keys. *)
Lemma environmentStorageKey_isolated key c n c' n' :
  (environmentStorageKey false c key n = environmentStorageKey false c' key n' →
     iosClientEnvironment c n = iosClientEnvironment c' n' ∧ n = n')
  ∧ (environmentStorageKey false c key n = key →
     n = true ∧ iosClientEnvironment c n = production)
  ∧ (n = false → iosClientEnvironment c n = test ∧ discoveryPortForEnvironment (iosClientEnvironment c n) = 45893).
Proof.
  assert (∀ e k, environmentStorageKeyForProfile key e k = key +:+
    (if bool_decide (e = production) && k then "" else
     "_" +:+ environment_name e +:+ "_" +:+ (if k then "installed" else "expo-go"))) as Hkey.
  { intros e k. unfold environmentStorageKeyForProfile. case_match; [|done]. by rewrite string_app_nil_r. }
  unfold environmentStorageKey. split_and!.
  - rewrite !Hkey. intros H%string_app_inv_head. by apply environment_suffix in H.
  - rewrite Hkey. intros H. rewrite <-(string_app_nil_r key) in H at 2.
    apply string_app_inv_head in H.
    destruct (environment_suffix (iosClientEnvironment c n) production n true) as [-> ->]; done.
  - intros ->. done.
Qed.

Lemma environmentStorageKey_isolated_witness :
  environmentStorageKey false (Some "test") "k" true = "k_test_installed"
  ∧ (iosClientEnvironment None false = test
     ∧ discoveryPortForEnvironment (iosClientEnvironment None false) = 45893).
Proof.
  split; [reflexivity|].
  exact (proj2 (proj2 (environmentStorageKey_isolated "k" None false None false)) eq_refl).
Defined.
