(* ===== verification/Native.v ===== *)
(** * The native module boundary ([services/NativeCapabilities.ts], [services/nativeEvents.ts])

    Everything the native module returns is [unknown] until one of these parsers accepts it.
    The native module itself (Swift) is not modelled: its answers are the inputs. Result
    records are generic in the type of their numbers: the parsers produce [jsnumber], and
    components that add sizes up use [Z]. *)

From Stdlib Require Import QArith Qcanon.
From stdpp Require Import pretty.
From S2P Require Import Prelude Js UploadTypes Security.
Open Scope Z_scope.

(** ** Results *)

(* src: services/NativeCapabilities.ts:20-29 [DiscoveredServer] *)
Record DiscoveredServer := {
  ds_serverId : string;
  ds_name : string;
  ds_address : string;
  ds_httpsPort : Z;
  ds_certificateFingerprint : string;
  ds_httpPort : option Z;
  ds_approvalRequired : bool;
  ds_environment : IosClientEnvironment }.

(* src: services/NativeCapabilities.ts:31-58 [NativeUploadResult] *)
Inductive NativeUploadResult :=
  | UploadSuccess (bytesSent : jsnumber) (skipped : bool) (numericFields : list jsnumber)
      (transferFilename : string) (savedFilename : option string)
  | UploadFailed (errorCode : TransferErrorCode) (httpStatus : jsnumber) (bytesSent : jsnumber)
      (transferFilename : string).

(* src: services/NativeCapabilities.ts:70-82 [NativeFilenameResolution] *)
Inductive NativeFilenameResolution :=
  | FilenameResolved (assetId filename : string) (source : FilenameSource)
  | FilenameFailed (assetId : string) (errorCode : TransferErrorCode).

(* src: services/NativeCapabilities.ts:99-138 [NativePreparationResult] *)
Record NativeReady (N : Type) := {
  nr_fileRef : Z;
  nr_assetId : option string;
  nr_variantId : string;
  nr_mediaRole : MediaVariantRole;
  nr_componentSemantics : MediaComponentSemantics;
  nr_originalFilename : string;
  nr_localUri : string;
  nr_sizeBytes : N;
  nr_transferFilename : string;
  nr_contentType : option string;
  nr_temporary : bool;
  nr_materializationPath : MediaMaterializationPath;
  nr_materializationDurationMs : N;
  nr_temporaryBytesWritten : N }.

Record NativeFailed := {
  nf_fileRef : Z;
  nf_assetId : option string;
  nf_variantId : string;
  nf_mediaRole : MediaVariantRole;
  nf_componentSemantics : MediaComponentSemantics;
  nf_originalFilename : string;
  nf_stage : TransferStage;
  nf_errorCode : TransferErrorCode }.

Inductive NativePreparationResult (N : Type) :=
  | PreparationReady (r : NativeReady N)
  | PreparationFailed (f : NativeFailed).
Arguments PreparationReady {N}.
Arguments PreparationFailed {N}.
Arguments nr_fileRef {N}. Arguments nr_assetId {N}. Arguments nr_variantId {N}.
Arguments nr_mediaRole {N}. Arguments nr_componentSemantics {N}. Arguments nr_originalFilename {N}.
Arguments nr_localUri {N}. Arguments nr_sizeBytes {N}. Arguments nr_transferFilename {N}.
Arguments nr_contentType {N}. Arguments nr_temporary {N}. Arguments nr_materializationPath {N}.
Arguments nr_materializationDurationMs {N}. Arguments nr_temporaryBytesWritten {N}.

(* src: services/NativeCapabilities.ts:140-144 [NativeHashRequest] *)
Record NativeHashRequest := {
  hr_variantId : string;
  hr_localUri : string;
  hr_expectedSizeBytes : Z }.

(* src: services/NativeCapabilities.ts:146-162 [NativeHashResult] *)
Inductive NativeHashResult (N : Type) :=
  | HashSuccess (variantId sha256 : string) (bytesRead durationMs : N) (cacheHit : bool)
  | HashFailed (variantId : string) (errorCode : TransferErrorCode) (bytesRead durationMs : N).
Arguments HashSuccess {N}.
Arguments HashFailed {N}.

Definition hash_variantId {N} (r : NativeHashResult N) : string :=
  match r with HashSuccess v _ _ _ _ | HashFailed v _ _ _ => v end.

(* src: services/NativeCapabilities.ts:93-97 [NativeReleaseMetrics] *)
Record NativeReleaseMetrics := {
  rm_materializationPath : MediaMaterializationPath;
  rm_temporaryBytesWritten : jsnumber;
  rm_temporaryLifetimeMs : jsnumber }.

(** ** Tables of the literals the parsers allow *)

Definition filename_error_codes : list (string * TransferErrorCode) :=
  [("invalid-filename-request", invalid_filename_request); ("asset-not-found", asset_not_found);
   ("resource-not-found", resource_not_found)].

Definition filename_sources : list (string * FilenameSource) :=
  [("apple-resource", apple_resource); ("expo-fallback", expo_fallback)].

(* src: services/NativeCapabilities.ts:237-240 [materializationPaths] *)
Definition materializationPaths : list (string * MediaMaterializationPath) :=
  [("photo-resource", photo_resource); ("video-resource", video_resource);
   ("raw-resource", raw_resource); ("live-photo-motion", live_photo_motion_path);
   ("current-image", current_image); ("current-video", current_video);
   ("expo-direct", expo_direct)].

(* src: services/NativeCapabilities.ts:281-285 [stage] *)
Definition preparation_stages : list (string * TransferStage) :=
  [("rendition", stage_rendition); ("metadata", stage_metadata); ("filename", stage_filename)].

(* src: services/NativeCapabilities.ts:286-298 [allowedCodes] *)
Definition allowedCodes : list (string * TransferErrorCode) :=
  [("invalid-filename-request", invalid_filename_request); ("asset-not-found", asset_not_found);
   ("resource-not-found", resource_not_found); ("asset-info-unavailable", asset_info_unavailable);
   ("file-missing", file_missing); ("file-empty", file_empty);
   ("file-size-unavailable", file_size_unavailable);
   ("temporary-storage-limit", temporary_storage_limit);
   ("invalid-prepared-file", invalid_prepared_file);
   ("icloud-resource-unavailable", icloud_resource_unavailable); ("cancelled", cancelled)].

(* src: services/NativeCapabilities.ts:346-348 [allowedErrors] *)
Definition allowedErrors : list (string * TransferErrorCode) :=
  [("prepared-file-not-owned", prepared_file_not_owned); ("file-changed", file_changed);
   ("file-read-failed", file_read_failed); ("cancelled", cancelled)].

Definition upload_error_codes : list (string * TransferErrorCode) :=
  [("unauthorized", unauthorized); ("server-rejected", server_rejected)].

(** ** Parsers *)

(* src: services/NativeCapabilities.ts:196-214 [parseFilenameResolution] *)
Definition parseFilenameResolution (value : jsval) : option NativeFilenameResolution :=
  if negb (is_object value) then None else
  assetId ← opt_nonempty (field value "assetId");
  if is_str (field value "status") "failed" then
    errorCode ← str_literal filename_error_codes (field value "errorCode");
    Some (FilenameFailed assetId errorCode)
  else
    if negb (is_str (field value "status") "resolved") then None else
    filename ← opt_nonempty (field value "filename");
    source ← str_literal filename_sources (field value "source");
    Some (FilenameResolved assetId filename source).

(* src: services/NativeCapabilities.ts:219-222 [parseNativePreparationResult] *)
Definition parse_fileRef (v : jsval) : option Z :=
  n ← opt_num v; z ← integer_value n; if z <=? 0 then None else Some z.

(* src: services/NativeCapabilities.ts:216-318 [parseNativePreparationResult] *)
Definition parseNativePreparationResult (value : jsval) : option (NativePreparationResult jsnumber) :=
  if negb (is_object value) then None else
  fileRef ← parse_fileRef (field value "fileRef");
  let assetId := opt_nonempty (field value "assetId") in
  let variantId := default ("prepared-" +:+ pretty fileRef) (opt_nonempty (field value "variantId")) in
  let mediaRole := default unknown_role (str_literal MEDIA_VARIANT_ROLES (field value "mediaRole")) in
  let originalFilename := str_or (field value "originalFilename") "" in
  let componentSemantics :=
    if is_str (field value "componentSemantics") "optional" then optional else primary in
  if is_str (field value "status") "ready" then
    let localUri := str_or (field value "localUri") "" in
    let sizeBytes := default (num_of_Z 0) (opt_num (field value "sizeBytes")) in
    let transferFilename := str_or (field value "transferFilename") "" in
    if negb (truthy localUri) || num_le sizeBytes 0 || negb (truthy transferFilename) then None else
    Some (PreparationReady
      {| nr_fileRef := fileRef;
         nr_assetId := assetId;
         nr_variantId := variantId;
         nr_mediaRole := mediaRole;
         nr_componentSemantics := componentSemantics;
         nr_originalFilename := js_or originalFilename transferFilename;
         nr_localUri := localUri;
         nr_sizeBytes := sizeBytes;
         nr_transferFilename := transferFilename;
         nr_contentType := opt_str (field value "contentType");
         nr_temporary := is_true (field value "temporary");
         nr_materializationPath :=
           default photo_resource (str_literal materializationPaths (field value "materializationPath"));
         nr_materializationDurationMs :=
           num_or nonneg_finite (field value "materializationDurationMs") 0;
         nr_temporaryBytesWritten :=
           num_or nonneg_finite (field value "temporaryBytesWritten") 0 |})
  else
    if negb (is_str (field value "status") "failed") then None else
    stage ← str_literal preparation_stages (field value "stage");
    errorCode ← str_literal allowedCodes (field value "errorCode");
    Some (PreparationFailed
      {| nf_fileRef := fileRef;
         nf_assetId := assetId;
         nf_variantId := variantId;
         nf_mediaRole := mediaRole;
         nf_componentSemantics := componentSemantics;
         nf_originalFilename := originalFilename;
         nf_stage := stage;
         nf_errorCode := errorCode |}).

(* src: services/NativeCapabilities.ts:320-355 [parseNativeHashResult] *)
Definition parseNativeHashResult (value : jsval) : option (NativeHashResult jsnumber) :=
  if negb (is_object value) then None else
  variantId ← opt_nonempty (field value "variantId");
  let bytesRead := num_or nonneg_finite (field value "bytesRead") 0 in
  let durationMs := num_or nonneg_finite (field value "durationMs") 0 in
  if is_str (field value "status") "success" then
    let sha256 := toLowerCase (str_or (field value "sha256") "") in
    if is_hex64 sha256
    then Some (HashSuccess variantId sha256 bytesRead durationMs (is_true (field value "cacheHit")))
    else None
  else
    if negb (is_str (field value "status") "failed") then None else
    errorCode ← str_literal allowedErrors (field value "errorCode");
    Some (HashFailed variantId errorCode bytesRead durationMs).

(* src: services/NativeCapabilities.ts:357-361 [parseThermalState] *)
Definition parseThermalState (value : jsval) : ThermalState :=
  default nominal
    (str_literal [("fair", fair); ("serious", serious); ("critical", critical)] value).

(* src: services/NativeCapabilities.ts:394-404 [numericFields] *)
Definition numericFields : list string :=
  ["chunkCount"; "chunkSizeBytes"; "fileReadDurationMs"; "httpRequestDurationMs";
   "interChunkGapDurationMs"; "retryCount"; "peakResidentMemoryBytes";
   "serverWriteDurationMs"; "serverFinalizeDurationMs"].

(** [inl] is the message of the error thrown. *)
(* src: services/NativeCapabilities.ts:363-430 [parseNativeUploadResult] *)
Definition parseNativeUploadResult (value : jsval) : string + NativeUploadResult :=
  if negb (is_object value) then inl "Native upload returned an invalid result" else
  let bytesSent := num_or (λ n, num_ge n 0) (field value "bytesSent") 0 in
  let transferFilename := str_or (field value "transferFilename") "" in
  if is_str (field value "status") "failed" then
    let httpStatus := default (num_of_Z 0) (opt_num (field value "httpStatus")) in
    match str_literal upload_error_codes (field value "errorCode") with
    | Some errorCode =>
      if negb (truthy transferFilename) then inl "Native upload returned an invalid failure"
      else inr (UploadFailed errorCode httpStatus bytesSent transferFilename)
    | None => inl "Native upload returned an invalid failure"
    end
  else
    match is_str (field value "status") "success", truthy transferFilename,
          mapM (λ name, opt_num (field value name)) numericFields with
    | true, true, Some numbers =>
      inr (UploadSuccess bytesSent (is_true (field value "skipped")) numbers transferFilename
             (opt_nonempty (field value "savedFilename")))
    | _, _, _ => inl "Native upload returned an invalid success result"
    end.

(* src: services/NativeCapabilities.ts:432-436 [validPort] *)
Definition validPort (v : jsval) : option Z :=
  n ← opt_num v; z ← integer_value n;
  if (0 <? z) && (z <=? 65535) then Some z else None.

(* src: services/NativeCapabilities.ts:438-465 [parseDiscoveredServer] *)
Definition parseDiscoveredServer (value : jsval) : option DiscoveredServer :=
  if negb (is_object value) then None else
  let fingerprint := normalizeFingerprint (str_or (field value "certificateFingerprint") "") in
  serverId ← opt_nonempty (field value "serverId");
  address ← opt_nonempty (field value "address");
  httpsPort ← validPort (field value "httpsPort");
  environment ← str_literal environments (field value "environment");
  if negb (string_length fingerprint =? 64)%nat then None else
  Some {| ds_serverId := serverId;
          ds_name := default "Desktop" (opt_nonempty (field value "name"));
          ds_address := address;
          ds_httpsPort := httpsPort;
          ds_certificateFingerprint := fingerprint;
          ds_httpPort := validPort (field value "httpPort");
          ds_approvalRequired := is_true (field value "approvalRequired");
          ds_environment := environment |}.

(** ** [nativeEvents.ts] *)

(* src: services/nativeEvents.ts:4-6 [nativeEventRecord] *)
Definition nativeEventRecord (value : jsval) : jsval :=
  if is_object value then value else JObj [].

(* src: services/nativeEvents.ts:1-13 [parseNativeProgressEvent] *)
Definition parseNativeProgressEvent (value : jsval) : option (string * jsnumber * jsnumber) :=
  let event := nativeEventRecord value in
  fileId ← opt_str (field event "fileId");
  bytesSent ← opt_num (field event "bytesSent");
  totalBytes ← opt_num (field event "totalBytes");
  if negb (isFinite bytesSent) || negb (isFinite totalBytes) || num_lt bytesSent 0
     || num_lt totalBytes 0 then None
  else Some (fileId, bytesSent, totalBytes).

(** ** The wrappers of [nativeCapabilities]

    [answer] is what the native module's method resolved to. *)

(* src: services/NativeCapabilities.ts:499-511 [discover] *)
Definition discover (configured : option string) (answer : option (list jsval)) : list DiscoveredServer :=
  match answer with
  | None => []
  | Some rawServers =>
    base.filter (λ s, ds_environment s = iosClientEnvironment configured true)
      (omap parseDiscoveredServer rawServers)
  end.

(* src: services/NativeCapabilities.ts:541-556 [resolveAssetFilenames] *)
Definition resolveAssetFilenames (requests : list (string * string)) (answer : option (list jsval))
    : list NativeFilenameResolution :=
  match answer with
  | None => (λ r, FilenameResolved r.1 r.2 expo_fallback) <$> requests
  | Some rawResults => omap parseFilenameResolution rawResults
  end.

(* src: services/NativeCapabilities.ts:557-588 [prepareAssetWindow] *)
Definition prepareAssetWindow (rawResults : list jsval) : list (NativePreparationResult jsnumber) :=
  omap parseNativePreparationResult rawResults.

(** The progress events of another session, or without numbers, are dropped. *)
(* src: services/NativeCapabilities.ts:566-579 [prepareAssetWindow] *)
Definition preparationProgress (sessionRef : string) (value : jsval) : option (jsnumber * jsnumber) :=
  let event := nativeEventRecord value in
  if negb (is_str (field event "sessionRef") sessionRef) then None else
  completed ← opt_num (field event "completedAssets");
  total ← opt_num (field event "totalAssets");
  Some (completed, total).

(* src: services/NativeCapabilities.ts:589-600 [hashPreparedFiles] *)
Definition hashPreparedFiles (rawResults : list jsval) : list (NativeHashResult jsnumber) :=
  omap parseNativeHashResult rawResults.

(* src: services/NativeCapabilities.ts:601-625 [releasePreparedFile] *)
Definition releasePreparedFile (raw : jsval) : option NativeReleaseMetrics :=
  if negb (is_object raw) then None else
  path ← str_literal materializationPaths (field raw "materializationPath");
  Some {| rm_materializationPath := path;
          rm_temporaryBytesWritten := num_or nonneg_finite (field raw "temporaryBytesWritten") 0;
          rm_temporaryLifetimeMs := num_or nonneg_finite (field raw "temporaryLifetimeMs") 0 |}.

(** [/^[A-Za-z0-9+/]+={0,2}$/], read from the left. *)
Definition is_base64_char (c : Ascii.ascii) : bool :=
  let n := Ascii.nat_of_ascii c in
  (65 <=? n)%nat && (n <=? 90)%nat || (97 <=? n)%nat && (n <=? 122)%nat
  || (48 <=? n)%nat && (n <=? 57)%nat || (n =? 43)%nat || (n =? 47)%nat.
Fixpoint base64_tail (s : string) : bool :=
  match s with
  | EmptyString | "="%string | "=="%string => true
  | String c s => is_base64_char c && base64_tail s
  end.
Definition is_base64 (s : string) : bool :=
  match s with String c s => is_base64_char c && base64_tail s | EmptyString => false end.

(* src: services/NativeCapabilities.ts:486-498 [historyThumbnails] *)
Definition historyThumbnails (assetIds : list string) (answer : option jsval)
    : list (string * string) :=
  let ids := take 20 assetIds in
  match answer with
  | Some (JArr raw) =>
    take 20 (omap (λ value,
      match opt_str (field value "assetId"), opt_str (field value "jpegBase64") with
      | Some assetId, Some jpegBase64 =>
        if bool_decide (assetId ∈ ids) && (Z.of_nat (string_length jpegBase64) <=? 32000)
           && is_base64 jpegBase64
        then Some (assetId, jpegBase64) else None
      | _, _ => None
      end) raw)
  | _ => []
  end.

(** ** What an accepted answer guarantees *)

Definition finite_nonneg_number (n : jsnumber) : Prop := isFinite n = true ∧ num_ge n 0 = true.

Definition native_ready_ok (r : NativeReady jsnumber) : Prop :=
  0 < nr_fileRef r
  ∧ nr_localUri r ≠ "" ∧ nr_transferFilename r ≠ "" ∧ nr_originalFilename r ≠ "" ∧ nr_variantId r ≠ ""
  ∧ num_le (nr_sizeBytes r) 0 = false
  ∧ nr_assetId r ≠ Some ""
  ∧ finite_nonneg_number (nr_materializationDurationMs r)
  ∧ finite_nonneg_number (nr_temporaryBytesWritten r).

Definition native_failed_ok (f : NativeFailed) : Prop :=
  0 < nf_fileRef f ∧ nf_variantId f ≠ "" ∧ nf_assetId f ≠ Some ""
  ∧ nf_stage f ∈ (snd <$> preparation_stages) ∧ nf_errorCode f ∈ (snd <$> allowedCodes).

Lemma opt_nonempty_ne v s : opt_nonempty v = Some s → s ≠ "".
Proof. destruct v; simpl; try done. case_match; [|done]. intros; simplify_eq. by apply truthy_true. Qed.

Lemma of_literal_elem {A} (table : list (string * A)) s x :
  of_literal table s = Some x → x ∈ (snd <$> table).
Proof.
  induction table as [|[k v] table IH]; simpl; [done|]. case_bool_decide; [|auto using list_elem_of_further].
  intros; simplify_eq. by left.
Qed.

Lemma str_literal_elem {A} (table : list (string * A)) v x :
  str_literal table v = Some x → x ∈ (snd <$> table).
Proof. destruct v; try done. apply of_literal_elem. Qed.

Lemma pretty_variant_ne (z : Z) : "prepared-" +:+ pretty z ≠ "".
Proof. done. Qed.

Lemma parse_fileRef_pos v z : parse_fileRef v = Some z → 0 < z.
Proof.
  unfold parse_fileRef. destruct (opt_num v) as [n|]; simpl; [|done].
  destruct (integer_value n) as [k|]; simpl; [|done]. destruct (Z.leb_spec k 0); intros; simplify_eq; lia.
Qed.

Lemma variantId_ne (fileRef : Z) v : default ("prepared-" +:+ pretty fileRef) (opt_nonempty v) ≠ "".
Proof. destruct (opt_nonempty v) eqn:E; simpl; [by eapply opt_nonempty_ne|done]. Qed.

Lemma num_or_ok v : finite_nonneg_number (num_or nonneg_finite v 0).
Proof. by apply num_or_nonneg with v. Qed.

#[local] Hint Resolve variantId_ne num_or_ok parse_fileRef_pos str_literal_elem : core.

Lemma parseNativePreparationResult_ok value r :
  parseNativePreparationResult value = Some r →
  match r with PreparationReady r => native_ready_ok r | PreparationFailed f => native_failed_ok f end.
Proof.
  unfold parseNativePreparationResult. destruct (is_object value); simpl; [|done].
  destruct (parse_fileRef _) as [fr|] eqn:Href; simpl; [|done].
  destruct (is_str (field value "status") "ready").
  - destruct (truthy _) eqn:Huri; simpl; [|done].
    destruct (num_le _ 0) eqn:Hsize; simpl; [done|].
    destruct (truthy (str_or (field value "transferFilename") "")) eqn:Hname; simpl; [|done].
    intros; simplify_eq. unfold native_ready_ok; simpl. apply truthy_true in Huri, Hname.
    split_and!; eauto.
    + unfold js_or. destruct (truthy (str_or (field value "originalFilename") "")) eqn:E; [|done].
      by apply truthy_true.
    + intros H. by apply opt_nonempty_ne in H.
  - destruct (is_str _ _); simpl; [|done]. intros H.
    destruct (str_literal preparation_stages _) eqn:Hs; simpl in H; [|done].
    destruct (str_literal allowedCodes _) eqn:Hc; simplify_eq/=.
    split_and!; cbn -[fmap list_fmap]; [eauto|eauto| |by eapply str_literal_elem..].
    intros H. by apply opt_nonempty_ne in H.
Qed.

(** A ready component written as the native module reports it. *)
Definition path_name (p : MediaMaterializationPath) : string :=
  match p with
  | photo_resource => "photo-resource" | video_resource => "video-resource"
  | raw_resource => "raw-resource" | live_photo_motion_path => "live-photo-motion"
  | current_image => "current-image" | current_video => "current-video"
  | expo_direct => "expo-direct"
  end.
Definition role_name (r : MediaVariantRole) : string :=
  match r with
  | original_photo => "original-photo" | original_video => "original-video"
  | raw_original => "raw-original" | jpeg_companion => "jpeg-companion"
  | live_photo_still => "live-photo-still" | live_photo_motion => "live-photo-motion"
  | edited_photo => "edited-photo" | edited_video => "edited-video"
  | edited_live_photo_still => "edited-live-photo-still"
  | expo_fallback_role => "expo-fallback" | unknown_role => "unknown"
  end.

Definition ready_json (r : NativeReady jsnumber) : jsval :=
  JObj
    [("status", JStr "ready"); ("fileRef", JNum (nr_fileRef r));
     ("assetId", match nr_assetId r with Some a => JStr a | None => JUndefined end);
     ("variantId", JStr (nr_variantId r)); ("mediaRole", JStr (role_name (nr_mediaRole r)));
     ("componentSemantics",
       JStr (match nr_componentSemantics r with primary => "primary" | optional => "optional" end));
     ("originalFilename", JStr (nr_originalFilename r)); ("localUri", JStr (nr_localUri r));
     ("sizeBytes", JNum (nr_sizeBytes r)); ("transferFilename", JStr (nr_transferFilename r));
     ("contentType", match nr_contentType r with Some a => JStr a | None => JUndefined end);
     ("temporary", JBool (nr_temporary r));
     ("materializationPath", JStr (path_name (nr_materializationPath r)));
     ("materializationDurationMs", JNum (nr_materializationDurationMs r));
     ("temporaryBytesWritten", JNum (nr_temporaryBytesWritten r))].

Lemma opt_nonempty_str s : s ≠ "" → opt_nonempty (JStr s) = Some s.
Proof. intros. simpl. by rewrite (proj2 (truthy_true s)). Qed.

Lemma opt_nonempty_opt (a : option string) :
  a ≠ Some "" → opt_nonempty (match a with Some a => JStr a | None => JUndefined end) = a.
Proof. destruct a; intros H; [|done]. apply opt_nonempty_str. congruence. Qed.

Lemma num_or_id n : finite_nonneg_number n → num_or nonneg_finite (JNum n) 0 = n.
Proof. intros [H1 H2]. simpl. unfold nonneg_finite. by rewrite H1, H2. Qed.

Lemma parse_fileRef_id z : 0 < z → parse_fileRef (JNum z) = Some z.
Proof. intros Hz. unfold parse_fileRef, opt_num. cbn [mbind option_bind]. rewrite integer_value_Z. cbn [mbind option_bind].
  destruct (Z.leb_spec z 0); [lia|done]. Qed.

Lemma ready_json_roundtrip r :
  native_ready_ok r → parseNativePreparationResult (ready_json r) = Some (PreparationReady r).
Proof.
  intros (Href & Huri & Hname & Horig & Hvar & Hsize & Hasset & Hdur & Htmp).
  destruct r as [ref asset var role sem orig uri size name ct tmp path dur written]; simpl in *.
  set (r := Build_NativeReady _ ref asset var role sem orig uri size name ct tmp path dur written).
  set (v := ready_json r). change (parseNativePreparationResult v = Some (PreparationReady r)).
  assert (is_object v = true ∧ field v "status" = JStr "ready" ∧ field v "fileRef" = JNum ref
    ∧ opt_nonempty (field v "assetId") = asset ∧ field v "variantId" = JStr var
    ∧ str_literal MEDIA_VARIANT_ROLES (field v "mediaRole") = Some role
    ∧ (if is_str (field v "componentSemantics") "optional" then optional else primary) = sem
    ∧ field v "originalFilename" = JStr orig ∧ field v "localUri" = JStr uri
    ∧ field v "sizeBytes" = JNum size ∧ field v "transferFilename" = JStr name
    ∧ opt_str (field v "contentType") = ct ∧ is_true (field v "temporary") = tmp
    ∧ str_literal materializationPaths (field v "materializationPath") = Some path
    ∧ field v "materializationDurationMs" = JNum dur
    ∧ field v "temporaryBytesWritten" = JNum written)
    as (H0 & H1 & H2 & H3 & H4 & H5 & H6 & H7 & H8 & H9 & H10 & H11 & H12 & H13 & H14 & H15).
  { assert (field v "assetId" = match asset with Some a => JStr a | None => JUndefined end) as ->
      by (by destruct asset, ct).
    split_and!; try (by destruct asset, ct); [by apply opt_nonempty_opt|by destruct asset, ct, role
      |by destruct asset, ct, sem|by destruct asset, ct, path]. }
  clearbody v. unfold parseNativePreparationResult.
  rewrite H0, H1, H2, H3, H4, H5, H6, H7, H8, H9, H10, H11, H12, H13, H14, H15.
  rewrite parse_fileRef_id, (opt_nonempty_str var), !num_or_id by done. cbn.
  rewrite (proj2 (truthy_true uri) Huri), (proj2 (truthy_true name) Hname), Hsize. cbn.
  unfold js_or. by rewrite (proj2 (truthy_true orig) Horig).
Qed.

(** A hash the duplicate check may rely on. *)
Definition hash_result_ok (r : NativeHashResult jsnumber) : Prop :=
  hash_variantId r ≠ "" ∧
  match r with
  | HashSuccess _ sha256 bytes ms _ =>
      is_hex64 sha256 = true ∧ finite_nonneg_number bytes ∧ finite_nonneg_number ms
  | HashFailed _ code bytes ms =>
      code ∈ (snd <$> allowedErrors) ∧ finite_nonneg_number bytes ∧ finite_nonneg_number ms
  end.

Lemma parseNativeHashResult_ok value r : parseNativeHashResult value = Some r → hash_result_ok r.
Proof.
  unfold parseNativeHashResult. destruct (is_object value); simpl; [|done].
  destruct (opt_nonempty _) eqn:Hid; simpl; [|done]. apply opt_nonempty_ne in Hid.
  destruct (is_str (field value "status") "success").
  - destruct (is_hex64 _) eqn:Hhex; intros; simplify_eq. by split_and!; eauto.
  - destruct (is_str _ _); simpl; [|done].
    destruct (str_literal allowedErrors _) eqn:Hc; simpl; intros; simplify_eq.
    split_and!; eauto.
Qed.

(** The same hash result written as the native module reports it. *)
Definition hash_error_name (c : TransferErrorCode) : string :=
  match c with
  | prepared_file_not_owned => "prepared-file-not-owned" | file_changed => "file-changed"
  | file_read_failed => "file-read-failed" | _ => "cancelled"
  end.
Definition hash_json (r : NativeHashResult jsnumber) : jsval :=
  match r with
  | HashSuccess v sha bytes ms hit =>
    JObj [("status", JStr "success"); ("variantId", JStr v); ("sha256", JStr sha);
          ("bytesRead", JNum bytes); ("durationMs", JNum ms); ("cacheHit", JBool hit)]
  | HashFailed v code bytes ms =>
    JObj [("status", JStr "failed"); ("variantId", JStr v); ("errorCode", JStr (hash_error_name code));
          ("bytesRead", JNum bytes); ("durationMs", JNum ms)]
  end.

Lemma hash_json_roundtrip r : hash_result_ok r → parseNativeHashResult (hash_json r) = Some r.
Proof.
  intros [Hid Hr]. destruct r as [v sha bytes ms hit|v code bytes ms]; simpl in Hid.
  - destruct Hr as (Hhex & Hb & Hm). set (o := hash_json _).
    assert (is_object o = true ∧ field o "variantId" = JStr v ∧ field o "status" = JStr "success"
      ∧ field o "sha256" = JStr sha ∧ field o "bytesRead" = JNum bytes ∧ field o "durationMs" = JNum ms
      ∧ field o "cacheHit" = JBool hit) as (H0 & H1 & H2 & H3 & H4 & H5 & H6) by done.
    clearbody o. unfold parseNativeHashResult. rewrite H0, H1, H2, H3, H4, H5, H6, opt_nonempty_str by done.
    cbn [negb mbind option_bind str_or is_str]. rewrite bool_decide_eq_true_2 by done.
    assert (toLowerCase sha = sha) as ->.
    { apply andb_prop in Hhex as [_ Hhex]. by apply toLowerCase_hex. }
    by rewrite Hhex, !num_or_id.
  - destruct Hr as (Hc & Hb & Hm). set (o := hash_json _).
    assert (is_object o = true ∧ field o "variantId" = JStr v ∧ field o "status" = JStr "failed"
      ∧ field o "errorCode" = JStr (hash_error_name code)
      ∧ field o "bytesRead" = JNum bytes ∧ field o "durationMs" = JNum ms)
      as (H0 & H1 & H2 & H3 & H4 & H5) by done.
    assert (str_literal allowedErrors (JStr (hash_error_name code)) = Some code) as Hcode.
    { simpl in Hc. repeat (apply elem_of_cons in Hc as [->|Hc]; [done|]). by apply elem_of_nil in Hc. }
    clearbody o. unfold parseNativeHashResult.
    rewrite H0, H1, H2, H3, H4, H5, opt_nonempty_str, Hcode, !num_or_id by done. done.
Qed.

(** Nothing unchecked enters the upload pipeline: an accepted component has a positive
    reference, a file, a name, an identifier and non-negative measurements, an accepted
    failure one of the documented stages and codes; and every well-formed component the
    native module reports is read back exactly. *)
Lemma parseNativePreparationResult_correct :
  (∀ rawResults r, r ∈ prepareAssetWindow rawResults →
     match r with PreparationReady r => native_ready_ok r | PreparationFailed f => native_failed_ok f end)
  ∧ (∀ rs, (∀ r, r ∈ rs → native_ready_ok r) →
       prepareAssetWindow (ready_json <$> rs) = PreparationReady <$> rs).
Proof.
  split.
  - intros raw r (v & _ & Hv)%list_elem_of_omap. by apply parseNativePreparationResult_ok in Hv.
  - intros rs Hrs. unfold prepareAssetWindow. induction rs as [|r rs IH]; [done|]. simpl.
    rewrite ready_json_roundtrip by (apply Hrs; left). f_equal. apply IH. intros. apply Hrs. by right.
Qed.

Definition sample_ready : NativeReady jsnumber :=
  {| nr_fileRef := 1; nr_assetId := Some "a"; nr_variantId := "v"; nr_mediaRole := raw_original;
     nr_componentSemantics := optional; nr_originalFilename := "IMG.DNG"; nr_localUri := "file:///x";
     nr_sizeBytes := num_of_Z 10; nr_transferFilename := "IMG.DNG"; nr_contentType := None;
     nr_temporary := true; nr_materializationPath := raw_resource;
     nr_materializationDurationMs := num_of_Z 3;
     nr_temporaryBytesWritten := num_of_Z 10 |}.

Lemma sample_ready_ok : native_ready_ok sample_ready.
Proof. unfold native_ready_ok; simpl. split_and!; done. Defined.

Lemma parseNativePreparationResult_correct_witness :
  prepareAssetWindow [ready_json sample_ready; JNull] = [PreparationReady sample_ready]
  ∧ prepareAssetWindow (ready_json <$> [sample_ready]) = PreparationReady <$> [sample_ready].
Proof.
  split; [by vm_compute|]. apply (proj2 parseNativePreparationResult_correct).
  intros r ->%list_elem_of_singleton. exact sample_ready_ok.
Defined.

(** Every hash the duplicate check receives is a full lower-case SHA-256 of an identified
    component, every failure one of the documented codes; malformed answers are dropped
    without affecting the others, and well-formed ones are read back exactly. *)
Lemma hashPreparedFiles_correct :
  (∀ rawResults r, r ∈ hashPreparedFiles rawResults → hash_result_ok r)
  ∧ (∀ raw1 raw2, hashPreparedFiles (raw1 ++ raw2) = hashPreparedFiles raw1 ++ hashPreparedFiles raw2)
  ∧ (∀ rs, (∀ r, r ∈ rs → hash_result_ok r) → hashPreparedFiles (hash_json <$> rs) = rs).
Proof.
  split_and!.
  - intros raw r (v & _ & Hv)%list_elem_of_omap. by eapply parseNativeHashResult_ok.
  - intros. apply omap_app.
  - intros rs Hrs. unfold hashPreparedFiles. induction rs as [|r rs IH]; [done|]. simpl.
    rewrite hash_json_roundtrip by (apply Hrs; left). f_equal. apply IH. intros. apply Hrs. by right.
Qed.

Definition sample_sha : string := "0123456789abcdef0123456789abcdef0123456789abcdef0123456789abcdef".

Definition sample_hash : NativeHashResult jsnumber :=
  HashSuccess "v" sample_sha (num_of_Z 10) (num_of_Z 2) true.

Lemma hashPreparedFiles_correct_witness :
  hashPreparedFiles (hash_json <$> [sample_hash]) = [sample_hash].
Proof.
  apply (proj2 (proj2 hashPreparedFiles_correct)). intros r ->%list_elem_of_singleton.
  unfold hash_result_ok; simpl. split_and!; done.
Defined.

(** A server found on the network is offered only when it belongs to the app's own
    environment and carries what pinned HTTPS needs: an identity, an address, valid ports
    and a full certificate fingerprint. *)
Lemma discover_sound configured answer s :
  s ∈ discover configured answer →
  ds_environment s = iosClientEnvironment configured true
  ∧ is_hex64 (ds_certificateFingerprint s) = true
  ∧ 0 < ds_httpsPort s <= 65535 ∧ (∀ p, ds_httpPort s = Some p → 0 < p <= 65535)
  ∧ ds_serverId s ≠ "" ∧ ds_address s ≠ "" ∧ ds_name s ≠ "".
Proof.
  assert (∀ v p, validPort v = Some p → 0 < p <= 65535) as Hport.
  { intros v p. unfold validPort. destruct (opt_num v); simpl; [|done].
    destruct (integer_value _) as [z|]; simpl; [|done].
    destruct ((0 <? z) && (z <=? 65535)) eqn:E; [|done]. intros; simplify_eq.
    apply andb_prop in E as [?%Z.ltb_lt ?%Z.leb_le]. lia. }
  destruct answer as [raw|]; simpl; [|by intros ?%elem_of_nil].
  intros [Henv (v & _ & Hv)%list_elem_of_omap]%list_elem_of_filter. split; [done|].
  unfold parseDiscoveredServer in Hv. destruct (is_object v); simpl in Hv; [|done].
  destruct (opt_nonempty (field v "serverId")) eqn:H1; simpl in Hv; [|done].
  destruct (opt_nonempty (field v "address")) eqn:H2; simpl in Hv; [|done].
  destruct (validPort (field v "httpsPort")) eqn:H3; simpl in Hv; [|done].
  destruct (str_literal _ _) eqn:H4; simpl in Hv; [|done].
  destruct (string_length _ =? 64)%nat eqn:H5; simpl in Hv; simplify_eq. simpl.
  unfold is_hex64. rewrite H5, normalizeFingerprint_hex. split_and!; try done.
  1,2: apply Hport in H3; lia.
  - intros p Hp. by apply Hport in Hp.
  - by eapply opt_nonempty_ne.
  - by eapply opt_nonempty_ne.
  - destruct (opt_nonempty (field v "name")) eqn:H6; simpl; [by eapply opt_nonempty_ne|done].
Qed.

Definition sample_server : jsval :=
  JObj [("serverId", JStr "id"); ("address", JStr "10.0.0.2"); ("httpsPort", JNum 8443);
        ("certificateFingerprint", JStr sample_sha); ("environment", JStr "production")].

Lemma discover_sound_witness :
  ∃ s, discover None (Some [sample_server; JObj []]) = [s] ∧ ds_environment s = production.
Proof.
  eexists. split; [by vm_compute|].
  refine (proj1 (discover_sound None (Some [sample_server; JObj []]) _ _)). vm_compute. left.
Defined.

(** Unlike every other number of these answers, [sizeBytes] is not checked to be finite:
    [NaN <= 0] is false, so a component of size [NaN] is accepted. *)
Example parseNativePreparationResult_accepts_NaN :
  ∃ r, parseNativePreparationResult
    (JObj [("status", JStr "ready"); ("fileRef", JNum 1); ("localUri", JStr "u");
           ("transferFilename", JStr "f"); ("sizeBytes", JNum NaN)]) = Some (PreparationReady r)
  ∧ nr_sizeBytes r = NaN.
Proof. eexists. split; [by vm_compute|done]. Qed.
