(* ===== verification/Api.v ===== *)
(** * The desktop API client ([api/ApiClient.ts])

    The network is the input: [net k] is the answer to the [k]-th request an operation makes, or
    the message of the error the transport throws. A response gives its status, its JSON body ([None] when
    [JSON.parse] throws) and its text. An operation returns its result, the client, the
    requests it sent in order, and how often it called the authentication-failure handler. *)

From stdpp Require Import pretty.
From S2P Require Import Prelude Js UploadTypes Security.

(** ** Data *)

(* src: api/types.ts:1-1 [PairingStatus] *)
Inductive PairingStatus := approved | pending | denied.
#[global] Instance PairingStatus_eq_dec : EqDecision PairingStatus.
Proof. solve_decision. Defined.

(* src: api/types.ts:3-6 [HealthResponse] *)
Record HealthResponse := { health_version : option string; health_environment : option string }.

(* src: api/types.ts:8-12 [PreflightFile] *)
Record PreflightFile := { pfl_id : string; pfl_name : string; pfl_size : Z }.

(* src: api/types.ts:14-16 [PreflightVerifyFile] *)
Record PreflightVerifyFile := { pvf_file : PreflightFile; pvf_sha256 : string }.

(* src: api/types.ts:20-25 [PreflightFileResult] *)
Record PreflightFileResult := {
  pr_id : string;
  pr_action : PreflightAction;
  pr_filename : option string;
  pr_inconclusive : bool }.

(** The errors an operation throws: the environment mismatch has a class of its own. *)
(* src: api/ApiClient.ts:22-34 [ServerEnvironmentMismatchError] *)
Inductive api_error :=
  | EnvironmentMismatch (expected : IosClientEnvironment) (actual : string)
  | Thrown (error : thrown).

Record Response := { status : Z; json : option jsval; text : option string; statusText : string }.
Definition ok (r : Response) : bool := (200 <=? status r) && (status r <? 300).

Record Request := {
  rq_url : string;
  rq_method : string;
  rq_token : option string;   (** the [X-Upload-Token] header *)
  rq_body : jsval }.

Module ApiClient.

(* src: api/ApiClient.ts:40-51 [ApiClient] *)
Record t := {
  serverUrl : option string;
  token : option string;
  connectedServerVersion : option string;
  connectionFailureReason : option string;
  expectedEnvironment : IosClientEnvironment }.

(** [url.endsWith('/') ? url.slice(0, -1) : url]. *)
Fixpoint strip_slash (s : string) : string :=
  match s with
  | EmptyString => EmptyString
  | String c EmptyString => if bool_decide (c = Ascii.ascii_of_nat 47) then EmptyString else String c EmptyString
  | String c s => String c (strip_slash s)
  end.

(* src: api/ApiClient.ts:47-58 [constructor] *)
Definition new (url token : option string) (expected : IosClientEnvironment) : t :=
  {| serverUrl := match url with Some u => if truthy u then Some (strip_slash u) else None | None => None end;
     token := match token with Some k => if truthy k then Some k else None | None => None end;
     connectedServerVersion := None; connectionFailureReason := None;
     expectedEnvironment := expected |}.

(* src: api/ApiClient.ts:60-63 [setConfig] *)
Definition setConfig (c : t) (url token : string) : t :=
  {| serverUrl := Some (strip_slash url); token := Some token;
     connectedServerVersion := connectedServerVersion c;
     connectionFailureReason := connectionFailureReason c;
     expectedEnvironment := expectedEnvironment c |}.

(** [this.token] as a condition: the empty string is falsy. *)
Definition usable (s : option string) : option string :=
  match s with Some s => if truthy s then Some s else None | None => None end.

(* src: api/ApiClient.ts:208-222 [url] *)
Definition url (c : t) : string := default "" (serverUrl c).
Definition uploadToken (c : t) : string := default "" (token c).
Definition serverVersion (c : t) : string := default "" (connectedServerVersion c).
Definition connectionError (c : t) : string := default "" (connectionFailureReason c).

(** The [X-Upload-Token] header of [this.headers]. *)
(* src: api/ApiClient.ts:224-233 [headers] *)
Definition headers (c : t) : option string := usable (token c).

(** [true] when the transport refuses the request itself: pinned HTTPS without the module. *)
(* src: api/ApiClient.ts:235-257 [transportFetch] *)
Definition transport_refuses (nativeAvailable : bool) (url : string) : bool :=
  startsWith (toLowerCase url) "https://" && negb nativeAvailable.

Definition pinned_https_error : string := "Pinned HTTPS requires the installed iOS app".

(* src: api/ApiClient.ts:73-81 [requireOk] *)
Definition requireOk (r : Response) (operation : string) : nat * (api_error + Response) :=
  if ok r then (0%nat, inr r) else
  let detail := match text r with Some s => js_or s (statusText r) | None => statusText r end in
  (if (status r =? 401) || (status r =? 403) then 1%nat else 0%nat,
   inl (Thrown (ThrownApiRequestError
     {| are_message := operation +:+ ": HTTP " +:+ pretty (status r)
                       +:+ (if truthy detail then ": " +:+ detail else "");
        are_status := status r |}))).

(** [response.json()]: throws on a body that is not JSON. *)
Definition readJson (r : Response) : api_error + jsval :=
  match json r with Some v => inr v | None => inl (Thrown (ThrownOther "JSON Parse error")) end.

(* src: api/ApiClient.ts:87-93 [parsePairingStatus] *)
Definition parsePairingStatus (body : jsval) : PairingStatus :=
  default denied (str_literal [("approved", approved); ("pending", pending); ("denied", denied)]
                    (field body "status")).

(* src: api/ApiClient.ts:119-127 [requireExpectedEnvironment] *)
Definition requireExpectedEnvironment (c : t) (environment : string) : api_error + unit :=
  if bool_decide (environment = environment_name (expectedEnvironment c)) then inr ()
  else inl (EnvironmentMismatch (expectedEnvironment c) environment).

(** The environment a body names, [''] when it names none. *)
Definition body_environment (body : jsval) : string := str_or (field body "environment") "".

(* src: api/ApiClient.ts:95-105 [readPairingStatus] *)
Definition readPairingStatus (c : t) (r : Response) : api_error + PairingStatus :=
  match readJson r with
  | inl _ => inr denied
  | inr body =>
    match requireExpectedEnvironment c (body_environment body) with
    | inl e => inl e
    | inr _ => inr (parsePairingStatus body)
    end
  end.

(* src: api/ApiClient.ts:107-117 [parseHealth] *)
Definition parseHealth (body : jsval) : HealthResponse :=
  {| health_version := opt_str (field body "version");
     health_environment :=
       str_literal [("production", "production"); ("test", "test"); ("benchmark", "benchmark")]
         (field body "environment") |}.

(* src: api/ApiClient.ts:129-132 [parsePreflightAction] *)
Definition parsePreflightAction (value : jsval) : PreflightAction :=
  default upload (str_literal [("skip", skip); ("hash_required", hash_required)] value).

(* src: api/ApiClient.ts:138-154 [parsePreflightResponse] *)
Definition parsePreflightItem (item : jsval) : option PreflightFileResult :=
  if negb (is_object item) then None else
  id ← opt_nonempty (field item "id");
  Some {| pr_id := id;
          pr_action := parsePreflightAction (field item "action");
          pr_filename := opt_nonempty (field item "filename");
          pr_inconclusive := is_str (field item "verification") "inconclusive" |}.

(* src: api/ApiClient.ts:134-156 [parsePreflightResponse] *)
Definition parsePreflightResponse (body : jsval) : list PreflightFileResult :=
  match field body "files" with
  | JArr files => omap parsePreflightItem files
  | _ => []
  end.

(** ** Operations *)

Record outcome (A : Type) := {
  client : t;
  result : api_error + A;
  requests : list Request;
  notifications : nat }.
Arguments client {A}. Arguments result {A}. Arguments requests {A}. Arguments notifications {A}.

Definition post (u : string) (tok : option string) (body : jsval) : Request :=
  {| rq_url := u; rq_method := "POST"; rq_token := tok; rq_body := body |}.

Definition preflight_json (f : PreflightFile) : list (string * jsval) :=
  [("id", JStr (pfl_id f)); ("name", JStr (pfl_name f)); ("size", JNum (pfl_size f))].

Definition ping_failed (c : t) (message : string) : t :=
  {| serverUrl := serverUrl c; token := token c; connectedServerVersion := connectedServerVersion c;
     connectionFailureReason := Some message; expectedEnvironment := expectedEnvironment c |}.

Definition error_text (e : api_error) : string :=
  match e with
  | EnvironmentMismatch expected actual =>
    if truthy actual
    then "This app expects the " +:+ environment_name expected
         +:+ " desktop environment, but reached " +:+ actual
         +:+ ". Open the matching Windows app and try again."
    else "This desktop does not report an environment identity. Update Windows Local Media Transfer before connecting."
  | Thrown (ThrownOther m) => m
  | Thrown (ThrownApiRequestError e) => are_message e
  | Thrown (ThrownTransferFailure f) => userMessages (tf_code f)
  end.

Definition unauthorized_status (r : Response) : bool := (status r =? 401) || (status r =? 403).
Definition count_if (b : bool) : nat := if b then 1 else 0.

(** The client once the health answer is accepted: it remembers the version. *)
Definition with_version (c : t) (v : option string) : t :=
  {| serverUrl := serverUrl c; token := token c; connectedServerVersion := usable v;
     connectionFailureReason := connectionFailureReason c;
     expectedEnvironment := expectedEnvironment c |}.

(** The second half of [pingServer]: with a token, the desktop must accept it too. *)
(* src: api/ApiClient.ts:277-292 [pingServer] *)
Definition verify_token (c : t) (base : string) (notify : bool)
    (net : nat → string + Response) (rqs : list Request) (n : nat) : outcome bool :=
  match headers c with
  | None => {| client := c; result := inr true; requests := rqs; notifications := n |}
  | Some tok =>
    let rqs := rqs ++ [post (base +:+ "/verify_token") (Some tok) (JObj [("token", JStr tok)])] in
    match net 1%nat with
    | inl message => {| client := ping_failed c message; result := inr false;
                        requests := rqs; notifications := n |}
    | inr r =>
      if negb (ok r) then
        {| client := c; result := inr false; requests := rqs;
           notifications := (n + count_if (unauthorized_status r && notify))%nat |}
      else
        match readJson r with
        | inl e => {| client := ping_failed c (error_text e); result := inr false;
                      requests := rqs; notifications := n |}
        | inr body =>
          match requireExpectedEnvironment c (body_environment body) with
          | inl e => {| client := ping_failed c (error_text e); result := inr false;
                        requests := rqs; notifications := n |}
          | inr _ => {| client := c; result := inr true; requests := rqs; notifications := n |}
          end
        end
    end
  end.

(* src: api/ApiClient.ts:259-302 [pingServer] *)
Definition pingServer (c : t) (nativeAvailable notify : bool) (net : nat → string + Response) : outcome bool :=
  match usable (serverUrl c) with
  | None => {| client := c; result := inr false; requests := []; notifications := 0 |}
  | Some base =>
    let c1 := {| serverUrl := serverUrl c; token := token c;
                 connectedServerVersion := connectedServerVersion c;
                 connectionFailureReason := None;
                 expectedEnvironment := expectedEnvironment c |} in
    if transport_refuses nativeAvailable base then
      {| client := ping_failed c1 pinned_https_error; result := inr false;
         requests := []; notifications := 0 |}
    else
    let rqs := [ {| rq_url := base +:+ "/_health"; rq_method := "GET"; rq_token := headers c;
                    rq_body := JUndefined |} ] in
    match net 0%nat with
    | inl message => {| client := ping_failed c1 message; result := inr false;
                        requests := rqs; notifications := 0 |}
    | inr r =>
      let n := count_if (unauthorized_status r && notify) in
      if negb (ok r) then {| client := c1; result := inr false; requests := rqs; notifications := n |} else
      match readJson r with
      | inl e => {| client := ping_failed c1 (error_text e); result := inr false;
                    requests := rqs; notifications := n |}
      | inr body =>
        let health := parseHealth body in
        match requireExpectedEnvironment c1 (default "" (health_environment health)) with
        | inl e => {| client := ping_failed c1 (error_text e); result := inr false;
                      requests := rqs; notifications := n |}
        | inr _ => verify_token (with_version c1 (health_version health)) base notify net rqs n
        end
      end
    end
  end.

(** A request whose answer [k] consumes; every other operation makes one. *)
Definition one_request {A} (c : t) (nativeAvailable : bool) (net : nat → string + Response)
    (rq : Request) (k : Response → nat * (api_error + A)) : outcome A :=
  if transport_refuses nativeAvailable (rq_url rq) then
    {| client := c; result := inl (Thrown (ThrownOther pinned_https_error));
       requests := []; notifications := 0 |}
  else
    match net 0%nat with
    | inl message => {| client := c; result := inl (Thrown (ThrownOther message));
                        requests := [rq]; notifications := 0 |}
    | inr r => let '(n, res) := k r in
                {| client := c; result := res; requests := [rq]; notifications := n |}
    end.

(* src: api/ApiClient.ts:304-311 [requestPairing] *)
Definition requestPairing (c : t) (nativeAvailable : bool) (net : nat → string + Response)
    (target deviceId deviceName credential : string) : outcome PairingStatus :=
  one_request c nativeAvailable net
    (post (target +:+ "/pair/request") (headers c)
       (JObj [("deviceId", JStr deviceId); ("deviceName", JStr deviceName); ("credential", JStr credential)]))
    (λ r, (0%nat, readPairingStatus c r)).

(* src: api/ApiClient.ts:313-320 [pairingStatus] *)
Definition pairingStatus (c : t) (nativeAvailable : bool) (net : nat → string + Response)
    (target deviceId credential : string) : outcome PairingStatus :=
  one_request c nativeAvailable net
    (post (target +:+ "/pair/status") None
       (JObj [("deviceId", JStr deviceId); ("credential", JStr credential)]))
    (λ r, (0%nat, readPairingStatus c r)).

(** [requireOk], then the parsed body. *)
Definition parsed {A} (operation : string) (parse : jsval → A) (r : Response) : nat * (api_error + A) :=
  let '(n, res) := requireOk r operation in
  (n, match res with
      | inl e => inl e
      | inr r => match readJson r with inl e => inl e | inr body => inr (parse body) end
      end).

Definition no_server {A} (c : t) : outcome A :=
  {| client := c; result := inl (Thrown (ThrownOther "Server URL not configured"));
     requests := []; notifications := 0 |}.

(* src: api/ApiClient.ts:322-332 [preflightCheck] *)
Definition preflightCheck (c : t) (nativeAvailable : bool) (net : nat → string + Response)
    (files : list PreflightFile) : outcome (list PreflightFileResult) :=
  match usable (serverUrl c) with
  | None => no_server c
  | Some base =>
    one_request c nativeAvailable net
      (post (base +:+ "/upload/preflight") (headers c)
         (JObj [("files", JArr ((λ f, JObj (preflight_json f)) <$> files))]))
      (parsed "Preflight failed" parsePreflightResponse)
  end.

(* src: api/ApiClient.ts:334-342 [preflightVerify] *)
Definition preflightVerify (c : t) (nativeAvailable : bool) (net : nat → string + Response)
    (files : list PreflightVerifyFile) : outcome (list PreflightFileResult) :=
  match usable (serverUrl c) with
  | None => no_server c
  | Some base =>
    one_request c nativeAvailable net
      (post (base +:+ "/upload/preflight/verify") (headers c)
         (JObj [("files", JArr ((λ f, JObj (preflight_json (pvf_file f)
                                             ++ [("sha256", JStr (pvf_sha256 f))])) <$> files))]))
      (parsed "Duplicate verification failed" parsePreflightResponse)
  end.

(** Telemetry: the outcome of the request is ignored. *)
(* src: api/ApiClient.ts:370-381 [reportClientSpeed] *)
Definition reportClientSpeed (c : t) (nativeAvailable : bool) (net : nat → string + Response)
    (sessionId : string) (bytesPerSecond : Z) : outcome unit :=
  match usable (serverUrl c) with
  | None => {| client := c; result := inr (); requests := []; notifications := 0 |}
  | Some base =>
    let o := one_request c nativeAvailable net
      (post (base +:+ "/client_metrics") (headers c)
         (JObj [("sessionId", JStr sessionId); ("bytesPerSecond", JNum bytesPerSecond)]))
      (λ _, (0%nat, inr ())) in
    {| client := c; result := inr (); requests := requests o; notifications := 0 |}
  end.

(* src: api/ApiClient.ts:383-393 [transferHistory] *)
Definition transferHistory (c : t) (nativeAvailable : bool) (net : nat → string + Response)
    (payload : jsval) : outcome unit :=
  match usable (serverUrl c) with
  | None => no_server c
  | Some base =>
    one_request c nativeAvailable net (post (base +:+ "/transfer_history") (headers c) payload)
      (λ r, let '(n, res) := requireOk r "Transfer history failed" in
            (n, match res with inl e => inl e | inr _ => inr () end))
  end.

(* src: api/ApiClient.ts:404-411 [clearHistory] *)
Definition clearHistory (c : t) (nativeAvailable : bool) (net : nat → string + Response) : outcome unit :=
  match usable (serverUrl c) with
  | None => no_server c
  | Some base =>
    one_request c nativeAvailable net
      {| rq_url := base +:+ "/transfer_history"; rq_method := "DELETE"; rq_token := headers c;
         rq_body := JUndefined |}
      (λ r, let '(n, res) := requireOk r "Failed to delete history" in
            (n, match res with inl e => inl e | inr _ => inr () end))
  end.

(* src: api/ApiClient.ts:413-421 [cancelUploadSession] *)
Definition cancelUploadSession (c : t) (nativeAvailable : bool) (net : nat → string + Response)
    (sessionId : string) : outcome unit :=
  match usable (serverUrl c) with
  | None => {| client := c; result := inr (); requests := []; notifications := 0 |}
  | Some base =>
    one_request c nativeAvailable net
      (post (base +:+ "/upload_session/cancel") (headers c) (JObj [("sessionId", JStr sessionId)]))
      (λ r, let '(n, res) := requireOk r "Failed to clean up cancelled upload session" in
            (n, match res with inl e => inl e | inr _ => inr () end))
  end.
End ApiClient.

Import ApiClient.

(** ** Properties *)

(** Every request of an operation goes to a server under [base], and carries no token but
    the configured one. *)
Definition confined (base : string) (tok : option string) (rq : Request) : Prop :=
  startsWith (rq_url rq) (base +:+ "/") = true ∧ (rq_token rq = tok ∨ rq_token rq = None).

Lemma startsWith_base base path : startsWith (base +:+ "/" +:+ path) (base +:+ "/") = true.
Proof.
  induction base as [|c base IH]; simpl; [apply (startsWith_app path "/")|]. by rewrite bool_decide_eq_true_2.
Qed.

(** The answers with which a desktop proves itself: healthy, of the expected environment,
    and, when a token is configured, accepting it. *)
Definition desktop_accepts (c : t) (net : nat → string + Response) : Prop :=
  (∃ r body, net 0%nat = inr r ∧ ok r = true ∧ json r = Some body
     ∧ field body "environment" = JStr (environment_name (expectedEnvironment c)))
  ∧ ∀ tok, headers c = Some tok →
    ∃ r body, net 1%nat = inr r ∧ ok r = true ∧ json r = Some body
      ∧ field body "environment" = JStr (environment_name (expectedEnvironment c)).

Lemma requireExpected_ok c env u :
  requireExpectedEnvironment c env = inr u → env = environment_name (expectedEnvironment c).
Proof. unfold requireExpectedEnvironment. case_bool_decide; naive_solver. Qed.

Lemma environment_name_ne e : environment_name e ≠ "".
Proof. by destruct e. Qed.

Lemma body_environment_str body e :
  body_environment body = environment_name e → field body "environment" = JStr (environment_name e).
Proof.
  unfold body_environment, str_or. pose proof (environment_name_ne e).
  destruct (field body "environment"); naive_solver.
Qed.

Lemma health_environment_str body e :
  default "" (health_environment (parseHealth body)) = environment_name e →
  field body "environment" = JStr (environment_name e).
Proof.
  simpl. pose proof (environment_name_ne e). destruct (field body "environment"); simpl; try done.
  repeat case_bool_decide; simpl; intros Hx; by first [congruence|destruct e].
Qed.

(** A branch that answers [false] where the desktop's answer falls short. *)
Ltac refused :=
  split; [split; [done|]|by right];
  let H := fresh in intros H; destruct (H _ eq_refl) as (? & ? & ? & ? & ? & ?); simplify_eq; congruence.

Lemma verify_token_result c base notify net rqs n :
  let o := verify_token c base notify net rqs n in
  (result o = inr true ↔ ∀ tok, headers c = Some tok →
     ∃ r body, net 1%nat = inr r ∧ ok r = true ∧ json r = Some body
       ∧ field body "environment" = JStr (environment_name (expectedEnvironment c)))
  ∧ (result o = inr true ∨ result o = inr false).
Proof.
  simpl. unfold verify_token. destruct (headers c) as [tok|]; [|by split; [split|left]].
  destruct (net 1%nat) as [m|r] eqn:Hnet; [refused|].
  destruct (ok r) eqn:Hok; simpl; [|refused].
  unfold readJson. destruct (json r) as [body|] eqn:Hj; [|refused].
  destruct (requireExpectedEnvironment c (body_environment body)) as [e|u] eqn:He; simpl.
  - split; [|by right]. split; [done|]. intros H. destruct (H tok eq_refl) as (r' & b' & ? & ? & ? & Hf).
    simplify_eq. unfold body_environment, requireExpectedEnvironment in He. rewrite Hf in He. simpl in He.
    by rewrite bool_decide_eq_true_2 in He.
  - apply requireExpected_ok, body_environment_str in He. split; [|by left]. split; [|done].
    intros _ tok' [= <-]. eauto 8.
Qed.

Lemma verify_token_requests c base notify net rqs n :
  let o := verify_token c base notify net rqs n in
  ((∀ rq, rq ∈ rqs → confined base (headers c) rq) → ∀ rq, rq ∈ requests o → confined base (headers c) rq)
  ∧ ((notify = false → n = 0%nat) → notify = false → notifications o = 0%nat).
Proof.
  simpl. unfold verify_token. destruct (headers c) as [tok|]; [|done].
  assert ((∀ rq, rq ∈ rqs → confined base (Some tok) rq) → ∀ rq,
    rq ∈ rqs ++ [post (base +:+ "/verify_token") (Some tok) (JObj [("token", JStr tok)])] →
    confined base (Some tok) rq) as Hrq.
  { intros H rq [?|Hx%list_elem_of_singleton]%elem_of_app; [by apply H|]. subst rq.
    split; [apply startsWith_base|by left]. }
  destruct (net 1%nat) as [m|r]; [done|].
  destruct (ok r); simpl; [|split; [done|]; intros Hn H; rewrite (Hn H), H; by rewrite andb_false_r].
  destruct (readJson r); [done|]. by destruct (requireExpectedEnvironment _ _).
Qed.

(** A ping succeeds exactly when the desktop proves itself: it is healthy and of the
    expected environment, and accepts the configured token; a failed ping never throws. *)
Lemma pingServer_correct c nativeAvailable notify net base :
  usable (serverUrl c) = Some base → transport_refuses nativeAvailable base = false →
  let o := pingServer c nativeAvailable notify net in
  (result o = inr true ↔ desktop_accepts c net)
  ∧ (result o = inr true ∨ result o = inr false)
  ∧ (∀ rq, rq ∈ requests o → confined base (headers c) rq)
  ∧ (notify = false → notifications o = 0%nat).
Proof.
  intros Hbase Hrefuse. simpl.
  assert (∀ rq, rq ∈ [ {| rq_url := base +:+ "/_health"; rq_method := "GET"; rq_token := headers c;
                          rq_body := JUndefined |} ] → confined base (headers c) rq) as Hfirst.
  { intros rq ->%list_elem_of_singleton. split; [apply startsWith_base|by left]. }
  unfold pingServer, desktop_accepts. rewrite Hbase, Hrefuse.
  destruct (net 0%nat) as [m|r] eqn:Hnet; simpl.
  { split_and!; [split; [done|by intros [(? & ? & ? & _) _]]|by right|done..]. }
  assert (∀ b : bool, notify = false → count_if (b && notify) = 0%nat) as Hquiet
    by (intros b ->; by rewrite andb_false_r).
  destruct (ok r) eqn:Hok; simpl.
  2:{ split_and!; [split; [done|intros [(? & ? & ? & ? & _) _]; simplify_eq; congruence]|by right|done|auto]. }
  unfold readJson. destruct (json r) as [body|] eqn:Hj; simpl.
  2:{ split_and!; [split; [done|intros [(? & ? & ? & ? & ? & _) _]; simplify_eq; congruence]|by right|done|auto]. }
  change (match str_literal _ _ with Some x => id x | None => "" end)
    with (default "" (health_environment (parseHealth body))).
  match goal with |- context [requireExpectedEnvironment ?c1 ?env] =>
    destruct (requireExpectedEnvironment c1 env) as [e|u] eqn:He end; simpl.
  - split_and!; [split; [done|]|by right|done|auto]. intros [(r' & b & ? & _ & ? & Henv) _]. simplify_eq.
    unfold requireExpectedEnvironment in He. cbn in He. rewrite Henv in He.
    destruct (expectedEnvironment c); done.
  - apply requireExpected_ok, health_environment_str in He. simpl in He.
    match goal with |- context [verify_token ?c1 _ _ _ ?rqs ?n] =>
      pose proof (verify_token_result c1 base notify net rqs n) as [Hres Htotal];
      pose proof (verify_token_requests c1 base notify net rqs n) as [Hrq Hn] end.
    cbn [headers token with_version expectedEnvironment] in *.
    split_and!; [|exact Htotal|exact (Hrq Hfirst)|exact (Hn (Hquiet _))].
    rewrite Hres. split; [|by intros [_ ?]]. intros Hv. split; [by eauto 8|done].
Qed.

Definition desktop : t := setConfig (new None None test) "https://10.0.0.2:8443/" "tok".
Definition healthy (k : nat) : string + Response :=
  inr {| status := 200; json := Some (JObj [("environment", JStr "test"); ("version", JStr "1.2")]);
         text := None; statusText := "" |}.

Lemma pingServer_correct_witness :
  result (pingServer desktop true false healthy) = inr true.
Proof.
  refine (proj2 (proj1 (pingServer_correct desktop true false healthy "https://10.0.0.2:8443" _ _)) _);
    [by vm_compute..|].
  split; [|intros tok _]; do 2 eexists; (split_and!; [reflexivity..|by vm_compute]).
Defined.

Lemma parsePreflightAction_skip v : parsePreflightAction v = skip → v = JStr "skip".
Proof.
  unfold parsePreflightAction. destruct v; simpl; try done. repeat case_bool_decide; simpl; congruence.
Qed.

Lemma parsePreflightResponse_sound body f :
  f ∈ parsePreflightResponse body →
  pr_id f ≠ "" ∧ pr_filename f ≠ Some ""
  ∧ ∃ items item, field body "files" = JArr items ∧ item ∈ items
      ∧ opt_nonempty (field item "id") = Some (pr_id f)
      ∧ (pr_action f = skip → field item "action" = JStr "skip").
Proof.
  unfold parsePreflightResponse. destruct (field body "files") as [| | | | |items|] eqn:Hf;
    try by intros ?%elem_of_nil.
  intros (item & Hin & Hp)%list_elem_of_omap. unfold parsePreflightItem in Hp.
  destruct (is_object item); simpl in Hp; [|done].
  destruct (opt_nonempty (field item "id")) as [id|] eqn:Hid; simpl in Hp; simplify_eq. simpl.
  assert (∀ v s, opt_nonempty v = Some s → s ≠ "") as Hne.
  { intros v s. destruct v; simpl; try done. case_match eqn:E; [|done]. intros [= <-]. by apply truthy_true. }
  split_and!; [by eapply Hne|intros H; by apply Hne in H|].
  exists items, item. split_and!; [done..|]. apply parsePreflightAction_skip.
Qed.

(** A duplicate check believes only what the desktop said: the answers come from a
    successful response of the configured server, an answer is [skip] only if the desktop
    wrote [skip] for that non-empty id, and a 401 is reported as unauthorized and to the
    authentication-failure handler. *)
Lemma preflightCheck_correct c nativeAvailable net files base :
  usable (serverUrl c) = Some base →
  let o := preflightCheck c nativeAvailable net files in
  (∀ rq, rq ∈ requests o → confined base (headers c) rq)
  ∧ (∀ answers, result o = inr answers →
       ∃ r body, net 0%nat = inr r ∧ ok r = true ∧ json r = Some body
         ∧ answers = parsePreflightResponse body
         ∧ ∀ f, f ∈ answers → pr_id f ≠ "" ∧
             (pr_action f = skip → ∃ items item, field body "files" = JArr items ∧ item ∈ items
                ∧ opt_nonempty (field item "id") = Some (pr_id f) ∧ field item "action" = JStr "skip"))
  ∧ (∀ r, net 0%nat = inr r → transport_refuses nativeAvailable (base +:+ "/upload/preflight") = false →
       status r = 401 →
       notifications o = 1%nat ∧ ∃ e, result o = inl (Thrown e) ∧ isUnauthorizedError e = true).
Proof.
  intros Hbase. simpl. unfold preflightCheck, one_request. rewrite Hbase.
  destruct (transport_refuses _ _) eqn:Hrefuse; simpl.
  { split_and!; [by intros ? ?%elem_of_nil|done|]. intros r _ H. simpl in Hrefuse. congruence. }
  assert (∀ tok body rq, rq ∈ [post (base +:+ "/upload/preflight") tok body] → headers c = tok →
    confined base (headers c) rq) as Hconf.
  { intros tok body rq ->%list_elem_of_singleton <-. split; [apply startsWith_base|by left]. }
  destruct (net 0%nat) as [m|r] eqn:Hnet; simpl.
  { split_and!; [intros rq Hrq; by eapply Hconf|done|done]. }
  unfold parsed, requireOk. destruct (ok r) eqn:Hok; simpl.
  - split_and!; [intros rq Hrq; by eapply Hconf| |].
    + intros answers. unfold readJson. destruct (json r) as [body|] eqn:Hj; [|done].
      intros [= <-]. exists r, body. split_and!; [done..|].
      intros f (? & _ & items & item & ? & ? & ? & ?)%parsePreflightResponse_sound.
      split; [done|]. intros. exists items, item. auto.
    + intros r' [= <-] _ Hst. unfold ok in Hok. by rewrite Hst in Hok.
  - split_and!; [intros rq Hrq; by eapply Hconf|done|]. intros r' [= <-] _ Hst. rewrite Hst. simpl. eauto.
Qed.

Lemma preflightCheck_correct_witness :
  let net (k : nat) : string + Response :=
    inr {| status := 401; json := None; text := None; statusText := "Unauthorized" |} in
  usable (serverUrl desktop) = Some "https://10.0.0.2:8443"
  ∧ notifications (preflightCheck desktop true net []) = 1%nat.
Proof.
  split; [by vm_compute|].
  refine (proj1 (proj2 (proj2 (preflightCheck_correct desktop true _ [] "https://10.0.0.2:8443" _)) _ _ _ _));
    [by vm_compute|reflexivity|by vm_compute|reflexivity].
Defined.

(** Pairing is approved only by a desktop of the expected environment that says so: any
    other body, unreadable ones included, is a denial, and another environment is reported
    as such rather than as an answer. *)
Lemma readPairingStatus_sound c r :
  match readPairingStatus c r with
  | inr s =>
      s ≠ denied →
      ∃ body, json r = Some body
        ∧ field body "environment" = JStr (environment_name (expectedEnvironment c))
        ∧ field body "status" = JStr (match s with approved => "approved" | _ => "pending" end)
  | inl e => ∃ body, json r = Some body
      ∧ e = EnvironmentMismatch (expectedEnvironment c) (body_environment body)
      ∧ field body "environment" ≠ JStr (environment_name (expectedEnvironment c))
  end.
Proof.
  unfold readPairingStatus, readJson. destruct (json r) as [body|]; [|done].
  destruct (requireExpectedEnvironment c (body_environment body)) as [e|u] eqn:He.
  - unfold requireExpectedEnvironment in He. case_bool_decide as Hne; simplify_eq.
    exists body. split_and!; [done..|]. intros H. apply Hne. unfold body_environment. by rewrite H.
  - apply requireExpected_ok, body_environment_str in He. unfold parsePairingStatus, str_literal.
    intros Hs. exists body. split_and!; [done..|]. destruct (field body "status"); simpl in *; try done.
    repeat case_bool_decide; simpl in *; congruence.
Qed.
