(* ===== verification/Preflight.v ===== *)
(** * Duplicate preflight of one prepared window ([services/upload/duplicatePreflight.ts])

    The desktop and the native hasher are the inputs ([services]); their answers may differ
    from one request to the next, so each is asked with the number of the request. The
    [Map]s whose order the code never reads are [gmap]s; the ones it iterates over keep
    their insertion order. Wall-clock durations are not modelled; every counter, byte sum
    and progress call is. *)

From S2P Require Import Prelude Js UploadTypes Native Api.

(** ** Insertion-ordered sets *)

(** [Set.prototype.add]. *)
Definition set_add (l : list string) (id : string) : list string :=
  if decide (id ∈ l) then l else l ++ [id].

(** ** State *)

(* src: services/upload/types.ts:83-118 [DuplicatePreflightMetrics] *)
Inductive metric :=
  | componentsConsidered | bypassedFiles | metadataUploadFiles | metadataFallbackFiles
  | receiverCandidateFiles | localCandidateFiles | hashCandidateFiles | hashedFiles
  | hashAttemptCount | hashCacheHits | hashFailureFiles | hashedBytes
  | hashedThenUploadedFiles | hashedThenUploadedBytes
  | receiverSkippedFiles | receiverSkippedBytes | outgoingSkippedFiles | outgoingSkippedBytes
  | metadataRequestCount | metadataFailureCount
  | verificationRequestCount | verificationFailureCount | verificationInconclusiveFiles
  | totalHashWorkerDurationMs | longestHashDurationMs | largestHashedFileBytes
  | nonCandidateFilesBlockedByHash | nonCandidateBytesBlockedByHash
  | preparedBytesHeldDuringPreflight | temporaryBytesHeldDuringPreflight.

#[global] Instance metric_eq_dec : EqDecision metric.
Proof. solve_decision. Defined.

Definition metrics := metric → Z.
Definition set_metric (m : metric) (v : Z) (ms : metrics) : metrics :=
  λ m', if decide (m' = m) then v else ms m'.
Definition add_metric (m : metric) (v : Z) (ms : metrics) : metrics := set_metric m (ms m + v) ms.

(** The decisions taken so far. *)
(* src: services/upload/duplicatePreflight.ts:55-60 [runDuplicatePreflightWindow] *)
Record decisions := {
  preflightResults : gmap string PreflightAction;
  matchedFilenames : gmap string string;
  duplicateSources : gmap string DuplicateSource }.

Definition set_action (id : string) (a : PreflightAction) (d : decisions) : decisions :=
  {| preflightResults := <[id := a]> (preflightResults d); matchedFilenames := matchedFilenames d;
     duplicateSources := duplicateSources d |}.
Definition set_match (id filename : string) (d : decisions) : decisions :=
  {| preflightResults := preflightResults d; matchedFilenames := <[id := filename]> (matchedFilenames d);
     duplicateSources := duplicateSources d |}.
Definition set_source (id : string) (src : DuplicateSource) (d : decisions) : decisions :=
  {| preflightResults := preflightResults d; matchedFilenames := matchedFilenames d;
     duplicateSources := <[id := src]> (duplicateSources d) |}.
Definition set_actions (ids : list string) (a : PreflightAction) (d : decisions) : decisions :=
  foldl (λ d id, set_action id a d) d ids.

(** What is only reported: failures, counters and the progress calls. *)
Record journal := {
  failureCount : Z;
  counters : metrics;
  progress : list (DuplicateCheckStage * Z * Z) }.

Definition count (m : metric) (v : Z) (j : journal) : journal :=
  {| failureCount := failureCount j; counters := add_metric m v (counters j); progress := progress j |}.
Definition put (m : metric) (v : Z) (j : journal) : journal :=
  {| failureCount := failureCount j; counters := set_metric m v (counters j); progress := progress j |}.
Definition fail (j : journal) : journal :=
  {| failureCount := failureCount j + 1; counters := counters j; progress := progress j |}.
(* src: services/upload/duplicatePreflight.ts:15-19 [DuplicateProgress] *)
Definition report (stage : DuplicateCheckStage) (completed total : Z) (j : journal) : journal :=
  {| failureCount := failureCount j; counters := counters j;
     progress := progress j ++ [(stage, completed, total)] |}.

(* src: services/upload/duplicatePreflight.ts:21-24 [OutgoingHashRegistry] *)
Record OutgoingEntry := { oe_transferFilename : string; oe_receiverMatch : option string }.
Notation OutgoingHashRegistry := (gmap string OutgoingEntry).

(** The desktop and the native hasher: [k] is the number of the batch, [true] marks the
    second hashing of a batch. *)
Record services := {
  nativeAvailable : bool;
  preflightCheck : nat → list PreflightFile → thrown + list PreflightFileResult;
  preflightVerify : nat → list PreflightVerifyFile → thrown + list PreflightFileResult;
  hashFiles : nat → bool → list NativeHashRequest → thrown + list (NativeHashResult jsnum) }.

(* src: services/upload/duplicatePreflight.ts:13-13 [PREFLIGHT_BATCH_SIZE] *)
Definition PREFLIGHT_BATCH_SIZE : nat := 100.

(* src: services/upload/types.ts:120-131 [PreflightResult] *)
Record PreflightResult := {
  pres_decisions : decisions;
  pres_computedHashes : gmap string string;
  pres_hashFailureCodes : gmap string TransferErrorCode;
  pres_candidateCount : Z;
  pres_checkedCount : Z;
  pres_journal : journal }.

Definition ids_of (files : list PreparedUploadFile) : list string := f_variantId <$> files.

(* src: services/upload/duplicatePreflight.ts:26-39 [localCandidateIds] *)
Definition localCandidateIds (files : list PreparedUploadFile) : list string :=
  foldl (λ ids group, if (length group <? 2)%nat then ids else foldl set_add ids (ids_of group))
    [] (snd <$> group_by f_size files).

(* src: services/upload/duplicatePreflight.ts:65-103 [runDuplicatePreflightWindow] *)
Definition initial_journal (fileInfos : list PreparedUploadFile) : journal :=
  {| failureCount := 0;
     counters :=
       set_metric componentsConsidered (lengthZ fileInfos)
       (set_metric preparedBytesHeldDuringPreflight (sumZ f_size fileInfos)
       (set_metric temporaryBytesHeldDuringPreflight
          (sumZ (λ f, if f_temporary f is Some true then f_size f else 0) fileInfos)
          (λ _, 0)));
     progress := [] |}.

(* src: services/upload/duplicatePreflight.ts:55-60 [runDuplicatePreflightWindow] *)
Definition no_decisions : decisions :=
  {| preflightResults := ∅; matchedFilenames := ∅; duplicateSources := ∅ |}.

(* src: services/upload/duplicatePreflight.ts:123-140 [captureOutcomeMetrics] *)
Definition captureOutcomeMetrics (fileInfos : list PreparedUploadFile) (d : decisions)
    (computedHashes : gmap string string) (j : journal) : journal :=
  foldl (λ j file,
    let action := default upload (preflightResults d !! f_variantId file) in
    let source := duplicateSources d !! f_variantId file in
    let j :=
      if bool_decide (is_Some (computedHashes !! f_variantId file)) && bool_decide (action = upload)
      then count hashedThenUploadedBytes (f_size file) (count hashedThenUploadedFiles 1 j) else j in
    if negb (bool_decide (action = skip)) then j else
    if bool_decide (source = Some outgoing_selection)
    then count outgoingSkippedBytes (f_size file) (count outgoingSkippedFiles 1 j)
    else count receiverSkippedBytes (f_size file) (count receiverSkippedFiles 1 j)) j fileInfos.

(** ** Metadata check *)

Record metadata_state := {
  md_decisions : decisions;
  md_receiverCandidateIds : list string;
  md_journal : journal }.

(* src: services/upload/duplicatePreflight.ts:156-169 [runDuplicatePreflightWindow] *)
Definition metadata_answer (s : metadata_state) (r : PreflightFileResult) : metadata_state :=
  let d := set_action (pr_id r) (pr_action r) (md_decisions s) in
  match pr_action r with
  | hash_required =>
    {| md_decisions := d; md_receiverCandidateIds := set_add (md_receiverCandidateIds s) (pr_id r);
       md_journal := md_journal s |}
  | upload =>
    {| md_decisions := d; md_receiverCandidateIds := md_receiverCandidateIds s;
       md_journal := count metadataUploadFiles 1 (md_journal s) |}
  | skip =>
    {| md_decisions :=
         match pr_filename r with
         | Some filename =>
           if truthy filename
           then set_source (pr_id r) receiver_preflight (set_match (pr_id r) filename d) else d
         | None => d
         end;
       md_receiverCandidateIds := md_receiverCandidateIds s; md_journal := md_journal s |}
  end.

(* src: services/upload/duplicatePreflight.ts:170-175 [runDuplicatePreflightWindow] *)
Definition metadata_missing (answers : list PreflightFileResult) (s : metadata_state) (f : PreflightFile)
    : metadata_state :=
  if decide (pfl_id f ∈ pr_id <$> answers) then s else
  {| md_decisions := set_action (pfl_id f) upload (md_decisions s);
     md_receiverCandidateIds := md_receiverCandidateIds s;
     md_journal := count metadataFallbackFiles 1 (md_journal s) |}.

(* src: services/upload/duplicatePreflight.ts:150-190 [runDuplicatePreflightWindow] *)
Definition metadata_batch (env : services) (total completed : Z) (k : nat)
    (batch : list PreflightFile) (s : metadata_state) : thrown + metadata_state :=
  let s := {| md_decisions := md_decisions s; md_receiverCandidateIds := md_receiverCandidateIds s;
              md_journal := count metadataRequestCount 1 (md_journal s) |} in
  let finally s :=
    {| md_decisions := md_decisions s; md_receiverCandidateIds := md_receiverCandidateIds s;
       md_journal := report finding_matches (completed + lengthZ batch) total (md_journal s) |} in
  match preflightCheck env k batch with
  | inr answers =>
    inr (finally (foldl (metadata_missing answers) (foldl metadata_answer s answers) batch))
  | inl error =>
    if isUnauthorizedError error then inl error else
    inr (finally
      {| md_decisions := set_actions (pfl_id <$> batch) upload (md_decisions s);
         md_receiverCandidateIds := md_receiverCandidateIds s;
         md_journal := count metadataFallbackFiles (lengthZ batch)
                         (count metadataFailureCount 1 (fail (md_journal s))) |})
  end.

(* src: services/upload/duplicatePreflight.ts:148-191 [runDuplicatePreflightWindow] *)
Fixpoint metadata_batches (env : services) (total completed : Z) (k : nat)
    (bs : list (list PreflightFile)) (s : metadata_state) : thrown + metadata_state :=
  match bs with
  | [] => inr s
  | batch :: bs =>
    match metadata_batch env total completed k batch s with
    | inl error => inl error
    | inr s => metadata_batches env total (completed + lengthZ batch) (S k) bs s
    end
  end.

(** ** Hashing of the candidates *)

Record hash_state := {
  computedHashes : gmap string string;
  hashFailureCodes : gmap string TransferErrorCode;
  actuallyHashedIds : gset string;
  hash_journal : journal }.

Definition finite_or (x : jsnum) (fallback : Z) : Z :=
  match x with Finite z => z | NotFinite => fallback end.

Definition hash_bytesRead (r : NativeHashResult jsnum) : jsnum :=
  match r with HashSuccess _ _ b _ _ | HashFailed _ _ b _ => b end.
Definition hash_durationMs (r : NativeHashResult jsnum) : jsnum :=
  match r with HashSuccess _ _ _ d _ | HashFailed _ _ _ d => d end.
Definition hash_succeeded (r : NativeHashResult jsnum) : bool :=
  match r with HashSuccess _ _ _ _ _ => true | HashFailed _ _ _ _ => false end.
Definition hash_cacheHit (r : NativeHashResult jsnum) : bool :=
  match r with HashSuccess _ _ _ _ hit => hit | HashFailed _ _ _ _ => false end.

(** [new Map(xs.map(x => [key(x), x]))]: of equal keys the last counts. *)
Definition map_by {A} (key : A → string) (xs : list A) : gmap string A :=
  foldl (λ m x, <[key x := x]> m) ∅ xs.

(* src: services/upload/duplicatePreflight.ts:255-275 [recordHashResults] *)
Definition record_hash_result (requestsById : gmap string NativeHashRequest) (s : hash_state)
    (r : NativeHashResult jsnum) : hash_state :=
  match requestsById !! hash_variantId r with
  | None => s
  | Some request =>
    let durationMs := finite_or (hash_durationMs r) 0 in
    let reportedBytes := finite_or (hash_bytesRead r)
                           (if hash_succeeded r then hr_expectedSizeBytes request else 0) in
    let j := count hashedBytes reportedBytes (hash_journal s) in
    let j := count totalHashWorkerDurationMs durationMs j in
    let j := put longestHashDurationMs (Z.max (counters j longestHashDurationMs) durationMs) j in
    let j := if hash_succeeded r && hash_cacheHit r then count hashCacheHits 1 j else j in
    if (0 <? reportedBytes) || (hash_succeeded r && negb (hash_cacheHit r)) then
      {| computedHashes := computedHashes s; hashFailureCodes := hashFailureCodes s;
         actuallyHashedIds := {[ hash_variantId r ]} ∪ actuallyHashedIds s;
         hash_journal := put largestHashedFileBytes
           (Z.max (counters j largestHashedFileBytes) (hr_expectedSizeBytes request)) j |}
    else
      {| computedHashes := computedHashes s; hashFailureCodes := hashFailureCodes s;
         actuallyHashedIds := actuallyHashedIds s; hash_journal := j |}
  end.

(* src: services/upload/duplicatePreflight.ts:249-276 [recordHashResults] *)
Definition recordHashResults (results : list (NativeHashResult jsnum))
    (attemptedRequests : list NativeHashRequest) (s : hash_state) : hash_state :=
  foldl (record_hash_result (map_by hr_variantId attemptedRequests))
    {| computedHashes := computedHashes s; hashFailureCodes := hashFailureCodes s;
       actuallyHashedIds := actuallyHashedIds s;
       hash_journal := count hashAttemptCount (lengthZ attemptedRequests) (hash_journal s) |} results.

(* src: services/upload/duplicatePreflight.ts:297-303 [runDuplicatePreflightWindow] *)
Definition store_hash_result (s : hash_state) (r : NativeHashResult jsnum) : hash_state :=
  match r with
  | HashSuccess id sha256 _ _ _ =>
    {| computedHashes := <[id := sha256]> (computedHashes s); hashFailureCodes := hashFailureCodes s;
       actuallyHashedIds := actuallyHashedIds s; hash_journal := hash_journal s |}
  | HashFailed id code _ _ =>
    if bool_decide (code = cancelled) then s else
    {| computedHashes := computedHashes s; hashFailureCodes := <[id := code]> (hashFailureCodes s);
       actuallyHashedIds := actuallyHashedIds s; hash_journal := hash_journal s |}
  end.

(* src: services/upload/duplicatePreflight.ts:304-309 [runDuplicatePreflightWindow] *)
Definition hashing_unavailable (batch : list PreparedUploadFile) (s : hash_state) : hash_state :=
  {| computedHashes := computedHashes s;
     hashFailureCodes :=
       foldl (λ m id, <[id := native_hashing_unavailable]> m) (hashFailureCodes s) (ids_of batch);
     actuallyHashedIds := actuallyHashedIds s; hash_journal := fail (hash_journal s) |}.

(* src: services/upload/duplicatePreflight.ts:244-248 [runDuplicatePreflightWindow] *)
Definition hash_request (file : PreparedUploadFile) : NativeHashRequest :=
  {| hr_variantId := f_variantId file; hr_localUri := f_nativeUri file;
     hr_expectedSizeBytes := f_size file |}.

(* src: services/upload/duplicatePreflight.ts:282-284 [runDuplicatePreflightWindow] *)
Definition file_changed_ids (results : list (NativeHashResult jsnum)) : list string :=
  omap (λ r, match r with
             | HashFailed id code _ _ => if bool_decide (code = file_changed) then Some id else None
             | _ => None
             end) results.

(** The [try] of one batch. *)
(* src: services/upload/duplicatePreflight.ts:243-309 [runDuplicatePreflightWindow] *)
Definition hash_attempt (env : services) (k : nat) (batch : list PreparedUploadFile) (s : hash_state)
    : hash_state :=
  let requests := hash_request <$> batch in
  match hashFiles env k false requests with
  | inl _ => hashing_unavailable batch s
  | inr results =>
    let s := recordHashResults results requests s in
    let changedIds := file_changed_ids results in
    match changedIds with
    | [] => foldl store_hash_result s results
    | _ =>
      let again := base.filter (λ r, hr_variantId r ∈ changedIds) requests in
      match hashFiles env k true again with
      | inl _ => hashing_unavailable batch s
      | inr retried =>
        let retriedById := map_by hash_variantId retried in
        foldl store_hash_result (recordHashResults retried again s)
          ((λ r, default r (retriedById !! hash_variantId r)) <$> results)
      end
    end
  end.

(* src: services/upload/duplicatePreflight.ts:241-316 [runDuplicatePreflightWindow] *)
Fixpoint hash_batches (env : services) (total checked : Z) (k : nat)
    (bs : list (list PreparedUploadFile)) (s : hash_state) : hash_state :=
  match bs with
  | [] => s
  | batch :: bs =>
    let s := hash_attempt env k batch s in
    let checked := checked + lengthZ batch in
    hash_batches env total checked (S k) bs
      {| computedHashes := computedHashes s; hashFailureCodes := hashFailureCodes s;
         actuallyHashedIds := actuallyHashedIds s;
         hash_journal := report checking_contents checked total (hash_journal s) |}
  end.

(** ** Verification by content hash *)

(* src: services/upload/duplicatePreflight.ts:321-329 [runDuplicatePreflightWindow] *)
Definition verification_entry (fileById : gmap string PreparedUploadFile)
    (hashes : gmap string string) (id : string) : option PreflightVerifyFile :=
  file ← fileById !! id;
  sha256 ← hashes !! id;
  if truthy sha256
  then Some {| pvf_file := {| pfl_id := id; pfl_name := f_transferFilename file; pfl_size := f_size file |};
               pvf_sha256 := sha256 |}
  else None.

(* src: services/upload/duplicatePreflight.ts:346-357 [runDuplicatePreflightWindow] *)
Definition verification_answer (s : decisions * journal) (r : PreflightFileResult) : decisions * journal :=
  let '(d, j) := s in
  let j := if pr_inconclusive r then count verificationInconclusiveFiles 1 (fail j) else j in
  let d := set_action (pr_id r) (if bool_decide (pr_action r = hash_required) then upload else pr_action r) d in
  match pr_action r with
  | skip =>
    let d := set_source (pr_id r) receiver_preflight d in
    (match pr_filename r with
     | Some filename => if truthy filename then set_match (pr_id r) filename d else d
     | None => d
     end, j)
  | _ => (d, j)
  end.

(* src: services/upload/duplicatePreflight.ts:341-373 [runDuplicatePreflightWindow] *)
Definition verification_batch (env : services) (total completed : Z) (k : nat)
    (batch : list PreflightVerifyFile) (s : decisions * journal) : thrown + decisions * journal :=
  let '(d, j) := s in
  let j := count verificationRequestCount 1 j in
  let ids := (λ f, pfl_id (pvf_file f)) <$> batch in
  let finally s := (s.1, report verifying_windows (completed + lengthZ batch) total s.2) in
  match preflightVerify env k batch with
  | inr answers =>
    let '(d, j) := foldl verification_answer (d, j) answers in
    inr (finally (set_actions (base.filter (λ id, id ∉ pr_id <$> answers) ids) upload d, j))
  | inl error =>
    if isUnauthorizedError error then inl error else
    inr (finally (set_actions ids upload d, count verificationFailureCount 1 (fail j)))
  end.

(* src: services/upload/duplicatePreflight.ts:340-374 [runDuplicatePreflightWindow] *)
Fixpoint verification_batches (env : services) (total completed : Z) (k : nat)
    (bs : list (list PreflightVerifyFile)) (s : decisions * journal) : thrown + decisions * journal :=
  match bs with
  | [] => inr s
  | batch :: bs =>
    match verification_batch env total completed k batch s with
    | inl error => inl error
    | inr s => verification_batches env total (completed + lengthZ batch) (S k) bs s
    end
  end.

(** ** Files of equal content *)

Definition skip_as (filename : string) (src : DuplicateSource) (d : decisions) (id : string) : decisions :=
  set_source id src (set_match id filename (set_action id skip d)).

(** The first non-empty name a member of the group was matched with. *)
(* src: services/upload/duplicatePreflight.ts:394-396 [runDuplicatePreflightWindow] *)
Definition group_match (d : decisions) (group : list PreparedUploadFile) : option string :=
  head (omap (λ file, filename ← matchedFilenames d !! f_variantId file;
                      if truthy filename then Some filename else None) group).

(* src: services/upload/duplicatePreflight.ts:390-424 [runDuplicatePreflightWindow] *)
Definition resolve_group (s : decisions * OutgoingHashRegistry)
    (group : string * list PreparedUploadFile) : decisions * OutgoingHashRegistry :=
  let '(d, outgoing) := s in
  let '(hash, files) := group in
  let earlier := outgoing !! hash in
  let receiverMatch :=
    match group_match d files with Some m => Some m | None => earlier ≫= oe_receiverMatch end in
  match files, (match receiverMatch with Some m => if truthy m then Some m else None | None => None end) with
  | [], _ => s
  | canonical :: _, Some m =>
    (foldl (skip_as m receiver_preflight) d (ids_of files),
     <[hash := {| oe_transferFilename := match earlier with
                                         | Some e => oe_transferFilename e
                                         | None => f_transferFilename canonical
                                         end;
                  oe_receiverMatch := Some m |}]> outgoing)
  | canonical :: duplicates, None =>
    match earlier with
    | Some e => (foldl (skip_as (oe_transferFilename e) outgoing_selection) d (ids_of files), outgoing)
    | None =>
      (foldl (skip_as (f_transferFilename canonical) outgoing_selection) d (ids_of duplicates),
       <[hash := {| oe_transferFilename := f_transferFilename canonical; oe_receiverMatch := None |}]> outgoing)
    end
  end.

(** The hash of a file, when it has one that is not empty. *)
Definition file_hash (hashes : gmap string string) (file : PreparedUploadFile) : option string :=
  h ← hashes !! f_variantId file; if truthy h then Some h else None.

(* src: services/upload/duplicatePreflight.ts:382-389 [runDuplicatePreflightWindow] *)
Definition filesByHash (fileInfos : list PreparedUploadFile) (hashes : gmap string string)
    : list (string * list PreparedUploadFile) :=
  group_by (λ f, default "" (file_hash hashes f))
    (base.filter (λ f, is_Some (file_hash hashes f)) fileInfos).

(** ** The whole window *)

(** What the window ends with when duplicates are not to be skipped. *)
(* src: services/upload/duplicatePreflight.ts:105-120 [runDuplicatePreflightWindow] *)
Definition bypass (fileInfos : list PreparedUploadFile) : PreflightResult :=
  {| pres_decisions := set_actions (ids_of fileInfos) upload no_decisions;
     pres_computedHashes := ∅; pres_hashFailureCodes := ∅;
     pres_candidateCount := 0; pres_checkedCount := 0;
     pres_journal := put bypassedFiles (lengthZ fileInfos) (initial_journal fileInfos) |}.

(** The candidates of a window: files of equal size and those the desktop asked to hash. *)
(* src: services/upload/duplicatePreflight.ts:215-221 [runDuplicatePreflightWindow] *)
Definition candidates_of (fileInfos : list PreparedUploadFile) (receiverIds : list string)
    : list string * list PreparedUploadFile :=
  let candidateIds := foldl set_add (localCandidateIds fileInfos) receiverIds in
  (candidateIds, omap (λ id, map_by f_variantId fileInfos !! id) candidateIds).

(* src: services/upload/duplicatePreflight.ts:215-319 [runDuplicatePreflightWindow] *)
Definition hash_phase (env : services) (fileInfos : list PreparedUploadFile)
    (receiverIds : list string) (j : journal) : list PreparedUploadFile * hash_state :=
  let '(candidateIds, candidates) := candidates_of fileInfos receiverIds in
  let nonCandidates := base.filter (λ f, f_variantId f ∉ candidateIds) fileInfos in
  let j := put localCandidateFiles (lengthZ (localCandidateIds fileInfos)) j in
  let j := put hashCandidateFiles (lengthZ candidates) j in
  let j :=
    match candidates with
    | [] => j
    | _ => report checking_contents 0 (lengthZ candidates)
             (put nonCandidateFilesBlockedByHash (lengthZ nonCandidates)
               (put nonCandidateBytesBlockedByHash (sumZ f_size nonCandidates) j))
    end in
  let s := hash_batches env (lengthZ candidates) 0 0 (batches PREFLIGHT_BATCH_SIZE candidates)
    {| computedHashes := ∅; hashFailureCodes := ∅; actuallyHashedIds := ∅; hash_journal := j |} in
  (candidates,
   {| computedHashes := computedHashes s; hashFailureCodes := hashFailureCodes s;
      actuallyHashedIds := actuallyHashedIds s;
      hash_journal := put hashFailureFiles (Z.of_nat (size (hashFailureCodes s)))
        (put hashedFiles (Z.of_nat (size (actuallyHashedIds s))) (hash_journal s)) |}).

(* src: services/upload/duplicatePreflight.ts:321-380 [runDuplicatePreflightWindow] *)
Definition verification_phase (env : services) (fileInfos : list PreparedUploadFile)
    (receiverIds : list string) (hashes : gmap string string) (d : decisions) (j : journal)
    : thrown + decisions * journal :=
  let payload := omap (verification_entry (map_by f_variantId fileInfos) hashes) receiverIds in
  let j := match payload with [] => j | _ => report verifying_windows 0 (lengthZ payload) j end in
  match verification_batches env (lengthZ payload) 0 0 (batches PREFLIGHT_BATCH_SIZE payload) (d, j) with
  | inl error => inl error
  | inr (d, j) =>
    inr (set_actions (base.filter (λ id, hashes !! id = None) receiverIds) upload d, j)
  end.

Definition metadata_payload (fileInfos : list PreparedUploadFile) : list PreflightFile :=
  (λ f, {| pfl_id := f_variantId f; pfl_name := f_transferFilename f; pfl_size := f_size f |}) <$> fileInfos.

(* src: services/upload/duplicatePreflight.ts:141-192 [runDuplicatePreflightWindow] *)
Definition metadata_phase (env : services) (fileInfos : list PreparedUploadFile) : thrown + metadata_state :=
  let payload := metadata_payload fileInfos in
  let j := report finding_matches 0 (lengthZ payload) (initial_journal fileInfos) in
  match metadata_batches env (lengthZ payload) 0 0 (batches PREFLIGHT_BATCH_SIZE payload)
      {| md_decisions := no_decisions; md_receiverCandidateIds := []; md_journal := j |} with
  | inl error => inl error
  | inr s => inr {| md_decisions := md_decisions s; md_receiverCandidateIds := md_receiverCandidateIds s;
                    md_journal := put receiverCandidateFiles (lengthZ (md_receiverCandidateIds s)) (md_journal s) |}
  end.

(** [checkedCount] has been increased by the length of every batch of candidates. *)
(* src: services/upload/duplicatePreflight.ts:41-441 [runDuplicatePreflightWindow] *)
Definition runDuplicatePreflightWindow (env : services) (fileInfos : list PreparedUploadFile)
    (shouldSkipDuplicates : bool) (outgoingHashes : OutgoingHashRegistry)
    : thrown + PreflightResult * OutgoingHashRegistry :=
  if negb shouldSkipDuplicates then inr (bypass fileInfos, outgoingHashes) else
  match metadata_phase env fileInfos with
  | inl error => inl error
  | inr md =>
    let receiverIds := md_receiverCandidateIds md in
    if negb (nativeAvailable env) then
      let d := set_actions receiverIds upload (md_decisions md) in
      inr ({| pres_decisions := d; pres_computedHashes := ∅; pres_hashFailureCodes := ∅;
              pres_candidateCount := lengthZ receiverIds; pres_checkedCount := 0;
              pres_journal := captureOutcomeMetrics fileInfos d ∅ (md_journal md) |}, outgoingHashes)
    else
      let '(candidates, hs) := hash_phase env fileInfos receiverIds (md_journal md) in
      let hashes := computedHashes hs in
      match verification_phase env fileInfos receiverIds hashes (md_decisions md) (hash_journal hs) with
      | inl error => inl error
      | inr (d, j) =>
        let '(d, outgoing) := foldl resolve_group (d, outgoingHashes) (filesByHash fileInfos hashes) in
        inr ({| pres_decisions := d; pres_computedHashes := hashes;
                pres_hashFailureCodes := hashFailureCodes hs;
                pres_candidateCount := lengthZ candidates; pres_checkedCount := lengthZ candidates;
                pres_journal := captureOutcomeMetrics fileInfos d hashes j |}, outgoing)
      end
  end.

(** ** Who said what *)

(** The desktop answered [skip] for the file in this window: to a metadata batch of the
    window, or to a verification request. *)
Definition metadata_said (env : services) (files : list PreparedUploadFile) (id : string) : Prop :=
  ∃ k batch answers r, batches PREFLIGHT_BATCH_SIZE (metadata_payload files) !! k = Some batch
    ∧ preflightCheck env k batch = inr answers ∧ r ∈ answers ∧ pr_id r = id ∧ pr_action r = skip.
Definition verification_said (env : services) (id : string) : Prop :=
  ∃ k batch answers r, preflightVerify env k batch = inr answers ∧ r ∈ answers
    ∧ pr_id r = id ∧ pr_action r = skip.
Definition receiver_said (env : services) (files : list PreparedUploadFile) (id : string) : Prop :=
  metadata_said env files id ∨ verification_said env id.

(** Every decision to skip, and every matched name, goes back to such an answer. *)
Definition explained (said : string → Prop) (d : decisions) : Prop :=
  (∀ id, preflightResults d !! id = Some skip → said id)
  ∧ (∀ id m, matchedFilenames d !! id = Some m → said id).

Lemma set_action_explained said id a d :
  (a = skip → said id) → explained said d → explained said (set_action id a d).
Proof.
  intros Ha [Hr Hm]. split; simpl; [|done]. intros id'. rewrite lookup_insert_Some.
  intros [[<- ->]|[_ ?]]; auto.
Qed.

Lemma set_match_explained said id m d :
  said id → explained said d → explained said (set_match id m d).
Proof.
  intros Hs [Hr Hm]. split; simpl; [done|]. intros id' m'. rewrite lookup_insert_Some.
  intros [[<- _]|[_ ?]]; eauto.
Qed.

Lemma set_source_explained said id s d : explained said d → explained said (set_source id s d).
Proof. done. Qed.

Lemma set_actions_explained said ids a d :
  a ≠ skip → explained said d → explained said (set_actions ids a d).
Proof.
  intros Ha. unfold set_actions. revert d. induction ids as [|id ids IH]; intros d Hd; simpl; [done|].
  apply IH. by apply set_action_explained.
Qed.

#[local] Hint Resolve set_action_explained set_match_explained set_source_explained : core.

(** A file waiting for verification is a receiver candidate. *)
Definition pending_candidates (d : decisions) (ids : list string) : Prop :=
  ∀ id, preflightResults d !! id = Some hash_required → id ∈ ids.

Lemma set_action_pending id a d ids :
  (a = hash_required → id ∈ ids) → pending_candidates d ids → pending_candidates (set_action id a d) ids.
Proof.
  intros Ha Hd id'. simpl. rewrite lookup_insert_Some. intros [[<- ->]|[_ ?]]; auto.
Qed.

Lemma set_actions_lookup ids a d id :
  preflightResults (set_actions ids a d) !! id =
    if decide (id ∈ ids) then Some a else preflightResults d !! id.
Proof.
  unfold set_actions. revert d. induction ids as [|id' ids IH]; intros d; simpl; [done|].
  rewrite IH. simpl. destruct (decide (id = id')) as [->|Hne].
  - rewrite lookup_insert_eq, (decide_True (P := id' ∈ id' :: ids)) by left. by case_decide.
  - rewrite lookup_insert_ne by done. repeat case_decide; set_solver.
Qed.

Lemma set_actions_matched ids a d : matchedFilenames (set_actions ids a d) = matchedFilenames d.
Proof. unfold set_actions. revert d. induction ids as [|id ids IH]; intros d; simpl; [done|]. by rewrite IH. Qed.

Lemma set_add_elem l id x : x ∈ set_add l id ↔ x = id ∨ x ∈ l.
Proof. unfold set_add. case_decide; set_solver. Qed.

(** ** The metadata phase *)

Lemma metadata_answer_ok said s r :
  (pr_action r = skip → said (pr_id r)) →
  explained said (md_decisions s) → pending_candidates (md_decisions s) (md_receiverCandidateIds s) →
  let s' := metadata_answer s r in
  explained said (md_decisions s') ∧ pending_candidates (md_decisions s') (md_receiverCandidateIds s').
Proof.
  intros Hr He Hp. unfold metadata_answer. destruct (pr_action r) eqn:Ha; simpl.
  - split; [by apply set_action_explained|by apply set_action_pending].
  - assert (explained said (set_action (pr_id r) skip (md_decisions s))) by auto.
    assert (pending_candidates (set_action (pr_id r) skip (md_decisions s)) (md_receiverCandidateIds s))
      by (by apply set_action_pending).
    destruct (pr_filename r); [case_match; auto|auto].
  - split; [by apply set_action_explained|]. intros id. simpl. rewrite lookup_insert_Some, set_add_elem.
    intros [[<- _]|[_ ?]]; [by left|right; by apply Hp].
Qed.

Lemma metadata_batch_ok said env total completed k batch s s' :
  (∀ answers r, preflightCheck env k batch = inr answers → r ∈ answers → pr_action r = skip → said (pr_id r)) →
  metadata_batch env total completed k batch s = inr s' →
  explained said (md_decisions s) → pending_candidates (md_decisions s) (md_receiverCandidateIds s) →
  explained said (md_decisions s') ∧ pending_candidates (md_decisions s') (md_receiverCandidateIds s').
Proof.
  intros Hsaid H He Hp. unfold metadata_batch in H.
  set (ok := λ s, explained said (md_decisions s)
                  ∧ pending_candidates (md_decisions s) (md_receiverCandidateIds s)).
  destruct (preflightCheck env k batch) as [error|answers] eqn:Hc.
  - destruct (isUnauthorizedError error); simplify_eq/=. split; [by apply set_actions_explained|].
    intros id. rewrite set_actions_lookup. case_decide; [done|auto].
  - simplify_eq/=. apply (foldl_invariant_in _ ok).
    { intros s1 f _ [He1 Hp1]. unfold metadata_missing. case_decide; [done|].
      split; simpl; [by apply set_action_explained|by apply set_action_pending]. }
    apply (foldl_invariant_in _ ok); [|done].
    intros s1 r Hin [He1 Hp1]. apply metadata_answer_ok; eauto.
Qed.

Lemma metadata_batches_ok said env total (all : list (list PreflightFile)) completed k bs s s' :
  (∀ i batch answers r, all !! i = Some batch → preflightCheck env i batch = inr answers →
     r ∈ answers → pr_action r = skip → said (pr_id r)) →
  (∀ i batch, bs !! i = Some batch → all !! (k + i)%nat = Some batch) →
  metadata_batches env total completed k bs s = inr s' →
  explained said (md_decisions s) → pending_candidates (md_decisions s) (md_receiverCandidateIds s) →
  explained said (md_decisions s') ∧ pending_candidates (md_decisions s') (md_receiverCandidateIds s').
Proof.
  intros Hsaid. revert k completed s. induction bs as [|batch bs IH]; intros k completed s Hall H He Hp;
    simpl in H; [by simplify_eq|].
  destruct (metadata_batch _ _ _ _ _ _) as [|s1] eqn:Hb; [done|].
  destruct (metadata_batch_ok said _ _ _ _ _ _ _
    ltac:(intros; eapply Hsaid; [|done..]; specialize (Hall 0%nat batch eq_refl); by rewrite Nat.add_0_r in Hall)
    Hb He Hp) as [He1 Hp1].
  apply (IH (S k) _ _) in H; [done| |done..].
  intros i b Hi. specialize (Hall (S i) b Hi). by rewrite <-Nat.add_succ_comm in Hall.
Qed.

Lemma metadata_phase_ok env files s :
  metadata_phase env files = inr s →
  explained (receiver_said env files) (md_decisions s)
  ∧ pending_candidates (md_decisions s) (md_receiverCandidateIds s).
Proof.
  unfold metadata_phase. destruct (metadata_batches _ _ _ _ _ _) as [|s1] eqn:Hb; [done|].
  intros; simplify_eq/=.
  eapply metadata_batches_ok in Hb; [done|..].
  - intros i batch answers r Hi Hc Hr Ha. left. exists i, batch, answers, r. done.
  - done.
  - split; simpl; intros ?; by rewrite lookup_empty.
  - intros id. simpl. by rewrite lookup_empty.
Qed.

(** ** The hash phase *)

(** The native boundary accepts only full SHA-256 values ([hashPreparedFiles_correct]). *)
Definition hashes_nonempty (env : services) : Prop :=
  ∀ k again requests results id sha b ms hit,
    hashFiles env k again requests = inr results → HashSuccess id sha b ms hit ∈ results → truthy sha = true.

Definition hashes_truthy (s : hash_state) : Prop :=
  ∀ id sha, computedHashes s !! id = Some sha → truthy sha = true.

Lemma recordHashResults_hashes results requests s :
  computedHashes (recordHashResults results requests s) = computedHashes s.
Proof.
  unfold recordHashResults. match goal with |- context [foldl _ ?s0 _] => set (s1 := s0) end.
  change (computedHashes s) with (computedHashes s1). generalize s1. clear s1.
  induction results as [|r results IH]; intros s1; simpl; [done|]. rewrite IH.
  unfold record_hash_result. repeat case_match; done.
Qed.

Lemma store_hash_result_truthy s r :
  (∀ id sha b ms hit, r = HashSuccess id sha b ms hit → truthy sha = true) →
  hashes_truthy s → hashes_truthy (store_hash_result s r).
Proof.
  intros Hr Hs. destruct r; simpl; [|by case_bool_decide].
  intros id sha. simpl. rewrite lookup_insert_Some. intros [[<- <-]|[_ ?]]; eauto.
Qed.

Lemma map_by_lookup {A} (key : A → string) xs k x : map_by key xs !! k = Some x → x ∈ xs ∧ key x = k.
Proof.
  unfold map_by. induction xs as [|y xs IH] using rev_ind; [simpl; by rewrite lookup_empty|].
  rewrite foldl_snoc, lookup_insert_Some. intros [[<- <-]|[_ H]].
  - split; [|done]. apply elem_of_app. right. by left.
  - destruct (IH H). split; [|done]. apply elem_of_app. by left.
Qed.

Lemma map_by_is_Some {A} (key : A → string) xs x : x ∈ xs → is_Some (map_by key xs !! key x).
Proof.
  unfold map_by. induction xs as [|y xs IH] using rev_ind; [by intros ?%elem_of_nil|].
  rewrite foldl_snoc. destruct (decide (key y = key x)) as [->|Hne].
  - rewrite lookup_insert_eq. eauto.
  - rewrite lookup_insert_ne by done. intros [?|Hx%list_elem_of_singleton]%elem_of_app; [auto|by subst].
Qed.

Lemma hash_attempt_truthy env k batch s :
  hashes_nonempty env → hashes_truthy s → hashes_truthy (hash_attempt env k batch s).
Proof.
  intros Henv Hs. unfold hash_attempt.
  destruct (hashFiles env k false _) as [|results] eqn:H1; [done|].
  assert (∀ rs again, hashes_truthy (recordHashResults rs again s)) as Hrec.
  { intros rs again id sha. rewrite recordHashResults_hashes. apply Hs. }
  destruct (file_changed_ids results) eqn:Hch.
  - apply (foldl_invariant_in _ hashes_truthy); [|done].
    intros s1 r Hin Hs1. apply store_hash_result_truthy; [|done]. intros; subst. by eapply Henv.
  - destruct (hashFiles env k true _) as [|retried] eqn:H2; [apply Hrec|].
    apply (foldl_invariant_in _ hashes_truthy).
    + intros s1 r Hr Hs1. apply list_elem_of_fmap in Hr as (r0 & -> & Hin). apply store_hash_result_truthy; [|done].
      intros id sha b ms hit Hd. destruct (map_by hash_variantId retried !! hash_variantId r0) eqn:Hl; simpl in Hd.
      * apply map_by_lookup in Hl as [Hl _]. subst. exact (Henv _ _ _ _ _ _ _ _ _ H2 Hl).
      * subst. exact (Henv _ _ _ _ _ _ _ _ _ H1 Hin).
    + intros id sha. rewrite recordHashResults_hashes. apply Hrec.
Qed.

Lemma hash_batches_truthy env total checked k bs s :
  hashes_nonempty env → hashes_truthy s → hashes_truthy (hash_batches env total checked k bs s).
Proof.
  intros Henv. revert checked k s. induction bs as [|b bs IH]; intros checked k s Hs; simpl; [done|].
  apply IH. by apply (hash_attempt_truthy env k b).
Qed.

Lemma hash_phase_truthy env files ids j candidates s :
  hashes_nonempty env → hash_phase env files ids j = (candidates, s) →
  ∀ id sha, computedHashes s !! id = Some sha → truthy sha = true.
Proof.
  intros Henv. unfold hash_phase. destruct (candidates_of files ids). intros; simplify_eq/=.
  eapply hash_batches_truthy; [done| |done]. intros ? ?. simpl. by rewrite lookup_empty.
Qed.

(** ** The verification phase *)

Definition decided (id : string) (d : decisions) : Prop := preflightResults d !! id ≠ Some hash_required.

Lemma set_action_decided id id' a d : a ≠ hash_required → decided id d → decided id (set_action id' a d).
Proof. intros Ha Hd. unfold decided; simpl. rewrite lookup_insert_Some. naive_solver. Qed.

Lemma set_actions_decided ids a id d :
  a ≠ hash_required → decided id d ∨ id ∈ ids → decided id (set_actions ids a d).
Proof.
  intros Ha Hd. unfold decided. rewrite set_actions_lookup. case_decide; [congruence|].
  destruct Hd; done.
Qed.

Lemma verification_answer_explained said s r :
  (pr_action r = skip → said (pr_id r)) → explained said s.1 → explained said (verification_answer s r).1.
Proof.
  destruct s as [d j]. intros Hr He. unfold verification_answer. simpl in *.
  destruct (pr_action r); simpl.
  - by apply set_action_explained.
  - assert (explained said (set_source (pr_id r) receiver_preflight (set_action (pr_id r) skip d)))
      by (apply set_source_explained, set_action_explained; auto).
    destruct (pr_filename r); [case_match|]; simpl; auto.
  - by apply set_action_explained.
Qed.

Lemma verification_answer_decided id s r :
  decided id s.1 ∨ pr_id r = id → decided id (verification_answer s r).1.
Proof.
  destruct s as [d j]. intros Hr. unfold verification_answer. simpl in *.
  assert (∀ a, a ≠ hash_required → decided id (set_action (pr_id r) a d)) as Hset.
  { intros a Ha. unfold decided; simpl. rewrite lookup_insert_Some. naive_solver. }
  destruct (pr_action r) eqn:Ha; simpl.
  - by apply Hset.
  - destruct (pr_filename r); [case_match|]; simpl; by apply (Hset skip).
  - by apply Hset.
Qed.

Lemma verification_answers_decided id answers s :
  decided id s.1 ∨ id ∈ pr_id <$> answers → decided id (foldl verification_answer s answers).1.
Proof.
  revert s. induction answers as [|r answers IH]; intros s H; simpl.
  - destruct H as [?|?%elem_of_nil]; done.
  - apply IH. destruct H as [H|H]; [left; apply verification_answer_decided; by left|].
    simpl in H. apply elem_of_cons in H as [H|H]; [|by right].
    left. apply verification_answer_decided. by right.
Qed.

Lemma verification_batch_ok env files total completed k batch s s' :
  verification_batch env total completed k batch s = inr s' →
  explained (receiver_said env files) s.1 →
  explained (receiver_said env files) s'.1
  ∧ (∀ id, decided id s.1 ∨ id ∈ (λ f, pfl_id (pvf_file f)) <$> batch → decided id s'.1).
Proof.
  destruct s as [d j]. intros H He. unfold verification_batch in H.
  destruct (preflightVerify env k batch) as [error|answers] eqn:Hv.
  - destruct (isUnauthorizedError error); simplify_eq/=. split; [by apply set_actions_explained|].
    intros id Hid. by apply set_actions_decided.
  - destruct (foldl verification_answer _ answers) as [d1 j1] eqn:Hf. simplify_eq/=. split.
    + apply set_actions_explained; [done|]. change d1 with (d1, j1).1. rewrite <-Hf.
      apply (foldl_invariant_in _ (λ s, explained (receiver_said env files) s.1)); [|done].
      intros s r Hr Hs. apply verification_answer_explained; [|done]. intros Ha.
      right. exists k, batch, answers, r. done.
    + intros id Hid. apply set_actions_decided; [done|].
      destruct (decide (id ∈ pr_id <$> answers)) as [Hin|Hout].
      * left. change d1 with (d1, j1).1. rewrite <-Hf. apply verification_answers_decided. by right.
      * destruct Hid as [Hid|Hid].
        -- left. change d1 with (d1, j1).1. rewrite <-Hf. apply verification_answers_decided. by left.
        -- right. by apply list_elem_of_filter.
Qed.

Lemma verification_batches_ok env files total completed k bs s s' :
  verification_batches env total completed k bs s = inr s' →
  explained (receiver_said env files) s.1 →
  explained (receiver_said env files) s'.1
  ∧ (∀ id, decided id s.1 ∨ id ∈ (λ f, pfl_id (pvf_file f)) <$> concat bs → decided id s'.1).
Proof.
  revert completed k s. induction bs as [|b bs IH]; intros completed k s H He; simpl in H.
  { simplify_eq. split; [done|]. intros id [?|?%elem_of_nil]; done. }
  destruct (verification_batch _ _ _ _ _ _) as [|s1] eqn:Hb; [done|].
  destruct (verification_batch_ok _ files _ _ _ _ _ _ Hb He) as [He1 Hd1].
  destruct (IH _ _ _ H He1) as [He' Hd']. split; [done|].
  intros id Hid. apply Hd'. simpl in Hid. rewrite fmap_app, elem_of_app in Hid.
  destruct Hid as [?|[?|?]]; [left; apply Hd1; auto..|by right].
Qed.

Lemma verification_phase_ok env files ids hashes d j d' j' :
  verification_phase env files ids hashes d j = inr (d', j') →
  explained (receiver_said env files) d → pending_candidates d ids →
  explained (receiver_said env files) d'
  ∧ ((∀ id sha, hashes !! id = Some sha → truthy sha = true) → ∀ f, f ∈ files → decided (f_variantId f) d').
Proof.
  intros H He Hp. unfold verification_phase in H.
  set (payload := omap _ ids) in H. set (j0 := match payload with [] => _ | _ => _ end) in H.
  destruct (verification_batches _ _ _ _ _ _) as [|[d1 j1]] eqn:Hb; [done|]. simplify_eq.
  destruct (verification_batches_ok _ files _ _ _ _ _ _ Hb He) as [He1 Hd1]. simpl in *.
  rewrite batches_concat in Hd1 by (unfold PREFLIGHT_BATCH_SIZE; lia). split; [by apply set_actions_explained|].
  intros Htr f Hf. apply set_actions_decided; [done|].
  destruct (decide (decided (f_variantId f) d)) as [?|Hnd]; [left; auto|].
  unfold decided in Hnd. apply dec_stable in Hnd. apply Hp in Hnd.
  destruct (hashes !! f_variantId f) as [sha|] eqn:Hsha.
  - left. apply Hd1. right. apply list_elem_of_fmap.
    destruct (map_by_is_Some f_variantId files f Hf) as [f' Hf'].
    assert (verification_entry (map_by f_variantId files) hashes (f_variantId f) =
      Some {| pvf_file := {| pfl_id := f_variantId f; pfl_name := f_transferFilename f'; pfl_size := f_size f' |};
              pvf_sha256 := sha |}) as Hentry.
    { unfold verification_entry. rewrite Hf', Hsha. cbn [mbind option_bind]. by rewrite (Htr _ _ Hsha). }
    eexists. split; [|apply list_elem_of_omap; eexists; split; [exact Hnd|exact Hentry]]. done.
  - right. by apply list_elem_of_filter.
Qed.

(** ** Groups of equal content *)

Lemma skip_as_fold ids m src d :
  let d' := foldl (skip_as m src) d ids in
  (∀ id, preflightResults d' !! id = if decide (id ∈ ids) then Some skip else preflightResults d !! id)
  ∧ (∀ id, matchedFilenames d' !! id = if decide (id ∈ ids) then Some m else matchedFilenames d !! id).
Proof.
  revert d. induction ids as [|x ids IH]; intros d; simpl; [done|].
  destruct (IH (skip_as m src d x)) as [Hr Hm].
  split; intros id; rewrite ?Hr, ?Hm; simpl; (destruct (decide (id = x)) as [->|Hne];
    [rewrite lookup_insert_eq, (decide_True (P := x ∈ x :: ids)) by left; by case_decide
    |rewrite lookup_insert_ne by done; repeat case_decide; set_solver]).
Qed.

(** What resolving one group does to the files outside it and to the other hashes. *)
Lemma resolve_group_frame d o h files :
  let '(d', o') := resolve_group (d, o) (h, files) in
  (∀ id, id ∉ ids_of files →
     preflightResults d' !! id = preflightResults d !! id
     ∧ matchedFilenames d' !! id = matchedFilenames d !! id)
  ∧ (∀ h', h' ≠ h → o' !! h' = o !! h').
Proof.
  unfold resolve_group. destruct files as [|canonical duplicates]; [done|].
  set (rm := match _ with Some m => if truthy m then Some m else None | None => None end).
  assert (∀ ids m src id, id ∉ ids →
    preflightResults (foldl (skip_as m src) d ids) !! id = preflightResults d !! id
    ∧ matchedFilenames (foldl (skip_as m src) d ids) !! id = matchedFilenames d !! id) as Hf.
  { intros ids m src id Hid. destruct (skip_as_fold ids m src d) as [Hr Hm].
    rewrite Hr, Hm. by rewrite !decide_False. }
  destruct rm as [m|]; simpl; [split; [intros id Hid; exact (Hf _ _ _ _ Hid)|]|].
  { intros h' Hh. by rewrite lookup_insert_ne. }
  destruct (o !! h) as [e|]; split; try done; try (intros id Hid; exact (Hf _ _ _ _ Hid)).
  - intros id Hid. apply (Hf (ids_of duplicates)). unfold ids_of in *. set_solver.
  - intros h' Hh. by rewrite lookup_insert_ne.
Qed.

(** The part of [explained] that concerns the files of one group. *)
Definition explained_for (said : string → Prop) (d : decisions) (ids : list string) : Prop :=
  ∀ id, id ∈ ids →
    (preflightResults d !! id = Some skip → said id) ∧ (∀ m, matchedFilenames d !! id = Some m → said id).

(** A member of the group that is skipped is one the desktop has, or whose content the
    desktop has as another member, or was registered earlier, or is kept as the first. *)
Lemma resolve_group_sound said d o h files id :
  explained_for said d (ids_of files) → NoDup (ids_of files) → id ∈ ids_of files →
  let '(d', o') := resolve_group (d, o) (h, files) in
  preflightResults d' !! id = Some skip →
  said id ∨ is_Some (o !! h)
  ∨ ∃ f, f ∈ files ∧ f_variantId f ≠ id
      ∧ (said (f_variantId f) ∨ preflightResults d' !! f_variantId f ≠ Some skip).
Proof.
  intros Hex Hnd Hid. unfold resolve_group. destruct files as [|canonical duplicates]; [by apply elem_of_nil in Hid|].
  set (files := canonical :: duplicates) in *.
  destruct (group_match d files) as [m|] eqn:Hgm.
  - assert (∃ f, f ∈ files ∧ said (f_variantId f)) as (f & Hf & Hs).
    { unfold group_match in Hgm. apply head_Some_elem_of, list_elem_of_omap in Hgm as (f & Hf & Hmf).
      exists f. split; [done|]. destruct (matchedFilenames d !! f_variantId f) eqn:E; [|done].
      eapply Hex; [|done]. by apply (list_elem_of_fmap_2 f_variantId). }
    destruct (truthy m); simpl.
    + intros _. destruct (decide (f_variantId f = id)) as [<-|Hne]; [by left|]. right; right. exists f. auto.
    + destruct (o !! h) as [e|] eqn:Ho; [by eauto|]. intros _.
      destruct (decide (f_variantId f = id)) as [<-|Hne]; [by left|]. right; right. exists f. auto.
  - destruct (o !! h) as [e|] eqn:Ho; [intros; case_match; by eauto|]. simpl. intros Hskip.
    destruct (skip_as_fold (ids_of duplicates) (f_transferFilename canonical) outgoing_selection d) as [Hr' _].
    rewrite Hr' in Hskip. apply NoDup_cons in Hnd as [Hc Hnd]. case_decide as Hdup; [|left; by apply Hex].
    right; right. exists canonical. split_and!; [left|intros Heq; apply Hc; rewrite Heq; exact Hdup|].
    rewrite Hr', decide_False by done.
    destruct (decide (preflightResults d !! f_variantId canonical = Some skip)) as [?|?]; [left; apply Hex; [left|done]|by right].
Qed.

#[local] Arguments resolve_group : simpl never.

Lemma resolve_groups_frame gs d o id :
  (∀ h g, (h, g) ∈ gs → id ∉ ids_of g) →
  preflightResults (foldl resolve_group (d, o) gs).1 !! id = preflightResults d !! id
  ∧ matchedFilenames (foldl resolve_group (d, o) gs).1 !! id = matchedFilenames d !! id.
Proof.
  revert d o. induction gs as [|[h g] gs IH]; intros d o Hid; simpl; [done|].
  pose proof (resolve_group_frame d o h g) as Hframe.
  destruct (resolve_group (d, o) (h, g)) as [d1 o1]. destruct Hframe as [Hf _].
  destruct (Hf id) as [<- <-]; [eapply Hid; left|]. apply IH. intros h' g' Hin. eapply Hid. by right.
Qed.

Lemma resolve_groups_registry gs d o h :
  h ∉ fst <$> gs → (foldl resolve_group (d, o) gs).2 !! h = o !! h.
Proof.
  revert d o. induction gs as [|[h' g] gs IH]; intros d o Hh; simpl; [done|].
  apply not_elem_of_cons in Hh as [Hne Hh].
  pose proof (resolve_group_frame d o h' g) as Hframe.
  destruct (resolve_group (d, o) (h', g)) as [d1 o1]. destruct Hframe as [_ Ho].
  rewrite IH by done. by apply Ho.
Qed.

Lemma resolve_groups_sound said gs d o :
  (∀ h g, (h, g) ∈ gs → explained_for said d (ids_of g) ∧ NoDup (ids_of g)) →
  NoDup (fst <$> gs) →
  (∀ h g h' g' id, (h, g) ∈ gs → (h', g') ∈ gs → id ∈ ids_of g → id ∈ ids_of g' → h = h') →
  let d' := (foldl resolve_group (d, o) gs).1 in
  ∀ h g id, (h, g) ∈ gs → id ∈ ids_of g → preflightResults d' !! id = Some skip →
  said id ∨ is_Some (o !! h)
  ∨ ∃ f, f ∈ g ∧ f_variantId f ≠ id
      ∧ (said (f_variantId f) ∨ preflightResults d' !! f_variantId f ≠ Some skip).
Proof.
  revert d o. induction gs as [|[h g] gs IH]; intros d o Hex Hnd Hdisj; simpl; [by intros ? ? ? ?%elem_of_nil|].
  apply NoDup_cons in Hnd as [Hh Hnd].
  assert (∀ h' g' id, (h', g') ∈ gs → id ∈ ids_of g → id ∉ ids_of g') as Hapart.
  { intros h' g' id Hin H1 H2. apply Hh. rewrite (Hdisj h g h' g' id); [|left|by right|done..].
    by apply (list_elem_of_fmap_2 fst) in Hin. }
  pose proof (resolve_group_frame d o h g) as Hframe.
  pose proof (λ id, resolve_group_sound said d o h g id (proj1 (Hex h g (list_elem_of_here _ _)))
    (proj2 (Hex h g (list_elem_of_here _ _)))) as Hsound.
  destruct (resolve_group (d, o) (h, g)) as [d1 o1]. destruct Hframe as [Hd Ho].
  intros h2 g2 id [Heq|Hin]%elem_of_cons Hid; simplify_eq.
  - assert (∀ id', id' ∈ ids_of g →
      preflightResults (foldl resolve_group (d1, o1) gs).1 !! id' = preflightResults d1 !! id') as Hsame.
    { intros id' Hid'. apply resolve_groups_frame. intros h' g' Hin. by apply (Hapart h' g'). }
    rewrite Hsame by done. intros Hskip. destruct (Hsound id Hid Hskip) as [?|[?|(f & Hf & Hne & Hk)]]; eauto.
    right; right. exists f. rewrite Hsame by (by apply (list_elem_of_fmap_2 f_variantId)). auto.
  - assert (h2 ≠ h) as Hne by (intros ->; apply Hh; by apply (list_elem_of_fmap_2 fst) in Hin).
    rewrite <-(Ho h2 Hne). eapply IH; try done.
    + intros h' g' Hin'. destruct (Hex h' g') as [He Hn]; [by right|]. split; [|done].
      intros id' Hid'. destruct (Hd id') as [-> ->]; [|by apply He]. intros H. by eapply Hapart.
    + intros h' g' h'' g'' id' H1 H2. apply Hdisj; by right.
Qed.

(** ** The window *)

Lemma filesByHash_spec files hashes :
  NoDup (fst <$> filesByHash files hashes)
  ∧ (∀ h g, (h, g) ∈ filesByHash files hashes →
       g ≠ [] ∧ (∀ f, f ∈ g ↔ f ∈ files ∧ file_hash hashes f = Some h)
       ∧ (NoDup (ids_of files) → NoDup (ids_of g)))
  ∧ (∀ f h, f ∈ files → file_hash hashes f = Some h → ∃ g, (h, g) ∈ filesByHash files hashes ∧ f ∈ g).
Proof.
  unfold filesByHash. set (fs := base.filter _ files). set (key := λ f, default "" (file_hash hashes f)).
  destruct (group_by_spec key fs) as (Hnd & Hg & Hall).
  assert (∀ f h, f ∈ fs ∧ key f = h ↔ f ∈ files ∧ file_hash hashes f = Some h) as Hfs.
  { intros f h. unfold fs, key. rewrite list_elem_of_filter. split.
    - intros [[[h' Hh] Hin] <-]. split; [done|]. by rewrite Hh.
    - intros [Hin ->]. split; [by eauto|done]. }
  split_and!; [done| |].
  - intros h g Hin. destruct (Hg h g Hin) as [-> Hne]. split_and!; [done| |].
    + intros f. rewrite list_elem_of_filter, <-Hfs. naive_solver.
    + intros Hids. by do 2 apply NoDup_fmap_filter.
  - intros f h Hin Hh. destruct (proj2 (Hfs f h) (conj Hin Hh)) as [Hf Hk].
    pose proof (Hall f Hf) as Hkeys. rewrite Hk in Hkeys.
    apply list_elem_of_fmap in Hkeys as ([h' g] & Heq & Hin'). simpl in Heq. subst h'. exists g.
    split; [done|]. destruct (Hg _ _ Hin') as [-> _]. by apply list_elem_of_filter.
Qed.

(** The fields of a result a session reads. *)
Definition skipped (r : PreflightResult) (f : PreparedUploadFile) : Prop :=
  preflightResults (pres_decisions r) !! f_variantId f = Some skip.
Definition content (r : PreflightResult) (f : PreparedUploadFile) : option string :=
  file_hash (pres_computedHashes r) f.

(** A file whose content reaches the desktop: it is not skipped, or the desktop has it. *)
Definition delivered (env : services) (files : list PreparedUploadFile) (r : PreflightResult)
    (f : PreparedUploadFile) : Prop :=
  receiver_said env files (f_variantId f) ∨ ¬ skipped r f.

Lemma no_content f : file_hash ∅ f = None.
Proof. unfold file_hash. by rewrite lookup_empty. Qed.

Lemma window_sound env files reg r reg' :
  NoDup (ids_of files) →
  runDuplicatePreflightWindow env files true reg = inr (r, reg') →
  (∀ f, f ∈ files → skipped r f →
     receiver_said env files (f_variantId f)
     ∨ ∃ h, content r f = Some h
         ∧ (is_Some (reg !! h)
            ∨ ∃ other, other ∈ files ∧ other ≠ f ∧ content r other = Some h ∧ delivered env files r other))
  ∧ (∀ h, is_Some (reg' !! h) →
       is_Some (reg !! h) ∨ ∃ f, f ∈ files ∧ content r f = Some h ∧ delivered env files r f).
Proof.
  intros Hnd H. unfold runDuplicatePreflightWindow in H. simpl negb in H. cbv iota in H.
  destruct (metadata_phase env files) as [|md] eqn:Hmd; [done|].
  destruct (metadata_phase_ok _ _ _ Hmd) as [He Hp].
  destruct (nativeAvailable env); simpl negb in H; cbv iota in H.
  2:{ simplify_eq. split; [|by left]. intros f _ Hs. left. unfold skipped in Hs; simpl in Hs.
      rewrite set_actions_lookup in Hs. case_decide; [done|]. by apply He. }
  destruct (hash_phase _ _ _ _) as [candidates hs].
  destruct (verification_phase _ _ _ _ _ _) as [|[d j]] eqn:Hv; [done|].
  destruct (foldl resolve_group _ _) as [d' outgoing] eqn:Hgroups. simplify_eq.
  destruct (verification_phase_ok _ _ _ _ _ _ _ _ Hv He Hp) as [Hed _].
  destruct (filesByHash_spec files (computedHashes hs)) as (Hkeys & Hg & Hall).
  assert (∀ h g id, (h, g) ∈ filesByHash files (computedHashes hs) → id ∈ ids_of g →
    ∃ f, f ∈ g ∧ f ∈ files ∧ f_variantId f = id ∧ file_hash (computedHashes hs) f = Some h) as Hmem.
  { intros h g id Hin (f & -> & Hf)%list_elem_of_fmap. destruct (Hg h g Hin) as (_ & Hfg & _).
    apply Hfg in Hf as Hf'. exists f. naive_solver. }
  assert (∀ h g h' g' id, (h, g) ∈ filesByHash files (computedHashes hs) →
    (h', g') ∈ filesByHash files (computedHashes hs) → id ∈ ids_of g → id ∈ ids_of g' → h = h') as Hdisj.
  { intros h g h' g' id H1 H2 Hi1 Hi2.
    destruct (Hmem h g id H1 Hi1) as (f1 & _ & Hin1 & Hid1 & Hh1).
    destruct (Hmem h' g' id H2 Hi2) as (f2 & _ & Hin2 & Hid2 & Hh2).
    unfold file_hash in *. rewrite Hid1 in Hh1. rewrite Hid2 in Hh2. congruence. }
  pose proof (resolve_groups_sound (receiver_said env files) (filesByHash files (computedHashes hs)) d reg) as Hsound.
  rewrite Hgroups in Hsound. simpl in Hsound.
  assert (∀ h g id, (h, g) ∈ filesByHash files (computedHashes hs) → id ∈ ids_of g →
    preflightResults d' !! id = Some skip →
    receiver_said env files id ∨ is_Some (reg !! h) ∨ ∃ f, f ∈ g ∧ f_variantId f ≠ id
      ∧ (receiver_said env files (f_variantId f) ∨ preflightResults d' !! f_variantId f ≠ Some skip)) as Hs.
  { apply Hsound; [|done|done]. intros h g Hin. destruct (Hg h g Hin) as (_ & _ & Hnd').
    split; [|by apply Hnd']. intros id _. split; [apply Hed|intros m; apply Hed]. }
  clear Hsound. split.
  - intros f Hf Hskip. unfold skipped in Hskip; simpl in Hskip.
    destruct (file_hash (computedHashes hs) f) as [h|] eqn:Hh.
    + destruct (Hall f h Hf Hh) as (g & Hin & Hfg).
      destruct (Hs h g (f_variantId f) Hin) as [?|[?|(o & Ho & Hne & Hk)]];
        [by apply (list_elem_of_fmap_2 f_variantId)|done|by left|right..].
      * exists h. split; [done|by left].
      * exists h. split; [done|right]. exists o. destruct (Hg h g Hin) as (_ & Hfg' & _).
        apply Hfg' in Ho as [Ho Hoh]. split_and!; [done|by intros ->|done|exact Hk].
    + left. apply Hed. rewrite <-Hskip.
      assert (preflightResults (foldl resolve_group (d, reg) (filesByHash files (computedHashes hs))).1
        !! f_variantId f = preflightResults d !! f_variantId f) as Heq.
      { apply resolve_groups_frame. intros h g Hin Hid.
        destruct (Hmem h g _ Hin Hid) as (f' & _ & Hf' & Hid' & Hh').
        unfold file_hash in *. rewrite Hid' in Hh'. congruence. }
      rewrite Hgroups in Heq. done.
  - intros h Hreg. destruct (decide (h ∈ fst <$> filesByHash files (computedHashes hs))) as [Hin|Hout].
    + apply list_elem_of_fmap in Hin as ([h0 g] & Heq & Hin). simpl in Heq. subst h0.
      destruct (Hg h g Hin) as (Hne & Hfg & _). destruct g as [|c g]; [done|].
      assert (c ∈ files ∧ file_hash (computedHashes hs) c = Some h) as [Hc Hch] by (apply Hfg; left).
      destruct (decide (preflightResults d' !! f_variantId c = Some skip)) as [Hskip|Hkeep].
      * destruct (Hs h (c :: g) (f_variantId c) Hin) as [?|[?|(o & Ho & _ & Hk)]]; [left|done|..].
        -- right. exists c. split_and!; [done..|by left].
        -- by left.
        -- right. exists o. apply Hfg in Ho as [? ?]. split_and!; [done..|exact Hk].
      * right. exists c. split_and!; [done..|by right].
    + left. pose proof (resolve_groups_registry (filesByHash files (computedHashes hs)) d reg h Hout) as Heq.
      rewrite Hgroups in Heq. simpl in Heq. by rewrite <-Heq.
Qed.

(** ** A session of windows *)

(** The windows of a session share one registry, in order ([UploadManager], [outgoingHashes]);
    the first error ends the session. *)
Fixpoint preflight_session (ws : list (services * list PreparedUploadFile)) (reg : OutgoingHashRegistry)
    : thrown + list (services * list PreparedUploadFile * PreflightResult) :=
  match ws with
  | [] => inr []
  | (env, files) :: ws =>
    match runDuplicatePreflightWindow env files true reg with
    | inl error => inl error
    | inr (r, reg) =>
      match preflight_session ws reg with
      | inl error => inl error
      | inr rest => inr ((env, files, r) :: rest)
      end
    end
  end.

(** Some file of the windows has this content and reaches the desktop. *)
Definition content_delivered (hist : list (services * list PreparedUploadFile * PreflightResult))
    (h : string) : Prop :=
  ∃ env files r f, (env, files, r) ∈ hist ∧ f ∈ files ∧ content r f = Some h ∧ delivered env files r f.

Lemma content_delivered_app hist1 hist2 h :
  content_delivered hist1 h → content_delivered (hist1 ++ hist2) h.
Proof. intros (env & files & r & f & Hin & H). exists env, files, r, f. split; [set_solver|done]. Qed.

Lemma preflight_session_sound ws reg hist before :
  (∀ env files, (env, files) ∈ ws → NoDup (ids_of files)) →
  (∀ h, is_Some (reg !! h) → content_delivered before h) →
  preflight_session ws reg = inr hist →
  ∀ hist1 env files r hist2 f, hist = hist1 ++ (env, files, r) :: hist2 → f ∈ files → skipped r f →
  receiver_said env files (f_variantId f)
  ∨ ∃ h, content r f = Some h ∧ content_delivered (before ++ hist1 ++ [(env, files, r)]) h.
Proof.
  revert reg hist before. induction ws as [|[env0 files0] ws IH]; intros reg hist before Hnd Hreg H; simpl in H.
  { simplify_eq. intros [|] *; done. }
  destruct (runDuplicatePreflightWindow _ _ _ _) as [|[r0 reg']] eqn:Hrun; [done|].
  destruct (preflight_session ws reg') as [|rest] eqn:Hrest; [done|]. simplify_eq.
  destruct (window_sound env0 files0 reg r0 reg') as [Hskip Hreg']; [eapply Hnd; left|done|].
  intros [|w hist1] env files r hist2 f Heq Hf Hsk; simplify_eq/=.
  - destruct (Hskip f Hf Hsk) as [?|(h & Hh & Hk)]; [by left|right]. exists h. split; [done|].
    destruct Hk as [Hr|(o & Ho & _ & Hoh & Hod)]; [by apply content_delivered_app, Hreg|].
    exists env, files, r, o. split; [set_solver|done].
  - change (before ++ (env0, files0, r0) :: hist1 ++ [(env, files, r)]) with
      (before ++ [(env0, files0, r0)] ++ (hist1 ++ [(env, files, r)])).
    rewrite (app_assoc before [_]).
    eapply IH; [..|done|done|done|done].
    + intros env' files' Hin. eapply Hnd. by right.
    + intros h Hh. destruct (Hreg' h Hh) as [Hold|(o & Ho & Hoh & Hod)].
      * by apply content_delivered_app, Hreg.
      * exists env0, files0, r0, o. split; [set_solver|done].
Qed.

(** C8: duplicate detection never loses content. In a session whose windows identify their
    files uniquely, a file is skipped only if the desktop itself answered [skip] for it, or a
    file with the same SHA-256, in the same or an earlier window, is not skipped or is one the
    desktop answered [skip] for. *)
Theorem preflight_session_content_safe ws hist :
  (∀ env files, (env, files) ∈ ws → NoDup (ids_of files)) →
  preflight_session ws ∅ = inr hist →
  ∀ hist1 env files r hist2 f, hist = hist1 ++ (env, files, r) :: hist2 → f ∈ files → skipped r f →
  receiver_said env files (f_variantId f)
  ∨ ∃ h, content r f = Some h ∧ content_delivered (hist1 ++ [(env, files, r)]) h.
Proof.
  intros Hnd H hist1 env files r hist2 f Heq Hf Hs.
  apply (preflight_session_sound ws ∅ hist [] Hnd) with (hist2 := hist2); try done.
  intros h [? Hh]. by rewrite lookup_empty in Hh.
Qed.

(** ** Errors and decisions *)

Lemma metadata_batches_error env total completed k bs s error :
  metadata_batches env total completed k bs s = inl error → isUnauthorizedError error = true.
Proof.
  revert completed k s. induction bs as [|b bs IH]; intros completed k s H; simpl in H; [done|].
  destruct (metadata_batch _ _ _ _ _ _) eqn:Hb; [|by eapply IH]. simplify_eq.
  unfold metadata_batch in Hb. destruct (preflightCheck env k b) as [e|]; [|done].
  destruct (isUnauthorizedError e) eqn:?; by simplify_eq.
Qed.

Lemma metadata_phase_error env files error :
  metadata_phase env files = inl error → isUnauthorizedError error = true.
Proof.
  unfold metadata_phase. destruct (metadata_batches _ _ _ _ _ _) eqn:H; intros; simplify_eq.
  by eapply metadata_batches_error.
Qed.

Lemma verification_batches_error env total completed k bs s error :
  verification_batches env total completed k bs s = inl error → isUnauthorizedError error = true.
Proof.
  revert completed k s. induction bs as [|b bs IH]; intros completed k s H; simpl in H; [done|].
  destruct (verification_batch _ _ _ _ _ _) eqn:Hb; [|by eapply IH]. simplify_eq.
  unfold verification_batch in Hb. destruct s. destruct (preflightVerify env k b) as [e|]; [|by case_match].
  destruct (isUnauthorizedError e) eqn:?; by simplify_eq.
Qed.

Lemma verification_phase_error env files ids hashes d j error :
  verification_phase env files ids hashes d j = inl error → isUnauthorizedError error = true.
Proof.
  unfold verification_phase. destruct (verification_batches _ _ _ _ _ _) as [|[]] eqn:H; intros; simplify_eq.
  by eapply verification_batches_error.
Qed.

Lemma skip_as_decided ids m src id d : decided id d → decided id (foldl (skip_as m src) d ids).
Proof.
  intros Hd. unfold decided. destruct (skip_as_fold ids m src d) as [-> _]. by case_decide.
Qed.

Lemma resolve_group_decided id d o h g :
  decided id d → decided id (resolve_group (d, o) (h, g)).1.
Proof.
  intros Hd. unfold resolve_group. destruct g as [|c g]; [done|].
  repeat case_match; exact (skip_as_decided _ _ _ id d Hd).
Qed.

(** The window always ends with a decision for every file: nothing is left waiting for
    a hash; when duplicates are not to be skipped everything is uploaded and nobody is asked;
    only an expired session ends it early. *)
Lemma preflight_decides env files shouldSkip reg :
  match runDuplicatePreflightWindow env files shouldSkip reg with
  | inl error => shouldSkip = true ∧ isUnauthorizedError error = true
  | inr (r, reg') =>
      (hashes_nonempty env → ∀ f, f ∈ files → decided (f_variantId f) (pres_decisions r))
      ∧ (shouldSkip = false → reg' = reg ∧ counters (pres_journal r) metadataRequestCount = 0
           ∧ ∀ f, f ∈ files → preflightResults (pres_decisions r) !! f_variantId f = Some upload)
  end.
Proof.
  unfold runDuplicatePreflightWindow. destruct shouldSkip; simpl negb; cbv iota.
  2:{ split; [intros _ f Hf; by apply set_actions_decided; [|right; apply list_elem_of_fmap_2]|].
      intros _. split_and!; [done|done|]. intros f Hf. simpl.
      rewrite set_actions_lookup, decide_True; [done|]. by apply list_elem_of_fmap_2. }
  destruct (metadata_phase env files) as [error|md] eqn:Hmd.
  { split; [done|]. by apply metadata_phase_error in Hmd. }
  destruct (metadata_phase_ok _ _ _ Hmd) as [He Hp].
  destruct (nativeAvailable env); simpl negb; cbv iota.
  2:{ split; [|done]. intros _ f Hf. simpl. unfold decided. rewrite set_actions_lookup.
      case_decide as Hin; [done|]. intros Hh. apply Hin. by apply Hp. }
  destruct (hash_phase _ _ _ _) as [candidates hs] eqn:Hhash.
  destruct (verification_phase _ _ _ _ _ _) as [error|[d j]] eqn:Hv.
  { split; [done|]. by apply verification_phase_error in Hv. }
  destruct (verification_phase_ok _ _ _ _ _ _ _ _ Hv He Hp) as [_ Hdec].
  destruct (foldl resolve_group _ _) as [d' outgoing] eqn:Hgroups. split; [|done].
  intros Henv f Hf. simpl. change d' with (d', outgoing).1. rewrite <-Hgroups.
  apply (foldl_invariant_in _ (λ s, decided (f_variantId f) s.1)).
  - intros [d1 o1] [h g] _ Hd1. by apply resolve_group_decided.
  - apply Hdec; [|done]. by eapply hash_phase_truthy.
Qed.

(** ** Counters *)

Definition is_skipped (d : decisions) (f : PreparedUploadFile) : bool :=
  bool_decide (preflightResults d !! f_variantId f = Some skip).
Definition is_outgoing (d : decisions) (f : PreparedUploadFile) : bool :=
  bool_decide (duplicateSources d !! f_variantId f = Some outgoing_selection).

Definition skipped_where (P : PreparedUploadFile → bool) (d : decisions) (w : PreparedUploadFile → Z)
    (files : list PreparedUploadFile) : Z :=
  sumZ (λ f, if is_skipped d f && P f then w f else 0) files.

Lemma capture_step d hashes j f :
  let j' := captureOutcomeMetrics [f] d hashes j in
  counters j' outgoingSkippedFiles
    = counters j outgoingSkippedFiles + (if is_skipped d f && is_outgoing d f then 1 else 0)
  ∧ counters j' outgoingSkippedBytes
    = counters j outgoingSkippedBytes + (if is_skipped d f && is_outgoing d f then f_size f else 0)
  ∧ counters j' receiverSkippedFiles
    = counters j receiverSkippedFiles + (if is_skipped d f && negb (is_outgoing d f) then 1 else 0)
  ∧ counters j' receiverSkippedBytes
    = counters j receiverSkippedBytes + (if is_skipped d f && negb (is_outgoing d f) then f_size f else 0)
  ∧ failureCount j' = failureCount j ∧ progress j' = progress j.
Proof.
  unfold captureOutcomeMetrics, is_skipped, is_outgoing. simpl.
  destruct (preflightResults d !! f_variantId f) as [[]|]; simpl;
    repeat (case_bool_decide; simpl; try congruence);
    unfold add_metric, set_metric; repeat (case_decide; try congruence); split_and!; lia || done.
Qed.

(** The reported skips are exactly the window's skipped files and bytes, each counted
    once, as an outgoing duplicate when the window's own content decided it and as the
    desktop's otherwise. *)
Lemma captureOutcomeMetrics_correct files d hashes j :
  let c := counters (captureOutcomeMetrics files d hashes j) in
  let c0 := counters j in
  c outgoingSkippedFiles = c0 outgoingSkippedFiles + skipped_where (is_outgoing d) d (λ _, 1) files
  ∧ c outgoingSkippedBytes = c0 outgoingSkippedBytes + skipped_where (is_outgoing d) d f_size files
  ∧ c receiverSkippedFiles = c0 receiverSkippedFiles + skipped_where (λ f, negb (is_outgoing d f)) d (λ _, 1) files
  ∧ c receiverSkippedBytes = c0 receiverSkippedBytes + skipped_where (λ f, negb (is_outgoing d f)) d f_size files.
Proof.
  simpl. unfold skipped_where. revert j. induction files as [|f files IH]; intros j.
  { unfold captureOutcomeMetrics. simpl. rewrite !sumZ_nil. lia. }
  change (captureOutcomeMetrics (f :: files) d hashes j) with
    (captureOutcomeMetrics files d hashes (captureOutcomeMetrics [f] d hashes j)).
  destruct (capture_step d hashes j f) as (H1 & H2 & H3 & H4 & _).
  destruct (IH (captureOutcomeMetrics [f] d hashes j)) as (-> & -> & -> & ->).
  rewrite !sumZ_cons, H1, H2, H3, H4. lia.
Qed.

(** ** A concrete session *)

Definition sample_asset : MediaAsset :=
  {| asset_id := "a"; asset_uri := "ph://a"; asset_type := photo; asset_filename := "IMG_1.HEIC" |}.
Definition sample_file (id name : string) : PreparedUploadFile :=
  {| f_asset := sample_asset; f_variantId := id; f_mediaRole := original_photo;
     f_componentSemantics := primary; f_originalFilename := name; f_fileRef := 1; f_windowIndex := 0;
     f_nativeUri := "file:///x"; f_size := 10; f_computedHash := ""; f_transferFilename := name;
     f_filenameSource := apple_resource; f_temporary := Some true; f_contentType := None;
     f_materializationPath := None; f_materializationDurationMs := None;
     f_temporaryBytesWritten := None; f_preflightAction := None;
     f_duplicateMatchedFilename := None; f_duplicateSource := None; f_preflightFailureCode := None |}.

(** A desktop that knows nothing, and a hasher for which every file has the same content. *)
Definition sample_services : services :=
  {| nativeAvailable := true;
     preflightCheck := λ _ fs, inr ((λ f, {| pr_id := pfl_id f; pr_action := upload; pr_filename := None;
                                            pr_inconclusive := false |}) <$> fs);
     preflightVerify := λ _ _, inl (ThrownOther "unavailable");
     hashFiles := λ _ _ rs, inr ((λ r, HashSuccess (hr_variantId r) "5a5a" (Finite 10) (Finite 1) false) <$> rs) |}.

Definition sample_window : list PreparedUploadFile := [sample_file "v1" "A.HEIC"; sample_file "v2" "B.HEIC"].

Definition sample_result : PreflightResult :=
  match runDuplicatePreflightWindow sample_services sample_window true ∅ with
  | inr (r, _) => r
  | inl _ => bypass []
  end.

Lemma sample_session :
  preflight_session [(sample_services, sample_window)] ∅ = inr [(sample_services, sample_window, sample_result)].
Proof.
  unfold preflight_session, sample_result.
  assert (match runDuplicatePreflightWindow sample_services sample_window true ∅ with
          | inr _ => true | inl _ => false end = true) as Hok by reflexivity.
  by destruct (runDuplicatePreflightWindow _ _ _ _) as [|[r reg]].
Qed.

Lemma preflight_session_content_safe_witness :
  skipped sample_result (sample_file "v2" "B.HEIC")
  ∧ (receiver_said sample_services sample_window "v2"
     ∨ ∃ h, content sample_result (sample_file "v2" "B.HEIC") = Some h
         ∧ content_delivered ([] ++ [(sample_services, sample_window, sample_result)]) h).
Proof.
  assert (skipped sample_result (sample_file "v2" "B.HEIC")) as Hs by reflexivity.
  split; [exact Hs|].
  refine (preflight_session_content_safe [(sample_services, sample_window)] _ _ sample_session
    [] sample_services sample_window sample_result [] (sample_file "v2" "B.HEIC") eq_refl _ Hs).
  - intros env files [= -> ->]%list_elem_of_singleton.
    by apply (bool_decide_unpack (NoDup (ids_of sample_window))).
  - right. left.
Defined.

Lemma preflight_decides_witness :
  match runDuplicatePreflightWindow sample_services sample_window false ∅ with
  | inr (r, reg') => preflightResults (pres_decisions r) !! "v1" = Some upload
  | inl _ => False
  end.
Proof.
  pose proof (preflight_decides sample_services sample_window false ∅) as H.
  vm_compute in H |- *. destruct H as [_ H]. specialize (H eq_refl). apply (proj2 (proj2 H) (sample_file "v1" "A.HEIC")).
  left.
Defined.
