(* ===== verification/Prepare.v ===== *)
(** * Preparation of a window of assets ([services/upload/prepareAssets.ts])

    Two paths produce a window: the native module, whose answer is the input, and the Expo
    fallback, whose up to eight metadata workers interleave freely. Durations are not
    modelled. Progress records keep the fields that vary; the others are constants. *)

From S2P Require Import Prelude Js UploadTypes Native.

(* src: services/upload/prepareAssets.ts:15-15 [NATIVE_FILENAME_BATCH_SIZE] *)
Definition NATIVE_FILENAME_BATCH_SIZE : Z := 250.
(* src: services/upload/prepareAssets.ts:16-16 [METADATA_CONCURRENCY] *)
Definition METADATA_CONCURRENCY : nat := 8.

Record PreparationProgress := {
  pg_currentIndex : Z;
  pg_currentAsset : MediaAsset;
  pg_readyFiles : Z;
  pg_totalFiles : Z;
  pg_discoveredBytes : Z }.

(** [`${asset.id}:failure:${fileRef}`]. *)
Definition failure_item_id (show : Z → string) (asset : MediaAsset) (fileRef : Z) : string :=
  asset_id asset +:+ ":failure:" +:+ show fileRef.

Section prepare.
(** How a number is written in a template string, and the arguments of the window. *)
Context (show : Z → string).
Context (assets : list MediaAsset) (sessionRef : string).
Context (startIndex windowIndex totalSelectedFiles : Z).
Context (alreadyPreparedFiles alreadyReadyFiles alreadyDiscoveredBytes : Z).

(* src: services/upload/prepareAssets.ts:29-38 [preparationFailure] *)
Definition preparationFailure (asset : MediaAsset) (fileRef : Z) (stage : TransferStage)
    (code : TransferErrorCode) (itemId : option string) : PreparationFailure :=
  {| pf_asset := asset;
     pf_itemId := default (failure_item_id show asset fileRef) itemId;
     pf_mediaRole := None; pf_componentSemantics := None; pf_originalFilename := None;
     pf_fileRef := fileRef; pf_windowIndex := windowIndex; pf_stage := stage; pf_code := code |}.

(** ** The native path *)

(* src: services/upload/prepareAssets.ts:81-107 [prepareAssetWindow] *)
Definition native_progress (cancelled : bool) (completedAssets nativeTotalAssets : Z)
    : option PreparationProgress :=
  if cancelled || negb (nativeTotalAssets =? lengthZ assets) then None else
  let clampedCompleted := Z.max 0 (Z.min (lengthZ assets) completedAssets) in
  currentAsset ← match assets !! Z.to_nat (Z.max 0 (clampedCompleted - 1)) with
                 | Some a => Some a
                 | None => head assets
                 end;
  Some {| pg_currentIndex := alreadyPreparedFiles + clampedCompleted;
          pg_currentAsset := currentAsset; pg_readyFiles := alreadyReadyFiles;
          pg_totalFiles := totalSelectedFiles; pg_discoveredBytes := alreadyDiscoveredBytes |}.

Definition result_assetId {N} (r : NativePreparationResult N) : option string :=
  match r with PreparationReady r => nr_assetId r | PreparationFailed f => nf_assetId f end.
Definition result_fileRef {N} (r : NativePreparationResult N) : Z :=
  match r with PreparationReady r => nr_fileRef r | PreparationFailed f => nf_fileRef f end.

(** [if (result.assetId)]: an empty identifier is falsy. *)
Definition named_asset {N} (r : NativePreparationResult N) : option string :=
  a ← result_assetId r; if truthy a then Some a else None.

(* src: services/upload/prepareAssets.ts:110-122 [prepareAssetWindow] *)
Definition resultsByAssetId (results : list (NativePreparationResult Z))
    : list (string * list (NativePreparationResult Z)) :=
  group_by (λ r, default "" (named_asset r)) (base.filter (λ r, is_Some (named_asset r)) results).

(* src: services/upload/prepareAssets.ts:110-122 [prepareAssetWindow] *)
Definition resultsByFileRef (results : list (NativePreparationResult Z))
    : list (Z * list (NativePreparationResult Z)) :=
  group_by result_fileRef (base.filter (λ r, named_asset r = None) results).

(** [map.get(key)]. *)
Definition group_get {K} `{EqDecision K} {A} (k : K) (groups : list (K * list A)) : option (list A) :=
  head (omap (λ e, if decide (e.1 = k) then Some e.2 else None) groups).

(* src: services/upload/prepareAssets.ts:132-134 [prepareAssetWindow] *)
Definition assetResults (results : list (NativePreparationResult Z)) (asset : MediaAsset)
    (sourceFileRef : Z) : list (NativePreparationResult Z) :=
  match group_get (asset_id asset) (resultsByAssetId results) with
  | Some g => g
  | None => default [] (group_get sourceFileRef (resultsByFileRef results))
  end.

(* src: services/upload/prepareAssets.ts:168-187 [prepareAssetWindow] *)
Definition native_file (asset : MediaAsset) (r : NativeReady Z) : PreparedUploadFile :=
  {| f_asset := asset;
     f_variantId := js_or (nr_variantId r) (sessionRef +:+ "-" +:+ show (nr_fileRef r));
     f_mediaRole := nr_mediaRole r;
     f_componentSemantics := nr_componentSemantics r;
     f_originalFilename := js_or (nr_originalFilename r) (nr_transferFilename r);
     f_fileRef := nr_fileRef r;
     f_windowIndex := windowIndex;
     f_nativeUri := nr_localUri r;
     f_size := nr_sizeBytes r;
     f_computedHash := "";
     f_transferFilename := nr_transferFilename r;
     f_filenameSource := apple_resource;
     f_temporary := Some (nr_temporary r);
     f_contentType := nr_contentType r;
     f_materializationPath := Some (nr_materializationPath r);
     f_materializationDurationMs := Some (Finite (nr_materializationDurationMs r));
     f_temporaryBytesWritten := Some (Finite (nr_temporaryBytesWritten r));
     f_preflightAction := None; f_duplicateMatchedFilename := None;
     f_duplicateSource := None; f_preflightFailureCode := None |}.

(* src: services/upload/prepareAssets.ts:146-158 [prepareAssetWindow] *)
Definition native_failure (asset : MediaAsset) (f : NativeFailed) : PreparationFailure :=
  {| pf_asset := asset; pf_itemId := nf_variantId f;
     pf_mediaRole := Some (nf_mediaRole f);
     pf_componentSemantics := Some (nf_componentSemantics f);
     pf_originalFilename := Some (nf_originalFilename f);
     pf_fileRef := nf_fileRef f; pf_windowIndex := windowIndex;
     pf_stage := nf_stage f; pf_code := nf_errorCode f |}.

(* src: services/upload/prepareAssets.ts:123-128 [prepareAssetWindow] *)
Record native_state := {
  ns_files : list PreparedUploadFile;
  ns_failures : list PreparationFailure;
  ns_discoveredBytes : Z;
  ns_selectedMediaBytes : Z;
  ns_additionalComponentsBytes : Z;
  ns_readyInWindow : Z }.

(* src: services/upload/prepareAssets.ts:144-188 [prepareAssetWindow] *)
Definition native_result (asset : MediaAsset) (s : native_state) (r : NativePreparationResult Z)
    : native_state :=
  match r with
  | PreparationFailed f =>
    {| ns_files := ns_files s; ns_failures := ns_failures s ++ [native_failure asset f];
       ns_discoveredBytes := ns_discoveredBytes s; ns_selectedMediaBytes := ns_selectedMediaBytes s;
       ns_additionalComponentsBytes := ns_additionalComponentsBytes s;
       ns_readyInWindow := ns_readyInWindow s |}
  | PreparationReady r =>
    let extra := bool_decide (nr_componentSemantics r = optional) in
    {| ns_files := ns_files s ++ [native_file asset r]; ns_failures := ns_failures s;
       ns_discoveredBytes := ns_discoveredBytes s + nr_sizeBytes r;
       ns_selectedMediaBytes := ns_selectedMediaBytes s + (if extra then 0 else nr_sizeBytes r);
       ns_additionalComponentsBytes := ns_additionalComponentsBytes s + (if extra then nr_sizeBytes r else 0);
       ns_readyInWindow := ns_readyInWindow s + 1 |}
  end.

(* src: services/upload/prepareAssets.ts:129-189 [prepareAssetWindow] *)
Fixpoint native_assets (results : list (NativePreparationResult Z)) (localIndex : Z)
    (remaining : list MediaAsset) (s : native_state) : native_state :=
  match remaining with
  | [] => s
  | asset :: remaining =>
    let sourceFileRef := startIndex + localIndex + 1 in
    let found := assetResults results asset sourceFileRef in
    let s :=
      match found with
      | [] =>
        {| ns_files := ns_files s;
           ns_failures := ns_failures s ++
             [preparationFailure asset sourceFileRef stage_rendition asset_info_unavailable None];
           ns_discoveredBytes := ns_discoveredBytes s; ns_selectedMediaBytes := ns_selectedMediaBytes s;
           ns_additionalComponentsBytes := ns_additionalComponentsBytes s;
           ns_readyInWindow := ns_readyInWindow s |}
      | _ => foldl (native_result asset) s found
      end in
    native_assets results (localIndex + 1) remaining s
  end.

Definition is_optional (s : option MediaComponentSemantics) : bool := bool_decide (s = Some optional).

(* src: services/upload/prepareAssets.ts:74-231 [prepareAssetWindow] *)
Definition prepareNativeWindow (cancelled : bool) (results : list (NativePreparationResult Z))
    : option (PreparedWindow * option PreparationProgress) :=
  if cancelled then None else
  let s := native_assets results 0 assets
    {| ns_files := []; ns_failures := []; ns_discoveredBytes := 0; ns_selectedMediaBytes := 0;
       ns_additionalComponentsBytes := 0; ns_readyInWindow := 0 |} in
  Some
    ({| pw_windowIndex := windowIndex;
        pw_files := ns_files s;
        pw_failures := ns_failures s;
        pw_filenameResolutionAppleCount := lengthZ (ns_files s);
        pw_discoveredBytes := ns_discoveredBytes s;
        pw_selectedMediaBytes := ns_selectedMediaBytes s;
        pw_additionalComponentsBytes := ns_additionalComponentsBytes s;
        pw_selectedMediaFiles :=
          lengthZ (base.filter (λ f, f_componentSemantics f = primary) (ns_files s))
          + lengthZ (base.filter (λ f, is_optional (pf_componentSemantics f) = false) (ns_failures s));
        pw_additionalComponentsFiles :=
          lengthZ (base.filter (λ f, f_componentSemantics f = optional) (ns_files s))
          + lengthZ (base.filter (λ f, is_optional (pf_componentSemantics f) = true) (ns_failures s)) |},
     match last assets with
     | Some finalAsset =>
       Some {| pg_currentIndex := alreadyPreparedFiles + lengthZ assets; pg_currentAsset := finalAsset;
               pg_readyFiles := alreadyReadyFiles + ns_readyInWindow s;
               pg_totalFiles := totalSelectedFiles;
               pg_discoveredBytes := alreadyDiscoveredBytes + ns_discoveredBytes s |}
     | None => None
     end).

(** ** The Expo path: metadata workers *)

(** What [getAssetInfoAsync] and [getInfoAsync] say about an asset: the local file, when the
    library knows one, and the file information of the address used, when it can be read. *)
Record file_info := { fi_exists : bool; fi_isDirectory : bool; fi_size : Z }.
Context (localUri : MediaAsset → option string) (getInfo : string → option file_info).

(* src: services/upload/prepareAssets.ts:18-27 [getNativeFileUri] *)
Definition getNativeFileUri (asset : MediaAsset) : string :=
  match localUri asset with Some u => if truthy u then u else asset_uri asset | None => asset_uri asset end.

(* src: services/upload/prepareAssets.ts:255-271 [metadataWorker] *)
Definition expo_file (asset : MediaAsset) (fileRef : Z) (size : Z) : PreparedUploadFile :=
  {| f_asset := asset;
     f_variantId := sessionRef +:+ "-" +:+ show fileRef;
     f_mediaRole := expo_fallback_role;
     f_componentSemantics := primary;
     f_originalFilename := asset_filename asset;
     f_fileRef := fileRef;
     f_windowIndex := windowIndex;
     f_nativeUri := getNativeFileUri asset;
     f_size := size;
     f_computedHash := "";
     f_transferFilename := asset_filename asset;
     f_filenameSource := expo_fallback;
     f_temporary := None;
     f_contentType := None;
     f_materializationPath := Some expo_direct;
     f_materializationDurationMs := Some (Finite 0);
     f_temporaryBytesWritten := Some (Finite 0);
     f_preflightAction := None; f_duplicateMatchedFilename := None;
     f_duplicateSource := None; f_preflightFailureCode := None |}.

(** The outcome of one asset. *)
(* src: services/upload/prepareAssets.ts:244-276 [metadataWorker] *)
Definition expo_outcome (localIndex : nat) (asset : MediaAsset) : PreparationFailure + PreparedUploadFile :=
  let fileRef := startIndex + Z.of_nat localIndex + 1 in
  let failed code := inl (preparationFailure asset fileRef stage_metadata code None) in
  match getInfo (getNativeFileUri asset) with
  | None => failed file_size_unavailable
  | Some info =>
    if negb (fi_exists info) || fi_isDirectory info then failed file_missing else
    if fi_size info <=? 0 then failed file_empty else
    inr (expo_file asset fileRef (fi_size info))
  end.

(* src: services/upload/prepareAssets.ts:233-238 [prepareAssetWindow] *)
Record expo_state := {
  es_candidates : list (option PreparedUploadFile);
  es_failures : list PreparationFailure;
  es_metadataCursor : nat;
  es_completedInWindow : Z;
  es_discoveredBytes : Z;
  es_readyInWindow : Z;
  es_inFlight : list nat;       (** the assets the workers are waiting for *)
  es_idleWorkers : nat;         (** workers at the head of their loop *)
  es_progress : list PreparationProgress }.

Definition expo_start : expo_state :=
  {| es_candidates := replicate (length assets) None; es_failures := []; es_metadataCursor := 0;
     es_completedInWindow := 0; es_discoveredBytes := 0; es_readyInWindow := 0; es_inFlight := [];
     es_idleWorkers := Nat.min METADATA_CONCURRENCY (length assets); es_progress := [] |}.

(** A worker takes the next asset, or ends when there is none. *)
(* src: services/upload/prepareAssets.ts:241-246 [metadataWorker] *)
Definition worker_takes (s : expo_state) : expo_state :=
  let localIndex := es_metadataCursor s in
  {| es_candidates := es_candidates s; es_failures := es_failures s;
     es_metadataCursor := S localIndex;
     es_completedInWindow := es_completedInWindow s; es_discoveredBytes := es_discoveredBytes s;
     es_readyInWindow := es_readyInWindow s;
     es_inFlight := if (localIndex <? length assets)%nat then es_inFlight s ++ [localIndex] else es_inFlight s;
     es_idleWorkers := pred (es_idleWorkers s); es_progress := es_progress s |}.

(** The answer for asset [localIndex] arrives: its outcome is recorded and the worker goes on. *)
(* src: services/upload/prepareAssets.ts:247-299 [metadataWorker] *)
Definition worker_completes (s : expo_state) (before after : list nat) (localIndex : nat)
    (asset : MediaAsset) : expo_state :=
  let outcome := expo_outcome localIndex asset in
  let discovered := es_discoveredBytes s + match outcome with inr f => f_size f | inl _ => 0 end in
  let ready := es_readyInWindow s + match outcome with inr _ => 1 | inl _ => 0 end in
  let completed := es_completedInWindow s + 1 in
  {| es_candidates := match outcome with
                      | inr f => <[localIndex := Some f]> (es_candidates s)
                      | inl _ => es_candidates s
                      end;
     es_failures := match outcome with inl f => es_failures s ++ [f] | inr _ => es_failures s end;
     es_metadataCursor := es_metadataCursor s;
     es_completedInWindow := completed; es_discoveredBytes := discovered; es_readyInWindow := ready;
     es_inFlight := before ++ after; es_idleWorkers := S (es_idleWorkers s);
     es_progress := es_progress s ++
       [ {| pg_currentIndex := alreadyPreparedFiles + completed; pg_currentAsset := asset;
            pg_readyFiles := alreadyReadyFiles + ready; pg_totalFiles := totalSelectedFiles;
            pg_discoveredBytes := alreadyDiscoveredBytes + discovered |} ] |}.

Inductive expo_step : expo_state → expo_state → Prop :=
  | expo_takes s : (0 < es_idleWorkers s)%nat → expo_step s (worker_takes s)
  | expo_completes s before localIndex after asset :
      es_inFlight s = before ++ localIndex :: after → assets !! localIndex = Some asset →
      expo_step s (worker_completes s before after localIndex asset).

(** [Promise.all] of the workers: all have ended. *)
Definition expo_done (s : expo_state) : Prop := es_inFlight s = [] ∧ es_idleWorkers s = 0%nat.
#[global] Instance expo_done_dec s : Decision (expo_done s) := _.

(** The names from the native resolver, from the last file to the first; a file without a
    usable name becomes a failure. *)
(* src: services/upload/prepareAssets.ts:322-345 [prepareAssetWindow] *)
Definition resolved_name (resolutions : list NativeFilenameResolution) (file : PreparedUploadFile)
    : TransferErrorCode + string * FilenameSource :=
  let last_for := last (base.filter (λ r, match r with
                                          | FilenameResolved a _ _ | FilenameFailed a _ => a
                                          end = asset_id (f_asset file)) resolutions) in
  match last_for with
  | Some (FilenameResolved _ name source) =>
    if truthy name then inr (name, source) else inl filename_resolution_failed
  | Some (FilenameFailed _ code) => inl code
  | None => inl filename_resolution_failed
  end.

Definition with_name (file : PreparedUploadFile) (name : string) (source : FilenameSource)
    : PreparedUploadFile :=
  {| f_asset := f_asset file; f_variantId := f_variantId file; f_mediaRole := f_mediaRole file;
     f_componentSemantics := f_componentSemantics file; f_originalFilename := f_originalFilename file;
     f_fileRef := f_fileRef file; f_windowIndex := f_windowIndex file; f_nativeUri := f_nativeUri file;
     f_size := f_size file; f_computedHash := f_computedHash file; f_transferFilename := name;
     f_filenameSource := source; f_temporary := f_temporary file; f_contentType := f_contentType file;
     f_materializationPath := f_materializationPath file;
     f_materializationDurationMs := f_materializationDurationMs file;
     f_temporaryBytesWritten := f_temporaryBytesWritten file;
     f_preflightAction := f_preflightAction file;
     f_duplicateMatchedFilename := f_duplicateMatchedFilename file;
     f_duplicateSource := f_duplicateSource file; f_preflightFailureCode := f_preflightFailureCode file |}.

(** [None] is a resolver that throws. *)
(* src: services/upload/prepareAssets.ts:311-358 [prepareAssetWindow] *)
Definition resolve_names (resolutions : option (list NativeFilenameResolution))
    (files : list PreparedUploadFile) (failures : list PreparationFailure)
    : list PreparedUploadFile * list PreparationFailure :=
  let failed code file :=
    preparationFailure (f_asset file) (f_fileRef file) stage_filename code None in
  match resolutions with
  | None => ([], failures ++ (failed filename_resolution_failed <$> files))
  | Some rs =>
    (omap (λ f, match resolved_name rs f with
                | inr (name, source) => Some (with_name f name source) | inl _ => None end) files,
     failures ++ omap (λ f, match resolved_name rs f with
                            | inl code => Some (failed code f) | inr _ => None end) (reverse files))
  end.

(** The window once all workers ended. *)
(* src: services/upload/prepareAssets.ts:303-374 [prepareAssetWindow] *)
Definition prepareExpoWindow (cancelled nativeAvailable : bool)
    (resolutions : option (list NativeFilenameResolution)) (s : expo_state) : option PreparedWindow :=
  if cancelled then None else
  let files := omap id (es_candidates s) in
  let '(files, failures) :=
    match files with
    | [] => (files, es_failures s)
    | _ => if nativeAvailable then resolve_names resolutions files (es_failures s)
           else (files, es_failures s)
    end in
  Some {| pw_windowIndex := windowIndex; pw_files := files; pw_failures := failures;
          pw_filenameResolutionAppleCount :=
            if nativeAvailable
            then lengthZ (base.filter (λ f, f_filenameSource f = apple_resource) files) else 0;
          pw_discoveredBytes := es_discoveredBytes s;
          pw_selectedMediaBytes := es_discoveredBytes s;
          pw_additionalComponentsBytes := 0;
          pw_selectedMediaFiles := lengthZ files + lengthZ failures;
          pw_additionalComponentsFiles := 0 |}.

(** *** Reference: what each asset contributes *)

Definition ready_files (asset : MediaAsset) (rs : list (NativePreparationResult Z)) : list PreparedUploadFile :=
  omap (λ r, match r with PreparationReady r => Some (native_file asset r) | PreparationFailed _ => None end) rs.

Definition failed_items (asset : MediaAsset) (ref : Z) (rs : list (NativePreparationResult Z))
    : list PreparationFailure :=
  match rs with
  | [] => [preparationFailure asset ref stage_rendition asset_info_unavailable None]
  | _ => omap (λ r, match r with PreparationFailed f => Some (native_failure asset f)
                               | PreparationReady _ => None end) rs
  end.

Fixpoint window_files (results : list (NativePreparationResult Z)) (localIndex : Z)
    (remaining : list MediaAsset) : list PreparedUploadFile :=
  match remaining with
  | [] => []
  | a :: remaining =>
    ready_files a (assetResults results a (startIndex + localIndex + 1))
      ++ window_files results (localIndex + 1) remaining
  end.

Fixpoint window_failures (results : list (NativePreparationResult Z)) (localIndex : Z)
    (remaining : list MediaAsset) : list PreparationFailure :=
  match remaining with
  | [] => []
  | a :: remaining =>
    failed_items a (startIndex + localIndex + 1) (assetResults results a (startIndex + localIndex + 1))
      ++ window_failures results (localIndex + 1) remaining
  end.

Definition bytes_of (P : PreparedUploadFile → bool) (files : list PreparedUploadFile) : Z :=
  sumZ (λ f, if P f then f_size f else 0) files.
Definition optional_file (f : PreparedUploadFile) : bool := bool_decide (f_componentSemantics f = optional).

(** The counters of the loop are those of the files gathered so far. *)
Definition native_totals (s : native_state) : Prop :=
  ns_discoveredBytes s = sumZ f_size (ns_files s)
  ∧ ns_selectedMediaBytes s = bytes_of (λ f, negb (optional_file f)) (ns_files s)
  ∧ ns_additionalComponentsBytes s = bytes_of optional_file (ns_files s)
  ∧ ns_readyInWindow s = lengthZ (ns_files s).

Lemma native_result_totals asset s r : native_totals s → native_totals (native_result asset s r).
Proof.
  intros (H1 & H2 & H3 & H4). unfold native_totals, bytes_of. destruct r as [r|f]; simpl; [|done].
  rewrite !sumZ_app, !sumZ_singleton, lengthZ_app, H1, H2, H3, H4. unfold optional_file, bytes_of. simpl.
  change (lengthZ [native_file asset r]) with 1. case_bool_decide; simpl; lia.
Qed.

Lemma native_results_gather asset rs s :
  ns_files (foldl (native_result asset) s rs) = ns_files s ++ ready_files asset rs
  ∧ ns_failures (foldl (native_result asset) s rs) =
      ns_failures s ++ omap (λ r, match r with PreparationFailed f => Some (native_failure asset f)
                                             | PreparationReady _ => None end) rs.
Proof.
  revert s. induction rs as [|r rs IH]; intros s; simpl; [by rewrite !app_nil_r|].
  destruct (IH (native_result asset s r)) as [-> ->].
  destruct r; simpl; rewrite <-?app_assoc; done.
Qed.

Lemma native_assets_spec results i remaining s :
  native_totals s →
  let s' := native_assets results i remaining s in
  ns_files s' = ns_files s ++ window_files results i remaining
  ∧ ns_failures s' = ns_failures s ++ window_failures results i remaining
  ∧ native_totals s'.
Proof.
  revert i s. induction remaining as [|a remaining IH]; intros i s Ht; simpl; [by rewrite !app_nil_r|].
  destruct (assetResults results a (startIndex + i + 1)) as [|r rs] eqn:Hr.
  - edestruct IH as (-> & -> & Ht'); [|split_and!; [done| |exact Ht']]; [done|].
    simpl. by rewrite <-app_assoc.
  - edestruct (IH (i + 1) (foldl (native_result a) s (r :: rs))) as (-> & -> & Ht').
    { apply (foldl_invariant_in _ native_totals); [|done]. intros. by apply native_result_totals. }
    destruct (native_results_gather a (r :: rs) s) as [-> ->].
    rewrite <-!app_assoc. done.
Qed.

(** Every asset has a file or a failure of its own. *)
Lemma window_covers results i remaining a :
  a ∈ remaining →
  (∃ f, f ∈ window_files results i remaining ∧ f_asset f = a)
  ∨ (∃ f, f ∈ window_failures results i remaining ∧ pf_asset f = a).
Proof.
  revert i. induction remaining as [|b remaining IH]; intros i Ha; [by apply elem_of_nil in Ha|].
  simpl. apply elem_of_cons in Ha as [->|Ha].
  - destruct (assetResults results b _) as [|[r|f] rs]; simpl.
    + right. eexists. split; [left|done].
    + left. eexists. split; [left|done].
    + right. eexists. split; [left|done].
  - destruct (IH (i + 1) Ha) as [(f & ? & ?)|(f & ? & ?)];
      [left|right]; exists f; (split; [by apply elem_of_app; right|done]).
Qed.

Lemma count_partition {A} (P : A → bool) (l : list A) :
  lengthZ (base.filter (λ x, P x = false) l) + lengthZ (base.filter (λ x, P x = true) l) = lengthZ l.
Proof.
  induction l as [|x l IH]; [done|]. unfold lengthZ in *. rewrite !filter_cons.
  destruct (P x) eqn:E; repeat case_decide; try congruence; simpl length; lia.
Qed.

Lemma primary_filter (files : list PreparedUploadFile) :
  base.filter (λ f, f_componentSemantics f = primary) files
  = base.filter (λ f, optional_file f = false) files
  ∧ base.filter (λ f, f_componentSemantics f = optional) files
  = base.filter (λ f, optional_file f = true) files.
Proof.
  split; apply list_filter_iff; intros f; unfold optional_file;
    rewrite ?bool_decide_eq_false, ?bool_decide_eq_true; destruct (f_componentSemantics f); split; congruence.
Qed.

Lemma bytes_split files :
  bytes_of (λ f, negb (optional_file f)) files + bytes_of optional_file files = sumZ f_size files.
Proof.
  unfold bytes_of. rewrite <-sumZ_add. apply sumZ_ext. intros f _. destruct (optional_file f); simpl; lia.
Qed.
End prepare.

(** ** The native window *)

Lemma group_get_by {K} `{EqDecision K} {A} (key : A → K) l k :
  group_get k (group_by key l) =
    match base.filter (λ x, key x = k) l with [] => None | g => Some g end.
Proof.
  destruct (group_by_spec key l) as (Hnd & Hg & Hall).
  assert (∀ (groups : list (K * list A)) g, NoDup (fst <$> groups) → (k, g) ∈ groups → group_get k groups = Some g) as Hget.
  { induction groups as [|[k' g'] groups IH]; intros g Hn Hin; [by apply elem_of_nil in Hin|].
    apply NoDup_cons in Hn as [Hk Hn]. unfold group_get; simpl.
    apply elem_of_cons in Hin as [Heq|Hin]; simplify_eq; [by rewrite decide_True|].
    rewrite decide_False; [by apply IH|]. intros ->. by apply (list_elem_of_fmap_2 fst) in Hin. }
  destruct (base.filter (λ x, key x = k) l) as [|x g] eqn:Hf.
  - unfold group_get. destruct (omap _ _) as [|g gs] eqn:Ho; [done|exfalso].
    assert (g ∈ omap (λ e, if decide (e.1 = k) then Some e.2 else None) (group_by key l)) as Hin
      by (rewrite Ho; left).
    apply list_elem_of_omap in Hin as ([k' g'] & Hin & Hd). simpl in Hd. case_decide; simplify_eq.
    destruct (Hg _ _ Hin) as [-> Hne]. done.
  - assert (x ∈ base.filter (λ x, key x = k) l) as Hx by (rewrite Hf; left).
    apply list_elem_of_filter in Hx as [Hk Hx]. specialize (Hall x Hx). rewrite Hk in Hall.
    apply list_elem_of_fmap in Hall as ([k' g'] & Heq & Hin). simpl in Heq. subst k'.
    rewrite (Hget _ g' Hnd Hin). destruct (Hg _ _ Hin) as [-> _]. by rewrite Hf.
Qed.

(** The results of an asset: those that name it or, when none does, the unnamed ones that
    answer its request. *)
Definition results_of (results : list (NativePreparationResult Z)) (asset : MediaAsset) (ref : Z)
    : list (NativePreparationResult Z) :=
  match base.filter (λ r, named_asset r = Some (asset_id asset)) results with
  | [] => base.filter (λ r, named_asset r = None ∧ result_fileRef r = ref) results
  | named => named
  end.

Lemma named_asset_ne {N} (r : NativePreparationResult N) : named_asset r ≠ Some "".
Proof.
  unfold named_asset. destruct (result_assetId r) as [a|]; simpl; [|done].
  destruct (truthy a) eqn:Ha; [|done]. apply truthy_true in Ha. congruence.
Qed.

Lemma assetResults_spec results asset ref :
  asset_id asset ≠ "" → assetResults results asset ref = results_of results asset ref.
Proof.
  intros Hid. unfold assetResults, resultsByAssetId, resultsByFileRef, results_of.
  rewrite !group_get_by, !list_filter_filter.
  rewrite (list_filter_iff _ (λ r, named_asset r = Some (asset_id asset)) results).
  - destruct (base.filter (λ r, named_asset r = Some _) results); [|done].
    rewrite (list_filter_iff _ (λ r, named_asset r = None ∧ result_fileRef r = ref) results).
    + by destruct (base.filter _ results).
    + intros r. naive_solver.
  - intros r. split.
    + intros [Hd [a Ha]]. rewrite Ha in *. by simpl in Hd; subst.
    + intros ->. simpl. eauto.
Qed.


(** A natively prepared window accounts for every selected asset: its files and failures
    are, in picker order, exactly the components the native module reported for each asset,
    with a failure for an asset it did not report; every byte and component is counted once,
    as selected media or as an additional component. *)
Lemma prepareNativeWindow_accounts show assets ref start win total prep ready disc results w p :
  prepareNativeWindow show assets ref start win total prep ready disc false results = Some (w, p) →
  pw_files w = window_files show ref start win results 0 assets
  ∧ pw_failures w = window_failures show start win results 0 assets
  ∧ (∀ a, a ∈ assets → (∃ f, f ∈ pw_files w ∧ f_asset f = a) ∨ (∃ f, f ∈ pw_failures w ∧ pf_asset f = a))
  ∧ pw_discoveredBytes w = sumZ f_size (pw_files w)
  ∧ pw_selectedMediaBytes w + pw_additionalComponentsBytes w = pw_discoveredBytes w
  ∧ pw_additionalComponentsBytes w = bytes_of optional_file (pw_files w)
  ∧ pw_selectedMediaFiles w + pw_additionalComponentsFiles w
      = lengthZ (pw_files w) + lengthZ (pw_failures w)
  ∧ (∀ a r, asset_id a ≠ "" → assetResults results a r = results_of results a r).
Proof.
  unfold prepareNativeWindow. cbv iota. intros H. simplify_eq; simpl.
  set (s0 := Build_native_state [] [] 0 0 0 0).
  destruct (native_assets_spec show ref start win results 0 assets s0) as (Hf & Hfail & Hd & Hs & Ha & Hr);
    [by unfold native_totals|].
  rewrite Hf, Hfail in *. simpl. split_and!; try done.
  - intros a. apply window_covers.
  - rewrite Hs, Ha, Hd. apply bytes_split.
  - destruct (primary_filter (window_files show ref start win results 0 assets)) as [-> ->].
    pose proof (count_partition optional_file (window_files show ref start win results 0 assets)).
    pose proof (count_partition (λ f, is_optional (pf_componentSemantics f))
                  (window_failures show start win results 0 assets)) as Hcount.
    cbv beta in Hcount. lia.
  - intros a r. apply assetResults_spec.
Qed.

Definition one_asset : MediaAsset :=
  {| asset_id := "a"; asset_uri := "ph://a"; asset_type := photo; asset_filename := "IMG_1.HEIC" |}.
Definition other_asset : MediaAsset :=
  {| asset_id := "b"; asset_uri := "ph://b"; asset_type := video; asset_filename := "IMG_2.MOV" |}.
Definition one_ready : NativeReady Z :=
  {| nr_fileRef := 1; nr_assetId := Some "a"; nr_variantId := "v"; nr_mediaRole := original_photo;
     nr_componentSemantics := primary; nr_originalFilename := "IMG_1.HEIC"; nr_localUri := "file:///x";
     nr_sizeBytes := 10; nr_transferFilename := "IMG_1.HEIC"; nr_contentType := None;
     nr_temporary := true; nr_materializationPath := photo_resource;
     nr_materializationDurationMs := 3; nr_temporaryBytesWritten := 10 |}.
Definition no_decimal (z : Z) : string := "n".

Definition one_window : PreparedWindow * option PreparationProgress :=
  default ({| pw_windowIndex := 0; pw_files := []; pw_failures := []; pw_filenameResolutionAppleCount := 0;
              pw_discoveredBytes := 0; pw_selectedMediaBytes := 0; pw_additionalComponentsBytes := 0;
              pw_selectedMediaFiles := 0; pw_additionalComponentsFiles := 0 |}, None)
    (prepareNativeWindow no_decimal [one_asset; other_asset] "s" 0 0 2 0 0 0 false [PreparationReady one_ready]).

Lemma prepareNativeWindow_accounts_witness :
  pw_selectedMediaFiles one_window.1 = 2
  ∧ pw_selectedMediaBytes one_window.1 + pw_additionalComponentsBytes one_window.1 = pw_discoveredBytes one_window.1
  ∧ ((∃ f, f ∈ pw_files one_window.1 ∧ f_asset f = other_asset)
     ∨ (∃ f, f ∈ pw_failures one_window.1 ∧ pf_asset f = other_asset)).
Proof.
  destruct (prepareNativeWindow_accounts no_decimal [one_asset; other_asset] "s" 0 0 2 0 0 0
    [PreparationReady one_ready] one_window.1 one_window.2 eq_refl) as (_ & _ & Hall & _ & Hsum & _).
  split_and!; [reflexivity|exact Hsum|]. apply Hall. right. left.
Defined.

(** ** The Expo window *)

Section expo.
Context (show : Z → string) (assets : list MediaAsset) (sessionRef : string).
Context (startIndex windowIndex totalSelectedFiles : Z).
Context (alreadyPreparedFiles alreadyReadyFiles alreadyDiscoveredBytes : Z).
Context (localUri : MediaAsset → option string) (getInfo : string → option file_info).

Notation outcome_of i a :=
  (expo_outcome show sessionRef startIndex windowIndex localUri getInfo i a).
Notation step :=
  (expo_step show assets sessionRef startIndex windowIndex totalSelectedFiles
     alreadyPreparedFiles alreadyReadyFiles alreadyDiscoveredBytes localUri getInfo).
Notation start := (expo_start assets).

Definition file_of (i : nat) : option PreparedUploadFile :=
  a ← assets !! i; match outcome_of i a with inr f => Some f | inl _ => None end.
Definition failure_of_asset (i : nat) : option PreparationFailure :=
  a ← assets !! i; match outcome_of i a with inl f => Some f | inr _ => None end.
Definition indexes : list nat := seq 0 (length assets).

(** After the assets [finished] were answered, in that order, and [es_inFlight] taken. *)
Record expo_inv (s : expo_state) (finished : list nat) : Prop := {
  ei_taken : finished ++ es_inFlight s ≡ₚ seq 0 (Nat.min (es_metadataCursor s) (length assets));
  ei_length : length (es_candidates s) = length assets;
  ei_candidates : ∀ i, (i < length assets)%nat →
    es_candidates s !! i = Some (if decide (i ∈ finished) then file_of i else None);
  ei_failures : es_failures s = omap failure_of_asset finished;
  ei_bytes : es_discoveredBytes s = sumZ f_size (omap file_of finished);
  ei_ready : es_readyInWindow s = lengthZ (omap file_of finished);
  ei_completed : es_completedInWindow s = lengthZ finished;
  ei_progress : pg_currentIndex <$> es_progress s
    = (λ k, alreadyPreparedFiles + Z.of_nat (S k)) <$> seq 0 (length finished);
  ei_workers : (es_idleWorkers s + length (es_inFlight s) < Nat.min METADATA_CONCURRENCY (length assets)
    → length assets <= es_metadataCursor s)%nat;
  ei_bound : (es_idleWorkers s + length (es_inFlight s) <= METADATA_CONCURRENCY)%nat }.

Lemma expo_start_inv : expo_inv start [].
Proof.
  split; cbn -[Nat.min]; try done.
  - by rewrite length_replicate.
  - intros i Hi. rewrite decide_False by set_solver. by apply lookup_replicate_2.
  - lia.
  - unfold METADATA_CONCURRENCY. lia.
Qed.

Lemma expo_step_inv s finished s' :
  expo_inv s finished → step s s' → ∃ finished', expo_inv s' finished'.
Proof.
  intros Hinv Hstep. destruct Hstep as [s Hidle|s before i after a Hfl Ha].
  - exists finished. destruct Hinv. split; cbn -[Nat.min Nat.ltb]; try done.
    + destruct (Nat.ltb_spec (es_metadataCursor s) (length assets)).
      * rewrite app_assoc, ei_taken0.
        rewrite (Nat.min_l (es_metadataCursor s)), (Nat.min_l (S _)) by lia. by rewrite seq_S.
      * rewrite ei_taken0, (Nat.min_r (es_metadataCursor s)), (Nat.min_r (S _)) by lia. done.
    + destruct (Nat.ltb_spec (es_metadataCursor s) (length assets)); [rewrite length_app; cbn [length]|]; lia.
    + destruct (Nat.ltb_spec (es_metadataCursor s) (length assets)); [rewrite length_app; cbn [length]|]; lia.
  - exists (finished ++ [i]). destruct Hinv.
    assert (i < length assets)%nat as Hi by (by apply lookup_lt_Some in Ha).
    assert (NoDup (finished ++ es_inFlight s)) as Hnd by (rewrite ei_taken0; apply NoDup_seq).
    assert (i ∉ finished) as Hfresh.
    { apply NoDup_app in Hnd as (_ & Hd & _). intros Hin. apply (Hd i Hin). rewrite Hfl. set_solver. }
    assert (file_of i = match outcome_of i a with inr f => Some f | inl _ => None end) as Hfile.
    { unfold file_of. by rewrite Ha. }
    assert (failure_of_asset i = match outcome_of i a with inl f => Some f | inr _ => None end) as Hfail.
    { unfold failure_of_asset. by rewrite Ha. }
    split; cbn -[Nat.min].
    + rewrite <-ei_taken0, Hfl, <-!app_assoc. apply Permutation_app_head. simpl. apply Permutation_middle.
    + destruct (outcome_of i a); [done|by rewrite length_insert].
    + intros j Hj. destruct (outcome_of i a) as [f|f] eqn:Ho.
      * rewrite ei_candidates0 by done. f_equal. repeat case_decide; try set_solver.
      * destruct (decide (j = i)) as [->|Hne].
        -- rewrite list_lookup_insert_eq by lia. rewrite decide_True by set_solver. by rewrite Hfile.
        -- rewrite list_lookup_insert_ne by done. rewrite ei_candidates0 by done.
           f_equal. repeat case_decide; try set_solver; done.
    + rewrite omap_app, ei_failures0. simpl. rewrite Hfail. destruct (outcome_of i a); [done|by rewrite app_nil_r].
    + rewrite omap_app, sumZ_app, ei_bytes0. simpl. rewrite Hfile.
      destruct (outcome_of i a); rewrite ?sumZ_singleton, ?sumZ_nil; lia.
    + rewrite omap_app, lengthZ_app, ei_ready0. simpl. rewrite Hfile.
      destruct (outcome_of i a); unfold lengthZ; simpl; lia.
    + rewrite lengthZ_app, ei_completed0. done.
    + rewrite fmap_app, ei_progress0, length_app, Nat.add_1_r, seq_S, fmap_app. simpl. f_equal.
      rewrite ei_completed0. unfold lengthZ. f_equal. lia.
    + rewrite length_app. rewrite Hfl, length_app in ei_workers0. simpl in *. lia.
    + rewrite length_app. rewrite Hfl, length_app in ei_bound0. simpl in *. lia.
Qed.

Lemma expo_reachable s : rtc step start s → ∃ finished, expo_inv s finished.
Proof.
  intros H. apply (rtc_invariant step (λ s, ∃ finished, expo_inv s finished)) in H; [done| |].
  - intros s1 s2 [finished Hinv] Hstep. by eapply expo_step_inv.
  - exists []. apply expo_start_inv.
Qed.

Definition expo_measure (s : expo_state) : nat :=
  3 * (length assets - es_metadataCursor s) + 2 * length (es_inFlight s) + es_idleWorkers s.

Lemma expo_step_measure s s' : step s s' → (expo_measure s' < expo_measure s)%nat.
Proof.
  intros Hstep. unfold expo_measure.
  destruct Hstep as [s Hidle|s before i after a Hfl Ha];
    cbn [worker_takes worker_completes es_metadataCursor es_inFlight es_idleWorkers].
  - destruct (Nat.ltb_spec (es_metadataCursor s) (length assets)); rewrite ?length_app; cbn [length]; lia.
  - rewrite Hfl, !length_app. cbn [length]. lia.
Qed.

Lemma outcomes_partition l :
  (∀ i, i ∈ l → i < length assets)%nat →
  lengthZ (omap file_of l) + lengthZ (omap failure_of_asset l) = lengthZ l.
Proof.
  induction l as [|i l IH]; intros Hl; [done|].
  destruct (lookup_lt_is_Some_2 assets i) as [a Ha]; [apply Hl; left|].
  specialize (IH (λ j Hj, Hl j (list_elem_of_further _ _ _ Hj))).
  assert (file_of i = match outcome_of i a with inr f => Some f | inl _ => None end) as Hfile
    by (unfold file_of; by rewrite Ha).
  assert (failure_of_asset i = match outcome_of i a with inl f => Some f | inr _ => None end) as Hfail
    by (unfold failure_of_asset; by rewrite Ha).
  unfold lengthZ in *. simpl. rewrite Hfile, Hfail. destruct (outcome_of i a); unfold omap in IH; simpl in *; lia.
Qed.

Lemma expo_step_exists s finished :
  expo_inv s finished → ¬ expo_done s → ∃ s', step s s'.
Proof.
  intros Hinv Hd. destruct (es_idleWorkers s) eqn:Hidle.
  - destruct (es_inFlight s) as [|i after] eqn:Hfl; [by destruct Hd|].
    assert (i ∈ finished ++ es_inFlight s) as Hi by (rewrite Hfl; set_solver).
    rewrite (ei_taken _ _ Hinv), elem_of_seq in Hi.
    destruct (lookup_lt_is_Some_2 assets i) as [a Ha]; [lia|].
    eexists. by eapply (expo_completes _ _ _ _ _ _ _ _ _ _ _ s []).
  - eexists. apply expo_takes. lia.
Qed.

Lemma candidates_all s finished :
  expo_inv s finished → expo_done s →
  finished ≡ₚ indexes ∧ es_candidates s = file_of <$> indexes.
Proof.
  intros Hinv [Hfl Hidle]. pose proof (ei_taken _ _ Hinv) as Hp. rewrite Hfl, app_nil_r in Hp.
  assert (length assets <= es_metadataCursor s)%nat as Hc.
  { destruct (decide (length assets = 0%nat)) as [->|]; [lia|].
    apply (ei_workers _ _ Hinv). rewrite Hfl, Hidle. unfold METADATA_CONCURRENCY. cbn [length]. lia. }
  rewrite Nat.min_r in Hp by done. split; [done|].
  apply list_eq_same_length with (n := length assets); [by rewrite length_fmap; apply length_seq|apply (ei_length _ _ Hinv)|].
  intros i x y Hi. rewrite (ei_candidates _ _ Hinv) by done.
  rewrite decide_True by (rewrite Hp, elem_of_seq; lia).
  rewrite list_lookup_fmap. unfold indexes. rewrite (lookup_seq_lt 0) by done. simpl. congruence.
Qed.
End expo.

(** However the eight workers interleave, a window prepared without the native module is
    the same: its files are those of the readable assets in picker order, its failures (up to
    order) those of the others, every byte is counted once, and progress advances by one
    asset at a time. *)
Lemma prepareExpoWindow_deterministic show assets ref start win total prep ready disc localUri getInfo s w :
  rtc (expo_step show assets ref start win total prep ready disc localUri getInfo) (expo_start assets) s →
  expo_done s →
  prepareExpoWindow show win false false None s = Some w →
  let files := omap (file_of show assets ref start win localUri getInfo) (indexes assets) in
  let failures := omap (failure_of_asset show assets ref start win localUri getInfo) (indexes assets) in
  pw_files w = files ∧ pw_failures w ≡ₚ failures
  ∧ pw_discoveredBytes w = sumZ f_size files
  ∧ pw_selectedMediaFiles w = lengthZ assets
  ∧ pg_currentIndex <$> es_progress s = (λ k, prep + Z.of_nat (S k)) <$> indexes assets.
Proof.
  intros Hreach Hd H. apply expo_reachable in Hreach as [finished Hinv].
  edestruct candidates_all as [Hp Hc]; [exact Hinv|exact Hd|]. simpl.
  destruct Hinv as [_ _ _ Hif Hib _ _ Hip _ _].
  unfold prepareExpoWindow in H. cbv iota in H.
  set (files := omap _ (indexes assets)). set (failures := omap _ (indexes assets)).
  assert (omap id (es_candidates s) = files) as Hfiles.
  { rewrite Hc. unfold files. generalize (indexes assets). intros l.
    induction l as [|i l IH]; [done|]. simpl. destruct (file_of _ _ _ _ _ _ _ i); simpl; [by f_equal|done]. }
  assert (es_failures s ≡ₚ failures) as Hfail.
  { rewrite Hif. unfold failures. by rewrite Hp. }
  assert (es_discoveredBytes s = sumZ f_size files) as Hbytes.
  { rewrite Hib. apply sumZ_Permutation. unfold files. by rewrite Hp. }
  assert (lengthZ files + lengthZ failures = lengthZ assets) as Hlen.
  { unfold files, failures. rewrite outcomes_partition.
    - unfold indexes, lengthZ. by rewrite length_seq.
    - intros i Hi. apply elem_of_seq in Hi. lia. }
  rewrite Hfiles in H.
  assert (w = {| pw_windowIndex := win; pw_files := files; pw_failures := es_failures s;
                 pw_filenameResolutionAppleCount := 0; pw_discoveredBytes := es_discoveredBytes s;
                 pw_selectedMediaBytes := es_discoveredBytes s; pw_additionalComponentsBytes := 0;
                 pw_selectedMediaFiles := lengthZ files + lengthZ (es_failures s);
                 pw_additionalComponentsFiles := 0 |}) as -> by (by destruct files; simplify_eq).
  simpl. split_and!; [done..| |].
  - rewrite <-Hlen. f_equal. unfold lengthZ. by rewrite Hfail.
  - rewrite Hip. f_equal. unfold indexes. f_equal.
    rewrite Hp. apply length_seq.
Qed.

(** Preparing a window always ends: from every reachable state the workers can reach the
    end and no schedule avoids it, since each step lowers a measure; at most eight metadata
    requests are outstanding, and no asset is requested twice. *)
Lemma prepareExpoWindow_terminates show assets ref start win total prep ready disc localUri getInfo s :
  let step := expo_step show assets ref start win total prep ready disc localUri getInfo in
  rtc step (expo_start assets) s →
  (∀ s', step s s' → (expo_measure assets s' < expo_measure assets s)%nat)
  ∧ (∃ e, rtc step s e ∧ expo_done e)
  ∧ (length (es_inFlight s) <= METADATA_CONCURRENCY)%nat
  ∧ NoDup (es_inFlight s).
Proof.
  intros step Hreach. split; [intros s'; apply expo_step_measure|].
  assert (∀ n s, (expo_measure assets s < n)%nat → rtc step (expo_start assets) s →
            ∃ e, rtc step s e ∧ expo_done e) as Hend.
  { induction n as [|n IH]; intros u Hn Hu; [lia|].
    destruct (expo_done_dec u) as [Hd|Hd]; [by exists u|].
    destruct (expo_reachable _ _ _ _ _ _ _ _ _ _ _ _ Hu) as [fin Hinv].
    edestruct expo_step_exists as [u' Hstep]; [exact Hinv|exact Hd|].
    destruct (IH u') as (e & He & Hde); [|by eapply rtc_r|exists e; split; [by eapply rtc_l|done]].
    pose proof (expo_step_measure _ _ _ _ _ _ _ _ _ _ _ _ _ Hstep). lia. }
  split_and!; [by apply (Hend _ s (Nat.lt_succ_diag_r _))| |].
  - destruct (expo_reachable _ _ _ _ _ _ _ _ _ _ _ _ Hreach) as [fin Hinv].
    pose proof (ei_bound _ _ _ _ _ _ _ _ _ _ Hinv). lia.
  - destruct (expo_reachable _ _ _ _ _ _ _ _ _ _ _ _ Hreach) as [fin Hinv].
    assert (NoDup (fin ++ es_inFlight s)) as Hnd by (rewrite (ei_taken _ _ _ _ _ _ _ _ _ _ Hinv); apply NoDup_seq).
    by apply NoDup_app in Hnd as (_ & _ & ?).
Qed.

(** One asset, one worker: it takes the asset, records it and ends. *)
Definition no_uri (a : MediaAsset) : option string := None.
Definition ten_bytes (u : string) : option file_info :=
  Some {| fi_exists := true; fi_isDirectory := false; fi_size := 10 |}.
Definition one_end : expo_state :=
  let s := worker_takes [one_asset] (expo_start [one_asset]) in
  worker_takes [one_asset]
    (worker_completes no_decimal "s" 0 0 1 0 0 0 no_uri ten_bytes s [] [] 0 one_asset).

Lemma one_end_reachable :
  rtc (expo_step no_decimal [one_asset] "s" 0 0 1 0 0 0 no_uri ten_bytes) (expo_start [one_asset]) one_end.
Proof.
  eapply rtc_l; [apply expo_takes; by apply Nat.ltb_lt|].
  eapply rtc_l; [by apply (expo_completes _ _ _ _ _ _ _ _ _ _ _ _ [] 0 [] one_asset)|].
  eapply rtc_l; [apply expo_takes; by apply Nat.ltb_lt|]. apply rtc_refl.
Qed.

Definition one_expo_window : PreparedWindow := default (one_window.1) (prepareExpoWindow no_decimal 0 false false None one_end).

Lemma prepareExpoWindow_deterministic_witness :
  pw_selectedMediaFiles one_expo_window = 1 ∧ pw_discoveredBytes one_expo_window = 10.
Proof.
  destruct (prepareExpoWindow_deterministic no_decimal [one_asset] "s" 0 0 1 0 0 0 no_uri ten_bytes one_end
    one_expo_window one_end_reachable (conj eq_refl eq_refl) eq_refl) as (_ & _ & Hb & Hc & _).
  split; [exact Hc|exact Hb].
Defined.

Lemma prepareExpoWindow_terminates_witness :
  (length (es_inFlight one_end) <= METADATA_CONCURRENCY)%nat.
Proof.
  exact (proj1 (proj2 (proj2 (prepareExpoWindow_terminates no_decimal [one_asset] "s" 0 0 1 0 0 0
    no_uri ten_bytes one_end one_end_reachable)))).
Defined.

(** After the native names are asked for, every prepared file is either kept, with a
    non-empty name and nothing else changed, or reported as a failed filename; none is lost,
    and the failures found before stay. *)
Lemma resolve_names_accounts show win resolutions files failures :
  let '(named, failures') := resolve_names show win resolutions files failures in
  lengthZ named + lengthZ failures' = lengthZ files + lengthZ failures
  ∧ (∀ f, f ∈ named → ∃ g name source, g ∈ files ∧ f = with_name g name source ∧ name ≠ "")
  ∧ (∀ p, p ∈ failures' → p ∈ failures ∨
       (pf_stage p = stage_filename ∧ ∃ g, g ∈ files ∧ pf_asset p = f_asset g ∧ pf_fileRef p = f_fileRef g)).
Proof.
  unfold resolve_names. destruct resolutions as [rs|].
  - split_and!.
    + rewrite lengthZ_app.
      assert (∀ l, lengthZ (omap (λ f, match resolved_name rs f with
                                       | inr (name, source) => Some (with_name f name source) | inl _ => None end) l)
        + lengthZ (omap (λ f, match resolved_name rs f with
            | inl code => Some (preparationFailure show win (f_asset f) (f_fileRef f) stage_filename code None)
            | inr _ => None end) (reverse l)) = lengthZ l) as Hcount; [|rewrite <-(Hcount files); lia].
      clear. induction l as [|f l IH]; [done|]. rewrite reverse_cons, omap_app. unfold omap, lengthZ in *.
      simpl. rewrite length_app. destruct (resolved_name rs f) as [|[]]; simpl in *; lia.
    + intros f (g & Hg & Hf)%list_elem_of_omap. destruct (resolved_name rs g) as [|[name source]] eqn:Hr; simplify_eq.
      exists g, name, source. split_and!; try done. revert Hr. unfold resolved_name.
      destruct (last _) as [[? name' ?|? ?]|]; try done. destruct (truthy name') eqn:Ht; [|done].
      intros [= -> ->]. by apply truthy_true.
    + intros p [?|(g & Hg & Hp)%list_elem_of_omap]%elem_of_app; [by left|right].
      destruct (resolved_name rs g); simplify_eq. split; [done|]. exists g. split; [by apply elem_of_reverse|done].
  - split_and!.
    + rewrite lengthZ_app. unfold lengthZ. rewrite length_fmap. simpl. lia.
    + by intros f ?%elem_of_nil.
    + intros p [?|(g & -> & Hg)%list_elem_of_fmap]%elem_of_app; [by left|right; eauto].
Qed.
