(* ===== verification/Ledger.v ===== *)
(** * The books of a transfer: an abstract specification

    What an upload session promises about its files and bytes, without queues, workers or
    windows: files become pending once, settle once, and bytes are acknowledged against a
    plan. [SessionLedger.v] shows that [UploadSession.v] implements it. *)

From S2P Require Import Prelude Accounting.

(** [lg_due]: planned bytes of pending files not yet acknowledged. [lg_short]: bytes of
    transferred files that the receiver accepted without acknowledging them. *)
Record ledger := {
  lg_pending : list string;
  lg_due : Z;
  lg_short : Z;
  lg_planned : Z;
  lg_uploaded : Z;
  lg_ready : Z;
  lg_outcomes : TransferOutcomes.t;
  lg_cancelled : bool }.

#[export] Instance eta_ledger : Eta ledger := λ l,
  {| lg_pending := lg_pending l; lg_due := lg_due l; lg_short := lg_short l; lg_planned := lg_planned l;
     lg_uploaded := lg_uploaded l; lg_ready := lg_ready l; lg_outcomes := lg_outcomes l;
     lg_cancelled := lg_cancelled l |}.

Definition empty_ledger : ledger :=
  {| lg_pending := []; lg_due := 0; lg_short := 0; lg_planned := 0; lg_uploaded := 0; lg_ready := 0;
     lg_outcomes := TransferOutcomes.new; lg_cancelled := false |}.

(** The failures of a window, in order. *)
Definition fail_all (o : TransferOutcomes.t) (ids : list string) : TransferOutcomes.t :=
  foldl (λ o id, (TransferOutcomes.fail o id true).2) o ids.

(** The identifiers of a new window are new. *)
Definition fresh_window (l : ledger) (ids failed : list string) : Prop :=
  NoDup ids
  ∧ (∀ i, i ∈ ids → i ∉ lg_pending l ∧ i ∉ TransferOutcomes.terminalIds (lg_outcomes l) ∧ i ∉ failed)
  ∧ (∀ i, i ∈ failed → i ∉ lg_pending l).

Inductive ledger_step (l : ledger) : ledger → Prop :=
  | ledger_window ids failed :
      fresh_window l ids failed →
      ledger_step l (l <| lg_pending := ids ++ lg_pending l |>
                       <| lg_ready := lg_ready l + lengthZ ids |>
                       <| lg_outcomes := fail_all (lg_outcomes l) failed |>)
  | ledger_plan bytes :
      0 <= bytes →
      ledger_step l (l <| lg_planned := lg_planned l + bytes |> <| lg_due := lg_due l + bytes |>)
  | ledger_acknowledge bytes :
      0 <= bytes <= lg_due l →
      ledger_step l (l <| lg_uploaded := lg_uploaded l + bytes |> <| lg_due := lg_due l - bytes |>)
  | ledger_decided id pending o :
      lg_pending l ≡ₚ id :: pending →
      match o with Skipped _ skip_preflight | Failed false => True | _ => False end →
      ledger_step l (l <| lg_pending := pending |>
                       <| lg_outcomes := record_outcome (lg_outcomes l) (id, o) |>)
  | ledger_transfer id pending o rest :
      lg_pending l ≡ₚ id :: pending → 0 <= rest <= lg_due l →
      match o with Saved _ | Skipped _ skip_finalization => True | _ => False end →
      ledger_step l (l <| lg_pending := pending |> <| lg_due := lg_due l - rest |>
                       <| lg_short := lg_short l + rest |>
                       <| lg_outcomes := record_outcome (lg_outcomes l) (id, o) |>)
  | ledger_fail id pending rest :
      lg_pending l ≡ₚ id :: pending → 0 <= rest <= lg_due l →
      ledger_step l (l <| lg_pending := pending |> <| lg_due := lg_due l - rest |>
                       <| lg_planned := Z.max (lg_uploaded l) (lg_planned l - rest) |>
                       <| lg_outcomes := (TransferOutcomes.fail (lg_outcomes l) id false).2 |>)
  | ledger_cancel :
      ledger_step l (l <| lg_cancelled := true |>)
  | ledger_abandon gone pending rest :
      lg_cancelled l = true → lg_pending l ≡ₚ gone ++ pending → 0 <= rest <= lg_due l →
      ledger_step l (l <| lg_pending := pending |> <| lg_due := lg_due l - rest |>).

(** ** What every ledger satisfies *)

Record ledger_ok (l : ledger) : Prop := {
  lo_outcomes : ∃ ops, lg_outcomes l = record_all ops;
  lo_due : 0 <= lg_due l;
  lo_short : 0 <= lg_short l;
  lo_planned : lg_uploaded l + lg_due l + lg_short l <= lg_planned l;
  lo_exact : lg_cancelled l = false → lg_uploaded l + lg_due l + lg_short l = lg_planned l;
  lo_pending : NoDup (lg_pending l);
  lo_open : ∀ i, i ∈ lg_pending l → i ∉ TransferOutcomes.terminalIds (lg_outcomes l);
  lo_files_le :
    filesCompleted (TransferOutcomes.counts (lg_outcomes l)) + lengthZ (lg_pending l)
    <= lg_ready l + preparationFailedFiles (TransferOutcomes.counts (lg_outcomes l));
  lo_files : lg_cancelled l = false →
    lg_ready l + preparationFailedFiles (TransferOutcomes.counts (lg_outcomes l))
    = filesCompleted (TransferOutcomes.counts (lg_outcomes l)) + lengthZ (lg_pending l) }.

Lemma record_all_snoc ops op : record_outcome (record_all ops) op = record_all (ops ++ [op]).
Proof. unfold record_all. by rewrite foldl_snoc. Qed.

Lemma fail_all_record ids o : fail_all o ids = foldl record_outcome o ((λ i, (i, Failed true)) <$> ids).
Proof. revert o. induction ids as [|i ids IH]; intros o; simpl; [done|]. apply IH. Qed.

(** Failing adds the same to both sides of [lo_files]. *)
Lemma fail_all_files ids o :
  let o' := fail_all o ids in
  preparationFailedFiles (TransferOutcomes.counts o') - filesCompleted (TransferOutcomes.counts o')
    = preparationFailedFiles (TransferOutcomes.counts o) - filesCompleted (TransferOutcomes.counts o)
  ∧ ∀ i, i ∈ TransferOutcomes.terminalIds o' → i ∈ TransferOutcomes.terminalIds o ∨ i ∈ ids.
Proof.
  revert o. induction ids as [|i ids IH]; intros o; simpl; [by split; [|left]|].
  destruct (IH (TransferOutcomes.fail o i true).2) as [-> Hids].
  change ((TransferOutcomes.fail o i true).2) with (record_outcome o (i, Failed true)) in *.
  destruct (decide (i ∈ TransferOutcomes.terminalIds o)) as [Hi|Hi].
  - rewrite record_outcome_seen in * by done. split; [done|]. intros j Hj.
    destruct (Hids j Hj); [by left|right; by right].
  - rewrite record_outcome_fresh in * by done. simpl. split; [lia|]. intros j Hj.
    destruct (Hids j Hj) as [Hj'|Hj']; [|right; by right]. simpl in Hj'. set_solver.
Qed.

(** Settling a pending file once. *)
Lemma settle_ok l id pending o :
  ledger_ok l → lg_pending l ≡ₚ id :: pending →
  match o with Failed true => False | _ => True end →
  let o' := record_outcome (lg_outcomes l) (id, o) in
  (∃ ops, o' = record_all ops) ∧ NoDup pending
  ∧ filesCompleted (TransferOutcomes.counts o') + lengthZ pending
    <= lg_ready l + preparationFailedFiles (TransferOutcomes.counts o')
  ∧ (∀ i, i ∈ pending → i ∉ TransferOutcomes.terminalIds o')
  ∧ (lg_cancelled l = false →
     lg_ready l + preparationFailedFiles (TransferOutcomes.counts o')
     = filesCompleted (TransferOutcomes.counts o') + lengthZ pending).
Proof.
  intros [] Hp Ho o'. rewrite Hp in lo_pending0. apply NoDup_cons in lo_pending0 as [Hid Hnd].
  assert (id ∉ TransferOutcomes.terminalIds (lg_outcomes l)) as Hopen by (apply lo_open0; rewrite Hp; left).
  assert (lengthZ (lg_pending l) = 1 + lengthZ pending) as Hlen
    by (unfold lengthZ; rewrite Hp; simpl; lia).
  unfold o'. split_and!.
  - destruct lo_outcomes0 as [ops ->]. exists (ops ++ [(id, o)]). apply record_all_snoc.
  - done.
  - rewrite record_outcome_fresh by done. destruct o as [[]| |]; simpl; [done|lia..].
  - intros i Hi. rewrite record_outcome_fresh by done. simpl.
    assert (i ∉ TransferOutcomes.terminalIds (lg_outcomes l)) by (apply lo_open0; rewrite Hp; by right).
    assert (i ≠ id) by (by intros ->). set_solver.
  - intros Hc. rewrite record_outcome_fresh by done. specialize (lo_files0 Hc).
    destruct o as [[]| |]; simpl; [done|lia..].
Qed.

Ltac ledger_lia :=
  try done; try lia; intros Hc;
  repeat match goal with H : lg_cancelled _ = false → _ |- _ => specialize (H Hc) end; lia.

Lemma ledger_step_ok l l' : ledger_ok l → ledger_step l l' → ledger_ok l'.
Proof.
  intros Hok Hs. destruct Hs as [ids failed (Hnd & Hids & Hfailed)|bytes Hb|bytes Hb|id p o Hp Ho
    |id p o rest Hp Hr Ho|id p rest Hp Hr| |gone p rest Hc Hp Hr].
  - destruct Hok, (fail_all_files failed (lg_outcomes l)) as [Hcount Hin].
    split; cbn in *; try done.
    + destruct lo_outcomes0 as [ops ->]. rewrite fail_all_record.
      exists (ops ++ ((λ i, (i, Failed true)) <$> failed)). unfold record_all. by rewrite foldl_app.
    + apply NoDup_app. split_and!; [done| |done]. intros i Hi. by apply Hids.
    + intros i Hi [Ht|Ht]%Hin; apply elem_of_app in Hi as [Hi|Hi].
      * by apply Hids in Hi as (_ & ? & _).
      * by eapply lo_open0.
      * by apply Hids in Hi as (_ & _ & ?).
      * by eapply Hfailed.
    + rewrite lengthZ_app. lia.
    + intros Hc. specialize (lo_files0 Hc). rewrite lengthZ_app. lia.
  - destruct Hok. split; cbn in *; ledger_lia.
  - destruct Hok. split; cbn in *; ledger_lia.
  - destruct (settle_ok l id p o Hok Hp) as (? & ? & ? & ? & ?); [by destruct o as [[]| |]|].
    destruct Hok. by split; cbn in *.
  - destruct (settle_ok l id p o Hok Hp) as (? & ? & ? & ? & ?); [by destruct o as [[]| |]|].
    destruct Hok. split; cbn in *; ledger_lia.
  - destruct (settle_ok l id p (Failed false) Hok Hp I) as (? & ? & ? & ? & ?).
    destruct Hok. split; cbn in *; ledger_lia.
  - destruct Hok. by split; cbn in *.
  - destruct Hok. assert (lengthZ (lg_pending l) = lengthZ gone + lengthZ p) as Hlen
      by (rewrite <-lengthZ_app; unfold lengthZ; by rewrite Hp).
    split; cbn in *; try congruence; try lia.
    + rewrite Hp in lo_pending0. by apply NoDup_app in lo_pending0 as (_ & _ & ?).
    + intros i Hi. apply lo_open0. rewrite Hp. apply elem_of_app. by right.
    + unfold lengthZ in *. lia.
Qed.

Lemma empty_ledger_ok : ledger_ok empty_ledger.
Proof.
  split; try done; [by exists []|apply NoDup_nil_2].
Qed.

Lemma ledger_run_ok l : rtc ledger_step empty_ledger l → ledger_ok l.
Proof. intros H. apply (rtc_invariant _ ledger_ok ledger_step_ok) in H; [done|apply empty_ledger_ok]. Qed.
