(* ===== verification/UploadSession.v ===== *)
(** * The upload session ([services/UploadManager.ts], [services/upload/transferPipeline.ts])

    One call of [uploadFilesConcurrent]: a producer prepares and checks windows of assets, a
    bounded queue carries the files, two workers transfer them. A JavaScript function runs
    without interruption up to its next [await]; the code between two of them is one
    definition, a program counter per function says where it is suspended, and [exec] runs
    any of them next or delivers an answer of the platform. Calls of the diagnostics store
    are left out: the session never reads what they record. *)

From S2P Require Import Prelude Js UploadTypes Accounting AsyncQueue Throughput Control Preflight.

(** ** State *)

(* src: services/UploadManager.ts:45-48 [UploadManager] *)
Definition CHUNK_SIZE : Z := TransferLimits.CompatibilityChunkBytes.
(* src: services/UploadManager.ts:46-46 [CONCURRENCY] *)
Definition CONCURRENCY : nat := 2.
(* src: services/UploadManager.ts:47-47 [MAX_CHUNK_RETRIES] *)
Definition MAX_CHUNK_RETRIES : Z := 2.
(* src: services/UploadManager.ts:42-42 [MAX_HISTORY_PROBLEM_DETAILS] *)
Definition MAX_HISTORY_PROBLEM_DETAILS : Z := 1000.
(* src: services/history/ProblemPreviewStore.ts:6-6 [MAX_PROBLEM_PREVIEWS] *)
Definition MAX_PROBLEM_PREVIEWS : Z := 200.

(* src: services/upload/types.ts:10-10 [FileStatus] *)
Inductive FileStatus := file_pending | file_uploading | file_success | file_error | file_skipped.

(* src: services/upload/types.ts:201-213 [FileStatusUpdate] *)
Record FileStatusUpdate := {
  u_assetId : string;
  u_itemId : string;
  u_mediaRole : option MediaVariantRole;
  u_componentSemantics : option MediaComponentSemantics;
  u_fileRef : Z;
  u_status : FileStatus;
  u_transferFilename : string;
  u_savedFilename : option string;
  u_message : option string;
  u_stage : option TransferStage;
  u_errorCode : option TransferErrorCode }.

Inductive HistoryOutcome := history_skipped | history_failed.
Inductive DuplicateStage := duplicate_preflight | duplicate_finalization | duplicate_outgoing.

(* src: api/types.ts:31-41 [TransferHistoryFile] *)
Record TransferHistoryFile := {
  h_id : string;
  h_name : string;
  h_savedName : option string;
  h_size : Z;
  h_outcome : HistoryOutcome;
  h_matchedName : option string;
  h_duplicateStage : option DuplicateStage;
  h_avoidedBytes : option Z;
  h_error : option TransferErrorCode }.

Inductive ProgressStatus :=
  | progress_checking | progress_waiting | progress_preparing | progress_uploading
  | progress_skipped | progress_failed.

(** The numbers of a progress report; the rates are those of the throughput tracker. *)
(* src: services/upload/types.ts:143-171 [GlobalProgress] *)
Record GlobalProgress := {
  gp_bytesSent : Z;
  gp_totalBytes : Z;
  gp_acknowledgedMediaBytes : Z;
  gp_plannedUploadMediaBytes : Z;
  gp_currentIndex : Z;
  gp_currentFilename : string;
  gp_status : ProgressStatus;
  gp_preparationActivity : PreparationActivity;
  gp_preparedFiles : Z;
  gp_readyFiles : Z;
  gp_totalFiles : Z;
  gp_preparationComplete : bool;
  gp_discoveredBytes : Z;
  gp_batchIndex : Z;
  gp_totalBatches : Z;
  gp_thermalControl : ThermalController.ControlMode }.

(** What leaves the session, in order. *)
Inductive emission :=
  | Materialized (file : PreparedUploadFile)     (** [diagnostics.recordMaterialization] *)
  | UploadStarted (file : PreparedUploadFile)    (** [diagnostics.recordWindowUploadStarted] *)
  | StatusChanged (update : FileStatusUpdate)    (** [onFileStatusChange] *)
  | Progressed (progress : GlobalProgress)       (** [onProgress] *)
  | ReleasedFile (uri : string)                  (** [nativeCapabilities.releasePreparedFile] *)
  | NotifiedUnauthorized                         (** [api.notifyUnauthorized] *)
  | CancelRequested.                             (** [api.cancelUploadSession], native [cancel] *)

(* src: services/UploadManager.ts:161-183 [uploadFilesConcurrent] *)
Record Counters := {
  c_preparedFiles : Z;
  c_readyFiles : Z;
  c_discoveredBytes : Z;
  c_selectedMediaBytes : Z;
  c_additionalComponentsBytes : Z;
  c_selectedMediaFiles : Z;
  c_additionalComponentsFiles : Z;
  c_filenameResolutionAppleCount : Z;
  c_filenameResolutionFallbackCount : Z;
  c_preflightFailureCount : Z;
  c_preflightSkippedFiles : Z;
  c_preflightSkippedBytes : Z;
  c_diagnosticPlannedUploadBytes : Z;
  c_nextUploadFileSequence : Z }.

#[export] Instance eta_Counters : Eta Counters := λ c,
  {| c_preparedFiles := c_preparedFiles c; c_readyFiles := c_readyFiles c;
     c_discoveredBytes := c_discoveredBytes c; c_selectedMediaBytes := c_selectedMediaBytes c;
     c_additionalComponentsBytes := c_additionalComponentsBytes c;
     c_selectedMediaFiles := c_selectedMediaFiles c;
     c_additionalComponentsFiles := c_additionalComponentsFiles c;
     c_filenameResolutionAppleCount := c_filenameResolutionAppleCount c;
     c_filenameResolutionFallbackCount := c_filenameResolutionFallbackCount c;
     c_preflightFailureCount := c_preflightFailureCount c;
     c_preflightSkippedFiles := c_preflightSkippedFiles c;
     c_preflightSkippedBytes := c_preflightSkippedBytes c;
     c_diagnosticPlannedUploadBytes := c_diagnosticPlannedUploadBytes c;
     c_nextUploadFileSequence := c_nextUploadFileSequence c |}.

(* src: services/UploadManager.ts:145-199 [uploadFilesConcurrent] *)
Record session := {
  s_cancelled : bool;
  s_fatalError : option thrown;
  s_queue : BoundedAsyncQueue.t PreparedUploadFile;
  s_thermal : ThermalController.t;
  s_counters : Counters;
  s_preparationComplete : bool;
  s_preparationActivity : PreparationActivity;
  s_planned : Z;                        (** [plannedUploadMediaBytes] *)
  s_throughput : ThroughputTracker.t;
  s_workerActivity : UploadWorkerActivity.t;
  s_outcomes : TransferOutcomes.t;
  s_nativeRetryCount : Z;
  s_peakNativeMemory : Z;
  s_outcomeAssetIds : gset string;      (** [preparedOutcomeAssetIds] *)
  s_history : list TransferHistoryFile;
  s_previews : list (string * MediaAsset);
  s_outgoingHashes : OutgoingHashRegistry;
  s_preparedWindows : list (list PreparedUploadFile);
  s_emitted : list emission }.

#[export] Instance eta_session : Eta session := λ s,
  {| s_cancelled := s_cancelled s; s_fatalError := s_fatalError s; s_queue := s_queue s;
     s_thermal := s_thermal s; s_counters := s_counters s;
     s_preparationComplete := s_preparationComplete s;
     s_preparationActivity := s_preparationActivity s; s_planned := s_planned s;
     s_throughput := s_throughput s; s_workerActivity := s_workerActivity s;
     s_outcomes := s_outcomes s; s_nativeRetryCount := s_nativeRetryCount s;
     s_peakNativeMemory := s_peakNativeMemory s; s_outcomeAssetIds := s_outcomeAssetIds s;
     s_history := s_history s; s_previews := s_previews s;
     s_outgoingHashes := s_outgoingHashes s; s_preparedWindows := s_preparedWindows s;
     s_emitted := s_emitted s |}.

Definition emit (e : emission) (s : session) : session := s <| s_emitted := s_emitted s ++ [e] |>.

(** ** Program counters *)

(** [producer]. The files of a window that was checked are annotated one by one:
    [decided] are, [rest] are not. *)
Inductive producer_pc :=
  | P_loop (startIndex windowIndex : Z)
  | P_preparing (startIndex windowIndex : Z)
  | P_checking (startIndex windowIndex : Z) (window : PreparedWindow)
  | P_deciding (startIndex windowIndex : Z) (preflight : PreflightResult)
      (decided rest : list PreparedUploadFile) (plannedBytes skippedFiles skippedBytes : Z)
  | P_pushing (startIndex windowIndex : Z) (rest : list PreparedUploadFile)
  | P_waiting (startIndex windowIndex : Z) (file : PreparedUploadFile) (rest : list PreparedUploadFile)
  | P_woken (startIndex windowIndex : Z) (file : PreparedUploadFile) (rest : list PreparedUploadFile)
  | P_returned (preparedAll : bool)
  | P_ended (preparedAll : bool).

(** [enqueuePreparedWindows]. *)
Inductive enqueuer_pc :=
  | E_idle
  | E_pushing (rest : list PreparedUploadFile)
  | E_waiting (file : PreparedUploadFile) (rest : list PreparedUploadFile)
  | E_woken (file : PreparedUploadFile) (rest : list PreparedUploadFile)
  | E_ended (error : option thrown).

(** [worker]; [acknowledged] is [fileAcknowledgedBytes]. [W_gated] and [W_chunk_gated] hold the
    answer of [thermal.waitForUpload] until the turn in which the worker goes on with it. *)
Inductive worker_pc :=
  | W_ready
  | W_shifting
  | W_received (item : option PreparedUploadFile)
  | W_thermal (item : PreparedUploadFile)
  | W_thermal_woken (item : PreparedUploadFile)
  | W_gated (item : PreparedUploadFile) (ok : bool)
  | W_releasing (item : PreparedUploadFile)
  | W_native (item : PreparedUploadFile) (acknowledged : Z)
  | W_chunk (item : PreparedUploadFile) (chunkIndex acknowledged : Z)
  | W_chunk_thermal (item : PreparedUploadFile) (chunkIndex acknowledged : Z)
  | W_chunk_woken (item : PreparedUploadFile) (chunkIndex acknowledged : Z)
  | W_chunk_gated (item : PreparedUploadFile) (chunkIndex acknowledged : Z) (ok : bool)
  | W_sending (item : PreparedUploadFile) (chunkIndex acknowledged : Z)
  | W_finally (item : PreparedUploadFile) (returns : bool)
  | W_returned.

Record config := {
  cf_session : session;
  cf_producer : producer_pc;
  cf_enqueuer : enqueuer_pc;
  cf_workers : list worker_pc }.

#[export] Instance eta_config : Eta config := λ c,
  {| cf_session := cf_session c; cf_producer := cf_producer c; cf_enqueuer := cf_enqueuer c;
     cf_workers := cf_workers c |}.

Section session.
(** The call's arguments, the names it makes up, and whether the native module is there. *)
Context (assets : list MediaAsset) (requested : PreparationMode) (skipExactDuplicates : bool).
Context (isNative : bool) (sessionId : string) (show : Z → string).

(* src: services/UploadManager.ts:128-132 [uploadFilesConcurrent] *)
Definition preparationPolicy : PreparationPolicy :=
  resolvePreparationPolicy requested isNative (lengthZ assets).

Definition streams : bool := bool_decide (effectiveMode preparationPolicy = streaming).

(** ** Reports *)

(* src: services/UploadManager.ts:260-292 [progressFor] *)
Definition progressFor (s : session) (item : PreparedUploadFile) (status : ProgressStatus) : GlobalProgress :=
  let uploaded := ThroughputTracker.rate_uploadedMediaBytes (ThroughputTracker.current (s_throughput s)) in
  let c := s_counters s in
  let o := TransferOutcomes.counts (s_outcomes s) in
  {| gp_bytesSent := uploaded;
     gp_totalBytes := if s_preparationComplete s then s_planned s else 0;
     gp_acknowledgedMediaBytes := uploaded;
     gp_plannedUploadMediaBytes := s_planned s;
     gp_currentIndex := filesCompleted o;
     gp_currentFilename := f_transferFilename item;
     gp_status := status;
     gp_preparationActivity := s_preparationActivity s;
     gp_preparedFiles := c_preparedFiles c;
     gp_readyFiles := c_readyFiles c;
     gp_totalFiles := if s_preparationComplete s
                      then c_readyFiles c + preparationFailedFiles o else lengthZ assets;
     gp_preparationComplete := s_preparationComplete s;
     gp_discoveredBytes := c_discoveredBytes c;
     gp_batchIndex := f_windowIndex item + 1;
     gp_totalBatches := Z.max 1 (ceil_div (lengthZ assets) (windowSize preparationPolicy));
     gp_thermalControl := ThermalController.controlMode (s_thermal s) |}.

Definition report_progress (item : PreparedUploadFile) (status : ProgressStatus) (s : session) : session :=
  emit (Progressed (progressFor s item status)) s.

(* src: services/UploadManager.ts:189-194 [recordHistoryProblem] *)
Definition recordHistoryProblem (file : TransferHistoryFile) (asset : MediaAsset) (s : session) : session :=
  if lengthZ (s_history s) <? MAX_HISTORY_PROBLEM_DETAILS then
    let s := s <| s_history := s_history s ++ [file] |> in
    if lengthZ (s_previews s) <? MAX_PROBLEM_PREVIEWS
    then s <| s_previews := s_previews s ++ [(h_id file, asset)] |> else s
  else s.

(* src: services/UploadManager.ts:250-258 [releasePreparedFile] *)
Definition releasePreparedFile (uri : string) (s : session) : session := emit (ReleasedFile uri) s.

(** The status update of a prepared file. *)
Definition file_update (item : PreparedUploadFile) (status : FileStatus) (transferFilename : string)
    (savedFilename message : option string) (stage : option TransferStage)
    (errorCode : option TransferErrorCode) : FileStatusUpdate :=
  {| u_assetId := asset_id (f_asset item); u_itemId := f_variantId item;
     u_mediaRole := Some (f_mediaRole item); u_componentSemantics := Some (f_componentSemantics item);
     u_fileRef := f_fileRef item; u_status := status; u_transferFilename := transferFilename;
     u_savedFilename := savedFilename; u_message := message; u_stage := stage; u_errorCode := errorCode |}.

(** [originalFilename || asset.filename]. *)
Definition original_or (originalFilename : option string) (asset : MediaAsset) : string :=
  js_or (default "" originalFilename) (asset_filename asset).

(* src: services/UploadManager.ts:321-357 [markPreparationFailure] *)
Definition markPreparationFailure (asset : MediaAsset) (itemId : string) (fileRef : Z)
    (mediaRole : option MediaVariantRole) (componentSemantics : option MediaComponentSemantics)
    (originalFilename : option string) (stage : TransferStage) (code : TransferErrorCode)
    (s : session) : session :=
  let '(fresh, outcomes) := TransferOutcomes.fail (s_outcomes s) itemId true in
  if negb fresh then s <| s_outcomes := outcomes |> else
  let s := s <| s_outcomes := outcomes |>
             <| s_outcomeAssetIds := {[ asset_id asset ]} ∪ s_outcomeAssetIds s |> in
  let s := recordHistoryProblem
    {| h_id := itemId; h_name := original_or originalFilename asset; h_savedName := None; h_size := 0;
       h_outcome := history_failed; h_matchedName := None; h_duplicateStage := None;
       h_avoidedBytes := None; h_error := Some code |} asset s in
  emit (StatusChanged
    {| u_assetId := asset_id asset; u_itemId := itemId; u_mediaRole := mediaRole;
       u_componentSemantics := componentSemantics; u_fileRef := fileRef; u_status := file_error;
       u_transferFilename := original_or originalFilename asset; u_savedFilename := None;
       u_message := Some (mediaComponentFailureMessage (default unknown_role mediaRole)
                            (default primary componentSemantics) (transferErrorMessage code));
       u_stage := Some stage; u_errorCode := Some code |}) s.

Definition mark_failure (s : session) (f : PreparationFailure) : session :=
  markPreparationFailure (pf_asset f) (pf_itemId f) (pf_fileRef f) (pf_mediaRole f)
    (pf_componentSemantics f) (pf_originalFilename f) (pf_stage f) (pf_code f) s.

(** ** Waking suspended calls *)

Definition wake_producer (pc : producer_pc) : producer_pc :=
  match pc with P_waiting start window file rest => P_woken start window file rest | _ => pc end.
Definition wake_enqueuer (pc : enqueuer_pc) : enqueuer_pc :=
  match pc with E_waiting file rest => E_woken file rest | _ => pc end.

(** Resolving the promise of [shift] of a worker. *)
Definition receive (item : option PreparedUploadFile) (pc : worker_pc) : worker_pc :=
  match pc with W_shifting => W_received item | _ => pc end.
Definition wake_thermal (pc : worker_pc) : worker_pc :=
  match pc with
  | W_thermal item => W_thermal_woken item
  | W_chunk_thermal item k acknowledged => W_chunk_woken item k acknowledged
  | _ => pc
  end.
Definition wake_workers (wake : worker_pc → worker_pc) (ids : list nat) (pcs : list worker_pc)
    : list worker_pc :=
  foldl (λ pcs i, alter wake i pcs) pcs ids.

Definition on_session (f : session → session) (c : config) : config :=
  c <| cf_session := f (cf_session c) |>.

Definition set_worker (i : nat) (pc : worker_pc) (c : config) : config :=
  c <| cf_workers := <[i := pc]> (cf_workers c) |>.

Definition close_queue (c : config) : config :=
  let '(q, consumers, producers) := BoundedAsyncQueue.close (s_queue (cf_session c)) in
  let c := on_session (λ s, s <| s_queue := q |>) c in
  let c := c <| cf_workers := wake_workers (receive None) consumers (cf_workers c) |> in
  match producers with
  | [] => c
  | _ => c <| cf_producer := wake_producer (cf_producer c) |>
           <| cf_enqueuer := wake_enqueuer (cf_enqueuer c) |>
  end.

Definition wake_waiters (ids : list Z) (c : config) : config :=
  c <| cf_workers := wake_workers wake_thermal (Z.to_nat <$> ids) (cf_workers c) |>.

(* src: services/UploadManager.ts:57-70 [cancel] *)
Definition cancel (c : config) : config :=
  let c := on_session (λ s, emit CancelRequested (s <| s_cancelled := true |>)) c in
  let c := close_queue c in
  let '(thermal, ids) := ThermalController.cancel (s_thermal (cf_session c)) in
  wake_waiters ids (on_session (λ s, s <| s_thermal := thermal |>) c).

(* src: services/UploadManager.ts:151-156 [updateThermalState] *)
Definition updateThermalState (state : ThermalState) (c : config) : config :=
  let '(thermal, ids) := ThermalController.update (s_thermal (cf_session c)) state in
  wake_waiters ids (on_session (λ s, s <| s_thermal := thermal |>) c).

(** ** The producer *)

(* src: services/UploadManager.ts:610-618 [producer] *)
Definition producer_catch (error : thrown) (c : config) : config :=
  let fatal :=
    if isUnauthorizedError error then error else
    match error with
    | ThrownTransferFailure f =>
      if tf_fatal f then error else ThrownTransferFailure (fatal_failure stage_preflight unexpected)
    | _ => ThrownTransferFailure (fatal_failure stage_preflight unexpected)
    end in
  cancel (on_session (λ s, s <| s_fatalError := Some fatal |>) c) <| cf_producer := P_returned false |>.

(** The answer of [thermal.waitForPreparation()] is awaited; whatever happens before the next
    turn may as well happen once the preparation has started, which asks for the cancellation
    itself. *)
(* src: services/UploadManager.ts:389-399 [producer] *)
Definition producer_loop (startIndex windowIndex : Z) (c : config) : config :=
  let s := cf_session c in
  c <| cf_producer :=
    if startIndex <? lengthZ assets then
      if s_cancelled s || negb (ThermalController.waitForPreparation (s_thermal s))
      then P_returned false else P_preparing startIndex windowIndex
    else P_returned ((c_preparedFiles (s_counters s) =? lengthZ assets) && negb (s_cancelled s)) |>.

(** [windowAssets.length]. *)
Definition window_length (startIndex : Z) : Z :=
  Z.min (windowSize preparationPolicy) (lengthZ assets - startIndex).

(* src: services/UploadManager.ts:411-436 [onGlobalProgress] *)
Definition onGlobalProgress (item : PreparedUploadFile) (preparedFiles : option Z) (s : session) : session :=
  let s := s <| s_preparationActivity := activity_preparing |> in
  let prepared := c_preparedFiles (s_counters s) in
  let p := progressFor s item progress_preparing in
  emit (Progressed
    {| gp_bytesSent := gp_bytesSent p; gp_totalBytes := gp_totalBytes p;
       gp_acknowledgedMediaBytes := gp_acknowledgedMediaBytes p;
       gp_plannedUploadMediaBytes := gp_plannedUploadMediaBytes p;
       gp_currentIndex := gp_currentIndex p; gp_currentFilename := gp_currentFilename p;
       gp_status := gp_status p; gp_preparationActivity := activity_preparing;
       gp_preparedFiles := Z.max prepared (default prepared preparedFiles);
       gp_readyFiles := gp_readyFiles p; gp_totalFiles := lengthZ assets;
       gp_preparationComplete := gp_preparationComplete p; gp_discoveredBytes := gp_discoveredBytes p;
       gp_batchIndex := gp_batchIndex p; gp_totalBatches := gp_totalBatches p;
       gp_thermalControl := gp_thermalControl p |}) s.

(* src: services/UploadManager.ts:440-454 [producer] *)
Definition add_window (startIndex : Z) (w : PreparedWindow) (c : Counters) : Counters :=
  let fallback := Z.max 0 (lengthZ (pw_files w) - pw_filenameResolutionAppleCount w) in
  {| c_preparedFiles := c_preparedFiles c + window_length startIndex;
     c_readyFiles := c_readyFiles c + lengthZ (pw_files w);
     c_discoveredBytes := c_discoveredBytes c + pw_discoveredBytes w;
     c_selectedMediaBytes := c_selectedMediaBytes c + pw_selectedMediaBytes w;
     c_additionalComponentsBytes := c_additionalComponentsBytes c + pw_additionalComponentsBytes w;
     c_selectedMediaFiles := c_selectedMediaFiles c + pw_selectedMediaFiles w;
     c_additionalComponentsFiles := c_additionalComponentsFiles c + pw_additionalComponentsFiles w;
     c_filenameResolutionAppleCount :=
       c_filenameResolutionAppleCount c + pw_filenameResolutionAppleCount w;
     c_filenameResolutionFallbackCount := c_filenameResolutionFallbackCount c + fallback;
     c_preflightFailureCount := c_preflightFailureCount c;
     c_preflightSkippedFiles := c_preflightSkippedFiles c;
     c_preflightSkippedBytes := c_preflightSkippedBytes c;
     c_diagnosticPlannedUploadBytes := c_diagnosticPlannedUploadBytes c;
     c_nextUploadFileSequence := c_nextUploadFileSequence c |}.

(* src: services/UploadManager.ts:438-478 [producer] *)
Definition record_window (startIndex : Z) (w : PreparedWindow) (s : session) : session :=
  let s := s <| s_counters := add_window startIndex w (s_counters s) |>
             <| s_emitted := s_emitted s ++ (Materialized <$> pw_files w) |> in
  let s := foldl mark_failure s (pw_failures w) in
  let s := s <| s_preparationActivity :=
                  if skipExactDuplicates then activity_checking else activity_preparing |> in
  match pw_files w with
  | f :: _ => if skipExactDuplicates then report_progress f progress_checking s else s
  | [] => s
  end.

(* src: services/UploadManager.ts:399-479 [producer] *)
Definition producer_prepared (startIndex windowIndex : Z) (answer : thrown + option PreparedWindow)
    (c : config) : config :=
  match answer with
  | inl error => producer_catch error c
  | inr None => c <| cf_producer := P_returned false |>
  | inr (Some w) =>
    on_session (record_window startIndex w) c <| cf_producer := P_checking startIndex windowIndex w |>
  end.

(* src: services/UploadManager.ts:479-505 [producer] *)
Definition producer_checked (startIndex windowIndex : Z) (w : PreparedWindow) (env : services)
    (c : config) : config :=
  let s := cf_session c in
  match runDuplicatePreflightWindow env (pw_files w) skipExactDuplicates (s_outgoingHashes s) with
  | inl error => producer_catch error c
  | inr (preflight, outgoing) =>
    let counters := s_counters s in
    c <| cf_session := s <| s_outgoingHashes := outgoing |>
                         <| s_preparationActivity := activity_preparing |>
                         <| s_counters := counters <| c_preflightFailureCount :=
                              c_preflightFailureCount counters + failureCount (pres_journal preflight) |> |> |>
      <| cf_producer := P_deciding startIndex windowIndex preflight [] (pw_files w) 0 0 0 |>
  end.

(** The annotation of one file. *)
(* src: services/UploadManager.ts:512-516 [producer] *)
Definition annotate (preflight : PreflightResult) (sequence : Z) (f : PreparedUploadFile) : PreparedUploadFile :=
  let d := pres_decisions preflight in
  f <| f_computedHash := sessionId +:+ "-" +:+ show sequence |>
    <| f_preflightAction := Some (default upload (preflightResults d !! f_variantId f)) |>
    <| f_duplicateMatchedFilename := matchedFilenames d !! f_variantId f |>
    <| f_duplicateSource := duplicateSources d !! f_variantId f |>
    <| f_preflightFailureCode := pres_hashFailureCodes preflight !! f_variantId f |>.

Definition decided_skip (f : PreparedUploadFile) : bool := bool_decide (f_preflightAction f = Some skip).
Definition decided_failed (f : PreparedUploadFile) : bool :=
  bool_decide (is_Some (f_preflightFailureCode f)).
(** The file goes to the desktop. *)
Definition uploads (f : PreparedUploadFile) : bool := negb (decided_skip f) && negb (decided_failed f).

(* src: services/UploadManager.ts:506-529 [producer] *)
Definition decide_file (startIndex windowIndex : Z) (preflight : PreflightResult)
    (decided : list PreparedUploadFile) (f : PreparedUploadFile) (rest : list PreparedUploadFile)
    (plannedBytes skippedFiles skippedBytes : Z) (c : config) : config :=
  let s := cf_session c in
  let sequence := c_nextUploadFileSequence (s_counters s) + 1 in
  let f' := annotate preflight sequence f in
  let counters := s_counters s in
  let s := s <| s_counters := counters <| c_nextUploadFileSequence := sequence |> |>
             <| s_outcomeAssetIds := {[ asset_id (f_asset f) ]} ∪ s_outcomeAssetIds s |> in
  let s := if uploads f' then s else releasePreparedFile (f_nativeUri f) s in
  let skips := decided_skip f' in
  c <| cf_session := s |>
    <| cf_producer := P_deciding startIndex windowIndex preflight (decided ++ [f']) rest
         (if uploads f' then plannedBytes + f_size f else plannedBytes)
         (if skips then skippedFiles + 1 else skippedFiles)
         (if skips then skippedBytes + f_size f else skippedBytes) |>.

(* src: services/UploadManager.ts:530-533 [producer] *)
Definition plan_window (plannedBytes skippedFiles skippedBytes : Z) (s : session) : session :=
  let c := s_counters s in
  s <| s_planned := s_planned s + plannedBytes |>
    <| s_counters := c
         <| c_diagnosticPlannedUploadBytes := c_diagnosticPlannedUploadBytes c + plannedBytes |>
         <| c_preflightSkippedFiles := c_preflightSkippedFiles c + skippedFiles |>
         <| c_preflightSkippedBytes := c_preflightSkippedBytes c + skippedBytes |> |>.

(** [startIndex += windowSize, windowIndex += 1]. *)
Definition next_window (startIndex windowIndex : Z) : producer_pc :=
  P_loop (startIndex + windowSize preparationPolicy) (windowIndex + 1).

(* src: services/UploadManager.ts:530-607 [producer] *)
Definition window_decided (startIndex windowIndex : Z) (decided : list PreparedUploadFile)
    (plannedBytes skippedFiles skippedBytes : Z) (c : config) : config :=
  let c := on_session (plan_window plannedBytes skippedFiles skippedBytes) c in
  if streams then c <| cf_producer := P_pushing startIndex windowIndex decided |>
  else on_session (λ s, s <| s_preparedWindows := s_preparedWindows s ++ [decided] |>) c
         <| cf_producer := next_window startIndex windowIndex |>.

(** [onCapacityWaitChange] of the producer. *)
(* src: services/UploadManager.ts:583-602 [producer] *)
Definition capacity_wait (file : PreparedUploadFile) (s : session) (waiting : bool) : session :=
  if waiting then report_progress file progress_waiting (s <| s_preparationActivity := activity_waiting |>)
  else if negb (s_preparationComplete s) && negb (s_cancelled s)
  then report_progress file progress_preparing (s <| s_preparationActivity := activity_preparing |>)
  else s.

(** One run of [queue.push], its callback and the consumer it resolves. *)
Definition run_push (callback : session → bool → session) (waiting : bool) (file : PreparedUploadFile)
    (c : config) : config * BoundedAsyncQueue.push_result :=
  let '(q, result, calls) := BoundedAsyncQueue.push (s_queue (cf_session c)) waiting 0 file in
  let c := on_session (λ s, foldl callback (s <| s_queue := q |>) calls) c in
  (match result with
   | BoundedAsyncQueue.PushHanded k =>
     c <| cf_workers := wake_workers (receive (Some file)) [k] (cf_workers c) |>
   | _ => c
   end, result).

Definition queue_closed : thrown := ThrownOther "Queue is closed".

(* src: services/UploadManager.ts:584-602 [producer] *)
Definition producer_push (startIndex windowIndex : Z) (waiting : bool) (file : PreparedUploadFile)
    (rest : list PreparedUploadFile) (c : config) : config :=
  let '(c, result) := run_push (capacity_wait file) waiting file c in
  match result with
  | BoundedAsyncQueue.PushSuspended => c <| cf_producer := P_waiting startIndex windowIndex file rest |>
  | BoundedAsyncQueue.PushThrew => producer_catch queue_closed c
  | _ => c <| cf_producer := P_pushing startIndex windowIndex rest |>
  end.

(* src: services/UploadManager.ts:580-604 [producer] *)
Definition producer_enqueue (startIndex windowIndex : Z) (rest : list PreparedUploadFile) (c : config)
    : config :=
  match rest with
  | [] => c <| cf_producer := next_window startIndex windowIndex |>
  | file :: rest =>
    if s_cancelled (cf_session c) then c <| cf_producer := next_window startIndex windowIndex |>
    else producer_push startIndex windowIndex false file rest c
  end.

(** ** The two phases ([transferPipeline.ts]) *)

(* src: services/UploadManager.ts:621-627 [finishPreparation] *)
Definition finishPreparation (s : session) : session :=
  if s_preparationComplete s then s else
  s <| s_preparationComplete := true |> <| s_preparationActivity := activity_complete |>.

(* src: services/UploadManager.ts:967-970 [workers] *)
Definition runWorkers (now : Z) (c : config) : config :=
  on_session (λ s, s <| s_workerActivity := UploadWorkerActivity.start (s_workerActivity s) now |>) c
    <| cf_workers := replicate CONCURRENCY W_ready |>.

(** The continuation of [produce]. *)
(* src: services/upload/transferPipeline.ts:16-44 [runTransferPipeline] *)
Definition after_produce (completed : bool) (now : Z) (c : config) : config :=
  let c := if completed then on_session finishPreparation c else c in
  let c := c <| cf_producer := P_ended completed |> in
  if streams then close_queue c
  else if completed then
    let windows := s_preparedWindows (cf_session c) in
    runWorkers now (on_session (λ s, s <| s_preparedWindows := [] |>) c)
      <| cf_enqueuer := E_pushing (concat windows) |>
  else c.

(** [queue.close()] in the [finally] of [enqueuePreparedWindows]. *)
(* src: services/UploadManager.ts:641-643 [enqueuePreparedWindows] *)
Definition enqueuer_finally (error : option thrown) (c : config) : config :=
  close_queue c <| cf_enqueuer := E_ended error |>.

Definition enqueuer_push (waiting : bool) (file : PreparedUploadFile) (rest : list PreparedUploadFile)
    (c : config) : config :=
  let '(c, result) := run_push (λ s _, s) waiting file c in
  match result with
  | BoundedAsyncQueue.PushSuspended => c <| cf_enqueuer := E_waiting file rest |>
  | BoundedAsyncQueue.PushThrew => enqueuer_finally (Some queue_closed) c
  | _ => c <| cf_enqueuer := E_pushing rest |>
  end.

(* src: services/UploadManager.ts:629-644 [enqueuePreparedWindows] *)
Definition enqueuePreparedWindows (rest : list PreparedUploadFile) (c : config) : config :=
  match rest with
  | [] => enqueuer_finally None c
  | file :: rest =>
    if s_cancelled (cf_session c) then enqueuer_finally None c else enqueuer_push false file rest c
  end.

(** ** The workers *)

(* src: services/UploadManager.ts:660-690 [worker] *)
Definition skip_decided (item : PreparedUploadFile) (s : session) : session :=
  let name := f_transferFilename item in
  let s := s <| s_outcomes :=
    TransferOutcomes.skip (s_outcomes s) (f_variantId item) (f_size item) skip_preflight |> in
  let s := recordHistoryProblem
    {| h_id := f_variantId item; h_name := name; h_savedName := f_duplicateMatchedFilename item;
       h_size := f_size item; h_outcome := history_skipped;
       h_matchedName := f_duplicateMatchedFilename item;
       h_duplicateStage :=
         Some (if decide (f_duplicateSource item = Some outgoing_selection)
               then duplicate_outgoing else duplicate_preflight);
       h_avoidedBytes := Some (f_size item); h_error := None |} (f_asset item) s in
  let message :=
    match f_duplicateMatchedFilename item with
    | Some matched =>
      if truthy matched
      then name +:+ " was not transferred because identical content already exists as " +:+ matched +:+ "."
      else name +:+ " was not transferred because identical content already exists."
    | None => name +:+ " was not transferred because identical content already exists."
    end in
  let s := emit (StatusChanged (file_update item file_skipped name (f_duplicateMatchedFilename item)
                                  (Some message) None None)) s in
  report_progress item progress_skipped s.

(* src: services/UploadManager.ts:692-726 [worker] *)
Definition fail_decided (item : PreparedUploadFile) (code : TransferErrorCode) (s : session) : session :=
  let s := s <| s_outcomes := (TransferOutcomes.fail (s_outcomes s) (f_variantId item) false).2 |> in
  let s := recordHistoryProblem
    {| h_id := f_variantId item; h_name := f_transferFilename item; h_savedName := None;
       h_size := f_size item; h_outcome := history_failed; h_matchedName := None;
       h_duplicateStage := None; h_avoidedBytes := None; h_error := Some code |} (f_asset item) s in
  let s := emit (StatusChanged (file_update item file_error (f_transferFilename item) None
    (Some (mediaComponentFailureMessage (f_mediaRole item) (f_componentSemantics item)
             (transferErrorMessage code))) (Some stage_preflight) (Some code))) s in
  report_progress item progress_failed s.

(* src: services/UploadManager.ts:876-916 [worker] *)
Definition upload_succeeded (item : PreparedUploadFile) (serverSkipped : bool) (sentFilename : string)
    (savedFilename : option string) (s : session) : session :=
  let saved := match savedFilename with Some n => if truthy n then Some n else None | None => None end in
  if serverSkipped then
    let s := s <| s_outcomes :=
      TransferOutcomes.skip (s_outcomes s) (f_variantId item) (f_size item) skip_finalization |> in
    let s := recordHistoryProblem
      {| h_id := f_variantId item; h_name := sentFilename; h_savedName := savedFilename;
         h_size := f_size item; h_outcome := history_skipped; h_matchedName := savedFilename;
         h_duplicateStage := Some duplicate_finalization; h_avoidedBytes := Some 0;
         h_error := None |} (f_asset item) s in
    let message :=
      match saved with
      | Some n => sentFilename +:+ " was not transferred because identical content already exists as " +:+ n +:+ "."
      | None => sentFilename +:+ " was not transferred because identical content was verified by the desktop."
      end in
    emit (StatusChanged (file_update item file_skipped sentFilename savedFilename (Some message) None None)) s
  else
    let s := s <| s_outcomes := TransferOutcomes.save (s_outcomes s) (f_variantId item) (f_size item) |> in
    let message := n ← saved; if decide (n = sentFilename) then None else Some ("Saved as " +:+ n) in
    emit (StatusChanged (file_update item file_success sentFilename savedFilename message None None)) s.

(* src: services/UploadManager.ts:924-959 [worker] *)
Definition upload_failed_with (item : PreparedUploadFile) (acknowledged : Z) (error : thrown) (s : session)
    : session :=
  let failure := transferFailure error stage_upload upload_failed in
  let code := tf_code failure in
  let s := s <| s_outcomes := (TransferOutcomes.fail (s_outcomes s) (f_variantId item) false).2 |> in
  let s := recordHistoryProblem
    {| h_id := f_variantId item; h_name := f_transferFilename item; h_savedName := None;
       h_size := f_size item; h_outcome := history_failed; h_matchedName := None;
       h_duplicateStage := None; h_avoidedBytes := None; h_error := Some code |} (f_asset item) s in
  let uploaded := ThroughputTracker.rate_uploadedMediaBytes (ThroughputTracker.current (s_throughput s)) in
  let s := s <| s_planned := Z.max uploaded (s_planned s - Z.max 0 (f_size item - acknowledged)) |> in
  let s := emit (StatusChanged (file_update item file_error (f_transferFilename item) None
    (Some (mediaComponentFailureMessage (f_mediaRole item) (f_componentSemantics item)
             (userMessages code))) (Some (tf_stage failure)) (Some code))) s in
  report_progress item progress_failed s.

(** The [catch] clause of an upload. *)
(* src: services/UploadManager.ts:917-960 [worker] *)
Definition upload_threw (i : nat) (item : PreparedUploadFile) (acknowledged : Z) (error : thrown)
    (c : config) : config :=
  if isUnauthorizedError error then
    set_worker i (W_finally item true) (cancel (on_session (λ s, s <| s_fatalError := Some error |>) c))
  else if s_cancelled (cf_session c) then set_worker i (W_finally item true) c
  else set_worker i (W_finally item false) (on_session (upload_failed_with item acknowledged error) c).

Definition upload_done (i : nat) (item : PreparedUploadFile) (serverSkipped : bool) (sentFilename : string)
    (savedFilename : option string) (c : config) : config :=
  set_worker i (W_finally item false) (on_session (upload_succeeded item serverSkipped sentFilename savedFilename) c).

Definition too_large : thrown :=
  ThrownOther "File exceeds the receiver limit of 10,000 chunks. Split it before uploading.".

(* src: services/UploadManager.ts:739-740 [worker] *)
Definition effectiveChunkSize : Z := if isNative then TransferLimits.NativeChunkBytes else CHUNK_SIZE.
Definition totalChunks (item : PreparedUploadFile) : Z := ceil_div (f_size item) CHUNK_SIZE.

(* src: services/UploadManager.ts:747-750 [worker] *)
Definition exceeds_limits (item : PreparedUploadFile) : bool :=
  (TransferLimits.MaxFileBytes <? f_size item)
  || (TransferLimits.MaxChunksPerFile <? ceil_div (f_size item) effectiveChunkSize).

(* src: services/UploadManager.ts:728-750 [worker] *)
Definition begin_upload (i : nat) (now : Z) (item : PreparedUploadFile) (c : config) : config :=
  let s := cf_session c in
  let s := emit (StatusChanged (file_update item file_uploading (f_transferFilename item) None None None None)) s in
  let s := s <| s_workerActivity := (UploadWorkerActivity.busy (s_workerActivity s) now).2 |> in
  let c := c <| cf_session := emit (UploadStarted item) s |> in
  if exceeds_limits item then upload_threw i item 0 too_large c
  else set_worker i (if isNative then W_native item 0 else W_chunk item 0 0) c.

(** [if (!ok) return;] and what follows it, once the answer of the gate was awaited; the
    cancellation is not looked at again. *)
(* src: services/UploadManager.ts:650-738 [worker] *)
Definition worker_gated (i : nat) (now : Z) (item : PreparedUploadFile) (ok : bool) (c : config) : config :=
  if negb ok then set_worker i W_returned c
  else if decided_skip item then set_worker i (W_releasing item) (on_session (skip_decided item) c)
  else match f_preflightFailureCode item with
  | Some code => set_worker i (W_releasing item) (on_session (fail_decided item code) c)
  | None => begin_upload i now item c
  end.

(** The run of [thermal.waitForUpload(workerIndex)], up to its [await] or its answer. *)
(* src: services/UploadManager.ts:650-650 [worker] *)
Definition thermal_gate (i : nat) (suspended : worker_pc) (answered : bool → worker_pc) (c : config)
    : config :=
  let '(thermal, answer) := ThermalController.waitForUpload (s_thermal (cf_session c)) (Z.of_nat i) in
  set_worker i (match answer with Some ok => answered ok | None => suspended end)
    (on_session (λ s, s <| s_thermal := thermal |>) c).

(* src: services/UploadManager.ts:648-650 [worker] *)
Definition worker_gate (i : nat) (item : PreparedUploadFile) (c : config) : config :=
  thermal_gate i (W_thermal item) (W_gated item) c.

(** [await queue.shift()], and the producer it may wake. *)
(* src: services/UploadManager.ts:647-649 [worker] *)
Definition worker_shift (i : nat) (c : config) : config :=
  if s_cancelled (cf_session c) then set_worker i W_returned c else
  let '(q, result) := BoundedAsyncQueue.shift (s_queue (cf_session c)) i in
  let c := on_session (λ s, s <| s_queue := q |>) c in
  match result with
  | BoundedAsyncQueue.ShiftItem item woken =>
    let c := set_worker i (W_received (Some item)) c in
    match woken with
    | Some _ => c <| cf_producer := wake_producer (cf_producer c) |>
                  <| cf_enqueuer := wake_enqueuer (cf_enqueuer c) |>
    | None => c
    end
  | BoundedAsyncQueue.ShiftNull => set_worker i (W_received None) c
  | BoundedAsyncQueue.ShiftSuspended => set_worker i W_shifting c
  end.

(* src: services/UploadManager.ts:960-963 [worker] *)
Definition worker_finally (i : nat) (now : Z) (item : PreparedUploadFile) (returns : bool) (c : config) : config :=
  let c := on_session (λ s, releasePreparedFile (f_nativeUri item) s) c in
  let c := on_session (λ s, s <| s_workerActivity := UploadWorkerActivity.idle (s_workerActivity s) now |>) c in
  set_worker i (if returns then W_returned else W_ready) c.

(** *** The native path *)

(** The result of [nativeCapabilities.uploadFile]. *)
(* src: services/NativeCapabilities.ts:31-58 [NativeUploadResult] *)
Inductive upload_answer :=
  | UploadAnswered (bytesSent : jsnum) (skipped : bool) (sentFilename : string)
      (savedFilename : option string) (retryCount peakResidentMemoryBytes : Z)
  | UploadRefused (errorCode : TransferErrorCode) (httpStatus : Z) (bytesSent : jsnum)
  | UploadThrew (error : thrown).

(* src: services/UploadManager.ts:753-764 [recordNativeAcknowledgement] *)
Definition recordNativeAcknowledgement (item : PreparedUploadFile) (acknowledged : Z) (reportedBytes : jsnum)
    (now : Z) (s : session) : Z * session :=
  match reportedBytes with
  | NotFinite => (acknowledged, s)
  | Finite reported =>
    let boundedBytes := Z.min (f_size item) (Z.max acknowledged reported) in
    let delta := boundedBytes - acknowledged in
    if delta <=? 0 then (acknowledged, s) else
    let s := s <| s_throughput := ThroughputTracker.recordAcknowledgement (s_throughput s) delta delta now |> in
    (boundedBytes, report_progress item progress_uploading s)
  end.

Definition session_changed : string := "Desktop server session changed. Scan the current QR code to reconnect.".

(* src: services/UploadManager.ts:765-768 [worker] *)
Definition native_progress_event (i : nat) (item : PreparedUploadFile) (acknowledged : Z) (fileId : string)
    (bytesSent : jsnum) (now : Z) (c : config) : config :=
  if decide (fileId = f_computedHash item) then
    let '(acknowledged, s) := recordNativeAcknowledgement item acknowledged bytesSent now (cf_session c) in
    set_worker i (W_native item acknowledged) (c <| cf_session := s |>)
  else c.

(* src: services/UploadManager.ts:770-811 [worker] *)
Definition native_answer (i : nat) (item : PreparedUploadFile) (acknowledged : Z) (answer : upload_answer)
    (now : Z) (c : config) : config :=
  match answer with
  | UploadThrew error => upload_threw i item acknowledged error c
  | UploadRefused errorCode httpStatus bytesSent =>
    let '(acknowledged, s) := recordNativeAcknowledgement item acknowledged bytesSent now (cf_session c) in
    let c := c <| cf_session := s |> in
    if decide (errorCode = unauthorized) then
      upload_threw i item acknowledged
        (ThrownApiRequestError {| are_message := session_changed; are_status := httpStatus |})
        (on_session (emit NotifiedUnauthorized) c)
    else upload_threw i item acknowledged (ThrownTransferFailure (failure_of stage_server server_rejected)) c
  | UploadAnswered bytesSent skipped sentFilename savedFilename retryCount peak =>
    let '(acknowledged, s) := recordNativeAcknowledgement item acknowledged bytesSent now (cf_session c) in
    let s := s <| s_nativeRetryCount := s_nativeRetryCount s + retryCount |>
               <| s_peakNativeMemory := Z.max (s_peakNativeMemory s) peak |> in
    upload_done i item skipped (js_or sentFilename (f_transferFilename item)) savedFilename
      (c <| cf_session := s |>)
  end.

(** *** The Expo path *)

(** One attempt of a chunk request: what [isCancelled] said, and the response, its body
    parsed as JSON when it can be. *)
Record chunk_attempt := {
  ca_cancelledAtStart : bool;
  ca_response : thrown + Z * option jsval;
  ca_aborted : bool;
  ca_cancelledAtCatch : bool }.

(* src: services/UploadManager.ts:78-94 [uploadEncodedChunk] *)
Definition encoded_chunk_request (response : thrown + Z * option jsval) : settled (option jsval) :=
  match response with
  | inl error => Rejected error
  | inr (status, body) =>
    if (200 <=? status) && (status <=? 299) then Resolved body else
    if status =? 401
    then Rejected (ThrownApiRequestError {| are_message := session_changed; are_status := 401 |})
    else if 500 <=? status then Rejected (ThrownOther "Temporary desktop response failure")
    else Rejected (ThrownTransferFailure (failure_of stage_server server_rejected))
  end.

(* src: services/UploadManager.ts:72-98 [uploadEncodedChunk] *)
Definition uploadEncodedChunk (attempts : Z → chunk_attempt) : settled (option jsval) :=
  match retryChunkRequest MAX_CHUNK_RETRIES (λ k,
          {| cancelledAtStart := ca_cancelledAtStart (attempts k);
             request := encoded_chunk_request (ca_response (attempts k));
             aborted := ca_aborted (attempts k);
             cancelledAtCatch := ca_cancelledAtCatch (attempts k) |}) with
  | Some (result, _, _, _) => result
  | None => Rejected (ThrownOther "")
  end.

(** The receiver's word on the last chunk. *)
(* src: services/UploadManager.ts:851-864 [worker] *)
Definition last_chunk_answer (body : option jsval) : bool * option string :=
  match body with
  | Some v => (is_true (field v "skipped"), opt_nonempty (field v "filename"))
  | None => (false, None)
  end.

(* src: services/UploadManager.ts:823-824 [worker] *)
Definition chunk_start (i : nat) (item : PreparedUploadFile) (chunkIndex acknowledged : Z) (c : config) : config :=
  if totalChunks item <=? chunkIndex then upload_done i item false (f_transferFilename item) None c else
  thermal_gate i (W_chunk_thermal item chunkIndex acknowledged) (W_chunk_gated item chunkIndex acknowledged) c.

(** Here the cancellation is looked at after the [await]. *)
(* src: services/UploadManager.ts:824-826 [worker] *)
Definition chunk_gated (i : nat) (item : PreparedUploadFile) (chunkIndex acknowledged : Z) (ok : bool) (c : config)
    : config :=
  if negb ok || s_cancelled (cf_session c)
  then upload_threw i item acknowledged (ThrownTransferFailure (failure_of stage_upload cancelled)) c
  else set_worker i (W_sending item chunkIndex acknowledged) c.

Definition chunk_length (item : PreparedUploadFile) (chunkIndex : Z) : Z :=
  Z.min CHUNK_SIZE (f_size item - chunkIndex * CHUNK_SIZE).

(* src: services/UploadManager.ts:865-872 [worker] *)
Definition record_chunk (item : PreparedUploadFile) (length encodedLength now : Z) (s : session) : session :=
  report_progress item progress_uploading
    (s <| s_throughput :=
       ThroughputTracker.recordAcknowledgement (s_throughput s) length encodedLength now |>).

(** The read of the chunk gives the length of its Base64 text, the request its answer. *)
(* src: services/UploadManager.ts:827-874 [worker] *)
Definition chunk_sent (i : nat) (item : PreparedUploadFile) (chunkIndex acknowledged : Z)
    (base64 : option Z) (attempts : Z → chunk_attempt) (now : Z) (c : config) : config :=
  let encoded := default 0 base64 in
  if encoded =? 0
  then upload_threw i item acknowledged (ThrownTransferFailure (failure_of stage_upload file_read_failed)) c
  else match uploadEncodedChunk attempts with
  | Rejected error =>
    let c := if isUnauthorizedError error then on_session (emit NotifiedUnauthorized) c else c in
    upload_threw i item acknowledged error c
  | Resolved body =>
    let length := chunk_length item chunkIndex in
    let c := on_session (record_chunk item length encoded now) c in
    if chunkIndex =? totalChunks item - 1 then
      let '(serverSkipped, savedFilename) := last_chunk_answer body in
      upload_done i item serverSkipped (f_transferFilename item) savedFilename c
    else set_worker i (W_chunk item (chunkIndex + 1) (acknowledged + length)) c
  end.

(** ** Scheduling *)

Inductive choice :=
  | RunProducer (now : Z)
  | PreparationProgress (item : PreparedUploadFile) (preparedFiles : option Z)
  | WindowPrepared (answer : thrown + option PreparedWindow)
  | WindowChecked (env : services)
  | RunEnqueuer
  | RunWorker (i : nat) (now : Z)
  | NativeProgress (i : nat) (fileId : string) (bytesSent : jsnum) (now : Z)
  | NativeAnswered (i : nat) (answer : upload_answer) (now : Z)
  | ChunkAnswered (i : nat) (base64 : option Z) (attempts : Z → chunk_attempt) (now : Z)
  | UserCancels
  | ThermalChanged (state : ThermalState).

Definition run_producer (now : Z) (c : config) : option config :=
  match cf_producer c with
  | P_loop start w => Some (producer_loop start w c)
  | P_deciding start w preflight decided (f :: rest) planned skippedFiles skippedBytes =>
    Some (decide_file start w preflight decided f rest planned skippedFiles skippedBytes c)
  | P_deciding start w preflight decided [] planned skippedFiles skippedBytes =>
    Some (window_decided start w decided planned skippedFiles skippedBytes c)
  | P_pushing start w rest => Some (producer_enqueue start w rest c)
  | P_woken start w file rest => Some (producer_push start w true file rest c)
  | P_returned completed => Some (after_produce completed now c)
  | P_preparing _ _ | P_checking _ _ _ | P_waiting _ _ _ _ | P_ended _ => None
  end.

Definition run_enqueuer (c : config) : option config :=
  match cf_enqueuer c with
  | E_pushing rest => Some (enqueuePreparedWindows rest c)
  | E_woken file rest => Some (enqueuer_push true file rest c)
  | E_idle | E_waiting _ _ | E_ended _ => None
  end.

(* src: services/UploadManager.ts:646-965 [worker] *)
Definition run_worker (i : nat) (now : Z) (c : config) : option config :=
  pc ← cf_workers c !! i;
  match pc with
  | W_ready => Some (worker_shift i c)
  | W_received None => Some (set_worker i W_returned c)
  | W_received (Some item) | W_thermal_woken item => Some (worker_gate i item c)
  | W_gated item ok => Some (worker_gated i now item ok c)
  | W_releasing item =>
    Some (set_worker i W_ready (on_session (releasePreparedFile (f_nativeUri item)) c))
  | W_chunk item k acknowledged | W_chunk_woken item k acknowledged =>
    Some (chunk_start i item k acknowledged c)
  | W_chunk_gated item k acknowledged ok => Some (chunk_gated i item k acknowledged ok c)
  | W_finally item returns => Some (worker_finally i now item returns c)
  | W_shifting | W_thermal _ | W_native _ _ | W_chunk_thermal _ _ _ | W_sending _ _ _ | W_returned => None
  end.

Definition exec (c : config) (o : choice) : option config :=
  match o with
  | RunProducer now => run_producer now c
  | PreparationProgress item prepared =>
    match cf_producer c with
    | P_preparing _ _ => Some (on_session (onGlobalProgress item prepared) c)
    | _ => None
    end
  | WindowPrepared answer =>
    match cf_producer c with P_preparing start w => Some (producer_prepared start w answer c) | _ => None end
  | WindowChecked env =>
    match cf_producer c with P_checking start w window => Some (producer_checked start w window env c) | _ => None end
  | RunEnqueuer => run_enqueuer c
  | RunWorker i now => run_worker i now c
  | NativeProgress i fileId bytesSent now =>
    match cf_workers c !! i with
    | Some (W_native item acknowledged) => Some (native_progress_event i item acknowledged fileId bytesSent now c)
    | _ => None
    end
  | NativeAnswered i answer now =>
    match cf_workers c !! i with
    | Some (W_native item acknowledged) => Some (native_answer i item acknowledged answer now c)
    | _ => None
    end
  | ChunkAnswered i base64 attempts now =>
    match cf_workers c !! i with
    | Some (W_sending item k acknowledged) => Some (chunk_sent i item k acknowledged base64 attempts now c)
    | _ => None
    end
  | UserCancels => Some (cancel c)
  | ThermalChanged state => Some (updateThermalState state c)
  end.

(** ** The start of the session *)

Definition zero_Counters : Counters :=
  {| c_preparedFiles := 0; c_readyFiles := 0; c_discoveredBytes := 0; c_selectedMediaBytes := 0;
     c_additionalComponentsBytes := 0; c_selectedMediaFiles := 0; c_additionalComponentsFiles := 0;
     c_filenameResolutionAppleCount := 0; c_filenameResolutionFallbackCount := 0;
     c_preflightFailureCount := 0; c_preflightSkippedFiles := 0; c_preflightSkippedBytes := 0;
     c_diagnosticPlannedUploadBytes := 0; c_nextUploadFileSequence := 0 |}.

(** The window over which [ThroughputTracker] averages, its default argument. *)
Definition throughput_window : Z := 5000.

Definition empty_queue : BoundedAsyncQueue.t PreparedUploadFile :=
  {| BoundedAsyncQueue.capacity := Z.to_nat (queueCapacity preparationPolicy); BoundedAsyncQueue.items := [];
     BoundedAsyncQueue.waitingConsumers := []; BoundedAsyncQueue.waitingProducers := [];
     BoundedAsyncQueue.closed := false; BoundedAsyncQueue.observedMaxDepth := 0 |}.

(* src: services/UploadManager.ts:121-199 [uploadFilesConcurrent] *)
Definition new_session (thermalPolicy : ThermalPolicy) (startTime : Z) : session :=
  {| s_cancelled := false; s_fatalError := None; s_queue := empty_queue;
     s_thermal := ThermalController.new thermalPolicy; s_counters := zero_Counters;
     s_preparationComplete := false; s_preparationActivity := activity_preparing; s_planned := 0;
     s_throughput := ThroughputTracker.new startTime throughput_window;
     s_workerActivity := UploadWorkerActivity.new; s_outcomes := TransferOutcomes.new;
     s_nativeRetryCount := 0; s_peakNativeMemory := 0; s_outcomeAssetIds := ∅; s_history := [];
     s_previews := []; s_outgoingHashes := ∅; s_preparedWindows := []; s_emitted := [] |}.

(** [runTransferPipeline] when it is called: in streaming mode the workers start at once. *)
(* src: services/upload/transferPipeline.ts:24-36 [runTransferPipeline] *)
Definition pipeline_start (s : session) (now : Z) : config :=
  let c := {| cf_session := s; cf_producer := P_loop 0 0; cf_enqueuer := E_idle; cf_workers := [] |} in
  if streams then runWorkers now c else c.

Definition all_returned (workers : list worker_pc) : bool :=
  forallb (λ pc, match pc with W_returned => true | _ => false end) workers.

(** What [runTransferPipeline] settled with, once it has. *)
(* src: services/upload/transferPipeline.ts:16-44 [runTransferPipeline] *)
Definition pipeline_result (c : config) : option (thrown + bool) :=
  match cf_producer c with
  | P_ended completed =>
    if streams then if all_returned (cf_workers c) then Some (inr completed) else None
    else if negb completed then Some (inr false)
    else match cf_enqueuer c with
    | E_ended (Some error) => Some (inl error)
    | E_ended None => if all_returned (cf_workers c) then Some (inr true) else None
    | _ => None
    end
  | _ => None
  end.
End session.
