(* ===== verification/SessionBooks.v ===== *)
(** * The books of an upload session: invariants

    What a configuration of [UploadSession.v] holds of the ledger of [Ledger.v]: its pending
    files, its due bytes, and the invariants that link the callbacks stored in the queue and
    in the thermal controller to the functions suspended there. *)

From S2P Require Import Prelude Js UploadTypes Accounting AsyncQueue Throughput Control Preflight Ledger UploadSession.

(** ** Suspended functions and the queues that will wake them *)

(** Waking by index everything that changes is waking everything. *)
Lemma wake_workers_lookup wake ids pcs i :
  (∀ pc, wake (wake pc) = wake pc) →
  wake_workers wake ids pcs !! i = (if decide (i ∈ ids) then wake <$> (pcs !! i) else pcs !! i).
Proof.
  intros Hidem. unfold wake_workers. revert pcs. induction ids as [|j ids IH]; intros pcs; simpl; [done|].
  rewrite IH. destruct (decide (i = j)) as [->|Hne].
  - rewrite list_lookup_alter_eq, (decide_True (P := j ∈ j :: ids)) by set_solver.
    destruct (decide (j ∈ ids)); [|done]. destruct (pcs !! j); simpl; [by rewrite Hidem|done].
  - rewrite list_lookup_alter_ne by done. repeat case_decide; set_solver.
Qed.

Lemma wake_workers_all wake ids pcs :
  (∀ pc, wake (wake pc) = wake pc) →
  (∀ i pc, pcs !! i = Some pc → i ∈ ids ∨ wake pc = pc) →
  wake_workers wake ids pcs = wake <$> pcs.
Proof.
  intros Hidem Hall. apply list_eq. intros i. rewrite wake_workers_lookup, list_lookup_fmap by done.
  case_decide as Hi; [done|]. destruct (pcs !! i) as [pc|] eqn:Hpc; [|done]. simpl. f_equal.
  by destruct (Hall i pc Hpc).
Qed.

Lemma receive_idem item pc : receive item (receive item pc) = receive item pc.
Proof. by destruct pc. Qed.
Lemma wake_thermal_idem pc : wake_thermal (wake_thermal pc) = wake_thermal pc.
Proof. by destruct pc. Qed.

(** A call is suspended at the queue's capacity. *)
Definition producer_waits (c : config) : bool :=
  match cf_producer c with P_waiting _ _ _ _ => true | _ => false end
  || match cf_enqueuer c with E_waiting _ _ => true | _ => false end.

#[local] Arguments producer_waits : simpl never.

Definition shifting (pc : worker_pc) : bool := match pc with W_shifting => true | _ => false end.
Definition cooling (pc : worker_pc) : bool :=
  match pc with W_thermal _ | W_chunk_thermal _ _ _ => true | _ => false end.

(** The callbacks stored in the queue and in the thermal controller are those of the
    functions suspended there. *)
Record linked (c : config) : Prop := {
  ln_queue : BoundedAsyncQueue.queue_ok (s_queue (cf_session c));
  ln_consumers : ∀ i, i ∈ BoundedAsyncQueue.waitingConsumers (s_queue (cf_session c))
    ↔ cf_workers c !! i = Some W_shifting;
  ln_nodup : NoDup (BoundedAsyncQueue.waitingConsumers (s_queue (cf_session c)));
  ln_producers : length (BoundedAsyncQueue.waitingProducers (s_queue (cf_session c)))
    = if producer_waits c then 1%nat else 0%nat;
  ln_thermal : ThermalController.waiters_ok (s_thermal (cf_session c));
  ln_waiters : ∀ i pc, cf_workers c !! i = Some pc → cooling pc = true →
    Z.of_nat i ∈ ThermalController.waiters (s_thermal (cf_session c));
  ln_cancelled : ThermalController.was_cancelled (s_thermal (cf_session c)) = s_cancelled (cf_session c);
  ln_closed : s_cancelled (cf_session c) = true →
    BoundedAsyncQueue.closed (s_queue (cf_session c)) = true }.

Definition closed_queue (q : BoundedAsyncQueue.t PreparedUploadFile) : BoundedAsyncQueue.t PreparedUploadFile :=
  {| BoundedAsyncQueue.capacity := BoundedAsyncQueue.capacity q;
     BoundedAsyncQueue.items := BoundedAsyncQueue.items q; BoundedAsyncQueue.waitingConsumers := [];
     BoundedAsyncQueue.waitingProducers := []; BoundedAsyncQueue.closed := true;
     BoundedAsyncQueue.observedMaxDepth := BoundedAsyncQueue.observedMaxDepth q |}.

Lemma close_spec (q : BoundedAsyncQueue.t PreparedUploadFile) :
  BoundedAsyncQueue.queue_ok q →
  BoundedAsyncQueue.close q
  = (closed_queue q, BoundedAsyncQueue.waitingConsumers q, BoundedAsyncQueue.waitingProducers q).
Proof.
  intros (_ & _ & _ & Hcl). unfold BoundedAsyncQueue.close, closed_queue.
  destruct q as [cap its cs ps []] eqn:Hq; simpl in *; [|done]. by destruct Hcl as [-> ->].
Qed.

Lemma closed_queue_ok (q : BoundedAsyncQueue.t PreparedUploadFile) :
  BoundedAsyncQueue.queue_ok q → BoundedAsyncQueue.queue_ok (closed_queue q).
Proof. intros (? & [? ?] & _ & _). by split; [|split; [split|split]]. Qed.

(** What closing the queue does to a configuration. *)
Lemma close_queue_spec c :
  linked c →
  close_queue c =
    {| cf_session := cf_session c <| s_queue := closed_queue (s_queue (cf_session c)) |>;
       cf_producer := wake_producer (cf_producer c); cf_enqueuer := wake_enqueuer (cf_enqueuer c);
       cf_workers := receive None <$> cf_workers c |}.
Proof.
  intros Hl. unfold close_queue. rewrite close_spec by apply Hl. unfold on_session. cbn -[wake_workers].
  rewrite (wake_workers_all _ _ _ (receive_idem None)).
  - pose proof (ln_producers c Hl) as Hp. unfold producer_waits in Hp.
    destruct (BoundedAsyncQueue.waitingProducers _); [|done].
    destruct c as [s p e ws]. cbn in Hp |- *. unfold update. cbn. by destruct p, e.
  - intros i pc Hpc. destruct (shifting pc) eqn:Hs; [left|right; by destruct pc].
    apply (ln_consumers c Hl). by destruct pc.
Qed.

Definition cancelled_thermal (k : ThermalController.t) : ThermalController.t :=
  {| ThermalController.state := ThermalController.state k; ThermalController.was_cancelled := true;
     ThermalController.waiters := []; ThermalController.policy := ThermalController.policy k |}.

Definition cancelled_session (s : session) : session :=
  emit CancelRequested (s <| s_cancelled := true |>)
    <| s_queue := closed_queue (s_queue s) |> <| s_thermal := cancelled_thermal (s_thermal s) |>.

Definition woken_worker (pc : worker_pc) : worker_pc := wake_thermal (receive None pc).

Lemma linked_session f c :
  linked c →
  s_queue (f (cf_session c)) = s_queue (cf_session c) →
  s_thermal (f (cf_session c)) = s_thermal (cf_session c) →
  s_cancelled (f (cf_session c)) = s_cancelled (cf_session c) → linked (on_session f c).
Proof.
  intros [] Hq Ht Hc. destruct c as [s p e ws]. unfold on_session, update. simpl in *.
  split; cbn in *; rewrite ?Hq, ?Ht, ?Hc; done.
Qed.

(** Only suspended workers are woken. *)
Lemma cooling_at_waiter c i pc :
  linked c → cf_workers c !! i = Some pc → i ∈ Z.to_nat <$> ThermalController.waiters (s_thermal (cf_session c))
    ∨ wake_thermal pc = pc.
Proof.
  intros Hl Hpc. destruct (cooling pc) eqn:Hcool; [left|right; by destruct pc].
  apply list_elem_of_fmap. exists (Z.of_nat i). split; [lia|]. by eapply ln_waiters.
Qed.

Lemma wake_waiters_spec c :
  linked c →
  wake_waiters (ThermalController.waiters (s_thermal (cf_session c))) c
  = c <| cf_workers := wake_thermal <$> cf_workers c |>.
Proof.
  intros Hl. unfold wake_waiters. rewrite (wake_workers_all _ _ _ wake_thermal_idem); [done|].
  intros i pc. by apply cooling_at_waiter.
Qed.

Lemma linked_close c : linked c → linked (close_queue c).
Proof.
  intros Hl. rewrite close_queue_spec by done. destruct Hl, c as [s p e ws]. unfold update. split; cbn in *.
  - by apply closed_queue_ok.
  - intros i. rewrite list_lookup_fmap. split; [set_solver|]. intros H.
    destruct (ws !! i) as [[]|]; done.
  - constructor.
  - unfold producer_waits. cbn. by destruct p, e.
  - done.
  - intros i pc Hpc Hcool. rewrite list_lookup_fmap in Hpc.
    destruct (ws !! i) as [pc'|] eqn:Hi; simplify_eq/=. apply (ln_waiters0 i pc' Hi). by destruct pc'.
  - done.
  - done.
Qed.

(** What a cancellation does to a configuration. *)
Lemma cancel_spec c :
  linked c →
  cancel c =
    {| cf_session := cancelled_session (cf_session c);
       cf_producer := wake_producer (cf_producer c); cf_enqueuer := wake_enqueuer (cf_enqueuer c);
       cf_workers := woken_worker <$> cf_workers c |}.
Proof.
  intros Hl. unfold cancel.
  set (f := λ s, emit CancelRequested (s <| s_cancelled := true |>)).
  set (c1 := on_session f c).
  assert (close_queue c1 = on_session f (close_queue c)) as Hclose.
  { unfold close_queue, c1. destruct c as [s p e ws]. unfold on_session, update. cbn -[wake_workers].
    destruct (BoundedAsyncQueue.close (s_queue s)) as [[q ks] ps]. by destruct ps. }
  rewrite Hclose. pose proof (linked_close c Hl) as Hl'.
  destruct (close_queue c) as [s p e ws] eqn:Hcl. unfold on_session, update. cbn.
  unfold ThermalController.cancel, ThermalController.wake. cbn.
  pose proof (wake_waiters_spec _ Hl') as Hw. unfold wake_waiters, update in Hw. cbn in Hw.
  injection Hw as Hw. unfold wake_waiters, update. cbn. rewrite Hw.
  rewrite close_queue_spec in Hcl by done. injection Hcl as <- <- <- <-.
  f_equal. unfold woken_worker. by rewrite <-list_fmap_compose.
Qed.

Lemma woken_worker_calm pc : shifting (woken_worker pc) = false ∧ cooling (woken_worker pc) = false.
Proof. by destruct pc. Qed.

Lemma linked_cancel c : linked c → linked (cancel c).
Proof.
  intros Hl. rewrite cancel_spec by done. destruct Hl, c as [s p e ws]. unfold update. split; cbn in *.
  - by apply closed_queue_ok.
  - intros i. rewrite list_lookup_fmap. split; [set_solver|]. intros H.
    destruct (ws !! i) as [[]|]; done.
  - constructor.
  - unfold producer_waits. cbn. by destruct p, e.
  - unfold ThermalController.waiters_ok. simpl. done.
  - intros i pc Hpc Hcool. rewrite list_lookup_fmap in Hpc.
    destruct (ws !! i) as [pc'|] eqn:Hi; simplify_eq/=. by destruct pc'.
  - done.
  - done.
Qed.

(** ** What the helpers of the session leave alone *)

(** The fields that link the session to its suspended functions. *)
Definition control_of (s : session) :=
  (s_cancelled s, s_fatalError s, s_queue s, s_thermal s, s_preparedWindows s).

Definition uploadedBytes (s : session) : Z := ThroughputTracker.uploadedMediaBytes (s_throughput s).

(** The fields of the books. *)
Definition books_of (s : session) :=
  (c_readyFiles (s_counters s), s_planned s, uploadedBytes s, s_outcomes s).

Lemma control_emit e s : control_of (emit e s) = control_of s.
Proof. done. Qed.
Lemma books_emit e s : books_of (emit e s) = books_of s.
Proof. done. Qed.

Lemma control_recordHistoryProblem h a s : control_of (recordHistoryProblem h a s) = control_of s.
Proof. unfold recordHistoryProblem. by repeat case_match. Qed.
Lemma books_recordHistoryProblem h a s : books_of (recordHistoryProblem h a s) = books_of s.
Proof. unfold recordHistoryProblem. by repeat case_match. Qed.

Lemma control_mark_failure s f : control_of (mark_failure s f) = control_of s.
Proof.
  unfold mark_failure, markPreparationFailure. destruct (TransferOutcomes.fail _ _ _) as [[] o]; [|done].
  cbn [negb]. by rewrite control_emit, control_recordHistoryProblem.
Qed.
Lemma books_mark_failure s f :
  books_of (mark_failure s f)
  = (c_readyFiles (s_counters s), s_planned s, uploadedBytes s,
     (TransferOutcomes.fail (s_outcomes s) (pf_itemId f) true).2).
Proof.
  unfold mark_failure, markPreparationFailure. destruct (TransferOutcomes.fail _ _ _) as [[] o]; [|done].
  cbn [negb]. by rewrite books_emit, books_recordHistoryProblem.
Qed.

Lemma mark_failures_frame fs s :
  control_of (foldl mark_failure s fs) = control_of s
  ∧ books_of (foldl mark_failure s fs)
    = (c_readyFiles (s_counters s), s_planned s, uploadedBytes s, fail_all (s_outcomes s) (pf_itemId <$> fs)).
Proof.
  revert s. induction fs as [|f fs IH]; intros s; simpl; [done|].
  destruct (IH (mark_failure s f)) as [-> ->]. rewrite control_mark_failure. split; [done|].
  pose proof (books_mark_failure s f) as Hb. unfold books_of in Hb. injection Hb as -> -> -> ->. done.
Qed.

Lemma current_uploaded t d e now :
  let t' := ThroughputTracker.recordAcknowledgement t d e now in
  ThroughputTracker.uploadedMediaBytes t' = ThroughputTracker.uploadedMediaBytes t + d
  ∧ ThroughputTracker.rate_uploadedMediaBytes (ThroughputTracker.current t')
      = ThroughputTracker.uploadedMediaBytes t + d.
Proof.
  unfold ThroughputTracker.recordAcknowledgement, ThroughputTracker.current.
  destruct (ThroughputTracker.retire _ _ _ _ _ _) as [[? ?] ?].
  by destruct (ThroughputTracker.compact _ _) as [? ?].
Qed.

Section ledger.
Context (assets : list MediaAsset) (requested : PreparationMode) (skipExactDuplicates : bool).
Context (isNative : bool) (sessionId : string) (show : Z → string).

Notation report_progress := (report_progress assets requested isNative).

Lemma control_report item st s : control_of (report_progress item st s) = control_of s.
Proof. done. Qed.
Lemma books_report item st s : books_of (report_progress item st s) = books_of s.
Proof. done. Qed.

Lemma record_window_frame start w s :
  let s' := record_window assets requested skipExactDuplicates isNative start w s in
  control_of s' = control_of s
  ∧ books_of s' = (c_readyFiles (s_counters s) + lengthZ (pw_files w), s_planned s, uploadedBytes s,
                   fail_all (s_outcomes s) (pf_itemId <$> pw_failures w)).
Proof.
  intros s'. unfold s', record_window.
  set (s1 := s <| s_counters := _ |> <| s_emitted := _ |>).
  destruct (mark_failures_frame (pw_failures w) s1) as [Hc Hb].
  set (s2 := foldl mark_failure s1 (pw_failures w)) in *. clearbody s2.
  assert (control_of s1 = control_of s) as Hc1 by done. rewrite Hc1 in Hc. cbn in Hb.
  destruct (pw_files w) as [|f fs] eqn:Hf; [|destruct skipExactDuplicates]; split;
    rewrite ?control_report, ?books_report; first [exact Hc|exact Hb].
Qed.

Lemma skip_decided_frame item s :
  let s' := skip_decided assets requested isNative item s in
  control_of s' = control_of s
  ∧ books_of s' = (c_readyFiles (s_counters s), s_planned s, uploadedBytes s,
                   TransferOutcomes.skip (s_outcomes s) (f_variantId item) (f_size item) skip_preflight).
Proof.
  intros s'. unfold s', skip_decided. cbv zeta.
  rewrite control_report, books_report, control_emit, books_emit, control_recordHistoryProblem,
    books_recordHistoryProblem. done.
Qed.

Lemma fail_decided_frame item code s :
  let s' := fail_decided assets requested isNative item code s in
  control_of s' = control_of s
  ∧ books_of s' = (c_readyFiles (s_counters s), s_planned s, uploadedBytes s,
                   (TransferOutcomes.fail (s_outcomes s) (f_variantId item) false).2).
Proof.
  intros s'. unfold s', fail_decided. cbv zeta.
  rewrite control_report, books_report, control_emit, books_emit, control_recordHistoryProblem,
    books_recordHistoryProblem. done.
Qed.

Lemma upload_succeeded_frame item skipped sent saved s :
  let s' := upload_succeeded item skipped sent saved s in
  control_of s' = control_of s
  ∧ books_of s' = (c_readyFiles (s_counters s), s_planned s, uploadedBytes s,
       if skipped then TransferOutcomes.skip (s_outcomes s) (f_variantId item) (f_size item) skip_finalization
       else TransferOutcomes.save (s_outcomes s) (f_variantId item) (f_size item)).
Proof.
  intros s'. unfold s', upload_succeeded. destruct skipped; cbv zeta; [|done].
  rewrite control_emit, books_emit, control_recordHistoryProblem, books_recordHistoryProblem. done.
Qed.

Lemma upload_failed_frame item acknowledged error s :
  let s' := upload_failed_with assets requested isNative item acknowledged error s in
  control_of s' = control_of s
  ∧ books_of s' =
      (c_readyFiles (s_counters s),
       Z.max (ThroughputTracker.rate_uploadedMediaBytes (ThroughputTracker.current (s_throughput s)))
         (s_planned s - Z.max 0 (f_size item - acknowledged)),
       uploadedBytes s, (TransferOutcomes.fail (s_outcomes s) (f_variantId item) false).2).
Proof.
  intros s'. unfold s', upload_failed_with. cbv zeta.
  rewrite control_report, books_report, control_emit, books_emit.
  set (s1 := s <| s_outcomes := _ |>). set (h := {| h_id := f_variantId item |}).
  pose proof (control_recordHistoryProblem h (f_asset item) s1) as Hc.
  pose proof (books_recordHistoryProblem h (f_asset item) s1) as Hb.
  assert (s_throughput (recordHistoryProblem h (f_asset item) s1) = s_throughput s) as Ht
    by (unfold recordHistoryProblem; by repeat case_match).
  set (s2 := recordHistoryProblem h (f_asset item) s1) in *. clearbody s2.
  unfold books_of in Hb. cbn in Hb. injection Hb as Hb1 Hb2 Hb3 Hb4.
  split; [exact Hc|]. unfold books_of, uploadedBytes in *. cbn. by rewrite Ht, Hb1, Hb2, Hb4.
Qed.
End ledger.

(** ** The books of a configuration *)

Definition pending_producer (pc : producer_pc) : list PreparedUploadFile :=
  match pc with
  | P_checking _ _ w => pw_files w
  | P_deciding _ _ _ decided rest _ _ _ => decided ++ rest
  | P_pushing _ _ rest => rest
  | P_waiting _ _ file rest | P_woken _ _ file rest => file :: rest
  | P_loop _ _ | P_preparing _ _ | P_returned _ | P_ended _ => []
  end.

Definition pending_enqueuer (pc : enqueuer_pc) : list PreparedUploadFile :=
  match pc with
  | E_pushing rest => rest
  | E_waiting file rest | E_woken file rest => file :: rest
  | E_idle | E_ended _ => []
  end.

(** A worker that settled its file is only cleaning up. *)
Definition pending_worker (pc : worker_pc) : option PreparedUploadFile :=
  match pc with
  | W_received item => item
  | W_thermal item | W_thermal_woken item | W_gated item _ | W_native item _ | W_chunk item _ _
  | W_chunk_thermal item _ _ | W_chunk_woken item _ _ | W_chunk_gated item _ _ _
  | W_sending item _ _ => Some item
  | W_ready | W_shifting | W_releasing _ | W_finally _ _ | W_returned => None
  end.

Definition pending_elsewhere (c : config) : list PreparedUploadFile :=
  pending_producer (cf_producer c) ++ pending_enqueuer (cf_enqueuer c)
  ++ concat (s_preparedWindows (cf_session c)) ++ BoundedAsyncQueue.items (s_queue (cf_session c)).
Definition pending (c : config) : list PreparedUploadFile :=
  pending_elsewhere c ++ omap pending_worker (cf_workers c).

(** The planned bytes of a file that are still to be acknowledged. *)
Definition due_file (f : PreparedUploadFile) : Z := if uploads f then f_size f else 0.
Definition due_worker (pc : worker_pc) : Z :=
  match pc with
  | W_received item => from_option due_file 0 item
  | W_thermal item | W_thermal_woken item | W_gated item _ => due_file item
  | W_native item acknowledged | W_chunk item _ acknowledged | W_chunk_thermal item _ acknowledged
  | W_chunk_woken item _ acknowledged | W_chunk_gated item _ acknowledged _
  | W_sending item _ acknowledged => f_size item - acknowledged
  | W_ready | W_shifting | W_releasing _ | W_finally _ _ | W_returned => 0
  end.
(** Files of a window are planned when all of them are decided. *)
Definition due_producer (pc : producer_pc) : Z :=
  match pc with
  | P_pushing _ _ _ | P_waiting _ _ _ _ | P_woken _ _ _ _ => sumZ due_file (pending_producer pc)
  | _ => 0
  end.

Definition due_elsewhere (c : config) : Z :=
  due_producer (cf_producer c) + sumZ due_file (pending_enqueuer (cf_enqueuer c))
  + sumZ due_file (concat (s_preparedWindows (cf_session c)))
  + sumZ due_file (BoundedAsyncQueue.items (s_queue (cf_session c))).
Definition due (c : config) : Z := due_elsewhere c + sumZ due_worker (cf_workers c).

Definition ids (files : list PreparedUploadFile) : list string := f_variantId <$> files.

Record abstracts (c : config) (l : ledger) : Prop := {
  ab_pending : lg_pending l ≡ₚ ids (pending c);
  ab_due : lg_due l = due c;
  ab_planned : lg_planned l = s_planned (cf_session c);
  ab_uploaded : lg_uploaded l = uploadedBytes (cf_session c);
  ab_ready : lg_ready l = c_readyFiles (s_counters (cf_session c));
  ab_outcomes : lg_outcomes l = s_outcomes (cf_session c);
  ab_cancelled : lg_cancelled l = s_cancelled (cf_session c) }.

(** ** What holds of the program counters *)

(** A file being uploaded is one the preflight chose, and was acknowledged in part. *)
Definition worker_ok (s : session) (pc : worker_pc) : Prop :=
  match pc with
  | W_native item acknowledged => uploads item = true ∧ 0 <= acknowledged <= f_size item
  | W_chunk item k acknowledged | W_chunk_thermal item k acknowledged
  | W_chunk_woken item k acknowledged | W_chunk_gated item k acknowledged _
  | W_sending item k acknowledged =>
    uploads item = true ∧ 0 <= k < totalChunks item ∧ acknowledged = k * CHUNK_SIZE
  | W_gated _ ok => ok = false → s_cancelled s = true
  | W_finally _ returns => returns = true → s_cancelled s = true
  | W_received None | W_returned =>
    s_cancelled s = true
    ∨ (BoundedAsyncQueue.closed (s_queue s) = true ∧ BoundedAsyncQueue.items (s_queue s) = [])
  | _ => True
  end.

Definition producer_ok (streams : bool) (c : config) : Prop :=
  match cf_producer c with
  | P_deciding _ _ _ decided _ planned _ _ => planned = sumZ due_file decided
  | P_pushing _ _ _ | P_waiting _ _ _ _ | P_woken _ _ _ _ => streams = true
  | _ => True
  end
  ∧ (if streams then s_preparedWindows (cf_session c) = [] ∧ cf_enqueuer c = E_idle
     else match cf_producer c with
          | P_ended true => s_preparedWindows (cf_session c) = [] ∧ length (cf_workers c) = CONCURRENCY
          | _ => cf_workers c = [] ∧ cf_enqueuer c = E_idle
          end).

(** The queue is closed by a cancellation or when everything was pushed. *)
Definition closing_ok (streams : bool) (c : config) : Prop :=
  BoundedAsyncQueue.closed (s_queue (cf_session c)) = true →
  s_cancelled (cf_session c) = true
  ∨ (if streams then ∃ b, cf_producer c = P_ended b else ∃ e, cf_enqueuer c = E_ended e).

Record sound (streams : bool) (c : config) : Prop := {
  so_linked : linked c;
  so_sizes : ∀ f, f ∈ pending c → 0 < f_size f;
  so_workers : ∀ i pc, cf_workers c !! i = Some pc → worker_ok (cf_session c) pc;
  so_producer : producer_ok streams c;
  so_rate : ThroughputTracker.rate_uploadedMediaBytes
      (ThroughputTracker.current (s_throughput (cf_session c))) = uploadedBytes (cf_session c);
  so_closing : closing_ok streams c }.

(** One move of the session is some moves of the books; nothing settles short when [full]. *)
Definition keeps_books (streams full : bool) (c c' : config) : Prop :=
  sound streams c' ∧
  ∀ l, abstracts c l → ∃ l', rtc ledger_step l l' ∧ abstracts c' l'
                             ∧ (full = true → lg_short l' = lg_short l).

Lemma keeps_books_trans b f c1 c2 c3 :
  keeps_books b f c1 c2 → keeps_books b f c2 c3 → keeps_books b f c1 c3.
Proof.
  intros [_ H12] [Hs3 H23]. split; [done|]. intros l1 Ha1.
  destruct (H12 l1 Ha1) as (l2 & Hr12 & Ha2 & Hf12). destruct (H23 l2 Ha2) as (l3 & Hr23 & Ha3 & Hf23).
  exists l3. split_and!; [by etrans|done|]. intros Hf. by rewrite Hf23, Hf12.
Qed.

(** *** Lists of workers *)

Lemma set_worker_pending i pc pc' c :
  cf_workers c !! i = Some pc →
  option_list (pending_worker pc) ++ pending (set_worker i pc' c)
  ≡ₚ option_list (pending_worker pc') ++ pending c.
Proof.
  intros Hi. unfold pending. change (pending_elsewhere (set_worker i pc' c)) with (pending_elsewhere c).
  rewrite !(Permutation_app_swap_app _ (pending_elsewhere c)). apply Permutation_app_head.
  by apply omap_insert_perm.
Qed.

Lemma set_worker_due i pc pc' c :
  cf_workers c !! i = Some pc → due (set_worker i pc' c) = due c - due_worker pc + due_worker pc'.
Proof.
  intros Hi. unfold due. change (due_elsewhere (set_worker i pc' c)) with (due_elsewhere c).
  change (cf_workers (set_worker i pc' c)) with (<[i := pc']> (cf_workers c)).
  rewrite (sumZ_insert _ _ _ pc) by done. lia.
Qed.

(** A new program counter that is not suspended. *)
Definition running (pc : worker_pc) : bool := negb (shifting pc) && negb (cooling pc).

Lemma linked_set_worker i pc pc' c :
  linked c → cf_workers c !! i = Some pc → shifting pc = false → running pc' = true →
  linked (set_worker i pc' c).
Proof.
  intros [] Hi Hpc [Hs Hc]%andb_prop. apply negb_true_iff in Hs, Hc.
  assert (i < length (cf_workers c))%nat as Hlt by (by apply lookup_lt_Some in Hi).
  split; unfold set_worker, update; cbn; try done.
  - intros j. rewrite ln_consumers0. destruct (decide (i = j)) as [<-|Hne].
    + rewrite list_lookup_insert_eq by done. rewrite Hi.
      split; intros Heq; injection Heq as ->; done.
    + by rewrite list_lookup_insert_ne.
  - intros j pc0 Hj Hcool. destruct (decide (i = j)) as [<-|Hne].
    + rewrite list_lookup_insert_eq in Hj by done. simplify_eq. congruence.
    + rewrite list_lookup_insert_ne in Hj by done. by eapply ln_waiters0.
Qed.

Lemma pending_worker_elem c i pc f :
  cf_workers c !! i = Some pc → pending_worker pc = Some f → f ∈ pending c.
Proof.
  intros Hi Hf. unfold pending. apply elem_of_app. right. apply list_elem_of_omap.
  exists pc. split; [by apply list_elem_of_lookup_2 in Hi|done].
Qed.

Lemma sound_set_worker b i pc pc' c :
  sound b c → cf_workers c !! i = Some pc → shifting pc = false → running pc' = true →
  worker_ok (cf_session c) pc' →
  (∀ f, pending_worker pc' = Some f → pending_worker pc = Some f) →
  sound b (set_worker i pc' c).
Proof.
  intros [] Hi Hpc Hrun Hok Hitem.
  assert (i < length (cf_workers c))%nat as Hlt by (by apply lookup_lt_Some in Hi).
  split; try done.
  - by eapply linked_set_worker.
  - intros f Hf. apply so_sizes0.
    assert (f ∈ option_list (pending_worker pc) ++ pending (set_worker i pc' c)) as Hin
      by (apply elem_of_app; by right).
    rewrite (set_worker_pending i pc pc' c Hi) in Hin. apply elem_of_app in Hin as [Hin|Hin]; [|done].
    destruct (pending_worker pc') as [f'|] eqn:Hf'; [|by apply elem_of_nil in Hin].
    apply list_elem_of_singleton in Hin as ->. eapply pending_worker_elem; [done|]. by apply Hitem.
  - intros j pc0. unfold set_worker, update. cbn. destruct (decide (i = j)) as [<-|Hne].
    + rewrite list_lookup_insert_eq by done. by intros [= <-].
    + rewrite list_lookup_insert_ne by done. apply so_workers0.
  - destruct so_producer0 as [Hp Hm]. split; [done|]. destruct b; [done|].
    unfold set_worker, update. cbn. rewrite length_insert.
    destruct (cf_producer c) as [| | | | | | | |[]]; try done; destruct Hm as [Hm _]; by rewrite Hm in Hi.
Qed.

(** *** Moves that change only the session record *)

Definition core_of (s : session) := (s_cancelled s, s_queue s, s_thermal s, s_preparedWindows s).

Lemma control_core s s' : control_of s' = control_of s → core_of s' = core_of s.
Proof. unfold control_of, core_of. by intros [= -> _ -> -> ->]. Qed.

Lemma session_pending f c : core_of (f (cf_session c)) = core_of (cf_session c) →
  pending (on_session f c) = pending c ∧ due (on_session f c) = due c.
Proof.
  intros H. unfold core_of in H. injection H as H1 H2 H3 H4.
  unfold pending, due, pending_elsewhere, due_elsewhere, on_session, update. cbn. by rewrite H2, H4.
Qed.

Lemma worker_ok_core s s' pc : core_of s' = core_of s → worker_ok s pc → worker_ok s' pc.
Proof. unfold core_of. intros [= H1 H2 _ _]. destruct pc as [| |[]| | | | | | | | | | | |]; simpl; by rewrite ?H1, ?H2. Qed.

Definition rate_ok (s : session) : Prop :=
  ThroughputTracker.rate_uploadedMediaBytes (ThroughputTracker.current (s_throughput s)) = uploadedBytes s.

Lemma sound_session b f c :
  sound b c → core_of (f (cf_session c)) = core_of (cf_session c) → rate_ok (f (cf_session c)) →
  sound b (on_session f c).
Proof.
  intros [] Hcore Hrate. pose proof Hcore as [= H1 H2 H3 H4]. split.
  - by apply linked_session.
  - rewrite (proj1 (session_pending f c Hcore)). done.
  - intros i pc Hi. eapply worker_ok_core; [exact Hcore|]. by eapply so_workers0.
  - unfold producer_ok, on_session, update. cbn. by rewrite H4.
  - done.
  - unfold closing_ok, on_session, update. cbn. by rewrite H1, H2.
Qed.

(** *** Cancelling *)

Lemma omap_fmap_worker (wake : worker_pc → worker_pc) (pcs : list worker_pc) :
  (∀ pc, pending_worker (wake pc) = pending_worker pc) →
  omap pending_worker (wake <$> pcs) = omap pending_worker pcs.
Proof.
  intros H. induction pcs as [|pc pcs IH]; [done|]. rewrite fmap_cons. simpl. rewrite H.
  unfold omap in IH. by rewrite IH.
Qed.

Lemma woken_books c :
  pending {| cf_session := cancelled_session (cf_session c); cf_producer := wake_producer (cf_producer c);
             cf_enqueuer := wake_enqueuer (cf_enqueuer c); cf_workers := woken_worker <$> cf_workers c |}
    = pending c
  ∧ due {| cf_session := cancelled_session (cf_session c); cf_producer := wake_producer (cf_producer c);
           cf_enqueuer := wake_enqueuer (cf_enqueuer c); cf_workers := woken_worker <$> cf_workers c |}
    = due c.
Proof.
  destruct c as [s p e ws]. unfold pending, due, pending_elsewhere, due_elsewhere. cbn.
  rewrite omap_fmap_worker, sumZ_fmap by (by intros []).
  split.
  - by destruct p, e.
  - assert (due_producer (wake_producer p) = due_producer p) as -> by (by destruct p).
    assert (pending_enqueuer (wake_enqueuer e) = pending_enqueuer e) as -> by (by destruct e).
    assert (sumZ (λ x, due_worker (woken_worker x)) ws = sumZ due_worker ws) as ->; [|done].
    apply sumZ_ext. by intros [].
Qed.

Lemma sound_cancel b c : sound b c → sound b (cancel c).
Proof.
  intros [].
  pose proof (linked_cancel c so_linked0) as Hl. pose proof (woken_books c) as [Hp Hd].
  rewrite (cancel_spec c so_linked0) in *. split; try done.
  - rewrite Hp. done.
  - intros i pc. cbn. rewrite list_lookup_fmap. destruct (cf_workers c !! i) as [pc0|] eqn:Hi; [|done].
    intros [= <-]. apply so_workers0 in Hi. destruct pc0 as [| |[]| | | | | | | | | | | |]; simpl in *; try done; by left.
  - destruct so_producer0 as [Ho Hm]. split; cbn; [by destruct (cf_producer c)|].
    destruct b; [destruct Hm as [Hm ->]; done|].
    rewrite length_fmap. destruct (cf_producer c) as [| | | | | | | |[]]; simpl; try done; by destruct Hm as [-> ->].
  - unfold closing_ok. cbn. by left.
Qed.

Lemma keeps_silent b f c c' :
  sound b c' → ids (pending c') ≡ₚ ids (pending c) → due c' = due c →
  books_of (cf_session c') = books_of (cf_session c) →
  s_cancelled (cf_session c') = s_cancelled (cf_session c) → keeps_books b f c c'.
Proof.
  intros Hs Hp Hd Hb Hc. split; [done|]. intros l []. exists l. split; [done|]. split; [|done].
  unfold books_of in Hb. injection Hb as Hb1 Hb2 Hb3 Hb4.
  split; congruence || (etrans; [done|by symmetry]).
Qed.

Lemma keeps_session b f g c :
  sound b c → control_of (g (cf_session c)) = control_of (cf_session c) →
  books_of (g (cf_session c)) = books_of (cf_session c) → rate_ok (g (cf_session c)) →
  keeps_books b f c (on_session g c).
Proof.
  intros Hs Hc Hb Hr. apply control_core in Hc as Hcore.
  destruct (session_pending g c Hcore) as [Hp Hd].
  apply keeps_silent; rewrite ?Hp, ?Hd; try done; [by apply sound_session|].
  by injection Hcore as H1 _ _ _.
Qed.

Lemma keeps_cancel b f c : sound b c → keeps_books b f c (cancel c).
Proof.
  intros Hs. split; [by apply sound_cancel|]. intros l Ha.
  exists (l <| lg_cancelled := true |>). split; [apply rtc_once, ledger_cancel|]. split; [|done].
  pose proof (woken_books c) as [Hp Hd]. rewrite (cancel_spec c (so_linked _ _ Hs)).
  destruct Ha. split; cbn; rewrite ?Hp, ?Hd; done.
Qed.

(** *** Due bytes are never negative *)

Lemma due_file_nonneg f : 0 < f_size f → 0 <= due_file f <= f_size f.
Proof. unfold due_file. destruct (uploads f); lia. Qed.

Lemma totalChunks_spec item k : 0 <= k < totalChunks item → 0 <= k * CHUNK_SIZE < f_size item.
Proof.
  unfold totalChunks. intros Hk. assert (0 < CHUNK_SIZE) as Hc by done.
  pose proof (ceil_div_spec (f_size item) CHUNK_SIZE Hc). nia.
Qed.

Lemma due_worker_nonneg b c i pc : sound b c → cf_workers c !! i = Some pc → 0 <= due_worker pc.
Proof.
  intros Hs Hi. pose proof (so_workers _ _ Hs i pc Hi) as Hok.
  assert (∀ f, pending_worker pc = Some f → 0 < f_size f) as Hsize
    by (intros f Hf; apply (so_sizes _ _ Hs); by eapply pending_worker_elem).
  destruct pc as [| |[]| | | | | | | | | | | |]; simpl in *; try lia;
    try (apply due_file_nonneg; by apply Hsize);
    destruct Hok as (_ & Hk & ->); apply totalChunks_spec in Hk; lia.
Qed.

Lemma sum_due_nonneg b c fs : sound b c → (∀ f, f ∈ fs → f ∈ pending c) → 0 <= sumZ due_file fs.
Proof.
  intros Hs Hfs. apply sumZ_nonneg. intros f Hf. apply due_file_nonneg, (so_sizes _ _ Hs). by apply Hfs.
Qed.

Lemma due_parts b c :
  sound b c →
  0 <= due_producer (cf_producer c) ∧ 0 <= sumZ due_file (pending_enqueuer (cf_enqueuer c))
  ∧ 0 <= sumZ due_file (concat (s_preparedWindows (cf_session c)))
  ∧ 0 <= sumZ due_file (BoundedAsyncQueue.items (s_queue (cf_session c)))
  ∧ 0 <= sumZ due_worker (cf_workers c).
Proof.
  intros Hs. split_and!.
  - assert (0 <= sumZ due_file (pending_producer (cf_producer c))) as Hp
      by (eapply sum_due_nonneg; [done|]; intros f Hf; unfold pending, pending_elsewhere; set_solver).
    by destruct (cf_producer c).
  - eapply sum_due_nonneg; [done|]. intros f Hf. unfold pending, pending_elsewhere. set_solver.
  - eapply sum_due_nonneg; [done|]. intros f Hf. unfold pending, pending_elsewhere. set_solver.
  - eapply sum_due_nonneg; [done|]. intros f Hf. unfold pending, pending_elsewhere. set_solver.
  - apply sumZ_nonneg. intros pc [i Hi]%list_elem_of_lookup. by eapply due_worker_nonneg.
Qed.

Lemma due_worker_le b c i pc : sound b c → cf_workers c !! i = Some pc → 0 <= due_worker pc <= due c.
Proof.
  intros Hs Hi. split; [by eapply due_worker_nonneg|].
  destruct (due_parts b c Hs) as (? & ? & ? & ? & _). unfold due, due_elsewhere.
  enough (due_worker pc <= sumZ due_worker (cf_workers c)) by lia.
  apply sumZ_elem_le; [|by apply list_elem_of_lookup_2 in Hi].
  intros pc' [j Hj]%list_elem_of_lookup. by eapply due_worker_nonneg.
Qed.

(** *** Moves of one worker *)

Lemma on_session_set_worker g i pc c : set_worker i pc (on_session g c) = on_session g (set_worker i pc c).
Proof. by destruct c. Qed.

(** The worker goes on with the same file. *)
Lemma keeps_move b f i pc pc' c :
  sound b c → cf_workers c !! i = Some pc → shifting pc = false → running pc' = true →
  worker_ok (cf_session c) pc' → pending_worker pc' = pending_worker pc →
  due_worker pc' = due_worker pc → keeps_books b f c (set_worker i pc' c).
Proof.
  intros Hs Hi Hsh Hrun Hok Hp Hd. apply keeps_silent; try done.
  - eapply sound_set_worker; try done. intros x. by rewrite Hp.
  - pose proof (set_worker_pending i pc pc' c Hi) as Hperm. rewrite Hp in Hperm.
    apply Permutation_app_inv_l in Hperm. unfold ids. by rewrite Hperm.
  - rewrite (set_worker_due i pc) by done. lia.
Qed.

(** The worker settled its file and the session recorded it. *)
Lemma settled_abstracts i pc pc' item g c l l' :
  cf_workers c !! i = Some pc → pending_worker pc = Some item → pending_worker pc' = None →
  due_worker pc' = 0 → control_of (g (cf_session c)) = control_of (cf_session c) → abstracts c l →
  lg_pending l' = ids (pending (set_worker i pc' c)) → lg_due l' = lg_due l - due_worker pc →
  lg_cancelled l' = lg_cancelled l →
  (lg_ready l', lg_planned l', lg_uploaded l', lg_outcomes l') = books_of (g (cf_session c)) →
  abstracts (set_worker i pc' (on_session g c)) l'.
Proof.
  intros Hi Hp Hp' Hd' Hc [] Hl Hdue Hcan Hb. apply control_core in Hc.
  rewrite on_session_set_worker.
  destruct (session_pending g (set_worker i pc' c)) as [Hpend Hdues]; [done|].
  injection Hc as Hc1 _ _ _. injection Hb as Hb1 Hb2 Hb3 Hb4.
  split; rewrite ?Hpend, ?Hdues; cbn; try congruence; [by rewrite Hl|].
  rewrite (set_worker_due i pc) by done. lia.
Qed.

Lemma settled_pending i pc pc' item c l :
  cf_workers c !! i = Some pc → pending_worker pc = Some item → pending_worker pc' = None →
  abstracts c l → lg_pending l ≡ₚ f_variantId item :: ids (pending (set_worker i pc' c)).
Proof.
  intros Hi Hp Hp' []. rewrite ab_pending0. pose proof (set_worker_pending i pc pc' c Hi) as H.
  rewrite Hp, Hp' in H. simpl in H. unfold ids. by rewrite <-H.
Qed.

Lemma sound_settled b i pc pc' g c :
  sound b c → cf_workers c !! i = Some pc → shifting pc = false → running pc' = true →
  worker_ok (cf_session c) pc' → pending_worker pc' = None →
  control_of (g (cf_session c)) = control_of (cf_session c) → rate_ok (g (cf_session c)) →
  sound b (set_worker i pc' (on_session g c)).
Proof.
  intros Hs Hi Hsh Hrun Hok Hp Hc Hr. rewrite on_session_set_worker. apply control_core in Hc.
  apply sound_session; [|done..]. eapply sound_set_worker; try done. by rewrite Hp.
Qed.

Lemma rate_same_throughput s s' : s_throughput s' = s_throughput s → rate_ok s → rate_ok s'.
Proof. unfold rate_ok, uploadedBytes. by intros ->. Qed.

Lemma throughput_recordHistoryProblem h a s : s_throughput (recordHistoryProblem h a s) = s_throughput s.
Proof. unfold recordHistoryProblem. by repeat case_match. Qed.
