(* ===== verification/SessionWorkers.v ===== *)
(** * The books of an upload session: the workers

    Every run of a worker, and every answer it waits for, keeps the books. *)

From S2P Require Import Prelude Js UploadTypes Accounting AsyncQueue Throughput Control Preflight Ledger UploadSession SessionBooks.

#[local] Arguments producer_waits : simpl never.

Section workers.
Context (assets : list MediaAsset) (requested : PreparationMode) (isNative : bool) (b full : bool).

(** Closes the goal that the ledger after a settlement is that of the new configuration. *)
Ltac settled_fields Hb :=
  eapply settled_abstracts; try done; cbn; try lia; rewrite ?Hb; cbn;
  match goal with H : abstracts _ _ |- _ => destruct H end; congruence.

Lemma keeps_skip i pc item c :
  sound b c → cf_workers c !! i = Some pc → shifting pc = false → pending_worker pc = Some item →
  due_worker pc = 0 →
  keeps_books b full c (set_worker i (W_releasing item)
                          (on_session (skip_decided assets requested isNative item) c)).
Proof.
  intros Hs Hi Hsh Hp Hd.
  destruct (skip_decided_frame assets requested isNative item (cf_session c)) as [Hc Hb]. split.
  - eapply sound_settled; try done. eapply rate_same_throughput; [|apply (so_rate _ _ Hs)].
    unfold skip_decided. cbv zeta. cbn. by rewrite throughput_recordHistoryProblem.
  - intros l Ha. eexists. split; [|split].
    + apply rtc_once, (ledger_decided l (f_variantId item) (ids (pending (set_worker i (W_releasing item) c)))
                         (Skipped (f_size item) skip_preflight)); [by eapply settled_pending|done].
    + settled_fields Hb.
    + done.
Qed.

Lemma keeps_fail_decided i pc item code c :
  sound b c → cf_workers c !! i = Some pc → shifting pc = false → pending_worker pc = Some item →
  due_worker pc = 0 →
  keeps_books b full c (set_worker i (W_releasing item)
                          (on_session (fail_decided assets requested isNative item code) c)).
Proof.
  intros Hs Hi Hsh Hp Hd.
  destruct (fail_decided_frame assets requested isNative item code (cf_session c)) as [Hc Hb]. split.
  - eapply sound_settled; try done. eapply rate_same_throughput; [|apply (so_rate _ _ Hs)].
    unfold fail_decided. cbv zeta. cbn. by rewrite throughput_recordHistoryProblem.
  - intros l Ha.
    eexists. split; [|split].
    + apply rtc_once, (ledger_decided l (f_variantId item) (ids (pending (set_worker i (W_releasing item) c)))
                         (Failed false)); [by eapply settled_pending|done].
    + settled_fields Hb.
    + done.
Qed.

Lemma keeps_upload_done i pc item skipped sent saved c :
  sound b c → cf_workers c !! i = Some pc → shifting pc = false → pending_worker pc = Some item →
  (full = true → due_worker pc = 0) →
  keeps_books b full c (upload_done i item skipped sent saved c).
Proof.
  intros Hs Hi Hsh Hp Hfull.
  destruct (upload_succeeded_frame item skipped sent saved (cf_session c)) as [Hc Hb]. split.
  - eapply sound_settled; try done. eapply rate_same_throughput; [|apply (so_rate _ _ Hs)].
    unfold upload_succeeded. destruct skipped; cbv zeta; cbn; by rewrite ?throughput_recordHistoryProblem.
  - intros l Ha. eexists. split; [|split].
    + apply rtc_once, (ledger_transfer l (f_variantId item) (ids (pending (set_worker i (W_finally item false) c)))
        (if skipped then Skipped (f_size item) skip_finalization else Saved (f_size item)) (due_worker pc)).
      * by eapply settled_pending.
      * rewrite (ab_due _ _ Ha). by eapply due_worker_le.
      * by destruct skipped.
    + eapply settled_abstracts; try done; cbn; try lia. rewrite Hb. destruct Ha. destruct skipped; simpl; congruence.
    + intros Hf. cbn. rewrite (Hfull Hf). lia.
Qed.

(** After a cancellation a worker drops its file. *)
Lemma keeps_abandon i pc pc' item c :
  sound b c → s_cancelled (cf_session c) = true → cf_workers c !! i = Some pc → shifting pc = false →
  pending_worker pc = Some item → running pc' = true → worker_ok (cf_session c) pc' →
  pending_worker pc' = None → due_worker pc' = 0 → keeps_books b full c (set_worker i pc' c).
Proof.
  intros Hs Hcan Hi Hsh Hp Hrun Hok Hp' Hd'. split.
  - eapply sound_set_worker; try done. by rewrite Hp'.
  - intros l Ha. eexists. split; [|split].
    + apply rtc_once, (ledger_abandon l [f_variantId item] (ids (pending (set_worker i pc' c))) (due_worker pc)).
      * by rewrite (ab_cancelled _ _ Ha).
      * by eapply settled_pending.
      * rewrite (ab_due _ _ Ha). by eapply due_worker_le.
    + destruct Ha. split; cbn; try congruence; [done|]. rewrite (set_worker_due i pc) by done. lia.
    + done.
Qed.

Lemma running_woken pc : running pc = true → woken_worker pc = pc.
Proof. by destruct pc. Qed.

Lemma keeps_upload_threw i pc item acknowledged error c :
  sound b c → cf_workers c !! i = Some pc → running pc = true → pending_worker pc = Some item →
  0 <= acknowledged <= f_size item → due_worker pc = f_size item - acknowledged →
  keeps_books b full c (upload_threw assets requested isNative i item acknowledged error c).
Proof.
  intros Hs Hi Hrun Hp Hack Hd. assert (shifting pc = false) as Hsh by (by destruct pc).
  unfold upload_threw. destruct (isUnauthorizedError error); [|destruct (s_cancelled (cf_session c)) eqn:Hcan].
  - set (c1 := on_session (λ s, s <| s_fatalError := Some error |>) c).
    assert (sound b c1) as Hs1 by (apply sound_session; [done|done|apply (so_rate _ _ Hs)]).
    assert (keeps_books b full c c1) as H1.
    { apply keeps_silent; [done|done| |done..]. by destruct (session_pending (λ s, s <| s_fatalError := Some error |>) c). }
    eapply keeps_books_trans; [exact H1|]. eapply keeps_books_trans; [by apply keeps_cancel|].
    apply (keeps_abandon i pc _ item); try done.
    + by apply sound_cancel.
    + by rewrite (cancel_spec c1 (so_linked _ _ Hs1)).
    + rewrite (cancel_spec c1 (so_linked _ _ Hs1)). cbn. rewrite list_lookup_fmap, Hi. simpl.
      by rewrite running_woken.
    + intros _. by rewrite (cancel_spec c1 (so_linked _ _ Hs1)).
  - apply (keeps_abandon i pc _ item); try done. by intros _.
  - destruct (upload_failed_frame assets requested isNative item acknowledged error (cf_session c)) as [Hc Hb].
    split.
    + eapply sound_settled; try done. eapply rate_same_throughput; [|apply (so_rate _ _ Hs)].
      unfold upload_failed_with. cbv zeta. cbn. by rewrite throughput_recordHistoryProblem.
    + intros l Ha. eexists. split; [|split].
      * apply rtc_once, (ledger_fail l (f_variantId item) (ids (pending (set_worker i (W_finally item false) c)))
          (due_worker pc)).
        -- by eapply settled_pending.
        -- rewrite (ab_due _ _ Ha). by eapply due_worker_le.
      * eapply settled_abstracts; try done; cbn; try lia. rewrite Hb. destruct Ha.
        rewrite (so_rate _ _ Hs), (Z.max_r 0) by lia. rewrite Hd. congruence.
      * done.
Qed.
End workers.

(** *** The thermal gate *)

Lemma waitForUpload_cases k w k' r :
  ThermalController.waitForUpload k w = (k', r) →
  (r = Some (negb (ThermalController.was_cancelled k)) ∧ k' = k)
  ∨ (r = None ∧ ThermalController.was_cancelled k = false ∧ ThermalController.policy k = adaptive
     ∧ ThermalController.hot (ThermalController.state k) = true ∧ 0 < w
     ∧ k' = {| ThermalController.state := ThermalController.state k; ThermalController.was_cancelled := false;
               ThermalController.waiters := ThermalController.waiters k ++ [w];
               ThermalController.policy := ThermalController.policy k |}).
Proof.
  destruct k as [st ca ws po]. unfold ThermalController.waitForUpload. simpl. destruct po; intros H; simplify_eq; [by left|].
  destruct ca, (ThermalController.hot st) eqn:Hh, (0 <? w) eqn:Hw; simpl in *; simplify_eq; try by left.
  right. apply Z.ltb_lt in Hw. done.
Qed.

Lemma set_same_thermal c : on_session (λ s, s <| s_thermal := s_thermal (cf_session c) |>) c = c.
Proof. by destruct c as [[] p e ws]. Qed.

Lemma linked_suspend i pc pc' k c :
  linked c → cf_workers c !! i = Some pc → shifting pc = false → cooling pc' = true →
  ThermalController.waitForUpload (s_thermal (cf_session c)) (Z.of_nat i) = (k, None) →
  linked (set_worker i pc' (on_session (λ s, s <| s_thermal := k |>) c)).
Proof.
  intros [] Hi Hsh Hcool Hw. assert (i < length (cf_workers c))%nat as Hlt by (by apply lookup_lt_Some in Hi).
  apply waitForUpload_cases in Hw as [[? _]|(_ & Hc & Hpol & Hhot & Hpos & ->)]; [done|].
  split; unfold set_worker, on_session, update; cbn; try done.
  - intros j. rewrite ln_consumers. destruct (decide (i = j)) as [<-|Hne].
    + rewrite list_lookup_insert_eq by done. rewrite Hi. by split; intros [= ->].
    + by rewrite list_lookup_insert_ne.
  - intros _. split_and!; [done..|]. simpl.
    intros w [Hw'|Hw'%list_elem_of_singleton]%elem_of_app; [|by subst].
    apply ln_thermal; [|done]. intros Hnil. rewrite Hnil in Hw'. by apply elem_of_nil in Hw'.
  - intros j pc0 Hj Hcool0. apply elem_of_app. destruct (decide (i = j)) as [<-|Hne].
    + right. by apply list_elem_of_singleton.
    + rewrite list_lookup_insert_ne in Hj by done. left. by eapply ln_waiters.
  - congruence.
Qed.

Lemma keeps_gate b f i pc suspended answered c :
  sound b c → cf_workers c !! i = Some pc → running pc = true → cooling suspended = true →
  worker_ok (cf_session c) suspended → pending_worker suspended = pending_worker pc →
  due_worker suspended = due_worker pc →
  keeps_books b f c (set_worker i (answered (negb (s_cancelled (cf_session c)))) c) →
  keeps_books b f c (thermal_gate i suspended answered c).
Proof.
  intros Hs Hi Hrun Hcool Hok Hp Hd Hcont. unfold thermal_gate.
  destruct (ThermalController.waitForUpload _ _) as [k r] eqn:Hw.
  pose proof (waitForUpload_cases _ _ _ _ Hw) as [[-> ->]|(-> & Hc & _)].
  - rewrite set_same_thermal. by rewrite (ln_cancelled _ (so_linked _ _ Hs)).
  - assert (shifting pc = false) as Hsh by (by destruct pc).
    pose proof (set_worker_pending i pc suspended c Hi) as Hperm. rewrite Hp in Hperm.
    apply Permutation_app_inv_l in Hperm.
    apply keeps_silent; try done.
    + destruct Hs. split; try done.
      * by eapply linked_suspend.
      * intros x. change (pending (set_worker i suspended (on_session (λ s, s <| s_thermal := k |>) c)))
          with (pending (set_worker i suspended c)). rewrite Hperm. apply so_sizes.
      * intros j pc0. cbn. destruct (decide (i = j)) as [<-|Hne].
        -- rewrite list_lookup_insert_eq by (by apply lookup_lt_Some in Hi). intros [= <-].
           by destruct suspended.
        -- rewrite list_lookup_insert_ne by done. intros Hj. apply so_workers in Hj.
           by destruct pc0 as [| |[]| | | | | | | | | | | |].
      * destruct so_producer as [Ho Hm]. split; [done|]. destruct b; [done|]. cbn.
        rewrite length_insert. destruct (cf_producer c) as [| | | | | | | |[]]; try done; destruct Hm as [Hm _]; by rewrite Hm in Hi.
    + change (pending (set_worker i suspended (on_session (λ s, s <| s_thermal := k |>) c)))
        with (pending (set_worker i suspended c)). unfold ids. by rewrite Hperm.
    + change (due (set_worker i suspended (on_session (λ s, s <| s_thermal := k |>) c)))
        with (due (set_worker i suspended c)). rewrite (set_worker_due i pc) by done. lia.
Qed.

(** *** One run of a worker *)

Section worker_runs.
Context (assets : list MediaAsset) (requested : PreparationMode) (isNative : bool) (b full : bool).

Lemma keeps_begin_upload i now pc item c :
  sound b c → cf_workers c !! i = Some pc → running pc = true → pending_worker pc = Some item →
  due_worker pc = f_size item → uploads item = true →
  keeps_books b full c (begin_upload assets requested isNative i now item c).
Proof.
  intros Hs Hi Hrun Hp Hd Hup. assert (shifting pc = false) as Hsh by (by destruct pc).
  assert (0 < f_size item) as Hsize by (apply (so_sizes _ _ Hs); by eapply pending_worker_elem).
  unfold begin_upload. cbv zeta. set (s1 := emit _ _).
  eapply (keeps_books_trans _ _ _ (on_session (λ _, s1) c)).
  { apply keeps_session; try done. apply (so_rate _ _ Hs). }
  assert (sound b (on_session (λ _, s1) c)) as Hs1 by (by apply sound_session; [| |apply (so_rate _ _ Hs)]).
  change (c <| cf_session := s1 |>) with (on_session (λ _, s1) c).
  destruct (exceeds_limits isNative item).
  - apply (keeps_upload_threw _ _ _ _ _ i pc); try done; lia.
  - assert (0 < totalChunks item) as Hchunks.
    { assert (0 < CHUNK_SIZE) as Hpos by done. pose proof (ceil_div_spec (f_size item) CHUNK_SIZE Hpos).
      unfold totalChunks. nia. }
    apply (keeps_move _ _ i pc); try done; destruct isNative; simpl; try done; try lia; split_and!; try done; lia.
Qed.

Lemma keeps_gated i now pc item ok c :
  sound b c → cf_workers c !! i = Some pc → running pc = true → pending_worker pc = Some item →
  due_worker pc = due_file item → (ok = false → s_cancelled (cf_session c) = true) →
  keeps_books b full c (worker_gated assets requested isNative i now item ok c).
Proof.
  intros Hs Hi Hrun Hp Hd Hcan. assert (shifting pc = false) as Hsh by (by destruct pc).
  unfold worker_gated. destruct ok; simpl;
    [|specialize (Hcan eq_refl); apply (keeps_abandon _ _ i pc _ item); try done; by left].
  unfold due_file, uploads in Hd.
  destruct (decided_skip item) eqn:Hskip; [by apply (keeps_skip _ _ _ _ _ i pc)|].
  unfold decided_failed in Hd.
  destruct (f_preflightFailureCode item) as [code|] eqn:Hcode.
  - by apply (keeps_fail_decided _ _ _ _ _ i pc).
  - apply (keeps_begin_upload i now pc); try done.
    unfold uploads, decided_failed. rewrite Hskip, Hcode. done.
Qed.

Lemma keeps_worker_gate i pc item c :
  sound b c → cf_workers c !! i = Some pc → running pc = true → pending_worker pc = Some item →
  due_worker pc = due_file item → keeps_books b full c (worker_gate i item c).
Proof.
  intros Hs Hi Hrun Hp Hd. unfold worker_gate. apply (keeps_gate _ _ i pc); try done.
  apply (keeps_move _ _ i pc); try done; [by destruct pc|]. simpl. by intros ->%negb_false_iff.
Qed.

Lemma keeps_chunk_start i pc item k acknowledged c :
  sound b c → cf_workers c !! i = Some pc → running pc = true → pending_worker pc = Some item →
  due_worker pc = f_size item - acknowledged → worker_ok (cf_session c) (W_sending item k acknowledged) →
  keeps_books b full c (chunk_start i item k acknowledged c).
Proof.
  intros Hs Hi Hrun Hp Hd Hok. unfold chunk_start. pose proof Hok as (Hup & Hk & Hack).
  rewrite (proj2 (Z.leb_gt _ _)) by lia. apply (keeps_gate _ _ i pc); try done.
  apply totalChunks_spec in Hk. apply (keeps_move _ _ i pc); try done. by destruct pc.
Qed.

Lemma keeps_chunk_gated i item k acknowledged ok c :
  sound b c → cf_workers c !! i = Some (W_chunk_gated item k acknowledged ok) →
  keeps_books b full c (chunk_gated assets requested isNative i item k acknowledged ok c).
Proof.
  intros Hs Hi. unfold chunk_gated. pose proof (so_workers _ _ Hs i _ Hi) as (Hup & Hk & Hack).
  destruct (negb ok || _).
  - apply totalChunks_spec in Hk. apply (keeps_upload_threw _ _ _ _ _ i (W_chunk_gated item k acknowledged ok)); try done. lia.
  - by apply (keeps_move _ _ i (W_chunk_gated item k acknowledged ok)).
Qed.

Lemma keeps_finally i now item returns c :
  sound b c → cf_workers c !! i = Some (W_finally item returns) →
  keeps_books b full c (worker_finally i now item returns c).
Proof.
  intros Hs Hi. unfold worker_finally. cbv zeta.
  set (c1 := on_session (λ s, releasePreparedFile (f_nativeUri item) s) c).
  set (c2 := on_session _ c1).
  assert (keeps_books b full c c1) as H1 by (apply keeps_session; try done; apply (so_rate _ _ Hs)).
  assert (keeps_books b full c1 c2) as H2.
  { apply keeps_session; try done; [apply H1|apply (so_rate _ _ (proj1 H1))]. }
  eapply keeps_books_trans; [exact H1|]. eapply keeps_books_trans; [exact H2|].
  apply (keeps_move _ _ i (W_finally item returns)); try done; [apply H2|by destruct returns| |by destruct returns..].
  destruct returns; simpl; [|done]. left. by apply (so_workers _ _ Hs i _ Hi).
Qed.

Lemma keeps_releasing i item c :
  sound b c → cf_workers c !! i = Some (W_releasing item) →
  keeps_books b full c (set_worker i W_ready (on_session (releasePreparedFile (f_nativeUri item)) c)).
Proof.
  intros Hs Hi. eapply keeps_books_trans.
  - apply (keeps_session _ _ (releasePreparedFile (f_nativeUri item))); try done. apply (so_rate _ _ Hs).
  - apply (keeps_move _ _ i (W_releasing item)); try done.
    apply sound_session; try done. apply (so_rate _ _ Hs).
Qed.
End worker_runs.

(** *** Acknowledged bytes *)

Section acknowledgements.
Context (assets : list MediaAsset) (requested : PreparationMode) (isNative : bool) (b full : bool).

Lemma set_worker_twice i pc pc' c : set_worker i pc' (set_worker i pc c) = set_worker i pc' c.
Proof. destruct c as [s p e ws]. unfold set_worker, update. cbn. by rewrite list_insert_insert_eq. Qed.

(** The worker acknowledges [delta] more bytes of its file. *)
Lemma keeps_acknowledge i pc pc' g delta c :
  sound b c → cf_workers c !! i = Some pc → shifting pc = false → running pc' = true →
  worker_ok (cf_session c) pc' → pending_worker pc' = pending_worker pc →
  0 <= delta → due_worker pc' = due_worker pc - delta → 0 <= due_worker pc' →
  control_of (g (cf_session c)) = control_of (cf_session c) → rate_ok (g (cf_session c)) →
  books_of (g (cf_session c)) = (c_readyFiles (s_counters (cf_session c)), s_planned (cf_session c),
                                 uploadedBytes (cf_session c) + delta, s_outcomes (cf_session c)) →
  keeps_books b full c (set_worker i pc' (on_session g c)).
Proof.
  intros Hs Hi Hsh Hrun Hok Hp Hdelta Hd Hd' Hc Hr Hb. apply control_core in Hc as Hcore.
  rewrite on_session_set_worker.
  destruct (session_pending g (set_worker i pc' c)) as [Hpend Hdues]; [done|].
  pose proof (set_worker_pending i pc pc' c Hi) as Hperm. rewrite Hp in Hperm.
  apply Permutation_app_inv_l in Hperm. split.
  - apply sound_session; [|done..]. eapply sound_set_worker; try done. intros f. by rewrite Hp.
  - intros l []. exists (l <| lg_uploaded := lg_uploaded l + delta |> <| lg_due := lg_due l - delta |>).
    split; [|split; [|done]].
    + apply rtc_once, ledger_acknowledge. pose proof (due_worker_le b c i pc Hs Hi). lia.
    + unfold books_of in Hb. injection Hb as Hb1 Hb2 Hb3 Hb4. injection Hcore as Hc1 _ _ _.
      split; rewrite ?Hpend, ?Hdues; cbn; try congruence.
      * unfold ids. by rewrite Hperm.
      * rewrite (set_worker_due i pc) by done. lia.
Qed.

Notation acknowledge := (recordNativeAcknowledgement assets requested isNative).

Lemma keeps_native_acknowledge i item a reported now c :
  sound b c → cf_workers c !! i = Some (W_native item a) →
  let '(a', s') := acknowledge item a reported now (cf_session c) in
  keeps_books b full c (set_worker i (W_native item a') (c <| cf_session := s' |>))
  ∧ a <= a' <= f_size item ∧ (∀ n, reported = Finite n → f_size item <= n → a' = f_size item).
Proof.
  intros Hs Hi. destruct (so_workers _ _ Hs i _ Hi) as [Hup Ha].
  assert (keeps_books b full c (set_worker i (W_native item a) (c <| cf_session := cf_session c |>))) as Hsame.
  { assert (c <| cf_session := cf_session c |> = c) as -> by (by destruct c).
    by apply (keeps_move _ _ i (W_native item a)). }
  unfold recordNativeAcknowledgement. destruct reported as [n|]; [|split_and!; [done|lia|lia|done]].
  destruct (Z.leb_spec (Z.min (f_size item) (Z.max a n) - a) 0).
  - split_and!; [done|lia|lia|]. intros m [= <-] Hm. lia.
  - set (g := λ s, report_progress assets requested isNative item progress_uploading
                 (s <| s_throughput := ThroughputTracker.recordAcknowledgement (s_throughput s)
                         (Z.min (f_size item) (Z.max a n) - a) (Z.min (f_size item) (Z.max a n) - a) now |>)).
    change (c <| cf_session := g (cf_session c) |>) with (on_session g c).
    destruct (current_uploaded (s_throughput (cf_session c)) (Z.min (f_size item) (Z.max a n) - a)
                (Z.min (f_size item) (Z.max a n) - a) now) as [Hu Hr].
    split_and!; [|lia|lia|intros m [= <-] Hm; lia].
    apply (keeps_acknowledge i (W_native item a) _ g (Z.min (f_size item) (Z.max a n) - a)); try done; simpl; try lia.
    + split; [done|lia].
    + unfold rate_ok, uploadedBytes. cbn -[ThroughputTracker.recordAcknowledgement]. by rewrite Hu, Hr.
    + unfold books_of, uploadedBytes. cbn -[ThroughputTracker.recordAcknowledgement]. by rewrite Hu.
Qed.

Lemma upload_threw_override i pc pc0 item a error c :
  linked c → cf_workers c !! i = Some pc0 → shifting pc0 = false → running pc = true →
  upload_threw assets requested isNative i item a error (set_worker i pc c)
  = upload_threw assets requested isNative i item a error c.
Proof.
  intros Hl Hi Hsh Hrun. unfold upload_threw. destruct (isUnauthorizedError error).
  - set (g := λ s, s <| s_fatalError := Some error |>). rewrite <-on_session_set_worker.
    assert (linked (on_session g c)) as Hl1 by (by apply linked_session).
    rewrite (cancel_spec (set_worker i pc (on_session g c))) by (by eapply linked_set_worker).
    rewrite (cancel_spec (on_session g c)) by done.
    destruct c as [s p e ws]. unfold set_worker, on_session, update. cbn.
    by rewrite list_fmap_insert, list_insert_insert_eq.
  - cbn [set_worker]. change (cf_session (set_worker i pc c)) with (cf_session c).
    destruct (s_cancelled (cf_session c)); [apply set_worker_twice|].
    by rewrite !on_session_set_worker, set_worker_twice.
Qed.
End acknowledgements.

Section answers.
Context (assets : list MediaAsset) (requested : PreparationMode) (isNative : bool) (b full : bool).

Lemma upload_done_override i pc item skipped sent saved c :
  upload_done i item skipped sent saved (set_worker i pc c) = upload_done i item skipped sent saved c.
Proof. unfold upload_done. by rewrite !on_session_set_worker, set_worker_twice. Qed.

Lemma set_worker_lookup i pc pc0 c : cf_workers c !! i = Some pc0 → cf_workers (set_worker i pc c) !! i = Some pc.
Proof. intros Hi. apply list_lookup_insert_eq. by apply lookup_lt_Some in Hi. Qed.

Lemma keeps_native_progress i item a fileId reported now c :
  sound b c → cf_workers c !! i = Some (W_native item a) →
  keeps_books b full c (native_progress_event assets requested isNative i item a fileId reported now c).
Proof.
  intros Hs Hi. unfold native_progress_event. case_decide; [|by apply keeps_silent].
  pose proof (keeps_native_acknowledge assets requested isNative b full i item a reported now c Hs Hi) as H'.
  destruct (recordNativeAcknowledgement _ _ _ _ _ _ _ _) as [a' s']. apply H'.
Qed.

(** What the native answer adds before the upload ends. *)
Definition native_full (item : PreparedUploadFile) (answer : upload_answer) : bool :=
  match answer with
  | UploadAnswered (Finite n) _ _ _ _ _ => f_size item <=? n
  | UploadAnswered NotFinite _ _ _ _ _ => false
  | _ => true
  end.

Lemma native_acknowledge_facts i item a reported now c :
  sound b c → cf_workers c !! i = Some (W_native item a) →
  let '(a', s') := recordNativeAcknowledgement assets requested isNative item a reported now (cf_session c) in
  keeps_books b full c (set_worker i (W_native item a') (c <| cf_session := s' |>))
  ∧ 0 <= a' <= f_size item ∧ (∀ n, reported = Finite n → f_size item <= n → a' = f_size item)
  ∧ linked (c <| cf_session := s' |>) ∧ rate_ok s'.
Proof.
  intros Hs Hi. destruct (so_workers _ _ Hs i _ Hi) as [Hup Ha].
  pose proof (keeps_native_acknowledge assets requested isNative b full i item a reported now c Hs Hi) as H'.
  destruct (recordNativeAcknowledgement _ _ _ _ _ _ _ _) as [a' s'] eqn:Hr.
  destruct H' as (Hk & ? & ?). split_and!; [done|lia|lia|done| |apply Hk].
  unfold recordNativeAcknowledgement in Hr. apply (linked_session (λ _, s')); [apply (so_linked _ _ Hs)|..];
    destruct reported; simplify_eq; try done; case_match; by simplify_eq.
Qed.

Lemma keeps_native_threw i item a error c :
  sound b (set_worker i (W_native item a) c) → linked c → rate_ok (cf_session c) →
  (∃ a0, cf_workers c !! i = Some (W_native item a0)) → 0 <= a <= f_size item →
  keeps_books b full (set_worker i (W_native item a) c)
    (upload_threw assets requested isNative i item a error c).
Proof.
  intros Hs Hl Hr [a0 Hi] Ha.
  rewrite <-(upload_threw_override assets requested isNative i (W_native item a) (W_native item a0)) by done.
  apply (keeps_upload_threw assets requested isNative b full i (W_native item a));
    [done|by eapply set_worker_lookup|done..].
Qed.

Lemma keeps_native_answer i item a answer now c :
  sound b c → cf_workers c !! i = Some (W_native item a) →
  (full = true → native_full item answer = true) →
  keeps_books b full c (native_answer assets requested isNative i item a answer now c).
Proof.
  intros Hs Hi Hfull. pose proof (λ reported, native_acknowledge_facts i item a reported now c Hs Hi) as Hack.
  destruct answer as [reported skipped sent saved retries peak|code status reported|error]; simpl.
  - specialize (Hack reported). destruct (recordNativeAcknowledgement _ _ _ _ _ _ _ _) as [a' s'].
    destruct Hack as (Hk & Ha' & Hn & Hl & Hr). eapply keeps_books_trans; [exact Hk|].
    set (g := λ s, s <| s_nativeRetryCount := s_nativeRetryCount s' + retries |>
                    <| s_peakNativeMemory := Z.max (s_peakNativeMemory s') peak |>).
    change (c <| cf_session := s' <| s_nativeRetryCount := s_nativeRetryCount s' + retries |>
                                  <| s_peakNativeMemory := Z.max (s_peakNativeMemory s') peak |> |>)
      with (on_session g (c <| cf_session := s' |>)).
    rewrite <-(upload_done_override i (W_native item a')), on_session_set_worker.
    eapply keeps_books_trans; [apply (keeps_session _ _ g); [apply Hk|done|done|apply Hr]|].
    apply (keeps_upload_done b full i (W_native item a')); try done.
    + apply sound_session; [apply Hk|done|apply Hr].
    + by eapply set_worker_lookup.
    + intros Hf. simpl in *. specialize (Hfull Hf). destruct reported as [n|]; [|done].
      apply Z.leb_le in Hfull. rewrite (Hn n); [lia|done|done].
  - specialize (Hack reported). destruct (recordNativeAcknowledgement _ _ _ _ _ _ _ _) as [a' s'].
    destruct Hack as (Hk & Ha' & _ & Hl & Hr). eapply keeps_books_trans; [exact Hk|].
    case_decide; [|apply keeps_native_threw; [apply Hk|by eauto..]].
    eapply keeps_books_trans.
    { apply (keeps_session b full (emit NotifiedUnauthorized)); [apply Hk|done|done|apply Hr]. }
    rewrite <-on_session_set_worker. apply keeps_native_threw; [|by apply linked_session|done|by eauto|done].
    rewrite on_session_set_worker. apply sound_session; [apply Hk|done|apply Hr].
  - destruct (so_workers _ _ Hs i _ Hi).
    by apply (keeps_upload_threw assets requested isNative b full i (W_native item a)).
Qed.

(** One chunk of the Expo path. *)
Lemma chunk_length_spec item k :
  0 <= k < totalChunks item →
  0 <= chunk_length item k
  ∧ (k + 1 < totalChunks item → chunk_length item k = CHUNK_SIZE)
  ∧ (k + 1 = totalChunks item → k * CHUNK_SIZE + chunk_length item k = f_size item).
Proof.
  intros Hk. pose proof (totalChunks_spec item k Hk). unfold chunk_length.
  assert (0 < CHUNK_SIZE) as Hpos by done. pose proof (ceil_div_spec (f_size item) CHUNK_SIZE Hpos) as Hc.
  change (ceil_div (f_size item) CHUNK_SIZE) with (totalChunks item) in Hc.
  split_and!; [lia|intros Hlt|intros Heq].
  - assert ((k + 1) * CHUNK_SIZE <= (totalChunks item - 1) * CHUNK_SIZE) by nia. lia.
  - rewrite <-Heq in Hc. lia.
Qed.

Lemma keeps_chunk_sent i item k a base64 attempts now c :
  sound b c → cf_workers c !! i = Some (W_sending item k a) →
  keeps_books b full c (chunk_sent assets requested isNative i item k a base64 attempts now c).
Proof.
  intros Hs Hi. destruct (so_workers _ _ Hs i _ Hi) as (Hup & Hk & Ha).
  pose proof (totalChunks_spec _ _ Hk) as Hpos. pose proof (chunk_length_spec _ _ Hk) as (Hlen & Hmore & Hlast).
  assert (∀ error c1, sound b c1 → cf_workers c1 !! i = Some (W_sending item k a) →
    keeps_books b full c1 (upload_threw assets requested isNative i item a error c1)) as Hthrew.
  { intros error c1 Hs1 Hi1. apply (keeps_upload_threw assets requested isNative b full i (W_sending item k a)); try done. lia. }
  unfold chunk_sent. case_match; [by apply Hthrew|].
  destruct (uploadEncodedChunk attempts) as [body|error].
  - set (g := record_chunk assets requested isNative item (chunk_length item k) (default 0 base64) now).
    assert (∀ pc', running pc' = true → worker_ok (cf_session c) pc' → pending_worker pc' = Some item →
      due_worker pc' = f_size item - (a + chunk_length item k) → 0 <= due_worker pc' →
      keeps_books b full c (set_worker i pc' (on_session g c))) as Hack.
    { intros pc' Hrun Hok Hp Hd Hd'.
      apply (keeps_acknowledge b full i (W_sending item k a) _ g (chunk_length item k)); try done; simpl; try lia.
      - unfold rate_ok, uploadedBytes. cbn -[ThroughputTracker.recordAcknowledgement].
        by destruct (current_uploaded (s_throughput (cf_session c)) (chunk_length item k) (default 0 base64) now) as [-> ->].
      - unfold books_of, uploadedBytes. cbn -[ThroughputTracker.recordAcknowledgement].
        by destruct (current_uploaded (s_throughput (cf_session c)) (chunk_length item k) (default 0 base64) now) as [-> _]. }
    case_match eqn:Hend.
    + apply Z.eqb_eq in Hend. destruct (last_chunk_answer body) as [skipped saved].
      assert (keeps_books b full c (set_worker i (W_native item (f_size item)) (on_session g c))) as Hk'.
      { apply Hack; simpl; try done; [split; [done|lia]|rewrite Ha, Hlast; lia|lia]. }
      eapply keeps_books_trans; [exact Hk'|].
      rewrite <-(upload_done_override i (W_native item (f_size item))).
      apply (keeps_upload_done b full i (W_native item (f_size item))); try done; [apply Hk'|by eapply set_worker_lookup|].
      intros _. simpl. lia.
    + apply Z.eqb_neq in Hend. apply Hack; simpl; try done.
      * split_and!; [done|lia|lia|]. rewrite Ha, Hmore; lia.
      * rewrite Ha, Hmore by lia. pose proof (totalChunks_spec item (k + 1) ltac:(lia)). lia.
  - destruct (isUnauthorizedError error); [|by apply Hthrew].
    eapply keeps_books_trans.
    { apply (keeps_session b full (emit NotifiedUnauthorized)); [done|done|done|apply (so_rate _ _ Hs)]. }
    apply Hthrew; [|done]. apply sound_session; [done|done|apply (so_rate _ _ Hs)].
Qed.
End answers.

(** *** The queue *)

Section queue.
Context (b full : bool).

Lemma shift_cases (q : BoundedAsyncQueue.t PreparedUploadFile) i :
  (∃ v rest, BoundedAsyncQueue.items q = v :: rest
    ∧ BoundedAsyncQueue.shift q i
      = ({| BoundedAsyncQueue.capacity := BoundedAsyncQueue.capacity q; BoundedAsyncQueue.items := rest;
            BoundedAsyncQueue.waitingConsumers := BoundedAsyncQueue.waitingConsumers q;
            BoundedAsyncQueue.waitingProducers := tail (BoundedAsyncQueue.waitingProducers q);
            BoundedAsyncQueue.closed := BoundedAsyncQueue.closed q;
            BoundedAsyncQueue.observedMaxDepth := BoundedAsyncQueue.observedMaxDepth q |},
         BoundedAsyncQueue.ShiftItem v (head (BoundedAsyncQueue.waitingProducers q))))
  ∨ (BoundedAsyncQueue.items q = [] ∧ BoundedAsyncQueue.closed q = true
     ∧ BoundedAsyncQueue.shift q i = (q, BoundedAsyncQueue.ShiftNull))
  ∨ (BoundedAsyncQueue.items q = [] ∧ BoundedAsyncQueue.closed q = false
     ∧ BoundedAsyncQueue.shift q i
      = ({| BoundedAsyncQueue.capacity := BoundedAsyncQueue.capacity q; BoundedAsyncQueue.items := [];
            BoundedAsyncQueue.waitingConsumers := BoundedAsyncQueue.waitingConsumers q ++ [i];
            BoundedAsyncQueue.waitingProducers := BoundedAsyncQueue.waitingProducers q;
            BoundedAsyncQueue.closed := false;
            BoundedAsyncQueue.observedMaxDepth := BoundedAsyncQueue.observedMaxDepth q |},
         BoundedAsyncQueue.ShiftSuspended)).
Proof.
  unfold BoundedAsyncQueue.shift. destruct q as [cap [|v rest] cs ps cl d]; simpl; [|left; by exists v, rest].
  right. destruct cl; [left|right]; done.
Qed.

Lemma nobody_waits c :
  linked c → BoundedAsyncQueue.waitingProducers (s_queue (cf_session c)) = [] →
  wake_producer (cf_producer c) = cf_producer c ∧ wake_enqueuer (cf_enqueuer c) = cf_enqueuer c.
Proof.
  intros Hl Hnil. pose proof (ln_producers c Hl) as Hp. rewrite Hnil in Hp. unfold producer_waits in Hp.
  by destruct (cf_producer c), (cf_enqueuer c).
Qed.

(** The queue after its first item was taken. *)
Definition popped_queue (rest : list PreparedUploadFile) (q : BoundedAsyncQueue.t PreparedUploadFile)
    : BoundedAsyncQueue.t PreparedUploadFile :=
  {| BoundedAsyncQueue.capacity := BoundedAsyncQueue.capacity q; BoundedAsyncQueue.items := rest;
     BoundedAsyncQueue.waitingConsumers := BoundedAsyncQueue.waitingConsumers q;
     BoundedAsyncQueue.waitingProducers := tail (BoundedAsyncQueue.waitingProducers q);
     BoundedAsyncQueue.closed := BoundedAsyncQueue.closed q;
     BoundedAsyncQueue.observedMaxDepth := BoundedAsyncQueue.observedMaxDepth q |}.

Definition taken (i : nat) (v : PreparedUploadFile) (rest : list PreparedUploadFile) (c : config) : config :=
  {| cf_session := cf_session c <| s_queue := popped_queue rest (s_queue (cf_session c)) |>;
     cf_producer := wake_producer (cf_producer c); cf_enqueuer := wake_enqueuer (cf_enqueuer c);
     cf_workers := <[i := W_received (Some v)]> (cf_workers c) |}.

Lemma worker_shift_item i v rest c :
  linked c → s_cancelled (cf_session c) = false →
  BoundedAsyncQueue.items (s_queue (cf_session c)) = v :: rest → worker_shift i c = taken i v rest c.
Proof.
  intros Hl Hcan Hit. unfold worker_shift. rewrite Hcan.
  destruct (shift_cases (s_queue (cf_session c)) i) as [(v' & rest' & Hit' & ->)|[(?&?&?)|(?&?&?)]]; try congruence.
  rewrite Hit in Hit'. injection Hit' as <- <-.
  destruct (head (BoundedAsyncQueue.waitingProducers (s_queue (cf_session c)))) as [w|] eqn:Hh; [done|].
  destruct (nobody_waits c Hl) as [Hp He]; [by destruct (BoundedAsyncQueue.waitingProducers _)|].
  unfold taken. rewrite Hp, He. by destruct c.
Qed.

Lemma linked_taken i v rest c :
  linked c → cf_workers c !! i = Some W_ready →
  BoundedAsyncQueue.items (s_queue (cf_session c)) = v :: rest → linked (taken i v rest c).
Proof.
  intros [(Hcap & [Hd1 Hd2] & Hcons & Hcl) Hcs Hnd Hpr Hth Hwt Hca Hclo] Hi Hit.
  assert (BoundedAsyncQueue.waitingConsumers (s_queue (cf_session c)) = []) as Hnil.
  { destruct (BoundedAsyncQueue.waitingConsumers (s_queue (cf_session c))); [done|]. by rewrite Hcons in Hit. }
  assert (i < length (cf_workers c))%nat as Hlt by (by apply lookup_lt_Some in Hi).
  split; try done; cbn [taken cf_session cf_workers s_queue update popped_queue].
  - rewrite Hit in Hd1. simpl in Hd1. split; [done|]. split; [split; [cbn; lia|done]|]. split; cbn; [by rewrite Hnil|].
    intros Hc. by destruct (Hcl Hc) as [-> ->].
  - intros j. cbn. rewrite Hnil. split; [by intros ?%elem_of_nil|]. intros Hj. destruct (decide (i = j)) as [<-|Hne].
    + by rewrite list_lookup_insert_eq in Hj.
    + rewrite list_lookup_insert_ne in Hj by done. apply Hcs in Hj. by rewrite Hnil in Hj.
  - cbn. assert (producer_waits (taken i v rest c) = false) as ->
      by (unfold producer_waits; cbn; by destruct (cf_producer c), (cf_enqueuer c)).
    revert Hpr. destruct (BoundedAsyncQueue.waitingProducers _) as [|? [|? ?]]; [done..|]. by destruct (producer_waits c).
  - intros j pc Hj Hcool. cbn in *. destruct (decide (i = j)) as [<-|Hne].
    + rewrite list_lookup_insert_eq in Hj by done. by simplify_eq.
    + rewrite list_lookup_insert_ne in Hj by done. by eapply Hwt.
Qed.

Lemma taken_books i v rest c :
  cf_workers c !! i = Some W_ready → BoundedAsyncQueue.items (s_queue (cf_session c)) = v :: rest →
  pending (taken i v rest c) ≡ₚ pending c ∧ due (taken i v rest c) = due c.
Proof.
  intros Hi Hit. unfold pending, due, pending_elsewhere, due_elsewhere.
  assert (pending_producer (wake_producer (cf_producer c)) = pending_producer (cf_producer c)) as Hp
    by (by destruct (cf_producer c)).
  assert (pending_enqueuer (wake_enqueuer (cf_enqueuer c)) = pending_enqueuer (cf_enqueuer c)) as He
    by (by destruct (cf_enqueuer c)).
  assert (due_producer (wake_producer (cf_producer c)) = due_producer (cf_producer c)) as Hd
    by (by destruct (cf_producer c)).
  cbn [taken cf_producer cf_enqueuer cf_session cf_workers]. rewrite Hp, He, Hd.
  pose proof (omap_insert_perm pending_worker _ i W_ready (W_received (Some v)) Hi) as Hperm.
  simpl in Hperm. split.
  - unfold omap. rewrite Hperm, <-!app_assoc. do 3 apply Permutation_app_head. cbn. rewrite Hit.
    symmetry. apply (Permutation_middle rest).
  - rewrite (sumZ_insert _ _ _ W_ready) by done. cbn. rewrite Hit, sumZ_cons. lia.
Qed.

Lemma worker_ok_popped rest s pc :
  BoundedAsyncQueue.items (s_queue s) ≠ [] → worker_ok s pc →
  worker_ok (s <| s_queue := popped_queue rest (s_queue s) |>) pc.
Proof. intros Hne. destruct pc as [| |[]| | | | | | | | | | | |]; cbn; try done; intros [?|[_ ?]]; try done; by left. Qed.

Lemma sound_taken i v rest c :
  sound b c → cf_workers c !! i = Some W_ready →
  BoundedAsyncQueue.items (s_queue (cf_session c)) = v :: rest → sound b (taken i v rest c).
Proof.
  intros Hs Hi Hit. destruct (taken_books i v rest c Hi Hit) as [Hp _].
  pose proof (linked_taken i v rest c (so_linked _ _ Hs) Hi Hit) as Hl. destruct Hs.
  assert (i < length (cf_workers c))%nat as Hlt by (by apply lookup_lt_Some in Hi). split; try done.
  - intros f. rewrite Hp. apply so_sizes.
  - intros j pc. cbn. destruct (decide (i = j)) as [<-|Hne].
    + rewrite list_lookup_insert_eq by done. by intros [= <-].
    + rewrite list_lookup_insert_ne by done. intros Hj. apply so_workers in Hj.
      apply worker_ok_popped; [by rewrite Hit|done].
  - destruct so_producer as [Ho Hm]. split; cbn.
    + by destruct (cf_producer c).
    + destruct b; [by destruct Hm as [-> ->]|].
      rewrite ?length_insert. destruct (cf_producer c) as [| | | | | | | |[]]; cbn; try done; destruct Hm as [Hm _]; by rewrite Hm in Hi.
  - intros Hcl. destruct (so_closing Hcl) as [?|He]; [by left|right]. cbn.
    destruct b; destruct He as [x Hx]; exists x; by rewrite Hx.
Qed.

(** The queue after a worker was suspended in [shift]. *)
Definition awaited (i : nat) (c : config) : config :=
  set_worker i W_shifting (on_session (λ s, s <| s_queue :=
    {| BoundedAsyncQueue.capacity := BoundedAsyncQueue.capacity (s_queue s); BoundedAsyncQueue.items := [];
       BoundedAsyncQueue.waitingConsumers := BoundedAsyncQueue.waitingConsumers (s_queue s) ++ [i];
       BoundedAsyncQueue.waitingProducers := BoundedAsyncQueue.waitingProducers (s_queue s);
       BoundedAsyncQueue.closed := false;
       BoundedAsyncQueue.observedMaxDepth := BoundedAsyncQueue.observedMaxDepth (s_queue s) |} |>) c).

Lemma linked_awaited i c :
  linked c → cf_workers c !! i = Some W_ready → s_cancelled (cf_session c) = false →
  BoundedAsyncQueue.items (s_queue (cf_session c)) = [] → linked (awaited i c).
Proof.
  intros [(Hcap & [Hd1 Hd2] & Hcons & Hcl) Hcs Hnd Hpr Hth Hwt Hca Hclo] Hi Hcan Hit.
  assert (i < length (cf_workers c))%nat as Hlt by (by apply lookup_lt_Some in Hi).
  assert (i ∉ BoundedAsyncQueue.waitingConsumers (s_queue (cf_session c))) as Hni
    by (rewrite Hcs, Hi; done).
  split; try done.
  - split; [done|]. split; [split; cbn; [lia|done]|]. by split.
  - intros j. cbn. rewrite elem_of_app, Hcs, list_elem_of_singleton. destruct (decide (i = j)) as [<-|Hne].
    + rewrite list_lookup_insert_eq by done. split; [done|]. by right.
    + rewrite list_lookup_insert_ne by done. split; [by intros [?|?]; [|congruence]|by left].
  - apply NoDup_app. split_and!; [done| |apply NoDup_singleton]. intros j Hj ->%list_elem_of_singleton. done.
  - intros j pc Hj Hcool. cbn in *. destruct (decide (i = j)) as [<-|Hne].
    + rewrite list_lookup_insert_eq in Hj by done. by simplify_eq.
    + rewrite list_lookup_insert_ne in Hj by done. by eapply Hwt.
  - cbn. congruence.
Qed.

Lemma keeps_shift i c :
  sound b c → cf_workers c !! i = Some W_ready → keeps_books b full c (worker_shift i c).
Proof.
  intros Hs Hi. destruct (s_cancelled (cf_session c)) eqn:Hcan.
  { unfold worker_shift. rewrite Hcan. apply (keeps_move _ _ i W_ready); try done. by left. }
  destruct (shift_cases (s_queue (cf_session c)) i) as [(v & rest & Hit & _)|[(Hit & Hcl & Hsh)|(Hit & Hcl & Hsh)]].
  - rewrite (worker_shift_item i v rest) by (try done; apply Hs).
    destruct (taken_books i v rest c Hi Hit) as [Hp Hd].
    apply keeps_silent; try done; [by apply sound_taken|]. unfold ids. by rewrite Hp.
  - unfold worker_shift. rewrite Hcan, Hsh.
    assert (on_session (λ s, s <| s_queue := s_queue (cf_session c) |>) c = c) as -> by (by destruct c as [[] ? ? ?]).
    apply (keeps_move _ _ i W_ready); try done. by right.
  - assert (worker_shift i c = awaited i c) as -> by (unfold worker_shift; rewrite Hcan, Hsh; done).
    pose proof (linked_awaited i c (so_linked _ _ Hs) Hi Hcan Hit) as Hl.
    pose proof (set_worker_pending i W_ready W_shifting c Hi) as Hp. simpl in Hp.
    assert (pending (awaited i c) = pending (set_worker i W_shifting c)) as Hpa
      by (unfold pending, pending_elsewhere; cbn; by rewrite Hit).
    assert (i < length (cf_workers c))%nat as Hlt by (by apply lookup_lt_Some in Hi).
    destruct Hs. apply keeps_silent; try done.
    + split; try done.
      * intros f. rewrite Hpa, Hp. apply so_sizes.
      * intros j pc. cbn. destruct (decide (i = j)) as [<-|Hne].
        -- rewrite list_lookup_insert_eq by done. by intros [= <-].
        -- rewrite list_lookup_insert_ne by done. intros Hj. apply so_workers in Hj.
           destruct pc as [| |[]| | | | | | | | | | | |]; cbn in *; try done; destruct Hj as [?|[? ?]]; congruence.
      * destruct so_producer as [Ho Hm]. split; [done|]. destruct b; [done|]. cbn.
        rewrite ?length_insert. destruct (cf_producer c) as [| | | | | | | |[]]; try done; destruct Hm as [Hm _]; by rewrite Hm in Hi.
    + unfold ids. by rewrite Hpa, Hp.
    + assert (due (awaited i c) = due (set_worker i W_shifting c)) as ->
        by (unfold due, due_elsewhere; cbn; by rewrite Hit).
      rewrite (set_worker_due i W_ready) by done. simpl. lia.
Qed.
End queue.
