(* ===== verification/SessionProducer.v ===== *)
(** * The books of an upload session: the producer and the enqueuer

    Every run of the two functions that feed the queue keeps the books. *)

From S2P Require Import Prelude Js UploadTypes Accounting AsyncQueue Throughput Control Preflight Ledger UploadSession SessionBooks SessionWorkers.

#[local] Arguments producer_waits : simpl never.

(** *** Pushing a file *)

Definition with_queue (q : BoundedAsyncQueue.t PreparedUploadFile) (ws : list worker_pc) (c : config) : config :=
  {| cf_session := cf_session c <| s_queue := q |>; cf_producer := cf_producer c;
     cf_enqueuer := cf_enqueuer c; cf_workers := ws |}.

Definition suspended_queue (file : PreparedUploadFile) (q : BoundedAsyncQueue.t PreparedUploadFile)
    : BoundedAsyncQueue.t PreparedUploadFile :=
  {| BoundedAsyncQueue.capacity := BoundedAsyncQueue.capacity q; BoundedAsyncQueue.items := BoundedAsyncQueue.items q;
     BoundedAsyncQueue.waitingConsumers := BoundedAsyncQueue.waitingConsumers q;
     BoundedAsyncQueue.waitingProducers := BoundedAsyncQueue.waitingProducers q ++ [(0%nat, file)];
     BoundedAsyncQueue.closed := BoundedAsyncQueue.closed q;
     BoundedAsyncQueue.observedMaxDepth := BoundedAsyncQueue.observedMaxDepth q |}.
Definition handed_queue (ks : list nat) (q : BoundedAsyncQueue.t PreparedUploadFile)
    : BoundedAsyncQueue.t PreparedUploadFile :=
  {| BoundedAsyncQueue.capacity := BoundedAsyncQueue.capacity q; BoundedAsyncQueue.items := BoundedAsyncQueue.items q;
     BoundedAsyncQueue.waitingConsumers := ks; BoundedAsyncQueue.waitingProducers := BoundedAsyncQueue.waitingProducers q;
     BoundedAsyncQueue.closed := BoundedAsyncQueue.closed q;
     BoundedAsyncQueue.observedMaxDepth := BoundedAsyncQueue.observedMaxDepth q |}.
Definition stored_queue (file : PreparedUploadFile) (q : BoundedAsyncQueue.t PreparedUploadFile)
    : BoundedAsyncQueue.t PreparedUploadFile :=
  {| BoundedAsyncQueue.capacity := BoundedAsyncQueue.capacity q;
     BoundedAsyncQueue.items := BoundedAsyncQueue.items q ++ [file]; BoundedAsyncQueue.waitingConsumers := [];
     BoundedAsyncQueue.waitingProducers := BoundedAsyncQueue.waitingProducers q;
     BoundedAsyncQueue.closed := BoundedAsyncQueue.closed q;
     BoundedAsyncQueue.observedMaxDepth :=
       Nat.max (BoundedAsyncQueue.observedMaxDepth q) (length (BoundedAsyncQueue.items q ++ [file])) |}.

Inductive pushed (c : config) (file : PreparedUploadFile) : config → BoundedAsyncQueue.push_result → Prop :=
  | pushed_suspended :
      BoundedAsyncQueue.closed (s_queue (cf_session c)) = false →
      (BoundedAsyncQueue.capacity (s_queue (cf_session c)) <= length (BoundedAsyncQueue.items (s_queue (cf_session c))))%nat →
      pushed c file (with_queue (suspended_queue file (s_queue (cf_session c))) (cf_workers c) c)
        BoundedAsyncQueue.PushSuspended
  | pushed_threw :
      BoundedAsyncQueue.closed (s_queue (cf_session c)) = true →
      pushed c file c BoundedAsyncQueue.PushThrew
  | pushed_handed k ks :
      BoundedAsyncQueue.closed (s_queue (cf_session c)) = false →
      BoundedAsyncQueue.waitingConsumers (s_queue (cf_session c)) = k :: ks →
      pushed c file (with_queue (handed_queue ks (s_queue (cf_session c)))
                       (<[k := W_received (Some file)]> (cf_workers c)) c) (BoundedAsyncQueue.PushHanded k)
  | pushed_stored :
      BoundedAsyncQueue.closed (s_queue (cf_session c)) = false →
      BoundedAsyncQueue.waitingConsumers (s_queue (cf_session c)) = [] →
      (length (BoundedAsyncQueue.items (s_queue (cf_session c))) < BoundedAsyncQueue.capacity (s_queue (cf_session c)))%nat →
      pushed c file (with_queue (stored_queue file (s_queue (cf_session c))) (cf_workers c) c)
        BoundedAsyncQueue.PushStored.

Lemma run_push_cases callback waiting file c :
  linked c →
  ∃ c1 calls r, pushed c file c1 r
    ∧ run_push callback waiting file c = (on_session (λ s, foldl callback s calls) c1, r).
Proof.
  intros Hl. unfold run_push, BoundedAsyncQueue.push.
  destruct (negb (BoundedAsyncQueue.closed (s_queue (cf_session c))) && _) eqn:Hfull.
  - apply andb_prop in Hfull as [Hcl%negb_true_iff Hfull%Nat.leb_le].
    eexists _, _, _. split; [by apply pushed_suspended|]. by destruct c.
  - destruct (BoundedAsyncQueue.closed (s_queue (cf_session c))) eqn:Hcl.
    { exists c, (if waiting then [false] else []), BoundedAsyncQueue.PushThrew. split; [by apply pushed_threw|].
      f_equal. by destruct c as [[] ? ? ?]. }
    simpl in Hfull. apply Nat.leb_gt in Hfull.
    destruct (BoundedAsyncQueue.waitingConsumers (s_queue (cf_session c))) as [|k ks] eqn:Hks.
    + eexists _, _, _. split; [by apply pushed_stored|].
      unfold stored_queue. rewrite Hcl. by destruct c.
    + eexists _, _, _. split; [by eapply pushed_handed|].
      unfold handed_queue. rewrite Hcl. destruct c as [s p e ws]. cbn in *. f_equal.
      unfold on_session, with_queue, update. cbn. f_equal.
      assert (ws !! k = Some W_shifting) as Hk by (apply (ln_consumers _ Hl); cbn; rewrite Hks; left).
      apply list_eq. intros j. destruct (decide (k = j)) as [<-|Hne].
      * rewrite list_lookup_alter_eq, Hk. cbn. rewrite list_lookup_insert_eq; [done|by apply lookup_lt_Some in Hk].
      * by rewrite list_lookup_alter_ne, list_lookup_insert_ne.
Qed.

Definition with_pcs (p : producer_pc) (e : enqueuer_pc) (c : config) : config :=
  {| cf_session := cf_session c; cf_producer := p; cf_enqueuer := e; cf_workers := cf_workers c |}.

Definition suspends (r : BoundedAsyncQueue.push_result) : bool :=
  match r with BoundedAsyncQueue.PushSuspended => true | _ => false end.

Lemma linked_pushed c file c1 r p e :
  linked c → pushed c file c1 r → r ≠ BoundedAsyncQueue.PushThrew → producer_waits c = false →
  producer_waits (with_pcs p e c1) = suspends r → linked (with_pcs p e c1).
Proof.
  intros [(Hcap & [Hd1 Hd2] & Hcons & Hcl) Hcs Hnd Hpr Hth Hwt Hca Hclo] Hpush Hr Hnw Hw.
  rewrite Hnw in Hpr. apply nil_length_inv in Hpr as Hnil.
  destruct Hpush as [Hopen Hfull|Hclosed|k ks Hopen Hks|Hopen Hks Hroom]; [|done|..];
    split; try done; rewrite ?Hw; try (cbn; congruence).
  - split; [done|]. split; [done|]. split; [done|]. cbn. congruence.
  - cbn. by rewrite Hnil.
  - split; [done|]. split; [done|]. cbn. rewrite Hks in Hcons. rewrite Hopen.
    split; [intros _; by apply Hcons|done].
  - intros j. cbn. rewrite Hks in Hcs, Hnd. apply NoDup_cons in Hnd as [Hk Hnd].
    assert (cf_workers c !! k = Some W_shifting) as Hck by (apply Hcs; left).
    assert (k < length (cf_workers c))%nat as Hlt by (by apply lookup_lt_Some in Hck).
    destruct (decide (k = j)) as [<-|Hne].
    + rewrite list_lookup_insert_eq by done. by split.
    + rewrite list_lookup_insert_ne by done. rewrite <-Hcs. set_solver.
  - cbn. rewrite Hks in Hnd. by apply NoDup_cons in Hnd as [_ ?].
  - intros j pc Hj Hcool. cbn in *. destruct (decide (k = j)) as [<-|Hne].
    + assert (k < length (cf_workers c))%nat as Hlt
        by (apply (lookup_lt_Some _ _ W_shifting), Hcs; rewrite Hks; left).
      rewrite list_lookup_insert_eq in Hj by done. by simplify_eq.
    + rewrite list_lookup_insert_ne in Hj by done. by eapply Hwt.
  - split; [done|]. split; [|by split; [|cbn; congruence]]. cbn. rewrite length_app. cbn. lia.
  - intros j. cbn. rewrite <-Hcs, Hks. done.
Qed.

(** The files of the two pushing functions and those a configuration holds elsewhere. *)
Lemma pushed_books c file c1 r p e :
  linked c → pushed c file c1 r → r ≠ BoundedAsyncQueue.PushThrew →
  let new := if suspends r then [] else [file] in
  pending_producer (cf_producer c) ++ pending_enqueuer (cf_enqueuer c)
    ≡ₚ new ++ pending_producer p ++ pending_enqueuer e →
  due_producer (cf_producer c) + sumZ due_file (pending_enqueuer (cf_enqueuer c))
    = sumZ due_file new + due_producer p + sumZ due_file (pending_enqueuer e) →
  pending (with_pcs p e c1) ≡ₚ pending c ∧ due (with_pcs p e c1) = due c.
Proof.
  intros Hl Hpush Hr new Hp Hd. unfold pending, due, pending_elsewhere, due_elsewhere.
  rewrite !(app_assoc (pending_producer _)), Hp. unfold new in *.
  destruct Hpush as [Hopen Hfull|Hclosed|k ks Hopen Hks|Hopen Hks Hroom]; [|done|..]; cbn in *.
  - split; [by rewrite !app_assoc|]. rewrite sumZ_nil in Hd. lia.
  - assert (cf_workers c !! k = Some W_shifting) as Hk by (apply (ln_consumers c Hl); rewrite Hks; left).
    pose proof (omap_insert_perm pending_worker _ k W_shifting (W_received (Some file)) Hk) as Hperm.
    simpl in Hperm. split.
    + unfold omap. rewrite Hperm. by rewrite <-Permutation_middle.
    + rewrite (sumZ_insert _ _ _ W_shifting) by done. cbn. rewrite sumZ_singleton in Hd. lia.
  - rewrite sumZ_app, sumZ_singleton. rewrite sumZ_singleton in Hd. split; [|lia].
    rewrite <-!app_assoc. simpl. rewrite !app_assoc.
    rewrite <-(Permutation_middle _ _ file). by rewrite <-!app_assoc.
Qed.

Lemma worker_ok_open s s' pc :
  s_cancelled s' = s_cancelled s → BoundedAsyncQueue.closed (s_queue s) = false →
  worker_ok s pc → worker_ok s' pc.
Proof.
  intros Hc Hopen. destruct pc as [| |[]| | | | | | | | | | | |]; cbn; rewrite ?Hc; try done;
    intros [?|[? ?]]; try congruence; by left.
Qed.

Lemma sound_pushed b c file c1 r p e :
  sound b c → pushed c file c1 r → r ≠ BoundedAsyncQueue.PushThrew → producer_waits c = false →
  producer_waits (with_pcs p e c1) = suspends r → pending (with_pcs p e c1) ≡ₚ pending c →
  producer_ok b (with_pcs p e c1) → sound b (with_pcs p e c1).
Proof.
  intros [] Hpush Hr Hnw Hw Hp Hok. split; try done.
  - by eapply linked_pushed.
  - intros f. rewrite Hp. apply so_sizes.
  - intros i pc Hi. destruct Hpush as [Hopen Hfull|Hclosed|k ks Hopen Hks|Hopen Hks Hroom]; [|done|..]; cbn in Hi.
    + apply (worker_ok_open (cf_session c)); [done|done|]. by eapply so_workers.
    + destruct (decide (k = i)) as [<-|Hne].
      * assert (k < length (cf_workers c))%nat as Hlt
          by (apply (lookup_lt_Some _ _ W_shifting), (ln_consumers _ so_linked); rewrite Hks; left).
        rewrite list_lookup_insert_eq in Hi by done. by injection Hi as <-.
      * rewrite list_lookup_insert_ne in Hi by done.
        apply (worker_ok_open (cf_session c)); [done|done|]. by eapply so_workers.
    + apply (worker_ok_open (cf_session c)); [done|done|]. by eapply so_workers.
  - by destruct Hpush.
  - intros Hcl. destruct Hpush; cbn in Hcl; congruence.
Qed.

Lemma keeps_pushed b full c file c1 r p e :
  sound b c → pushed c file c1 r → r ≠ BoundedAsyncQueue.PushThrew → producer_waits c = false →
  let new := if suspends r then [] else [file] in
  pending_producer (cf_producer c) ++ pending_enqueuer (cf_enqueuer c)
    ≡ₚ new ++ pending_producer p ++ pending_enqueuer e →
  due_producer (cf_producer c) + sumZ due_file (pending_enqueuer (cf_enqueuer c))
    = sumZ due_file new + due_producer p + sumZ due_file (pending_enqueuer e) →
  producer_waits (with_pcs p e c1) = suspends r → producer_ok b (with_pcs p e c1) →
  keeps_books b full c (with_pcs p e c1).
Proof.
  intros Hs Hpush Hr Hnw new Hp Hd Hw Hok.
  destruct (pushed_books c file c1 r p e (so_linked _ _ Hs) Hpush Hr Hp Hd) as [Hpend Hdue].
  apply keeps_silent; try done.
  - by eapply sound_pushed.
  - unfold ids. by rewrite Hpend.
  - by destruct Hpush.
  - by destruct Hpush.
Qed.

(** *** Moves of the producer and of the enqueuer *)

Section producers.
Context (assets : list MediaAsset) (requested : PreparationMode) (skipExactDuplicates : bool).
Context (isNative : bool) (sessionId : string) (show : Z → string) (b full : bool).

Lemma linked_with_pcs p e c :
  linked c → producer_waits (with_pcs p e c) = producer_waits c → linked (with_pcs p e c).
Proof. intros [] Hw. split; try done. by rewrite Hw. Qed.

Lemma sound_with_pcs p e c :
  sound b c → producer_waits (with_pcs p e c) = producer_waits c →
  (∀ f, f ∈ pending_producer p ++ pending_enqueuer e → 0 < f_size f) →
  producer_ok b (with_pcs p e c) → closing_ok b (with_pcs p e c) → sound b (with_pcs p e c).
Proof.
  intros [] Hw Hp Hok Hcl. split; try done; [by apply linked_with_pcs|].
  intros f Hf. unfold pending, pending_elsewhere in Hf, so_sizes. cbn in Hf.
  assert (f ∈ pending_producer p ++ pending_enqueuer e
    ∨ f ∈ concat (s_preparedWindows (cf_session c)) ++ BoundedAsyncQueue.items (s_queue (cf_session c))
          ++ omap pending_worker (cf_workers c)) as [H|H] by set_solver; [by apply Hp|].
  apply so_sizes. set_solver.
Qed.

Lemma with_pcs_books p e c :
  pending_producer (cf_producer c) ++ pending_enqueuer (cf_enqueuer c) ++ pending (with_pcs p e c)
    ≡ₚ pending_producer p ++ pending_enqueuer e ++ pending c
  ∧ due (with_pcs p e c) = due c - due_producer (cf_producer c) - sumZ due_file (pending_enqueuer (cf_enqueuer c))
                          + due_producer p + sumZ due_file (pending_enqueuer e).
Proof.
  unfold pending, due, pending_elsewhere, due_elsewhere. cbn. split; [|lia].
  rewrite <-!app_assoc, !(app_assoc (pending_producer (cf_producer c)) (pending_enqueuer (cf_enqueuer c))),
    !(app_assoc (pending_producer p) (pending_enqueuer e)).
  apply Permutation_app_swap_app.
Qed.

(** The functions go on with the same files. *)
Lemma keeps_with_pcs p e c :
  sound b c → producer_waits (with_pcs p e c) = producer_waits c →
  pending_producer p ++ pending_enqueuer e = pending_producer (cf_producer c) ++ pending_enqueuer (cf_enqueuer c) →
  due_producer p + sumZ due_file (pending_enqueuer e)
    = due_producer (cf_producer c) + sumZ due_file (pending_enqueuer (cf_enqueuer c)) →
  producer_ok b (with_pcs p e c) → closing_ok b (with_pcs p e c) →
  keeps_books b full c (with_pcs p e c).
Proof.
  intros Hs Hw Hp Hd Hok Hcl. destruct (with_pcs_books p e c) as [Hpend Hdue].
  rewrite !app_assoc, Hp in Hpend. apply Permutation_app_inv_l in Hpend.
  apply keeps_silent; try done.
  - apply sound_with_pcs; try done. intros f. rewrite Hp. intros Hf. apply (so_sizes _ _ Hs).
    unfold pending, pending_elsewhere. set_solver.
  - unfold ids. by rewrite Hpend.
  - lia.
Qed.

(** After a cancellation they drop what they hold. *)
Lemma keeps_drop p e c :
  sound b c → s_cancelled (cf_session c) = true → producer_waits (with_pcs p e c) = producer_waits c →
  pending_producer p = [] → due_producer p = 0 → pending_enqueuer e = [] →
  producer_ok b (with_pcs p e c) → keeps_books b full c (with_pcs p e c).
Proof.
  intros Hs Hcan Hw Hp Hd He Hok. destruct (with_pcs_books p e c) as [Hpend Hdue].
  rewrite Hp, He in Hpend. rewrite Hd, He, sumZ_nil in Hdue. simpl in Hpend.
  destruct (due_parts b c Hs) as (? & ? & ? & ? & ?). split.
  - apply sound_with_pcs; try done; [|by intros _; left]. rewrite Hp, He. by intros f ?%elem_of_nil.
  - intros l Ha. eexists. split; [|split].
    + apply rtc_once, (ledger_abandon l
        (ids (pending_producer (cf_producer c) ++ pending_enqueuer (cf_enqueuer c)))
        (ids (pending (with_pcs p e c)))
        (due_producer (cf_producer c) + sumZ due_file (pending_enqueuer (cf_enqueuer c)))).
      * by rewrite (ab_cancelled _ _ Ha).
      * rewrite (ab_pending _ _ Ha). unfold ids. rewrite <-fmap_app, <-app_assoc. by rewrite Hpend.
      * rewrite (ab_due _ _ Ha). unfold due, due_elsewhere. lia.
    + destruct Ha. split; cbn; try done. lia.
    + done.
Qed.

Lemma keeps_close c :
  sound b c → (if b then ∃ r, cf_producer c = P_ended r else ∃ r, cf_enqueuer c = E_ended r) →
  keeps_books b full c (close_queue c).
Proof.
  intros Hs Hend. pose proof (linked_close c (so_linked _ _ Hs)) as Hl.
  rewrite (close_queue_spec c (so_linked _ _ Hs)) in *.
  assert (pending_producer (wake_producer (cf_producer c)) = pending_producer (cf_producer c)) as Hp
    by (by destruct (cf_producer c)).
  assert (pending_enqueuer (wake_enqueuer (cf_enqueuer c)) = pending_enqueuer (cf_enqueuer c)) as He
    by (by destruct (cf_enqueuer c)).
  assert (due_producer (wake_producer (cf_producer c)) = due_producer (cf_producer c)) as Hd
    by (by destruct (cf_producer c)).
  set (c' := {| cf_session := _ |}) in *.
  assert (pending c' = pending c) as Hpend.
  { unfold pending, pending_elsewhere. cbn. rewrite Hp, He, omap_fmap_worker by (by intros []). done. }
  assert (due c' = due c) as Hdue.
  { unfold due, due_elsewhere. cbn. rewrite Hd, He, sumZ_fmap.
    assert (sumZ (λ x, due_worker (receive None x)) (cf_workers c) = sumZ due_worker (cf_workers c)) as ->; [|done].
    apply sumZ_ext. by intros []. }
  pose proof (so_linked _ _ Hs) as Hl0. destruct Hs.
  apply keeps_silent; rewrite ?Hpend, ?Hdue; try done. split; rewrite ?Hpend; try done.
  - intros i pc. cbn. rewrite list_lookup_fmap. destruct (cf_workers c !! i) as [pc0|] eqn:Hi; [|done].
    intros [= <-]. pose proof (so_workers i pc0 Hi) as Hok.
    destruct pc0 as [| |[]| | | | | | | | | | | |]; cbn in *; try done.
    + right. split; [done|]. apply (ln_consumers c Hl0) in Hi. destruct (ln_queue c Hl0) as (_ & _ & Hcons & _).
      apply Hcons. intros Hnil. rewrite Hnil in Hi. by apply elem_of_nil in Hi.
    + destruct Hok as [?|[? ?]]; [by left|by right].
    + destruct Hok as [?|[? ?]]; [by left|by right].
  - destruct so_producer as [Ho Hm]. split; cbn; [by destruct (cf_producer c)|].
    destruct b; [destruct Hm as [Hm ->]; done|].
    rewrite ?length_fmap. destruct (cf_producer c) as [| | | | | | | |[]]; simpl; try done; by destruct Hm as [-> ->].
  - intros _. right. cbn. destruct b; destruct Hend as [r Hr]; exists r; by rewrite Hr.
Qed.

Lemma mode_not_ended c p :
  producer_ok b c → cf_producer c ≠ P_ended true → p ≠ P_ended true →
  match p with
  | P_deciding _ _ _ decided _ planned _ _ => planned = sumZ due_file decided
  | P_pushing _ _ _ | P_waiting _ _ _ _ | P_woken _ _ _ _ => b = true
  | _ => True
  end → producer_ok b (with_pcs p (cf_enqueuer c) c).
Proof.
  intros [_ Hm] Hne Hp Hok. split; [exact Hok|]. destruct b; [done|]. cbn.
  assert (cf_workers c = [] ∧ cf_enqueuer c = E_idle) as Hi by (by destruct (cf_producer c) as [| | | | | | | |[]]).
  by destruct p as [| | | | | | | |[]].
Qed.

(** Nothing closes the queue while the producer runs. *)
Lemma closing_running c p :
  sound b c → (∀ r, cf_producer c ≠ P_ended r) → closing_ok b (with_pcs p (cf_enqueuer c) c).
Proof.
  intros Hs Hne Hcl. destruct (so_closing _ _ Hs Hcl) as [?|He]; [by left|]. destruct b eqn:Hb.
  - destruct He as [r Hr]. by destruct (Hne r).
  - right. done.
Qed.

(** The producer moves on with the files it has. *)
Lemma keeps_producer p c :
  sound b c → (∀ r, cf_producer c ≠ P_ended r) → p ≠ P_ended true →
  match cf_producer c with P_waiting _ _ _ _ => false | _ => true end = true →
  match p with P_waiting _ _ _ _ => false | _ => true end = true →
  pending_producer p = pending_producer (cf_producer c) → due_producer p = due_producer (cf_producer c) →
  match p with
  | P_deciding _ _ _ decided _ planned _ _ => planned = sumZ due_file decided
  | P_pushing _ _ _ | P_waiting _ _ _ _ | P_woken _ _ _ _ => b = true
  | _ => True
  end → keeps_books b full c (c <| cf_producer := p |>).
Proof.
  intros Hs Hne Hp Hw1 Hw2 Hpp Hd Hok. change (c <| cf_producer := p |>) with (with_pcs p (cf_enqueuer c) c).
  apply keeps_with_pcs; try done; [| |lia|..].
  - unfold producer_waits. cbn. by destruct (cf_producer c), p.
  - by rewrite Hpp.
  - apply mode_not_ended; try done. apply Hs.
  - by apply closing_running.
Qed.

Lemma keeps_producer_drop p c :
  sound b c → s_cancelled (cf_session c) = true → cf_producer c ≠ P_ended true → p ≠ P_ended true →
  match cf_producer c with P_waiting _ _ _ _ => false | _ => true end = true →
  match p with P_waiting _ _ _ _ => false | _ => true end = true →
  pending_producer p = [] → due_producer p = 0 → pending_enqueuer (cf_enqueuer c) = [] →
  match p with
  | P_deciding _ _ _ decided _ planned _ _ => planned = sumZ due_file decided
  | P_pushing _ _ _ | P_waiting _ _ _ _ | P_woken _ _ _ _ => b = true
  | _ => True
  end → keeps_books b full c (c <| cf_producer := p |>).
Proof.
  intros Hs Hcan Hne Hp Hw1 Hw2 Hpp Hd He Hok. change (c <| cf_producer := p |>) with (with_pcs p (cf_enqueuer c) c).
  apply keeps_drop; try done.
  - unfold producer_waits. cbn. by destruct (cf_producer c), p.
  - apply mode_not_ended; try done. apply Hs.
Qed.

(** Before the producer ended, nothing is with the enqueuer. *)
Lemma enqueuer_idle c :
  sound b c → (∀ r, cf_producer c ≠ P_ended r) → cf_enqueuer c = E_idle.
Proof.
  intros Hs Hne. destruct (so_producer _ _ Hs) as [_ Hm]. destruct b; [apply Hm|].
  destruct (cf_producer c) as [| | | | | | | |[]]; try apply Hm. by destruct (Hne true).
Qed.

Lemma keeps_set_fatal error c :
  sound b c → keeps_books b full c (on_session (λ s, s <| s_fatalError := Some error |>) c).
Proof.
  intros Hs. destruct (session_pending (λ s, s <| s_fatalError := Some error |>) c) as [Hp Hd]; [done|].
  apply keeps_silent; rewrite ?Hp, ?Hd; try done.
  apply sound_session; [done|done|apply (so_rate _ _ Hs)].
Qed.

Lemma keeps_producer_catch error c :
  sound b c → (∀ r, cf_producer c ≠ P_ended r) →
  match cf_producer c with P_waiting _ _ _ _ => false | _ => true end = true →
  keeps_books b full c (producer_catch error c).
Proof.
  intros Hs Hne Hnw. unfold producer_catch. cbv zeta. set (fatal := if isUnauthorizedError error then _ else _).
  set (c1 := on_session (λ s, s <| s_fatalError := Some fatal |>) c).
  pose proof (keeps_set_fatal fatal c Hs) as H1. change (on_session _ c) with c1 in H1.
  pose proof (keeps_cancel b full c1 (proj1 H1)) as H2.
  eapply keeps_books_trans; [exact H1|]. eapply keeps_books_trans; [exact H2|].
  pose proof (cancel_spec c1 (so_linked _ _ (proj1 H1))) as Hc.
  assert (cf_producer (cancel c1) = cf_producer c) as Hp by (rewrite Hc; cbn; by destruct (cf_producer c)).
  assert (cf_enqueuer (cancel c1) = E_idle) as He by (rewrite Hc; cbn; by rewrite (enqueuer_idle c)).
  apply keeps_producer_drop; try done; [apply H2|by rewrite Hc|rewrite Hp; apply Hne|by rewrite Hp|by rewrite He].
Qed.

Lemma keeps_loop start w c :
  sound b c → cf_producer c = P_loop start w → keeps_books b full c (producer_loop assets start w c).
Proof.
  intros Hs Hp. unfold producer_loop. apply keeps_producer; rewrite ?Hp; try done; by repeat case_match.
Qed.

(** The annotations keep what the books use. *)
Lemma annotate_frame preflight n f :
  f_variantId (annotate sessionId show preflight n f) = f_variantId f
  ∧ f_size (annotate sessionId show preflight n f) = f_size f.
Proof. done. Qed.

Lemma keeps_checked start w window env c :
  sound b c → cf_producer c = P_checking start w window →
  keeps_books b full c (producer_checked skipExactDuplicates start w window env c).
Proof.
  intros Hs Hp. unfold producer_checked.
  destruct (runDuplicatePreflightWindow _ _ _ _) as [error|[preflight outgoing]].
  - apply keeps_producer_catch; [done|by rewrite Hp..].
  - set (g := λ s, s <| s_outgoingHashes := outgoing |> <| s_preparationActivity := activity_preparing |>
       <| s_counters := s_counters s <| c_preflightFailureCount :=
            c_preflightFailureCount (s_counters s) + failureCount (pres_journal preflight) |> |>).
    change (c <| cf_session := _ |>) with (on_session g c).
    assert (keeps_books b full c (on_session g c)) as H1 by (apply keeps_session; try done; apply (so_rate _ _ Hs)).
    eapply keeps_books_trans; [exact H1|]. apply keeps_producer; try done; [apply H1|by cbn; rewrite Hp..].
Qed.

(** A window whose identifiers are new and whose files are not empty: what preparation
    promises the session. *)
Record window_ok (c : config) (w : PreparedWindow) : Prop := {
  wo_nodup : NoDup (ids (pw_files w));
  wo_fresh : ∀ i, i ∈ ids (pw_files w) →
    i ∉ ids (pending c) ∧ i ∉ TransferOutcomes.terminalIds (s_outcomes (cf_session c))
    ∧ i ∉ pf_itemId <$> pw_failures w;
  wo_failed : ∀ i, i ∈ pf_itemId <$> pw_failures w → i ∉ ids (pending c);
  wo_sizes : ∀ f, f ∈ pw_files w → 0 < f_size f }.

Lemma throughput_mark_failures fs s : s_throughput (foldl mark_failure s fs) = s_throughput s.
Proof.
  revert s. induction fs as [|f fs IH]; intros s; simpl; [done|]. rewrite IH.
  unfold mark_failure, markPreparationFailure. destruct (TransferOutcomes.fail _ _ _) as [[] o]; [|done].
  cbn. by rewrite throughput_recordHistoryProblem.
Qed.

Lemma record_window_rate start w s :
  rate_ok s → rate_ok (record_window assets requested skipExactDuplicates isNative start w s).
Proof.
  apply rate_same_throughput. unfold record_window. case_match; [|destruct skipExactDuplicates];
    cbn; by rewrite throughput_mark_failures.
Qed.

Lemma keeps_window start w win c :
  sound b c → cf_producer c = P_preparing start w → window_ok c win →
  keeps_books b full c
    (on_session (record_window assets requested skipExactDuplicates isNative start win) c
       <| cf_producer := P_checking start w win |>).
Proof.
  intros Hs Hp [Hnd Hfresh Hfailed Hsizes].
  destruct (record_window_frame assets requested skipExactDuplicates isNative start win (cf_session c)) as [Hc Hb].
  set (g := record_window assets requested skipExactDuplicates isNative start win) in *.
  apply control_core in Hc as Hcore.
  assert (sound b (on_session g c)) as Hs1 by (apply sound_session; [done|done|apply record_window_rate, (so_rate _ _ Hs)]).
  destruct (session_pending g c Hcore) as [Hpg Hdg].
  change (on_session g c <| cf_producer := P_checking start w win |>)
    with (with_pcs (P_checking start w win) (cf_enqueuer c) (on_session g c)).
  destruct (with_pcs_books (P_checking start w win) (cf_enqueuer c) (on_session g c)) as [Hpend Hdue].
  change (cf_producer (on_session g c)) with (cf_producer c) in Hpend, Hdue.
  change (cf_enqueuer (on_session g c)) with (cf_enqueuer c) in Hpend, Hdue.
  rewrite Hp, Hpg in Hpend. simpl in Hpend. rewrite Permutation_app_swap_app in Hpend.
  apply Permutation_app_inv_l in Hpend. rewrite Hp, Hdg in Hdue. simpl in Hdue. split.
  - apply sound_with_pcs; try done.
    + unfold producer_waits. cbn. by rewrite Hp.
    + intros f [Hf|Hf]%elem_of_app; [by apply Hsizes|]. apply (so_sizes _ _ Hs). unfold pending, pending_elsewhere. set_solver.
    + apply (mode_not_ended (on_session g c)); [apply Hs1|by cbn; rewrite Hp|done..].
    + apply (closing_running (on_session g c)); [done|]. cbn. by rewrite Hp.
  - intros l Ha. eexists. split; [|split].
    + apply rtc_once, (ledger_window l (ids (pw_files win)) (pf_itemId <$> pw_failures win)).
      unfold fresh_window. split_and!; [done| |].
      * intros i Hi. destruct (Hfresh i Hi) as (? & ? & ?). split_and!; [|by rewrite (ab_outcomes _ _ Ha)|done].
        by rewrite (ab_pending _ _ Ha).
      * intros i Hi. rewrite (ab_pending _ _ Ha). by apply Hfailed.
    + injection Hcore as Hc1 _ _ _. unfold books_of in Hb. injection Hb as Hb1 Hb2 Hb3 Hb4.
      destruct Ha. split; cbn -[lengthZ]; try congruence.
      * unfold ids in *. rewrite Hpend, fmap_app. by rewrite ab_pending.
      * lia.
      * rewrite Hb1, ab_ready. unfold lengthZ, ids. by rewrite length_fmap.
    + done.
Qed.

Lemma keeps_prepared start w answer c :
  sound b c → cf_producer c = P_preparing start w →
  (∀ win, answer = inr (Some win) → window_ok c win) →
  keeps_books b full c (producer_prepared assets requested skipExactDuplicates isNative start w answer c).
Proof.
  intros Hs Hp Hok. destruct answer as [error|[win|]]; simpl.
  - apply keeps_producer_catch; [done|by rewrite Hp..].
  - apply keeps_window; [done|done|by apply Hok].
  - by apply keeps_producer; rewrite ?Hp.
Qed.

Lemma keeps_decide start w preflight decided f rest planned sf sb c :
  sound b c → cf_producer c = P_deciding start w preflight decided (f :: rest) planned sf sb →
  keeps_books b full c
    (decide_file sessionId show start w preflight decided f rest planned sf sb c).
Proof.
  intros Hs Hp. unfold decide_file. cbv zeta.
  set (f' := annotate sessionId show preflight _ f). set (s' := if uploads f' then _ else releasePreparedFile _ _).
  assert (control_of s' = control_of (cf_session c) ∧ books_of s' = books_of (cf_session c) ∧ rate_ok s') as (Hc & Hb & Hr)
    by (unfold s'; destruct (uploads f'); split_and!; try done; apply (so_rate _ _ Hs)).
  assert (keeps_books b full c (on_session (λ _, s') c)) as H1 by (by apply keeps_session).
  change (c <| cf_session := s' |>) with (on_session (λ _, s') c).
  eapply keeps_books_trans; [exact H1|]. set (c1 := on_session (λ _, s') c) in *.
  set (p := P_deciding start w preflight (decided ++ [f']) rest _ _ _).
  change (c1 <| cf_producer := p |>) with (with_pcs p (cf_enqueuer c1) c1).
  assert (cf_producer c1 = P_deciding start w preflight decided (f :: rest) planned sf sb) as Hp1 by done.
  clearbody c1. clear Hp Hs s' Hc Hb Hr. destruct H1 as [Hs _].
  destruct (with_pcs_books p (cf_enqueuer c1) c1) as [Hpend Hdue]. rewrite Hp1 in Hpend, Hdue.
  rewrite Permutation_app_swap_app, (Permutation_app_swap_app (pending_producer p)) in Hpend.
  apply Permutation_app_inv_l in Hpend. simpl in Hpend, Hdue.
  assert (ids ((decided ++ [f']) ++ rest) = ids (decided ++ f :: rest)) as Hids
    by (unfold ids; rewrite !fmap_app; cbn; by rewrite <-app_assoc).
  apply keeps_silent; try done; [| |lia].
  - pose proof (so_sizes _ _ Hs) as Hsz. apply sound_with_pcs; try done.
    + unfold producer_waits. cbn. by rewrite Hp1.
    + assert (∀ x, x ∈ decided ++ f :: rest → 0 < f_size x) as Hold
        by (intros x Hx; apply Hsz; unfold pending, pending_elsewhere; rewrite Hp1; simpl; set_solver).
      intros x Hx. simpl in Hx. rewrite <-!app_assoc in Hx.
      assert (x = f' ∨ x ∈ decided ++ f :: rest ∨ x ∈ pending_enqueuer (cf_enqueuer c1)) as [->|[Hx'|Hx']] by set_solver.
      * change (f_size f') with (f_size f). apply Hold. set_solver.
      * by apply Hold.
      * apply Hsz. unfold pending, pending_elsewhere. set_solver.
    + apply mode_not_ended; try done; [apply Hs|by rewrite Hp1|]. unfold p.
      destruct (so_producer _ _ Hs) as [Ho _]. rewrite Hp1 in Ho. rewrite sumZ_app, sumZ_singleton.
      change (due_file f') with (if uploads f' then f_size f' else 0). destruct (uploads f'); [|lia]. change (f_size f') with (f_size f). lia.
    + apply closing_running; [done|by rewrite Hp1].
  - assert (ids ((decided ++ f :: rest) ++ pending (with_pcs p (cf_enqueuer c1) c1))
      ≡ₚ ids (((decided ++ [f']) ++ rest) ++ pending c1)) as H by (unfold ids; by rewrite Hpend).
    unfold ids in H, Hids |- *. rewrite !(fmap_app _ _ (pending _)), Hids in H. by apply Permutation_app_inv_l in H.
Qed.

(** The window is planned: its undecided bytes become due. *)
Lemma planned_books planned c c2 :
  0 <= planned → sound b c2 → pending c2 ≡ₚ pending c → due c2 = due c + planned →
  books_of (cf_session c2) = (c_readyFiles (s_counters (cf_session c)), s_planned (cf_session c) + planned,
                              uploadedBytes (cf_session c), s_outcomes (cf_session c)) →
  s_cancelled (cf_session c2) = s_cancelled (cf_session c) → keeps_books b full c c2.
Proof.
  intros Hpos Hs2 Hp2 Hd2 Hb2 Hc2. split; [done|]. intros l Ha. eexists. split; [|split].
  - apply rtc_once, (ledger_plan l planned). done.
  - unfold books_of in Hb2. injection Hb2 as Hb21 Hb22 Hb23 Hb24. destruct Ha.
    split; cbn -[due uploadedBytes]; try congruence. unfold ids. by rewrite Hp2.
  - done.
Qed.

Lemma keeps_window_decided start w preflight decided planned sf sb c :
  b = streams assets requested isNative →
  sound b c → cf_producer c = P_deciding start w preflight decided [] planned sf sb →
  keeps_books b full c (window_decided assets requested isNative start w decided planned sf sb c).
Proof.
  intros Hb Hs Hp. unfold window_decided. cbv zeta. rewrite <-Hb.
  destruct (so_producer _ _ Hs) as [Ho Hm]. rewrite Hp in Ho, Hm.
  assert (∀ f, f ∈ decided → f ∈ pending c) as Hin
    by (intros f Hf; unfold pending, pending_elsewhere; rewrite Hp; simpl; set_solver).
  assert (0 <= planned) as Hpos by (rewrite Ho; by eapply sum_due_nonneg).
  set (g := plan_window planned sf sb). set (c1 := on_session g c).
  assert (sound b c1) as Hs1 by (apply sound_session; [done|done|apply (so_rate _ _ Hs)]).
  assert (cf_enqueuer c = E_idle) as He by (apply enqueuer_idle; [done|by rewrite Hp]).
  destruct (Bool.bool_dec b true) as [Eb|Eb%not_true_is_false]; rewrite Eb in Hm.
  - replace (if b then _ else _) with (c1 <| cf_producer := P_pushing start w decided |>) by (by rewrite Eb).
    change (c1 <| cf_producer := P_pushing start w decided |>) with (with_pcs (P_pushing start w decided) (cf_enqueuer c1) c1).
    destruct (with_pcs_books (P_pushing start w decided) (cf_enqueuer c1) c1) as [Hpend Hdue].
    change (cf_producer c1) with (cf_producer c) in Hpend, Hdue. change (cf_enqueuer c1) with (cf_enqueuer c) in *.
    rewrite Hp in Hpend, Hdue. simpl in Hpend, Hdue. rewrite app_nil_r in Hpend.
    do 2 apply Permutation_app_inv_l in Hpend. apply (planned_books planned); try done.
    + apply sound_with_pcs; try done.
      * unfold producer_waits. cbn. by rewrite Hp.
      * intros f Hf. apply (so_sizes _ _ Hs). simpl in Hf. rewrite He, app_nil_r in Hf. by apply Hin.
      * apply (mode_not_ended c1); [apply Hs1|by cbn; rewrite Hp|done..].
      * apply (closing_running c1); [done|by cbn; rewrite Hp].
    + change (due c1) with (due c) in Hdue. lia.
  - replace (if b then _ else _) with
      (on_session (λ s, s <| s_preparedWindows := s_preparedWindows s ++ [decided] |>) c1
         <| cf_producer := next_window assets requested isNative start w |>) by (by rewrite Eb).
    destruct Hm as [Hw _]. set (c2 := _ <| cf_producer := _ |>).
    assert (pending c2 ≡ₚ pending c ∧ due c2 = due c + planned) as [Hpend Hdue].
    { unfold pending, due, pending_elsewhere, due_elsewhere. cbn. rewrite Hp, He, Hw. simpl.
      rewrite concat_app, sumZ_app. simpl. rewrite !app_nil_r. split; [|lia].
      rewrite <-!app_assoc. apply Permutation_app_swap_app. }
    apply (planned_books planned); try done. destruct Hs1. split; try done.
    + apply linked_with_pcs with (p := next_window assets requested isNative start w) (e := cf_enqueuer c)
        (c := on_session (λ s, s <| s_preparedWindows := s_preparedWindows s ++ [decided] |>) c1).
      * by apply linked_session.
      * unfold producer_waits. cbn. by rewrite Hp.
    + intros f. rewrite Hpend. apply Hs.
    + split; [done|]. rewrite Eb. by cbn.
    + intros Hcl. destruct (so_closing Hcl) as [?|Hx]; [by left|]. rewrite Eb in Hx.
      destruct Hx as [e Hx]. cbn in Hx. congruence.
Qed.

(** *** Pushing *)

Lemma foldl_frame (callback : session → bool → session) (calls : list bool) s :
  (∀ s w, control_of (callback s w) = control_of s ∧ books_of (callback s w) = books_of s
          ∧ s_throughput (callback s w) = s_throughput s) →
  control_of (foldl callback s calls) = control_of s ∧ books_of (foldl callback s calls) = books_of s
  ∧ s_throughput (foldl callback s calls) = s_throughput s.
Proof.
  intros H. revert s. induction calls as [|w calls IH]; intros s; simpl; [done|].
  destruct (IH (callback s w)) as (-> & -> & ->). apply H.
Qed.

Lemma capacity_wait_frame file s w :
  control_of (capacity_wait assets requested isNative file s w) = control_of s
  ∧ books_of (capacity_wait assets requested isNative file s w) = books_of s
  ∧ s_throughput (capacity_wait assets requested isNative file s w) = s_throughput s.
Proof. unfold capacity_wait. by repeat case_match. Qed.

(** After the queue answered a push, the callbacks of the pusher ran. *)
Lemma keeps_callbacks callback (calls : list bool) c :
  (∀ s w, control_of (callback s w) = control_of s ∧ books_of (callback s w) = books_of s
          ∧ s_throughput (callback s w) = s_throughput s) →
  sound b c → keeps_books b full c (on_session (λ s, foldl callback s calls) c).
Proof.
  intros H Hs. destruct (foldl_frame callback calls (cf_session c) H) as (H1 & H2 & H3).
  apply keeps_session; try done. eapply rate_same_throughput; [exact H3|apply (so_rate _ _ Hs)].
Qed.

Lemma keeps_push_run callback (calls : list bool) file c c1 r p e :
  (∀ s w, control_of (callback s w) = control_of s ∧ books_of (callback s w) = books_of s
          ∧ s_throughput (callback s w) = s_throughput s) →
  sound b c → pushed c file c1 r → r ≠ BoundedAsyncQueue.PushThrew → producer_waits c = false →
  pending_producer (cf_producer c) ++ pending_enqueuer (cf_enqueuer c)
    = file :: (if suspends r then tail (pending_producer p ++ pending_enqueuer e)
               else pending_producer p ++ pending_enqueuer e) →
  (suspends r = true → head (pending_producer p ++ pending_enqueuer e) = Some file) →
  due_producer (cf_producer c) + sumZ due_file (pending_enqueuer (cf_enqueuer c))
    = (if suspends r then 0 else due_file file) + due_producer p + sumZ due_file (pending_enqueuer e) →
  producer_waits (with_pcs p e c1) = suspends r → producer_ok b (with_pcs p e c1) →
  keeps_books b full c (with_pcs p e (on_session (λ s, foldl callback s calls) c1)).
Proof.
  intros Hf Hs Hpush Hr Hnw Hp Hhead Hd Hw Hok.
  assert (keeps_books b full c (with_pcs p e c1)) as H1.
  { eapply keeps_pushed; try done; destruct (suspends r); rewrite ?sumZ_cons, ?sumZ_nil; try lia.
    - rewrite Hp. simpl. specialize (Hhead eq_refl).
      destruct (pending_producer p ++ pending_enqueuer e); by simplify_eq/=.
    - by rewrite Hp. }
  eapply keeps_books_trans; [exact H1|].
  exact (keeps_callbacks callback calls (with_pcs p e c1) Hf (proj1 H1)).
Qed.

Lemma keeps_producer_push start w waiting file rest c :
  sound b c → b = true → producer_waits c = false →
  (∀ r, cf_producer c ≠ P_ended r) → pending_producer (cf_producer c) = file :: rest →
  due_producer (cf_producer c) = due_file file + sumZ due_file rest →
  keeps_books b full c (producer_push assets requested isNative start w waiting file rest c).
Proof.
  intros Hs Hb Hnw Hne Hp Hd. unfold producer_push.
  destruct (run_push_cases (capacity_wait assets requested isNative file) waiting file c (so_linked _ _ Hs))
    as (c1 & calls & r & Hpush & ->).
  pose proof (enqueuer_idle c Hs Hne) as He. destruct (so_producer _ _ Hs) as [_ Hm]. rewrite Hb in Hm.
  assert (cf_enqueuer c1 = E_idle ∧ s_preparedWindows (cf_session c1) = []) as [He1 Hw1]
    by (destruct Hm as [Hm _]; by destruct Hpush).
  set (callback := capacity_wait assets requested isNative file) in *.
  set (c2 := on_session (λ s, foldl callback s calls) c1).
  assert (∀ p, producer_ok b (with_pcs p E_idle c1) ↔ match p with P_deciding _ _ _ d _ z _ _ => z = sumZ due_file d | _ => True end) as Hok.
  { intros p. unfold producer_ok. rewrite Hb. cbn. destruct p; naive_solver. }
  destruct r; cbv beta iota.
  - change (keeps_books b full c (with_pcs (P_waiting start w file rest) (cf_enqueuer c1) c2)). rewrite He1.
    apply (keeps_push_run callback calls file c c1 BoundedAsyncQueue.PushSuspended); try done;
      rewrite ?Hp, ?He, ?Hd; simpl; rewrite ?app_nil_r, ?sumZ_cons, ?sumZ_nil; try done; [by apply capacity_wait_frame|by apply Hok].
  - assert (c1 = c) as Hc1 by (by inversion Hpush). unfold c2. rewrite Hc1.
    assert (keeps_books b full c (on_session (λ s, foldl callback s calls) c)) as H1
      by (apply keeps_callbacks; [apply capacity_wait_frame|done]).
    eapply keeps_books_trans; [exact H1|]. apply keeps_producer_catch; [apply H1|done|].
    cbn. unfold producer_waits in Hnw. by destruct (cf_producer c).
  - change (keeps_books b full c (with_pcs (P_pushing start w rest) (cf_enqueuer c1) c2)). rewrite He1.
    eapply keeps_push_run; try done;
      rewrite ?Hp, ?He, ?Hd; simpl; rewrite ?app_nil_r, ?sumZ_cons, ?sumZ_nil; try done; [by apply capacity_wait_frame|by apply Hok].
  - change (keeps_books b full c (with_pcs (P_pushing start w rest) (cf_enqueuer c1) c2)). rewrite He1.
    eapply keeps_push_run; try done;
      rewrite ?Hp, ?He, ?Hd; simpl; rewrite ?app_nil_r, ?sumZ_cons, ?sumZ_nil; try done; [by apply capacity_wait_frame|by apply Hok].
Qed.

Lemma keeps_producer_enqueue start w rest c :
  sound b c → cf_producer c = P_pushing start w rest →
  keeps_books b full c (producer_enqueue assets requested isNative start w rest c).
Proof.
  intros Hs Hp. destruct (so_producer _ _ Hs) as [Ho _]. rewrite Hp in Ho.
  assert (pending_enqueuer (cf_enqueuer c) = []) as He by (rewrite enqueuer_idle; [done|done|by rewrite Hp]).
  destruct rest as [|file rest]; simpl; [|destruct (s_cancelled (cf_session c)) eqn:Hcan].
  - apply keeps_producer; rewrite ?Hp; done.
  - apply keeps_producer_drop; rewrite ?Hp; done.
  - apply keeps_producer_push; rewrite ?Hp; try done.
    unfold producer_waits. rewrite Hp. by rewrite enqueuer_idle by (rewrite ?Hp; done).
Qed.

Lemma keeps_woken start w file rest c :
  sound b c → cf_producer c = P_woken start w file rest →
  keeps_books b full c (producer_push assets requested isNative start w true file rest c).
Proof.
  intros Hs Hp. destruct (so_producer _ _ Hs) as [Ho _]. rewrite Hp in Ho.
  apply keeps_producer_push; rewrite ?Hp; try done.
  unfold producer_waits. rewrite Hp. by rewrite enqueuer_idle by (rewrite ?Hp; done).
Qed.

(** *** The end of the producer, and the enqueuer *)

Lemma keeps_finish_preparation c : sound b c → keeps_books b full c (on_session finishPreparation c).
Proof.
  intros Hs. unfold finishPreparation.
  apply keeps_session; [done|by case_match..|]. case_match; [apply (so_rate _ _ Hs)|].
  eapply rate_same_throughput; [|apply (so_rate _ _ Hs)]. done.
Qed.

(** The workers of prepare-first mode start with the windows in hand. *)
Lemma keeps_start_uploads completed now c :
  sound b c → b = false → cf_producer c = P_returned completed →
  keeps_books b full c
    (runWorkers now (on_session (λ s, s <| s_preparedWindows := [] |>) (c <| cf_producer := P_ended true |>))
       <| cf_enqueuer := E_pushing (concat (s_preparedWindows (cf_session c))) |>).
Proof.
  intros Hs Hb Hp. destruct (so_producer _ _ Hs) as [_ Hm]. rewrite Hb, Hp in Hm. destruct Hm as [Hw He].
  set (c' := _ <| cf_enqueuer := _ |>).
  assert (pending c' = pending c ∧ due c' = due c) as [Hpend Hdue].
  { unfold pending, due, pending_elsewhere, due_elsewhere. cbn. rewrite Hp, He, Hw. cbn.
    rewrite app_nil_r. split; [done|]. rewrite !sumZ_cons, !sumZ_nil. cbn. lia. }
  apply keeps_silent; rewrite ?Hpend, ?Hdue; try done. pose proof (so_linked _ _ Hs) as [].
  destruct Hs. split; rewrite ?Hpend; try done.
  - split; try done.
    + intros i. cbn. rewrite ln_consumers, Hw. split; [done|]. intros H. by destruct i as [|[|[]]].
    + cbn. rewrite ln_producers. unfold producer_waits. cbn. by rewrite Hp, He.
    + cbn. intros i pc Hi. by destruct i as [|[|[]]]; simplify_eq/=.
  - intros i pc. cbn. by destruct i as [|[|[]]]; intros [= <-].
  - unfold producer_ok. rewrite Hb. done.
  - intros Hcl. destruct (so_closing Hcl) as [?|Hx]; [by left|]. rewrite Hb, He in Hx. by destruct Hx.
Qed.

Lemma keeps_after_produce completed now c :
  b = streams assets requested isNative →
  sound b c → cf_producer c = P_returned completed →
  keeps_books b full c (after_produce assets requested isNative completed now c).
Proof.
  intros Hb Hs Hp. unfold after_produce. cbv zeta. rewrite <-Hb.
  set (c1 := if completed then on_session finishPreparation c else c).
  assert (keeps_books b full c c1 ∧ cf_producer c1 = P_returned completed) as [H1 Hp1].
  { unfold c1. destruct completed; [split; [by apply keeps_finish_preparation|done]|]. by split; [apply keeps_silent|]. }
  clearbody c1. eapply keeps_books_trans; [exact H1|]. destruct H1 as [Hs1 _]. clear Hs Hp c.
  assert (∀ r, cf_producer c1 ≠ P_ended r) as Hne by (by rewrite Hp1).
  pose proof (enqueuer_idle c1 Hs1 Hne) as He. destruct (so_producer _ _ Hs1) as [_ Hm]. rewrite Hp1 in Hm.
  assert (producer_ok b (c1 <| cf_producer := P_ended completed |>) →
    keeps_books b full c1 (c1 <| cf_producer := P_ended completed |>)) as Hend.
  { intros Hok. change (c1 <| cf_producer := P_ended completed |>)
      with (with_pcs (P_ended completed) (cf_enqueuer c1) c1) in *.
    apply keeps_with_pcs; try done; rewrite ?Hp1; try done.
    - unfold producer_waits. cbn. by rewrite Hp1.
    - intros Hcl. destruct (so_closing _ _ Hs1 Hcl) as [?|Hx]; [by left|]. right. cbn.
      destruct (Bool.bool_dec b true) as [Eb|Eb%not_true_is_false]; rewrite Eb in *; [by eexists|done]. }
  destruct (Bool.bool_dec b true) as [Eb|Eb%not_true_is_false]; rewrite Eb in Hm.
  - replace (if b then _ else _) with (close_queue (c1 <| cf_producer := P_ended completed |>)) by (by rewrite Eb).
    destruct Hend as [H2 H2']; [split; [done|by rewrite Eb]|].
    eapply keeps_books_trans; [exact (conj H2 H2')|]. apply keeps_close; [done|]. rewrite Eb. by eexists.
  - destruct completed.
    + replace (if b then _ else _) with
        (runWorkers now (on_session (λ s, s <| s_preparedWindows := [] |>) (c1 <| cf_producer := P_ended true |>))
           <| cf_enqueuer := E_pushing (concat (s_preparedWindows (cf_session c1))) |>) by (by rewrite Eb).
      by eapply keeps_start_uploads.
    + replace (if b then _ else _) with (c1 <| cf_producer := P_ended false |>) by (by rewrite Eb).
      apply Hend. split; [done|by rewrite Eb].
Qed.

(** The enqueuer has work only after preparation, in prepare-first mode. *)
Lemma enqueuer_running c :
  sound b c → cf_enqueuer c ≠ E_idle → b = false ∧ cf_producer c = P_ended true.
Proof.
  intros Hs Hne. destruct (so_producer _ _ Hs) as [_ Hm].
  destruct (Bool.bool_dec b true) as [Eb|Eb%not_true_is_false]; rewrite Eb in Hm; [by destruct Hm|].
  split; [done|]. by destruct (cf_producer c) as [| | | | | | | |[]]; destruct Hm.
Qed.

Lemma producer_ok_enqueuer e c :
  sound b c → cf_enqueuer c ≠ E_idle → producer_ok b (with_pcs (cf_producer c) e c).
Proof.
  intros Hs Hne. destruct (enqueuer_running c Hs Hne) as [Eb Hp].
  destruct (so_producer _ _ Hs) as [_ Hm]. unfold producer_ok in *. cbn. rewrite Hp, Eb in *. done.
Qed.

Lemma keeps_enqueuer_finally error c :
  sound b c → cf_enqueuer c ≠ E_idle → producer_waits c = false →
  pending_enqueuer (cf_enqueuer c) = [] ∨ s_cancelled (cf_session c) = true →
  keeps_books b full c (enqueuer_finally error c).
Proof.
  intros Hs Hne Hnw Hor. destruct (enqueuer_running c Hs Hne) as [Eb Hp].
  pose proof (producer_ok_enqueuer (E_ended error) c Hs Hne) as Hok.
  assert (producer_waits (with_pcs (cf_producer c) (E_ended error) c) = producer_waits c) as Hw
    by (rewrite Hnw; unfold producer_waits; cbn; by rewrite Hp).
  assert (closing_ok b (with_pcs (cf_producer c) (E_ended error) c)) as Hcl
    by (intros _; right; rewrite Eb; by eexists).
  assert (keeps_books b full c (with_pcs (cf_producer c) (E_ended error) c)) as H1.
  { destruct Hor as [Hnil|Hcan].
    - apply keeps_with_pcs; try done; by rewrite Hp, Hnil.
    - apply keeps_drop; try done; by rewrite Hp. }
  eapply keeps_books_trans; [exact H1|]. destruct H1 as [H1 _].
  assert (enqueuer_finally error c = close_queue (with_pcs (cf_producer c) (E_ended error) c)) as ->.
  { unfold enqueuer_finally. by rewrite !close_queue_spec by apply Hs || apply H1. }
  apply keeps_close; [done|]. rewrite Eb. by eexists.
Qed.

Lemma keeps_enqueuer_push waiting file rest c :
  sound b c → cf_enqueuer c ≠ E_idle → producer_waits c = false → (∀ e, cf_enqueuer c ≠ E_ended e) →
  pending_enqueuer (cf_enqueuer c) = file :: rest →
  keeps_books b full c (enqueuer_push waiting file rest c).
Proof.
  intros Hs Hne Hnw Hrun Hpe. unfold enqueuer_push.
  destruct (run_push_cases (λ s _, s) waiting file c (so_linked _ _ Hs)) as (c1 & calls & r & Hpush & ->).
  destruct (enqueuer_running c Hs Hne) as [Eb Hp]. set (c2 := on_session _ c1).
  assert (cf_producer c1 = cf_producer c ∧ s_preparedWindows (cf_session c1) = s_preparedWindows (cf_session c)
    ∧ length (cf_workers c1) = length (cf_workers c)) as (Hp1 & Hw1 & Hl1)
    by (destruct Hpush; cbn; by rewrite ?length_insert).
  assert (∀ e, producer_ok b (with_pcs (P_ended true) e c1)) as Hok.
  { intros e. destruct (producer_ok_enqueuer e c Hs Hne) as [_ H].
    unfold producer_ok. rewrite Eb in *. cbn in *. rewrite Hp in H. by rewrite Hw1, Hl1. }
  destruct r; cbv beta iota.
  - change (keeps_books b full c (with_pcs (cf_producer c1) (E_waiting file rest) c2)). rewrite Hp1, Hp.
    apply (keeps_push_run (λ s _, s) calls file c c1 BoundedAsyncQueue.PushSuspended); try done;
      rewrite ?Hp, ?Hpe; simpl; rewrite ?sumZ_cons, ?sumZ_nil; first [done|apply Hok|lia].
  - assert (c1 = c) as Hc1 by (by inversion Hpush).
    assert (c2 = c) as ->.
    { unfold c2. rewrite Hc1. clear. destruct c as [s p e ws]. unfold on_session, update. cbn. f_equal.
      by induction calls. }
    apply keeps_enqueuer_finally; try done. right.
    assert (BoundedAsyncQueue.closed (s_queue (cf_session c)) = true) as Hcl by (by inversion Hpush).
    destruct (so_closing _ _ Hs Hcl) as [?|Hx]; [done|]. rewrite Eb in Hx. destruct Hx as [e Hx]. by destruct (Hrun e).
  - change (keeps_books b full c (with_pcs (cf_producer c1) (E_pushing rest) c2)). rewrite Hp1, Hp.
    eapply keeps_push_run; try done;
      rewrite ?Hp, ?Hpe; simpl; rewrite ?sumZ_cons, ?sumZ_nil; first [done|apply Hok|lia].
  - change (keeps_books b full c (with_pcs (cf_producer c1) (E_pushing rest) c2)). rewrite Hp1, Hp.
    eapply keeps_push_run; try done;
      rewrite ?Hp, ?Hpe; simpl; rewrite ?sumZ_cons, ?sumZ_nil; first [done|apply Hok|lia].
Qed.

Lemma keeps_run_enqueuer c c' :
  sound b c → run_enqueuer c = Some c' → keeps_books b full c c'.
Proof.
  intros Hs Hr. unfold run_enqueuer in Hr.
  assert (match cf_enqueuer c with E_pushing _ | E_woken _ _ => producer_waits c = false | _ => True end) as Hnw.
  { destruct (cf_enqueuer c) eqn:He; try done;
      destruct (enqueuer_running c Hs) as [_ Hp]; try (by rewrite He);
      unfold producer_waits; by rewrite Hp, He. }
  destruct (cf_enqueuer c) as [|rest| |file rest|] eqn:He; try done; injection Hr as <-.
  - destruct rest as [|file rest]; simpl; [|destruct (s_cancelled (cf_session c)) eqn:Hcan].
    + apply keeps_enqueuer_finally; rewrite ?He; try done. by left.
    + apply keeps_enqueuer_finally; rewrite ?He; try done. by right.
    + apply keeps_enqueuer_push; by rewrite ?He.
  - apply keeps_enqueuer_push; by rewrite ?He.
Qed.
End producers.
