(* ===== verification/SessionLedger.v ===== *)
(** * The upload session keeps its books

    Every choice of the scheduler, and every answer of the platform, is a move of the
    abstract ledger: the detailed session of [UploadSession.v] refines [Ledger.v]. *)

From S2P Require Import Prelude Js UploadTypes Accounting AsyncQueue Throughput Control Preflight Ledger UploadSession SessionBooks SessionWorkers SessionProducer.

#[local] Arguments producer_waits : simpl never.

(** ** Thermal changes *)

Lemma keeps_thermal b full state c : sound b c → keeps_books b full c (updateThermalState state c).
Proof.
  intros Hs. pose proof (so_linked _ _ Hs) as Hl. unfold updateThermalState, ThermalController.update.
  case_decide as Hst.
  - rewrite set_same_thermal. unfold wake_waiters. cbn. destruct c. by apply keeps_silent.
  - unfold ThermalController.wake. cbn -[wake_waiters on_session].
    set (k := {| ThermalController.state := state |}).
    assert (wake_waiters (ThermalController.waiters (s_thermal (cf_session c)))
        (on_session (λ s, s <| s_thermal := k |>) c)
      = on_session (λ s, s <| s_thermal := k |>) (c <| cf_workers := wake_thermal <$> cf_workers c |>)) as ->.
    { rewrite <-wake_waiters_spec by done. done. }
    set (c' := on_session _ _).
    assert (pending c' = pending c ∧ due c' = due c) as [Hpend Hdue].
    { unfold pending, due, pending_elsewhere, due_elsewhere. cbn.
      rewrite omap_fmap_worker, sumZ_fmap by (by intros []). split; [done|].
      f_equal. apply sumZ_ext. by intros []. }
    apply keeps_silent; rewrite ?Hpend, ?Hdue; try done. destruct Hl, Hs. split; rewrite ?Hpend; try done.
    + split; try done.
      * intros i. cbn. rewrite ln_consumers, list_lookup_fmap. destruct (cf_workers c !! i) as [[]|]; done.
      * intros i pc. cbn. rewrite list_lookup_fmap. destruct (cf_workers c !! i) as [pc0|]; [|done].
        intros [= <-]. by destruct pc0.
    + intros i pc. cbn. rewrite list_lookup_fmap. destruct (cf_workers c !! i) as [pc0|] eqn:Hi; [|done].
      intros [= <-]. pose proof (so_workers i pc0 Hi) as Hok. by destruct pc0 as [| |[]| | | | | | | | | | | |].
    + destruct so_producer as [Ho Hm]. split; [done|]. destruct b; [done|].
      cbn. rewrite length_fmap. destruct (cf_producer c) as [| | | | | | | |[]]; try done; by destruct Hm as [-> ?].
Qed.

Section ledger.
Context (assets : list MediaAsset) (requested : PreparationMode) (skipExactDuplicates : bool).
Context (isNative : bool) (sessionId : string) (show : Z → string).

Notation exec := (exec assets requested skipExactDuplicates isNative sessionId show).
Notation b := (streams assets requested isNative).

(** What the session needs of the platform: preparation hands over new, non-empty files, and
    (for [full]) the native module reports every byte of a file it transferred. *)
Definition choice_ok (full : bool) (c : config) (o : choice) : Prop :=
  match o with
  | WindowPrepared (inr (Some w)) => window_ok c w
  | NativeAnswered i answer _ => full = true →
    match cf_workers c !! i with Some (W_native item _) => native_full item answer = true | _ => True end
  | _ => True
  end.

Lemma keeps_run_worker full i now c c' :
  sound b c → run_worker assets requested isNative i now c = Some c' → keeps_books b full c c'.
Proof.
  intros Hs. unfold run_worker. destruct (cf_workers c !! i) as [pc|] eqn:Hi; [|done]. cbn -[worker_shift].
  pose proof (so_workers _ _ Hs i pc Hi) as Hok.
  destruct pc as [| |[item|]|item|item|item ok|item| |item k a|item k a|item k a|item k a ok|item k a|item r|]; try done;
    intros [= <-].
  - by apply keeps_shift.
  - by eapply keeps_worker_gate.
  - apply (keeps_move _ _ i (W_received None)); done.
  - by eapply keeps_worker_gate.
  - by eapply keeps_gated.
  - by apply keeps_releasing.
  - by eapply keeps_chunk_start.
  - by eapply keeps_chunk_start.
  - by apply keeps_chunk_gated.
  - by apply keeps_finally.
Qed.

Lemma keeps_run_producer full now c c' :
  sound b c → run_producer assets requested isNative sessionId show now c = Some c' → keeps_books b full c c'.
Proof.
  intros Hs. unfold run_producer. destruct (cf_producer c) as [| | |? ? ? ? [|? ?]| | | | |] eqn:Hp; try done; intros [= <-].
  - by apply keeps_loop.
  - by eapply keeps_window_decided.
  - by eapply keeps_decide.
  - by apply keeps_producer_enqueue.
  - by apply keeps_woken.
  - by apply keeps_after_produce.
Qed.

Lemma exec_simulates full c o c' :
  sound b c → choice_ok full c o → exec c o = Some c' → keeps_books b full c c'.
Proof.
  intros Hs Hok. destruct o as [now|item prepared|answer|env| |i now|i fileId bytes now|i answer now
    |i base64 attempts now| |state]; simpl.
  - by apply keeps_run_producer.
  - destruct (cf_producer c) eqn:Hp; try done. intros [= <-].
    apply keeps_session; try done. apply (so_rate _ _ Hs).
  - destruct (cf_producer c) eqn:Hp; try done. intros [= <-].
    apply keeps_prepared; try done. by intros win ->.
  - destruct (cf_producer c) eqn:Hp; try done. intros [= <-]. by apply keeps_checked.
  - by apply keeps_run_enqueuer.
  - by apply keeps_run_worker.
  - destruct (cf_workers c !! i) as [[]|] eqn:Hi; try done. intros [= <-]. by apply keeps_native_progress.
  - destruct (cf_workers c !! i) as [[]|] eqn:Hi; try done. intros [= <-]. apply keeps_native_answer; try done.
    simpl in Hok. by rewrite Hi in Hok.
  - destruct (cf_workers c !! i) as [[]|] eqn:Hi; try done. intros [= <-]. by apply keeps_chunk_sent.
  - intros [= <-]. by apply keeps_cancel.
  - intros [= <-]. by apply keeps_thermal.
Qed.

(** ** Runs of a session *)

Definition session_step (full : bool) (c c' : config) : Prop :=
  ∃ o, choice_ok full c o ∧ exec c o = Some c'.

Lemma run_simulates full c c' : sound b c → rtc (session_step full) c c' → keeps_books b full c c'.
Proof.
  intros Hs Hrun. induction Hrun as [c|c c1 c' (o & Ho & He) _ IH]; [by apply keeps_silent|].
  pose proof (exec_simulates full c o c1 Hs Ho He) as H1.
  eapply keeps_books_trans; [exact H1|]. apply IH, H1.
Qed.

Notation start policy time := (pipeline_start assets requested isNative
                                 (new_session assets requested isNative policy time) time).

Lemma empty_queue_ok : BoundedAsyncQueue.queue_ok (empty_queue assets requested isNative).
Proof.
  unfold BoundedAsyncQueue.queue_ok, empty_queue. cbn -[preparationPolicy Z.to_nat].
  pose proof (resolvePreparationPolicy_positive requested isNative (lengthZ assets)) as [_ H].
  unfold preparationPolicy. split_and!; try done; lia.
Qed.

Lemma idle_linked policy time s ws :
  BoundedAsyncQueue.queue_ok (empty_queue assets requested isNative) → Forall (λ pc, pc = W_ready) ws →
  s_queue s = empty_queue assets requested isNative ∧ s_thermal s = ThermalController.new policy
    ∧ s_cancelled s = false →
  linked {| cf_session := s; cf_producer := P_loop 0 time; cf_enqueuer := E_idle; cf_workers := ws |}.
Proof.
  intros Hq Hws (Hs1 & Hs2 & Hs3).
  assert (∀ i pc, ws !! i = Some pc → pc = W_ready) as Hready by (intros i pc; exact (Forall_lookup_1 _ _ i pc Hws)).
  split; cbn; rewrite ?Hs1, ?Hs2, ?Hs3; try done; try (by constructor).
  - intros i. split; [by intros ?%elem_of_nil|]. by intros ?%Hready.
  - by intros i pc ->%Hready.
Qed.

Lemma start_sound policy time : sound b (start policy time) ∧ abstracts (start policy time) empty_ledger.
Proof.
  pose proof empty_queue_ok as Hq.
  unfold pipeline_start. cbv zeta. destruct b eqn:Hb; (split; split; cbn; try done).
  - apply (idle_linked policy); [exact Hq|by repeat constructor|done].
  - set_solver.
  - intros i pc. destruct i as [|[|[]]]; cbn; intros [= <-]; done.
  - apply (idle_linked policy); [exact Hq|constructor|done].
  - set_solver.
Qed.

(** Every state of a session is a state of the books. *)
Lemma session_books full policy time c :
  rtc (session_step full) (start policy time) c →
  sound b c ∧ ∃ l, rtc ledger_step empty_ledger l ∧ abstracts c l ∧ (full = true → lg_short l = 0).
Proof.
  intros Hrun. destruct (start_sound policy time) as [Hs Ha].
  destruct (run_simulates full _ _ Hs Hrun) as [Hs' Hk]. split; [done|].
  destruct (Hk _ Ha) as (l & ? & ? & ?). by exists l.
Qed.
End ledger.
