(* ===== verification/SessionStarts.v ===== *)
(** * What an upload session starts

    No move starts a worker twice; an upload starts only in the turn of a worker that holds the
    answer of its gate, and a gate is passed only while the session is not cancelled. *)

From S2P Require Import Prelude Js UploadTypes Accounting AsyncQueue Throughput Control Preflight Ledger UploadSession SessionBooks SessionWorkers SessionProducer SessionLedger.

(** ** Moves that start nothing *)

Definition started (c : config) : list PreparedUploadFile :=
  omap (λ e, match e with UploadStarted file => Some file | _ => None end) (s_emitted (cf_session c)).

(** The file of a worker whose gate answered that it may go on. *)
Definition passing (pc : worker_pc) : option PreparedUploadFile :=
  match pc with W_gated item true => Some item | _ => None end.
Definition passed (c : config) : list PreparedUploadFile := omap passing (cf_workers c).

(** A move that starts no upload and no worker, and passes no gate. *)
Definition quiet (c c' : config) : Prop :=
  started c' = started c ∧ length (cf_workers c') = length (cf_workers c) ∧ passed c' ⊆+ passed c.
Definition quiet_session (s s' : session) : Prop :=
  omap (λ e, match e with UploadStarted file => Some file | _ => None end) (s_emitted s')
  = omap (λ e, match e with UploadStarted file => Some file | _ => None end) (s_emitted s).

Lemma quiet_refl c : quiet c c.
Proof. done. Qed.
Lemma quiet_emit e s : match e with UploadStarted _ => False | _ => True end → quiet_session s (emit e s).
Proof. intros He. unfold quiet_session. cbn. rewrite omap_app. destruct e; try done; by rewrite app_nil_r. Qed.
Lemma quiet_on_session f c c' : quiet_session (cf_session c') (f (cf_session c')) → quiet c c' → quiet c (on_session f c').
Proof. unfold quiet_session, quiet, started. cbn. by intros ->. Qed.
(** A new program counter of one worker. *)
Lemma passed_insert i pc pc' (ws : list worker_pc) :
  ws !! i = Some pc →
  option_list (passing pc) ++ omap passing (<[i := pc']> ws) ≡ₚ option_list (passing pc') ++ omap passing ws.
Proof. apply omap_insert_perm. Qed.

Lemma passed_set_worker i pc' c : passing pc' = None → passed (set_worker i pc' c) ⊆+ passed c.
Proof.
  intros Hpc. unfold passed. cbn. destruct (cf_workers c !! i) as [pc|] eqn:Hi.
  - pose proof (passed_insert i pc pc' _ Hi) as Hp. rewrite Hpc in Hp. rewrite <-Hp. apply submseteq_inserts_l. done.
  - by rewrite list_insert_ge by (by apply lookup_ge_None in Hi).
Qed.

Lemma quiet_set_worker i pc c c' : passing pc = None → quiet c c' → quiet c (set_worker i pc c').
Proof.
  intros Hpc (Hs & Hl & Hp). split_and!; [done| |].
  - cbn. by rewrite length_insert.
  - etrans; [by apply passed_set_worker|done].
Qed.
Lemma quiet_pcs p e c c' : quiet c c' → quiet c (with_pcs p e c').
Proof. done. Qed.
Lemma wake_workers_length wake ids pcs : length (wake_workers wake ids pcs) = length pcs.
Proof.
  unfold wake_workers. revert pcs. induction ids as [|i ids IH]; intros pcs; simpl; [done|].
  by rewrite IH, length_alter.
Qed.
(** Waking a worker opens and shuts no gate. *)
Lemma passed_alter wake (i : nat) (pcs : list worker_pc) :
  (∀ pc, passing (wake pc) = passing pc) → omap passing (alter wake i pcs) = omap passing pcs.
Proof.
  intros Hw. revert i. induction pcs as [|pc pcs IH]; intros [|i]; simpl; [done..| |]; [by rewrite Hw|].
  specialize (IH i). unfold omap, alter in IH. by rewrite IH.
Qed.
Lemma passed_wake_workers wake ids (pcs : list worker_pc) :
  (∀ pc, passing (wake pc) = passing pc) → omap passing (wake_workers wake ids pcs) = omap passing pcs.
Proof.
  intros Hw. unfold wake_workers. revert pcs. induction ids as [|i ids IH]; intros pcs; cbn [foldl]; [done|].
  by rewrite IH, passed_alter.
Qed.
Lemma passing_receive item pc : passing (receive item pc) = passing pc.
Proof. by destruct pc. Qed.
Lemma passing_wake_thermal pc : passing (wake_thermal pc) = passing pc.
Proof. by destruct pc. Qed.

Lemma quiet_close c c' : quiet c c' → quiet c (close_queue c').
Proof.
  intros (Hs & Hl & Hp). unfold close_queue. destruct (BoundedAsyncQueue.close _) as [[q ks] ps].
  destruct ps; (split_and!; [done| |]); unfold passed in *; cbn;
    by rewrite ?wake_workers_length, ?(passed_wake_workers _ _ _ (passing_receive None)).
Qed.
Lemma quiet_wake_waiters ids c c' : quiet c c' → quiet c (wake_waiters ids c').
Proof.
  intros (Hs & Hl & Hp). split_and!; [done| |]; unfold passed in *; cbn;
    by rewrite ?wake_workers_length, ?(passed_wake_workers _ _ _ passing_wake_thermal).
Qed.
Create HintDb quiet.
#[local] Hint Resolve quiet_refl quiet_on_session quiet_set_worker quiet_close quiet_wake_waiters : quiet.
#[local] Hint Extern 1 (passing _ = None) => reflexivity : quiet.

(** *** The helpers of the session *)

Lemma quiet_keep s s' : s_emitted s' = s_emitted s → quiet_session s s'.
Proof. unfold quiet_session. by intros ->. Qed.
Lemma quiet_trans s1 s2 s3 : quiet_session s1 s2 → quiet_session s2 s3 → quiet_session s1 s3.
Proof. unfold quiet_session. by intros -> ->. Qed.

Lemma quiet_history h a s : quiet_session s (recordHistoryProblem h a s).
Proof. apply quiet_keep. unfold recordHistoryProblem. by repeat case_match. Qed.

(** A session made by such helpers, outermost first. *)
Ltac quiet_steps :=
  repeat match goal with
  | |- quiet_session ?s ?s => reflexivity
  | |- quiet_session _ (emit _ _) => eapply quiet_trans; [|by apply quiet_emit]
  | |- quiet_session _ (releasePreparedFile _ _) => eapply quiet_trans; [|by apply quiet_emit]
  | |- quiet_session _ (report_progress _ _ _ _ _ _) => eapply quiet_trans; [|by apply quiet_emit]
  | |- quiet_session _ (recordHistoryProblem _ _ _) => eapply quiet_trans; [|apply quiet_history]
  | |- quiet_session _ (update _ ?s) => apply (quiet_trans _ s); [|by apply quiet_keep]
  | |- quiet_session _ _ => by apply quiet_keep
  end.

#[local] Hint Extern 1 (quiet_session _ _) => cbv beta; solve [quiet_steps] : quiet.

Section starts.
Context (assets : list MediaAsset) (requested : PreparationMode) (skipExactDuplicates : bool).
Context (isNative : bool) (sessionId : string) (show : Z → string).

Lemma quiet_mark_failure s f : quiet_session s (mark_failure s f).
Proof.
  unfold mark_failure, markPreparationFailure. destruct (TransferOutcomes.fail _ _ _) as [[] o]; simpl; quiet_steps.
Qed.
Lemma quiet_mark_failures fs s : quiet_session s (foldl mark_failure s fs).
Proof.
  revert s. induction fs as [|f fs IH]; intros s; simpl; [done|].
  eapply quiet_trans; [apply quiet_mark_failure|apply IH].
Qed.
Lemma quiet_skip_decided item s : quiet_session s (skip_decided assets requested isNative item s).
Proof. unfold skip_decided. cbv zeta. quiet_steps. Qed.
Lemma quiet_fail_decided item code s : quiet_session s (fail_decided assets requested isNative item code s).
Proof. unfold fail_decided. cbv zeta. quiet_steps. Qed.
Lemma quiet_succeeded item skipped sent saved s : quiet_session s (upload_succeeded item skipped sent saved s).
Proof. unfold upload_succeeded. destruct skipped; cbv zeta; quiet_steps. Qed.
Lemma quiet_failed item a error s : quiet_session s (upload_failed_with assets requested isNative item a error s).
Proof. unfold upload_failed_with. cbv zeta. quiet_steps. Qed.
Lemma quiet_record_window start w s :
  quiet_session s (record_window assets requested skipExactDuplicates isNative start w s).
Proof.
  unfold record_window. set (s1 := s <| s_counters := _ |> <| s_emitted := _ |>).
  assert (quiet_session s s1) as H1.
  { unfold quiet_session. cbn. rewrite omap_app.
    assert (omap (λ e, match e with UploadStarted file => Some file | _ => None end) (Materialized <$> pw_files w) = []) as ->.
    { induction (pw_files w); [done|]. simpl. done. }
    by rewrite app_nil_r. }
  eapply quiet_trans; [exact H1|]. eapply quiet_trans; [apply (quiet_mark_failures (pw_failures w))|].
  case_match; [|destruct skipExactDuplicates]; quiet_steps.
Qed.

(** *** The moves of a configuration *)

Lemma quiet_cancel c c' : quiet c c' → quiet c (cancel c').
Proof.
  intros H. unfold cancel. destruct (ThermalController.cancel _) as [k ids].
  eauto 8 with quiet.
Qed.
#[local] Hint Resolve quiet_cancel : quiet.

Lemma quiet_thermal state c : quiet c (updateThermalState state c).
Proof. unfold updateThermalState. destruct (ThermalController.update _ _) as [k ids]. eauto with quiet. Qed.

Lemma quiet_producer p c c' : quiet c c' → quiet c (c' <| cf_producer := p |>).
Proof. done. Qed.
Lemma quiet_enqueuer e c c' : quiet c c' → quiet c (c' <| cf_enqueuer := e |>).
Proof. done. Qed.
#[local] Hint Resolve quiet_producer quiet_enqueuer : quiet.

Lemma quiet_catch error c c' : quiet c c' → quiet c (producer_catch error c').
Proof. unfold producer_catch. cbv zeta. eauto with quiet. Qed.
#[local] Hint Resolve quiet_catch : quiet.

Lemma quiet_threw i item a error c c' :
  quiet c c' → quiet c (upload_threw assets requested isNative i item a error c').
Proof. intros H. unfold upload_threw. repeat case_match; eauto using quiet_failed with quiet. Qed.
Lemma quiet_done i item skipped sent saved c c' : quiet c c' → quiet c (upload_done i item skipped sent saved c').
Proof. intros H. unfold upload_done. eauto using quiet_succeeded with quiet. Qed.
#[local] Hint Resolve quiet_threw quiet_done : quiet.

Lemma quiet_foldl callback (calls : list bool) s :
  (∀ s w, quiet_session s (callback s w)) → quiet_session s (foldl callback s calls).
Proof.
  intros H. revert s. induction calls as [|w calls IH]; intros s; simpl; [done|].
  eapply quiet_trans; [apply H|apply IH].
Qed.

Lemma quiet_capacity file s w : quiet_session s (capacity_wait assets requested isNative file s w).
Proof. unfold capacity_wait. repeat case_match; quiet_steps. Qed.

Lemma quiet_run_push callback waiting file c :
  (∀ s w, quiet_session s (callback s w)) → quiet c (run_push callback waiting file c).1.
Proof.
  intros H. unfold run_push. destruct (BoundedAsyncQueue.push _ _ _ _) as [[q r] calls]. simpl.
  assert (quiet c (on_session (λ s, foldl callback (s <| s_queue := q |>) calls) c)) as H1.
  { apply quiet_on_session; [|done].
    apply (quiet_trans _ (cf_session c <| s_queue := q |>)); [by apply quiet_keep|]. apply (quiet_foldl callback calls (cf_session c <| s_queue := q |>) H). }
  destruct r; try done. destruct H1 as (H1 & H2 & H3). unfold passed in *. split_and!; [done| |]; cbn.
  - by rewrite length_alter.
  - by rewrite (passed_alter _ _ _ (passing_receive (Some file))).
Qed.

Lemma quiet_producer_push start w waiting file rest c :
  quiet c (producer_push assets requested isNative start w waiting file rest c).
Proof.
  unfold producer_push. pose proof (quiet_run_push _ waiting file c (quiet_capacity file)) as H.
  destruct (run_push _ _ _ _) as [c1 []]; eauto with quiet.
Qed.
Lemma quiet_enqueuer_push waiting file rest c : quiet c (enqueuer_push waiting file rest c).
Proof.
  unfold enqueuer_push. pose proof (quiet_run_push (λ s _, s) waiting file c (λ s _, eq_refl)) as H.
  destruct (run_push _ _ _ _) as [c1 []]; unfold enqueuer_finally; eauto with quiet.
Qed.

Lemma quiet_shift i c : quiet c (worker_shift i c).
Proof.
  unfold worker_shift. destruct (s_cancelled _); [eauto with quiet|].
  destruct (BoundedAsyncQueue.shift _ _) as [q [item []| |]]; cbv zeta; eauto 8 with quiet.
Qed.

Lemma quiet_native_acknowledge item a reported now s :
  quiet_session s (recordNativeAcknowledgement assets requested isNative item a reported now s).2.
Proof. unfold recordNativeAcknowledgement. repeat case_match; simpl; quiet_steps. Qed.

Lemma quiet_native_progress i item a fileId reported now c :
  quiet c (native_progress_event assets requested isNative i item a fileId reported now c).
Proof.
  unfold native_progress_event. destruct (decide _) as [_|_]; [|done].
  pose proof (quiet_native_acknowledge item a reported now (cf_session c)) as H.
  destruct (recordNativeAcknowledgement _ _ _ _ _ _ _ _) as [a' s']. apply quiet_set_worker; [done|].
  exact (quiet_on_session (λ _, s') c c H (quiet_refl c)).
Qed.

Lemma quiet_native_answer i item a answer now c :
  quiet c (native_answer assets requested isNative i item a answer now c).
Proof.
  assert (∀ reported a' s', recordNativeAcknowledgement assets requested isNative item a reported now (cf_session c) = (a', s') →
    quiet c (c <| cf_session := s' |>)) as Hq.
  { intros reported a' s' He. pose proof (quiet_native_acknowledge item a reported now (cf_session c)) as H.
    rewrite He in H. exact (quiet_on_session (λ _, s') c c H (quiet_refl c)). }
  unfold native_answer. destruct answer as [reported ? ? ? ? ?|code ? reported|error]; [| |eauto with quiet].
  - destruct (recordNativeAcknowledgement _ _ _ _ _ _ _ _) as [a' s'] eqn:He. apply quiet_done.
    apply Hq in He. exact He.
  - destruct (recordNativeAcknowledgement _ _ _ _ _ _ _ _) as [a' s'] eqn:He. apply Hq in He.
    case_decide; eauto 8 with quiet.
Qed.

Lemma quiet_gate i suspended answered c c' :
  passing suspended = None → (∀ ok, passing (answered ok) = None) → quiet c c' →
  quiet c (thermal_gate i suspended answered c').
Proof.
  intros Hn Ha H. unfold thermal_gate. destruct (ThermalController.waitForUpload _ _) as [k [ok|]];
    apply quiet_set_worker; eauto with quiet.
Qed.

Lemma quiet_chunk_start i item k a c : quiet c (chunk_start i item k a c).
Proof. unfold chunk_start. destruct (_ <=? _); [eauto with quiet|]. by apply quiet_gate. Qed.

Lemma quiet_chunk_gated i item k a ok c : quiet c (chunk_gated assets requested isNative i item k a ok c).
Proof. unfold chunk_gated. case_match; eauto with quiet. Qed.

Lemma quiet_chunk_sent i item k a base64 attempts now c :
  quiet c (chunk_sent assets requested isNative i item k a base64 attempts now c).
Proof.
  unfold chunk_sent. cbv zeta. destruct (_ =? 0); [eauto with quiet|].
  destruct (uploadEncodedChunk attempts) as [body|error].
  - assert (quiet c (on_session (record_chunk assets requested isNative item (chunk_length item k) (default 0 base64) now) c)) as H
      by (unfold record_chunk; eauto with quiet).
    destruct (_ =? _); [destruct (last_chunk_answer body)|]; eauto with quiet.
  - case_match; eauto with quiet.
Qed.

(** *** The moves that pass a gate and that start an upload *)

(** The gate of a worker is passed only while the session is not cancelled. *)
Definition passes (item : PreparedUploadFile) (c c' : config) : Prop :=
  s_cancelled (cf_session c) = false ∧ item ∈ pending c ∧ started c' = started c
  ∧ length (cf_workers c') = length (cf_workers c) ∧ passed c' ⊆+ item :: passed c.

(** An upload starts in place of a passed gate. *)
Definition starts (item : PreparedUploadFile) (c c' : config) : Prop :=
  item ∈ pending c ∧ uploads item = true ∧ started c' = started c ++ [item]
  ∧ length (cf_workers c') = length (cf_workers c) ∧ item :: passed c' ⊆+ passed c.

Lemma passed_take i item pc' c :
  cf_workers c !! i = Some (W_gated item true) → passing pc' = None →
  item :: passed (set_worker i pc' c) ≡ₚ passed c.
Proof. intros Hi Hpc. pose proof (passed_insert i _ pc' _ Hi) as Hp. by rewrite Hpc in Hp. Qed.

Lemma begin_upload_quiet i now item c :
  ∃ c1 pc, begin_upload assets requested isNative i now item c = set_worker i pc c1 ∧ passing pc = None
    ∧ started c1 = started c ++ [item] ∧ cf_workers c1 = cf_workers c.
Proof.
  unfold begin_upload. cbv zeta. set (c1 := c <| cf_session := _ |>).
  assert (started c1 = started c ++ [item]) as H1
    by (unfold started; cbn; rewrite !omap_app; simpl; by rewrite app_nil_r).
  destruct (exceeds_limits isNative item).
  - unfold upload_threw. simpl isUnauthorizedError. cbv iota.
    destruct (s_cancelled (cf_session c1)); [by eexists c1, _|].
    exists (on_session (upload_failed_with assets requested isNative item 0 too_large) c1), (W_finally item false).
    split_and!; try done. rewrite <-H1. unfold started. apply quiet_failed.
  - destruct isNative; by eexists c1, _.
Qed.

Lemma worker_gated_starts i now item ok c :
  cf_workers c !! i = Some (W_gated item ok) →
  let c' := worker_gated assets requested isNative i now item ok c in
  quiet c c' ∨ starts item c c'.
Proof.
  intros Hi c'. unfold c', worker_gated. destruct ok; simpl; [|left; eauto with quiet].
  destruct (decided_skip item) eqn:Hskip; [left; eauto using quiet_skip_decided with quiet|].
  destruct (f_preflightFailureCode item) as [code|] eqn:Hcode;
    [left; eauto using quiet_fail_decided with quiet|]. right.
  destruct (begin_upload_quiet i now item c) as (c1 & pc & -> & Hpc & Hs & Hw). split_and!.
  - by eapply pending_worker_elem.
  - unfold uploads, decided_failed. by rewrite Hskip, Hcode.
  - exact Hs.
  - cbn. by rewrite length_insert, Hw.
  - rewrite (passed_take i) by (rewrite ?Hw; done). unfold passed. by rewrite Hw.
Qed.

Lemma worker_gate_passes i item pc c :
  linked c → cf_workers c !! i = Some pc → pending_worker pc = Some item → passing pc = None →
  let c' := worker_gate i item c in quiet c c' ∨ passes item c c'.
Proof.
  intros Hl Hi Hp Hpc c'. unfold c', worker_gate, thermal_gate.
  destruct (ThermalController.waitForUpload _ _) as [k r] eqn:Hw.
  pose proof (waitForUpload_cases _ _ _ _ Hw) as [[-> ->]|(-> & Hc & _)]; [|left; eauto with quiet].
  rewrite set_same_thermal, (ln_cancelled _ Hl).
  destruct (s_cancelled (cf_session c)) eqn:Hcan; simpl; [left; eauto with quiet|]. right. split_and!; try done.
  - by eapply pending_worker_elem.
  - cbn. by rewrite length_insert.
  - unfold passed. cbn. pose proof (passed_insert i pc (W_gated item true) _ Hi) as Hperm.
    rewrite Hpc in Hperm. by rewrite <-Hperm.
Qed.

Lemma run_worker_starts i now c c' :
  linked c → run_worker assets requested isNative i now c = Some c' →
  quiet c c' ∨ ∃ item, passes item c c' ∨ starts item c c'.
Proof.
  intros Hl. unfold run_worker. destruct (cf_workers c !! i) as [pc|] eqn:Hi; [|done]. cbn -[worker_shift].
  destruct pc as [| |[item|]|item|item|item ok|item| |item k a|item k a|item k a|item k a ok|item k a|item r|];
    try done; intros [= <-].
  - left. apply quiet_shift.
  - destruct (worker_gate_passes i item _ c Hl Hi eq_refl eq_refl); [by left|right; exists item; by left].
  - left. eauto with quiet.
  - destruct (worker_gate_passes i item _ c Hl Hi eq_refl eq_refl); [by left|right; exists item; by left].
  - destruct (worker_gated_starts i now item ok c Hi); [by left|right; exists item; by right].
  - left. eauto with quiet.
  - left. apply quiet_chunk_start.
  - left. apply quiet_chunk_start.
  - left. apply quiet_chunk_gated.
  - left. unfold worker_finally. cbv zeta. destruct r; eauto 8 with quiet.
Qed.

Lemma run_producer_starts now c c' :
  run_producer assets requested isNative sessionId show now c = Some c' →
  quiet c c' ∨ (started c' = started c ∧ length (cf_workers c') = CONCURRENCY ∧ passed c' = []).
Proof.
  unfold run_producer. destruct (cf_producer c) as [| | |? ? ? ? [|? ?]| | | | |]; try done; intros [= <-].
  - left. unfold producer_loop. eauto with quiet.
  - left. unfold window_decided. cbv zeta. case_match; eauto with quiet.
  - left. unfold decide_file. cbv zeta. apply quiet_producer.
    match goal with |- quiet c (c <| cf_session := ?s |>) => apply (quiet_on_session (λ _, s) c c) end; [|done].
    case_match; quiet_steps.
  - left. unfold producer_enqueue. repeat case_match; eauto using quiet_producer_push with quiet.
  - left. apply quiet_producer_push.
  - unfold after_produce. cbv zeta.
    assert (quiet c (if preparedAll then on_session finishPreparation c else c)) as H.
    { destruct preparedAll; [|done]. apply quiet_on_session; [|done]. apply quiet_keep. unfold finishPreparation. by case_match. }
    destruct (streams _ _ _); [left; eauto with quiet|]. destruct preparedAll; [|left; eauto with quiet].
    right. split; [apply H|done].
Qed.

Lemma exec_starts c o c' :
  linked c → exec assets requested skipExactDuplicates isNative sessionId show c o = Some c' →
  (length (cf_workers c') = length (cf_workers c) ∨ length (cf_workers c') = CONCURRENCY)
  ∧ ((started c' = started c ∧ passed c' ⊆+ passed c) ∨ ∃ item, passes item c c' ∨ starts item c c').
Proof.
  intros Hl Hex.
  assert (quiet c c' ∨ (started c' = started c ∧ length (cf_workers c') = CONCURRENCY ∧ passed c' = [])
    ∨ ∃ item, passes item c c' ∨ starts item c c')
    as [(Hs & Hw & Hp)|[(Hs & Hw & Hp)|(item & H)]].
  { revert Hex. destruct o as [now|item prepared|answer|env| |i now|i fileId bytes now|i answer now
      |i base64 attempts now| |state]; simpl.
    - intros [H|H]%run_producer_starts; [by left|by right; left].
    - destruct (cf_producer c); try done. intros [= <-]. left. unfold onGlobalProgress. cbv zeta. eauto with quiet.
    - destruct (cf_producer c); try done. intros [= <-]. left. unfold producer_prepared.
      destruct answer as [error|[win|]]; eauto using quiet_record_window with quiet.
    - destruct (cf_producer c); try done. intros [= <-]. left. unfold producer_checked.
      destruct (runDuplicatePreflightWindow _ _ _ _) as [error|[? ?]]; eauto with quiet.
      apply quiet_producer. match goal with |- quiet c (c <| cf_session := ?s |>) => apply (quiet_on_session (λ _, s) c c) end; [|done].
      quiet_steps.
    - unfold run_enqueuer. destruct (cf_enqueuer c); try done; intros [= <-]; left; [|apply quiet_enqueuer_push].
      unfold enqueuePreparedWindows, enqueuer_finally. repeat case_match; eauto using quiet_enqueuer_push with quiet.
    - intros [H|(item & H)]%run_worker_starts; [by left| |done]. right. right. by exists item.
    - destruct (cf_workers c !! i) as [[]|]; try done. intros [= <-]. left. apply quiet_native_progress.
    - destruct (cf_workers c !! i) as [[]|]; try done. intros [= <-]. left. apply quiet_native_answer.
    - destruct (cf_workers c !! i) as [[]|]; try done. intros [= <-]. left. apply quiet_chunk_sent.
    - intros [= <-]. left. by apply quiet_cancel.
    - intros [= <-]. left. apply quiet_thermal. }
  - split; by left.
  - split; [by right|]. left. split; [done|]. rewrite Hp. apply submseteq_nil_l.
  - split; [left; by destruct H as [(_ & _ & _ & ? & _)|(_ & _ & _ & ? & _)]|]. right. by exists item.
Qed.
End starts.
