(* ===== verification/SessionProperties.v ===== *)
(** * What an upload session guarantees

    The theorems about whole runs of [UploadSession.v], from the simulation by the books and
    from what starts, with a concrete session at which they are applied. *)

From S2P Require Import Prelude Js UploadTypes Accounting AsyncQueue Throughput Control Preflight Ledger UploadSession SessionBooks SessionWorkers SessionProducer SessionLedger SessionStarts.

(** ** Executable runs *)

#[export] Instance window_ok_dec c w : Decision (window_ok c w).
Proof.
  refine (cast_if (decide (NoDup (ids (pw_files w))
    ∧ Forall (λ i, i ∉ ids (pending c) ∧ i ∉ TransferOutcomes.terminalIds (s_outcomes (cf_session c))
                   ∧ i ∉ pf_itemId <$> pw_failures w) (ids (pw_files w))
    ∧ Forall (λ i, i ∉ ids (pending c)) (pf_itemId <$> pw_failures w)
    ∧ Forall (λ f, 0 < f_size f) (pw_files w)))).
  - abstract (destruct a as (? & H1 & H2 & H3); rewrite Forall_forall in H1; rewrite Forall_forall in H2; rewrite Forall_forall in H3; by split).
  - abstract (intros []; apply n; rewrite !Forall_forall; done).
Defined.

#[export] Instance choice_ok_dec full c o : Decision (choice_ok full c o).
Proof. destruct o as [| |[|[|]]| | | | |i answer ?| | |]; simpl; try apply _. destruct (cf_workers c !! i) as [[]|]; apply _. Defined.

Section properties.
Context (assets : list MediaAsset) (requested : PreparationMode) (skipExactDuplicates : bool).
Context (isNative : bool) (sessionId : string) (show : Z → string).

Notation exec := (exec assets requested skipExactDuplicates isNative sessionId show).
Notation session_step := (session_step assets requested skipExactDuplicates isNative sessionId show).
Notation pipeline_result := (pipeline_result assets requested isNative).
Notation start policy time := (pipeline_start assets requested isNative
                                 (new_session assets requested isNative policy time) time).

(** Runs the choices that satisfy [choice_ok]. *)
Fixpoint run_session (full : bool) (c : config) (os : list choice) : option config :=
  match os with
  | [] => Some c
  | o :: os =>
    if decide (choice_ok full c o) then c' ← exec c o; run_session full c' os else None
  end.

Lemma run_session_steps full os c c' : run_session full c os = Some c' → rtc (session_step full) c c'.
Proof.
  revert c. induction os as [|o os IH]; intros c; simpl; [intros [= ->]; by apply rtc_refl|].
  case_decide as Ho; [|done]. destruct (exec c o) as [c1|] eqn:He; [|done]. intros Hr.
  eapply rtc_l; [by exists o|by apply IH].
Qed.

(** ** The end of a session *)

Lemma workers_count full policy time c :
  rtc (session_step full) (start policy time) c → streams assets requested isNative = true →
  length (cf_workers c) = CONCURRENCY.
Proof.
  intros Hrun Hb.
  assert (length (cf_workers (start policy time)) = CONCURRENCY) as H0 by (unfold pipeline_start; by rewrite Hb).
  pose proof (start_sound assets requested isNative policy time) as [Hs _].
  revert Hs H0. induction Hrun as [|c c1 c2 (o & Ho & He) _ IH]; [done|]. intros Hs H0.
  destruct (exec_simulates _ _ _ _ _ _ full c o c1 Hs Ho He) as [Hs1 _]. apply IH; [done|].
  destruct (exec_starts _ _ _ _ _ _ c o c1 (so_linked _ _ Hs) He) as [[->| ->] _]; done.
Qed.

Lemma workers_bounded full policy time c :
  rtc (session_step full) (start policy time) c → (length (cf_workers c) <= CONCURRENCY)%nat.
Proof.
  intros Hrun. pose proof (start_sound assets requested isNative policy time) as [Hs _].
  assert (length (cf_workers (start policy time)) <= CONCURRENCY)%nat as H0
    by (unfold pipeline_start; destruct (streams _ _ _); cbn; unfold CONCURRENCY; lia).
  revert Hs H0. induction Hrun as [|c c1 c2 (o & Ho & He) _ IH]; [done|]. intros Hs H0.
  destruct (exec_simulates _ _ _ _ _ _ full c o c1 Hs Ho He) as [Hs1 _]. apply IH; [done|].
  by destruct (exec_starts _ _ _ _ _ _ c o c1 (so_linked _ _ Hs) He) as [[->| ->] _].
Qed.

Lemma ab_pending_nil c l : abstracts c l → pending c = [] → lg_pending l = [].
Proof.
  intros Ha Hp. pose proof (ab_pending _ _ Ha) as H. rewrite Hp in H. by apply Permutation_nil_r in H.
Qed.

Lemma all_returned_lookup ws i pc : all_returned ws = true → ws !! i = Some pc → pc = W_returned.
Proof.
  unfold all_returned. rewrite forallb_forall. intros H Hi. apply list_elem_of_lookup_2, list_elem_of_In, H in Hi.
  by destruct pc.
Qed.

(** When the workers of an uncancelled session are done, no file is left anywhere. *)
Lemma pending_settled c :
  sound (streams assets requested isNative) c →
  (streams assets requested isNative = true → length (cf_workers c) = CONCURRENCY) →
  pipeline_result c = Some (inr true) → s_cancelled (cf_session c) = false → pending c = [] ∧ due c = 0.
Proof.
  intros Hs Hcount Hres Hcan. destruct (so_producer _ _ Hs) as [_ Hm]. unfold pipeline_result in Hres.
  assert (cf_producer c = P_ended true ∧ all_returned (cf_workers c) = true
    ∧ s_preparedWindows (cf_session c) = [] ∧ pending_enqueuer (cf_enqueuer c) = []
    ∧ length (cf_workers c) = CONCURRENCY) as (Hp & Hret & Hw & He & Hlen).
  { destruct (cf_producer c) as [| | | | | | | |r]; try done. destruct (streams _ _ _) eqn:Hb.
    - destruct (all_returned _); [|done]. injection Hres as ->. destruct Hm as [-> ->].
      split_and!; try done. by apply Hcount.
    - destruct r; [|done]. cbn in Hres. destruct (cf_enqueuer c) as [| | | |[]]; try done.
      destruct (all_returned _); [|done]. by destruct Hm. }
  destruct (cf_workers c) as [|pc ws] eqn:Hws; [done|].
  assert (pc = W_returned) as -> by (by apply (all_returned_lookup _ 0 pc Hret)).
  assert (BoundedAsyncQueue.items (s_queue (cf_session c)) = []) as Hit.
  { destruct (so_workers _ _ Hs 0%nat W_returned) as [?|[_ ?]]; [by rewrite Hws|congruence|done]. }
  assert (∀ pc, pc ∈ W_returned :: ws → pc = W_returned) as Hall
    by (intros pc [i Hi]%list_elem_of_lookup; by eapply all_returned_lookup).
  unfold pending, due, pending_elsewhere, due_elsewhere. rewrite Hp, He, Hw, Hit, Hws. clear -Hall.
  assert (omap pending_worker (W_returned :: ws) = [] ∧ sumZ due_worker (W_returned :: ws) = 0) as [H1 H2].
  { clear -Hall. induction ws as [|pc ws IH]; [done|].
    assert (pc = W_returned) as -> by (apply Hall; right; left).
    destruct IH as [H1 H2]; [intros pc Hpc; apply Hall; set_solver|].
    split; [exact H1|]. rewrite !sumZ_cons in *. cbn in *. lia. }
  split; [exact H1|]. rewrite H2. done.
Qed.

Lemma result_pending full policy time c :
  rtc (session_step full) (start policy time) c → pipeline_result c = Some (inr true) →
  s_cancelled (cf_session c) = false → pending c = [] ∧ due c = 0.
Proof.
  intros Hrun. pose proof (session_books _ _ _ _ _ _ full policy time c Hrun) as [Hs _].
  apply pending_settled; [done|]. by eapply workers_count.
Qed.

(** C1: the upload session refines its books. Whatever the interleaving of the producer,
    the prepared-window enqueuer, the two workers, the native module's answers and progress
    events, thermal changes and the user's cancellation, every state of a session is a state
    of the ledger: each file of a prepared window is pending until it settles exactly once,
    bytes become due when a window is planned and are acknowledged against the plan, and
    files are abandoned only after a cancellation. When the native module acknowledges
    the files it reports as transferred in full, nothing settles short. *)
Theorem session_refines_ledger full policy time c :
  rtc (session_step full) (start policy time) c →
  ∃ l, rtc ledger_step empty_ledger l ∧ abstracts c l ∧ (full = true → lg_short l = 0).
Proof. intros Hrun. apply (session_books _ _ _ _ _ _ full policy time c Hrun). Qed.

(** C4: a transfer accounts for every file. When the pipeline of a session that was not
    cancelled reports that everything was prepared, no file is left with the producer, in
    a window, in the queue or with a worker, and the files that were prepared or failed to
    prepare are exactly those counted as uploaded, skipped or failed. *)
Theorem transfer_accounts_for_every_file full policy time c :
  rtc (session_step full) (start policy time) c → pipeline_result c = Some (inr true) →
  s_cancelled (cf_session c) = false →
  let o := TransferOutcomes.counts (s_outcomes (cf_session c)) in
  pending c = []
  ∧ c_readyFiles (s_counters (cf_session c)) + preparationFailedFiles o
    = uploadedFiles o + skippedFiles o + failedFiles o.
Proof.
  intros Hrun Hres Hcan o. destruct (result_pending full policy time c Hrun Hres Hcan) as [Hp _].
  destruct (session_books _ _ _ _ _ _ full policy time c Hrun) as (_ & l & Hl & Ha & _).
  split; [done|]. pose proof (ledger_run_ok l Hl) as Hok.
  rewrite <-(ab_cancelled _ _ Ha) in Hcan. pose proof (lo_files l Hok Hcan) as Hfiles.
  destruct (lo_outcomes l Hok) as [ops Hops]. rewrite (ab_pending_nil c l Ha Hp) in Hfiles.
  rewrite (ab_ready _ _ Ha), (ab_outcomes _ _ Ha) in *. unfold o. rewrite Hops in *.
  destruct (record_all_balanced ops) as [Hbal _]. change (lengthZ []) with 0 in Hfiles. lia.
Qed.

(** C6: the progress a session shows is within its plan. At every moment the acknowledged
    bytes are at most the planned ones, so a progress bar never passes its end; while the
    session is not cancelled and the native module acknowledges files in full, the plan is
    exactly what was acknowledged and what the pending files still owe, and when the
    pipeline has succeeded the two are equal. *)
Theorem acknowledged_within_plan full policy time c :
  rtc (session_step full) (start policy time) c →
  let s := cf_session c in
  0 <= due c ∧ uploadedBytes s <= s_planned s
  ∧ (full = true → s_cancelled s = false →
       uploadedBytes s + due c = s_planned s
       ∧ (pipeline_result c = Some (inr true) → uploadedBytes s = s_planned s)).
Proof.
  intros Hrun s. subst s. destruct (session_books _ _ _ _ _ _ full policy time c Hrun) as (_ & l & Hl & Ha & Hshort).
  destruct (ledger_run_ok l Hl).
  pose proof (ab_due _ _ Ha). pose proof (ab_planned _ _ Ha). pose proof (ab_uploaded _ _ Ha).
  pose proof (ab_cancelled _ _ Ha) as Hc. split_and!; [lia|lia|].
  intros Hf Hcan. specialize (Hshort Hf). specialize (lo_exact (eq_trans Hc Hcan)).
  split; [lia|]. intros Hres. destruct (result_pending full policy time c Hrun Hres Hcan) as [_ Hd]. lia.
Qed.

(** *** What starts after a cancellation *)

Lemma ledger_cancelled l l' : rtc ledger_step l l' → lg_cancelled l = true → lg_cancelled l' = true.
Proof. induction 1 as [|l l1 l' Hs _ IH]; [done|]. intros Hc. apply IH. by destruct Hs. Qed.

Lemma stays_cancelled full c o c' :
  sound (streams assets requested isNative) c → (∃ l, abstracts c l) → choice_ok full c o → exec c o = Some c' →
  s_cancelled (cf_session c) = true → s_cancelled (cf_session c') = true.
Proof.
  intros Hs [l Ha] Ho He Hcan. destruct (exec_simulates _ _ _ _ _ _ full c o c' Hs Ho He) as [_ Hk].
  destruct (Hk l Ha) as (l' & Hl & Ha' & _). rewrite <-(ab_cancelled _ _ Ha'). apply (ledger_cancelled l l' Hl).
  by rewrite (ab_cancelled _ _ Ha).
Qed.

Lemma passed_bounded full policy time c :
  rtc (session_step full) (start policy time) c → (length (passed c) <= CONCURRENCY)%nat.
Proof.
  intros Hrun. etrans; [|by eapply workers_bounded]. unfold passed. clear.
  induction (cf_workers c) as [|pc ws IH]; [done|]. simpl. unfold omap in IH. destruct (passing pc); simpl; lia.
Qed.

(** Once the session is cancelled, only passed gates lead to an upload. *)
Lemma late_starts full policy time c c' :
  rtc (session_step full) (start policy time) c → rtc (session_step full) c c' →
  s_cancelled (cf_session c) = true →
  ∃ late, started c' = started c ++ late ∧ late ++ passed c' ⊆+ passed c.
Proof.
  intros Hrun Hlate. revert Hrun. induction Hlate as [c|c c1 c2 (o & Ho & He) _ IH]; intros Hrun Hcan.
  { exists []. by rewrite app_nil_r. }
  destruct (session_books _ _ _ _ _ _ full policy time c Hrun) as (Hs & l & _ & Ha & _).
  assert (rtc (session_step full) (start policy time) c1) as Hrun1 by (eapply rtc_r; [done|by exists o]).
  destruct (IH Hrun1 (stays_cancelled full c o c1 Hs (ex_intro _ l Ha) Ho He Hcan)) as (late & Hl & Hp).
  destruct (exec_starts _ _ _ _ _ _ c o c1 (so_linked _ _ Hs) He) as [_ [[Hst Hq]|(item & [(Hno & _)|H])]].
  - exists late. rewrite Hl, Hst. split; [done|]. by etrans.
  - congruence.
  - destruct H as (_ & _ & Hst & _ & Hq). exists (item :: late). rewrite Hl, Hst, <-app_assoc. split; [done|].
    simpl. etrans; [|exact Hq]. by apply submseteq_skip.
Qed.

(** C5: uploads start only when they may. A move of the session hands at most one file to
    the uploader: a pending file that the duplicate preflight chose for upload, of a worker
    whose gate had answered that it may go on. A gate answers so only while the session is
    not cancelled; the worker goes on in a later turn and does not ask again, so after a
    cancellation only the files of gates passed before it may still start, each at most once
    and at most one for each of the two workers. At most two workers run. *)
Theorem uploads_start_safely full policy time c :
  rtc (session_step full) (start policy time) c →
  (∀ o c', exec c o = Some c' →
     ((started c' = started c ∧ (s_cancelled (cf_session c) = true → passed c' ⊆+ passed c))
      ∨ ∃ item, item ∈ pending c ∧ uploads item = true
          ∧ started c' = started c ++ [item] ∧ item :: passed c' ⊆+ passed c)
     ∧ (length (cf_workers c') <= CONCURRENCY)%nat)
  ∧ (length (passed c) <= CONCURRENCY)%nat
  ∧ ∀ c', rtc (session_step full) c c' → s_cancelled (cf_session c) = true →
      ∃ late, started c' = started c ++ late ∧ late ⊆+ passed c.
Proof.
  intros Hrun. pose proof (session_books _ _ _ _ _ _ full policy time c Hrun) as [Hs _]. split_and!.
  - intros o c' He. destruct (exec_starts _ _ _ _ _ _ c o c' (so_linked _ _ Hs) He) as [Hw Hst]. split.
    + destruct Hst as [[? ?]|(item & [(? & _ & ? & _)|(? & ? & ? & _ & ?)])]; [by left| |right; by exists item].
      left. split; [done|congruence].
    + destruct Hw as [->| ->]; [by eapply workers_bounded|done].
  - by eapply passed_bounded.
  - intros c' Hlate Hcan. destruct (late_starts full policy time c c' Hrun Hlate Hcan) as (late & Hl & Hp).
    exists late. split; [done|]. etrans; [|exact Hp]. by apply submseteq_inserts_r.
Qed.
End properties.

(** ** A concrete session *)

Definition sample_transfer : list MediaAsset := [sample_asset].
Definition sample_name (n : Z) : string := if n =? 1 then "1" else "2".
Definition sample_prepared : PreparedWindow :=
  {| pw_windowIndex := 0; pw_files := sample_window; pw_failures := [];
     pw_filenameResolutionAppleCount := 2; pw_discoveredBytes := 20; pw_selectedMediaBytes := 20;
     pw_additionalComponentsBytes := 0; pw_selectedMediaFiles := 2; pw_additionalComponentsFiles := 0 |}.

(** Two files of equal content: the first is uploaded, the second skipped. *)
Definition sample_choices : list choice :=
  [ RunProducer 0; WindowPrepared (inr (Some sample_prepared)); WindowChecked sample_services;
    RunProducer 1; RunProducer 1; RunProducer 1; RunProducer 1; RunProducer 1;
    RunWorker 0 2; RunWorker 0 2; RunWorker 0 2; RunWorker 1 2; RunWorker 1 2; RunWorker 1 2; RunWorker 1 2;
    NativeProgress 0 "s-1" (Finite 4) 3; RunProducer 3; RunProducer 3; RunProducer 3;
    NativeAnswered 0 (UploadAnswered (Finite 10) false "A.HEIC" None 0 0) 4;
    RunWorker 0 5; RunWorker 0 5; RunWorker 0 5; RunWorker 1 5; RunWorker 1 5 ].

Definition sample_start : config :=
  pipeline_start sample_transfer streaming true
    (new_session sample_transfer streaming true monitor_only 0) 0.
Definition sample_run (os : list choice) : config :=
  default sample_start
    (run_session sample_transfer streaming true true "s" sample_name true sample_start os).

Lemma sample_reachable (n : nat) :
  is_Some (run_session sample_transfer streaming true true "s" sample_name true sample_start (take n sample_choices)) →
  rtc (session_step sample_transfer streaming true true "s" sample_name true) sample_start
    (sample_run (take n sample_choices)).
Proof.
  intros [c Hc]. unfold sample_run. rewrite Hc. by eapply run_session_steps.
Qed.

Lemma session_refines_ledger_witness :
  ∃ l, rtc ledger_step empty_ledger l ∧ abstracts (sample_run (take 16 sample_choices)) l
       ∧ (true = true → lg_short l = 0).
Proof.
  exact (session_refines_ledger sample_transfer streaming true true "s" sample_name true monitor_only 0
           (sample_run (take 16 sample_choices)) (sample_reachable 16 ltac:(vm_compute; by eexists))).
Defined.

Lemma transfer_accounts_for_every_file_witness :
  let c := sample_run sample_choices in
  let o := TransferOutcomes.counts (s_outcomes (cf_session c)) in
  uploadedFiles o = 1 ∧ skippedFiles o = 1 ∧ pending c = []
  ∧ c_readyFiles (s_counters (cf_session c)) + preparationFailedFiles o
    = uploadedFiles o + skippedFiles o + failedFiles o.
Proof.
  split; [by vm_compute|]. split; [by vm_compute|].
  refine (transfer_accounts_for_every_file sample_transfer streaming true true "s" sample_name true monitor_only 0
           (sample_run sample_choices) _ _ _); [|by vm_compute|by vm_compute].
  refine (sample_reachable 26 _). vm_compute. by eexists.
Defined.

Lemma acknowledged_within_plan_witness :
  let c := sample_run (take 16 sample_choices) in
  uploadedBytes (cf_session c) = 4 ∧ due c = 6
  ∧ (0 <= due c ∧ uploadedBytes (cf_session c) <= s_planned (cf_session c)
     ∧ (true = true → s_cancelled (cf_session c) = false →
          uploadedBytes (cf_session c) + due c = s_planned (cf_session c)
          ∧ (pipeline_result sample_transfer streaming true c = Some (inr true) →
               uploadedBytes (cf_session c) = s_planned (cf_session c)))).
Proof.
  split; [by vm_compute|]. split; [by vm_compute|].
  exact (acknowledged_within_plan sample_transfer streaming true true "s" sample_name true monitor_only 0
           (sample_run (take 16 sample_choices)) (sample_reachable 16 ltac:(vm_compute; by eexists))).
Defined.

(** The first worker passed its gate; the user cancels; its upload starts nevertheless. *)
Definition late_choices : list choice := take 10 sample_choices ++ [UserCancels; RunWorker 0 2].

Lemma late_reachable (n : nat) :
  is_Some (run_session sample_transfer streaming true true "s" sample_name true sample_start (take n late_choices)) →
  rtc (session_step sample_transfer streaming true true "s" sample_name true) sample_start
    (sample_run (take n late_choices)).
Proof. intros [c Hc]. unfold sample_run. rewrite Hc. by eapply run_session_steps. Qed.

Lemma uploads_start_safely_witness :
  let c := sample_run (take 11 late_choices) in
  let c' := sample_run late_choices in
  s_cancelled (cf_session c) = true ∧ length (started c) = 0%nat ∧ length (started c') = 1%nat
  ∧ ∃ late, started c' = started c ++ late ∧ late ⊆+ passed c.
Proof.
  split; [by vm_compute|]. split; [by vm_compute|]. split; [by vm_compute|].
  refine (proj2 (proj2 (uploads_start_safely sample_transfer streaming true true "s" sample_name true monitor_only 0
           (sample_run (take 11 late_choices)) _)) (sample_run late_choices) _ _).
  - refine (late_reachable 11 _). vm_compute. by eexists.
  - apply rtc_once. exists (RunWorker 0 2). split; [done|]. vm_compute. reflexivity.
  - vm_compute. reflexivity.
Defined.
