(* ===== verification/SessionProgress.v ===== *)
(** * An upload session is never stuck

    No suspended function of [UploadSession.v] waits for a call that nobody will make: a full
    queue always has a worker that will take from it, and whoever ends closes the queue. *)

From S2P Require Import Prelude Js UploadTypes Accounting AsyncQueue Throughput Control Preflight Ledger UploadSession SessionBooks SessionWorkers SessionProducer SessionLedger SessionStarts SessionProperties.

(** ** What a move leaves in order *)

Notation queue_of c := (s_queue (cf_session c)).

(** A call of [push] waits only for room. *)
Definition full_ok (q : BoundedAsyncQueue.t PreparedUploadFile) : Prop :=
  BoundedAsyncQueue.waitingProducers q ≠ [] →
  (BoundedAsyncQueue.capacity q <= length (BoundedAsyncQueue.items q))%nat.

(** A function that has ended left the queue closed, or another function running. *)
Record orderly (streams : bool) (c : config) : Prop := {
  or_full : full_ok (queue_of c);
  or_producer : if streams then ∀ r, cf_producer c = P_ended r → BoundedAsyncQueue.closed (queue_of c) = true
                else cf_producer c = P_ended true → cf_enqueuer c ≠ E_idle;
  or_enqueuer : ∀ e, cf_enqueuer c = E_ended e → BoundedAsyncQueue.closed (queue_of c) = true }.

(** A move that ends no function without closing the queue. *)
Record tidy (c c' : config) : Prop := {
  ti_full : full_ok (queue_of c) → full_ok (queue_of c');
  ti_closed : BoundedAsyncQueue.closed (queue_of c) = true → BoundedAsyncQueue.closed (queue_of c') = true;
  ti_producer : ∀ r, cf_producer c' = P_ended r → cf_producer c = P_ended r;
  ti_enqueuer : ∀ e, cf_enqueuer c' = E_ended e →
    cf_enqueuer c = E_ended e ∨ BoundedAsyncQueue.closed (queue_of c') = true;
  ti_idle : cf_enqueuer c' = E_idle → cf_enqueuer c = E_idle }.

Lemma tidy_orderly b c c' : orderly b c → tidy c c' → orderly b c'.
Proof.
  intros [Hf Hp He] [Tf Tc Tp Te Ti]. split; [by apply Tf| |].
  - destruct b; [intros r Hr%Tp; by eapply Tc, Hp|]. intros Hr%Tp Hi%Ti. by apply Hp in Hr.
  - intros e Hr. destruct (Te e Hr) as [Hr'|?]; [|done]. by eapply Tc, He.
Qed.

Lemma tidy_refl c : tidy c c.
Proof. split; eauto. Qed.

Lemma tidy_on_session f c c' : s_queue (f (cf_session c')) = s_queue (cf_session c') → tidy c c' → tidy c (on_session f c').
Proof. intros Hq []. split; cbn; rewrite ?Hq; done. Qed.
Lemma tidy_set_worker i pc c c' : tidy c c' → tidy c (set_worker i pc c').
Proof. by intros []. Qed.
Lemma tidy_wake_waiters ids c c' : tidy c c' → tidy c (wake_waiters ids c').
Proof. by intros []. Qed.
Lemma tidy_producer p c c' : (∀ r, p ≠ P_ended r) → tidy c c' → tidy c (c' <| cf_producer := p |>).
Proof. intros Hp []. split; try done. cbn. intros r ->. by destruct (Hp r). Qed.
Lemma tidy_enqueuer e c c' : e ≠ E_idle → (∀ r, e ≠ E_ended r) → tidy c c' → tidy c (c' <| cf_enqueuer := e |>).
Proof. intros He Hr []. split; cbn; try done. intros r ->. by destruct (Hr r). Qed.
Lemma wake_producer_ended pc r : wake_producer pc = P_ended r → pc = P_ended r.
Proof. by destruct pc. Qed.
Lemma wake_enqueuer_ended pc e : wake_enqueuer pc = E_ended e → pc = E_ended e.
Proof. by destruct pc. Qed.
Lemma wake_enqueuer_idle pc : wake_enqueuer pc = E_idle → pc = E_idle.
Proof. by destruct pc. Qed.

Lemma close_queue_pcs c :
  BoundedAsyncQueue.closed (queue_of (close_queue c)) = true
  ∧ (full_ok (queue_of c) → full_ok (queue_of (close_queue c)))
  ∧ (∀ r, cf_producer (close_queue c) = P_ended r → cf_producer c = P_ended r)
  ∧ (∀ e, cf_enqueuer (close_queue c) = E_ended e → cf_enqueuer c = E_ended e)
  ∧ (cf_enqueuer (close_queue c) = E_idle → cf_enqueuer c = E_idle).
Proof.
  unfold close_queue, BoundedAsyncQueue.close.
  destruct (BoundedAsyncQueue.closed (queue_of c)) eqn:Hc; [by destruct c|].
  destruct (BoundedAsyncQueue.waitingProducers _); (split_and!; [done|by intros _ []| | |]); cbn;
    eauto using wake_producer_ended, wake_enqueuer_ended, wake_enqueuer_idle.
Qed.

Lemma tidy_close c c' : tidy c c' → tidy c (close_queue c').
Proof.
  intros []. destruct (close_queue_pcs c') as (Hc & Hf & Hp & He & Hi). split; eauto.
Qed.

(** [E_ended] comes with a closed queue. *)
Lemma tidy_enqueuer_finally error c c' : tidy c c' → tidy c (enqueuer_finally error c').
Proof.
  intros H. apply tidy_close in H as []. unfold enqueuer_finally. split; try done.
  cbn. intros e _. right. apply close_queue_pcs.
Qed.

Create HintDb tidy.
#[local] Hint Resolve tidy_refl tidy_on_session tidy_set_worker tidy_wake_waiters tidy_producer tidy_enqueuer tidy_close tidy_enqueuer_finally : tidy.
#[local] Hint Extern 1 (_ ≠ _) => discriminate : tidy.

(** A function of the session that leaves the queue alone. *)
Lemma queue_of_control s s' : control_of s' = control_of s → s_queue s' = s_queue s.
Proof. unfold control_of. congruence. Qed.
Lemma queue_emit e s : s_queue (emit e s) = s_queue s.
Proof. done. Qed.
Lemma queue_history h a s : s_queue (recordHistoryProblem h a s) = s_queue s.
Proof. apply queue_of_control, control_recordHistoryProblem. Qed.

Section progress.
Context (assets : list MediaAsset) (requested : PreparationMode) (skipExactDuplicates : bool).
Context (isNative : bool) (sessionId : string) (show : Z → string).

Lemma queue_skip_decided item s : s_queue (skip_decided assets requested isNative item s) = s_queue s.
Proof. unfold skip_decided. cbv zeta. unfold report_progress. by rewrite !queue_emit, queue_history. Qed.
Lemma queue_fail_decided item code s : s_queue (fail_decided assets requested isNative item code s) = s_queue s.
Proof. unfold fail_decided. cbv zeta. unfold report_progress. by rewrite !queue_emit, queue_history. Qed.
Lemma queue_succeeded item skipped sent saved s : s_queue (upload_succeeded item skipped sent saved s) = s_queue s.
Proof. unfold upload_succeeded. destruct skipped; cbv zeta; by rewrite !queue_emit, ?queue_history. Qed.
Lemma queue_failed item a error s : s_queue (upload_failed_with assets requested isNative item a error s) = s_queue s.
Proof.
  unfold upload_failed_with. cbv zeta. unfold report_progress. rewrite !queue_emit. cbn. by rewrite queue_history.
Qed.
Lemma queue_acknowledge item a reported now s :
  s_queue (recordNativeAcknowledgement assets requested isNative item a reported now s).2 = s_queue s.
Proof. unfold recordNativeAcknowledgement. by repeat case_match. Qed.
#[local] Hint Resolve queue_skip_decided queue_fail_decided queue_succeeded queue_failed queue_acknowledge : tidy.

Lemma tidy_cancel c c' : tidy c c' → tidy c (cancel c').
Proof. intros H. unfold cancel. destruct (ThermalController.cancel _) as [k ids]. eauto 8 with tidy. Qed.
#[local] Hint Resolve tidy_cancel : tidy.
Lemma tidy_thermal state c : tidy c (updateThermalState state c).
Proof. unfold updateThermalState. destruct (ThermalController.update _ _) as [k ids]. eauto with tidy. Qed.
Lemma tidy_catch error c c' : tidy c c' → tidy c (producer_catch error c').
Proof. unfold producer_catch. cbv zeta. eauto with tidy. Qed.
#[local] Hint Resolve tidy_thermal tidy_catch : tidy.
Lemma tidy_threw i item a error c c' : tidy c c' → tidy c (upload_threw assets requested isNative i item a error c').
Proof. intros H. unfold upload_threw. repeat case_match; eauto with tidy. Qed.
Lemma tidy_done i item skipped sent saved c c' : tidy c c' → tidy c (upload_done i item skipped sent saved c').
Proof. unfold upload_done. eauto with tidy. Qed.
#[local] Hint Resolve tidy_threw tidy_done : tidy.

(** *** The queue *)

Lemma tidy_run_push callback waiting file c :
  linked c → (∀ s w, s_queue (callback s w) = s_queue s) → tidy c (run_push callback waiting file c).1.
Proof.
  intros Hl Hcb. destruct (run_push_cases callback waiting file c Hl) as (c1 & calls & r & Hpush & ->). simpl.
  apply tidy_on_session.
  { generalize (cf_session c1). induction calls as [|w calls IH]; intros s; simpl; [done|]. by rewrite IH. }
  destruct Hpush as [Hcl Hfull|Hcl|k ks Hcl Hcs|Hcl Hcs Hroom]; [..|apply tidy_refl| |]; split; try done;
    try (by left); cbn; unfold full_ok; cbn; try congruence.
  intros Hf Hw. rewrite length_app. specialize (Hf Hw). lia.
Qed.

Lemma tidy_producer_push start w waiting file rest c :
  linked c → tidy c (producer_push assets requested isNative start w waiting file rest c).
Proof.
  intros Hl. unfold producer_push.
  assert (∀ s x, s_queue (capacity_wait assets requested isNative file s x) = s_queue s) as Hcb
    by (intros s x; unfold capacity_wait; by repeat case_match).
  pose proof (tidy_run_push _ waiting file c Hl Hcb) as H. destruct (run_push _ _ _ _) as [c1 []]; eauto with tidy.
Qed.
Lemma tidy_enqueuer_push waiting file rest c : linked c → tidy c (enqueuer_push waiting file rest c).
Proof.
  intros Hl. unfold enqueuer_push. pose proof (tidy_run_push (λ s _, s) waiting file c Hl (λ s _, eq_refl)) as H.
  destruct (run_push _ _ _ _) as [c1 []]; eauto with tidy.
Qed.

Lemma tidy_shift i c : linked c → tidy c (worker_shift i c).
Proof.
  intros Hl. unfold worker_shift. destruct (s_cancelled _); [eauto with tidy|].
  pose proof (ln_producers c Hl) as Hone. pose proof (ln_queue c Hl) as (Hcap & _ & _ & _).
  destruct (shift_cases (queue_of c) i) as [(v & rest & Hit & ->)|[(Hit & Hcl & ->)|(Hit & Hcl & ->)]].
  - assert (tail (BoundedAsyncQueue.waitingProducers (queue_of c)) = []) as Ht.
    { destruct (BoundedAsyncQueue.waitingProducers _) as [|x [|]]; [done..|]. simpl in Hone. by destruct (producer_waits c). }
    destruct (head _); split; try done; cbn; unfold full_ok; cbn; rewrite ?Ht; try done;
      eauto using wake_producer_ended, wake_enqueuer_ended, wake_enqueuer_idle.
  - by apply tidy_set_worker, tidy_on_session, tidy_refl.
  - split; cbn; [|congruence|eauto..]. intros Hf Hw. cbn in Hw. apply Hf in Hw. by rewrite Hit in Hw.
Qed.

(** *** The other moves *)

Lemma tidy_native_progress i item a fileId reported now c :
  tidy c (native_progress_event assets requested isNative i item a fileId reported now c).
Proof.
  unfold native_progress_event. destruct (decide _) as [_|_]; [|apply tidy_refl].
  pose proof (queue_acknowledge item a reported now (cf_session c)) as H.
  destruct (recordNativeAcknowledgement _ _ _ _ _ _ _ _) as [a' s']. apply tidy_set_worker.
  exact (tidy_on_session (λ _, s') c c H (tidy_refl c)).
Qed.

Lemma tidy_native_answer i item a answer now c :
  tidy c (native_answer assets requested isNative i item a answer now c).
Proof.
  assert (∀ reported a' s', recordNativeAcknowledgement assets requested isNative item a reported now (cf_session c) = (a', s') →
    tidy c (c <| cf_session := s' |>)) as Hq.
  { intros reported a' s' He. pose proof (queue_acknowledge item a reported now (cf_session c)) as H.
    rewrite He in H. exact (tidy_on_session (λ _, s') c c H (tidy_refl c)). }
  unfold native_answer. destruct answer as [reported ? ? ? ? ?|code ? reported|error]; [| |eauto with tidy].
  - destruct (recordNativeAcknowledgement _ _ _ _ _ _ _ _) as [a' s'] eqn:He. apply tidy_done.
    apply Hq in He as []. by split.
  - destruct (recordNativeAcknowledgement _ _ _ _ _ _ _ _) as [a' s'] eqn:He. apply Hq in He.
    case_decide; eauto 8 with tidy.
Qed.

Lemma tidy_gate i suspended answered c : tidy c (thermal_gate i suspended answered c).
Proof. unfold thermal_gate. destruct (ThermalController.waitForUpload _ _) as [k r]. eauto with tidy. Qed.
#[local] Hint Resolve tidy_gate : tidy.

Lemma tidy_chunk_sent i item k a base64 attempts now c :
  tidy c (chunk_sent assets requested isNative i item k a base64 attempts now c).
Proof.
  unfold chunk_sent. cbv zeta. destruct (_ =? 0); [eauto with tidy|].
  destruct (uploadEncodedChunk attempts) as [body|error].
  - assert (tidy c (on_session (record_chunk assets requested isNative item (chunk_length item k) (default 0 base64) now) c)) as H
      by eauto with tidy.
    destruct (_ =? _); [destruct (last_chunk_answer body)|]; eauto with tidy.
  - case_match; eauto with tidy.
Qed.

Lemma tidy_run_worker i now c c' :
  linked c → run_worker assets requested isNative i now c = Some c' → tidy c c'.
Proof.
  intros Hl. unfold run_worker. destruct (cf_workers c !! i) as [pc|] eqn:Hi; [|done]. cbn -[worker_shift].
  destruct pc; try done; try (intros [= <-]).
  - by apply tidy_shift.
  - destruct item; intros [= <-]; [apply tidy_gate|eauto with tidy].
  - apply tidy_gate.
  - unfold worker_gated, begin_upload. cbv zeta.
    repeat case_match; try (by eauto with tidy); [apply tidy_threw|apply tidy_set_worker..];
      match goal with |- tidy c (c <| cf_session := ?s |>) => apply (tidy_on_session (λ _, s) c c) end;
      first [done|apply tidy_refl].
  - eauto with tidy.
  - unfold chunk_start. case_match; eauto with tidy.
  - unfold chunk_start. case_match; eauto with tidy.
  - unfold chunk_gated. case_match; eauto with tidy.
  - unfold worker_finally. cbv zeta. eauto with tidy.
Qed.

Notation b := (streams assets requested isNative).

Lemma orderly_after_produce completed now c :
  sound b c → orderly b c → cf_producer c = P_returned completed →
  orderly b (after_produce assets requested isNative completed now c).
Proof.
  intros Hs Ho Hp. unfold after_produce. cbv zeta.
  set (c1 := if completed then on_session finishPreparation c else c).
  assert (queue_of c1 = queue_of c ∧ cf_enqueuer c1 = cf_enqueuer c) as [Hq He].
  { unfold c1. destruct completed; [|done]. unfold finishPreparation. cbn. by case_match. }
  assert (cf_enqueuer c = E_idle) as Hidle by (eapply enqueuer_idle; [exact Hs|by rewrite Hp]).
  destruct (Bool.bool_dec b true) as [Eb|Eb%not_true_is_false]; rewrite Eb.
  - destruct (close_queue_pcs (c1 <| cf_producer := P_ended completed |>)) as (Hc & Hf & _ & _ & _).
    split; [|done..]. apply Hf. cbn. rewrite Hq. apply (or_full _ _ Ho).
  - pose proof (or_full _ _ Ho) as Hf. rewrite <-Hq in Hf.
    assert (∀ e, cf_enqueuer c1 ≠ E_ended e) as Hne by (by rewrite He, Hidle).
    destruct completed; (split; [exact Hf|done|]); cbn; [done|]. intros e Hx. by destruct (Hne e).
Qed.

Lemma exec_orderly c o c' :
  sound b c → orderly b c → exec assets requested skipExactDuplicates isNative sessionId show c o = Some c' →
  orderly b c'.
Proof.
  intros Hs Ho Hex. pose proof (so_linked _ _ Hs) as Hl.
  assert (tidy c c' ∨ ∃ completed now, cf_producer c = P_returned completed
    ∧ c' = after_produce assets requested isNative completed now c) as [?|(completed & now & Hp & ->)];
    [|by eapply tidy_orderly|by apply orderly_after_produce].
  revert Hex. destruct o as [now|item prepared|answer|env| |i now|i fileId bytes now|i answer now
    |i base64 attempts now| |state]; simpl.
  - unfold run_producer. destruct (cf_producer c) as [| | |? ? ? ? [|? ?]| | | |completed|] eqn:Hp; try done;
      intros [= <-]; [left..|right; by exists completed, now].
    + unfold producer_loop. apply tidy_producer; [|apply tidy_refl]. intros r. by repeat case_match.
    + unfold window_decided, next_window. cbv zeta. case_match; eauto with tidy.
    + unfold decide_file. cbv zeta. apply tidy_producer; [done|].
      match goal with |- tidy c (c <| cf_session := ?s |>) => apply (tidy_on_session (λ _, s) c c) end; [by case_match|apply tidy_refl].
    + unfold producer_enqueue, next_window. repeat case_match; eauto using tidy_producer_push with tidy.
    + by apply tidy_producer_push.
  - destruct (cf_producer c); try done. intros [= <-]. left. unfold onGlobalProgress. cbv zeta. eauto with tidy.
  - destruct (cf_producer c) as [| |start w| | | | | |]; try done. intros [= <-]. left. unfold producer_prepared.
    destruct answer as [error|[win|]]; eauto with tidy. apply tidy_producer; [done|]. apply tidy_on_session; [|apply tidy_refl].
    apply queue_of_control, record_window_frame.
  - destruct (cf_producer c); try done. intros [= <-]. left. unfold producer_checked.
    destruct (runDuplicatePreflightWindow _ _ _ _) as [error|[? ?]]; [eauto with tidy|]. apply tidy_producer; [done|].
    match goal with |- tidy c (c <| cf_session := ?s |>) => apply (tidy_on_session (λ _, s) c c) end; [done|apply tidy_refl].
  - unfold run_enqueuer. destruct (cf_enqueuer c); try done; intros [= <-]; left; [|by apply tidy_enqueuer_push].
    unfold enqueuePreparedWindows. repeat case_match; eauto using tidy_enqueuer_push with tidy.
  - intros H. left. by eapply tidy_run_worker.
  - destruct (cf_workers c !! i) as [[]|]; try done. intros [= <-]. left. apply tidy_native_progress.
  - destruct (cf_workers c !! i) as [[]|]; try done. intros [= <-]. left. apply tidy_native_answer.
  - destruct (cf_workers c !! i) as [[]|]; try done. intros [= <-]. left. apply tidy_chunk_sent.
  - intros [= <-]. left. eauto with tidy.
  - intros [= <-]. left. apply tidy_thermal.
Qed.

Lemma start_orderly policy time :
  orderly b (pipeline_start assets requested isNative (new_session assets requested isNative policy time) time).
Proof. unfold pipeline_start. cbv zeta. destruct b; split; try done; by intros []. Qed.

(** ** Progress *)

(** The session waits for something outside it: a window being prepared or checked, the
    answer to an upload, or, for a worker other than the first, a cooler device. *)
Definition awaits_worker (c : config) (i : nat) (pc : worker_pc) : Prop :=
  match pc with
  | W_native _ _ | W_sending _ _ _ => True
  | W_thermal _ | W_chunk_thermal _ _ _ =>
    (0 < i)%nat ∧ ThermalController.hot (ThermalController.state (s_thermal (cf_session c))) = true
    ∧ s_cancelled (cf_session c) = false
  | _ => False
  end.
Definition awaits (c : config) : Prop :=
  match cf_producer c with P_preparing _ _ | P_checking _ _ _ => True | _ => False end
  ∨ ∃ i pc, cf_workers c !! i = Some pc ∧ awaits_worker c i pc.

(** One of the functions of the session can take its next turn. *)
Definition can_run (c : config) : Prop :=
  ∃ o, match o with RunProducer _ | RunEnqueuer | RunWorker _ _ => True | _ => False end
       ∧ is_Some (exec assets requested skipExactDuplicates isNative sessionId show c o).

(** What a worker does that is not suspended in [shift]. *)
Lemma worker_moves c i pc :
  linked c → cf_workers c !! i = Some pc → pc ≠ W_shifting → pc ≠ W_returned → can_run c ∨ awaits c.
Proof.
  intros Hl Hi Hsh Hret.
  assert (cooling pc = true → awaits_worker c i pc) as Hcool.
  { intros Hc. pose proof (ln_waiters c Hl i pc Hi Hc) as Hw. destruct (ln_thermal c Hl) as (_ & Hh & Hn & Hpos).
    { intros Hnil. rewrite Hnil in Hw. by apply elem_of_nil in Hw. }
    specialize (Hpos _ Hw). rewrite (ln_cancelled c Hl) in Hn.
    destruct pc; try done; cbn; (split_and!; [lia|done|done]). }
  destruct (run_worker assets requested isNative i 0 c) as [c'|] eqn:Hrun.
  { left. exists (RunWorker i 0). split; [done|]. simpl. by rewrite Hrun. }
  right. right. exists i, pc. split; [done|]. unfold run_worker in Hrun. rewrite Hi in Hrun. simpl in Hrun.
  destruct pc as [| |[]| | | | | | | | | | | |]; try done; by apply Hcool.
Qed.

(** A call suspended in [push] has a worker that makes room. *)
Lemma push_has_reader c :
  sound b c → orderly b c → producer_waits c = true → length (cf_workers c) = CONCURRENCY → can_run c ∨ awaits c.
Proof.
  intros Hs Ho Hw Hlen. pose proof (so_linked _ _ Hs) as Hl. pose proof (ln_producers c Hl) as Hone. rewrite Hw in Hone.
  pose proof (ln_queue c Hl) as (Hcap & _ & Hcons & Hclosed).
  assert (BoundedAsyncQueue.waitingProducers (queue_of c) ≠ []) as Hne by (by destruct (BoundedAsyncQueue.waitingProducers _)).
  pose proof (or_full _ _ Ho Hne) as Hfull.
  assert (BoundedAsyncQueue.closed (queue_of c) = false) as Hopen
    by (destruct (BoundedAsyncQueue.closed _); [by destruct Hclosed|done]).
  destruct (lookup_lt_is_Some_2 (cf_workers c) 0) as [pc Hi]; [by rewrite Hlen; apply Nat.lt_0_succ|].
  apply (worker_moves c 0 pc); try done; intros ->.
  - rewrite <-(ln_consumers c Hl) in Hi. rewrite Hcons in Hfull by (intros Hnil; rewrite Hnil in Hi; by apply elem_of_nil in Hi).
    simpl in Hfull. lia.
  - destruct (so_workers _ _ Hs 0%nat _ Hi) as [Hc|[Hc _]]; [|congruence]. apply (ln_closed c Hl) in Hc. congruence.
Qed.

(** Once the queue is closed every worker runs to its end. *)
Lemma closed_workers_run c :
  sound b c → BoundedAsyncQueue.closed (queue_of c) = true → all_returned (cf_workers c) = false → can_run c ∨ awaits c.
Proof.
  intros Hs Hcl Hret. pose proof (so_linked _ _ Hs) as Hl. pose proof (ln_queue c Hl) as (_ & _ & _ & Hclosed).
  assert (∃ i pc, cf_workers c !! i = Some pc ∧ pc ≠ W_returned) as (i & pc & Hi & Hpc).
  { unfold all_returned in Hret. clear -Hret. induction (cf_workers c) as [|pc ws IH]; [done|]. simpl in Hret.
    apply andb_false_iff in Hret as [Hpc|Hws]; [exists 0%nat, pc; split; [done|by intros ->]|].
    destruct (IH Hws) as (i & pc' & ? & ?). by exists (S i), pc'. }
  apply (worker_moves c i pc); try done. intros ->. rewrite <-(ln_consumers c Hl) in Hi.
  destruct (Hclosed Hcl) as [Hnil _]. rewrite Hnil in Hi. by apply elem_of_nil in Hi.
Qed.

Lemma orderly_progress c :
  sound b c → orderly b c → (b = true → length (cf_workers c) = CONCURRENCY) →
  pipeline_result assets requested isNative c = None → can_run c ∨ awaits c.
Proof.
  intros Hs Ho Hlen Hres. destruct (so_producer _ _ Hs) as [Hpc Hm].
  assert (∀ now, is_Some (run_producer assets requested isNative sessionId show now c) → can_run c) as Hrun
    by (intros now H; by exists (RunProducer now)).
  unfold pipeline_result in Hres.
  destruct (cf_producer c) as [| | |? ? ? ? [|? ?]| |start w file rest| | |completed] eqn:Hp;
    try (left; apply (Hrun 0); unfold run_producer; rewrite Hp; by eexists);
    try (right; left; by rewrite Hp).
  - apply push_has_reader; try done; [|by apply Hlen]. unfold producer_waits. by rewrite Hp.
  - pose proof (or_producer _ _ Ho) as H.
    destruct (Bool.bool_dec b true) as [Eb|Eb%not_true_is_false]; rewrite Eb in Hres, Hm, H.
    + destruct (all_returned _) eqn:Hret; [done|]. apply closed_workers_run; try done.
      by eapply H.
    + destruct completed; [|done]. cbn in Hres. destruct Hm as [_ Hm].
      specialize (H Hp).
      destruct (cf_enqueuer c) as [|rest|file rest|file rest|[error|]] eqn:He; try done.
      * left. exists RunEnqueuer. split; [done|]. cbn. unfold run_enqueuer. rewrite He. by eexists.
      * apply push_has_reader; try done. unfold producer_waits. by rewrite Hp, He.
      * left. exists RunEnqueuer. split; [done|]. cbn. unfold run_enqueuer. rewrite He. by eexists.
      * destruct (all_returned _) eqn:Hret; [done|]. apply closed_workers_run; try done. by eapply (or_enqueuer _ _ Ho).
Qed.
End progress.
