(* ===== verification/UploadManager.v ===== *)
(** * The body of [uploadFilesConcurrent] ([services/UploadManager.ts])

    The transfer manager around one session: its guard against a second transfer, the calls
    before the pipeline, what it reports when the pipeline settled or threw, and the
    [finally] clause. One step is a run up to the next [await]; while the body is suspended
    the session's own functions, the user and the device go on. *)

From S2P Require Import Prelude Js UploadTypes Accounting AsyncQueue Throughput Control Preflight Ledger UploadSession SessionBooks SessionWorkers SessionProducer SessionLedger SessionStarts SessionProperties SessionProgress.

(** ** Reports *)

Inductive CompletionStatus := status_completed | status_mixed | status_cancelled | status_fatal.

(** Durations and [diagnosticReportAvailable] are left out. *)
(* src: services/upload/types.ts:173-199 [UploadSummary] *)
Record UploadSummary := {
  sm_sessionId : string;
  sm_selectedAssets : Z;
  sm_expandedFiles : Z;
  sm_selectedFiles : Z;
  sm_uploadedFiles : Z;
  sm_skippedFiles : Z;
  sm_failedFiles : Z;
  sm_selectedBytes : Z;
  sm_selectedMediaBytes : Z;
  sm_additionalComponentsBytes : Z;
  sm_selectedMediaFiles : Z;
  sm_additionalComponentsFiles : Z;
  sm_byteTotalComplete : bool;
  sm_uploadedBytes : Z;
  sm_skippedBytes : Z;
  sm_avoidedBytes : Z;
  sm_finalizationDuplicateBytes : Z;
  sm_averageMediaMBps : QArith_base.Q;
  sm_peakMediaMBps : QArith_base.Q;
  sm_completionStatus : CompletionStatus }.

(** The counts of a payload of [api.transferHistory], and its problem files. *)
Record TransferHistoryPayload := {
  th_completionStatus : CompletionStatus;
  th_expandedFiles : Z;
  th_uploadedFiles : Z;
  th_skippedFiles : Z;
  th_failedFiles : Z;
  th_uploadedBytes : Z;
  th_skippedBytes : Z;
  th_retries : Z;
  th_files : list TransferHistoryFile }.

Inductive report :=
  | Completed (summary : UploadSummary)                                      (** [onComplete] *)
  | Errored (failure : TransferFailure) (summary : option UploadSummary).    (** [onError] *)

(** ** The body *)

(** Where the body is suspended; [M_done] after its last statement. *)
Inductive main_pc :=
  | M_setup
  | M_pipeline
  | M_prepared_log
  | M_finishing (status : CompletionStatus) (reportedFailedFiles expandedFiles : Z)
  | M_recording (summary : UploadSummary) (payload : TransferHistoryPayload)
  | M_logging (summary : UploadSummary)
  | M_caught (failure : TransferFailure)
  | M_caught_recording (failure : TransferFailure) (payload : TransferHistoryPayload)
  | M_caught_logging (failure : TransferFailure)
  | M_cancelling
  | M_ending
  | M_metrics
  | M_done.

Record manager := {
  m_config : config;
  m_main : main_pc;
  m_isRunning : bool;
  m_reports : list report;
  m_histories : list TransferHistoryPayload }.

#[export] Instance eta_manager : Eta manager := λ m,
  {| m_config := m_config m; m_main := m_main m; m_isRunning := m_isRunning m;
     m_reports := m_reports m; m_histories := m_histories m |}.

Definition m_session (m : manager) : session := cf_session (m_config m).
Definition m_cancelled (m : manager) : bool := s_cancelled (m_session m).

Section manager.
Context (assets : list MediaAsset) (requested : PreparationMode) (skipExactDuplicates : bool).
Context (isNative : bool) (sessionId : string) (show : Z → string).

(** [readyFiles + outcomes.preparationFailedFiles]. *)
Definition expanded (s : session) : Z :=
  c_readyFiles (s_counters s) + preparationFailedFiles (TransferOutcomes.counts (s_outcomes s)).

(** The fields both summaries share. *)
Definition summary_of (s : session) (expandedFiles selectedFiles failed : Z) (status : CompletionStatus)
    : UploadSummary :=
  let c := s_counters s in
  let o := TransferOutcomes.counts (s_outcomes s) in
  let rates := ThroughputTracker.current (s_throughput s) in
  {| sm_sessionId := sessionId; sm_selectedAssets := lengthZ assets; sm_expandedFiles := expandedFiles;
     sm_selectedFiles := selectedFiles; sm_uploadedFiles := uploadedFiles o;
     sm_skippedFiles := skippedFiles o; sm_failedFiles := failed;
     sm_selectedBytes := c_discoveredBytes c; sm_selectedMediaBytes := c_selectedMediaBytes c;
     sm_additionalComponentsBytes := c_additionalComponentsBytes c;
     sm_selectedMediaFiles := c_selectedMediaFiles c;
     sm_additionalComponentsFiles := c_additionalComponentsFiles c;
     sm_byteTotalComplete := preparationFailedFiles o =? 0;
     sm_uploadedBytes := successfulUploadedBytes o; sm_skippedBytes := skippedBytes o;
     sm_avoidedBytes := avoidedBytes o; sm_finalizationDuplicateBytes := finalizationDuplicateBytes o;
     sm_averageMediaMBps := ThroughputTracker.averageMediaMBps rates;
     sm_peakMediaMBps := ThroughputTracker.peakMediaMBps rates; sm_completionStatus := status |}.

(* src: services/UploadManager.ts:1041-1065 [uploadFilesConcurrent] *)
Definition completion_summary (s : session) (status : CompletionStatus) (reportedFailedFiles expandedFiles : Z)
    : UploadSummary :=
  summary_of s expandedFiles expandedFiles reportedFailedFiles status.

(* src: services/UploadManager.ts:1107-1134 [uploadFilesConcurrent] *)
Definition fatal_summary (s : session) : UploadSummary :=
  let o := TransferOutcomes.counts (s_outcomes s) in
  let selectedFiles := Z.max (lengthZ assets) (expanded s) in
  summary_of s (expanded s) selectedFiles
    (Z.max (failedFiles o) (selectedFiles - uploadedFiles o - skippedFiles o)) status_fatal.

(* src: services/UploadManager.ts:206-234 [recordTransferHistory] *)
Definition history_payload (s : session) (status : CompletionStatus) (reportedFailedFiles : Z)
    : TransferHistoryPayload :=
  let o := TransferOutcomes.counts (s_outcomes s) in
  {| th_completionStatus := status; th_expandedFiles := expanded s; th_uploadedFiles := uploadedFiles o;
     th_skippedFiles := skippedFiles o; th_failedFiles := reportedFailedFiles;
     th_uploadedBytes := successfulUploadedBytes o; th_skippedBytes := skippedBytes o;
     th_retries := s_nativeRetryCount s; th_files := s_history s |}.

Definition without_files (p : TransferHistoryPayload) : TransferHistoryPayload :=
  {| th_completionStatus := th_completionStatus p; th_expandedFiles := th_expandedFiles p;
     th_uploadedFiles := th_uploadedFiles p; th_skippedFiles := th_skippedFiles p;
     th_failedFiles := th_failedFiles p; th_uploadedBytes := th_uploadedBytes p;
     th_skippedBytes := th_skippedBytes p; th_retries := th_retries p; th_files := [] |}.

(** The payloads sent: the desktop [accepted] the first one or the second is tried. *)
(* src: services/UploadManager.ts:235-244 [recordTransferHistory] *)
Definition history_requests (p : TransferHistoryPayload) (accepted : bool) : list TransferHistoryPayload :=
  if accepted then [p] else [p; without_files p].

(** Assets without any outcome fail. *)
(* src: services/UploadManager.ts:1012-1026 [uploadFilesConcurrent] *)
Fixpoint mark_missing (index : Z) (rest : list MediaAsset) (s : session) : session :=
  match rest with
  | [] => s
  | asset :: rest =>
    mark_missing (index + 1) rest
      (if decide (asset_id asset ∈ s_outcomeAssetIds s) then s
       else markPreparationFailure asset (asset_id asset +:+ ":missing") (index + 1) (Some unknown_role)
              (Some primary) (Some (asset_filename asset)) stage_metadata unexpected s)
  end.

(** [catch (error)] up to its first [await]. *)
(* src: services/UploadManager.ts:1094-1096 [uploadFilesConcurrent] *)
Definition catch_failure (error : thrown) : TransferFailure :=
  if isUnauthorizedError error then fatal_failure stage_network unauthorized
  else transferFailure error stage_upload unexpected.

Definition throws (error : thrown) (m : manager) : manager :=
  m <| m_main := M_caught (catch_failure error) |>.

(** [finally] up to its first [await]. *)
(* src: services/UploadManager.ts:1141-1147 [uploadFilesConcurrent] *)
Definition finally_tail (m : manager) : manager :=
  let c := m_config m in
  let '(thermal, ids) := ThermalController.cancel (s_thermal (cf_session c)) in
  let c := wake_waiters ids (on_session (λ s, s <| s_thermal := thermal |>) c) in
  m <| m_config := close_queue c |> <| m_main := M_ending |>.

Definition enter_finally (m : manager) : manager :=
  if m_cancelled m then m <| m_main := M_cancelling |> else finally_tail m.

Definition report_as (r : report) (m : manager) : manager := m <| m_reports := m_reports m ++ [r] |>.

(** The user may have cancelled before the body looks at the pipeline's result. *)
(* src: services/UploadManager.ts:979-986 [uploadFilesConcurrent] *)
Definition pipeline_settled (result : thrown + bool) (m : manager) : manager :=
  match result with
  | inl error => throws error m
  | inr preparedAll =>
    match s_fatalError (m_session m) with
    | Some error => throws error m
    | None =>
      if negb preparedAll then
        throws (ThrownTransferFailure (if m_cancelled m then failure_of stage_upload cancelled
                                       else fatal_failure stage_preflight unexpected)) m
      else m <| m_main := M_prepared_log |>
    end
  end.

(* src: services/UploadManager.ts:1011-1035 [uploadFilesConcurrent] *)
Definition prepared_logged (m : manager) : manager :=
  let c := m_config m in
  let c := if m_cancelled m then c else on_session (mark_missing 0 assets) c in
  let reported := failedFiles (TransferOutcomes.counts (s_outcomes (cf_session c))) in
  let status := if s_cancelled (cf_session c) then status_cancelled
                else if 0 <? reported then status_mixed else status_completed in
  m <| m_config := c |> <| m_main := M_finishing status reported (expanded (cf_session c)) |>.

(** What resumes the body or runs next to it. *)
Inductive manager_choice :=
  | MSession (o : choice)
  | MSetupAnswered (answer : thrown + ()) (now : Z)
  | MPipelineSettled
  | MResumed                      (** [await]ed calls that cannot reject *)
  | MHistoryAnswered (accepted : bool).

(** Before the pipeline starts only the user and the device act. *)
Definition early_choice (o : choice) : bool :=
  match o with UserCancels | ThermalChanged _ => true | _ => false end.

(** The session's own functions; the [finally] clause is where the model leaves them. *)
Definition session_runs (m : manager) (o : choice) : bool :=
  match m_main m with
  | M_setup => early_choice o
  | M_cancelling | M_ending | M_metrics | M_done => false
  | _ => true
  end.

(* src: services/UploadManager.ts:359-381 [uploadFilesConcurrent] *)
Definition setup_answered (answer : thrown + ()) (now : Z) (m : manager) : manager :=
  match answer with
  | inl error => throws error m
  | inr _ =>
    m <| m_config := pipeline_start assets requested isNative (m_session m) now |> <| m_main := M_pipeline |>
  end.

(* src: services/UploadManager.ts:1029-1165 [uploadFilesConcurrent] *)
Definition resumed (m : manager) : option manager :=
  let s := m_session m in
  match m_main m with
  | M_prepared_log => Some (prepared_logged m)
  | M_finishing status reported expandedFiles =>
    Some (m <| m_main := M_recording (completion_summary s status reported expandedFiles)
                           (history_payload s status reported) |>)
  | M_logging summary =>
    Some (enter_finally (if m_cancelled m then m else report_as (Completed summary) m))
  | M_caught failure =>
    Some (m <| m_main :=
      if m_cancelled m && negb (tf_fatal failure)
      then M_caught_recording failure
             (history_payload s status_cancelled (failedFiles (TransferOutcomes.counts (s_outcomes s))))
      else M_caught_logging failure |>)
  | M_caught_logging failure =>
    Some (enter_finally
      (if negb (m_cancelled m) || tf_fatal failure
       then report_as (Errored failure (Some (fatal_summary s))) m else m))
  | M_cancelling => Some (finally_tail m)
  | M_ending => Some (m <| m_main := M_metrics |>)
  | M_metrics => Some (m <| m_main := M_done |> <| m_isRunning := false |>)
  | M_setup | M_pipeline | M_recording _ _ | M_caught_recording _ _ | M_done => None
  end.

(* src: services/UploadManager.ts:235-244 [recordTransferHistory] *)
Definition history_answered (accepted : bool) (m : manager) : option manager :=
  match m_main m with
  | M_recording summary payload =>
    Some (m <| m_histories := m_histories m ++ history_requests payload accepted |> <| m_main := M_logging summary |>)
  | M_caught_recording failure payload =>
    Some (m <| m_histories := m_histories m ++ history_requests payload accepted |> <| m_main := M_caught_logging failure |>)
  | _ => None
  end.

Definition m_exec (m : manager) (o : manager_choice) : option manager :=
  match o with
  | MSession o =>
    if session_runs m o
    then c ← exec assets requested skipExactDuplicates isNative sessionId show (m_config m) o;
         Some (m <| m_config := c |>)
    else None
  | MSetupAnswered answer now =>
    match m_main m with M_setup => Some (setup_answered answer now m) | _ => None end
  | MPipelineSettled =>
    match m_main m with
    | M_pipeline => result ← pipeline_result assets requested isNative (m_config m); Some (pipeline_settled result m)
    | _ => None
    end
  | MResumed => resumed m
  | MHistoryAnswered accepted => history_answered accepted m
  end.

(** [uploadFilesConcurrent] when it is called on an idle manager. *)
(* src: services/UploadManager.ts:121-148 [uploadFilesConcurrent] *)
Definition begin_transfer (policy : ThermalPolicy) (startTime : Z) : manager :=
  {| m_config := {| cf_session := new_session assets requested isNative policy startTime;
                    cf_producer := P_loop 0 0; cf_enqueuer := E_idle; cf_workers := [] |};
     m_main := M_setup; m_isRunning := true; m_reports := []; m_histories := [] |}.

Definition already_running : string := "A transfer is already running.".

(** The call: [inl] is what a second caller gets while a transfer runs. *)
(* src: services/UploadManager.ts:116-121 [uploadFilesConcurrent] *)
Definition uploadFilesConcurrent (running : bool) (policy : ThermalPolicy) (startTime : Z) : thrown + manager :=
  if running then inl (ThrownOther already_running) else inr (begin_transfer policy startTime).
End manager.

(** ** Runs of the manager *)

#[local] Arguments producer_waits : simpl never.

Definition manager_choice_ok (m : manager) (o : manager_choice) : Prop :=
  match o with MSession o => choice_ok false (m_config m) o | _ => True end.

#[export] Instance manager_choice_ok_dec m o : Decision (manager_choice_ok m o).
Proof. destruct o; apply _. Defined.

Section proofs.
Context (assets : list MediaAsset) (requested : PreparationMode) (skipExactDuplicates : bool).
Context (isNative : bool) (sessionId : string) (show : Z → string).

Notation b := (streams assets requested isNative).
Notation exec := (exec assets requested skipExactDuplicates isNative sessionId show).
Notation m_exec := (m_exec assets requested skipExactDuplicates isNative sessionId show).
Notation begin_transfer := (begin_transfer assets requested isNative).

Definition manager_step (m m' : manager) : Prop := ∃ o, manager_choice_ok m o ∧ m_exec m o = Some m'.

(** A reported summary accounts for every selected file. *)
Definition balanced (sm : UploadSummary) : Prop :=
  sm_uploadedFiles sm + sm_skippedFiles sm + sm_failedFiles sm = sm_selectedFiles sm
  ∧ 0 <= sm_uploadedFiles sm ∧ 0 <= sm_skippedFiles sm ∧ 0 <= sm_failedFiles sm.

Definition report_ok (r : report) : Prop :=
  match r with
  | Completed sm => balanced sm ∧ sm_selectedFiles sm = sm_expandedFiles sm
      ∧ sm_completionStatus sm = if 0 <? sm_failedFiles sm then status_mixed else status_completed
  | Errored _ (Some sm) => balanced sm ∧ sm_completionStatus sm = status_fatal
      ∧ sm_expandedFiles sm <= sm_selectedFiles sm ∧ lengthZ assets <= sm_selectedFiles sm
  | Errored _ None => False
  end.

(** The configuration is one of the books. *)
Definition booked (c : config) : Prop := sound b c ∧ ∃ l, rtc ledger_step empty_ledger l ∧ abstracts c l.

Lemma booked_keeps full c c' : booked c → keeps_books b full c c' → booked c'.
Proof.
  intros [Hs (l & Hl & Ha)] [Hs' Hk]. split; [done|]. destruct (Hk l Ha) as (l' & Hl' & Ha' & _).
  exists l'. split; [by etrans|done].
Qed.

Lemma booked_ledger c :
  booked c → ∃ l, ledger_ok l ∧ abstracts c l.
Proof. intros [_ (l & Hl & Ha)]. exists l. split; [by apply ledger_run_ok|done]. Qed.

(** The session before its pipeline starts. *)
Definition unstarted (c : config) : Prop :=
  cf_producer c = P_loop 0 0 ∧ cf_enqueuer c = E_idle ∧ cf_workers c = [].

Lemma unstarted_exec c o c' :
  booked c → unstarted c → early_choice o = true → exec c o = Some c' → unstarted c'.
Proof.
  intros [Hs _] (H1 & H2 & H3) Ho. destruct o; try done; simpl; intros [= <-].
  - rewrite (cancel_spec c (so_linked _ _ Hs)). unfold unstarted. cbn. by rewrite H1, H2, H3.
  - unfold unstarted, updateThermalState. destruct (ThermalController.update _ _) as [k ids]. cbn.
    rewrite H1, H2, H3. split_and!; [done|done|]. apply nil_length_inv. by rewrite wake_workers_length.
Qed.

Lemma start_workers now c :
  booked c → unstarted c → booked (pipeline_start assets requested isNative (cf_session c) now).
Proof.
  intros Hb (Hp & He & Hw). destruct c as [s p e ws]. cbn in *. subst. unfold pipeline_start. cbv zeta.
  destruct (Bool.bool_dec b true) as [Eb|Eb%not_true_is_false]; [|by rewrite Eb].
  replace (if b then _ else _) with
    (runWorkers now {| cf_session := s; cf_producer := P_loop 0 0; cf_enqueuer := E_idle; cf_workers := [] |})
    by (by rewrite Eb).
  apply (booked_keeps false _ _ Hb). destruct Hb as [Hs _]. pose proof (so_linked _ _ Hs) as [].
  apply keeps_silent; [|done..]. destruct Hs. split; try done.
  - split; try done.
    + intros i. cbn in *. rewrite ln_consumers. split; [done|]. intros H. by destruct i as [|[|[]]].
    + cbn. intros i pc Hi. by destruct i as [|[|[]]]; simplify_eq/=.
  - intros i pc. cbn. by destruct i as [|[|[]]]; intros [= <-].
  - unfold producer_ok in *. by rewrite Eb in *.
Qed.

Lemma begin_booked policy time : booked (m_config (begin_transfer policy time)) ∧ unstarted (m_config (begin_transfer policy time)).
Proof.
  split; [|done]. assert (BoundedAsyncQueue.queue_ok (empty_queue assets requested isNative)) as Hq
    by (apply empty_queue_ok). split.
  - split; cbn; try done; [by apply (idle_linked assets requested isNative policy)|set_solver|].
    split; [done|]. by destruct b.
  - exists empty_ledger. split; [done|]. by split.
Qed.

(** *** After the pipeline *)

(** Every function of the session returned. *)
Definition settled (c : config) : Prop :=
  cf_producer c = P_ended true ∧ all_returned (cf_workers c) = true
  ∧ match cf_enqueuer c with E_idle | E_ended _ => True | _ => False end
  ∧ (s_cancelled (cf_session c) = false → pending c = []).

Lemma settled_exec full c o c' :
  booked c → settled c → choice_ok full c o → exec c o = Some c' →
  keeps_books b full c c' ∧ settled c' ∧ books_of (cf_session c') = books_of (cf_session c)
  ∧ (s_cancelled (cf_session c) = true → s_cancelled (cf_session c') = true)
  ∧ (s_cancelled (cf_session c') = false → s_cancelled (cf_session c) = false).
Proof.
  intros Hb (Hp & Hw & He & Hpend) Hok Hex. split; [by eapply exec_simulates; [apply Hb| |]|].
  assert (∀ i pc, cf_workers c !! i = Some pc → pc = W_returned) as Hall by (intros i pc; by apply all_returned_lookup).
  destruct Hb as [Hs _]. pose proof (so_linked _ _ Hs) as Hl. revert Hex.
  destruct o as [| | | | |i|i|i|i| |state]; simpl; try (rewrite Hp; done); intros Hex.
  - unfold run_producer in Hex. by rewrite Hp in Hex.
  - unfold run_enqueuer in Hex. by destruct (cf_enqueuer c).
  - unfold run_worker in Hex. destruct (cf_workers c !! i) as [pc|] eqn:Hi; [|done]. by rewrite (Hall i pc Hi) in Hex.
  - destruct (cf_workers c !! i) as [pc|] eqn:Hi; [|done]. by rewrite (Hall i pc Hi) in Hex.
  - destruct (cf_workers c !! i) as [pc|] eqn:Hi; [|done]. by rewrite (Hall i pc Hi) in Hex.
  - destruct (cf_workers c !! i) as [pc|] eqn:Hi; [|done]. by rewrite (Hall i pc Hi) in Hex.
  - injection Hex as <-. pose proof (woken_books c) as [Hwp _]. rewrite (cancel_spec c Hl) in *. split_and!; try done.
    split_and!; cbn.
    + by rewrite Hp.
    + unfold all_returned in *. rewrite forallb_forall in *. intros pc Hin.
      apply list_elem_of_In, list_elem_of_fmap in Hin as (pc0 & -> & Hin).
      apply list_elem_of_lookup in Hin as [i Hi]. by rewrite (Hall i pc0 Hi).
    + by destruct (cf_enqueuer c).
    + done.
  - injection Hex as <-.
    assert (∀ ids, wake_workers wake_thermal ids (cf_workers c) = cf_workers c) as Hsame.
    { intros ids. apply list_eq. intros i. rewrite wake_workers_lookup by apply wake_thermal_idem.
      case_decide; [|done]. destruct (cf_workers c !! i) as [pc|] eqn:Hi; [|done]. by rewrite (Hall i pc Hi). }
    assert (∃ k, updateThermalState state c = on_session (λ s, s <| s_thermal := k |>) c) as [k ->]; [|done].
    unfold updateThermalState, wake_waiters. destruct (ThermalController.update _ _) as [k ids].
    exists k. change (cf_workers (on_session _ c)) with (cf_workers c). rewrite Hsame. by destruct c.
Qed.

Lemma settled_result c :
  booked c → pipeline_result assets requested isNative c = Some (inr true) →
  (b = true → length (cf_workers c) = CONCURRENCY) → settled c.
Proof.
  intros [Hs _] Hres Hcount. pose proof Hres as Hres0. destruct (so_producer _ _ Hs) as [_ Hm]. unfold pipeline_result in Hres.
  assert (cf_producer c = P_ended true ∧ all_returned (cf_workers c) = true
    ∧ match cf_enqueuer c with E_idle | E_ended _ => True | _ => False end) as (Hp & Hw & He).
  { destruct (cf_producer c) as [| | | | | | | |r]; try done. destruct (streams _ _ _) eqn:Hb.
    - destruct (all_returned _); [|done]. injection Hres as ->. by destruct Hm as [_ ->].
    - destruct r; [|done]. cbn in Hres. destruct (cf_enqueuer c) as [| | | |[]]; try done.
      by destruct (all_returned _). }
  split_and!; try done. intros Hcan. by apply (pending_settled assets requested isNative c Hs Hcount Hres0 Hcan).
Qed.

(** The assets that fail are new to the outcomes only if they were not reported. *)
Lemma markPreparationFailure_frame asset id ref role semantics original stage code s :
  let s' := markPreparationFailure asset id ref role semantics original stage code s in
  control_of s' = control_of s ∧ s_throughput s' = s_throughput s
  ∧ books_of s' = (c_readyFiles (s_counters s), s_planned s, uploadedBytes s,
                   (TransferOutcomes.fail (s_outcomes s) id true).2).
Proof.
  intros s'. unfold s', markPreparationFailure. destruct (TransferOutcomes.fail _ _ _) as [[] o]; [|done].
  cbn [negb]. rewrite control_emit, books_emit, control_recordHistoryProblem, books_recordHistoryProblem.
  split_and!; [done| |done]. cbn. by rewrite throughput_recordHistoryProblem.
Qed.

Lemma mark_missing_frame index rest s :
  ∃ failed, let s' := mark_missing index rest s in
  control_of s' = control_of s ∧ s_throughput s' = s_throughput s
  ∧ books_of s' = (c_readyFiles (s_counters s), s_planned s, uploadedBytes s, fail_all (s_outcomes s) failed).
Proof.
  revert index s. induction rest as [|asset rest IH]; intros index s; simpl; [by exists []|].
  case_decide; [apply IH|]. set (id := asset_id asset +:+ ":missing").
  set (s1 := markPreparationFailure _ _ _ _ _ _ _ _ s).
  destruct (markPreparationFailure_frame asset id (index + 1) (Some unknown_role) (Some primary)
    (Some (asset_filename asset)) stage_metadata unexpected s) as (Hc1 & Ht1 & Hb1).
  change (markPreparationFailure _ _ _ _ _ _ _ _ s) with s1 in Hc1, Ht1, Hb1.
  destruct (IH (index + 1) s1) as (failed & Hc & Ht & Hb). exists (id :: failed).
  unfold books_of in Hb1. injection Hb1 as E1 E2 E3 E4. rewrite Hc, Ht, Hb, E1, E2, E3, E4. done.
Qed.

(** Marking the missing assets of an uncancelled, settled session. *)
Lemma mark_missing_settled c :
  booked c → settled c → s_cancelled (cf_session c) = false →
  let c' := on_session (mark_missing 0 assets) c in booked c' ∧ settled c' ∧ s_cancelled (cf_session c') = false.
Proof.
  intros [Hs (l & Hl & Ha)] (Hp & Hw & He & Hpend) Hcan c'. specialize (Hpend Hcan).
  destruct (mark_missing_frame 0 assets (cf_session c)) as (failed & Hc & Ht & Hb).
  pose proof (control_core _ _ Hc) as Hcore.
  destruct (session_pending (mark_missing 0 assets) c Hcore) as [Hp' Hd']. fold c' in Hp', Hd'.
  pose proof Hcore as H0. injection H0 as Hcan' _ _ _.
  split; [|split; [split_and!; try done; intros _; by rewrite Hp'|cbn; by rewrite Hcan']]. split.
  - apply sound_session; [done|done|]. eapply rate_same_throughput; [exact Ht|apply (so_rate _ _ Hs)].
  - exists (l <| lg_pending := [] ++ lg_pending l |> <| lg_ready := lg_ready l + lengthZ (@nil string) |>
              <| lg_outcomes := fail_all (lg_outcomes l) failed |>). split.
    + eapply rtc_r; [exact Hl|]. apply (ledger_window l [] failed). split_and!; [constructor|by intros i ?%elem_of_nil|].
      intros i _. rewrite (ab_pending_nil c l Ha Hpend). apply not_elem_of_nil.
    + unfold books_of in Hb. injection Hb as Hb1 Hb2 Hb3 Hb4. destruct Ha.
      split; cbn -[due uploadedBytes c']; rewrite ?Hp', ?Hd'; try done; cbn in *; try congruence.
      change (lengthZ []) with 0. rewrite Hb1. lia.
Qed.

(** What the counts of a session add up to. *)
Lemma booked_counts c :
  booked c →
  let o := TransferOutcomes.counts (s_outcomes (cf_session c)) in
  uploadedFiles o + skippedFiles o + failedFiles o <= expanded (cf_session c)
  ∧ (s_cancelled (cf_session c) = false → pending c = [] →
       uploadedFiles o + skippedFiles o + failedFiles o = expanded (cf_session c))
  ∧ 0 <= uploadedFiles o ∧ 0 <= skippedFiles o ∧ 0 <= failedFiles o.
Proof.
  intros Hb o. destruct (booked_ledger c Hb) as (l & Hok & Ha). destruct (lo_outcomes l Hok) as [ops Hops].
  pose proof (lo_files_le l Hok) as Hle. pose proof (lo_files l Hok) as Heq.
  assert (s_outcomes (cf_session c) = record_all ops) as Hrec by (rewrite <-(ab_outcomes _ _ Ha); done).
  unfold o, expanded. rewrite Hrec in *. rewrite (ab_ready _ _ Ha), Hops in Hle, Heq.
  destruct (record_all_balanced ops) as [Hbal _]. pose proof (record_all_nonneg ops) as (? & ? & ?).
  assert (0 <= lengthZ (lg_pending l)) by (unfold lengthZ; lia).
  split_and!; try done; [lia|]. intros Hcan Hpend. rewrite (ab_cancelled _ _ Ha) in Heq. specialize (Heq Hcan).
  rewrite (ab_pending_nil c l Ha Hpend) in Heq. change (lengthZ []) with 0 in Heq. lia.
Qed.

Lemma fatal_summary_ok c failure :
  booked c → report_ok (Errored failure (Some (fatal_summary assets sessionId (cf_session c)))).
Proof.
  intros Hb. destruct (booked_counts c Hb) as (Hle & _ & ? & ? & ?). unfold report_ok, balanced.
  cbn -[expanded Z.max]. split_and!; try done; lia.
Qed.

(** *** The invariant of the body *)

Definition summary_ok (sm : UploadSummary) : Prop := report_ok (Completed sm).

(** What the body reported when it reached its [finally] clause. *)
Definition reported (m : manager) : Prop :=
  (m_reports m = [] ∧ m_cancelled m = true) ∨ ∃ r, m_reports m = [r] ∧ report_ok r.

Definition main_ok (m : manager) : Prop :=
  let c := m_config m in
  let o := TransferOutcomes.counts (s_outcomes (cf_session c)) in
  match m_main m with
  | M_setup => unstarted c
  | M_pipeline => b = true → length (cf_workers c) = CONCURRENCY
  | M_prepared_log => settled c
  | M_finishing status rep exp =>
    settled c ∧ rep = failedFiles o ∧ exp = expanded (cf_session c)
    ∧ (m_cancelled m = false → status = if 0 <? rep then status_mixed else status_completed)
  | M_recording sm _ | M_logging sm => settled c ∧ (m_cancelled m = false → summary_ok sm)
  | M_caught _ | M_caught_recording _ _ | M_caught_logging _ => True
  | M_cancelling | M_ending | M_metrics | M_done => True
  end.

Definition in_finally (pc : main_pc) : bool :=
  match pc with M_cancelling | M_ending | M_metrics | M_done => true | _ => false end.

Definition manager_ok (m : manager) : Prop :=
  m_isRunning m = negb (match m_main m with M_done => true | _ => false end)
  ∧ if in_finally (m_main m) then reported m
    else m_reports m = [] ∧ booked (m_config m) ∧ main_ok m.

Lemma finally_ok m :
  m_isRunning m = true → reported m → manager_ok (enter_finally m) .
Proof.
  intros Hr Hrep. unfold enter_finally, finally_tail. destruct (m_cancelled m) eqn:Hc; [by split|].
  unfold reported in Hrep. destruct Hrep as [[_ Hrep]|(r & Hrep & Hok)]; [by rewrite Hc in Hrep|].
  destruct (ThermalController.cancel _) as [k ids]. split; [done|]. cbn. right. by exists r.
Qed.

Lemma finally_tail_ok m : m_isRunning m = true → reported m → manager_ok (finally_tail m).
Proof.
  intros Hr Hrep. unfold finally_tail. destruct (ThermalController.cancel _) as [k ids]. split; [done|].
  cbn. destruct Hrep as [[Hrep Hc]|(r & Hrep & Hok)]; [left|right; by exists r]. split; [done|].
  unfold m_cancelled, m_session in *. cbn. rewrite <-Hc. unfold close_queue.
  destruct (BoundedAsyncQueue.close _) as [[q ks] ps]. by destruct ps.
Qed.

Lemma session_keeps_manager m o c' :
  manager_ok m → session_runs m o = true → choice_ok false (m_config m) o → exec (m_config m) o = Some c' →
  manager_ok (m <| m_config := c' |>).
Proof.
  intros [Hr Hm] Hruns Hok Hex. split; [done|]. cbn. unfold session_runs in Hruns.
  assert (in_finally (m_main m) = false) as Hfin by (by destruct (m_main m)). rewrite Hfin in *.
  destruct Hm as (Hrep & Hb & Hmain). split; [done|].
  pose proof (exec_simulates _ _ _ _ _ _ false _ _ _ (proj1 Hb) Hok Hex) as Hk.
  split; [by eapply booked_keeps|]. unfold main_ok in *. cbn.
  destruct (m_main m) as [| | |status rep exp|sm payload|sm| | | | | | |] eqn:Hpc; try done.
  - by eapply unstarted_exec.
  - intros Hst. destruct (exec_starts _ _ _ _ _ _ _ _ _ (so_linked _ _ (proj1 Hb)) Hex) as [[->| ->] _]; [by apply Hmain|done].
  - by eapply (settled_exec false).
  - destruct Hmain as (Hset & -> & -> & Hst).
    destruct (settled_exec false _ _ _ Hb Hset Hok Hex) as (_ & Hset' & Hbooks & _ & Hcan). split; [done|].
    unfold books_of in Hbooks. injection Hbooks as E1 _ _ E4. unfold expanded. rewrite E1, E4.
    split_and!; [done|done|]. intros Hc. apply Hst. by apply Hcan.
  - destruct Hmain as (Hset & Hst). destruct (settled_exec false _ _ _ Hb Hset Hok Hex) as (_ & ? & _ & _ & Hcan).
    split; [done|]. intros Hc. apply Hst. by apply Hcan.
  - destruct Hmain as (Hset & Hst). destruct (settled_exec false _ _ _ Hb Hset Hok Hex) as (_ & ? & _ & _ & Hcan).
    split; [done|]. intros Hc. apply Hst. by apply Hcan.
Qed.

Lemma prepared_logged_ok m :
  manager_ok m → m_main m = M_prepared_log → manager_ok (prepared_logged assets m).
Proof.
  intros [Hr Hm] Hpc. unfold manager_ok, main_ok in *. rewrite Hpc in *. destruct Hm as (Hrep & Hb & Hset).
  unfold prepared_logged. cbv zeta. destruct (m_cancelled m) eqn:Hc.
  - split; [done|]. cbn. split_and!; try done. unfold m_cancelled, m_session. cbn.
    unfold m_cancelled, m_session in Hc. by rewrite Hc.
  - destruct (mark_missing_settled _ Hb Hset Hc) as (Hb' & Hset' & Hc').
    split; [done|]. cbn -[on_session]. split_and!; try done. intros _. cbn -[on_session]. by rewrite Hc'.
Qed.

Lemma finishing_ok m status rep exp :
  manager_ok m → m_main m = M_finishing status rep exp →
  manager_ok (m <| m_main := M_recording (completion_summary assets sessionId (m_session m) status rep exp)
                              (history_payload (m_session m) status rep) |>).
Proof.
  intros [Hr Hm] Hpc. unfold manager_ok, main_ok in *. rewrite Hpc in *.
  destruct Hm as (Hrep & Hb & (Hset & -> & -> & Hst)). split; [done|]. cbn. split_and!; try done.
  intros Hc. specialize (Hst Hc). destruct Hset as (_ & _ & _ & Hpend). specialize (Hpend Hc).
  destruct (booked_counts _ Hb) as (_ & Heq & ? & ? & ?). specialize (Heq Hc Hpend).
  unfold summary_ok, report_ok, balanced. cbn. unfold m_session. split_and!; try done; lia.
Qed.

Lemma resumed_ok m m' : manager_ok m → resumed assets sessionId m = Some m' → manager_ok m'.
Proof.
  intros Hok Hres. unfold resumed in Hres. pose proof Hok as [Hr Hm]. unfold main_ok in Hm.
  destruct (m_main m) as [| | |status rep exp|sm payload|sm|failure|failure payload|failure| | | |] eqn:Hpc;
    try done; injection Hres as <-; cbn in Hr.
  - by apply prepared_logged_ok.
  - by apply finishing_ok.
  - destruct Hm as (Hrep & Hb & Hset & Hst). apply finally_ok; destruct (m_cancelled m) eqn:Hc; try done.
    + by left.
    + right. exists (Completed sm). cbn. rewrite Hrep. split; [done|]. by apply Hst.
  - unfold manager_ok, main_ok in *. rewrite Hpc in *. split; [cbn; by destruct (_ && _)|]. cbn.
    by destruct (_ && _).
  - destruct Hm as (Hrep & Hb & _). apply finally_ok.
    + by destruct (_ || _).
    + destruct (negb (m_cancelled m) || tf_fatal failure) eqn:Hor.
      * right. eexists. cbn. rewrite Hrep. split; [done|]. by apply fatal_summary_ok.
      * left. apply orb_false_iff in Hor as [Hc%negb_false_iff _]. by split.
  - by apply finally_tail_ok.
  - by split.
  - by split.
Qed.

Lemma manager_step_ok m m' : manager_ok m → manager_step m m' → manager_ok m'.
Proof.
  intros Hok (o & Ho & Hex). pose proof Hok as [Hr Hm]. unfold main_ok in Hm.
  destruct o as [o|answer now| | |accepted]; simpl in Hex.
  - destruct (session_runs m o) eqn:Hruns; [|done].
    destruct (exec (m_config m) o) as [c'|] eqn:He; [|done]. injection Hex as <-.
    by eapply session_keeps_manager.
  - destruct (m_main m) eqn:Hpc; try done. injection Hex as <-. destruct Hm as (Hrep & Hb & Hun).
    destruct answer as [error|[]]; (split; [done|]); cbn; [done|]. split; [done|].
    split; [by apply start_workers|]. intros Hst. unfold pipeline_start. by rewrite Hst.
  - destruct (m_main m) eqn:Hpc; try done. destruct Hm as (Hrep & Hb & Hun).
    destruct (pipeline_result assets requested isNative (m_config m)) as [result|] eqn:Hres; [|done]. injection Hex as <-.
    unfold pipeline_settled, throws. destruct result as [error|[]]; [by split| |].
    + destruct (s_fatalError (m_session m)); (split; [done|]); cbn; [done|]. split_and!; try done.
      by apply settled_result.
    + destruct (s_fatalError (m_session m)); by split.
  - by eapply resumed_ok.
  - unfold history_answered in Hex. destruct (m_main m) eqn:Hpc; try done; injection Hex as <-; by split.
Qed.

Lemma manager_run_ok policy time m : rtc manager_step (begin_transfer policy time) m → manager_ok m.
Proof.
  intros Hrun. apply (rtc_invariant _ manager_ok manager_step_ok) in Hrun; [done|].
  destruct (begin_booked policy time). by split.
Qed.

(** ** Properties *)

(** C3: every transfer ends with exactly one report, and the report adds up. However the
    pipeline, the user, the device, the failing history service and the body interleave,
    when [uploadFilesConcurrent] has returned the manager is idle again and either the user
    cancelled and nothing is reported, or exactly one of [onComplete] and [onError] was
    called, with a summary whose uploaded, skipped and failed files are exactly the files
    it claims were selected; a completed transfer is 'mixed' just when files failed, and a
    fatal one claims at least the assets the user selected. *)
Theorem one_balanced_report policy time m :
  rtc manager_step (begin_transfer policy time) m → m_main m = M_done →
  m_isRunning m = false
  ∧ ((m_reports m = [] ∧ m_cancelled m = true) ∨ ∃ r, m_reports m = [r] ∧ report_ok r).
Proof.
  intros Hrun Hpc. destruct (manager_run_ok policy time m Hrun) as [Hr Hm]. rewrite Hpc in *. by split.
Qed.

(** Steps of the body left until it returns, at most, once the pipeline settled. *)
Definition body_rank (pc : main_pc) : nat :=
  match pc with
  | M_setup | M_pipeline => 9
  | M_prepared_log => 8
  | M_finishing _ _ _ => 7
  | M_recording _ _ | M_caught _ => 6
  | M_logging _ | M_caught_recording _ _ => 5
  | M_caught_logging _ => 4
  | M_cancelling => 3
  | M_ending => 2
  | M_metrics => 1
  | M_done => 0
  end.

Lemma enter_finally_rank m : (body_rank (m_main (enter_finally m)) <= 3)%nat.
Proof.
  unfold enter_finally, finally_tail. destruct (m_cancelled m); [cbn; lia|].
  destruct (ThermalController.cancel _). cbn. lia.
Qed.

(** A turn of the body, which is not a move of the session's functions. *)
Definition body_turn (o : manager_choice) : Prop := match o with MSession _ => False | _ => True end.

(** A run in which the body takes [n] turns, among any moves of the session's functions. *)
Inductive body_run : nat → manager → manager → Prop :=
  | body_here m : body_run 0 m m
  | body_session n m o m1 m' :
      manager_choice_ok m o → ¬ body_turn o → m_exec m o = Some m1 → body_run n m1 m' → body_run n m m'
  | body_next n m o m1 m' :
      manager_choice_ok m o → body_turn o → m_exec m o = Some m1 → body_run n m1 m' → body_run (S n) m m'.

Lemma body_run_steps n m m' : body_run n m m' → rtc manager_step m m'.
Proof. induction 1; [done|eapply rtc_l; [by exists o|done]..]. Qed.

Definition past_pipeline (pc : main_pc) : bool := match pc with M_setup | M_pipeline => false | _ => true end.

Lemma session_move_main m o m' : ¬ body_turn o → m_exec m o = Some m' → m_main m' = m_main m.
Proof.
  intros Ho. destruct o as [o| | | |]; try by destruct Ho. simpl.
  destruct (session_runs m o); [|done]. destruct (exec (m_config m) o); [|done]. by intros [= <-].
Qed.

(** Every turn brings the body closer to its end. *)
Lemma body_turn_rank m o m' :
  past_pipeline (m_main m) = true → body_turn o → m_exec m o = Some m' →
  (body_rank (m_main m') < body_rank (m_main m))%nat ∧ past_pipeline (m_main m') = true.
Proof.
  assert (∀ m0, past_pipeline (m_main (enter_finally m0)) = true) as Hf.
  { intros m0. unfold enter_finally, finally_tail. destruct (m_cancelled m0); [done|]. by destruct (ThermalController.cancel _). }
  intros Hpast Ho Hex. destruct o; simpl in Hex; try done; try (by destruct (m_main m)).
  - unfold resumed in Hex. destruct (m_main m); try done; injection Hex as <-; try (by cbn; split; [lia|]).
    + split; [|apply Hf]. pose proof (enter_finally_rank (if m_cancelled m then m else report_as (Completed summary) m)). cbn in *. lia.
    + cbn. destruct (_ && _); cbn; by split; [lia|].
    + split; [|apply Hf]. match goal with |- context [enter_finally ?x] => pose proof (enter_finally_rank x) end. cbn [body_rank]. lia.
  - unfold history_answered in Hex. destruct (m_main m); try done; injection Hex as <-; cbn; by split; [lia|].
Qed.

Lemma body_run_rank n m m' :
  past_pipeline (m_main m) = true → body_run n m m' →
  (n + body_rank (m_main m') <= body_rank (m_main m))%nat ∧ past_pipeline (m_main m') = true.
Proof.
  intros Hpast Hrun. induction Hrun as [m|n m o m1 m' _ Ho Hex _ IH|n m o m1 m' _ Ho Hex _ IH]; [by split; [lia|]|..].
  - rewrite <-(session_move_main m o m1 Ho Hex) in *. by apply IH.
  - destruct (body_turn_rank m o m1 Hpast Ho Hex) as [H1 H2]. destruct (IH H2). split; [lia|done].
Qed.

(** The body past its pipeline can always go on, and so reaches its end. *)
Lemma body_can_end m : past_pipeline (m_main m) = true → ∃ k m', body_run k m m' ∧ m_main m' = M_done.
Proof.
  remember (body_rank (m_main m)) as r eqn:Hr. revert m Hr.
  induction r as [r IH] using (well_founded_induction Nat.lt_wf_0). intros m -> Hpast.
  assert (m_main m = M_done ∨ ∃ o m1, manager_choice_ok m o ∧ body_turn o ∧ m_exec m o = Some m1)
    as [Hd|(o & m1 & Hok & Ho & Hex)].
  { destruct (m_main m) eqn:Hm; try done; try (by left); right;
      first [exists MResumed; simpl; unfold resumed; rewrite Hm; by eexists
            |exists (MHistoryAnswered true); simpl; unfold history_answered; rewrite Hm; by eexists]. }
  - exists 0%nat, m. split; [apply body_here|done].
  - destruct (body_turn_rank m o m1 Hpast Ho Hex) as [Hlt Hpast1].
    destruct (IH _ Hlt m1 eq_refl Hpast1) as (k & m' & Hrun & Hd). exists (S k), m'. split; [by eapply body_next|done].
Qed.

(** The session of a manager stays in order up to the end of its pipeline. *)
Definition manager_orderly (m : manager) : Prop := past_pipeline (m_main m) = false → orderly b (m_config m).

Lemma manager_step_orderly m m' : manager_ok m → manager_orderly m → manager_step m m' → manager_orderly m'.
Proof.
  intros [_ Hok] Ho (o & Hc & Hex) Hpast. unfold manager_orderly in Ho.
  assert (past_pipeline (m_main m) = false) as Hm.
  { destruct (past_pipeline (m_main m)) eqn:Hm; [|done]. rewrite <-Hpast.
    destruct o as [o| | | |]; [|symmetry; eapply body_turn_rank; [exact Hm| |exact Hex]; done..].
    by rewrite (session_move_main m (MSession o) m' (λ x, x) Hex). }
  specialize (Ho Hm).
  assert (in_finally (m_main m) = false) as Hfin by (by destruct (m_main m)). rewrite Hfin in Hok.
  destruct Hok as (_ & [Hs _] & _). destruct o as [o|[error|[]] now| | |accepted]; simpl in Hex.
  - destruct (session_runs m o); [|done]. destruct (exec (m_config m) o) as [c'|] eqn:He; [|done].
    injection Hex as <-. by eapply exec_orderly.
  - destruct (m_main m); try done. by injection Hex as <-.
  - destruct (m_main m); try done. injection Hex as <-. cbn. destruct Ho as [Hf _ _].
    unfold pipeline_start. cbv zeta. by destruct b; split.
  - destruct (m_main m) eqn:Hpc; try done. destruct (pipeline_result _ _ _ _) as [result|]; [|done]. injection Hex as <-.
    unfold pipeline_settled, throws in Hpast. by repeat (case_match; simpl in Hpast).
  - unfold resumed in Hex. by destruct (m_main m).
  - unfold history_answered in Hex. by destruct (m_main m).
Qed.

Lemma manager_run_orderly policy time m : rtc manager_step (begin_transfer policy time) m → manager_orderly m.
Proof.
  intros Hrun. assert (manager_ok m ∧ manager_orderly m) as [_ ?]; [|done].
  refine (rtc_invariant _ (λ m, manager_ok m ∧ manager_orderly m) _ _ _ Hrun _).
  - intros m1 m2 [H1 H2] Hs. split; [by eapply manager_step_ok|by eapply manager_step_orderly].
  - split; [by apply (manager_run_ok policy time)|]. intros _. split; try done; [by intros []|].
    cbn. by destruct b.
Qed.

(** C7: the manager is never left busy. While a transfer runs a second one is refused. Its
    pipeline is never stuck: until it settles one of its functions can run, or it waits for
    the preparation, the desktop, an upload or, for its second worker, a cooler device. Once
    the pipeline settled or the preparation threw, the body takes at most eight more turns
    whatever the awaited calls answer (the history service may fail twice) and whatever the
    session's functions still do, at every moment it can go on to its end, and when it is
    there the manager accepts the next transfer. *)
Theorem manager_is_released policy time m :
  rtc manager_step (begin_transfer policy time) m →
  (m_main m ≠ M_done → ∀ policy' time',
     uploadFilesConcurrent assets requested isNative (m_isRunning m) policy' time' = inl (ThrownOther already_running))
  ∧ (m_main m = M_pipeline →
       is_Some (m_exec m MPipelineSettled)
       ∨ can_run assets requested skipExactDuplicates isNative sessionId show (m_config m) ∨ awaits (m_config m))
  ∧ (m_main m ≠ M_setup → m_main m ≠ M_pipeline → ∀ n m', body_run n m m' →
       (n <= 8)%nat
       ∧ (∃ k m'', body_run k m' m'' ∧ m_main m'' = M_done)
       ∧ (m_main m' = M_done → ∀ policy' time',
            uploadFilesConcurrent assets requested isNative (m_isRunning m') policy' time' = inr (begin_transfer policy' time'))).
Proof.
  intros Hrun. pose proof (manager_run_ok policy time m Hrun) as [Hr Hm]. split_and!.
  - intros Hd policy' time'. rewrite Hr. by destruct (m_main m).
  - intros Hpc. unfold main_ok in Hm. rewrite Hpc in Hm. destruct Hm as (_ & [Hs _] & Hlen). simpl. rewrite Hpc.
    destruct (pipeline_result assets requested isNative (m_config m)) as [result|] eqn:Hres; [left; by eexists|right].
    apply orderly_progress; try done. apply (manager_run_orderly policy time m Hrun). by rewrite Hpc.
  - intros H1 H2 n m' Hn. assert (past_pipeline (m_main m) = true) as Hpast by (by destruct (m_main m)).
    destruct (body_run_rank n m m' Hpast Hn) as [Hle Hpast']. split_and!.
    + assert (body_rank (m_main m) <= 8)%nat by (destruct (m_main m); cbn; done || lia). lia.
    + by apply body_can_end.
    + intros Hd policy' time'.
      assert (manager_ok m') as [Hr' _] by (apply (manager_run_ok policy time); etrans; [done|by eapply body_run_steps]).
      rewrite Hr', Hd. done.
Qed.

(** C26: a cancellation that finds the ready queue full is reported as a fatal error. When
    the streaming producer waits for capacity and the user cancels, closing the queue makes
    the pending push throw, the producer's [catch] clause takes that for an unexpected
    failure of the preflight and stores it as the fatal error, replacing whatever error was
    stored before; the body then throws it, and calls [onError] with a fatal summary although
    the user asked for the cancellation. *)
Theorem cancel_while_queue_full_is_fatal full policy time c start w file rest now :
  rtc (session_step assets requested skipExactDuplicates isNative sessionId show full)
    (pipeline_start assets requested isNative (new_session assets requested isNative policy time) time) c →
  cf_producer c = P_waiting start w file rest →
  let failure := fatal_failure stage_preflight unexpected in
  ∃ c1 c2, exec c UserCancels = Some c1 ∧ exec c1 (RunProducer now) = Some c2
    ∧ cf_producer c2 = P_returned false
    ∧ s_fatalError (cf_session c2) = Some (ThrownTransferFailure failure)
    ∧ ∀ m preparedAll, m_session m = cf_session c2 →
        m_main (pipeline_settled (inr preparedAll) m) = M_caught failure
        ∧ resumed assets sessionId (m <| m_main := M_caught_logging failure |>)
          = Some (enter_finally (report_as (Errored failure (Some (fatal_summary assets sessionId (m_session m))))
                                   (m <| m_main := M_caught_logging failure |>))).
Proof.
  intros Hrun Hp failure. destruct (session_books _ _ _ _ _ _ full policy time c Hrun) as [Hs _].
  assert (cf_producer (cancel c) = P_woken start w file rest
    ∧ BoundedAsyncQueue.closed (s_queue (cf_session (cancel c))) = true) as [Hp' Hclosed].
  { rewrite (cancel_spec c (so_linked _ _ Hs)). cbn. by rewrite Hp. }
  exists (cancel c), (producer_push assets requested isNative start w true file rest (cancel c)).
  split; [done|]. split.
  { change (run_producer assets requested isNative sessionId show now (cancel c)
      = Some (producer_push assets requested isNative start w true file rest (cancel c))).
    unfold run_producer. by rewrite Hp'. }
  unfold producer_push. destruct (run_push_cases (capacity_wait assets requested isNative file) true file (cancel c)
    (linked_cancel c (so_linked _ _ Hs))) as (c1 & calls & r & Hpush & ->).
  destruct Hpush; try (cbn in *; congruence). cbv iota beta. set (c2 := on_session _ (cancel c)).
  assert (s_fatalError (cf_session (producer_catch queue_closed c2)) = Some (ThrownTransferFailure failure)) as Hfatal.
  { unfold producer_catch. cbv zeta. set (c3 := on_session _ c2).
    assert (linked c3) as Hl3.
    { unfold c3. apply linked_session; [|done..]. pose proof (linked_cancel c (so_linked _ _ Hs)) as Hlc.
      destruct (foldl_frame (capacity_wait assets requested isNative file) calls (cf_session (cancel c))
        (capacity_wait_frame assets requested isNative file)) as (Hc & _ & _).
      injection Hc as E1 _ E3 E4 _. by apply linked_session. }
    rewrite (cancel_spec c3 Hl3). done. }
  split; [done|]. split; [exact Hfatal|]. intros m preparedAll Hm. split.
  - unfold pipeline_settled. by rewrite Hm, Hfatal.
  - unfold resumed. cbn -[enter_finally fatal_summary]. by rewrite orb_true_r.
Qed.
End proofs.

(** ** Concrete transfers *)

Notation sample_exec := (m_exec sample_transfer streaming true true "s" sample_name).

Fixpoint run_manager (m : manager) (os : list manager_choice) : option manager :=
  match os with
  | [] => Some m
  | o :: os =>
    if decide (manager_choice_ok m o) then m' ← sample_exec m o; run_manager m' os else None
  end.

Lemma run_manager_steps os m m' :
  run_manager m os = Some m' → rtc (manager_step sample_transfer streaming true true "s" sample_name) m m'.
Proof.
  revert m. induction os as [|o os IH]; intros m; simpl; [intros [= ->]; by apply rtc_refl|].
  case_decide as Ho; [|done]. destruct (sample_exec m o) as [m1|] eqn:He; [|done]. intros Hr.
  eapply rtc_l; [by exists o|by apply IH].
Qed.

Definition sample_manager : manager := begin_transfer sample_transfer streaming true monitor_only 0.
Definition sample_body : list manager_choice :=
  [MSetupAnswered (inr ()) 0] ++ (MSession <$> sample_choices)
  ++ [MPipelineSettled; MResumed; MResumed; MHistoryAnswered false; MResumed; MResumed; MResumed].
Definition sample_done : manager := default sample_manager (run_manager sample_manager sample_body).

Lemma sample_done_reached :
  rtc (manager_step sample_transfer streaming true true "s" sample_name) sample_manager sample_done.
Proof.
  unfold sample_done. destruct (run_manager sample_manager sample_body) as [m|] eqn:Hm; [|apply rtc_refl].
  by eapply run_manager_steps.
Qed.

(** One file uploaded, one skipped; the history service failed once. *)
Lemma one_balanced_report_witness :
  m_isRunning sample_done = false
  ∧ ((m_reports sample_done = [] ∧ m_cancelled sample_done = true)
     ∨ ∃ r, m_reports sample_done = [r] ∧ report_ok sample_transfer r).
Proof.
  refine (one_balanced_report sample_transfer streaming true true "s" sample_name monitor_only 0
            sample_done sample_done_reached _). vm_compute. reflexivity.
Defined.

Example sample_done_report :
  match m_reports sample_done, m_histories sample_done with
  | [Completed sm], [h1; h2] =>
    (sm_uploadedFiles sm, sm_skippedFiles sm, sm_failedFiles sm, sm_selectedFiles sm) = (1, 1, 0, 2)
    ∧ sm_completionStatus sm = status_completed ∧ length (th_files h1) = 1%nat ∧ th_files h2 = []
  | _, _ => False
  end.
Proof. vm_compute. done. Qed.

(** The manager when its pipeline has settled, and when its body has returned. *)
Definition settled_at : nat := length sample_choices + 2.
Definition sample_settled : manager := default sample_manager (run_manager sample_manager (take settled_at sample_body)).

Lemma manager_is_released_witness :
  m_main sample_settled = M_prepared_log
  ∧ ∃ m', body_run sample_transfer streaming true true "s" sample_name 0 sample_settled sample_settled
    ∧ (∃ k m'', body_run sample_transfer streaming true true "s" sample_name k m' m'' ∧ m_main m'' = M_done).
Proof.
  assert (m_main sample_settled = M_prepared_log) as Hpc by (vm_compute; reflexivity). split; [exact Hpc|].
  assert (rtc (manager_step sample_transfer streaming true true "s" sample_name) sample_manager sample_settled) as Hrun.
  { unfold sample_settled. destruct (run_manager sample_manager (take settled_at sample_body)) as [m'|] eqn:Hm; [|apply rtc_refl].
    by eapply run_manager_steps. }
  exists sample_settled. split; [apply body_here|].
  destruct (manager_is_released sample_transfer streaming true true "s" sample_name monitor_only 0 sample_settled Hrun)
    as (_ & _ & H).
  destruct (H ltac:(by rewrite Hpc) ltac:(by rewrite Hpc) 0%nat sample_settled (body_here _ _ _ _ _ _ _)) as (_ & H1 & _). exact H1.
Defined.

(** Three files for a queue of two. *)
Definition full_queue_choices : list choice :=
  [ RunProducer 0;
    WindowPrepared (inr (Some
      {| pw_windowIndex := 0; pw_files := sample_window ++ [sample_file "v3" "C.HEIC"]; pw_failures := [];
         pw_filenameResolutionAppleCount := 3; pw_discoveredBytes := 30; pw_selectedMediaBytes := 30;
         pw_additionalComponentsBytes := 0; pw_selectedMediaFiles := 3; pw_additionalComponentsFiles := 0 |}));
    WindowChecked sample_services; RunProducer 1; RunProducer 1; RunProducer 1; RunProducer 1;
    RunProducer 2; RunProducer 2; RunProducer 2 ].

Lemma full_queue_reached :
  rtc (session_step sample_transfer streaming true true "s" sample_name true) sample_start (sample_run full_queue_choices).
Proof.
  unfold sample_run.
  destruct (run_session sample_transfer streaming true true "s" sample_name true sample_start full_queue_choices)
    as [c|] eqn:Hc; [|apply rtc_refl].
  by eapply run_session_steps.
Qed.

Lemma cancel_while_queue_full_is_fatal_witness :
  ∃ start w file rest c1 c2,
    cf_producer (sample_run full_queue_choices) = P_waiting start w file rest
    ∧ exec sample_transfer streaming true true "s" sample_name (sample_run full_queue_choices) UserCancels = Some c1
    ∧ exec sample_transfer streaming true true "s" sample_name c1 (RunProducer 3) = Some c2
    ∧ s_fatalError (cf_session c2) = Some (ThrownTransferFailure (fatal_failure stage_preflight unexpected)).
Proof.
  assert (∃ start w file rest, cf_producer (sample_run full_queue_choices) = P_waiting start w file rest)
    as (start & w & file & rest & Hp) by (vm_compute; by eexists _, _, _, _).
  destruct (cancel_while_queue_full_is_fatal sample_transfer streaming true true "s" sample_name true monitor_only 0
    (sample_run full_queue_choices) start w file rest 3 full_queue_reached Hp) as (c1 & c2 & H1 & H2 & _ & H3 & _).
  exists start, w, file, rest, c1, c2. exact (conj Hp (conj H1 (conj H2 H3))).
Defined.
