(* ===== verification/Diagnostics.v ===== *)
(** * Transfer diagnostics ([services/diagnostics/TransferDiagnostics.ts], [DiagnosticAggregation.ts])

    The report of one transfer: windows are begun, checkpointed when they are prepared and
    marked when they are queued, and the totals are kept up to date incrementally; one
    asynchronous writer at a time stores snapshots of it. *)

From S2P Require Import Prelude Js UploadTypes Accounting Throughput Control Preflight.

Module Diagnostics.

(** ** The data of a report ([DiagnosticTypes.ts]) *)

(** The fields of [DuplicatePreflightMetrics]: those the preflight counts and its durations. *)
(* src: services/upload/types.ts:83-118 [DuplicatePreflightMetrics] *)
Inductive preflight_key :=
  | Counter (m : metric)
  | metadataDurationMs | hashingDurationMs | verificationDurationMs | candidateResolutionDurationMs.

#[global] Instance preflight_key_eq_dec : EqDecision preflight_key.
Proof. solve_decision. Defined.

Definition preflight_metrics := preflight_key → Z.
(* src: services/diagnostics/DiagnosticAggregation.ts:41-78 [emptyPreflightMetrics] *)
Definition emptyPreflightMetrics : preflight_metrics := λ _, 0.

(* src: services/diagnostics/DiagnosticTypes.ts:47-53 [DiagnosticWindowPreflight] *)
Record WindowPreflight := {
  wp_metrics : preflight_metrics;
  wp_allUploadWorkersIdleMs : Z;
  wp_queueDepthAtStart : Z;
  wp_queueDepthAtEnd : Z;
  wp_activeUploadWorkersAtStart : Z;
  wp_activeUploadWorkersAtEnd : Z }.

Definition emptyWindowPreflight : WindowPreflight :=
  {| wp_metrics := emptyPreflightMetrics; wp_allUploadWorkersIdleMs := 0; wp_queueDepthAtStart := 0;
     wp_queueDepthAtEnd := 0; wp_activeUploadWorkersAtStart := 0; wp_activeUploadWorkersAtEnd := 0 |}.

(* src: services/diagnostics/DiagnosticTypes.ts:55-65 [DiagnosticPreflightSummary] *)
Record PreflightSummary := {
  ps_metrics : preflight_metrics;
  ps_windowCount : Z;
  ps_totalWindowDurationMs : Z;
  ps_maxWindowDurationMs : Z;
  ps_windowsWithHashing : Z;
  ps_windowsWithBlockedNonCandidates : Z;
  ps_windowsWithAllUploadWorkersIdle : Z;
  ps_allUploadWorkersIdleMs : Z;
  ps_maxPreparedBytesHeld : Z;
  ps_maxTemporaryBytesHeld : Z }.

(* src: services/diagnostics/DiagnosticAggregation.ts:80-93 [emptyPreflightSummary] *)
Definition emptyPreflightSummary : PreflightSummary :=
  {| ps_metrics := emptyPreflightMetrics; ps_windowCount := 0; ps_totalWindowDurationMs := 0;
     ps_maxWindowDurationMs := 0; ps_windowsWithHashing := 0; ps_windowsWithBlockedNonCandidates := 0;
     ps_windowsWithAllUploadWorkersIdle := 0; ps_allUploadWorkersIdleMs := 0;
     ps_maxPreparedBytesHeld := 0; ps_maxTemporaryBytesHeld := 0 |}.

(* src: services/diagnostics/DiagnosticTypes.ts:67-75 [DiagnosticUploadTiming] *)
Record UploadTiming := {
  ut_measuredFiles : Z;
  ut_fileReadDurationMs : Z;
  ut_httpRequestDurationMs : Z;
  ut_interChunkGapDurationMs : Z;
  ut_serverWriteDurationMs : Z;
  ut_serverFinalizeDurationMs : Z;
  ut_maxServerFinalizeDurationMs : Z }.

(* src: services/diagnostics/DiagnosticAggregation.ts:95-105 [emptyUploadTiming] *)
Definition emptyUploadTiming : UploadTiming :=
  {| ut_measuredFiles := 0; ut_fileReadDurationMs := 0; ut_httpRequestDurationMs := 0;
     ut_interChunkGapDurationMs := 0; ut_serverWriteDurationMs := 0; ut_serverFinalizeDurationMs := 0;
     ut_maxServerFinalizeDurationMs := 0 |}.

(** What the native module measured of one upload. *)
Record native_timing := {
  nt_fileRead : Z; nt_httpRequest : Z; nt_interChunkGap : Z; nt_serverWrite : Z; nt_serverFinalize : Z }.

(* src: services/diagnostics/DiagnosticAggregation.ts:311-325 [addUploadTiming] *)
Definition addUploadTiming (target : UploadTiming) (t : native_timing) : UploadTiming :=
  {| ut_measuredFiles := ut_measuredFiles target + 1;
     ut_fileReadDurationMs := ut_fileReadDurationMs target + nt_fileRead t;
     ut_httpRequestDurationMs := ut_httpRequestDurationMs target + nt_httpRequest t;
     ut_interChunkGapDurationMs := ut_interChunkGapDurationMs target + nt_interChunkGap t;
     ut_serverWriteDurationMs := ut_serverWriteDurationMs target + nt_serverWrite t;
     ut_serverFinalizeDurationMs := ut_serverFinalizeDurationMs target + nt_serverFinalize t;
     ut_maxServerFinalizeDurationMs := Z.max (ut_maxServerFinalizeDurationMs target) (nt_serverFinalize t) |}.

Inductive WindowStatus := window_preparing | window_ready | window_enqueued.

(** The counted fields of a window; the report has a total of each but [failedCount]. *)
Inductive window_count :=
  | failedCount | preparedCount | selectedCount | discoveredBytes | selectedMediaBytes
  | additionalComponentsBytes | selectedMediaFiles | additionalComponentsFiles | plannedUploadBytes
  | preflightSkippedFiles | preflightSkippedBytes | appleFilenameCount | fallbackFilenameCount.

#[global] Instance window_count_eq_dec : EqDecision window_count.
Proof. solve_decision. Defined.

(* src: services/diagnostics/DiagnosticTypes.ts:18-45 [DiagnosticWindow] *)
Record Window := {
  w_windowIndex : Z;
  w_status : WindowStatus;
  w_counts : window_count → Z;
  w_startedElapsedMs : Z;
  w_readyElapsedMs : option Z;
  w_enqueueCompletedElapsedMs : option Z;
  w_uploadCapacityWaitDurationMs : Z;
  w_uploadCapacityWaitCount : Z;
  w_preparationDurationMs : Z;
  w_filenameDurationMs : Z;
  w_preflightDurationMs : Z;
  w_preflight : option WindowPreflight;
  w_firstUploadStartedElapsedMs : option Z;
  w_uploadTiming : option UploadTiming }.

#[export] Instance eta_Window : Eta Window := λ w,
  {| w_windowIndex := w_windowIndex w; w_status := w_status w; w_counts := w_counts w;
     w_startedElapsedMs := w_startedElapsedMs w; w_readyElapsedMs := w_readyElapsedMs w;
     w_enqueueCompletedElapsedMs := w_enqueueCompletedElapsedMs w;
     w_uploadCapacityWaitDurationMs := w_uploadCapacityWaitDurationMs w;
     w_uploadCapacityWaitCount := w_uploadCapacityWaitCount w;
     w_preparationDurationMs := w_preparationDurationMs w; w_filenameDurationMs := w_filenameDurationMs w;
     w_preflightDurationMs := w_preflightDurationMs w; w_preflight := w_preflight w;
     w_firstUploadStartedElapsedMs := w_firstUploadStartedElapsedMs w; w_uploadTiming := w_uploadTiming w |}.

(* src: services/diagnostics/DiagnosticTypes.ts:97-108 [DiagnosticMaterializationSummary] *)
Record MaterializationSummary := {
  ms_path : MediaMaterializationPath;
  ms_preparedFiles : Z;
  ms_temporaryFiles : Z;
  ms_temporaryBytesWritten : Z;
  ms_totalMaterializationDurationMs : Z;
  ms_maxMaterializationDurationMs : Z;
  ms_maxTemporaryFileBytes : Z;
  ms_releasedFiles : Z;
  ms_totalTemporaryLifetimeMs : Z;
  ms_maxTemporaryLifetimeMs : Z }.

#[export] Instance eta_MaterializationSummary : Eta MaterializationSummary := λ m,
  {| ms_path := ms_path m; ms_preparedFiles := ms_preparedFiles m; ms_temporaryFiles := ms_temporaryFiles m;
     ms_temporaryBytesWritten := ms_temporaryBytesWritten m;
     ms_totalMaterializationDurationMs := ms_totalMaterializationDurationMs m;
     ms_maxMaterializationDurationMs := ms_maxMaterializationDurationMs m;
     ms_maxTemporaryFileBytes := ms_maxTemporaryFileBytes m; ms_releasedFiles := ms_releasedFiles m;
     ms_totalTemporaryLifetimeMs := ms_totalTemporaryLifetimeMs m;
     ms_maxTemporaryLifetimeMs := ms_maxTemporaryLifetimeMs m |}.

(* src: services/diagnostics/DiagnosticAggregation.ts:14-22 [MATERIALIZATION_PATHS] *)
Definition MATERIALIZATION_PATHS : list MediaMaterializationPath :=
  [photo_resource; video_resource; raw_resource; live_photo_motion_path; current_image; current_video; expo_direct].

(* src: services/diagnostics/DiagnosticAggregation.ts:24-39 [emptyMaterializationSummary] *)
Definition emptyMaterializationSummary (path : MediaMaterializationPath) : MaterializationSummary :=
  {| ms_path := path; ms_preparedFiles := 0; ms_temporaryFiles := 0; ms_temporaryBytesWritten := 0;
     ms_totalMaterializationDurationMs := 0; ms_maxMaterializationDurationMs := 0;
     ms_maxTemporaryFileBytes := 0; ms_releasedFiles := 0; ms_totalTemporaryLifetimeMs := 0;
     ms_maxTemporaryLifetimeMs := 0 |}.

(* src: services/diagnostics/DiagnosticTypes.ts:5-10 [DiagnosticFailure] *)
Record Failure := {
  df_fileRef : Z; df_stage : TransferStage; df_code : TransferErrorCode; df_retryCount : Z }.

(* src: services/diagnostics/DiagnosticTypes.ts:12-16 [DiagnosticFailureCount] *)
Record FailureCount := { fc_stage : TransferStage; fc_code : TransferErrorCode; fc_count : Z }.

(** The other numbers of a report. *)
Inductive report_count :=
  | total_of (k : window_count)   (** [preparedFiles], [preparedAssets], [discoveredBytes], ... *)
  | expandedFiles | uploadedFiles | skippedFiles | failedFiles | acknowledgedBytes | skippedBytes
  | serverSkippedFiles | serverSkippedBytes | retryCount | queueMaxDepth
  | uploadCapacityWaitDurationMs | uploadCapacityWaitCount | maxUploadCapacityWaitDurationMs
  | maxActiveUploadWorkers | peakNativeResidentMemoryBytes.

#[global] Instance report_count_eq_dec : EqDecision report_count.
Proof. solve_decision. Defined.

Inductive ReportStatus := report_running | report_completed | report_mixed | report_cancelled | report_fatal.

(** Constant fields (versions, environment, modes) are left out. *)
(* src: services/diagnostics/DiagnosticTypes.ts:110-171 [TransferDiagnosticReport] *)
Record Report := {
  r_startedAt : Z;
  r_updatedAt : Z;
  r_completedAt : option Z;
  r_sessionDurationMs : option Z;
  r_firstUploadStartedElapsedMs : option Z;
  r_firstAcknowledgementElapsedMs : option Z;
  r_preparationCompletedElapsedMs : option Z;
  r_uploadPhaseDurationMs : option Z;
  r_completionStatus : ReportStatus;
  r_counts : report_count → Z;
  r_preflight : PreflightSummary;
  r_uploadTiming : UploadTiming;
  r_materialization : list MaterializationSummary;
  r_windows : list Window;
  r_failures : list Failure;
  r_failureCounts : list FailureCount;
  r_omittedFailureDetails : Z;
  r_thermalTransitions : list (ThermalState * Z) }.

#[export] Instance eta_Report : Eta Report := λ r,
  {| r_startedAt := r_startedAt r; r_updatedAt := r_updatedAt r; r_completedAt := r_completedAt r;
     r_sessionDurationMs := r_sessionDurationMs r;
     r_firstUploadStartedElapsedMs := r_firstUploadStartedElapsedMs r;
     r_firstAcknowledgementElapsedMs := r_firstAcknowledgementElapsedMs r;
     r_preparationCompletedElapsedMs := r_preparationCompletedElapsedMs r;
     r_uploadPhaseDurationMs := r_uploadPhaseDurationMs r; r_completionStatus := r_completionStatus r;
     r_counts := r_counts r; r_preflight := r_preflight r; r_uploadTiming := r_uploadTiming r;
     r_materialization := r_materialization r; r_windows := r_windows r; r_failures := r_failures r;
     r_failureCounts := r_failureCounts r; r_omittedFailureDetails := r_omittedFailureDetails r;
     r_thermalTransitions := r_thermalTransitions r |}.

(** ** [accumulatePreflightSummary] *)

(** The keys that are not summed but maximised. *)
Definition maximised (k : preflight_key) : bool :=
  match k with Counter longestHashDurationMs | Counter largestHashedFileBytes => true | _ => false end.

Definition hashing (p : WindowPreflight) : Z := if 0 <? wp_metrics p (Counter hashedFiles) then 1 else 0.
Definition blocked (p : WindowPreflight) : bool := 0 <? wp_metrics p (Counter nonCandidateFilesBlockedByHash).
Definition Number (b : bool) : Z := if b then 1 else 0.
Definition idle_blocked (p : WindowPreflight) : bool := blocked p && (0 <? wp_allUploadWorkersIdleMs p).

(* src: services/diagnostics/DiagnosticAggregation.ts:220-309 [accumulatePreflightSummary] *)
Definition accumulatePreflightSummary (summary : PreflightSummary) (current : WindowPreflight)
    (durationMs : Z) (previous : option WindowPreflight) (previousDurationMs : Z) : PreflightSummary :=
  let before := default emptyWindowPreflight previous in
  {| ps_metrics := λ k,
       if maximised k then Z.max (ps_metrics summary k) (wp_metrics current k)
       else ps_metrics summary k + (wp_metrics current k - wp_metrics before k);
     ps_windowCount := match previous with None => ps_windowCount summary + 1 | Some _ => ps_windowCount summary end;
     ps_totalWindowDurationMs := ps_totalWindowDurationMs summary + (durationMs - previousDurationMs);
     ps_maxWindowDurationMs := Z.max (ps_maxWindowDurationMs summary) durationMs;
     ps_windowsWithHashing := ps_windowsWithHashing summary + (hashing current - hashing before);
     ps_windowsWithBlockedNonCandidates :=
       ps_windowsWithBlockedNonCandidates summary + (Number (blocked current) - Number (blocked before));
     ps_windowsWithAllUploadWorkersIdle :=
       ps_windowsWithAllUploadWorkersIdle summary + (Number (idle_blocked current) - Number (idle_blocked before));
     ps_allUploadWorkersIdleMs :=
       ps_allUploadWorkersIdleMs summary + (wp_allUploadWorkersIdleMs current - wp_allUploadWorkersIdleMs before);
     ps_maxPreparedBytesHeld :=
       Z.max (ps_maxPreparedBytesHeld summary) (wp_metrics current (Counter preparedBytesHeldDuringPreflight));
     ps_maxTemporaryBytesHeld :=
       Z.max (ps_maxTemporaryBytesHeld summary) (wp_metrics current (Counter temporaryBytesHeldDuringPreflight)) |}.

(** ** The collector and its writer *)

(** The [catch] clause of the writer runs with its [finally] clause here. [queueWrite] appends to [writeChain] a writer that loops until everything is persisted:
    scheduled, or waiting for the file system to store a snapshot. *)
Inductive writer_pc :=
  | Writer_idle
  | Writer_scheduled
  | Writer_storing (targetRevision : Z) (snapshot : Report).

(** [d_stored]: what the file system holds. *)
(* src: services/diagnostics/TransferDiagnostics.ts:26-33 [TransferDiagnostics] *)
Record t := {
  d_report : Report;
  d_windowIndexById : gmap Z nat;
  d_revision : Z;
  d_persistedRevision : Z;
  d_writeScheduled : bool;
  d_hasPersistedReport : bool;
  d_writer : writer_pc;
  d_stored : option Report }.

#[export] Instance eta_t : Eta t := λ d,
  {| d_report := d_report d; d_windowIndexById := d_windowIndexById d; d_revision := d_revision d;
     d_persistedRevision := d_persistedRevision d; d_writeScheduled := d_writeScheduled d;
     d_hasPersistedReport := d_hasPersistedReport d; d_writer := d_writer d; d_stored := d_stored d |}.

(* src: services/diagnostics/TransferDiagnostics.ts:34-99 [constructor] *)
Definition new (now : Z) (selectedAssets : Z) : t :=
  {| d_report :=
       {| r_startedAt := now; r_updatedAt := now; r_completedAt := None; r_sessionDurationMs := None;
          r_firstUploadStartedElapsedMs := None; r_firstAcknowledgementElapsedMs := None;
          r_preparationCompletedElapsedMs := None; r_uploadPhaseDurationMs := None;
          r_completionStatus := report_running; r_counts := λ _, 0; r_preflight := emptyPreflightSummary;
          r_uploadTiming := emptyUploadTiming;
          r_materialization := emptyMaterializationSummary <$> MATERIALIZATION_PATHS; r_windows := [];
          r_failures := []; r_failureCounts := []; r_omittedFailureDetails := 0; r_thermalTransitions := [] |};
     d_windowIndexById := ∅; d_revision := 0; d_persistedRevision := 0; d_writeScheduled := false;
     d_hasPersistedReport := false; d_writer := Writer_idle; d_stored := None |}.

Definition on_report (f : Report → Report) (d : t) : t := d <| d_report := f (d_report d) |>.

Definition set_count (k : report_count) (v : Z) (r : Report) : Report :=
  r <| r_counts := λ k', if decide (k' = k) then v else r_counts r k' |>.
Definition add_count (k : report_count) (v : Z) (r : Report) : Report := set_count k (r_counts r k + v) r.
Definition max_count (k : report_count) (v : Z) (r : Report) : Report := set_count k (Z.max (r_counts r k) v) r.

(* src: services/diagnostics/TransferDiagnostics.ts:402-406 [queueWrite] *)
Definition queueWrite (now : Z) (d : t) : t :=
  let d := on_report (λ r, r <| r_updatedAt := now |>) d <| d_revision := d_revision d + 1 |> in
  if d_writeScheduled d then d else d <| d_writeScheduled := true |> <| d_writer := Writer_scheduled |>.

(** The loop of the writer up to its next [await]. *)
(* src: services/diagnostics/TransferDiagnostics.ts:407-426 [queueWrite] *)
Definition writer_loop (filesystem : bool) (d : t) : t :=
  if d_persistedRevision d <? d_revision d then
    if filesystem then d <| d_writer := Writer_storing (d_revision d) (d_report d) |>
    else d <| d_persistedRevision := d_revision d |> <| d_writeScheduled := false |> <| d_writer := Writer_idle |>
  else d <| d_writeScheduled := false |> <| d_writer := Writer_idle |>.

(** [persistDiagnosticReport] settled. *)
(* src: services/diagnostics/TransferDiagnostics.ts:412-425 [queueWrite] *)
Definition write_settled (filesystem ok : bool) (target : Z) (snapshot : Report) (d : t) : t :=
  if ok then
    writer_loop filesystem
      (d <| d_stored := Some snapshot |> <| d_hasPersistedReport := true |> <| d_persistedRevision := target |>)
  else d <| d_writeScheduled := false |> <| d_writer := Writer_idle |>.

(* src: services/diagnostics/TransferDiagnostics.ts:110-112 [elapsedMs] *)
Definition elapsedMs (now : Z) (r : Report) : Z := Z.max 0 (now - r_startedAt r).

(** [windowIndexById.get(windowIndex)] and the window there. *)
Definition window_at (windowIndex : Z) (d : t) : option (nat * Window) :=
  i ← d_windowIndexById d !! windowIndex; w ← r_windows (d_report d) !! i; Some (i, w).
Definition on_window (windowIndex : Z) (f : Window → Window) (d : t) : t :=
  match window_at windowIndex d with
  | Some (i, w) => on_report (λ r, r <| r_windows := <[i := f w]> (r_windows r) |>) d
  | None => d
  end.

(* src: services/diagnostics/TransferDiagnostics.ts:114-149 [beginWindow] *)
Definition beginWindow (now windowIndex selected : Z) (d : t) : t :=
  if decide (is_Some (d_windowIndexById d !! windowIndex)) then d else
  let w :=
    {| w_windowIndex := windowIndex; w_status := window_preparing;
       w_counts := λ k, if decide (k = selectedCount) then selected else 0;
       w_startedElapsedMs := elapsedMs now (d_report d); w_readyElapsedMs := None;
       w_enqueueCompletedElapsedMs := None; w_uploadCapacityWaitDurationMs := 0;
       w_uploadCapacityWaitCount := 0; w_preparationDurationMs := 0; w_filenameDurationMs := 0;
       w_preflightDurationMs := 0; w_preflight := Some emptyWindowPreflight;
       w_firstUploadStartedElapsedMs := None; w_uploadTiming := Some emptyUploadTiming |} in
  let windows := r_windows (d_report d) ++ [w] in
  on_report (λ r, r <| r_windows := windows |>) d
    <| d_windowIndexById := <[windowIndex := (length windows - 1)%nat]> (d_windowIndexById d) |>.

(* src: services/diagnostics/TransferDiagnostics.ts:23-23 [WINDOW_PERSIST_INTERVAL] *)
Definition WINDOW_PERSIST_INTERVAL : Z := 8.

(** The totals of the report move by what the window changed. *)
(* src: services/diagnostics/TransferDiagnostics.ts:178-199 [checkpointWindow] *)
Definition move_totals (completed : Window) (existing : option Window) (r : Report) : Report :=
  let before k := match existing with Some w => w_counts w k | None => 0 end in
  r <| r_counts := λ k,
    match k with
    | total_of failedCount => r_counts r k
    | total_of k' => r_counts r k + (w_counts completed k' - before k')
    | expandedFiles =>
      r_counts r k + ((w_counts completed preparedCount + w_counts completed failedCount)
                      - (before preparedCount + before failedCount))
    | _ => r_counts r k
    end |>.

(* src: services/diagnostics/TransferDiagnostics.ts:151-215 [checkpointWindow] *)
Definition checkpointWindow (now : Z) (window : Window) (d : t) : t :=
  let existing := window_at (w_windowIndex window) d in
  let completedPreflight := default emptyWindowPreflight (w_preflight window) in
  let completed :=
    window <| w_status := window_ready |>
      <| w_startedElapsedMs := match existing with
                               | Some (_, w) => w_startedElapsedMs w
                               | None => w_startedElapsedMs window
                               end |>
      <| w_readyElapsedMs := Some (default (elapsedMs now (d_report d)) (w_readyElapsedMs window)) |>
      <| w_preflight := Some completedPreflight |>
      <| w_uploadTiming := Some (default emptyUploadTiming (w_uploadTiming window)) |> in
  let d :=
    match existing with
    | Some (i, _) => on_report (λ r, r <| r_windows := <[i := completed]> (r_windows r) |>) d
    | None =>
      let windows := r_windows (d_report d) ++ [completed] in
      on_report (λ r, r <| r_windows := windows |>) d
        <| d_windowIndexById := <[w_windowIndex window := (length windows - 1)%nat]> (d_windowIndexById d) |>
    end in
  let previous :=
    match existing with
    | Some (_, w) => match w_status w with window_preparing => None | _ => w_preflight w end
    | None => None
    end in
  let previousDuration :=
    match existing with
    | Some (_, w) => match w_status w with window_preparing => 0 | _ => w_preflightDurationMs w end
    | None => 0
    end in
  let d := on_report (λ r,
    move_totals completed (snd <$> existing) r
      <| r_preflight := accumulatePreflightSummary (r_preflight r) completedPreflight
                          (w_preflightDurationMs completed) previous previousDuration |>) d in
  if (w_windowIndex window + 1) mod WINDOW_PERSIST_INTERVAL =? 0 then queueWrite now d else d.

(* src: services/diagnostics/TransferDiagnostics.ts:217-225 [markWindowEnqueued] *)
Definition markWindowEnqueued (now windowIndex maxDepth : Z) (d : t) : t :=
  let d := on_window windowIndex (λ w,
    w <| w_status := window_enqueued |>
      <| w_enqueueCompletedElapsedMs := Some (elapsedMs now (d_report d)) |>) d in
  on_report (max_count queueMaxDepth maxDepth) d.

(** [Number.isFinite(v) ? Math.max(0, v) : 0]. *)
Definition bounded (v : jsnum) : Z := match v with Finite z => Z.max 0 z | NotFinite => 0 end.

(* src: services/diagnostics/TransferDiagnostics.ts:227-242 [recordUploadCapacityWait] *)
Definition recordUploadCapacityWait (windowIndex : Z) (durationMs : jsnum) (d : t) : t :=
  let duration := bounded durationMs in
  if duration <=? 0 then d else
  let d := on_window windowIndex (λ w,
    w <| w_uploadCapacityWaitDurationMs := w_uploadCapacityWaitDurationMs w + duration |>
      <| w_uploadCapacityWaitCount := w_uploadCapacityWaitCount w + 1 |>) d in
  on_report (λ r, max_count maxUploadCapacityWaitDurationMs duration
    (add_count uploadCapacityWaitCount 1 (add_count uploadCapacityWaitDurationMs duration r))) d.

(* src: services/diagnostics/TransferDiagnostics.ts:244-249 [recordWindowUploadStarted] *)
Definition recordWindowUploadStarted (now windowIndex : Z) (d : t) : t :=
  on_window windowIndex (λ w,
    match w_firstUploadStartedElapsedMs w with
    | Some _ => w
    | None => w <| w_firstUploadStartedElapsedMs := Some (elapsedMs now (d_report d)) |>
    end) d.

(* src: services/diagnostics/TransferDiagnostics.ts:251-262 [recordNativeUploadTiming] *)
Definition recordNativeUploadTiming (windowIndex : Z) (timing : native_timing) (d : t) : t :=
  let d := on_report (λ r, r <| r_uploadTiming := addUploadTiming (r_uploadTiming r) timing |>) d in
  on_window windowIndex (λ w,
    w <| w_uploadTiming := Some (addUploadTiming (default emptyUploadTiming (w_uploadTiming w)) timing) |>) d.

(** [find] and the change of the first element found. *)
Fixpoint change_first {A} (found : A → bool) (f : A → A) (l : list A) : list A :=
  match l with
  | [] => []
  | x :: l => if found x then f x :: l else x :: change_first found f l
  end.

Definition has_path (path : MediaMaterializationPath) (m : MaterializationSummary) : bool :=
  bool_decide (ms_path m = path).

(* src: services/diagnostics/TransferDiagnostics.ts:264-288 [recordMaterialization] *)
Definition add_materialization (durationMs temporaryBytes : Z) (m : MaterializationSummary) : MaterializationSummary :=
  let m := m <| ms_preparedFiles := ms_preparedFiles m + 1 |>
             <| ms_totalMaterializationDurationMs := ms_totalMaterializationDurationMs m + durationMs |>
             <| ms_maxMaterializationDurationMs := Z.max (ms_maxMaterializationDurationMs m) durationMs |> in
  if 0 <? temporaryBytes then
    m <| ms_temporaryFiles := ms_temporaryFiles m + 1 |>
      <| ms_temporaryBytesWritten := ms_temporaryBytesWritten m + temporaryBytes |>
      <| ms_maxTemporaryFileBytes := Z.max (ms_maxTemporaryFileBytes m) temporaryBytes |>
  else m.

(* src: services/diagnostics/TransferDiagnostics.ts:264-288 [recordMaterialization] *)
Definition recordMaterialization (file : PreparedUploadFile) (d : t) : t :=
  let path := default expo_direct (f_materializationPath file) in
  on_report (λ r, r <| r_materialization :=
    change_first (has_path path)
      (add_materialization (bounded (default NotFinite (f_materializationDurationMs file)))
         (bounded (default NotFinite (f_temporaryBytesWritten file)))) (r_materialization r) |>) d.

(* src: services/diagnostics/TransferDiagnostics.ts:290-305 [recordTemporaryRelease] *)
Definition recordTemporaryRelease (path : MediaMaterializationPath) (temporaryBytesWritten : Z)
    (lifetimeMs : jsnum) (d : t) : t :=
  if temporaryBytesWritten <=? 0 then d else
  on_report (λ r, r <| r_materialization :=
    change_first (has_path path) (λ m,
      m <| ms_releasedFiles := ms_releasedFiles m + 1 |>
        <| ms_totalTemporaryLifetimeMs := ms_totalTemporaryLifetimeMs m + bounded lifetimeMs |>
        <| ms_maxTemporaryLifetimeMs := Z.max (ms_maxTemporaryLifetimeMs m) (bounded lifetimeMs) |>)
      (r_materialization r) |>) d.

(* src: services/diagnostics/TransferDiagnostics.ts:307-311 [markPreparationComplete] *)
Definition markPreparationComplete (now maxDepth : Z) (d : t) : t :=
  queueWrite now (on_report (λ r,
    max_count queueMaxDepth maxDepth (r <| r_preparationCompletedElapsedMs := Some (elapsedMs now r) |>)) d).

(* src: services/diagnostics/TransferDiagnostics.ts:313-324 [recordUploadWorkerStarted] *)
Definition recordUploadWorkerStarted (now activeWorkers : Z) (d : t) : t :=
  let r := d_report d in
  let '(r1, changed1) :=
    match r_firstUploadStartedElapsedMs r with
    | None => (r <| r_firstUploadStartedElapsedMs := Some (elapsedMs now r) |>, true)
    | Some _ => (r, false)
    end in
  let '(r2, changed2) :=
    if r_counts r1 maxActiveUploadWorkers <? activeWorkers
    then (set_count maxActiveUploadWorkers activeWorkers r1, true) else (r1, false) in
  let d := on_report (λ _, r2) d in
  if changed1 || changed2 then queueWrite now d else d.

(* src: services/diagnostics/TransferDiagnostics.ts:326-330 [recordFirstAcknowledgement] *)
Definition recordFirstAcknowledgement (now : Z) (d : t) : t :=
  match r_firstAcknowledgementElapsedMs (d_report d) with
  | Some _ => d
  | None => queueWrite now (on_report (λ r, r <| r_firstAcknowledgementElapsedMs := Some (elapsedMs now r) |>) d)
  end.

(* src: services/diagnostics/TransferDiagnostics.ts:22-22 [MAX_FAILURE_DETAILS] *)
Definition MAX_FAILURE_DETAILS : Z := 1000.

Definition same_failure (f : Failure) (c : FailureCount) : bool :=
  bool_decide (fc_stage c = df_stage f ∧ fc_code c = df_code f).

(* src: services/diagnostics/TransferDiagnostics.ts:332-347 [recordFailure] *)
Definition recordFailure (f : Failure) (d : t) : t :=
  on_report (λ r,
    let counts :=
      if existsb (same_failure f) (r_failureCounts r)
      then change_first (same_failure f)
             (λ c, {| fc_stage := fc_stage c; fc_code := fc_code c; fc_count := fc_count c + 1 |}) (r_failureCounts r)
      else r_failureCounts r ++ [{| fc_stage := df_stage f; fc_code := df_code f; fc_count := 1 |}] in
    let r := r <| r_failureCounts := counts |> in
    let r := if lengthZ (r_failures r) <? MAX_FAILURE_DETAILS then r <| r_failures := r_failures r ++ [f] |>
             else r <| r_omittedFailureDetails := r_omittedFailureDetails r + 1 |> in
    add_count failedFiles 1 r) d.

(* src: services/diagnostics/TransferDiagnostics.ts:349-355 [recordThermal] *)
Definition recordThermal (now : Z) (state : ThermalState) (d : t) : t :=
  let r := d_report d in
  if decide (fst <$> last (r_thermalTransitions r) = Some state) then d else
  queueWrite now (on_report (λ r, r <| r_thermalTransitions := r_thermalTransitions r ++ [(state, now - r_startedAt r)] |>) d).

(** The fields [updateTransfer] assigns; the two average rates are left out. *)
Definition assigned (k : report_count) : bool :=
  match k with
  | total_of (selectedCount | selectedMediaBytes | additionalComponentsBytes | selectedMediaFiles
             | additionalComponentsFiles | plannedUploadBytes | preflightSkippedFiles | preflightSkippedBytes
             | appleFilenameCount | fallbackFilenameCount)
  | expandedFiles | uploadedFiles | skippedFiles | failedFiles | acknowledgedBytes | skippedBytes
  | serverSkippedFiles | serverSkippedBytes | retryCount | queueMaxDepth | maxActiveUploadWorkers
  | peakNativeResidentMemoryBytes => true
  | _ => false
  end.

(* src: services/diagnostics/TransferDiagnostics.ts:357-385 [updateTransfer] *)
Definition updateTransfer (now : Z) (values : report_count → Z) (d : t) : t :=
  queueWrite now (on_report (λ r,
    r <| r_counts := λ k, if assigned k then values k else r_counts r k |>) d).

(* src: services/diagnostics/TransferDiagnostics.ts:387-400 [finish] *)
Definition finish (now : Z) (status : ReportStatus) (d : t) : t :=
  queueWrite now (on_report (λ r,
    let elapsed := elapsedMs now r in
    r <| r_completionStatus := status |> <| r_completedAt := Some now |>
      <| r_sessionDurationMs := Some elapsed |>
      <| r_uploadPhaseDurationMs :=
           match r_firstUploadStartedElapsedMs r with
           | Some started => Some (Z.max 0 (elapsed - started))
           | None => r_uploadPhaseDurationMs r
           end |>) d).

(** ** Runs *)

(** The calls of the upload session, in any order. *)
Inductive call :=
  | Start (now : Z)
  | BeginWindow (now windowIndex selected : Z)
  | CheckpointWindow (now : Z) (window : Window)
  | MarkWindowEnqueued (now windowIndex maxDepth : Z)
  | RecordUploadCapacityWait (windowIndex : Z) (durationMs : jsnum)
  | RecordWindowUploadStarted (now windowIndex : Z)
  | RecordNativeUploadTiming (windowIndex : Z) (timing : native_timing)
  | RecordMaterialization (file : PreparedUploadFile)
  | RecordTemporaryRelease (path : MediaMaterializationPath) (temporaryBytesWritten : Z) (lifetimeMs : jsnum)
  | MarkPreparationComplete (now maxDepth : Z)
  | RecordUploadWorkerStarted (now activeWorkers : Z)
  | RecordFirstAcknowledgement (now : Z)
  | RecordFailure (f : Failure)
  | RecordThermal (now : Z) (state : ThermalState)
  | UpdateTransfer (now : Z) (values : report_count → Z)
  | Finish (now : Z) (status : ReportStatus).

Definition run_call (c : call) (d : t) : t :=
  match c with
  | Start now => queueWrite now d
  | BeginWindow now i n => beginWindow now i n d
  | CheckpointWindow now w => checkpointWindow now w d
  | MarkWindowEnqueued now i depth => markWindowEnqueued now i depth d
  | RecordUploadCapacityWait i ms => recordUploadCapacityWait i ms d
  | RecordWindowUploadStarted now i => recordWindowUploadStarted now i d
  | RecordNativeUploadTiming i timing => recordNativeUploadTiming i timing d
  | RecordMaterialization f => recordMaterialization f d
  | RecordTemporaryRelease path bytes ms => recordTemporaryRelease path bytes ms d
  | MarkPreparationComplete now depth => markPreparationComplete now depth d
  | RecordUploadWorkerStarted now n => recordUploadWorkerStarted now n d
  | RecordFirstAcknowledgement now => recordFirstAcknowledgement now d
  | RecordFailure f => recordFailure f d
  | RecordThermal now s => recordThermal now s d
  | UpdateTransfer now values => updateTransfer now values d
  | Finish now status => finish now status d
  end.

(** A call, or the writer's next run; [ok] says whether the file system stored the snapshot. *)
Inductive event := Call (c : call) | WriterRuns | WriteSettles (ok : bool).

Definition step (filesystem : bool) (d : t) (e : event) : option t :=
  match e with
  | Call c => Some (run_call c d)
  | WriterRuns => match d_writer d with Writer_scheduled => Some (writer_loop filesystem d) | _ => None end
  | WriteSettles ok =>
    match d_writer d with
    | Writer_storing target snapshot => Some (write_settled filesystem ok target snapshot d)
    | _ => None
    end
  end.
End Diagnostics.

Import Diagnostics.

(** ** The totals of a report *)

Lemma change_first_sum {A} (found : A → bool) f (g : A → Z) (l : list A) d :
  (∀ x, found x = true → g (f x) = g x + d) →
  sumZ g (change_first found f l) = sumZ g l + (if existsb found l then d else 0).
Proof.
  intros H. induction l as [|x l IH]; simpl; [rewrite !sumZ_nil; lia|].
  destruct (found x) eqn:Hx; rewrite !sumZ_cons; simpl; [rewrite H by done; lia|lia].
Qed.

Definition window_sum (k : window_count) (r : Report) : Z := sumZ (λ w, w_counts w k) (r_windows r).
Definition preflight_of (w : Window) : WindowPreflight := default emptyWindowPreflight (w_preflight w).
Definition preflight_sum (k : preflight_key) (r : Report) : Z := sumZ (λ w, wp_metrics (preflight_of w) k) (r_windows r).

(** The index of the windows, and what a window that is being prepared shows. *)
Record windows_ok (d : t) : Prop := {
  wk_index : ∀ i n, d_windowIndexById d !! i = Some n ↔ ∃ w, r_windows (d_report d) !! n = Some w ∧ w_windowIndex w = i;
  wk_preparing : ∀ w, w ∈ r_windows (d_report d) → w_status w = window_preparing →
    w_preflight w = Some emptyWindowPreflight ∧ w_preflightDurationMs w = 0
    ∧ ∀ k, k ≠ selectedCount → w_counts w k = 0 }.

(** The totals that no call but [checkpointWindow] changes, and those of the failures. *)
Record totals_ok (r : Report) : Prop := {
  tk_prepared : r_counts r (total_of preparedCount) = window_sum preparedCount r;
  tk_discovered : r_counts r (total_of discoveredBytes) = window_sum discoveredBytes r;
  tk_preflight : ∀ k, maximised k = false → ps_metrics (r_preflight r) k = preflight_sum k r;
  tk_duration : ps_totalWindowDurationMs (r_preflight r) = sumZ w_preflightDurationMs (r_windows r);
  tk_hashing : ps_windowsWithHashing (r_preflight r) = sumZ (λ w, hashing (preflight_of w)) (r_windows r);
  tk_idle : ps_allUploadWorkersIdleMs (r_preflight r)
    = sumZ (λ w, wp_allUploadWorkersIdleMs (preflight_of w)) (r_windows r);
  tk_failures : lengthZ (r_failures r) + r_omittedFailureDetails r = sumZ fc_count (r_failureCounts r)
    ∧ lengthZ (r_failures r) <= MAX_FAILURE_DETAILS }.

Definition diag_ok (d : t) : Prop := windows_ok d ∧ totals_ok (d_report d).

(** Calls that leave the windows, the totals and the failures alone. *)
Lemma diag_ok_keep d d' :
  diag_ok d → d_windowIndexById d' = d_windowIndexById d →
  r_windows (d_report d') = r_windows (d_report d) → r_preflight (d_report d') = r_preflight (d_report d) →
  r_failures (d_report d') = r_failures (d_report d) →
  r_failureCounts (d_report d') = r_failureCounts (d_report d) →
  r_omittedFailureDetails (d_report d') = r_omittedFailureDetails (d_report d) →
  r_counts (d_report d') (total_of preparedCount) = r_counts (d_report d) (total_of preparedCount) →
  r_counts (d_report d') (total_of discoveredBytes) = r_counts (d_report d) (total_of discoveredBytes) →
  diag_ok d'.
Proof.
  intros [[] []] H1 H2 H3 H4 H5 H6 H7 H8. split; split; unfold window_sum, preflight_sum in *;
    rewrite ?H1, ?H2, ?H3, ?H4, ?H5, ?H6, ?H7, ?H8; done.
Qed.

Lemma queueWrite_ok now d : diag_ok d → diag_ok (queueWrite now d).
Proof. intros H. apply (diag_ok_keep d); try done; unfold queueWrite; by destruct (d_writeScheduled _). Qed.

Lemma window_at_spec i d n w :
  windows_ok d → window_at i d = Some (n, w) →
  d_windowIndexById d !! i = Some n ∧ r_windows (d_report d) !! n = Some w ∧ w_windowIndex w = i.
Proof.
  intros Hok. unfold window_at. destruct (d_windowIndexById d !! i) as [m|] eqn:Hm; [|done]. simpl.
  destruct (r_windows (d_report d) !! m) as [w'|] eqn:Hw; [|done]. intros [= -> ->]. split_and!; try done.
  apply (wk_index d Hok) in Hm as (w0 & Hw0 & Hi). congruence.
Qed.

Lemma window_at_none i d :
  windows_ok d → window_at i d = None → ∀ n w, r_windows (d_report d) !! n = Some w → w_windowIndex w ≠ i.
Proof.
  intros Hok Hat n w Hw Hi. assert (d_windowIndexById d !! i = Some n) as Hn by (apply (wk_index d Hok); by exists w).
  unfold window_at in Hat. rewrite Hn in Hat. simpl in Hat. by rewrite Hw in Hat.
Qed.

(** Replacing a window by one with the same index. *)
Lemma windows_ok_insert d d' n w w' :
  windows_ok d → r_windows (d_report d) !! n = Some w → w_windowIndex w' = w_windowIndex w →
  (w_status w' = window_preparing → w_preflight w' = Some emptyWindowPreflight ∧ w_preflightDurationMs w' = 0
     ∧ ∀ k, k ≠ selectedCount → w_counts w' k = 0) →
  d_windowIndexById d' = d_windowIndexById d → r_windows (d_report d') = <[n := w']> (r_windows (d_report d)) →
  windows_ok d'.
Proof.
  intros [Hidx Hprep] Hn Hi Hw' H1 H2. assert (n < length (r_windows (d_report d)))%nat as Hlt by (by apply lookup_lt_Some in Hn).
  split; rewrite ?H1, ?H2.
  - intros i m. rewrite Hidx. destruct (decide (n = m)) as [<-|Hne].
    + rewrite list_lookup_insert_eq by done. rewrite Hn.
      split; intros (x & Hx & Hxi); injection Hx as <-; eexists; (split; [done|congruence]).
    + by rewrite list_lookup_insert_ne.
  - intros x [m Hm]%list_elem_of_lookup. destruct (decide (n = m)) as [<-|Hne].
    + rewrite list_lookup_insert_eq in Hm by done. by injection Hm as <-.
    + rewrite list_lookup_insert_ne in Hm by done. apply Hprep. by eapply list_elem_of_lookup_2.
Qed.

(** A new window. *)
Lemma windows_ok_snoc d d' w :
  windows_ok d → (∀ n x, r_windows (d_report d) !! n = Some x → w_windowIndex x ≠ w_windowIndex w) →
  (w_status w = window_preparing → w_preflight w = Some emptyWindowPreflight ∧ w_preflightDurationMs w = 0
     ∧ ∀ k, k ≠ selectedCount → w_counts w k = 0) →
  r_windows (d_report d') = r_windows (d_report d) ++ [w] →
  d_windowIndexById d' = <[w_windowIndex w := (length (r_windows (d_report d) ++ [w]) - 1)%nat]> (d_windowIndexById d) →
  windows_ok d'.
Proof.
  intros [Hidx Hprep] Hnew Hw H1 H2. split; rewrite H1; [rewrite H2|].
  - intros i m. rewrite length_app. cbn. replace (length (r_windows (d_report d)) + 1 - 1)%nat with (length (r_windows (d_report d))) by lia.
    destruct (decide (w_windowIndex w = i)) as [<-|Hne].
    + rewrite lookup_insert_eq. split.
      * intros [= <-]. exists w. split; [|done]. by rewrite list_lookup_middle.
      * intros (x & Hx & Hxi). apply lookup_app_Some in Hx as [Hx|[Hge Hx]]; [by destruct (Hnew _ _ Hx)|].
        apply list_lookup_singleton_Some in Hx as [Hm _]. f_equal. lia.
    + rewrite lookup_insert_ne by done. rewrite Hidx. split; intros (x & Hx & Hxi); exists x; split; try done.
      * by apply lookup_app_l_Some.
      * apply lookup_app_Some in Hx as [Hx|[Hge Hx]]; [done|].
        apply list_lookup_singleton_Some in Hx as [_ ->]. done.
  - intros x [Hx|Hx]%elem_of_app; [by apply Hprep|]. apply list_elem_of_singleton in Hx as ->. done.
Qed.

(** The calls that touch one window keep what is counted of it. *)
Lemma on_window_ok i f d :
  (∀ w, w_windowIndex (f w) = w_windowIndex w ∧ w_counts (f w) = w_counts w ∧ w_preflight (f w) = w_preflight w
        ∧ w_preflightDurationMs (f w) = w_preflightDurationMs w
        ∧ (w_status (f w) = window_preparing → w_status w = window_preparing)) →
  diag_ok d → diag_ok (on_window i f d).
Proof.
  intros Hf [Hw Ht]. unfold on_window. destruct (window_at i d) as [[n w]|] eqn:Hat; [|by split].
  apply window_at_spec in Hat as (Hm & Hn & Hi); [|done]. destruct (Hf w) as (F1 & F2 & F3 & F4 & F5). split.
  - eapply (windows_ok_insert d _ n w (f w)); try done.
    intros Hs. rewrite F3, F4. destruct (wk_preparing d Hw w) as (? & ? & ?);
      [by eapply list_elem_of_lookup_2|by apply F5|]. split_and!; try done. by rewrite F2.
  - assert (∀ g : Window → Z, g (f w) = g w → sumZ g (<[n:=f w]> (r_windows (d_report d))) = sumZ g (r_windows (d_report d))) as Hsame
      by (intros g Hg; rewrite (sumZ_insert _ _ _ w) by done; lia).
    destruct Ht. split; unfold window_sum, preflight_sum, preflight_of in *; cbn -[sumZ];
      try (intros k Hk; rewrite Hsame by (by rewrite F3); by apply tk_preflight0);
      try (rewrite Hsame by (by rewrite ?F2, ?F3, ?F4)); done.
Qed.

Lemma beginWindow_ok now i n d : diag_ok d → diag_ok (beginWindow now i n d).
Proof.
  intros [Hw Ht]. unfold beginWindow. case_decide as Hin; [by split|].
  set (w := {| w_windowIndex := i |}). cbv zeta. split.
  - eapply (windows_ok_snoc d _ w); try done.
    + intros m x Hx Hxi. apply Hin. exists m. apply (wk_index d Hw). by exists x.
    + intros _. split_and!; [done|done|]. intros k Hk. cbn. by rewrite decide_False.
  - destruct Ht. split; unfold window_sum, preflight_sum in *; cbn -[sumZ]; try done;
      try (intros k Hk); rewrite sumZ_app, sumZ_singleton; cbn; rewrite ?tk_preflight0 by done;
      rewrite ?decide_False by done; try change (emptyPreflightMetrics k) with 0; lia.
Qed.

(** The report after a checkpoint, in terms of the window it replaces. *)
Lemma checkpoint_totals completed (existing : option Window) windows windows' previous previousDuration r :
  totals_ok r → r_windows r = windows →
  w_preflight completed = Some (preflight_of completed) →
  (∀ g : Window → Z, sumZ g windows' = sumZ g windows - from_option g 0 existing + g completed) →
  (∀ g : WindowPreflight → Z, g emptyWindowPreflight = 0 →
     g (default emptyWindowPreflight previous) = from_option (λ w, g (preflight_of w)) 0 existing) →
  previousDuration = from_option w_preflightDurationMs 0 existing →
  totals_ok (move_totals completed existing (r <| r_windows := windows' |>)
               <| r_preflight := accumulatePreflightSummary (r_preflight r) (preflight_of completed)
                                   (w_preflightDurationMs completed) previous previousDuration |>).
Proof.
  intros [] <- Hpre Hsum Hprev ->. split; unfold window_sum, preflight_sum in *; cbn -[sumZ]; rewrite ?Hsum.
  - rewrite tk_prepared0. destruct existing; simpl; lia.
  - rewrite tk_discovered0. destruct existing; simpl; lia.
  - intros k Hk. rewrite Hk, Hsum, tk_preflight0 by done.
    pose proof (Hprev (λ p, wp_metrics p k) eq_refl) as H. cbn in H. rewrite H. destruct existing; simpl; lia.
  - rewrite tk_duration0. destruct existing; simpl; lia.
  - rewrite tk_hashing0. pose proof (Hprev hashing eq_refl) as H. rewrite H. destruct existing; simpl; lia.
  - rewrite tk_idle0. pose proof (Hprev wp_allUploadWorkersIdleMs eq_refl) as H. rewrite H. destruct existing; simpl; lia.
  - done.
Qed.

Lemma checkpointWindow_ok now w d : diag_ok d → diag_ok (checkpointWindow now w d).
Proof.
  intros [Hw Ht]. unfold checkpointWindow. cbv zeta.
  set (existing := window_at (w_windowIndex w) d).
  set (completed := w <| w_status := window_ready |> <| w_startedElapsedMs := _ |> <| w_readyElapsedMs := _ |>
                      <| w_preflight := _ |> <| w_uploadTiming := _ |>).
  match goal with |- diag_ok (if ?t then queueWrite now ?x else _) => assert (diag_ok x) as Hx; [|by destruct t; [apply queueWrite_ok|]] end.
  destruct existing as [[n x]|] eqn:Hat.
  - apply window_at_spec in Hat as (Hm & Hn & Hi); [|done]. split.
    + eapply (windows_ok_insert d _ n x completed); done.
    + refine (checkpoint_totals completed (Some x) _ _ _ _ (d_report d) Ht eq_refl eq_refl _ _ _).
      * intros g. cbn -[sumZ]. rewrite (sumZ_insert _ _ _ x) by done. lia.
      * intros g Hg. simpl. unfold preflight_of. destruct (w_status x) eqn:Hs; try done.
        destruct (wk_preparing d Hw x) as (-> & _ & _); [by eapply list_elem_of_lookup_2|done|done].
      * simpl. destruct (w_status x) eqn:Hs; try done.
        by destruct (wk_preparing d Hw x) as (_ & -> & _); [by eapply list_elem_of_lookup_2|done|].
  - split.
    + eapply (windows_ok_snoc d _ completed); try done. by apply window_at_none.
    + refine (checkpoint_totals completed None _ _ None 0 (d_report d) Ht eq_refl eq_refl _ _ eq_refl).
      * intros g. cbn -[sumZ]. rewrite sumZ_app, sumZ_singleton. lia.
      * intros g Hg. exact Hg.
Qed.

Lemma recordFailure_ok f d : diag_ok d → diag_ok (recordFailure f d).
Proof.
  intros [Hw Ht]. split.
  { assert (r_windows (d_report (recordFailure f d)) = r_windows (d_report d)) as H
      by (unfold recordFailure; cbn; by destruct (_ <? MAX_FAILURE_DETAILS)).
    destruct Hw. by split; rewrite H. }
  unfold recordFailure, on_report. cbn -[sumZ].
  set (counts := if existsb _ _ then _ else _).
  assert (sumZ fc_count counts = sumZ fc_count (r_failureCounts (d_report d)) + 1) as Hc.
  { unfold counts. destruct (existsb (same_failure f) (r_failureCounts (d_report d))) eqn:He.
    - rewrite (change_first_sum _ _ _ _ 1) by done. by rewrite He.
    - by rewrite sumZ_app, sumZ_singleton. }
  destruct Ht. destruct (Z.ltb_spec (lengthZ (r_failures (d_report d))) MAX_FAILURE_DETAILS) as [Hlt|Hge];
    split; try done; cbn -[sumZ]; rewrite Hc; unfold lengthZ in *; rewrite ?length_app; cbn [length]; lia.
Qed.

Lemma run_call_ok c d : diag_ok d → diag_ok (run_call c d).
Proof.
  intros Hok. destruct c; simpl.
  - by apply queueWrite_ok.
  - by apply beginWindow_ok.
  - by apply checkpointWindow_ok.
  - assert (diag_ok (on_window windowIndex (λ w, w <| w_status := window_enqueued |>
      <| w_enqueueCompletedElapsedMs := Some (elapsedMs now (d_report d)) |>) d)) as H by (by apply on_window_ok).
    by apply (diag_ok_keep _ _ H).
  - unfold recordUploadCapacityWait. cbv zeta. destruct (_ <=? 0); [done|].
    set (g := λ w, w <| w_uploadCapacityWaitDurationMs := _ |> <| w_uploadCapacityWaitCount := _ |>).
    assert (diag_ok (on_window windowIndex g d)) as H by (by apply on_window_ok). by apply (diag_ok_keep _ _ H).
  - apply on_window_ok; [|done]. intros w. by destruct (w_firstUploadStartedElapsedMs w).
  - apply on_window_ok; [done|]. by apply (diag_ok_keep _ _ Hok).
  - by apply (diag_ok_keep _ _ Hok).
  - unfold recordTemporaryRelease. destruct (_ <=? 0); [done|]. by apply (diag_ok_keep _ _ Hok).
  - apply queueWrite_ok. by apply (diag_ok_keep _ _ Hok).
  - unfold recordUploadWorkerStarted.
    assert (∀ r, r = d_report d ∨ r = d_report d <| r_firstUploadStartedElapsedMs := Some (elapsedMs now (d_report d)) |> →
      diag_ok (on_report (λ _, r) d) ∧ diag_ok (on_report (λ _, set_count maxActiveUploadWorkers activeWorkers r) d)) as H.
    { intros r [->| ->]; split; by apply (diag_ok_keep _ _ Hok). }
    destruct (r_firstUploadStartedElapsedMs (d_report d)); destruct (_ <? _); simpl; try apply queueWrite_ok; apply H; auto.
  - unfold recordFirstAcknowledgement. destruct (r_firstAcknowledgementElapsedMs _); [done|]. apply queueWrite_ok. by apply (diag_ok_keep _ _ Hok).
  - by apply recordFailure_ok.
  - unfold recordThermal. case_decide; [done|]. apply queueWrite_ok. by apply (diag_ok_keep _ _ Hok).
  - apply queueWrite_ok. by apply (diag_ok_keep _ _ Hok).
  - apply queueWrite_ok. by apply (diag_ok_keep _ _ Hok).
Qed.

(** ** Runs of a collector *)

Fixpoint run (filesystem : bool) (d : t) (es : list event) : option t :=
  match es with
  | [] => Some d
  | e :: es => d' ← step filesystem d e; run filesystem d' es
  end.

Lemma run_invariant (I : t → Prop) filesystem :
  (∀ d e d', I d → step filesystem d e = Some d' → I d') →
  ∀ es d d', I d → run filesystem d es = Some d' → I d'.
Proof.
  intros Hstep es. induction es as [|e es IH]; intros d d' Hd; simpl; [by intros [= <-]|].
  destruct (step filesystem d e) as [d1|] eqn:He; [|done]. intros Hr. eapply IH; [by eapply Hstep|done].
Qed.

Lemma writer_loop_keeps filesystem d :
  d_report (writer_loop filesystem d) = d_report d ∧ d_windowIndexById (writer_loop filesystem d) = d_windowIndexById d.
Proof. unfold writer_loop. destruct (_ <? _); [by destruct filesystem|done]. Qed.

Lemma write_settled_keeps filesystem ok target snapshot d :
  d_report (write_settled filesystem ok target snapshot d) = d_report d
  ∧ d_windowIndexById (write_settled filesystem ok target snapshot d) = d_windowIndexById d.
Proof. unfold write_settled. destruct ok; [|done]. by rewrite !(proj1 (writer_loop_keeps _ _)), !(proj2 (writer_loop_keeps _ _)). Qed.

Lemma step_ok filesystem d e d' : diag_ok d → step filesystem d e = Some d' → diag_ok d'.
Proof.
  intros Hok. destruct e as [c| |ok]; simpl.
  - intros [= <-]. by apply run_call_ok.
  - destruct (d_writer d); try done. intros [= <-]. destruct (writer_loop_keeps filesystem d) as [H1 H2].
    by apply (diag_ok_keep _ _ Hok); rewrite ?H1.
  - destruct (d_writer d); try done. intros [= <-].
    destruct (write_settled_keeps filesystem ok targetRevision snapshot d) as [H1 H2].
    by apply (diag_ok_keep _ _ Hok); rewrite ?H1.
Qed.

Lemma diagnostics_new_ok now n : diag_ok (new now n).
Proof.
  split; split; try done.
  - intros i m. cbn. rewrite lookup_empty. split; [done|]. by intros (w & ? & _).
  - by intros w ?%elem_of_nil.
Qed.

(** What holds of the writer. *)
Definition writer_ok (d : t) : Prop :=
  d_persistedRevision d <= d_revision d
  ∧ match d_writer d with
    | Writer_idle => d_writeScheduled d = false
    | Writer_scheduled => d_writeScheduled d = true ∧ d_persistedRevision d < d_revision d
    | Writer_storing target _ => d_writeScheduled d = true ∧ d_persistedRevision d < target <= d_revision d
    end.

Lemma queueWrite_writer now d : writer_ok d → writer_ok (queueWrite now d) ∧ d_writer (queueWrite now d) ≠ Writer_idle.
Proof.
  intros [Hle Hw]. unfold queueWrite, writer_ok. cbv zeta. cbn.
  destruct (d_writer d) as [| |target snapshot] eqn:Hpc.
  - rewrite Hw. cbn. split; [|done]. split; [lia|]. split; [done|lia].
  - destruct Hw as [Hws Hlt]. rewrite Hws. cbn. rewrite Hpc. split; [|done]. split; [lia|]. split; [done|lia].
  - destruct Hw as [Hws Hlt]. rewrite Hws. cbn. rewrite Hpc. split; [|done]. split; [lia|]. split; [done|lia].
Qed.

Lemma on_report_writer f d : writer_ok d → writer_ok (on_report f d).
Proof. done. Qed.

Lemma on_window_writer i f d : writer_ok d → writer_ok (on_window i f d).
Proof. intros H. unfold on_window. by destruct (window_at i d) as [[n w]|]. Qed.

Lemma run_call_writer c d : writer_ok d → writer_ok (run_call c d).
Proof.
  intros Hw. assert (∀ now f, writer_ok (queueWrite now (on_report f d))) as Hq by (intros; by apply queueWrite_writer).
  destruct c; simpl; try apply Hq; try done.
  - by apply queueWrite_writer.
  - unfold beginWindow. by case_decide.
  - unfold checkpointWindow. cbv zeta.
    match goal with |- writer_ok (if ?t then queueWrite now ?x else _) => assert (writer_ok x) as Hx; [|by destruct t; [apply queueWrite_writer|]] end.
    by destruct (window_at (w_windowIndex window) d) as [[n w]|].
  - apply on_report_writer. by apply on_window_writer.
  - unfold recordUploadCapacityWait. cbv zeta. destruct (_ <=? 0); [done|]. apply on_report_writer. by apply on_window_writer.
  - by apply on_window_writer.
  - by apply on_window_writer.
  - unfold recordTemporaryRelease. by destruct (_ <=? 0).
  - unfold recordUploadWorkerStarted. destruct (r_firstUploadStartedElapsedMs (d_report d)); destruct (_ <? _); simpl; done || apply Hq.
  - unfold recordFirstAcknowledgement. destruct (r_firstAcknowledgementElapsedMs _); [done|apply Hq].
  - unfold recordThermal. case_decide; [done|apply Hq].
Qed.

Lemma writer_loop_writer filesystem d :
  d_persistedRevision d <= d_revision d → d_writeScheduled d = true → writer_ok (writer_loop filesystem d).
Proof.
  intros Hle Hs. unfold writer_loop.
  destruct (Z.ltb_spec (d_persistedRevision d) (d_revision d)); [destruct filesystem|];
    unfold writer_ok; cbn; split_and!; try done; lia.
Qed.

Lemma step_writer filesystem d e d' : writer_ok d → step filesystem d e = Some d' → writer_ok d'.
Proof.
  intros [Hle Hw]. destruct e as [c| |ok]; simpl.
  - intros [= <-]. by apply run_call_writer.
  - destruct (d_writer d); try done. intros [= <-]. apply writer_loop_writer; [done|apply Hw].
  - destruct (d_writer d) as [| |target snapshot] eqn:Hpc; try done. intros [= <-]. unfold write_settled.
    destruct ok; [|by split]. apply writer_loop_writer; cbn; [lia|apply Hw].
Qed.

(** From the moment [finish] was called, if nothing else is called. *)
Definition finishing (r : Report) (rev : Z) (d : t) : Prop :=
  d_report d = r ∧ d_revision d = rev
  ∧ match d_writer d with
    | Writer_idle => d_stored d = Some r ∧ d_persistedRevision d = rev ∧ d_hasPersistedReport d = true
    | Writer_scheduled => d_persistedRevision d < rev
    | Writer_storing target snapshot => target = rev → snapshot = r
    end ∧ d_persistedRevision d <= rev.

Lemma writer_loop_finishing r rev d :
  d_report d = r → d_revision d = rev → d_persistedRevision d <= rev →
  (d_persistedRevision d = rev → d_stored d = Some r ∧ d_hasPersistedReport d = true) →
  finishing r rev (writer_loop true d).
Proof.
  intros <- <- Hle Hst. unfold writer_loop. destruct (Z.ltb_spec (d_persistedRevision d) (d_revision d)).
  - by split_and!.
  - destruct Hst as [H1 H2]; [lia|]. unfold finishing. cbn. split_and!; try done; lia.
Qed.

Definition writer_event (e : event) : bool := match e with Call _ => false | WriterRuns => true | WriteSettles ok => ok end.

Lemma step_finishing r rev d e d' :
  writer_ok d → finishing r rev d → writer_event e = true → step true d e = Some d' → finishing r rev d'.
Proof.
  intros [Hle Hw] (Hr & Hrev & Hpc & Hp) He. destruct e as [c| |[]]; try done; simpl.
  - destruct (d_writer d) eqn:Hd; try done. intros [= <-]. apply writer_loop_finishing; try done. intros ?. exfalso. lia.
  - destruct (d_writer d) as [| |target snapshot] eqn:Hd; try done. intros [= <-]. unfold write_settled.
    apply writer_loop_finishing; try done; cbn; [lia|]. intros Ht. split; [|done]. f_equal. by apply Hpc.
Qed.

Lemma finish_finishing now status d :
  writer_ok d → let d1 := finish now status d in
  finishing (d_report d1) (d_revision d1) d1 ∧ d_writer d1 ≠ Writer_idle.
Proof.
  intros [Hle Hw] d1. unfold d1, finish, queueWrite, finishing. cbv zeta. cbn.
  destruct (d_writer d) as [| |target snapshot] eqn:Hpc.
  - rewrite Hw. cbn. split; [|done]. split_and!; try done; lia.
  - destruct Hw as [Hws Hlt]. rewrite Hws. cbn. rewrite Hpc. split; [|done]. split_and!; try done; lia.
  - destruct Hw as [Hws Hlt]. rewrite Hws. cbn. rewrite Hpc. split; [|done]. split_and!; try done; lia.
Qed.

(** At most the write in progress and one more. *)
Lemma writer_finishes d :
  writer_ok d → d_writer d ≠ Writer_idle →
  ∃ es d2, (length es <= 2)%nat ∧ forallb writer_event es = true ∧ run true d es = Some d2 ∧ d_writer d2 = Writer_idle.
Proof.
  intros [Hle Hw] Hne. destruct (d_writer d) as [| |target snapshot] eqn:Hpc; [done|..].
  - destruct Hw as [Hs Hlt]. exists [WriterRuns; WriteSettles true]. eexists. split; [done|]. split; [done|].
    simpl. rewrite Hpc. simpl. unfold writer_loop. rewrite (proj2 (Z.ltb_lt _ _) Hlt). simpl.
    unfold writer_loop. cbn. rewrite Z.ltb_irrefl. done.
  - destruct Hw as [Hs Hlt]. destruct (decide (target = d_revision d)) as [->|Hne'].
    + exists [WriteSettles true]. eexists. split; [cbn; lia|]. split; [done|]. simpl. rewrite Hpc. simpl.
      unfold writer_loop. cbn. rewrite Z.ltb_irrefl. done.
    + exists [WriteSettles true; WriteSettles true]. eexists. split; [done|]. split; [done|]. simpl. rewrite Hpc. simpl.
      unfold writer_loop. cbn. rewrite (proj2 (Z.ltb_lt target _)) by lia. cbn. rewrite Z.ltb_irrefl. done.
Qed.

(** ** Properties *)

(** The totals of a diagnostic report are those of its windows, however often a window
    is begun, checkpointed again or marked, and whatever else is recorded in between: the
    prepared files and discovered bytes, every summed counter of the preflight, its durations
    and idle times equal the sums over the windows, each counted once; the counted failures
    are the listed ones and the omitted ones, and at most a thousand are listed. *)
Lemma report_totals_are_sums filesystem now n es d :
  run filesystem (new now n) es = Some d →
  NoDup (w_windowIndex <$> r_windows (d_report d)) ∧ totals_ok (d_report d).
Proof.
  intros Hrun. destruct (run_invariant diag_ok filesystem (step_ok filesystem) es _ _ (diagnostics_new_ok now n) Hrun) as [Hw Ht].
  split; [|done]. apply NoDup_alt. intros i j x Hi Hj. apply list_lookup_fmap_Some in Hi as (wi & Hi & Hxi).
  apply list_lookup_fmap_Some in Hj as (wj & Hj & Hxj).
  assert (d_windowIndexById d !! x = Some i) as H1 by (apply (wk_index d Hw); by exists wi).
  assert (d_windowIndexById d !! x = Some j) as H2 by (apply (wk_index d Hw); by exists wj). congruence.
Qed.

(** The report a transfer finishes with is stored. Whatever was written or failed to
    be written before, when the file system accepts the writes after [finish] and nothing
    else is recorded, the promise [finish] returned resolves after at most two writes, and
    then the stored report is the finished one and the report is available. *)
Lemma finish_persists_report now0 n es d now status :
  run true (new now0 n) es = Some d →
  let d1 := finish now status d in
  (∀ es' d2, forallb writer_event es' = true → run true d1 es' = Some d2 → d_writer d2 = Writer_idle →
     d_stored d2 = Some (d_report d1) ∧ d_hasPersistedReport d2 = true)
  ∧ ∃ es' d2, (length es' <= 2)%nat ∧ forallb writer_event es' = true ∧ run true d1 es' = Some d2
              ∧ d_writer d2 = Writer_idle.
Proof.
  intros Hrun d1.
  assert (writer_ok (new now0 n)) as H0 by done.
  pose proof (run_invariant writer_ok true (step_writer true) es _ _ H0 Hrun) as Hw.
  pose proof (run_call_writer (Finish now status) d Hw) as Hw1. change (run_call _ d) with d1 in Hw1.
  assert (finishing (d_report d1) (d_revision d1) d1 ∧ d_writer d1 ≠ Writer_idle) as [Hfin Hne] by (by apply finish_finishing).
  split.
  - intros es' d2 Hes Hr Hidle.
    assert (writer_ok d2 ∧ finishing (d_report d1) (d_revision d1) d2) as [_ (_ & _ & H & _)].
    { clearbody d1. revert Hw1 Hfin Hes Hr. generalize (d_report d1) (d_revision d1). intros r rev. revert d1 Hne.
      clear -r rev. induction es' as [|e es' IH]; intros d1 _ Hw1 Hfin Hes Hr; simpl in *; [by injection Hr as <-|].
      apply andb_prop in Hes as [He Hes]. destruct (step true d1 e) as [d'|] eqn:Hst; [|done].
      destruct es' as [|e' es'']; [injection Hr as <-; split; [by eapply step_writer|by eapply step_finishing]|].
      eapply (IH d'); try done; [|by eapply step_writer|by eapply step_finishing].
      intros Hid. destruct e' as [c| |ok]; [done|..]; simpl in Hr; by rewrite Hid in Hr. }
    rewrite Hidle in H. by destruct H as (? & _ & ?).
  - destruct (writer_finishes d1 Hw1 Hne) as (es' & d2 & ? & ? & ? & ?). by exists es', d2.
Qed.

(** ** The preparedAssets total *)

(** How the upload session calls the collector before its end: a window is begun with the
    number of assets it is checkpointed with. *)
Definition session_call (d : t) (e : event) : bool :=
  match e with
  | Call (CheckpointWindow _ w) =>
    match window_at (w_windowIndex w) d with
    | Some (_, w0) => w_counts w0 selectedCount =? w_counts w selectedCount
    | None => false
    end
  | Call (UpdateTransfer _ _) => false
  | _ => true
  end.

Fixpoint session_calls (filesystem : bool) (d : t) (es : list event) : bool :=
  match es with
  | [] => true
  | e :: es => session_call d e
      && match step filesystem d e with Some d' => session_calls filesystem d' es | None => true end
  end.

Definition preparedAssets (d : t) : Z := r_counts (d_report d) (total_of selectedCount).

Lemma queueWrite_preparedAssets now d : preparedAssets (queueWrite now d) = preparedAssets d.
Proof. unfold queueWrite. by destruct (d_writeScheduled _). Qed.
Lemma on_window_preparedAssets i f d : preparedAssets (on_window i f d) = preparedAssets d.
Proof. unfold on_window. by destruct (window_at i d) as [[n w]|]. Qed.

Lemma session_call_preparedAssets c d :
  session_call d (Call c) = true → preparedAssets (run_call c d) = preparedAssets d.
Proof.
  destruct c; simpl; intros Hc; rewrite ?queueWrite_preparedAssets, ?on_window_preparedAssets; try done.
  - unfold beginWindow. by case_decide.
  - destruct (window_at (w_windowIndex window) d) as [[n w0]|] eqn:Hat; [|done]. apply Z.eqb_eq in Hc.
    unfold checkpointWindow. cbv zeta. rewrite Hat.
    match goal with |- preparedAssets (if ?t then queueWrite now ?x else _) = _ =>
      assert (preparedAssets x = preparedAssets d); [|by destruct t; rewrite ?queueWrite_preparedAssets] end.
    unfold preparedAssets. cbn. lia.
  - unfold markWindowEnqueued.
    exact (on_window_preparedAssets windowIndex (λ w, w <| w_status := window_enqueued |>
      <| w_enqueueCompletedElapsedMs := Some (elapsedMs now (d_report d)) |>) d).
  - unfold recordUploadCapacityWait. cbv zeta. destruct (_ <=? 0); [done|].
    exact (on_window_preparedAssets windowIndex (λ w, w
      <| w_uploadCapacityWaitDurationMs := w_uploadCapacityWaitDurationMs w + bounded durationMs |>
      <| w_uploadCapacityWaitCount := w_uploadCapacityWaitCount w + 1 |>) d).
  - unfold recordWindowUploadStarted. by rewrite on_window_preparedAssets.
  - unfold recordNativeUploadTiming. by rewrite on_window_preparedAssets.
  - unfold recordTemporaryRelease. by destruct (_ <=? 0).
  - unfold markPreparationComplete. by rewrite queueWrite_preparedAssets.
  - unfold recordUploadWorkerStarted.
    destruct (r_firstUploadStartedElapsedMs (d_report d)); destruct (_ <? _); simpl; by rewrite ?queueWrite_preparedAssets.
  - unfold recordFirstAcknowledgement. destruct (r_firstAcknowledgementElapsedMs _); by rewrite ?queueWrite_preparedAssets.
  - unfold recordFailure. cbn. by destruct (_ <? MAX_FAILURE_DETAILS).
  - unfold recordThermal. case_decide; by rewrite ?queueWrite_preparedAssets.
  - unfold finish. by rewrite queueWrite_preparedAssets.
Qed.

(** Until the end of a transfer its report shows no prepared asset. Every window is
    begun with its number of selected assets before it is checkpointed, so the difference
    the checkpoint adds to preparedAssets is always zero: the total stays 0 while the
    windows of the same report show how many assets were prepared, and a report left behind
    by a crash claims that nothing was. *)
Lemma preparedAssets_stays_zero filesystem now n es d :
  session_calls filesystem (new now n) es = true → run filesystem (new now n) es = Some d →
  r_counts (d_report d) (total_of selectedCount) = 0.
Proof.
  assert (preparedAssets (new now n) = 0) as H0 by done. revert H0. generalize (new now n). clear.
  induction es as [|e es IH]; intros d0 H0 Hcalls Hrun; simpl in *; [by injection Hrun as <-|].
  apply andb_prop in Hcalls as [Hc Hcalls]. destruct (step filesystem d0 e) as [d1|] eqn:Hs; [|done].
  apply (IH d1); try done. rewrite <-H0. destruct e as [c| |ok]; simpl in Hs.
  - injection Hs as <-. by apply session_call_preparedAssets.
  - destruct (d_writer d0); try done. injection Hs as <-. unfold preparedAssets. by rewrite (proj1 (writer_loop_keeps _ _)).
  - destruct (d_writer d0); try done. injection Hs as <-. unfold preparedAssets. by rewrite (proj1 (write_settled_keeps _ _ _ _ _)).
Qed.

(** ** A concrete report *)

Definition sample_checkpoint : Window :=
  {| w_windowIndex := 7; w_status := window_ready;
     w_counts := λ k, match k with selectedCount => 250 | preparedCount => 249 | failedCount => 1
                      | discoveredBytes => 2500 | _ => 0 end;
     w_startedElapsedMs := 0; w_readyElapsedMs := None; w_enqueueCompletedElapsedMs := None;
     w_uploadCapacityWaitDurationMs := 0; w_uploadCapacityWaitCount := 0; w_preparationDurationMs := 9;
     w_filenameDurationMs := 2; w_preflightDurationMs := 5;
     w_preflight := Some {| wp_metrics := λ k, if decide (k = Counter hashedFiles) then 3 else 0;
                            wp_allUploadWorkersIdleMs := 4; wp_queueDepthAtStart := 0; wp_queueDepthAtEnd := 1;
                            wp_activeUploadWorkersAtStart := 0; wp_activeUploadWorkersAtEnd := 0 |};
     w_firstUploadStartedElapsedMs := None; w_uploadTiming := None |}.

Definition sample_events : list event :=
  [ Call (Start 0); WriterRuns; Call (BeginWindow 1 7 250); Call (CheckpointWindow 2 sample_checkpoint);
    WriteSettles true; Call (MarkWindowEnqueued 3 7 2);
    Call (RecordFailure {| df_fileRef := 1; df_stage := stage_metadata; df_code := file_missing; df_retryCount := 0 |}) ].
Definition sample_report : t := default (new 0 250) (run true (new 0 250) sample_events).

Lemma sample_report_run : run true (new 0 250) sample_events = Some sample_report.
Proof.
  unfold sample_report. assert (is_Some (run true (new 0 250) sample_events)) as [d ->]; [|done].
  apply (bool_decide_unpack _). vm_compute. done.
Qed.

Lemma report_totals_are_sums_witness :
  r_counts (d_report sample_report) (total_of preparedCount) = 249
  ∧ NoDup (w_windowIndex <$> r_windows (d_report sample_report)) ∧ totals_ok (d_report sample_report).
Proof.
  split; [vm_compute; reflexivity|].
  exact (report_totals_are_sums true 0 250 sample_events sample_report sample_report_run).
Defined.

Lemma finish_persists_report_witness :
  ∃ d2, run true (finish 9 report_mixed sample_report) [WriteSettles true; WriteSettles true] = Some d2
    ∧ d_stored d2 = Some (d_report (finish 9 report_mixed sample_report)) ∧ d_hasPersistedReport d2 = true.
Proof.
  destruct (finish_persists_report 0 250 sample_events sample_report 9 report_mixed sample_report_run) as [H _].
  destruct (run true (finish 9 report_mixed sample_report) [WriteSettles true; WriteSettles true]) as [d2|] eqn:Hr.
  - exists d2. split; [done|]. refine (H [WriteSettles true; WriteSettles true] d2 _ Hr _); [done|].
    assert (d_writer <$> run true (finish 9 report_mixed sample_report) [WriteSettles true; WriteSettles true]
      = Some Writer_idle) as Hi by (vm_compute; done).
    rewrite Hr in Hi. by injection Hi.
  - exfalso. assert (is_Some (run true (finish 9 report_mixed sample_report) [WriteSettles true; WriteSettles true])) as [d Hd]
      by (apply (bool_decide_unpack _); vm_compute; done). congruence.
Defined.

Lemma preparedAssets_stays_zero_witness :
  window_sum selectedCount (d_report sample_report) = 250
  ∧ r_counts (d_report sample_report) (total_of selectedCount) = 0.
Proof.
  split; [vm_compute; reflexivity|].
  refine (preparedAssets_stays_zero true 0 250 sample_events sample_report _ sample_report_run).
  vm_compute. reflexivity.
Defined.
