(* ===== verification/SelectionStore.v ===== *)
(** * The selection of the media picker ([createSelectionStore] of
      [features/media/hooks/useMediaSelection.ts])

    The store keeps the selected ids in a JavaScript [Set], and for every id with a mounted
    grid item the [Set] of its listeners. Such a listener set is shared: the map of the
    store and the function [subscribe] returned both hold it, and the latter still holds it
    after the map dropped it. So listener sets live in a heap here and are named by their
    address. An operation answers the store, what it returns, and the listeners it called
    in order; a listener only schedules a render, it does not call back. *)

From S2P Require Import Prelude.

(** ** JavaScript sets: iteration in the order of insertion *)

Section jsset.
Context {K : Type} `{EqDecision K}.
Implicit Types (x y : K) (s : list K).

Definition set_has (x : K) (s : list K) : bool := bool_decide (x ∈ s).
Definition set_add (x : K) (s : list K) : list K := if set_has x s then s else s ++ [x].
Definition set_delete (x : K) (s : list K) : list K := filter (λ y, y ≠ x) s.
Definition set_of (l : list K) : list K := foldl (λ s x, set_add x s) [] l.

Lemma set_has_true x s : set_has x s = true ↔ x ∈ s.
Proof. apply bool_decide_eq_true. Qed.

Lemma set_has_false x s : set_has x s = false ↔ x ∉ s.
Proof. apply bool_decide_eq_false. Qed.

Lemma elem_set_add y x s : y ∈ set_add x s ↔ y = x ∨ y ∈ s.
Proof. unfold set_add, set_has. case_bool_decide; [|rewrite elem_of_app, list_elem_of_singleton]; naive_solver. Qed.

Lemma elem_set_delete y x s : y ∈ set_delete x s ↔ y ≠ x ∧ y ∈ s.
Proof. unfold set_delete. by rewrite list_elem_of_filter. Qed.

Lemma set_add_NoDup x s : NoDup s → NoDup (set_add x s).
Proof.
  intros Hs. unfold set_add, set_has. case_bool_decide; [done|]. apply NoDup_app.
  split; [done|]. split; [|apply NoDup_singleton]. by intros y Hy ->%list_elem_of_singleton.
Qed.

Lemma set_delete_NoDup x s : NoDup s → NoDup (set_delete x s).
Proof. apply NoDup_filter. Qed.

Lemma set_delete_id x s : x ∉ s → set_delete x s = s.
Proof.
  intros Hx. unfold set_delete. induction s as [|y s IH]; [done|]. rewrite filter_cons.
  apply not_elem_of_cons in Hx as [Hy Hx]. rewrite decide_True by done. by rewrite IH.
Qed.

Lemma elem_set_of_aux l : ∀ s y, y ∈ foldl (λ s x, set_add x s) s l ↔ y ∈ s ∨ y ∈ l.
Proof.
  induction l as [|x l IH]; intros s y; simpl; [rewrite elem_of_nil; naive_solver|].
  rewrite IH, elem_set_add, elem_of_cons. naive_solver.
Qed.

Lemma elem_set_of y l : y ∈ set_of l ↔ y ∈ l.
Proof. unfold set_of. rewrite elem_set_of_aux, elem_of_nil. naive_solver. Qed.

Lemma set_of_NoDup l : NoDup (set_of l).
Proof. unfold set_of. apply foldl_invariant; [intros; by apply set_add_NoDup|constructor]. Qed.

Lemma foldl_set_add_fresh l : ∀ s, NoDup (s ++ l) → foldl (λ s x, set_add x s) s l = s ++ l.
Proof.
  induction l as [|x l IH]; intros s Hnd; simpl; [by rewrite app_nil_r|].
  assert (set_add x s = s ++ [x]) as ->.
  { unfold set_add. apply NoDup_app in Hnd as (_ & Hd & _). destruct (set_has x s) eqn:Hx; [|done].
    apply set_has_true in Hx. destruct (Hd x Hx). left. }
  rewrite IH; rewrite <-app_assoc; done.
Qed.

Lemma set_of_fresh l : NoDup l → set_of l = l.
Proof. apply (foldl_set_add_fresh l []). Qed.
End jsset.

(** ** JavaScript maps with string keys: an association list in the order of insertion *)

Section jsmap.
Context {V : Type}.
Implicit Types (id : string) (a : V) (m : list (string * V)).

Fixpoint map_get (id : string) (m : list (string * V)) : option V :=
  match m with
  | [] => None
  | (k, a) :: m => if decide (k = id) then Some a else map_get id m
  end.
Definition map_delete (id : string) (m : list (string * V)) : list (string * V) :=
  filter (λ e, e.1 ≠ id) m.
(** [m.set(id, a)]: an existing key keeps its place. *)
Definition map_set (id : string) (a : V) (m : list (string * V)) : list (string * V) :=
  match map_get id m with
  | Some _ => (λ e, if decide (e.1 = id) then (id, a) else e) <$> m
  | None => m ++ [(id, a)]
  end.

Lemma map_get_keys id m : id ∈ m.*1 ↔ is_Some (map_get id m).
Proof.
  induction m as [|[k a] m IH]; simpl; [rewrite elem_of_nil; split; [done|by intros []]|].
  rewrite elem_of_cons. destruct (decide (k = id)) as [->|Hne]; [split; [by eexists|by left]|].
  rewrite <-IH. naive_solver.
Qed.

Lemma map_get_app id m m2 :
  map_get id (m ++ m2) = match map_get id m with Some a => Some a | None => map_get id m2 end.
Proof. induction m as [|[k a] m IH]; simpl; [done|]. by destruct (decide (k = id)). Qed.

Lemma map_get_fmap id id' a m :
  map_get id' ((λ e : string * V, if decide (e.1 = id) then (id, a) else e) <$> m) =
  if decide (id' = id) then match map_get id m with Some _ => Some a | None => None end else map_get id' m.
Proof.
  induction m as [|[k b] m IH]; [simpl; by destruct (decide _)|]. rewrite fmap_cons. cbn [fst map_get].
  destruct (decide (k = id)) as [->|Hk]; cbn [map_get]; rewrite IH.
  - destruct (decide (id = id')) as [->|Hne]; [by rewrite !decide_True by done|]. by rewrite !decide_False by done.
  - destruct (decide (k = id')) as [->|Hk']; [by rewrite decide_False by done|]. done.
Qed.

Lemma map_get_set id id' a m :
  map_get id' (map_set id a m) = if decide (id' = id) then Some a else map_get id' m.
Proof.
  unfold map_set. destruct (map_get id m) as [b|] eqn:Hb.
  - rewrite map_get_fmap, Hb. done.
  - rewrite map_get_app. simpl. destruct (decide (id' = id)) as [->|Hne].
    + rewrite Hb. by rewrite decide_True by done.
    + rewrite decide_False by done. by destruct (map_get id' m).
Qed.

Lemma map_get_delete id id' m :
  map_get id' (map_delete id m) = if decide (id' = id) then None else map_get id' m.
Proof.
  unfold map_delete. induction m as [|[k b] m IH]; [by destruct (decide _)|]. rewrite filter_cons. simpl.
  destruct (decide (k ≠ id)) as [Hk|Hk]; simpl.
  - rewrite IH. destruct (decide (k = id')) as [->|]; [by rewrite decide_False by done|done].
  - rewrite IH. apply dec_stable in Hk as ->. destruct (decide (id' = id)) as [->|]; [done|]. by rewrite decide_False by done.
Qed.

Lemma map_set_NoDup id a m : NoDup m.*1 → NoDup (map_set id a m).*1.
Proof.
  intros Hm. unfold map_set. destruct (map_get id m) as [b|] eqn:Hb.
  - assert (((λ e : string * V, if decide (e.1 = id) then (id, a) else e) <$> m).*1 = m.*1) as ->; [|done].
    rewrite <-list_fmap_compose. apply list_fmap_ext. intros i [k c] _. simpl. by destruct (decide (k = id)).
  - rewrite fmap_app. apply NoDup_app. split; [done|]. split; [|apply NoDup_singleton].
    intros k Hk ->%list_elem_of_singleton. simpl in Hk. apply map_get_keys in Hk as [? Hk]. congruence.
Qed.

Lemma map_delete_NoDup id m : NoDup m.*1 → NoDup (map_delete id m).*1.
Proof.
  unfold map_delete. induction m as [|[k b] m IH]; [done|]. rewrite filter_cons. simpl. intros [Hk Hm]%NoDup_cons.
  destruct (decide (k ≠ id)); [|by apply IH]. simpl. apply NoDup_cons. split; [|by apply IH].
  intros Hin. apply Hk. apply list_elem_of_fmap in Hin as (e & -> & He). apply list_elem_of_filter in He as [_ He].
  by apply list_elem_of_fmap_2.
Qed.

Lemma map_get_list_to_map id m : map_get id m = (list_to_map m : gmap string V) !! id.
Proof.
  induction m as [|[k a] m IH]; simpl; [done|]. destruct (decide (k = id)) as [->|Hne]; [by rewrite lookup_insert_eq|].
  by rewrite lookup_insert_ne by done.
Qed.
End jsmap.

(** ** The store *)

Module SelectionStore.

(** A listener is named by its subscriber. *)
Notation listener := nat (only parsing).
Notation address := nat (only parsing).

(* src: features/media/hooks/useMediaSelection.ts:140-142 [createSelectionStore] *)
Record t := {
  selectedIds : list string;
  listeners : list (string * address);    (** the map, in the order of insertion *)
  entries : list (list listener) }.       (** the heap of listener sets *)

#[export] Instance t_eta : Eta t := λ s, Build_t (selectedIds s) (listeners s) (entries s).

Definition new : t := {| selectedIds := []; listeners := []; entries := [] |}.

(** [listeners.get(id) ?? []], as the listeners in order. *)
Definition listeners_of (s : t) (id : string) : list listener :=
  match map_get id (listeners s) with
  | Some a => default [] (entries s !! a)
  | None => []
  end.

(* src: features/media/hooks/useMediaSelection.ts:144-153 [notify] *)
Definition notify (s : t) (ids : list string) : list listener :=
  set_of (ids ≫= listeners_of s).

(* src: features/media/hooks/useMediaSelection.ts:155-161 [changedSubscribedIds] *)
Definition changedSubscribedIds (s : t) (previous next : list string) : list string :=
  set_of (filter (λ id, set_has id previous ≠ set_has id next) (listeners s).*1).

(* src: features/media/hooks/useMediaSelection.ts:164-164 [isSelected] *)
Definition isSelected (s : t) (id : string) : bool := set_has id (selectedIds s).

(** The function [subscribe] returns: the id, the listener set and the listener it holds. *)
Record unsubscribe_fn := { u_id : string; u_entry : address; u_listener : listener }.

(* src: features/media/hooks/useMediaSelection.ts:165-168 [subscribe] *)
Definition subscribe (s : t) (id : string) (l : listener) : t * unsubscribe_fn :=
  let '(a, heap) := match map_get id (listeners s) with
                    | Some a => (a, entries s)
                    | None => (length (entries s), entries s ++ [[]])
                    end in
  (s <| entries := alter (set_add l) a heap |> <| listeners := map_set id a (listeners s) |>,
   {| u_id := id; u_entry := a; u_listener := l |}).

(* src: features/media/hooks/useMediaSelection.ts:169-172 [subscribe] *)
Definition unsubscribe (s : t) (u : unsubscribe_fn) : t :=
  let heap := alter (set_delete (u_listener u)) (u_entry u) (entries s) in
  let s := s <| entries := heap |> in
  if decide (heap !! u_entry u = Some []) then s <| listeners := map_delete (u_id u) (listeners s) |> else s.

(* src: features/media/hooks/useMediaSelection.ts:174-178 [toggle] *)
Definition toggle (s : t) (id : string) : t * nat * list listener :=
  let s := s <| selectedIds := if set_has id (selectedIds s) then set_delete id (selectedIds s)
                               else set_add id (selectedIds s) |> in
  (s, length (selectedIds s), notify s [id]).

(** The loop body of [update]. *)
(* src: features/media/hooks/useMediaSelection.ts:181-187 [update] *)
Definition update_entry (acc : list string * list string) (entry : string * bool) : list string * list string :=
  let '(ids, changed) := acc in
  let '(id, shouldSelect) := entry in
  if bool_decide (set_has id ids = shouldSelect) then (ids, changed)
  else ((if shouldSelect then set_add id ids else set_delete id ids), changed ++ [id]).

(* src: features/media/hooks/useMediaSelection.ts:179-190 [update] *)
Definition update (s : t) (updates : list (string * bool)) : t * nat * list listener :=
  let '(ids, changed) := foldl update_entry (selectedIds s, []) updates in
  let s := s <| selectedIds := ids |> in
  (s, length ids, notify s changed).

(* src: features/media/hooks/useMediaSelection.ts:191-197 [replace] *)
Definition replace (s : t) (next : list string) : t * nat * list listener :=
  let changed := changedSubscribedIds s (selectedIds s) next in
  let s := s <| selectedIds := set_of next |> in
  (s, length (selectedIds s), notify s changed).

(* src: features/media/hooks/useMediaSelection.ts:198-203 [clear] *)
Definition clear (s : t) : t * nat * list listener :=
  let changed := filter (λ id, id ∈ selectedIds s) (listeners s).*1 in
  let s := s <| selectedIds := [] |> in
  (s, 0%nat, notify s changed).

(* src: features/media/hooks/useMediaSelection.ts:204-204 [getSelectedIds] *)
Definition getSelectedIds (s : t) : list string := selectedIds s.

(** ** Mounted items: who is subscribed

    A grid item subscribes when it is mounted, under a listener of its own, and calls what
    [subscribe] returned once, when it is unmounted. *)

Record mounted := { store : t; items : list unsubscribe_fn }.

Inductive op :=
  | Mount (id : string) (l : listener)
  | Unmount (l : listener)
  | Toggle (id : string)
  | Update (updates : list (string * bool))
  | Replace (next : list string)
  | Clear.

Definition fresh_listener (m : mounted) (l : listener) : bool := negb (set_has l (u_listener <$> items m)).

(** An operation changes the store and tells which listeners it called. [None]: the
    operation is outside the protocol, a second mount under the same listener or updates
    that name an id twice (the caller passes a [Map]). *)
Definition perform (m : mounted) (o : op) : option (mounted * list listener) :=
  match o with
  | Mount id l =>
      if fresh_listener m l then
        let '(s, u) := subscribe (store m) id l in Some ({| store := s; items := items m ++ [u] |}, [])
      else None
  | Unmount l =>
      match list_find (λ u, u_listener u = l) (items m) with
      | Some (_, u) => Some ({| store := unsubscribe (store m) u; items := filter (λ u, u_listener u ≠ l) (items m) |}, [])
      | None => None
      end
  | Toggle id => let '(s, _, called) := toggle (store m) id in Some ({| store := s; items := items m |}, called)
  | Update updates =>
      if bool_decide (NoDup updates.*1) then
        let '(s, _, called) := update (store m) updates in Some ({| store := s; items := items m |}, called)
      else None
  | Replace next => let '(s, _, called) := replace (store m) next in Some ({| store := s; items := items m |}, called)
  | Clear => let '(s, _, called) := clear (store m) in Some ({| store := s; items := items m |}, called)
  end.

Fixpoint perform_all (m : mounted) (ops : list op) : option mounted :=
  match ops with
  | [] => Some m
  | o :: ops => match perform m o with Some (m, _) => perform_all m ops | None => None end
  end.

Definition unmounted : mounted := {| store := new; items := [] |}.

(** ** Who is called *)

Record store_ok (m : mounted) : Prop := {
  sk_selected : NoDup (selectedIds (store m));
  sk_items : NoDup (u_listener <$> items m);
  sk_keys : NoDup (listeners (store m)).*1;
  sk_entry id a : map_get id (listeners (store m)) = Some a →
    ∃ ls, entries (store m) !! a = Some ls ∧ ls ≠ []
          ∧ ∀ l, l ∈ ls ↔ ∃ u, u ∈ items m ∧ u_id u = id ∧ u_listener u = l;
  sk_mounted u : u ∈ items m → map_get (u_id u) (listeners (store m)) = Some (u_entry u) }.

Lemma listeners_of_spec m id l :
  store_ok m → l ∈ listeners_of (store m) id ↔ ∃ u, u ∈ items m ∧ u_id u = id ∧ u_listener u = l.
Proof.
  intros Hok. unfold listeners_of. destruct (map_get id (listeners (store m))) as [a|] eqn:Ha.
  - destruct (sk_entry m Hok _ _ Ha) as (ls & -> & _ & Hls). apply Hls.
  - rewrite elem_of_nil. split; [done|]. intros (u & Hu & <- & _). apply (sk_mounted m Hok) in Hu. congruence.
Qed.

Lemma notify_spec m ids l :
  store_ok m → l ∈ notify (store m) ids ↔ ∃ u, u ∈ items m ∧ u_listener u = l ∧ u_id u ∈ ids.
Proof.
  intros Hok. unfold notify. rewrite elem_set_of, list_elem_of_bind. split.
  - intros (id & Hl & Hid). apply (listeners_of_spec m id l Hok) in Hl as (u & Hu & <- & <-). eauto.
  - intros (u & Hu & <- & Hid). exists (u_id u). split; [|done]. apply (listeners_of_spec m _ _ Hok). eauto.
Qed.

(** The ids with a listener are those of the mounted items. *)
Lemma subscribed_spec m id : store_ok m → id ∈ (listeners (store m)).*1 ↔ ∃ u, u ∈ items m ∧ u_id u = id.
Proof.
  intros Hok. rewrite map_get_keys. split.
  - intros [a Ha]. destruct (sk_entry m Hok _ _ Ha) as ([|l ls] & _ & Hne & Hls); [done|].
    destruct (proj1 (Hls l)) as (u & Hu & Hid & _); [left|eauto].
  - intros (u & Hu & <-). by rewrite (sk_mounted m Hok _ Hu).
Qed.

(** Changing the selected ids alone keeps the subscriptions. *)
Lemma store_ok_select m s :
  store_ok m → NoDup (selectedIds s) → listeners s = listeners (store m) → entries s = entries (store m) →
  store_ok {| store := s; items := items m |}.
Proof. intros [H1 H2 H3 H4 H5] Hs Hl He. split; simpl; rewrite ?Hl, ?He; done. Qed.

Lemma listener_inj m u u' :
  store_ok m → u ∈ items m → u' ∈ items m → u_listener u = u_listener u' → u = u'.
Proof.
  intros Hok [i Hi]%list_elem_of_lookup [j Hj]%list_elem_of_lookup Heq.
  assert (i = j) as <-; [|congruence]. apply (NoDup_lookup _ _ _ (u_listener u) (sk_items m Hok)).
  - by rewrite list_lookup_fmap, Hi.
  - by rewrite list_lookup_fmap, Hj, Heq.
Qed.

Lemma entry_inj m id id' a :
  store_ok m → map_get id (listeners (store m)) = Some a → map_get id' (listeners (store m)) = Some a → id = id'.
Proof.
  intros Hok H1 H2. destruct (sk_entry m Hok _ _ H1) as ([|l ls] & Ha & Hne & Hls); [done|].
  destruct (sk_entry m Hok _ _ H2) as (ls' & Ha' & _ & Hls'). rewrite Ha in Ha'. injection Ha' as <-.
  destruct (proj1 (Hls l)) as (u & Hu & <- & Hul); [left|]. destruct (proj1 (Hls' l)) as (u' & Hu' & <- & Hul'); [left|].
  by rewrite (listener_inj m u u') by congruence.
Qed.

(** The entry [subscribe] finds or makes, before the listener is added. *)
Definition entry_for (s : t) (id : string) : address * list (list listener) :=
  match map_get id (listeners s) with
  | Some a => (a, entries s)
  | None => (length (entries s), entries s ++ [[]])
  end.

Lemma entry_for_spec m id :
  store_ok m →
  ∃ ls, (entry_for (store m) id).2 !! (entry_for (store m) id).1 = Some ls
        ∧ (∀ l, l ∈ ls ↔ ∃ u, u ∈ items m ∧ u_id u = id ∧ u_listener u = l)
        ∧ (∀ id' a, id' ≠ id → map_get id' (listeners (store m)) = Some a →
             a ≠ (entry_for (store m) id).1 ∧ (entry_for (store m) id).2 !! a = entries (store m) !! a)
        ∧ (∀ a, map_get id (listeners (store m)) = Some a → a = (entry_for (store m) id).1).
Proof.
  intros Hok. unfold entry_for. destruct (map_get id (listeners (store m))) as [a|] eqn:Ha; simpl.
  - destruct (sk_entry m Hok _ _ Ha) as (ls & Hl & _ & Hls). exists ls. split; [done|]. split; [done|]. split; [|congruence].
    intros id' a' Hne Ha'. split; [|done]. intros ->. by apply Hne, (entry_inj m id' id a).
  - exists []. split; [by rewrite lookup_app_r, Nat.sub_diag by lia|]. split; [|split; [|done]].
    + intros l. rewrite elem_of_nil. split; [done|]. intros (u & Hu & <- & _). apply (sk_mounted m Hok) in Hu. congruence.
    + intros id' a' Hne Ha'. destruct (sk_entry m Hok _ _ Ha') as (ls & Hl & _). pose proof (lookup_lt_Some _ _ _ Hl).
      split; [lia|]. by apply lookup_app_l.
Qed.

Lemma subscribe_ok m id l s u :
  store_ok m → l ∉ u_listener <$> items m → subscribe (store m) id l = (s, u) →
  store_ok {| store := s; items := items m ++ [u] |} ∧ selectedIds s = selectedIds (store m).
Proof.
  intros Hok Hl Hs. destruct (entry_for_spec m id Hok) as (ls & Ha & Hls & Hother & Hsame).
  unfold subscribe in Hs. fold (entry_for (store m) id) in Hs. destruct (entry_for (store m) id) as [a heap]. simpl in *.
  injection Hs as <- <-. split; [|done]. split; simpl.
  - apply Hok.
  - rewrite fmap_app. apply NoDup_app. split; [apply Hok|]. split; [|apply NoDup_singleton].
    intros x Hx ->%list_elem_of_singleton. done.
  - apply map_set_NoDup, Hok.
  - intros id' a'. rewrite map_get_set. destruct (decide (id' = id)) as [->|Hne].
    + intros [= <-]. exists (set_add l ls). split; [by rewrite list_lookup_alter_eq, Ha|]. split.
      { unfold set_add. intros Hnil. assert (l ∈ @nil nat); [|by apply not_elem_of_nil in H]. rewrite <-Hnil. by apply elem_set_add; left. }
      intros l'. rewrite elem_set_add, Hls. split.
      * intros [->|(u & Hu & <- & <-)]; [eexists; split; [apply elem_of_app; right; left|done]|].
        exists u. split; [apply elem_of_app; by left|done].
      * intros (u & [Hu| ->%list_elem_of_singleton]%elem_of_app & Hid & <-); [right; eauto|by left].
    + intros Ha'. destruct (Hother id' a' Hne Ha') as [Hna Heq]. destruct (sk_entry m Hok _ _ Ha') as (ls' & Hl' & Hnil & Hls').
      exists ls'. rewrite list_lookup_alter_ne by done. rewrite Heq. split; [done|]. split; [done|]. intros l'. rewrite Hls'. split.
      * intros (u & Hu & <- & <-). exists u. split; [apply elem_of_app; by left|done].
      * intros (u & [Hu| ->%list_elem_of_singleton]%elem_of_app & Hid & <-); [eauto|]. simpl in Hid. congruence.
  - intros u [Hu| ->%list_elem_of_singleton]%elem_of_app; rewrite map_get_set; simpl; [|by rewrite decide_True by done].
    destruct (decide (u_id u = id)) as [Heq|]; [|by apply Hok]. f_equal. symmetry. apply Hsame. rewrite <-Heq. by apply Hok.
Qed.

Lemma unsubscribe_ok m u :
  store_ok m → u ∈ items m →
  store_ok {| store := unsubscribe (store m) u; items := filter (λ v, u_listener v ≠ u_listener u) (items m) |}
  ∧ selectedIds (unsubscribe (store m) u) = selectedIds (store m).
Proof.
  intros Hok Hu. pose proof (sk_mounted m Hok u Hu) as Ha. destruct (sk_entry m Hok _ _ Ha) as (ls & Hl & Hnil & Hls).
  assert (∀ l, l ∈ set_delete (u_listener u) ls ↔
    ∃ v, v ∈ filter (λ v, u_listener v ≠ u_listener u) (items m) ∧ u_id v = u_id u ∧ u_listener v = l) as Hdel.
  { intros l. rewrite elem_set_delete, Hls. split.
    - intros (Hne & v & Hv & Hid & <-). exists v. by rewrite list_elem_of_filter.
    - intros (v & [Hne Hv]%list_elem_of_filter & Hid & <-). eauto. }
  assert (∀ id a, id ≠ u_id u → map_get id (listeners (store m)) = Some a →
    ∃ ls', alter (set_delete (u_listener u)) (u_entry u) (entries (store m)) !! a = Some ls' ∧ ls' ≠ []
     ∧ ∀ l, l ∈ ls' ↔ ∃ v, v ∈ filter (λ v, u_listener v ≠ u_listener u) (items m) ∧ u_id v = id ∧ u_listener v = l) as Hother.
  { intros id a Hne Hid. destruct (sk_entry m Hok _ _ Hid) as (ls' & Hl' & Hnil' & Hls').
    exists ls'. rewrite list_lookup_alter_ne by (intros <-; by apply Hne, (entry_inj m id (u_id u) (u_entry u))).
    split; [done|]. split; [done|]. intros l. rewrite Hls'. split.
    - intros (v & Hv & <- & <-). exists v. rewrite list_elem_of_filter. split; [split; [|done]|done].
      intros Heq. apply Hne. by rewrite (listener_inj m v u).
    - intros (v & [_ Hv]%list_elem_of_filter & ? & ?). eauto. }
  assert (NoDup (u_listener <$> filter (λ v, u_listener v ≠ u_listener u) (items m))) as Hnd.
  { apply NoDup_fmap_filter, Hok. }
  unfold unsubscribe. cbn -[alter filter]. rewrite list_lookup_alter_eq, Hl. cbn -[filter alter].
  destruct (decide (Some (set_delete (u_listener u) ls) = Some [])) as [Heq|Hne]; (split; [|done]); split; simpl; try done; try apply Hok.
  - apply map_delete_NoDup, Hok.
  - intros id a. rewrite map_get_delete. destruct (decide (id = u_id u)); [done|]. by apply Hother.
  - intros v [Hne Hv]%list_elem_of_filter. rewrite map_get_delete, decide_False; [by apply Hok|].
    intros Hid. injection Heq as Heq. assert (u_listener v ∈ @nil nat) as Hin; [|by apply elem_of_nil in Hin].
    rewrite <-Heq. apply Hdel. exists v. by rewrite list_elem_of_filter.
  - intros id a Hid. destruct (decide (id = u_id u)) as [->|Hne']; [|by apply Hother].
    rewrite Ha in Hid. injection Hid as <-. exists (set_delete (u_listener u) ls).
    rewrite list_lookup_alter_eq, Hl. split; [done|]. split; [congruence|done].
  - intros v [_ Hv]%list_elem_of_filter. by apply Hok.
Qed.

(** ** What the operations select *)

(** What an operation means for the selection. *)
Definition after (o : op) (was : string → bool) (id : string) : bool :=
  match o with
  | Mount _ _ | Unmount _ => was id
  | Toggle k => if decide (id = k) then negb (was id) else was id
  | Update updates => default (was id) ((list_to_map updates : gmap string bool) !! id)
  | Replace next => set_has id next
  | Clear => false
  end.

Lemma set_has_ext {K} `{EqDecision K} (x : K) s s' : (x ∈ s ↔ x ∈ s') → set_has x s = set_has x s'.
Proof. intros H. unfold set_has. by apply bool_decide_ext. Qed.

Lemma has_toggle (ids : list string) k id :
  set_has id (if set_has k ids then set_delete k ids else set_add k ids) =
  if decide (id = k) then negb (set_has id ids) else set_has id ids.
Proof.
  destruct (decide (id = k)) as [->|Hne].
  - destruct (set_has k ids) eqn:Hk; simpl; [apply set_has_false; rewrite elem_set_delete; naive_solver|].
    apply set_has_true. rewrite elem_set_add. by left.
  - apply set_has_ext. destruct (set_has k ids); rewrite ?elem_set_delete, ?elem_set_add; naive_solver.
Qed.

Lemma update_entries_spec updates : ∀ ids changed,
  NoDup updates.*1 → NoDup ids →
  let '(ids', changed') := foldl update_entry (ids, changed) updates in
  NoDup ids'
  ∧ (∀ id, set_has id ids' = default (set_has id ids) ((list_to_map updates : gmap string bool) !! id))
  ∧ (∀ id, id ∈ changed' ↔ id ∈ changed ∨ set_has id ids ≠ set_has id ids').
Proof.
  induction updates as [|[k b] updates IH]; intros ids changed Hnd Hids; simpl; [naive_solver|].
  apply NoDup_cons in Hnd as [Hk Hnd]. simpl in Hk.
  assert ((list_to_map updates : gmap string bool) !! k = None) as Hnone by (by apply not_elem_of_list_to_map_1).
  case_bool_decide as Hsame.
  - specialize (IH ids changed Hnd Hids). destruct (foldl update_entry (ids, changed) updates) as [ids' changed'].
    destruct IH as (H1 & H2 & H3). split; [done|]. split; [|done]. intros id. rewrite H2.
    destruct (decide (id = k)) as [->|Hne]; [|by rewrite lookup_insert_ne by done].
    by rewrite lookup_insert_eq, Hnone.
  - set (ids1 := if b then set_add k ids else set_delete k ids).
    assert (NoDup ids1) as Hids1 by (subst ids1; destruct b; auto using set_add_NoDup, set_delete_NoDup).
    assert (∀ id, set_has id ids1 = if decide (id = k) then b else set_has id ids) as Hids1'.
    { intros id. subst ids1. destruct (decide (id = k)) as [->|Hne].
      - destruct b; [apply set_has_true, elem_set_add; by left|apply set_has_false; rewrite elem_set_delete; naive_solver].
      - apply set_has_ext. destruct b; rewrite ?elem_set_delete, ?elem_set_add; naive_solver. }
    specialize (IH ids1 (changed ++ [k]) Hnd Hids1). destruct (foldl update_entry (ids1, changed ++ [k]) updates) as [ids' changed'].
    destruct IH as (H1 & H2 & H3). split; [done|].
    assert (∀ id, set_has id ids' = default (set_has id ids) ((<[k:=b]> (list_to_map updates) : gmap string bool) !! id)) as H2'.
    { intros id. rewrite H2, Hids1'. destruct (decide (id = k)) as [->|Hne]; [|by rewrite lookup_insert_ne by done].
      by rewrite lookup_insert_eq, Hnone. }
    split; [done|]. intros id. rewrite H3, Hids1', elem_of_app, list_elem_of_singleton, H2'.
    destruct (decide (id = k)) as [->|Hne]; [rewrite lookup_insert_eq; simpl; naive_solver|].
    rewrite lookup_insert_ne by done. naive_solver.
Qed.

(** Every operation keeps the subscriptions, and calls the listeners of what it changed. *)
Definition called_exactly (m : mounted) (s : t) (called : list listener) : Prop :=
  NoDup called ∧ ∀ l, l ∈ called ↔
    ∃ u, u ∈ items m ∧ u_listener u = l ∧ isSelected (store m) (u_id u) ≠ isSelected s (u_id u).

Lemma selects m o s ids :
  store_ok m → NoDup (selectedIds s) → listeners s = listeners (store m) → entries s = entries (store m) →
  (∀ k, isSelected s k = after o (isSelected (store m)) k) →
  (∀ u, u ∈ items m → u_id u ∈ ids ↔ isSelected (store m) (u_id u) ≠ isSelected s (u_id u)) →
  store_ok {| store := s; items := items m |} ∧ (∀ k, isSelected s k = after o (isSelected (store m)) k)
  ∧ called_exactly m s (notify s ids).
Proof.
  intros Hok Hs Hl He Hafter Hids. pose proof (store_ok_select m s Hok Hs Hl He) as Hok'. split; [done|]. split; [done|].
  split; [apply set_of_NoDup|]. intros l. change s with (store {| store := s; items := items m |}) at 1.
  rewrite notify_spec by done. simpl. split; intros (u & Hu & <- & Hid); exists u; (split; [done|]); (split; [done|]); by apply Hids.
Qed.

Lemma toggle_ok m id s n called :
  store_ok m → toggle (store m) id = (s, n, called) →
  store_ok {| store := s; items := items m |} ∧ (∀ k, isSelected s k = after (Toggle id) (isSelected (store m)) k)
  ∧ called_exactly m s called.
Proof.
  intros Hok [= <- <- <-]. apply selects; try done.
  - simpl. destruct (set_has _ _); [apply set_delete_NoDup, Hok|apply set_add_NoDup, Hok].
  - intros k. apply has_toggle.
  - intros u _. unfold isSelected. simpl. rewrite has_toggle, list_elem_of_singleton.
    destruct (decide (u_id u = id)); destruct (set_has (u_id u) _); naive_solver.
Qed.

Lemma update_ok m updates s n called :
  store_ok m → NoDup updates.*1 → update (store m) updates = (s, n, called) →
  store_ok {| store := s; items := items m |} ∧ (∀ k, isSelected s k = after (Update updates) (isSelected (store m)) k)
  ∧ called_exactly m s called.
Proof.
  intros Hok Hnd. unfold update. pose proof (update_entries_spec updates (selectedIds (store m)) [] Hnd (sk_selected m Hok)) as Hspec.
  destruct (foldl update_entry _ updates) as [ids changed]. destruct Hspec as (H1 & H2 & H3). intros [= <- <- <-].
  apply selects; try done. intros u _. rewrite H3, elem_of_nil. naive_solver.
Qed.

Lemma replace_ok m next s n called :
  store_ok m → replace (store m) next = (s, n, called) →
  store_ok {| store := s; items := items m |} ∧ (∀ k, isSelected s k = after (Replace next) (isSelected (store m)) k)
  ∧ called_exactly m s called.
Proof.
  intros Hok [= <- <- <-].
  assert (∀ k, set_has k (set_of next) = set_has k next) as Hof by (intros k; apply set_has_ext, elem_set_of).
  apply selects; try done; [apply set_of_NoDup|].
  intros u Hu. unfold changedSubscribedIds. rewrite elem_set_of, list_elem_of_filter.
  change (isSelected (_ <| selectedIds := _ |>) (u_id u)) with (set_has (u_id u) (set_of next)). rewrite Hof.
  assert (u_id u ∈ (listeners (store m)).*1) by (apply subscribed_spec; eauto). naive_solver.
Qed.

Lemma clear_ok m s n called :
  store_ok m → clear (store m) = (s, n, called) →
  store_ok {| store := s; items := items m |} ∧ (∀ k, isSelected s k = after Clear (isSelected (store m)) k)
  ∧ called_exactly m s called.
Proof.
  intros Hok [= <- <- <-]. apply selects; try done; [constructor|].
  intros u Hu. rewrite list_elem_of_filter.
  change (isSelected (_ <| selectedIds := _ |>) (u_id u)) with false. unfold isSelected.
  assert (u_id u ∈ (listeners (store m)).*1) by (apply subscribed_spec; eauto).
  rewrite not_false_iff_true, set_has_true. naive_solver.
Qed.

(** Mounting and unmounting select nothing and call nobody. *)
Lemma silent m s vs :
  store_ok {| store := s; items := vs |} → selectedIds s = selectedIds (store m) →
  store_ok {| store := s; items := vs |} ∧ (∀ k, isSelected s k = isSelected (store m) k) ∧ called_exactly m s [].
Proof.
  intros Hok Hsel. split; [done|]. unfold called_exactly, isSelected. rewrite Hsel. split; [done|]. split; [constructor|].
  intros l. rewrite elem_of_nil. naive_solver.
Qed.

Lemma perform_ok m o m' called :
  store_ok m → perform m o = Some (m', called) →
  store_ok m' ∧ (∀ k, isSelected (store m') k = after o (isSelected (store m)) k) ∧ called_exactly m (store m') called.
Proof.
  intros Hok. destruct o as [id l|l|id|updates|next|]; simpl.
  - destruct (fresh_listener m l) eqn:Hl; [|done]. apply negb_true_iff, set_has_false in Hl.
    destruct (subscribe (store m) id l) as [s u] eqn:Hs. intros [= <- <-]. simpl.
    destruct (subscribe_ok m id l s u Hok Hl Hs). by apply silent.
  - destruct (list_find _ (items m)) as [[i u]|] eqn:Hfind; [|done]. intros [= <- <-]. simpl.
    apply list_find_Some in Hfind as (Hi & <- & _). apply list_elem_of_lookup_2 in Hi.
    destruct (unsubscribe_ok m u Hok Hi). by apply silent.
  - destruct (toggle (store m) id) as [[s n] c] eqn:Hs. intros [= <- <-]. by eapply toggle_ok.
  - case_bool_decide; [|done]. destruct (update (store m) updates) as [[s n] c] eqn:Hs. intros [= <- <-]. by eapply update_ok.
  - destruct (replace (store m) next) as [[s n] c] eqn:Hs. intros [= <- <-]. by eapply replace_ok.
  - destruct (clear (store m)) as [[s n] c] eqn:Hs. intros [= <- <-]. by eapply clear_ok.
Qed.

Lemma unmounted_ok : store_ok unmounted.
Proof. split; try constructor; try done. by intros u ?%elem_of_nil. Qed.

Lemma perform_all_ok ops : ∀ m m', store_ok m → perform_all m ops = Some m' → store_ok m'.
Proof.
  induction ops as [|o ops IH]; intros m m' Hok; simpl; [by intros [= <-]|].
  destruct (perform m o) as [[m1 called]|] eqn:Ho; [|done]. apply IH. by apply (perform_ok m o m1 called).
Qed.

(** The selection store is a set of ids with exact change notification. Whatever was
    mounted, unmounted and selected before, an operation selects what its meaning says, keeps
    each id once, and calls exactly the listeners of the mounted items whose selection it
    changed, each once: an item that was unmounted is never called, though the function its
    mount returned shares the listener set with later mounts of the same id. *)
Lemma selection_notifies_exactly ops o m m' called :
  perform_all unmounted ops = Some m → perform m o = Some (m', called) →
  NoDup (selectedIds (store m'))
  ∧ (∀ id, isSelected (store m') id = after o (isSelected (store m)) id)
  ∧ NoDup called
  ∧ ∀ l, l ∈ called ↔ ∃ u, u ∈ items m ∧ u_listener u = l
                           ∧ isSelected (store m) (u_id u) ≠ isSelected (store m') (u_id u).
Proof.
  intros Hm Ho. pose proof (perform_all_ok ops _ _ unmounted_ok Hm) as Hok.
  destruct (perform_ok m o m' called Hok Ho) as (Hok' & Hafter & Hnd & Hcalled).
  split; [apply Hok'|]. done.
Qed.

(** Two items of the same asset and one of another; the first is unmounted; then a drag
    selects both assets. *)
Definition sample_ops : list op :=
  [Mount "a" 1; Mount "a" 2; Mount "b" 3; Toggle "b"; Unmount 1].

Lemma selection_notifies_exactly_witness :
  ∃ m m', perform_all unmounted sample_ops = Some m
    ∧ perform m (Update [("a", true); ("b", true); ("c", true)]) = Some (m', [2%nat])
    ∧ selectedIds (store m') = ["b"; "a"; "c"] ∧ NoDup (selectedIds (store m')).
Proof.
  eexists. eexists. split; [vm_compute; reflexivity|]. split; [vm_compute; reflexivity|]. split; [vm_compute; reflexivity|].
  eapply (selection_notifies_exactly sample_ops (Update [("a", true); ("b", true); ("c", true)]));
    vm_compute; reflexivity.
Defined.

End SelectionStore.
