(* ===== verification/MediaSelection.v ===== *)
(** * The media picker ([features/media/hooks/useMediaSelection.ts], [services/MediaScanner.ts])

    The picker shows an album of the Photos library page by page, keeps the selection in a
    [SelectionStore], lets the user select a range by dragging over the grid, and can select
    the whole album. [t] is the state and the refs of the hook; a React state is read by the
    handlers of the next render, so every handler runs on a committed [t]. The Photos
    library is the input: a page request is answered by a page or fails, at any later time
    and in any order. *)

From Stdlib Require Import QArith Qround Lqa.
From S2P Require Import Prelude UploadTypes SelectionStore.
Open Scope Z_scope.

Module MediaSelection.

(** ** The grid and the gesture *)

(* src: features/media/hooks/useMediaSelection.ts:20-26 [MediaGridLayout] *)
Record MediaGridLayout := {
  itemSize : Q;
  itemOuterSize : Q;
  itemMargin : Q;
  contentPadding : Q;
  numColumns : Z }.

(* src: features/media/hooks/useMediaSelection.ts:70-81 [calculateMediaGridLayout] *)
Definition calculateMediaGridLayout (windowWidth : Q) (numColumns : Z) : MediaGridLayout :=
  let itemMargin := 1%Q in
  let contentPadding := 1%Q in
  let itemSize := ((windowWidth - contentPadding * 2 - itemMargin * 2 * inject_Z numColumns) / inject_Z numColumns)%Q in
  {| itemSize := itemSize; itemOuterSize := (itemSize + itemMargin * 2)%Q; itemMargin := itemMargin;
     contentPadding := contentPadding; numColumns := numColumns |}.

Definition Qmax0 (x : Q) : Q := if Qle_bool 0 x then x else 0%Q.
Definition Qmin (x y : Q) : Q := if Qle_bool x y then x else y.

(* src: features/media/hooks/useMediaSelection.ts:83-97 [gridIndexForPoint] *)
Definition gridIndexForPoint (x y scrollOffset : Q) (itemCount : Z) (layout : MediaGridLayout) : Z :=
  if itemCount <=? 0 then -1 else
  let relativeX := Qmax0 (x - contentPadding layout) in
  let relativeY := Qmax0 (y + scrollOffset) in
  let column := Z.max 0 (Z.min (numColumns layout - 1) (Qfloor (relativeX / itemOuterSize layout))) in
  let row := Z.max 0 (Qfloor (relativeY / itemOuterSize layout)) in
  Z.min (itemCount - 1) (row * numColumns layout + column).

(* src: features/media/hooks/useMediaSelection.ts:38-47 [dragAutoScrollVelocity] *)
Definition dragAutoScrollVelocity (y viewportHeight : Q) : Q :=
  if Qle_bool viewportHeight 0 then 0 else
  let edgeSize := Qmin 80 (viewportHeight * (1 # 5)) in
  if negb (Qle_bool edgeSize y) then (- (480) * (1 - Qmax0 y / edgeSize))%Q
  else if negb (Qle_bool y (viewportHeight - edgeSize)) then
    (480 * ((Qmin viewportHeight y - (viewportHeight - edgeSize)) / edgeSize))%Q
  else 0.

(* src: features/media/hooks/useMediaSelection.ts:49-63 [nextAutoScrollOffset] *)
Definition nextAutoScrollOffset (currentOffset velocity elapsedMs maxOffset : Q) : Q :=
  let safeElapsedMs := Qmax0 (Qmin 50 elapsedMs) in
  Qmax0 (Qmin maxOffset (currentOffset + velocity * safeElapsedMs / 1000)).

(* src: features/media/hooks/useMediaSelection.ts:65-68 [shouldScheduleDragIndex] *)
Definition shouldScheduleDragIndex (targetIndex previousIndex : Z) : bool :=
  (0 <=? targetIndex) && negb (targetIndex =? previousIndex).

(** ** Selecting a range *)

(** [media[index]?.id], [None] as well when the id is empty. *)
Definition id_at (media : list MediaAsset) (index : Z) : option string :=
  if index <? 0 then None else
  match media !! Z.to_nat index with
  | Some asset => if truthy (asset_id asset) then Some (asset_id asset) else None
  | None => None
  end.

Section delta.
Context {S : Type} (getBaselineSelection : S → string → bool * S).

(** The loop body of [updateRange]; [S] is what [getBaselineSelection] remembers. *)
(* src: features/media/hooks/useMediaSelection.ts:116-121 [updateRange] *)
Definition update_index (media : list MediaAsset) (selectMode entering : bool)
    (acc : list (string * bool) * S) (index : Z) : list (string * bool) * S :=
  match id_at media index with
  | None => acc
  | Some id =>
      let '(baselineSelected, s) := getBaselineSelection acc.2 id in
      (map_set id (if entering then selectMode else baselineSelected) acc.1, s)
  end.

(* src: features/media/hooks/useMediaSelection.ts:115-122 [updateRange] *)
Definition updateRange (media : list MediaAsset) (selectMode : bool) (first last : Z) (entering : bool)
    (acc : list (string * bool) * S) : list (string * bool) * S :=
  foldl (update_index media selectMode entering) acc (seqZ first (last - first + 1)).

(* src: features/media/hooks/useMediaSelection.ts:99-138 [dragSelectionDelta] *)
Definition dragSelectionDelta (media : list MediaAsset) (startIndex : Z) (previousTargetIndex : option Z)
    (targetIndex : Z) (selectMode : bool) (s : S) : list (string * bool) * S :=
  let updateRange := updateRange media selectMode in
  match previousTargetIndex with
  | None => updateRange (Z.min startIndex targetIndex) (Z.max startIndex targetIndex) true ([], s)
  | Some previousTargetIndex =>
      let previousFirst := Z.min startIndex previousTargetIndex in
      let previousLast := Z.max startIndex previousTargetIndex in
      let nextFirst := Z.min startIndex targetIndex in
      let nextLast := Z.max startIndex targetIndex in
      let acc := ([], s) in
      let acc := if previousFirst <? nextFirst then updateRange previousFirst (nextFirst - 1) false acc else acc in
      let acc := if nextFirst <? previousFirst then updateRange nextFirst (previousFirst - 1) true acc else acc in
      let acc := if previousLast <? nextLast then updateRange (previousLast + 1) nextLast true acc else acc in
      if nextLast <? previousLast then updateRange (nextLast + 1) previousLast false acc else acc
  end.
End delta.

(** ** The state of the hook *)

(* src: features/media/hooks/useMediaSelection.ts:208-240 [useMediaSelection] *)
Record t := {
  media : list MediaAsset;
  store : SelectionStore.t;
  selectedCount : nat;
  dragStartIndex : option Z;
  dragLastIndex : option Z;
  dragSelectMode : bool;
  dragBaseline : gmap string bool;
  suppressNextPress : bool;
  loading : bool;
  selectedAlbum : option string;
  selectionOperation : nat;
  pageCursor : option string;
  hasNextPage : bool;
  loadingMore : bool;
  loadedMediaIds : list string }.

#[export] Instance t_eta : Eta t := λ p,
  Build_t (media p) (store p) (selectedCount p) (dragStartIndex p) (dragLastIndex p) (dragSelectMode p)
    (dragBaseline p) (suppressNextPress p) (loading p) (selectedAlbum p) (selectionOperation p) (pageCursor p)
    (hasNextPage p) (loadingMore p) (loadedMediaIds p).

(** [setSelectedCount(selectionStore.f(...))]: who is called is the store's matter. *)
Definition select (result : SelectionStore.t * nat * list nat) (p : t) : t :=
  p <| store := result.1.1 |> <| selectedCount := result.1.2 |>.

(* src: features/media/hooks/useMediaSelection.ts:366-368 [toggleSelection] *)
Definition toggleSelection (id : string) (p : t) : t := select (SelectionStore.toggle (store p) id) p.

(* src: features/media/hooks/useMediaSelection.ts:375-381 [updateDragSelection] *)
Definition getBaselineSelection (s : SelectionStore.t) (baseline : gmap string bool) (id : string)
    : bool * gmap string bool :=
  match baseline !! id with
  | Some existing => (existing, baseline)
  | None => let selected := SelectionStore.isSelected s id in (selected, <[id := selected]> baseline)
  end.

(* src: features/media/hooks/useMediaSelection.ts:370-391 [updateDragSelection] *)
Definition updateDragSelection (targetIndex : Z) (p : t) : t :=
  match dragStartIndex p with
  | None => p
  | Some start =>
      if (targetIndex <? 0) || bool_decide (dragLastIndex p = Some targetIndex) then p else
      let previousTarget := dragLastIndex p in
      let p := p <| dragLastIndex := Some targetIndex |> in
      let '(updates, baseline) :=
        dragSelectionDelta (getBaselineSelection (store p)) (media p) start previousTarget targetIndex
          (dragSelectMode p) (dragBaseline p) in
      select (SelectionStore.update (store p) updates) (p <| dragBaseline := baseline |>)
  end.

(* src: features/media/hooks/useMediaSelection.ts:393-402 [beginDragSelection] *)
Definition beginDragSelection (index : Z) (forceSelect : bool) (p : t) : t :=
  match id_at (media p) index with
  | None => p
  | Some id =>
      let p := p <| dragStartIndex := Some index |> <| dragLastIndex := None |> <| dragBaseline := ∅ |>
                 <| dragSelectMode := forceSelect || negb (SelectionStore.isSelected (store p) id) |>
                 <| suppressNextPress := true |> in
      updateDragSelection index p
  end.

(* src: features/media/hooks/useMediaSelection.ts:404-408 [endDragSelection] *)
Definition endDragSelection (p : t) : t :=
  p <| dragStartIndex := None |> <| dragLastIndex := None |> <| dragBaseline := ∅ |>.

(* src: features/media/hooks/useMediaSelection.ts:554-556 [deselectAll] *)
Definition deselectAll (p : t) : t := select (SelectionStore.clear (store p)) p.

(** ** The Photos library *)

(** An asset as the library describes it. *)
Record LibraryAsset := { la_id : string; la_uri : string; la_mediaType : string; la_filename : string }.

(* src: services/MediaScanner.ts:14-18 [MediaPage] *)
Record MediaPage := { assets : list MediaAsset; page_hasNextPage : bool; endCursor : option string }.

(* src: services/MediaScanner.ts:31-42 [toMediaAsset] *)
Definition toMediaAsset (asset : LibraryAsset) : MediaAsset :=
  {| asset_id := la_id asset; asset_uri := la_uri asset;
     asset_type := if bool_decide (la_mediaType asset = "video") then video else photo;
     asset_filename := la_filename asset |}.

(** The answers of the permission prompt and of the library, [None]: it fails. *)
(* src: services/MediaScanner.ts:44-62 [getMediaPage] *)
Definition getMediaPage (granted : bool) (answer : option (list LibraryAsset * bool * option string))
    : option MediaPage :=
  if negb granted then Some {| assets := []; page_hasNextPage := false; endCursor := None |}
  else match answer with
       | Some (found, hasNextPage, cursor) =>
           Some {| assets := toMediaAsset <$> found; page_hasNextPage := hasNextPage; endCursor := cursor |}
       | None => None
       end.

(** [forEachMediaPage] with the page answers in order; [None]: it fails, or needs more answers. *)
(* src: services/MediaScanner.ts:64-81 [forEachMediaPage] *)
Fixpoint forEachMediaPage {A} (onPage : A → list MediaAsset → A) (acc : A) (answers : list (option MediaPage))
    : option A :=
  match answers with
  | Some page :: answers =>
      let acc := onPage acc (assets page) in
      if page_hasNextPage page then forEachMediaPage onPage acc answers else Some acc
  | _ => None
  end.

(* src: services/MediaScanner.ts:83-91 [getMediaByIds] *)
Definition getMediaByIds (granted : bool) (ids : list string) (answers : list (option MediaPage))
    : option (list MediaAsset) :=
  if granted then
    forEachMediaPage (λ selected found, selected ++ filter (λ asset, asset_id asset ∈ ids) found) [] answers
  else Some [].

(* src: features/media/hooks/useMediaSelection.ts:592-600 [selectedAssets] *)
Definition selectedAssets (p : t) (granted : bool) (answers : list (option MediaPage)) : option (list MediaAsset) :=
  let ids := SelectionStore.getSelectedIds (store p) in
  let visibleById : gmap string MediaAsset := list_to_map (reverse ((λ item, (asset_id item, item)) <$> media p)) in
  let visibleSelection := omap (λ id, visibleById !! id) ids in
  if (length visibleSelection =? length ids)%nat then Some visibleSelection
  else getMediaByIds granted ids answers.

(** ** Loading the album *)

(** What a suspended operation goes on with when its page arrives; [r_album] and [r_after]
    are what was asked for. *)
Inductive continuation := FetchMedia | LoadMore | SelectAll (allMedia : list MediaAsset).
Record request := { r_operation : nat; r_album : option string; r_after : option string; r_then : continuation }.

Definition asks (p : t) (after : option string) (then_ : continuation) : request :=
  {| r_operation := selectionOperation p; r_album := selectedAlbum p; r_after := after; r_then := then_ |}.

(** The effect of a new album, up to its request. *)
(* src: features/media/hooks/useMediaSelection.ts:293-308 [fetchMedia] *)
Definition fetchMedia (album : option string) (p : t) : t * list request :=
  let p := p <| selectedAlbum := album |> <| selectionOperation := S (selectionOperation p) |>
             <| loading := true |> <| store := (SelectionStore.clear (store p)).1.1 |> <| selectedCount := 0%nat |>
             <| media := [] |> <| pageCursor := None |> <| hasNextPage := false |> <| loadingMore := false |>
             <| loadedMediaIds := [] |> in
  (p, [asks p None FetchMedia]).

(* src: features/media/hooks/useMediaSelection.ts:309-325 [fetchMedia] *)
Definition media_fetched (answer : option MediaPage) (p : t) : t :=
  match answer with
  | Some page =>
      p <| loadedMediaIds := set_of (asset_id <$> assets page) |> <| pageCursor := endCursor page |>
        <| hasNextPage := page_hasNextPage page |> <| media := assets page |> <| loading := false |>
  | None =>
      p <| store := (SelectionStore.clear (store p)).1.1 |> <| selectedCount := 0%nat |> <| media := [] |>
        <| loading := false |>
  end.

(* src: features/media/hooks/useMediaSelection.ts:331-341 [loadMoreMedia] *)
Definition loadMoreMedia (p : t) : t * list request :=
  if loading p || loadingMore p || negb (hasNextPage p) then (p, [])
  else let p := p <| loadingMore := true |> in (p, [asks p (pageCursor p) LoadMore]).

(** The assets of a page that were not seen before, and the ids seen then. *)
(* src: features/media/hooks/useMediaSelection.ts:343-347 [loadMoreMedia] *)
Definition unseen (seen : list string) (page : list MediaAsset) : list MediaAsset * list string :=
  foldl (λ acc asset, if set_has (asset_id asset) acc.2 then acc
                      else (acc.1 ++ [asset], set_add (asset_id asset) acc.2)) ([], seen) page.

(* src: features/media/hooks/useMediaSelection.ts:343-363 [loadMoreMedia] *)
Definition more_loaded (answer : option MediaPage) (p : t) : t :=
  match answer with
  | Some page =>
      let '(additions, seen) := unseen (loadedMediaIds p) (assets page) in
      p <| loadedMediaIds := seen |>
        <| media := if bool_decide (additions = []) then media p else media p ++ additions |>
        <| pageCursor := endCursor page |> <| hasNextPage := page_hasNextPage page |> <| loadingMore := false |>
  | None => p <| loadingMore := false |>
  end.

(** The rest of [selectAll] when no page is left. *)
(* src: features/media/hooks/useMediaSelection.ts:577-589 [selectAll] *)
Definition all_selected (allMedia : list MediaAsset) (after : option string) (p : t) : t :=
  let p := p <| pageCursor := after |> <| hasNextPage := false |> <| media := allMedia |> in
  (select (SelectionStore.replace (store p) (set_of (asset_id <$> allMedia))) p) <| loading := false |>.

(* src: features/media/hooks/useMediaSelection.ts:558-567 [selectAll] *)
Definition selectAll (p : t) : t * list request :=
  if loading p || loadingMore p then (p, []) else
  let p := p <| loading := true |> in
  if hasNextPage p then (p, [asks p (pageCursor p) (SelectAll (media p))])
  else (all_selected (media p) (pageCursor p) p, []).

(** One more page of [selectAll]: the loop asks for the next one, or ends. *)
(* src: features/media/hooks/useMediaSelection.ts:566-590 [selectAll] *)
Definition page_for_all (allMedia : list MediaAsset) (answer : option MediaPage) (p : t) : t * list request :=
  match answer with
  | Some page =>
      let '(additions, seen) := unseen (loadedMediaIds p) (assets page) in
      let p := p <| loadedMediaIds := seen |> in
      let allMedia := allMedia ++ additions in
      if page_hasNextPage page then (p, [asks p (endCursor page) (SelectAll allMedia)])
      else (all_selected allMedia (endCursor page) p, [])
  | None => (p <| loading := false |>, [])
  end.

(** An answer of an earlier album is dropped. *)
(* src: features/media/hooks/useMediaSelection.ts:309-309 [fetchMedia] *)
Definition answered (r : request) (answer : option MediaPage) (p : t) : t * list request :=
  if bool_decide (r_operation r ≠ selectionOperation p) then (p, []) else
  match r_then r with
  | FetchMedia => (media_fetched answer p, [])
  | LoadMore => (more_loaded answer p, [])
  | SelectAll allMedia => page_for_all allMedia answer p
  end.

(** ** Any interleaving *)

Record picker := { ui : t; waiting : list request }.

Inductive event :=
  | ChooseAlbum (album : option string)
  | ScrollToEnd
  | TapSelectAll
  | Answer (index : nat) (answer : option MediaPage)
  | Tap (id : string)
  | DragFrom (index : Z) (force : bool)
  | DragOver (index : Z)
  | DragEnd
  | DeselectAll.

Definition resume (result : t * list request) (waiting : list request) : picker :=
  {| ui := result.1; waiting := waiting ++ result.2 |}.

Definition handle (p : picker) (e : event) : picker :=
  match e with
  | ChooseAlbum album =>
      if bool_decide (album = selectedAlbum (ui p)) then p else resume (fetchMedia album (ui p)) (waiting p)
  | ScrollToEnd => resume (loadMoreMedia (ui p)) (waiting p)
  | TapSelectAll => resume (selectAll (ui p)) (waiting p)
  | Answer index answer =>
      match waiting p !! index with
      | Some r => resume (answered r answer (ui p)) (delete index (waiting p))
      | None => p
      end
  | Tap id => {| ui := toggleSelection id (ui p); waiting := waiting p |}
  | DragFrom index force => {| ui := beginDragSelection index force (ui p); waiting := waiting p |}
  | DragOver index => {| ui := updateDragSelection index (ui p); waiting := waiting p |}
  | DragEnd => {| ui := endDragSelection (ui p); waiting := waiting p |}
  | DeselectAll => {| ui := deselectAll (ui p); waiting := waiting p |}
  end.

(** The mounted picker: the effect runs for the whole library. *)
Definition initial : t :=
  {| media := []; store := SelectionStore.new; selectedCount := 0; dragStartIndex := None; dragLastIndex := None;
     dragSelectMode := true; dragBaseline := ∅; suppressNextPress := false; loading := true; selectedAlbum := None;
     selectionOperation := 0; pageCursor := None; hasNextPage := false; loadingMore := false; loadedMediaIds := [] |}.
Definition mounted : picker := resume (fetchMedia None initial) [].

(** ** Dragging selects a range *)

(** The ids of an album are non-empty and different. *)
Definition distinct_ids (media : list MediaAsset) : Prop :=
  NoDup (asset_id <$> media) ∧ Forall (λ a, asset_id a ≠ "") media.

Lemma id_at_inj media i j id :
  distinct_ids media → id_at media i = Some id → id_at media j = Some id → i = j.
Proof.
  intros [Hnd _]. unfold id_at. destruct (Z.ltb_spec i 0); [done|]. destruct (Z.ltb_spec j 0); [done|].
  destruct (media !! Z.to_nat i) as [a|] eqn:Ha; [|done]. destruct (media !! Z.to_nat j) as [b|] eqn:Hb; [|done].
  destruct (truthy (asset_id a)); [|done]. destruct (truthy (asset_id b)); [|done]. intros [= Hi] [= Hj].
  enough (Z.to_nat i = Z.to_nat j) by lia. apply (NoDup_lookup _ _ _ id Hnd); rewrite list_lookup_fmap.
  - by rewrite Ha, <-Hi.
  - by rewrite Hb, <-Hj.
Qed.

Lemma id_at_elem media id :
  distinct_ids media → (∃ i, id_at media i = Some id) ↔ id ∈ asset_id <$> media.
Proof.
  intros [_ Hne]. unfold id_at. split.
  - intros [i Hi]. destruct (i <? 0); [done|]. destruct (media !! Z.to_nat i) as [a|] eqn:Ha; [|done].
    destruct (truthy (asset_id a)); [|done]. injection Hi as <-. apply list_elem_of_fmap_2. by apply list_elem_of_lookup_2 in Ha.
  - intros (a & -> & Ha)%list_elem_of_fmap. apply list_elem_of_lookup in Ha as Hl. destruct Hl as [n Hn].
    exists (Z.of_nat n). rewrite (proj2 (Z.ltb_ge _ _)) by lia. rewrite Nat2Z.id, Hn.
    rewrite (proj2 (truthy_true _)); [done|]. by rewrite Forall_forall in Hne; apply Hne.
Qed.

(** The items a drag from [start] has selected when the finger is over [target]. *)
Definition between (a b i : Z) : Prop := Z.min a b <= i <= Z.max a b.
#[export] Instance between_dec a b i : Decision (between a b i).
Proof. unfold between. apply _. Defined.

Definition dragged (start : Z) (last : option Z) (i : Z) : Prop :=
  match last with Some target => between start target i | None => False end.
#[export] Instance dragged_dec start last i : Decision (dragged start last i).
Proof. destruct last; simpl; apply _. Defined.

Section drag.
Context (media : list MediaAsset) (Hmedia : distinct_ids media).
Context (now : SelectionStore.t) (before : string → bool) (selectMode : bool).

(** What is remembered of the selection before the drag, and what can still be read. *)
Definition baseline_ok (baseline : gmap string bool) : Prop :=
  (∀ id b, baseline !! id = Some b → b = before id)
  ∧ ∀ i id, id_at media i = Some id → baseline !! id = None → SelectionStore.isSelected now id = before id.

Lemma getBaselineSelection_spec baseline i id :
  baseline_ok baseline → id_at media i = Some id →
  ∃ baseline', getBaselineSelection now baseline id = (before id, baseline') ∧ baseline_ok baseline'
    ∧ ∀ k, baseline' !! k = if decide (k = id) then Some (before id) else baseline !! k.
Proof.
  intros [Hb Hr] Hid. unfold getBaselineSelection. destruct (baseline !! id) as [b|] eqn:Hbl.
  - rewrite (Hb id b Hbl). exists baseline. split; [done|]. split; [done|]. intros k.
    destruct (decide (k = id)) as [->|]; [|done]. by rewrite Hbl, (Hb id b Hbl).
  - exists (<[id := before id]> baseline). rewrite (Hr i id Hid Hbl). split; [done|].
    assert (∀ k, <[id := before id]> baseline !! k = if decide (k = id) then Some (before id) else baseline !! k) as Hk.
    { intros k. destruct (decide (k = id)) as [->|]; [apply lookup_insert_eq|by apply lookup_insert_ne]. }
    split; [|done]. split; [intros k b|intros j k Hj]; rewrite Hk; destruct (decide (k = id)) as [->|]; naive_solver.
Qed.

(** A list of indices at work: the updates of the visited ids, all others untouched. *)
Lemma update_indices_spec entering indices : ∀ updates baseline,
  NoDup updates.*1 → baseline_ok baseline →
  let '(updates', baseline') :=
    foldl (update_index (getBaselineSelection now) media selectMode entering) (updates, baseline) indices in
  NoDup updates'.*1 ∧ baseline_ok baseline'
  ∧ (∀ i id, id_at media i = Some id →
       map_get id updates' = (if decide (i ∈ indices) then Some (if entering then selectMode else before id) else map_get id updates)
       ∧ baseline' !! id = (if decide (i ∈ indices) then Some (before id) else baseline !! id))
  ∧ ∀ id, id ∉ asset_id <$> media → map_get id updates' = map_get id updates.
Proof.
  induction indices as [|j indices IH]; intros updates baseline Hnd Hb; cbn [foldl].
  { split; [done|]. split; [done|]. split; [|done]. intros i id _.
    by rewrite !decide_False by apply not_elem_of_nil. }
  destruct (id_at media j) as [idj|] eqn:Hj.
  - assert (update_index (getBaselineSelection now) media selectMode entering (updates, baseline) j =
      (map_set idj (if entering then selectMode else before idj) updates, (getBaselineSelection now baseline idj).2)) as ->.
    { destruct (getBaselineSelection_spec baseline j idj Hb Hj) as (bl & Heq & _).
      unfold update_index. simpl. by rewrite Hj, Heq. }
    destruct (getBaselineSelection_spec baseline j idj Hb Hj) as (bl & -> & Hbl & Hlook). cbn [snd].
    specialize (IH (map_set idj (if entering then selectMode else before idj) updates) bl (map_set_NoDup _ _ _ Hnd) Hbl).
    destruct (foldl _ _ indices) as [updates' baseline']. destruct IH as (H1 & H2 & H3 & H4).
    split; [done|]. split; [done|]. split.
    + intros i id Hi. destruct (H3 i id Hi) as [-> ->]. rewrite map_get_set, Hlook.
      assert (i = j ↔ id = idj) as Hij by (split; [congruence|intros ->; by apply (id_at_inj media i j idj)]).
      destruct (decide (i ∈ indices)), (decide (id = idj)), (decide (i ∈ j :: indices)) as [Hin|Hin];
        rewrite ?elem_of_cons in Hin; naive_solver.
    + intros id Hid. rewrite H4 by done. rewrite map_get_set, decide_False; [done|].
      intros ->. apply Hid, id_at_elem; eauto.
  - assert (update_index (getBaselineSelection now) media selectMode entering (updates, baseline) j = (updates, baseline)) as ->.
    { unfold update_index. by rewrite Hj. }
    specialize (IH updates baseline Hnd Hb). destruct (foldl _ _ indices) as [updates' baseline'].
    destruct IH as (H1 & H2 & H3 & H4). split; [done|]. split; [done|]. split; [|done].
    intros i id Hi. destruct (H3 i id Hi) as [-> ->]. assert (i ≠ j) by congruence.
    destruct (decide (i ∈ indices)), (decide (i ∈ j :: indices)) as [Hin|Hin]; rewrite ?elem_of_cons in Hin; naive_solver.
Qed.
Notation ranged := (list (string * bool) * gmap string bool)%type (only parsing).

(** What the updates and the remembered selection are after a range. *)
Definition ranged_spec (acc : ranged) (first last : Z) (entering : bool) (acc' : ranged) : Prop :=
  NoDup acc'.1.*1 ∧ baseline_ok acc'.2
  ∧ (∀ i id, id_at media i = Some id →
       map_get id acc'.1 = (if decide (first <= i <= last) then Some (if entering then selectMode else before id)
                            else map_get id acc.1)
       ∧ acc'.2 !! id = (if decide (first <= i <= last) then Some (before id) else acc.2 !! id))
  ∧ ∀ id, id ∉ asset_id <$> media → map_get id acc'.1 = map_get id acc.1.

Lemma updateRange_spec first last entering acc :
  NoDup acc.1.*1 → baseline_ok acc.2 →
  ranged_spec acc first last entering (updateRange (getBaselineSelection now) media selectMode first last entering acc).
Proof.
  intros Hnd Hb. unfold updateRange, ranged_spec. destruct acc as [updates baseline]. simpl in *.
  pose proof (update_indices_spec entering (seqZ first (last - first + 1)) updates baseline Hnd Hb) as H.
  destruct (foldl _ _ _) as [updates' baseline']. simpl. destruct H as (H1 & H2 & H3 & H4).
  split; [done|]. split; [done|]. split; [|done]. intros i id Hi. destruct (H3 i id Hi) as [-> ->].
  assert (i ∈ seqZ first (last - first + 1) ↔ first <= i <= last) as Hiff by (rewrite elem_of_seqZ; lia).
  by rewrite !(decide_ext _ _ _ _ Hiff).
Qed.

Lemma updateRange_empty (c : bool) first last entering acc :
  (c = false → last < first) →
  (if c then updateRange (getBaselineSelection now) media selectMode first last entering acc else acc)
  = updateRange (getBaselineSelection now) media selectMode first last entering acc.
Proof.
  intros Hc. destruct c; [done|]. unfold updateRange. by rewrite seqZ_nil by (specialize (Hc eq_refl); lia).
Qed.

Lemma delta_spec start previous target baseline :
  baseline_ok baseline →
  let '(updates, baseline') :=
    dragSelectionDelta (getBaselineSelection now) media start previous target selectMode baseline in
  NoDup updates.*1 ∧ baseline_ok baseline'
  ∧ (∀ i id, id_at media i = Some id →
       map_get id updates =
         (if decide (between start target i) then
            (if decide (dragged start previous i) then None else Some selectMode)
          else if decide (dragged start previous i) then Some (before id) else None)
       ∧ baseline' !! id =
         (if decide (between start target i ∧ dragged start previous i) then baseline !! id
          else if decide (between start target i ∨ dragged start previous i) then Some (before id) else baseline !! id))
  ∧ ∀ id, id ∉ asset_id <$> media → map_get id updates = None.
Proof.
  intros Hb. unfold dragSelectionDelta. destruct previous as [previous|]; simpl.
  - rewrite !updateRange_empty by (intros ?%Z.ltb_ge; lia).
    set (r1 := updateRange _ media selectMode _ _ false ([], baseline)).
    set (r2 := updateRange _ media selectMode _ _ true r1).
    set (r3 := updateRange _ media selectMode _ _ true r2).
    set (r4 := updateRange _ media selectMode _ _ false r3).
    assert (NoDup (@nil (string * bool)).*1) as Hnil by constructor.
    destruct (updateRange_spec (Z.min start previous) (Z.min start target - 1) false ([], baseline) Hnil Hb) as (N1 & B1 & G1 & O1).
    fold r1 in N1, B1, G1, O1.
    destruct (updateRange_spec (Z.min start target) (Z.min start previous - 1) true r1 N1 B1) as (N2 & B2 & G2 & O2).
    fold r2 in N2, B2, G2, O2.
    destruct (updateRange_spec (Z.max start previous + 1) (Z.max start target) true r2 N2 B2) as (N3 & B3 & G3 & O3).
    fold r3 in N3, B3, G3, O3.
    destruct (updateRange_spec (Z.max start target + 1) (Z.max start previous) false r3 N3 B3) as (N4 & B4 & G4 & O4).
    fold r4 in N4, B4, G4, O4. clearbody r1 r2 r3 r4. destruct r4 as [updates baseline']. simpl in *.
    split; [done|]. split; [done|]. split; [|intros id Hid; by rewrite O4, O3, O2, O1].
    intros i id Hi. destruct (G4 i id Hi) as [-> ->], (G3 i id Hi) as [-> ->], (G2 i id Hi) as [-> ->], (G1 i id Hi) as [-> ->].
    unfold between. repeat destruct (decide _); try lia; done.
  - assert (NoDup (@nil (string * bool)).*1) as Hnil by constructor.
    destruct (updateRange_spec (Z.min start target) (Z.max start target) true ([], baseline) Hnil Hb) as (N1 & B1 & G1 & O1).
    destruct (updateRange _ media _ _ _ _ _) as [updates baseline']. simpl in *.
    split; [done|]. split; [done|]. split; [|done]. intros i id Hi. destruct (G1 i id Hi) as [-> ->].
    unfold between. repeat destruct (decide _); naive_solver.
Qed.
End drag.

(** A state in the middle of a drag. *)
Record drag_ok (assets : list MediaAsset) (before : string → bool) (mode : bool) (start : Z) (last : option Z)
    (p : t) : Prop := {
  dk_media : media p = assets;
  dk_start : dragStartIndex p = Some start;
  dk_last : dragLastIndex p = last;
  dk_mode : dragSelectMode p = mode;
  dk_nodup : NoDup (SelectionStore.selectedIds (store p));
  dk_baseline : baseline_ok assets (store p) before (dragBaseline p);
  dk_remembered i id : id_at assets i = Some id → dragged start last i → dragBaseline p !! id = Some (before id);
  dk_selected i id : id_at assets i = Some id →
    SelectionStore.isSelected (store p) id = if decide (dragged start last i) then mode else before id;
  dk_others id : id ∉ asset_id <$> assets → SelectionStore.isSelected (store p) id = before id }.

Lemma store_update_spec s updates :
  NoDup updates.*1 → NoDup (SelectionStore.selectedIds s) →
  let s' := (SelectionStore.update s updates).1.1 in
  NoDup (SelectionStore.selectedIds s')
  ∧ (SelectionStore.update s updates).1.2 = length (SelectionStore.selectedIds s')
  ∧ ∀ id, SelectionStore.isSelected s' id = default (SelectionStore.isSelected s id) (map_get id updates).
Proof.
  intros Hnd Hs. unfold SelectionStore.update.
  pose proof (SelectionStore.update_entries_spec updates (SelectionStore.selectedIds s) [] Hnd Hs) as H.
  destruct (foldl _ _ updates) as [ids changed]. destruct H as (H1 & H2 & _). simpl. split; [done|]. split; [done|].
  intros id. rewrite map_get_list_to_map. apply H2.
Qed.

Lemma updateDragSelection_ok assets before mode start last target p :
  distinct_ids assets → drag_ok assets before mode start last p → 0 <= target → last ≠ Some target →
  let p' := updateDragSelection target p in
  drag_ok assets before mode start (Some target) p' ∧ selectedCount p' = length (SelectionStore.selectedIds (store p')).
Proof.
  intros Hassets [Hm Hst Hl Hmo Hnd Hb Hrem Hsel Hoth] Ht Hne p'. subst p'. unfold updateDragSelection.
  rewrite Hst, Hl. rewrite (proj2 (Z.ltb_ge _ _)) by done. rewrite bool_decide_eq_false_2 by done. cbn -[dragSelectionDelta].
  rewrite Hm, Hmo. pose proof (delta_spec assets Hassets (store p) before mode start last target (dragBaseline p) Hb) as H.
  destruct (dragSelectionDelta _ _ _ _ _ _ _) as [updates baseline']. destruct H as (N & B & G & O).
  destruct (store_update_spec (store p) updates N Hnd) as (N' & C' & S'). split; [|done].
  assert (∀ i id, id_at assets i = Some id →
    SelectionStore.isSelected (SelectionStore.update (store p) updates).1.1 id =
    if decide (between start target i) then mode else before id) as Hnew.
  { intros i id Hi. rewrite S', (Hsel i id Hi). destruct (G i id Hi) as [-> _].
    destruct (decide (between start target i)), (decide (dragged start last i)); done. }
  assert (∀ i id, id_at assets i = Some id → between start target i → baseline' !! id = Some (before id)) as Hrem'.
  { intros i id Hi Hbt. destruct (G i id Hi) as [_ ->]. specialize (Hrem i id Hi).
    destruct (decide (dragged start last i)); [rewrite decide_True by done; by apply Hrem|].
    rewrite decide_False by naive_solver. by rewrite decide_True by naive_solver. }
  split; simpl; try done.
  - split; [apply B|]. intros i id Hi Hnone. rewrite (Hnew i id Hi). destruct (decide (between start target i)) as [Hbt|]; [|done].
    rewrite (Hrem' i id Hi Hbt) in Hnone. done.
  - intros id Hid. rewrite S', (O id Hid). by apply Hoth.
Qed.

Lemma beginDragSelection_ok p index force id0 :
  distinct_ids (media p) → NoDup (SelectionStore.selectedIds (store p)) → id_at (media p) index = Some id0 →
  let p' := beginDragSelection index force p in
  drag_ok (media p) (SelectionStore.isSelected (store p)) (force || negb (SelectionStore.isSelected (store p) id0))
    index (Some index) p'
  ∧ selectedCount p' = length (SelectionStore.selectedIds (store p')).
Proof.
  intros Hm Hnd Hid. unfold beginDragSelection. rewrite Hid.
  apply updateDragSelection_ok with (last := None); [done| |unfold id_at in Hid; destruct (Z.ltb_spec index 0); [done|lia]|done].
  split; simpl; try done.
Qed.

Lemma drag_targets_ok assets before mode start targets : ∀ last p,
  distinct_ids assets → drag_ok assets before mode start (Some last) p →
  selectedCount p = length (SelectionStore.selectedIds (store p)) →
  let p' := foldl (λ p target, updateDragSelection target p) p targets in
  drag_ok assets before mode start (Some (foldl (λ last target, if target <? 0 then last else target) last targets)) p'
  ∧ selectedCount p' = length (SelectionStore.selectedIds (store p')).
Proof.
  induction targets as [|target targets IH]; intros last p Hassets Hok Hcount; simpl; [done|].
  destruct (Z.ltb_spec target 0) as [Hneg|Hpos].
  - assert (updateDragSelection target p = p) as ->; [|by apply IH].
    unfold updateDragSelection. rewrite (dk_start _ _ _ _ _ _ Hok). by rewrite (proj2 (Z.ltb_lt _ _)) by lia.
  - destruct (decide (target = last)) as [->|Hne].
    + assert (updateDragSelection last p = p) as ->; [|by apply IH].
      unfold updateDragSelection. rewrite (dk_start _ _ _ _ _ _ Hok), (dk_last _ _ _ _ _ _ Hok).
      by rewrite bool_decide_eq_true_2, orb_true_r by done.
    + destruct (updateDragSelection_ok assets before mode start (Some last) target p Hassets Hok Hpos) as [Hok' Hcount'];
        [congruence|]. by apply IH.
Qed.

(** Dragging over the grid selects a range. Though every move of the finger only updates
    the items that enter or leave the range, and their former selection is remembered the
    first time one of them is touched, after any sequence of moves, back and forth and off
    the grid, exactly the items between the first and the last one the finger was over have
    the mode of the drag, every other asset is selected as it was before, and the shown
    count is the number of selected ids. *)
Lemma drag_selects_range p index force targets id0 :
  distinct_ids (media p) → NoDup (SelectionStore.selectedIds (store p)) → id_at (media p) index = Some id0 →
  let mode := force || negb (SelectionStore.isSelected (store p) id0) in
  let last := foldl (λ last target, if target <? 0 then last else target) index targets in
  let p' := foldl (λ p target, updateDragSelection target p) (beginDragSelection index force p) targets in
  (∀ i id, id_at (media p) i = Some id →
     SelectionStore.isSelected (store p') id =
       if decide (Z.min index last <= i <= Z.max index last) then mode else SelectionStore.isSelected (store p) id)
  ∧ (∀ id, id ∉ asset_id <$> media p →
       SelectionStore.isSelected (store p') id = SelectionStore.isSelected (store p) id)
  ∧ media p' = media p ∧ selectedCount p' = length (SelectionStore.selectedIds (store p')).
Proof.
  intros Hm Hnd Hid mode last p'.
  destruct (beginDragSelection_ok p index force id0 Hm Hnd Hid) as [Hok Hcount].
  destruct (drag_targets_ok _ _ _ _ targets index _ Hm Hok Hcount) as [Hok' Hcount']. fold mode last p' in Hok', Hcount'.
  split; [|split; [|split; [apply Hok'|done]]].
  - intros i id Hi. apply (dk_selected _ _ _ _ _ _ Hok' i id Hi).
  - intros k Hk. by apply (dk_others _ _ _ _ _ _ Hok').
Qed.

(** ** Pages *)

Lemma unseen_spec page : ∀ seen,
  let '(additions, seen') := unseen seen page in
  (∀ a, a ∈ additions → a ∈ page ∧ asset_id a ∉ seen)
  ∧ NoDup (asset_id <$> additions)
  ∧ (∀ id, id ∈ asset_id <$> additions ↔ id ∈ asset_id <$> page ∧ id ∉ seen)
  ∧ (∀ id, id ∈ seen' ↔ id ∈ seen ∨ id ∈ asset_id <$> page).
Proof.
  intros seen. unfold unseen.
  assert (∀ acc : list MediaAsset * list string,
    NoDup (asset_id <$> acc.1) → (∀ id, id ∈ asset_id <$> acc.1 → id ∈ acc.2) →
    let '(additions, seen') := foldl (λ acc asset, if set_has (asset_id asset) acc.2 then acc
                      else (acc.1 ++ [asset], set_add (asset_id asset) acc.2)) acc page in
    (∀ a, a ∈ additions → a ∈ acc.1 ∨ (a ∈ page ∧ asset_id a ∉ acc.2))
    ∧ NoDup (asset_id <$> additions)
    ∧ (∀ id, id ∈ asset_id <$> additions ↔ id ∈ asset_id <$> acc.1 ∨ (id ∈ asset_id <$> page ∧ id ∉ acc.2))
    ∧ (∀ id, id ∈ seen' ↔ id ∈ acc.2 ∨ id ∈ asset_id <$> page)) as Hgen.
  { induction page as [|x page IH]; intros [additions s] Hnd Hin; cbn [foldl fst snd].
    - split; [by left|]. split; [done|]. split; intros id; rewrite fmap_nil, elem_of_nil; naive_solver.
    - destruct (set_has (asset_id x) s) eqn:Hx.
      + apply set_has_true in Hx. specialize (IH (additions, s) Hnd Hin). destruct (foldl _ _ page) as [ad se].
        destruct IH as (H1 & H2 & H3 & H4). simpl in *. split; [|split; [done|split]].
        * intros a Ha. destruct (H1 a Ha) as [|[? ?]]; [by left|right]. split; [by right|done].
        * intros id. rewrite H3, elem_of_cons. naive_solver.
        * intros id. rewrite H4, elem_of_cons. naive_solver.
      + apply set_has_false in Hx. specialize (IH (additions ++ [x], set_add (asset_id x) s)). simpl in IH.
        destruct (foldl _ _ page) as [ad se]. destruct IH as (H1 & H2 & H3 & H4).
        { rewrite fmap_app. apply NoDup_app. split; [done|]. split; [|apply NoDup_singleton].
          intros id Hid ->%list_elem_of_singleton. by apply Hx, Hin. }
        { intros id. rewrite fmap_app, elem_of_app, elem_set_add. simpl. rewrite list_elem_of_singleton. naive_solver. }
        split; [|split; [done|split]].
        * intros a Ha. destruct (H1 a Ha) as [[?| ->%list_elem_of_singleton]%elem_of_app|[? Hn]]; [by left|right; split; [left|done]|].
          right. split; [by right|]. intros ?. apply Hn. apply elem_set_add. by right.
        * intros id. rewrite H3, fmap_app, elem_of_app, elem_set_add. simpl. rewrite list_elem_of_singleton, elem_of_cons.
          destruct (decide (id = asset_id x)) as [->|]; tauto.
        * intros id. rewrite H4, elem_set_add. simpl. rewrite elem_of_cons. tauto. }
  specialize (Hgen ([], seen)). destruct (foldl _ _ page) as [ad se]. simpl in Hgen.
  destruct Hgen as (H1 & H2 & H3 & H4); [constructor|by intros id ?%elem_of_nil|].
  split; [intros a Ha; destruct (H1 a Ha) as [?%elem_of_nil|]; done|]. split; [done|]. split; [|done].
  intros id. rewrite H3, elem_of_nil. naive_solver.
Qed.

(** ** The shown count *)

Definition count_ok (p : t) : Prop :=
  NoDup (SelectionStore.selectedIds (store p)) ∧ selectedCount p = length (SelectionStore.selectedIds (store p)).

(** Everything about loading. *)
Definition loads_as (p p' : t) : Prop :=
  media p' = media p ∧ loading p' = loading p ∧ selectedAlbum p' = selectedAlbum p
  ∧ selectionOperation p' = selectionOperation p ∧ hasNextPage p' = hasNextPage p ∧ loadingMore p' = loadingMore p
  ∧ loadedMediaIds p' = loadedMediaIds p.

Lemma updateRange_keys media selectMode first last entering s (acc : list (string * bool) * gmap string bool) :
  NoDup acc.1.*1 → NoDup (updateRange (getBaselineSelection s) media selectMode first last entering acc).1.*1.
Proof.
  intros Hacc. unfold updateRange. revert Hacc. apply (foldl_invariant _ (λ acc, NoDup acc.1.*1)).
  intros [u b] index Hu. unfold update_index. destruct (id_at media index) as [id|]; [|done].
  destruct (getBaselineSelection _ _ _). by apply map_set_NoDup.
Qed.

Lemma delta_keys media start previous target selectMode s b :
  NoDup (dragSelectionDelta (getBaselineSelection s) media start previous target selectMode b).1.*1.
Proof.
  assert (NoDup (@nil (string * bool)).*1) as Hnil by constructor.
  unfold dragSelectionDelta. destruct previous; [|by apply updateRange_keys].
  repeat match goal with
  | |- NoDup (if ?c then _ else _).1.*1 => destruct c
  | |- NoDup (updateRange _ _ _ _ _ _ _).1.*1 => apply updateRange_keys
  end; done.
Qed.

Lemma updateDragSelection_keeps target p :
  count_ok p → count_ok (updateDragSelection target p) ∧ loads_as p (updateDragSelection target p).
Proof.
  intros [Hnd Hc]. unfold updateDragSelection. destruct (dragStartIndex p) as [start|]; [|done].
  destruct (_ || _); [done|]. cbn -[dragSelectionDelta].
  pose proof (delta_keys (media p) start (dragLastIndex p) target (dragSelectMode p) (store p) (dragBaseline p)) as Hkeys.
  destruct (dragSelectionDelta _ _ _ _ _ _ _) as [updates b]. destruct (store_update_spec (store p) updates Hkeys Hnd) as (H1 & H2 & _).
  split; [|done]. done.
Qed.

Lemma toggle_count s id :
  NoDup (SelectionStore.selectedIds s) →
  let '(s', n, _) := SelectionStore.toggle s id in NoDup (SelectionStore.selectedIds s') ∧ n = length (SelectionStore.selectedIds s').
Proof. intros Hs. simpl. split; [|done]. destruct (set_has _ _); auto using set_delete_NoDup, set_add_NoDup. Qed.

(** The events of the grid. *)
Definition grid_event (e : event) : bool :=
  match e with Tap _ | DragFrom _ _ | DragOver _ | DragEnd | DeselectAll => true | _ => false end.

Lemma grid_event_keeps p e :
  grid_event e = true → count_ok (ui p) →
  count_ok (ui (handle p e)) ∧ loads_as (ui p) (ui (handle p e)) ∧ waiting (handle p e) = waiting p.
Proof.
  intros He Hc. destruct e as [| | | |id|index force|index| |]; try done; simpl.
  - pose proof (toggle_count (store (ui p)) id (proj1 Hc)) as Ht. unfold toggleSelection, select.
    destruct (SelectionStore.toggle _ _) as [[s n] l]. done.
  - unfold beginDragSelection. destruct (id_at _ _); [|done].
    match goal with |- context [updateDragSelection index ?p'] => pose proof (updateDragSelection_keeps index p' Hc) as [? ?] end.
    done.
  - split; [by apply updateDragSelection_keeps|split; [|done]]. by apply updateDragSelection_keeps.
  - split; [|done]. split; [constructor|done].
Qed.

(** ** One request at a time *)

Section shown.
Context (belongs : option string → MediaAsset → Prop).

(** The requests of the current album that wait for their answer. *)
Definition current (p : picker) : list request :=
  filter (λ r, r_operation r = selectionOperation (ui p)) (waiting p).

Definition shown_ok (p : t) (all : list MediaAsset) : Prop :=
  NoDup (asset_id <$> all) ∧ Forall (belongs (selectedAlbum p)) all ∧ ∀ id, id ∈ asset_id <$> all → id ∈ loadedMediaIds p.

(** What waits tells whether the picker is busy. *)
Definition busy_ok (p : t) (rs : list request) : Prop :=
  match rs with
  | [] => loading p = false ∧ loadingMore p = false
  | [r] => r_album r = selectedAlbum p ∧
      match r_then r with
      | FetchMedia => loading p = true ∧ loadingMore p = false
      | LoadMore => loading p = false ∧ loadingMore p = true
      | SelectAll allMedia => loading p = true ∧ loadingMore p = false ∧ shown_ok p allMedia
      end
  | _ => False
  end.

Record picker_ok (p : picker) : Prop := {
  pk_shown : shown_ok (ui p) (media (ui p));
  pk_count : count_ok (ui p);
  pk_past : Forall (λ r, r_operation r <= selectionOperation (ui p))%nat (waiting p);
  pk_busy : busy_ok (ui p) (current p) }.

(** A page holds each asset once, and assets of the album it was asked of. *)
Definition truthful_answer (p : picker) (e : event) : Prop :=
  match e with
  | Answer index (Some page) =>
      match waiting p !! index with
      | Some r => NoDup (asset_id <$> assets page) ∧ Forall (belongs (r_album r)) (assets page)
      | None => True
      end
  | _ => True
  end.

Fixpoint truthful (p : picker) (es : list event) : Prop :=
  match es with
  | [] => True
  | e :: es => truthful_answer p e ∧ truthful (handle p e) es
  end.

Lemma past_none p n :
  Forall (λ r, r_operation r <= n)%nat p → filter (λ r, r_operation r = S n) p = [].
Proof.
  intros Hp. induction Hp as [|r p Hr Hp IH]; [done|]. rewrite filter_cons, decide_False by lia. done.
Qed.

Lemma past_mono p n : Forall (λ r, r_operation r <= n)%nat p → Forall (λ r, r_operation r <= S n)%nat p.
Proof. intros H. apply (Forall_impl _ _ _ H). intros r ?. lia. Qed.

Lemma fetch_ok album p :
  count_ok (ui p) → Forall (λ r, r_operation r <= selectionOperation (ui p))%nat (waiting p) →
  picker_ok (resume (fetchMedia album (ui p)) (waiting p)).
Proof.
  intros Hc Hp. split; simpl.
  - split; [constructor|]. split; [constructor|]. by intros id ?%elem_of_nil.
  - split; [constructor|done].
  - apply Forall_app. split; [by apply past_mono|]. constructor; [simpl; lia|constructor].
  - unfold current, resume. cbn -[filter]. rewrite filter_app, past_none by done.
    rewrite app_nil_l, filter_cons, decide_True by done. done.
Qed.

Lemma filter_delete {A} (P : A → Prop) `{∀ x, Decision (P x)} (l : list A) i x :
  l !! i = Some x →
  filter P l = filter P (take i l) ++ filter P [x] ++ filter P (drop (S i) l)
  ∧ filter P (delete i l) = filter P (take i l) ++ filter P (drop (S i) l).
Proof.
  intros Hi. rewrite delete_take_drop, filter_app. split; [|done].
  rewrite <-(take_drop_middle l i x Hi) at 1. rewrite filter_app. f_equal. rewrite !filter_cons.
  by destruct (decide (P x)).
Qed.

Lemma current_answered p i r :
  picker_ok p → waiting p !! i = Some r → r_operation r = selectionOperation (ui p) →
  current p = [r] ∧ filter (λ r, r_operation r = selectionOperation (ui p)) (delete i (waiting p)) = [].
Proof.
  intros Hok Hi Hr. pose proof (pk_busy p Hok) as Hb. unfold current in *.
  destruct (filter_delete (λ r, r_operation r = selectionOperation (ui p)) _ _ _ Hi) as [H1 H2]. rewrite H1 in *. rewrite H2.
  rewrite filter_cons, decide_True in Hb |- * by done. cbn [app] in *.
  destruct (filter _ (take i _)) as [|r1 [|r2 l]]; [|done|done].
  simpl in Hb |- *. by destruct (filter _ (drop _ _)) as [|r3 l].
Qed.

Lemma current_dropped p i r :
  waiting p !! i = Some r → r_operation r ≠ selectionOperation (ui p) →
  filter (λ r, r_operation r = selectionOperation (ui p)) (delete i (waiting p)) = current p.
Proof.
  intros Hi Hr. unfold current. destruct (filter_delete (λ r, r_operation r = selectionOperation (ui p)) _ _ _ Hi) as [-> ->].
  by rewrite filter_cons, decide_False.
Qed.

Lemma current_resume ws p rs :
  Forall (λ r, r_operation r = selectionOperation p) rs →
  current (resume (p, rs) ws) = filter (λ r, r_operation r = selectionOperation p) ws ++ rs.
Proof.
  intros Hrs. unfold current, resume. simpl. rewrite filter_app. f_equal. induction Hrs as [|r rs Hr Hrs IH]; [done|].
  by rewrite filter_cons, decide_True, IH.
Qed.

Lemma idle_current p : picker_ok p → loading (ui p) = false → loadingMore (ui p) = false → current p = [].
Proof.
  intros Hok Hl Hm. pose proof (pk_busy p Hok) as Hb. destruct (current p) as [|r [|r2 l]]; [done| |done].
  simpl in Hb. destruct Hb as [_ Hb]. destruct (r_then r); intuition congruence.
Qed.

Lemma shown_unseen p all page additions seen :
  shown_ok p all → NoDup (asset_id <$> page) → Forall (belongs (selectedAlbum p)) page →
  unseen (loadedMediaIds p) page = (additions, seen) →
  ∀ p', selectedAlbum p' = selectedAlbum p → loadedMediaIds p' = seen → shown_ok p' (all ++ additions).
Proof.
  intros (Hnd & Hbel & Hin) Hpage Hb Hu p' Ha Hl. pose proof (unseen_spec page (loadedMediaIds p)) as Hs. rewrite Hu in Hs.
  destruct Hs as (H1 & H2 & H3 & H4). unfold shown_ok. rewrite fmap_app, Ha, Hl. split.
  - apply NoDup_app. split; [done|]. split; [|done]. intros id Hid [_ Hn]%H3. by apply Hn, Hin.
  - split; [apply Forall_app; split; [done|]; rewrite Forall_forall in Hb |- *; intros a [Ha' _]%H1; by apply Hb|].
    intros id [Hid|Hid]%elem_of_app; apply H4; [left; by apply Hin|right; by apply H3].
Qed.

Lemma replace_count (s : SelectionStore.t) ids :
  let '(s', n, _) := SelectionStore.replace s ids in
  NoDup (SelectionStore.selectedIds s') ∧ n = length (SelectionStore.selectedIds s').
Proof. simpl. split; [apply set_of_NoDup|done]. Qed.

Lemma all_selected_ok ws allMedia after p :
  filter (λ r, r_operation r = selectionOperation p) ws = [] → loadingMore p = false → shown_ok p allMedia →
  Forall (λ r, r_operation r <= selectionOperation p)%nat ws →
  picker_ok (resume (all_selected allMedia after p, []) ws).
Proof.
  intros Hws Hm Hs Hp. split.
  - exact Hs.
  - split; [apply set_of_NoDup|done].
  - simpl. by rewrite app_nil_r.
  - rewrite current_resume by constructor. simpl. change (selectionOperation (all_selected _ _ _)) with (selectionOperation p).
    rewrite Hws. done.
Qed.

Lemma past_delete i ws n :
  Forall (λ r, r_operation r <= n)%nat ws → Forall (λ r, r_operation r <= n)%nat (delete i ws).
Proof. intros H. rewrite delete_take_drop. apply Forall_app. split; [by apply Forall_take|by apply Forall_drop]. Qed.

(** An answer to the request in progress. *)
Lemma answered_ok p i r answer :
  picker_ok p → waiting p !! i = Some r → r_operation r = selectionOperation (ui p) →
  truthful_answer p (Answer i answer) →
  picker_ok (resume (answered r answer (ui p)) (delete i (waiting p))).
Proof.
  intros Hok Hi Hr Htruth. destruct (current_answered p i r Hok Hi Hr) as [Hcur Hdel].
  pose proof (pk_busy p Hok) as Hb. rewrite Hcur in Hb. destruct Hb as [Halbum Hb].
  pose proof (past_delete i _ _ (pk_past p Hok)) as Hpast.
  unfold answered. rewrite bool_decide_eq_false_2 by (intros Hne; by apply Hne).
  assert (∀ u, selectionOperation u = selectionOperation (ui p) → loading u = false → loadingMore u = false →
    shown_ok u (media u) → count_ok u → picker_ok (resume (u, []) (delete i (waiting p)))) as Hidle.
  { intros u Ho Hl Hm Hs Hc. split; [done|done| |].
    - simpl. by rewrite app_nil_r, Ho.
    - rewrite current_resume, Ho, Hdel by constructor. done. }
  unfold truthful_answer in Htruth. rewrite Hi in Htruth.
  destruct (r_then r) as [| |allMedia].
  - destruct Hb as [Hl Hm]. destruct answer as [page|]; simpl.
    + destruct Htruth as [Hp1 Hp2]. rewrite Halbum in Hp2. apply Hidle; try done; [|apply Hok].
      split; [done|]. split; [done|]. intros id. simpl. by rewrite elem_set_of.
    + apply Hidle; try done; [|split; [constructor|done]]. split; [constructor|]. split; [constructor|]. by intros id ?%elem_of_nil.
  - destruct Hb as [Hl Hm]. destruct answer as [page|]; simpl.
    + destruct Htruth as [Hp1 Hp2]. rewrite Halbum in Hp2. destruct (unseen _ _) as [additions seen] eqn:Hu.
      apply Hidle; try done; [|apply Hok].
      assert (shown_ok (ui p) (media (ui p))) as Hs by apply Hok.
      simpl. case_bool_decide as Hnil; [rewrite <-(app_nil_r (media (ui p))), <-Hnil|];
        (eapply shown_unseen; [exact Hs|done|done|exact Hu|done|done]).
    + apply Hidle; try done; apply Hok.
  - destruct Hb as (Hl & Hm & Hs). destruct answer as [page|]; simpl.
    + destruct Htruth as [Hp1 Hp2]. rewrite Halbum in Hp2. destruct (unseen _ _) as [additions seen] eqn:Hu.
      assert (∀ u, selectedAlbum u = selectedAlbum (ui p) → loadedMediaIds u = seen → shown_ok u (allMedia ++ additions)) as Hall.
      { by apply (shown_unseen (ui p) allMedia (assets page)). }
      destruct (page_hasNextPage page).
      * split; simpl.
        -- destruct (pk_shown p Hok) as (H1 & H2 & H3). split; [done|]. split; [done|]. intros id Hid.
           pose proof (unseen_spec (assets page) (loadedMediaIds (ui p))) as Hs'. rewrite Hu in Hs'. apply Hs'. left. by apply H3.
        -- apply Hok.
        -- apply Forall_app. split; [done|]. constructor; [simpl; lia|constructor].
        -- rewrite current_resume by (constructor; [done|constructor]). simpl. rewrite Hdel. simpl.
           split; [done|]. split; [done|]. split; [done|]. by apply Hall.
      * apply all_selected_ok; [done|done| |done]. by apply Hall.
    + apply Hidle; try done; apply Hok.
Qed.

Lemma all_selected_count all after u : count_ok (all_selected all after u).
Proof. split; [apply set_of_NoDup|done]. Qed.

Lemma handle_count p e : count_ok (ui p) → count_ok (ui (handle p e)).
Proof.
  intros Hc. destruct (grid_event e) eqn:Hgrid; [by apply grid_event_keeps|].
  destruct e as [album| | |i answer| | | | |]; try done; simpl.
  - case_bool_decide; [done|]. split; [constructor|done].
  - unfold loadMoreMedia. by destruct (_ || _ || _).
  - unfold selectAll. destruct (_ || _); [done|]. destruct (hasNextPage _); [done|apply all_selected_count].
  - destruct (waiting p !! i) as [r|]; [|done]. unfold answered. case_bool_decide; [done|].
    destruct (r_then r) as [| |all]; destruct answer as [page|]; simpl; try done; [split; [constructor|done]|..];
      destruct (unseen _ _) as [additions seen]; [done|].
    destruct (page_hasNextPage page); [done|apply all_selected_count].
Qed.

Lemma resume_nothing p : resume (ui p, []) (waiting p) = p.
Proof. unfold resume. simpl. rewrite app_nil_r. by destruct p. Qed.

Lemma handle_ok p e : picker_ok p → truthful_answer p e → picker_ok (handle p e).
Proof.
  intros Hok Htruth. destruct (grid_event e) eqn:Hgrid.
  { destruct (grid_event_keeps p e Hgrid (pk_count p Hok)) as (Hc & (E1 & E2 & E3 & E4 & E5 & E6 & E7) & Hw).
    destruct Hok as [[S1 [S2 S3]] _ Hp Hb]. split; [|done| |].
    - split; [by rewrite E1|]. split; [by rewrite E1, E3|]. by rewrite E1, E7.
    - by rewrite Hw, E4.
    - unfold current in *. rewrite Hw, E4. destruct (filter _ (waiting p)) as [|r [|r2 l]]; [by simpl; rewrite E2, E6| |done].
      simpl in *. rewrite E3. unfold shown_ok in *. destruct (r_then r); by rewrite E2, E6, ?E3, ?E7. }
  destruct e as [album| | |i answer| | | | |]; try done; simpl in *.
  - case_bool_decide; [done|]. by apply fetch_ok; apply Hok.
  - unfold loadMoreMedia. destruct (loading (ui p)) eqn:Hl; [cbn [orb negb]; by rewrite resume_nothing|].
    destruct (loadingMore (ui p)) eqn:Hm; [cbn [orb negb]; by rewrite resume_nothing|].
    destruct (hasNextPage (ui p)); [|cbn [orb negb]; by rewrite resume_nothing]. cbn [orb negb].
    pose proof (idle_current p Hok Hl Hm) as Hcur. split; simpl; try apply Hok.
    + apply Forall_app. split; [apply Hok|]. constructor; [simpl; lia|constructor].
    + rewrite current_resume by (constructor; [done|constructor]). simpl. unfold current in Hcur. by rewrite Hcur.
  - unfold selectAll. destruct (loading (ui p)) eqn:Hl; [cbn [orb negb]; by rewrite resume_nothing|].
    destruct (loadingMore (ui p)) eqn:Hm; [cbn [orb negb]; by rewrite resume_nothing|]. cbn [orb].
    pose proof (idle_current p Hok Hl Hm) as Hcur. destruct (hasNextPage _).
    + split; simpl; try apply Hok.
      * apply Forall_app. split; [apply Hok|]. constructor; [simpl; lia|constructor].
      * rewrite current_resume by (constructor; [done|constructor]). simpl. unfold current in Hcur. rewrite Hcur. simpl.
        split; [done|]. split; [done|]. split; [done|]. apply Hok.
    + apply all_selected_ok; [done|done|apply Hok|apply Hok].
  - destruct (waiting p !! i) as [r|] eqn:Hi; [|done]. destruct (decide (r_operation r = selectionOperation (ui p))) as [Hr|Hr].
    + apply answered_ok; try done. unfold truthful_answer. by rewrite Hi.
    + unfold answered. rewrite bool_decide_eq_true_2 by done. split; simpl; try apply Hok.
      * rewrite app_nil_r. by apply past_delete, Hok.
      * rewrite current_resume by constructor. rewrite (current_dropped p i r Hi Hr), app_nil_r. apply Hok.
Qed.

Lemma mounted_ok : picker_ok mounted.
Proof. unfold mounted. apply (fetch_ok None {| ui := initial; waiting := [] |}); [split; [constructor|done]|constructor]. Qed.

Lemma events_ok es : ∀ p, picker_ok p → truthful p es → picker_ok (foldl handle p es).
Proof. induction es as [|e es IH]; intros p Hok Ht; simpl; [done|]. destruct Ht. apply IH; [by apply handle_ok|done]. Qed.

End shown.

(** ** Selecting the whole album *)

(** The answers to a request that waits at [index], and to those that follow it. *)
Definition page_answers (index : nat) (pages : list MediaPage) : list event := (λ page, Answer index (Some page)) <$> pages.

(** The pages up to the last one. *)
Fixpoint complete (pages : list MediaPage) : bool :=
  match pages with
  | [] => false
  | [page] => negb (page_hasNextPage page)
  | page :: pages => page_hasNextPage page && complete pages
  end.

(** [selectAll] at work: it has collected [all] and waits for the next page. *)
Definition collecting (u : t) (after : option string) (all : list MediaAsset) (ws : list request) : picker :=
  {| ui := u; waiting := ws ++ [asks u after (SelectAll all)] |}.

Lemma collect_page u after all ws page :
  handle (collecting u after all ws) (Answer (length ws) (Some page)) =
  let '(additions, seen) := unseen (loadedMediaIds u) (assets page) in
  let u := u <| loadedMediaIds := seen |> in
  if page_hasNextPage page then collecting u (endCursor page) (all ++ additions) ws
  else {| ui := all_selected (all ++ additions) (endCursor page) u; waiting := ws |}.
Proof.
  simpl. rewrite lookup_app_r, Nat.sub_diag by lia. simpl. unfold answered.
  rewrite bool_decide_eq_false_2 by (simpl; naive_solver). simpl. destruct (unseen _ _) as [additions seen].
  rewrite (delete_middle ws []), app_nil_r. unfold resume, collecting.
  destruct (page_hasNextPage page); simpl; [done|]. by rewrite app_nil_r.
Qed.

Lemma collect_pages pages : ∀ u after all ws,
  complete pages = true → NoDup (asset_id <$> all) → (∀ id, id ∈ asset_id <$> all → id ∈ loadedMediaIds u) →
  ∃ all' u', ui (foldl handle (collecting u after all ws) (page_answers (length ws) pages)) = u'
    ∧ media u' = all' ∧ NoDup (asset_id <$> all')
    ∧ SelectionStore.selectedIds (store u') = set_of (set_of (asset_id <$> all'))
    ∧ selectedCount u' = length (set_of (set_of (asset_id <$> all'))) ∧ loading u' = false ∧ hasNextPage u' = false
    ∧ ∀ id, id ∈ asset_id <$> all' ↔
        id ∈ asset_id <$> all ∨ (id ∈ asset_id <$> (pages ≫= assets) ∧ id ∉ loadedMediaIds u).
Proof.
  induction pages as [|page pages IH]; intros u after all ws Hc Hnd Hin; [done|].
  unfold page_answers. rewrite fmap_cons. cbn [foldl]. rewrite collect_page.
  pose proof (unseen_spec (assets page) (loadedMediaIds u)) as Hs. destruct (unseen _ _) as [additions seen].
  destruct Hs as (H1 & H2 & H3 & H4). cbn zeta.
  assert (NoDup (asset_id <$> (all ++ additions))) as Hnd'.
  { rewrite fmap_app. apply NoDup_app. split; [done|]. split; [|done]. intros id Hid [_ Hn]%H3. by apply Hn, Hin. }
  assert (∀ id, id ∈ asset_id <$> (all ++ additions) ↔
    id ∈ asset_id <$> all ∨ (id ∈ asset_id <$> assets page ∧ id ∉ loadedMediaIds u)) as Hall.
  { intros id. rewrite fmap_app, elem_of_app, H3. done. }
  destruct (page_hasNextPage page) eqn:Hnext.
  - assert (complete pages = true) as Hc' by (simpl in Hc; destruct pages; [by rewrite Hnext in Hc|by apply andb_prop in Hc as [_ Hc]]).
    destruct (IH (u <| loadedMediaIds := seen |>) (endCursor page) (all ++ additions) ws Hc' Hnd') as (all' & u' & Hu & ? & ? & ? & ? & ? & ? & Hids).
    { intros id Hid. simpl. apply H4. apply Hall in Hid as [?|[? _]]; [left; by apply Hin|by right]. }
    exists all', u'. do 7 (split; [done|]). intros id. rewrite Hids, Hall. simpl. rewrite fmap_app, elem_of_app.
    specialize (H4 id). simpl in H4. destruct (decide (id ∈ loadedMediaIds u)), (decide (id ∈ asset_id <$> assets page)); tauto.
  - assert (pages = []) as -> by (simpl in Hc; destruct pages; [done|by rewrite Hnext in Hc]).
    cbn [fmap list_fmap foldl ui]. eexists _, _. split; [reflexivity|]. do 6 (split; [done|]).
    intros id. simpl. rewrite app_nil_r. apply Hall.
Qed.

(** "select all" selects the whole album. When the picker is idle and every page it asks
    for arrives, the grid then shows the assets it showed and every new one of those pages,
    exactly the shown assets are selected, the shown count is their number, nothing is left
    to load, and the picker is idle again. *)
Lemma select_all_selects_album belongs es pages :
  truthful belongs mounted es →
  let p := foldl handle mounted es in
  loading (ui p) = false → loadingMore (ui p) = false →
  (if hasNextPage (ui p) then complete pages else bool_decide (pages = [])) = true →
  let u := ui (foldl handle p (TapSelectAll :: page_answers (length (waiting p)) pages)) in
  (∀ id, id ∈ asset_id <$> media u ↔
     id ∈ asset_id <$> media (ui p) ∨ (id ∈ asset_id <$> (pages ≫= assets) ∧ id ∉ loadedMediaIds (ui p)))
  ∧ (∀ id, SelectionStore.isSelected (store u) id = true ↔ id ∈ asset_id <$> media u)
  ∧ selectedCount u = length (media u) ∧ loading u = false ∧ hasNextPage u = false.
Proof.
  intros Ht p Hl Hm Hpages u. pose proof (events_ok belongs es _ (mounted_ok belongs) Ht) as Hok. fold p in Hok.
  destruct (pk_shown belongs p Hok) as (Hnd & _ & Hin).
  assert (∃ all' u', ui (foldl handle p (TapSelectAll :: page_answers (length (waiting p)) pages)) = u'
    ∧ media u' = all' ∧ NoDup (asset_id <$> all')
    ∧ SelectionStore.selectedIds (store u') = set_of (set_of (asset_id <$> all'))
    ∧ selectedCount u' = length (set_of (set_of (asset_id <$> all'))) ∧ loading u' = false ∧ hasNextPage u' = false
    ∧ ∀ id, id ∈ asset_id <$> all' ↔
        id ∈ asset_id <$> media (ui p) ∨ (id ∈ asset_id <$> (pages ≫= assets) ∧ id ∉ loadedMediaIds (ui p))) as Hrun.
  { cbn [foldl handle]. unfold selectAll. rewrite Hl, Hm. cbn [orb]. change (hasNextPage (ui p <| loading := true |>)) with (hasNextPage (ui p)).
    destruct (hasNextPage (ui p)).
    - by refine (collect_pages pages (ui p <| loading := true |>) (pageCursor (ui p)) (media (ui p)) (waiting p) _ _ _).
    - apply bool_decide_eq_true_1 in Hpages as ->. cbn [page_answers fmap list_fmap foldl resume ui fst]. eexists _, _. split; [reflexivity|].
      do 6 (split; [done|]). intros id. simpl. rewrite elem_of_nil. naive_solver. }
  fold u in Hrun. destruct Hrun as (all' & u' & <- & <- & Hnd' & Hsel & Hcount & Hl' & Hn' & Hids).
  split; [done|]. split; [|split; [|done]].
  - intros id. unfold SelectionStore.isSelected. by rewrite set_has_true, Hsel, !elem_set_of.
  - by rewrite Hcount, !set_of_fresh, length_fmap by (try apply set_of_NoDup; done).
Qed.

(** C24: the picker shows assets of the chosen album, each once. Pages may be answered late, in
    any order or never, after further taps, drags and changes of the album: an answer to an
    earlier choice changes nothing, the picker says that it is loading or loading more, never
    both, exactly while one request of the current choice is unanswered, which asks for the
    chosen album, every shown asset comes from a page of that album, none is shown twice, and
    the shown count is the number of selected ids. *)
Theorem picker_shows_album belongs es :
  truthful belongs mounted es →
  let p := foldl handle mounted es in
  NoDup (asset_id <$> media (ui p))
  ∧ Forall (belongs (selectedAlbum (ui p))) (media (ui p))
  ∧ length (current p) = (if loading (ui p) || loadingMore (ui p) then 1%nat else 0%nat)
  ∧ loading (ui p) && loadingMore (ui p) = false
  ∧ Forall (λ r, r_album r = selectedAlbum (ui p)) (current p)
  ∧ selectedCount (ui p) = length (SelectionStore.selectedIds (store (ui p)))
  ∧ ∀ i r answer, waiting p !! i = Some r → r_operation r ≠ selectionOperation (ui p) →
      ui (handle p (Answer i answer)) = ui p.
Proof.
  intros Ht p. pose proof (events_ok belongs es _ (mounted_ok belongs) Ht) as Hok. fold p in Hok.
  split; [apply Hok|]. split; [apply Hok|].
  assert (length (current p) = (if loading (ui p) || loadingMore (ui p) then 1%nat else 0%nat)
    ∧ loading (ui p) && loadingMore (ui p) = false ∧ Forall (λ r, r_album r = selectedAlbum (ui p)) (current p)) as (H1 & H2 & H3).
  { pose proof (pk_busy belongs p Hok) as Hb. destruct (current p) as [|r [|r2 l]]; [by destruct Hb as [-> ->]| |done].
    destruct Hb as [Ha Hb]. assert (Forall (λ r, r_album r = selectedAlbum (ui p)) [r]) by (by repeat constructor).
    destruct (r_then r); [by destruct Hb as [-> ->]..|by destruct Hb as (-> & -> & _)]. }
  do 3 (split; [done|]). split; [apply Hok|]. intros i r answer Hi Hr. simpl. rewrite Hi. unfold answered. by rewrite bool_decide_eq_true_2.
Qed.

(** ** When selecting the album fails *)

(** An asset the picker takes for shown though it is not. *)
Definition hidden (id : string) (p : picker) : Prop :=
  id ∈ loadedMediaIds (ui p) ∧ id ∉ asset_id <$> media (ui p)
  ∧ Forall (λ r, match r_then r with
                 | FetchMedia => False
                 | LoadMore => True
                 | SelectAll all => id ∉ asset_id <$> all
                 end) (current p).

Lemma unseen_skips id seen page :
  id ∈ seen → let '(additions, seen') := unseen seen page in id ∉ asset_id <$> additions ∧ id ∈ seen'.
Proof.
  intros Hid. pose proof (unseen_spec page seen) as Hs. destruct (unseen seen page) as [additions seen'].
  destruct Hs as (_ & _ & H3 & H4). split; [by intros [_ ?]%H3|]. apply H4. by left.
Qed.

Lemma hidden_answered id p i r answer :
  hidden id p → waiting p !! i = Some r → r_operation r = selectionOperation (ui p) →
  hidden id (resume (answered r answer (ui p)) (delete i (waiting p))).
Proof.
  intros (Hl & Hm & Hc) Hi Hr.
  assert (r ∈ current p) as Hin by (apply list_elem_of_filter; split; [done|by eapply list_elem_of_lookup_2]).
  assert (match r_then r with FetchMedia => False | LoadMore => True | SelectAll all => id ∉ asset_id <$> all end) as Hthen
    by (by rewrite Forall_forall in Hc; apply (Hc r Hin)).
  assert (∀ u rs, selectionOperation u = selectionOperation (ui p) → id ∈ loadedMediaIds u → id ∉ asset_id <$> media u →
    Forall (λ r, r_operation r = selectionOperation u) rs →
    Forall (λ r, match r_then r with FetchMedia => False | LoadMore => True | SelectAll all => id ∉ asset_id <$> all end) rs →
    hidden id (resume (u, rs) (delete i (waiting p)))) as Hres.
  { intros u rs Ho Hl' Hm' Hrs Hrs'. split; [done|]. split; [done|]. rewrite current_resume by done. rewrite Ho.
    apply Forall_app. split; [|done]. unfold current in Hc.
    destruct (filter_delete (λ r, r_operation r = selectionOperation (ui p)) _ _ _ Hi) as [H1 H2]. rewrite H1 in Hc. rewrite H2.
    apply Forall_app in Hc as [? [_ ?]%Forall_app]. by apply Forall_app. }
  unfold answered. rewrite bool_decide_eq_false_2 by (intros Hne; by apply Hne).
  destruct (r_then r) as [| |all]; [done| |]; destruct answer as [page|]; simpl; try (by apply Hres);
    pose proof (unseen_skips id (loadedMediaIds (ui p)) (assets page) Hl) as Hs;
    destruct (unseen _ _) as [additions seen]; destruct Hs as [Ha Hs].
  - apply Hres; try done. simpl. case_bool_decide; [done|]. rewrite fmap_app, elem_of_app. naive_solver.
  - assert (id ∉ asset_id <$> (all ++ additions)) by (rewrite fmap_app, elem_of_app; naive_solver).
    destruct (page_hasNextPage page); by apply Hres; repeat constructor.
Qed.

Lemma hidden_handle id p e :
  (∀ album, e ≠ ChooseAlbum album) → count_ok (ui p) → hidden id p → hidden id (handle p e).
Proof.
  intros He Hcount (Hl & Hm & Hc). destruct (grid_event e) eqn:Hgrid.
  { destruct (grid_event_keeps p e Hgrid Hcount) as (_ & (E1 & E2 & E3 & E4 & E5 & E6 & E7) & Hw).
    unfold hidden, current. by rewrite Hw, E1, E4, E7. }
  destruct e as [album| | |i answer| | | | |]; try done; [by destruct (He album)|..]; simpl.
  - unfold loadMoreMedia. destruct (_ || _ || _); [by rewrite resume_nothing|].
    split; [done|]. split; [done|]. rewrite current_resume by (by repeat constructor). apply Forall_app. split; [done|by repeat constructor].
  - unfold selectAll. destruct (_ || _); [by rewrite resume_nothing|]. destruct (hasNextPage _).
    + split; [done|]. split; [done|]. rewrite current_resume by (by repeat constructor). apply Forall_app. split; [done|by repeat constructor].
    + split; [done|]. split; [done|]. rewrite current_resume by constructor. by rewrite app_nil_r.
  - destruct (waiting p !! i) as [r|] eqn:Hi; [|done]. destruct (decide (r_operation r = selectionOperation (ui p))) as [Hr|Hr].
    + by apply hidden_answered.
    + unfold answered. rewrite bool_decide_eq_true_2 by done. split; [done|]. split; [done|].
      rewrite current_resume by constructor. by rewrite (current_dropped p i r Hi Hr), app_nil_r.
Qed.

(** What [selectAll] has collected and marked as seen while more pages follow. *)
Lemma collect_more pages : ∀ u after all ws,
  forallb page_hasNextPage pages = true →
  ∃ u' after' all', foldl handle (collecting u after all ws) (page_answers (length ws) pages) = collecting u' after' all' ws
    ∧ media u' = media u ∧ selectionOperation u' = selectionOperation u ∧ loadingMore u' = loadingMore u
    ∧ store u' = store u ∧ selectedCount u' = selectedCount u
    ∧ ∀ id, id ∈ loadedMediaIds u' ↔ id ∈ loadedMediaIds u ∨ id ∈ asset_id <$> (pages ≫= assets).
Proof.
  induction pages as [|page pages IH]; intros u after all ws Hnext.
  { exists u, after, all. do 6 (split; [done|]). intros id. simpl. rewrite elem_of_nil. tauto. }
  simpl in Hnext. apply andb_prop in Hnext as [Hp Hnext]. unfold page_answers. rewrite fmap_cons. cbn [foldl]. rewrite collect_page.
  pose proof (unseen_spec (assets page) (loadedMediaIds u)) as Hs. destruct (unseen _ _) as [additions seen].
  destruct Hs as (_ & _ & _ & H4). cbn zeta. rewrite Hp. cbv iota. fold (page_answers (length ws) pages).
  destruct (IH (u <| loadedMediaIds := seen |>) (endCursor page) (all ++ additions) ws Hnext) as (u' & after' & all' & -> & ? & ? & ? & ? & ? & Hids).
  exists u', after', all'. do 6 (split; [done|]). intros id. rewrite Hids. simpl. rewrite H4, fmap_app, elem_of_app. tauto.
Qed.

(** C38: a failed "select all" hides assets. The pages it has read are marked as loaded before
    the last page arrives, and only a complete run adds their assets to the grid: when a later
    page fails, none of these assets is shown until an album is chosen again, whatever else the
    user does and the library answers, not even by the "select all" the message asks to try
    again. *)
Theorem failed_select_all_hides_assets belongs es pages es' :
  truthful belongs mounted es →
  let p := foldl handle mounted es in
  loading (ui p) = false → loadingMore (ui p) = false → hasNextPage (ui p) = true →
  forallb page_hasNextPage pages = true →
  let n := length (waiting p) in
  let p1 := foldl handle p (TapSelectAll :: page_answers n pages ++ [Answer n None]) in
  Forall (λ e, ∀ album, e ≠ ChooseAlbum album) es' →
  loading (ui p1) = false
  ∧ ∀ id, id ∈ asset_id <$> (pages ≫= assets) → id ∉ loadedMediaIds (ui p) →
      id ∉ asset_id <$> media (ui (foldl handle p1 es')).
Proof.
  intros Ht p Hl Hm Hnext Hpages n p1 Hes. pose proof (events_ok belongs es _ (mounted_ok belongs) Ht) as Hok. fold p in Hok.
  pose proof (idle_current belongs p Hok Hl Hm) as Hcur. destruct (pk_shown belongs p Hok) as (_ & _ & Hin).
  destruct (collect_more pages (ui p <| loading := true |>) (pageCursor (ui p)) (media (ui p)) (waiting p) Hpages)
    as (u' & after' & all' & Hrun & Hmedia & Hop & Hmore & Hstore & Hcount & Hids).
  assert (p1 = {| ui := u' <| loading := false |>; waiting := waiting p |}) as Hp1.
  { subst p1. cbn [foldl handle]. unfold selectAll. rewrite Hl, Hm. cbn [orb].
    change (hasNextPage (ui p <| loading := true |>)) with (hasNextPage (ui p)). rewrite Hnext, foldl_app.
    change (resume _ _) with (collecting (ui p <| loading := true |>) (pageCursor (ui p)) (media (ui p)) (waiting p)).
    subst n. rewrite Hrun. cbn [foldl handle]. unfold collecting. cbn [waiting]. rewrite lookup_app_r, Nat.sub_diag by lia.
    cbn [lookup list_lookup]. unfold answered. rewrite bool_decide_eq_false_2 by (simpl; naive_solver). simpl.
    rewrite (delete_middle (waiting p) []), app_nil_r. unfold resume. simpl. by rewrite app_nil_r. }
  split; [by rewrite Hp1|]. intros id Hid Hnew.
  assert (count_ok (ui p1) ∧ hidden id p1) as [Hc1 Hh1].
  { rewrite Hp1. split; [unfold count_ok; simpl; rewrite Hstore, Hcount; apply Hok|]. split; [simpl; apply Hids; by right|].
    split; [simpl; rewrite Hmedia; simpl; intros ?; by apply Hnew, Hin|]. unfold current in *. simpl. rewrite Hop. simpl.
    rewrite Hcur. constructor. }
  clear - Hes Hc1 Hh1. clearbody p1. clear -Hes Hc1 Hh1. revert p1 Hc1 Hh1.
  induction Hes as [|e es' He Hes IH]; intros p1 Hc1 Hh1; simpl; [apply Hh1|].
  apply IH; [by apply handle_count|by apply hidden_handle].
Qed.

(** ** A concrete picker *)

Definition sample_asset (id : string) : MediaAsset :=
  {| asset_id := id; asset_uri := "ph://" +:+ id; asset_type := photo; asset_filename := id +:+ ".HEIC" |}.
Definition sample_page (ids : list string) (next : bool) : MediaPage :=
  {| assets := sample_asset <$> ids; page_hasNextPage := next; endCursor := last ids |}.

(** The first page has arrived. *)
Definition sample_events : list event := [Answer 0 (Some (sample_page ["a"; "b"] true))].

Lemma sample_truthful : truthful (λ _ _, True) mounted sample_events.
Proof.
  split; [|exact I]. split; [apply (bool_decide_unpack _); vm_compute; exact I|].
  repeat (constructor; [exact I|]). constructor.
Defined.

(** Four assets, the third one selected; the finger goes from the second to the last and back
    to the first. *)
Definition sample_picker : t :=
  toggleSelection "c" (initial <| media := sample_asset <$> ["a"; "b"; "c"; "d"] |>).

Lemma drag_selects_range_witness :
  let p' := foldl (λ p target, updateDragSelection target p) (beginDragSelection 1 true sample_picker) [3; -1; 0] in
  SelectionStore.selectedIds (store p') = ["c"; "b"; "a"] ∧ selectedCount p' = 3%nat
  ∧ ∀ id, id ∉ asset_id <$> media sample_picker →
      SelectionStore.isSelected (store p') id = SelectionStore.isSelected (store sample_picker) id.
Proof.
  split; [vm_compute; reflexivity|]. split; [vm_compute; reflexivity|].
  refine (proj1 (proj2 (drag_selects_range sample_picker 1 true [3; -1; 0] "b" _ _ _))).
  - split; [apply (bool_decide_unpack _); vm_compute; exact I|apply (bool_decide_unpack _); vm_compute; exact I].
  - apply (bool_decide_unpack _). vm_compute. exact I.
  - vm_compute. reflexivity.
Defined.

(** The album is changed twice before its first page arrives: only the last one counts. *)
Definition sample_changes : list event :=
  sample_events ++ [ChooseAlbum (Some "Trips"); ChooseAlbum None; Answer 0 (Some (sample_page ["x"] false));
                    Answer 0 (Some (sample_page ["a"] true))].

Lemma picker_shows_album_witness :
  let p := foldl handle mounted sample_changes in
  asset_id <$> media (ui p) = ["a"]
  ∧ length (current p) = (if loading (ui p) || loadingMore (ui p) then 1%nat else 0%nat).
Proof.
  split; [vm_compute; reflexivity|].
  refine (proj1 (proj2 (proj2 (picker_shows_album (λ _ _, True) sample_changes _)))).
  repeat (split || constructor); try (apply (bool_decide_unpack _); vm_compute; exact I).
Defined.

Lemma select_all_selects_album_witness :
  let p := foldl handle mounted sample_events in
  let u := ui (foldl handle p (TapSelectAll :: page_answers (length (waiting p))
             [sample_page ["b"; "c"] true; sample_page ["d"] false])) in
  asset_id <$> media u = ["a"; "b"; "c"; "d"] ∧ selectedCount u = length (media u).
Proof.
  split; [vm_compute; reflexivity|].
  refine (proj1 (proj2 (proj2 (select_all_selects_album (λ _ _, True) sample_events _ sample_truthful _ _ _)))); vm_compute; reflexivity.
Defined.

(** The second page arrives, the third fails; trying again shows the third but never the second. *)
Definition sample_retry : list event :=
  TapSelectAll :: page_answers 0 [sample_page ["c"; "d"] true; sample_page ["e"] false].

Lemma failed_select_all_hides_assets_witness :
  let p := foldl handle mounted sample_events in
  let p1 := foldl handle p (TapSelectAll :: page_answers 0 [sample_page ["c"; "d"] true] ++ [Answer 0 None]) in
  asset_id <$> media (ui (foldl handle p1 sample_retry)) = ["a"; "b"; "e"]
  ∧ "c" ∉ asset_id <$> media (ui (foldl handle p1 sample_retry)).
Proof.
  split; [vm_compute; reflexivity|].
  refine (proj2 (failed_select_all_hides_assets (λ _ _, True) sample_events [sample_page ["c"; "d"] true] sample_retry
    sample_truthful _ _ _ _ _) "c" _ _); try (vm_compute; reflexivity).
  - repeat constructor; intros album; discriminate.
  - apply (bool_decide_unpack _). vm_compute. exact I.
  - apply (bool_decide_unpack _). vm_compute. exact I.
Defined.

(** ** The grid under the finger *)

Lemma Qmax0_nonneg x : (0 <= Qmax0 x)%Q.
Proof. unfold Qmax0. destruct (Qle_bool 0 x) eqn:H; [by apply Qle_bool_iff|apply Qle_refl]. Qed.

(** A drag index is an index of the album. *)
Lemma gridIndexForPoint_bounds x y scroll count layout :
  0 < count → 0 < numColumns layout → 0 <= gridIndexForPoint x y scroll count layout < count.
Proof.
  intros Hc Hn. unfold gridIndexForPoint. rewrite (proj2 (Z.leb_gt _ _)) by done.
  set (col := Z.max 0 _). set (row := Z.max 0 _). assert (0 <= col /\ 0 <= row) by lia. nia.
Qed.

(** Auto-scrolling stays within the content. *)
Lemma nextAutoScrollOffset_bounds offset v ms maxOffset :
  (0 <= maxOffset)%Q → (0 <= nextAutoScrollOffset offset v ms maxOffset <= maxOffset)%Q.
Proof.
  intros Hm. unfold nextAutoScrollOffset. split; [apply Qmax0_nonneg|].
  unfold Qmax0. destruct (Qle_bool 0 _); [|done]. unfold Qmin. destruct (Qle_bool maxOffset _) eqn:H; [apply Qle_refl|].
  apply Qnot_lt_le. intros Hlt. apply Qlt_le_weak in Hlt. apply Qle_bool_iff in Hlt. congruence.
Qed.

(** The middle of the screen does not scroll, and the speed is at most 480 points a second. *)
Lemma dragAutoScrollVelocity_still y height :
  (0 < height)%Q → (Qmin 80 (height * (1 # 5)) <= y)%Q → (y <= height - Qmin 80 (height * (1 # 5)))%Q →
  dragAutoScrollVelocity y height = 0%Q.
Proof.
  intros Hh Hlo Hhi. unfold dragAutoScrollVelocity.
  destruct (Qle_bool height 0) eqn:H0; [done|]. apply Qle_bool_iff in Hlo, Hhi. by rewrite Hlo, Hhi.
Qed.

End MediaSelection.
