(* ===== verification/DragGesture.v ===== *)
(** * The drag gesture of the media picker ([features/media/hooks/useMediaSelection.ts])

    The gesture and its auto-scrolling run on the thread of the user interface; the selection
    is changed on the thread of React Native ([MediaSelection]). [scheduleOnRN] posts a call
    from one to the other: the calls are a queue, made in order at any later time. The album
    and the layout of the grid stay the same during the gestures. *)

From Stdlib Require Import QArith.
From S2P Require Import Prelude UploadTypes SelectionStore MediaSelection.
Open Scope Z_scope.

Module DragGesture.
Import MediaSelection.

(** A call posted to the other thread: [beginFrameUpdates], [updateDragAtIndex],
    [stopFrameUpdates]. *)
Inductive rn_call := BeginFrameUpdates (index : Z) | UpdateDragAtIndex (index : Z) | StopFrameUpdates.

(** [frames]: whether the callback of frames is active, which only the other thread sets. *)
(* src: features/media/hooks/useMediaSelection.ts:213-220 [useMediaSelection] *)
Record gesture := {
  scrollOffset : Q;
  viewportHeight : Q;
  contentHeight : Q;
  dragX : Q;
  dragY : Q;
  dragActive : bool;
  dragVelocity : Q;
  lastScheduledIndex : Z;
  frames : bool;
  calls : list rn_call;
  rn : t }.

#[export] Instance gesture_eta : Eta gesture := λ g,
  Build_gesture (scrollOffset g) (viewportHeight g) (contentHeight g) (dragX g) (dragY g) (dragActive g) (dragVelocity g)
    (lastScheduledIndex g) (frames g) (calls g) (rn g).

Definition at_rest (p : t) : gesture :=
  {| scrollOffset := 0; viewportHeight := 0; contentHeight := 0; dragX := 0; dragY := 0; dragActive := false; dragVelocity := 0;
     lastScheduledIndex := -1; frames := false; calls := []; rn := p |}.

Definition scheduleOnRN (c : rn_call) (g : gesture) : gesture := g <| calls := calls g ++ [c] |>.

(** ** The thread of React Native *)

(* src: features/media/hooks/useMediaSelection.ts:418-421 [beginDragOnRN] *)
Definition beginDragOnRN (index : Z) (p : t) : t := beginDragSelection index true p.
(* src: features/media/hooks/useMediaSelection.ts:410-412 [updateDragAtIndex] *)
Definition updateDragAtIndex (index : Z) (p : t) : t := updateDragSelection index p.
(* src: features/media/hooks/useMediaSelection.ts:414-416 [stopDragOnRN] *)
Definition stopDragOnRN (p : t) : t := endDragSelection p.

(** The flag of the frame callback and the state of the hook. *)
(* src: features/media/hooks/useMediaSelection.ts:470-478 [beginFrameUpdates] *)
Definition run_call (s : bool * t) (c : rn_call) : bool * t :=
  match c with
  | BeginFrameUpdates index => (true, beginDragOnRN index s.2)
  | UpdateDragAtIndex index => (s.1, updateDragAtIndex index s.2)
  | StopFrameUpdates => (false, stopDragOnRN s.2)
  end.

Definition call_runs (g : gesture) : option gesture :=
  match calls g with
  | [] => None
  | c :: rest => let s := run_call (frames g, rn g) c in Some (g <| calls := rest |> <| frames := s.1 |> <| rn := s.2 |>)
  end.

(** ** The thread of the user interface *)

Section gesture.
Context (media : list MediaAsset) (layout : MediaGridLayout).

Definition indexAt (x y offset : Q) : Z := gridIndexForPoint x y offset (lengthZ media) layout.

(* src: features/media/hooks/useMediaSelection.ts:451-454 [frameCallback] *)
Definition schedule_index (targetIndex : Z) (g : gesture) : gesture :=
  if shouldScheduleDragIndex targetIndex (lastScheduledIndex g)
  then scheduleOnRN (UpdateDragAtIndex targetIndex) (g <| lastScheduledIndex := targetIndex |>)
  else g.

(** The next offset when a frame scrolls. *)
(* src: features/media/hooks/useMediaSelection.ts:430-437 [frameCallback] *)
Definition frame_offset (g : gesture) (elapsedMs : Q) : option Q :=
  let velocity := dragAutoScrollVelocity (dragY g) (viewportHeight g) in
  if Qeq_bool velocity 0 then None
  else
    let maxOffset := Qmax0 (contentHeight g - viewportHeight g) in
    let nextOffset := nextAutoScrollOffset (scrollOffset g) velocity elapsedMs maxOffset in
    if Qeq_bool nextOffset (scrollOffset g) then None else Some nextOffset.

(* src: features/media/hooks/useMediaSelection.ts:423-455 [frameCallback] *)
Definition frame (timeSincePreviousFrame : option Q) (g : gesture) : gesture :=
  match timeSincePreviousFrame with
  | Some elapsedMs =>
      if negb (dragActive g) then g
      else match frame_offset g elapsedMs with
           | None => g <| dragVelocity := 0%Q |>
           | Some nextOffset =>
               let g := g <| dragVelocity := dragAutoScrollVelocity (dragY g) (viewportHeight g) |> <| scrollOffset := nextOffset |> in
               schedule_index (indexAt (dragX g) (dragY g) nextOffset) g
           end
  | None => g
  end.

(* src: features/media/hooks/useMediaSelection.ts:503-518 [rangePan.onStart] *)
Definition onStart (x y translationX translationY : Q) (g : gesture) : gesture :=
  let startIndex := indexAt (x - translationX) (y - translationY) (scrollOffset g) in
  scheduleOnRN (BeginFrameUpdates startIndex)
    (g <| dragX := x |> <| dragY := y |> <| dragActive := true |> <| lastScheduledIndex := startIndex |>).

(* src: features/media/hooks/useMediaSelection.ts:519-533 [rangePan.onUpdate] *)
Definition onUpdate (x y : Q) (g : gesture) : gesture :=
  schedule_index (indexAt x y (scrollOffset g)) (g <| dragX := x |> <| dragY := y |>).

(* src: features/media/hooks/useMediaSelection.ts:534-539 [rangePan.onFinalize] *)
Definition onFinalize (g : gesture) : gesture :=
  scheduleOnRN StopFrameUpdates (g <| dragActive := false |> <| dragVelocity := 0%Q |> <| lastScheduledIndex := -1 |>).

Inductive gesture_event :=
  | Start (x y translationX translationY : Q)
  | Update (x y : Q)
  | Frame (timeSincePreviousFrame : option Q)
  | Finalize
  | Scrolled (y : Q)
  | ViewportHeight (height : Q)
  | ContentHeight (height : Q)
  | CallRuns.

(** [None]: not possible now. A gesture starts once before it is finalized, and only over a
    grid that shows something; it may be finalized without having started. *)
(* src: features/media/hooks/useMediaSelection.ts:484-500 [gridScrollHandler] *)
Definition gesture_exec (e : gesture_event) (g : gesture) : option gesture :=
  match e with
  | Start x y tx ty => if dragActive g || bool_decide (media = []) then None else Some (onStart x y tx ty g)
  | Update x y => if dragActive g then Some (onUpdate x y g) else None
  | Frame elapsed => if frames g then Some (frame elapsed g) else None
  | Finalize => Some (onFinalize g)
  | Scrolled y => Some (g <| scrollOffset := y |>)
  | ViewportHeight height => Some (g <| viewportHeight := height |>)
  | ContentHeight height => Some (g <| contentHeight := height |>)
  | CallRuns => call_runs g
  end.

(** ** What a gesture should select *)

(** The item an event brings under the finger. *)
Definition reached (e : gesture_event) (g : gesture) : option Z :=
  match e with
  | Start x y tx ty => Some (indexAt (x - tx) (y - ty) (scrollOffset g))
  | Update x y => Some (indexAt x y (scrollOffset g))
  | Frame (Some elapsed) => if dragActive g then indexAt (dragX g) (dragY g) <$> frame_offset g elapsed else None
  | _ => None
  end.

(** The specification selects at once and has one thread: [sp_before] is the selection when
    the gesture started, [sp_range] its first item and the last one reached. *)
Record spec := { sp_before : string → bool; sp_range : option (Z * Z) }.

Definition ids_between (a b : Z) : list string := omap (id_at media) (seqZ (Z.min a b) (Z.max a b - Z.min a b + 1)).

Definition shown (a : spec) (id : string) : bool :=
  match sp_range a with
  | Some (start, last) => bool_decide (id ∈ ids_between start last) || sp_before a id
  | None => sp_before a id
  end.

Definition spec_step (e : gesture_event) (g : gesture) (a : spec) : spec :=
  match e, reached e g with
  | Start _ _ _ _, Some i => {| sp_before := shown a; sp_range := Some (i, i) |}
  | Finalize, _ => {| sp_before := shown a; sp_range := None |}
  | _, Some i => {| sp_before := sp_before a; sp_range := (λ r, (r.1, i)) <$> sp_range a |}
  | _, None => a
  end.

(** A run of the gesture beside the specification. *)
Definition run_beside (ga : option (gesture * spec)) (e : gesture_event) : option (gesture * spec) :=
  '(g, a) ← ga; (λ g', (g', spec_step e g a)) <$> gesture_exec e g.
Definition gesture_run (p : t) (es : list gesture_event) : option (gesture * spec) :=
  foldl run_beside (Some (at_rest p, {| sp_before := SelectionStore.isSelected (store p); sp_range := None |})) es.

(** All posted calls have been made. *)
Definition settled (g : gesture) : bool * t := foldl run_call (frames g, rn g) (calls g).

(** ** Simulation *)

Context (Hmedia : distinct_ids media) (Hcolumns : 0 < numColumns layout).

Lemma elem_ids_between a b id : id ∈ ids_between a b ↔ ∃ i, id_at media i = Some id ∧ Z.min a b <= i <= Z.max a b.
Proof.
  unfold ids_between. rewrite list_elem_of_omap. split.
  - intros (i & Hi & Hid). apply elem_of_seqZ in Hi. exists i. split; [done|lia].
  - intros (i & Hid & Hi). exists i. split; [|done]. apply elem_of_seqZ. lia.
Qed.

Lemma id_at_index i : 0 <= i < lengthZ media → is_Some (id_at media i).
Proof.
  intros Hi. unfold id_at. rewrite (proj2 (Z.ltb_ge _ _)) by lia. destruct (media !! Z.to_nat i) as [asset|] eqn:Ha.
  - destruct Hmedia as [_ Hne]. rewrite Forall_forall in Hne.
    rewrite (proj2 (truthy_true _)); [eauto|]. apply Hne. by apply list_elem_of_lookup_2 in Ha.
  - apply lookup_ge_None in Ha. unfold lengthZ in Hi. lia.
Qed.

Lemma indexAt_bounds x y offset : media ≠ [] → 0 <= indexAt x y offset < lengthZ media.
Proof. intros Hne. apply gridIndexForPoint_bounds; [|done]. unfold lengthZ. by destruct media. Qed.

Definition counted (p : t) : Prop := selectedCount p = length (SelectionStore.selectedIds (store p)).

(** The state when all calls are made, against the specification. *)
Record simulates (g : gesture) (a : spec) : Prop := {
  si_media : MediaSelection.media (settled g).2 = media;
  si_nodup : NoDup (SelectionStore.selectedIds (store (settled g).2));
  si_count : counted (settled g).2;
  si_frames : (settled g).1 = dragActive g;
  si_idle : dragActive g = false →
    dragStartIndex (settled g).2 = None ∧ sp_range a = None ∧ lastScheduledIndex g = -1
    ∧ ∀ id, SelectionStore.isSelected (store (settled g).2) id = sp_before a id;
  si_drag : dragActive g = true → ∃ start before,
    media ≠ [] ∧ sp_range a = Some (start, lastScheduledIndex g) ∧ 0 <= lastScheduledIndex g
    ∧ (∀ id, before id = sp_before a id) ∧ drag_ok media before true start (Some (lastScheduledIndex g)) (settled g).2 }.

Lemma simulates_shown g a id : simulates g a → SelectionStore.isSelected (store (settled g).2) id = shown a id.
Proof.
  intros [_ _ _ _ Hidle Hdrag]. destruct (dragActive g).
  - destruct (Hdrag eq_refl) as (start & before & _ & Hr & _ & Hb & Hok). unfold shown. rewrite Hr, <-Hb.
    destruct (decide (id ∈ asset_id <$> media)) as [Hid|Hid].
    + apply (id_at_elem _ _ Hmedia) in Hid as [i Hi]. rewrite (dk_selected _ _ _ _ _ _ Hok i id Hi). simpl.
      destruct (decide (between start (lastScheduledIndex g) i)) as [Hbt|Hbt].
      * rewrite bool_decide_true; [done|]. apply elem_ids_between. by exists i.
      * rewrite bool_decide_false; [done|]. intros (j & Hj & Hjb)%elem_ids_between.
        rewrite (id_at_inj _ i j id Hmedia Hi Hj) in Hbt. by apply Hbt.
    + rewrite (dk_others _ _ _ _ _ _ Hok id Hid). rewrite bool_decide_false; [done|]. intros (j & Hj & _)%elem_ids_between.
      apply Hid, (id_at_elem _ _ Hmedia). eauto.
  - destruct (Hidle eq_refl) as (_ & Hr & _ & H). unfold shown. by rewrite Hr.
Qed.

Lemma settled_schedule c g : settled (scheduleOnRN c g) = run_call (settled g) c.
Proof. unfold settled. simpl. by rewrite foldl_app. Qed.

(** What does not concern the calls. *)
Lemma simulates_ext g g' a :
  settled g' = settled g → dragActive g' = dragActive g → lastScheduledIndex g' = lastScheduledIndex g →
  simulates g a → simulates g' a.
Proof. intros Es Ea El [Hm Hn Hc Hf Hi Hd]. split; rewrite ?Es, ?Ea, ?El; done. Qed.

Lemma call_runs_ok g g' a : simulates g a → call_runs g = Some g' → simulates g' a.
Proof.
  unfold call_runs. destruct (calls g) as [|c rest] eqn:Hc; [done|]. intros Hg [= <-]. apply (simulates_ext g); try done.
  unfold settled. rewrite Hc. simpl. by destruct (run_call _ _).
Qed.

Lemma schedule_index_ok i g a :
  simulates g a → dragActive g = true → 0 <= i →
  simulates (schedule_index i g) {| sp_before := sp_before a; sp_range := (λ r, (r.1, i)) <$> sp_range a |}.
Proof.
  intros [Hm Hn Hc Hf Hidle Hdrag] Ha Hi. destruct (Hdrag Ha) as (start & before & Hne & Hr & Hl & Hb & Hok). clear Hidle Hdrag.
  unfold schedule_index, shouldScheduleDragIndex. rewrite (proj2 (Z.leb_le _ _) Hi), Hr. simpl.
  destruct (Z.eqb_spec i (lastScheduledIndex g)) as [->|Hneq]; simpl.
  - split; try done; [congruence|]. intros _. by exists start, before.
  - destruct (updateDragSelection_ok media before true start _ i (settled g).2 Hmedia Hok Hi) as [Hok' Hc'];
      [intros [= E]; by apply Hneq|].
    split; rewrite ?settled_schedule; simpl; [apply Hok'|apply Hok'|done|done|congruence|].
    intros _. by exists start, before.
Qed.

Lemma onStart_ok x y tx ty g a :
  simulates g a → dragActive g = false → media ≠ [] →
  simulates (onStart x y tx ty g) {| sp_before := shown a; sp_range := Some (let i := indexAt (x - tx) (y - ty) (scrollOffset g) in (i, i)) |}.
Proof.
  intros Hg Ha Hne. pose proof (λ id, simulates_shown g a id Hg) as Hshown. destruct Hg as [Hm Hn Hc Hf Hidle _].
  pose proof (indexAt_bounds (x - tx) (y - ty) (scrollOffset g) Hne) as Hi.
  unfold onStart. set (i := indexAt _ _ _) in *. destruct (id_at_index i Hi) as [id0 Hid]. rewrite <-Hm in Hid.
  destruct (beginDragSelection_ok (settled g).2 i true id0) as [Hok Hcount]; [by rewrite Hm|done|done|]. rewrite Hm in Hok. simpl in Hok.
  split; rewrite ?settled_schedule; simpl; [apply Hok|apply Hok|done|done|done|].
  intros _. exists i, (SelectionStore.isSelected (store (settled g).2)). split_and!; try done; lia.
Qed.

Lemma onFinalize_ok g a :
  simulates g a → simulates (onFinalize g) {| sp_before := shown a; sp_range := None |}.
Proof.
  intros Hg. pose proof (λ id, simulates_shown g a id Hg) as Hshown. destruct Hg as [Hm Hn Hc Hf _ _].
  split; unfold onFinalize; rewrite ?settled_schedule; simpl; done.
Qed.

Lemma gesture_exec_ok e g a g' : simulates g a → gesture_exec e g = Some g' → simulates g' (spec_step e g a).
Proof.
  intros Hg. destruct e as [x y tx ty|x y|elapsed| |y|h|h|]; simpl.
  - destruct (dragActive g) eqn:Ha; [done|]. case_bool_decide as Hne; [done|]. intros [= <-]. by apply onStart_ok.
  - destruct (dragActive g) eqn:Ha; [|done]. intros [= <-]. unfold onUpdate. destruct (si_drag g a Hg Ha) as (_ & _ & Hne & _).
    apply schedule_index_ok; [by apply (simulates_ext g)|done|]. by apply indexAt_bounds.
  - destruct (frames g); [|done]. intros [= <-]. unfold frame, spec_step. simpl. destruct elapsed as [ms|]; [|done].
    destruct (dragActive g) eqn:Ha; simpl; [|done]. destruct (frame_offset g ms) as [next|]; simpl; [|by apply (simulates_ext g)].
    destruct (si_drag g a Hg Ha) as (_ & _ & Hne & _).
    apply schedule_index_ok; [by apply (simulates_ext g)|done|]. by apply indexAt_bounds.
  - intros [= <-]. by apply onFinalize_ok.
  - intros [= <-]. by apply (simulates_ext g).
  - intros [= <-]. by apply (simulates_ext g).
  - intros [= <-]. by apply (simulates_ext g).
  - by apply call_runs_ok.
Qed.

Lemma gesture_at_rest_ok p :
  MediaSelection.media p = media → NoDup (SelectionStore.selectedIds (store p)) → counted p → dragStartIndex p = None →
  simulates (at_rest p) {| sp_before := SelectionStore.isSelected (store p); sp_range := None |}.
Proof. intros. by split. Qed.

Lemma gesture_run_ok p es g a :
  MediaSelection.media p = media → NoDup (SelectionStore.selectedIds (store p)) → counted p → dragStartIndex p = None →
  gesture_run p es = Some (g, a) → simulates g a.
Proof.
  intros Hm Hn Hc Hs. revert g a. unfold gesture_run. induction es as [|e es IH] using rev_ind; intros g a.
  - intros [= <- <-]. by apply gesture_at_rest_ok.
  - rewrite foldl_app. cbn [foldl run_beside]. destruct (foldl run_beside _ es) as [[g0 a0]|]; [|done].
    unfold run_beside. cbn [mbind option_bind]. destruct (gesture_exec e g0) as [g1|] eqn:He; [|done]. intros [= <- <-].
    apply (gesture_exec_ok e g0 a0 g1); [by apply IH|done].
Qed.

(** C25: the gesture of two threads selects what one would. Whatever the order of moves,
    frames, scrolls, gestures and posted calls, once the calls posted so far are made the
    selection is the one a single thread would have made at once: the items between the one
    under the finger at the start and the last one reached, by a move or by scrolling, on
    top of what was selected before; the count shown is right, frames run exactly while a
    gesture is active, and after one nothing of it is left. Scrolling stays in the content. *)
Theorem gesture_selects_at_once p es g a :
  MediaSelection.media p = media → NoDup (SelectionStore.selectedIds (store p)) → counted p → dragStartIndex p = None →
  gesture_run p es = Some (g, a) →
  (∀ id, SelectionStore.isSelected (store (settled g).2) id = shown a id) ∧ counted (settled g).2
  ∧ (settled g).1 = dragActive g
  ∧ (dragActive g = false → dragStartIndex (settled g).2 = None)
  ∧ ∀ ms next, frame_offset g ms = Some next → (0 <= next <= Qmax0 (contentHeight g - viewportHeight g))%Q.
Proof.
  intros Hm Hn Hc Hs Hrun. pose proof (gesture_run_ok p es g a Hm Hn Hc Hs Hrun) as Hg.
  split; [intros id; by apply simulates_shown|]. split; [apply Hg|]. split; [apply Hg|].
  split; [intros Ha; by apply (si_idle g a Hg Ha)|]. intros ms next. unfold frame_offset.
  destruct (Qeq_bool _ 0); [done|]. destruct (Qeq_bool _ (scrollOffset g)); [done|]. intros [= <-].
  apply nextAutoScrollOffset_bounds, Qmax0_nonneg.
Qed.
End gesture.

(** A drag over the first items and back while the calls lag behind. *)
Definition sample_layout : MediaGridLayout := calculateMediaGridLayout 300 3.
Definition sample_drag : list gesture_event :=
  [ViewportHeight 500; ContentHeight 900; Start 50 60 0 10; Update 250 50; CallRuns; Frame (Some 16%Q); Update 50 490; Frame (Some 16%Q);
   Update 150 50; CallRuns; Finalize; CallRuns; CallRuns].

Lemma gesture_selects_at_once_witness :
  ∃ g a, gesture_run (media sample_picker) sample_layout sample_picker sample_drag = Some (g, a)
    ∧ SelectionStore.selectedIds (store (settled g).2) = ["c"; "a"; "b"] ∧ calls g = [StopFrameUpdates]
    ∧ (∀ id, SelectionStore.isSelected (store (settled g).2) id = shown (media sample_picker) a id) ∧ (settled g).1 = false.
Proof.
  destruct (gesture_run (media sample_picker) sample_layout sample_picker sample_drag) as [[g a]|] eqn:Hrun;
    [|vm_compute in Hrun; discriminate Hrun].
  exists g, a. split; [reflexivity|].
  assert (SelectionStore.selectedIds (store (settled g).2) = ["c"; "a"; "b"] ∧ calls g = [StopFrameUpdates] ∧ dragActive g = false) as (Hs & Hl & Ha).
  { vm_compute in Hrun. injection Hrun as <- _. vm_compute. by repeat split. }
  split; [exact Hs|]. split; [exact Hl|].
  destruct (gesture_selects_at_once (media sample_picker) sample_layout) with (p := sample_picker) (es := sample_drag) (g := g) (a := a)
    as (Hsel & _ & Hf & _).
  - split; [apply (bool_decide_unpack _); vm_compute; exact I|apply (bool_decide_unpack _); vm_compute; exact I].
  - vm_compute. reflexivity.
  - reflexivity.
  - apply (bool_decide_unpack _). vm_compute. exact I.
  - vm_compute. reflexivity.
  - vm_compute. reflexivity.
  - exact Hrun.
  - split; [exact Hsel|]. rewrite Hf. exact Ha.
Defined.
End DragGesture.
