(* ===== verification/Connection.v ===== *)
(** * Connecting to a desktop ([app/hooks/useConnectionController.ts], [usePairingController.ts],
      [pairingTransport.ts], [pairingHandshake.ts], [useTrustedConnection.ts])

    One connection attempt at a time, as a computation in a state and error monad: an error
    is the message of what was thrown. [world] is everything an attempt reads and writes: the
    API client, the native pin, the refs, the controller state, the stored trust, and the
    requests that left the phone with the pin they left under. The environment's answers, of
    the network, the native module, the user and the storage, are functions of a clock that
    every await moves on; whatever runs between two awaits of an attempt (health checks,
    renders) is taken not to change the client's configuration or the pin. *)

From stdpp Require Import pretty.
From S2P Require Import Prelude Js UploadTypes Security Native Api.
Import ApiClient.

Module Connection.

(** ** The controller *)

(* src: app/types.ts:7-11 [ConnectionSecurityState] *)
Inductive security_mode := mode_disconnected | mode_https | mode_http.
Record ConnectionSecurityState := {
  mode : security_mode;
  tlsVersion : option string;
  certificateVerified : bool }.

(* src: app/hooks/useConnectionController.ts:4-9 [ConnectionLifecycle] *)
Inductive ConnectionLifecycle :=
  | Idle
  | Connecting
  | WaitingForApproval (desktopName : string)
  | Connected (transport : security_mode)
  | Disconnected.

(* src: app/hooks/useConnectionController.ts:11-17 [ConnectionControllerState] *)
Record ConnectionControllerState := {
  connectionLifecycle : ConnectionLifecycle;
  isServerConnected : bool;
  isConnecting : bool;
  pairingDesktopName : option string;
  connectionSecurity : ConnectionSecurityState }.

#[export] Instance controller_eta : Eta ConnectionControllerState := λ s,
  Build_ConnectionControllerState (connectionLifecycle s) (isServerConnected s) (isConnecting s)
    (pairingDesktopName s) (connectionSecurity s).

(* src: app/hooks/useConnectionController.ts:19-26 [ConnectionControllerAction] *)
Inductive ConnectionControllerAction :=
  | SetConnecting (value : bool)
  | ServerConnected (value : bool)
  | PairingDesktop (value : option string)
  | SetSecurity (value : ConnectionSecurityState)
  | ConnectedSecure (tls : option string) (verified : bool)
  | ConnectedHttp
  | MarkDisconnected.

(* src: app/hooks/useConnectionController.ts:28-31 [disconnectedSecurity] *)
Definition disconnectedSecurity : ConnectionSecurityState :=
  {| mode := mode_disconnected; tlsVersion := None; certificateVerified := false |}.

(* src: app/hooks/useConnectionController.ts:33-39 [initialConnectionControllerState] *)
Definition initialConnectionControllerState : ConnectionControllerState :=
  {| connectionLifecycle := Idle; isServerConnected := false; isConnecting := false; pairingDesktopName := None;
     connectionSecurity := disconnectedSecurity |}.

(* src: app/hooks/useConnectionController.ts:41-103 [connectionControllerReducer] *)
Definition connectionControllerReducer (state : ConnectionControllerState) (action : ConnectionControllerAction)
    : ConnectionControllerState :=
  match action with
  | SetConnecting value =>
      state <| connectionLifecycle := if value then Connecting else connectionLifecycle state |>
            <| isConnecting := value |>
  | ServerConnected value =>
      state <| connectionLifecycle := if value then connectionLifecycle state else Disconnected |>
            <| isServerConnected := value |>
  | PairingDesktop value =>
      state <| connectionLifecycle := match value with
                                      | Some name => if truthy name then WaitingForApproval name else connectionLifecycle state
                                      | None => connectionLifecycle state
                                      end |>
            <| pairingDesktopName := value |>
  | SetSecurity value => state <| connectionSecurity := value |>
  | ConnectedSecure tls verified =>
      {| connectionLifecycle := Connected mode_https; isServerConnected := true; isConnecting := false;
         pairingDesktopName := None;
         connectionSecurity := {| mode := mode_https; tlsVersion := tls; certificateVerified := verified |} |}
  | ConnectedHttp =>
      {| connectionLifecycle := Connected mode_http; isServerConnected := true; isConnecting := false;
         pairingDesktopName := None;
         connectionSecurity := {| mode := mode_http; tlsVersion := None; certificateVerified := false |} |}
  | MarkDisconnected =>
      {| connectionLifecycle := Disconnected; isServerConnected := false; isConnecting := false;
         pairingDesktopName := None; connectionSecurity := disconnectedSecurity |}
  end.

(** ** Saved trust *)

(* src: app/types.ts:13-21 [SavedConnection] *)
Record SavedConnection := {
  sc_environment : IosClientEnvironment;
  sc_serverId : string;
  sc_httpsUrl : string;
  sc_httpUrl : option string;
  sc_certificateFingerprint : string;
  sc_name : option string }.

(** A member that is absent or a string: [inl] when it is something else. *)
Definition optional_member (v : jsval) : unit + option string :=
  match v with JUndefined => inr None | JStr s => inr (Some s) | _ => inl tt end.

(** [json] is what the stored text parses to, [None] when it is no JSON. A [null] candidate
    and an [httpUrl] that is no string throw, which is caught like a parse error. *)
(* src: app/hooks/usePairingController.ts:49-69 [parseSavedConnection] *)
Definition parseSavedConnection (json : option jsval) : option SavedConnection :=
  match json with
  | None => None
  | Some candidate =>
      match opt_num (field candidate "version"), str_literal environments (field candidate "environment"),
            opt_str (field candidate "serverId"), opt_str (field candidate "httpsUrl"),
            opt_str (field candidate "certificateFingerprint"),
            optional_member (field candidate "httpUrl"), optional_member (field candidate "name") with
      | Some version, Some environment, Some serverId, Some httpsUrl, Some fingerprint, inr httpUrl, inr name =>
          if num_is version 3 && truthy serverId && startsWith httpsUrl "https://"
             && (string_length (normalizeFingerprint fingerprint) =? 64)%nat
             && match httpUrl with Some u => startsWith u "http://" | None => true end
          then Some {| sc_environment := environment; sc_serverId := serverId; sc_httpsUrl := httpsUrl;
                       sc_httpUrl := httpUrl; sc_certificateFingerprint := fingerprint; sc_name := name |}
          else None
      | _, _, _, _, _, _, _ => None
      end
  end.

(** [JSON.stringify(saved)], as the object it describes: undefined members are dropped. *)
Definition saved_json (s : SavedConnection) : jsval :=
  JObj ([("version", JNum 3); ("environment", JStr (environment_name (sc_environment s)));
         ("serverId", JStr (sc_serverId s)); ("httpsUrl", JStr (sc_httpsUrl s))]
        ++ match sc_httpUrl s with Some u => [("httpUrl", JStr u)] | None => [] end
        ++ [("certificateFingerprint", JStr (sc_certificateFingerprint s))]
        ++ match sc_name s with Some n => [("name", JStr n)] | None => [] end).

(** ** The world of an attempt *)

(* src: app/types.ts:3-4 [ScreenState] *)
Inductive ScreenState := screen_home | screen_transfers | screen_connect | screen_history | screen_settings
  | screen_picker | screen_transfer.

(** A request and the native pin, address and fingerprint, at the time it was made. *)
Record traffic := { tr_request : Request; tr_pin : option (string * string) }.

Record DeviceIdentity := { deviceId : string; credential : string }.

Record world := {
  api : ApiClient.t;
  pin : option (string * string);
  connectionAttempt : bool;
  httpConfirmed : bool;
  controller : ConnectionControllerState;
  appState : ScreenState;
  alertVisible : bool;
  alerts : list (string * string);
  lastServer : option (option jsval);        (** [None]: nothing stored; [Some None]: no JSON *)
  legacyIdentity : option (option jsval);
  storedDeviceId : option string;
  storedCredential : option string;
  sent : list traffic;
  clock : nat }.

#[export] Instance world_eta : Eta world := λ w,
  Build_world (api w) (pin w) (connectionAttempt w) (httpConfirmed w) (controller w) (appState w) (alertVisible w)
    (alerts w) (lastServer w) (legacyIdentity w) (storedDeviceId w) (storedCredential w) (sent w) (clock w).

(** What the outside does, by the clock. *)
Record environment := {
  net : nat → string + Response;                                 (** answers of the network *)
  configures : nat → string → string → option string;            (** [configureSecureConnection]: what it throws *)
  security : nat → string + (option string * bool);              (** [securityState] *)
  confirms : nat → bool;                                          (** the user's answer to a confirmation *)
  dismissed : nat → bool;                                         (** whether an alert was closed meanwhile *)
  storage : nat → option string;                                  (** what a storage access throws *)
  random : nat → nat → string }.                                  (** random bytes in hexadecimal *)

(** ** The monad *)

Definition M (A : Type) : Type := world → world * (string + A).
#[export] Instance M_ret : MRet M := λ A a w, (w, inr a).
#[export] Instance M_bind : MBind M := λ A B f m w,
  match m w with (w, inl e) => (w, inl e) | (w, inr a) => f a w end.

Definition throw {A} (message : string) : M A := λ w, (w, inl message).
Definition get {A} (f : world → A) : M A := λ w, (w, inr (f w)).
Definition modify (f : world → world) : M unit := λ w, (f w, inr ()).
Definition try_catch {A} (m : M A) (handler : string → M A) : M A := λ w,
  match m w with (w, inl e) => handler e w | r => r end.
Definition try_finally {A} (m : M A) (cleanup : M unit) : M A := λ w,
  let '(w, r) := m w in
  match cleanup w with (w, inl e) => (w, inl e) | (w, inr _) => (w, r) end.
Definition when (b : bool) (m : M unit) : M unit := if b then m else mret ().

Definition tick (w : world) : world := w <| clock := S (clock w) |>.
Definition dispatch (action : ConnectionControllerAction) : M unit :=
  modify (λ w, w <| controller := connectionControllerReducer (controller w) action |>).
Definition setAppState (s : ScreenState) : M unit := modify (λ w, w <| appState := s |>).
Definition setAttempt (b : bool) : M unit := modify (λ w, w <| connectionAttempt := b |>).
Definition setConfig (u t : string) : M unit := modify (λ w, w <| api := ApiClient.setConfig (api w) u t |>).
Definition clearSecureConnection : M unit := modify (λ w, w <| pin := None |>).

Section attempts.
Context (env : environment) (nativeAvailable : bool).

(** An awaited access to the storage. *)
Definition stored {A} (f : world → A) (g : world → world) : M A := λ w,
  match storage env (clock w) with
  | Some message => (tick w, inl message)
  | None => (tick (g w), inr (f w))
  end.

(** The answers of the network from now on. *)
Definition answers (w : world) (k : nat) : string + Response := net env (clock w + k).

(** An operation of the API client that makes at most [n] requests. *)
Definition call {A} (n : nat) (op : ApiClient.t → (nat → string + Response) → outcome A) : M A := λ w,
  let o := op (api w) (answers w) in
  (w <| api := client o |> <| sent := sent w ++ ((λ r, {| tr_request := r; tr_pin := pin w |}) <$> requests o) |>
     <| clock := (clock w + n)%nat |>,
   match result o with inl e => inl (error_text e) | inr a => inr a end).

Definition ping : M bool := call 2 (λ c net, pingServer c nativeAvailable false net).

(** [void api.logClientEvent(...)]: nobody waits for it, its answer is ignored. *)
(* src: api/ApiClient.ts:344-368 [logClientEvent] *)
Definition logClientEvent (level event message : string) (data : list (string * jsval)) : M unit := λ w,
  match usable (serverUrl (api w)) with
  | None => (w, inr ())
  | Some base =>
      if transport_refuses nativeAvailable base then (w, inr ()) else
      (w <| sent := sent w ++ [{| tr_request := post (base +:+ "/client_log") (headers (api w))
              (JObj [("session", JStr "ios"); ("level", JStr level); ("event", JStr event); ("message", JStr message);
                     ("data", JObj data); ("client", JStr "expo-ios")]);
            tr_pin := pin w |}] |>, inr ())
  end.

(* src: services/NativeCapabilities.ts:512-515 [configureSecureConnection] *)
Definition configureSecureConnection (u fingerprint : string) : M unit := λ w,
  if negb nativeAvailable then (w, inl pinned_https_error) else
  match configures env (clock w) u fingerprint with
  | Some message => (tick w, inl message)
  | None => (tick w <| pin := Some (u, fingerprint) |>, inr ())
  end.

(* src: services/NativeCapabilities.ts:539-540 [securityState] *)
Definition securityState : M (option string * bool) := λ w,
  if nativeAvailable then (tick w, security env (clock w)) else (tick w, inr (None, false)).

(** ** Alerts *)

Definition gate_open (w : world) : bool := negb (alertVisible w) || dismissed env (clock w).

(* src: app/hooks/useAlertGate.ts:8-23 [showAlertOnce] *)
Definition showAlertOnce (title message : string) : M unit := λ w,
  if gate_open w then (tick w <| alertVisible := true |> <| alerts := alerts w ++ [(title, message)] |>, inr ())
  else (tick w, inr ()).

(* src: app/hooks/useAlertGate.ts:25-44 [confirmOnce] *)
Definition confirmOnce (title message : string) : M bool := λ w,
  if gate_open w then
    (tick w <| alertVisible := false |> <| alerts := alerts w ++ [(title, message)] |>, inr (confirms env (clock w)))
  else (tick w, inr false).

(** ** The transport of a pairing *)

(* src: app/hooks/usePairingController.ts:91-98 [confirmHttpFallback] *)
Definition confirmHttpFallback : M bool :=
  confirmOnce "Use unencrypted HTTP?"
    (if nativeAvailable then "Only use HTTP for older desktop builds on a private Wi-Fi network. Files and access credentials are not protected by HTTPS."
     else "Expo Go cannot use the native pinned-HTTPS or native upload module, so development uses HTTP plus the compatibility uploader. This has more overhead and can be slower. Use the installed IPA for encrypted, faster native transfers.").

(** The address an input means. *)
(* src: app/hooks/pairingTransport.ts:29-30 [configurePairingTransport] *)
Definition address (ipOrUrl : string) : string :=
  let url := trim ipOrUrl in if startsWith url "http" then url else "https://" +:+ url +:+ ":8443".

(** [None]: the attempt is refused, after the alert that says why. *)
(* src: app/hooks/pairingTransport.ts:14-55 [configurePairingTransport] *)
Definition configurePairingTransport (ipOrUrl token : string) (pairing : option PairingPayload) (silent : bool)
    (effectiveAllowInsecureHttp confirmed : bool) : M (option (string * bool)) :=
  expectedEnvironment ← get (λ w, expectedEnvironment (api w));
  match pairing ≫= (λ p, if bool_decide (pp_environment p ≠ expectedEnvironment) then Some p else None) with
  | Some p =>
      when (negb silent) (showAlertOnce "Wrong desktop environment"
        ("This app expects the " +:+ environment_name expectedEnvironment +:+ " Windows environment, but the QR code is for "
         +:+ environment_name (pp_environment p) +:+ ". Open the matching Windows app and scan its QR code."));;
      mret None
  | None =>
  let url := address ipOrUrl in
  if startsWith url "http://" then
    let needsHttpConfirmation := nativeAvailable && negb confirmed in
    refused ← (if silent || negb effectiveAllowInsecureHttp then mret true
               else if needsHttpConfirmation then confirmed ← confirmHttpFallback; mret (negb confirmed) else mret false);
    if refused : bool then
      (when (negb silent && negb effectiveAllowInsecureHttp)
         (showAlertOnce "HTTP disabled" "Turn on unencrypted HTTP in iOS settings before connecting to an older desktop build."));;
      mret None
    else mret (Some (url, true))
  else
    match pairing with
    | Some p =>
        if truthy (pp_certificateFingerprint p) && truthy token then
          try_catch (configureSecureConnection url (pp_certificateFingerprint p);; mret (Some (url, confirmed)))
            (λ message, when (negb silent) (showAlertOnce "Secure connection unavailable" message);; mret None)
        else
          when (negb silent) (showAlertOnce "Fingerprint and token required"
            "Scan the Windows pairing QR or enter its SHA-256 fingerprint and session token.");; mret None
    | None =>
        when (negb silent) (showAlertOnce "Fingerprint and token required"
          "Scan the Windows pairing QR or enter its SHA-256 fingerprint and session token.");; mret None
    end
  end.

(** ** Approval *)

Definition requestPairing (url : string) (identity : DeviceIdentity) : M PairingStatus :=
  call 1 (λ c net, ApiClient.requestPairing c nativeAvailable net url (deviceId identity) "iPhone" (credential identity)).
Definition pairingStatus (url : string) (identity : DeviceIdentity) : M PairingStatus :=
  call 1 (λ c net, ApiClient.pairingStatus c nativeAvailable net url (deviceId identity) (credential identity)).

(** [for (attempt = 0; attempt < n && status === 'pending'; ...)]; the pause of 2.5 s between
    two questions changes nothing. *)
(* src: app/hooks/pairingHandshake.ts:16-19 [awaitPairingApproval] *)
Fixpoint poll_approval (attempts : nat) (url : string) (identity : DeviceIdentity) (status : PairingStatus)
    : M PairingStatus :=
  match attempts with
  | O => mret status
  | S attempts =>
      if bool_decide (status = pending) then
        status ← pairingStatus url identity; poll_approval attempts url identity status
      else mret status
  end.

(* src: app/hooks/pairingHandshake.ts:7-22 [awaitPairingApproval] *)
Definition awaitPairingApproval (url : string) (identity : DeviceIdentity) (onPending : M unit) : M PairingStatus :=
  status ← requestPairing url identity;
  if bool_decide (status = pending) then onPending;; poll_approval 24 url identity status
  else mret status.

(* src: app/hooks/pairingHandshake.ts:29-34 [activatePairingCredential] *)
Fixpoint try_activation (attempts : nat) : M bool :=
  match attempts with
  | O => mret false
  | S attempts => activated ← ping; if activated : bool then mret true else try_activation attempts
  end.

(* src: app/hooks/pairingHandshake.ts:25-35 [activatePairingCredential] *)
Definition activatePairingCredential (url credential : string) : M bool :=
  setConfig url credential;; try_activation 3.

(** ** The identity of this phone *)

(** [JSON.parse(legacy)] and [isLegacyDeviceIdentity]; text that is no JSON is no identity. *)
(* src: app/hooks/useTrustedConnection.ts:11-16 [isLegacyDeviceIdentity] *)
Definition legacy_identity (json : option jsval) : option DeviceIdentity :=
  match json with
  | Some value =>
      match opt_nonempty (field value "deviceId"), opt_nonempty (field value "credential") with
      | Some id, Some c => if is_object value then Some {| deviceId := id; credential := c |} else None
      | _, _ => None
      end
  | None => None
  end.

(* src: app/hooks/useTrustedConnection.ts:40-51 [getDeviceIdentity] *)
Definition migrate_identity (legacy : option jsval) : M (option DeviceIdentity) :=
  migrated ← try_catch
    (match legacy_identity legacy with
     | Some identity =>
         stored (λ _, ()) (λ w, w <| storedDeviceId := Some (deviceId identity) |>);;
         stored (λ _, ()) (λ w, w <| storedCredential := Some (credential identity) |>);;
         stored (λ _, ()) (λ w, w <| legacyIdentity := None |>);;
         mret (Some identity)
     | None => mret None
     end) (λ _, mret None);
  match migrated with
  | Some identity => mret (Some identity)
  | None =>
      try_catch (stored (λ _, ()) (λ w, w <| legacyIdentity := None |>)) (λ _, mret ());;
      mret None
  end.

Definition randomHex (bytes : nat) : M string := λ w, (tick w, inr (random env (clock w) bytes)).

(* src: app/hooks/useTrustedConnection.ts:37-61 [getDeviceIdentity] *)
Definition getDeviceIdentity : M DeviceIdentity :=
  legacy ← stored legacyIdentity (λ w, w);
  migrated ← match legacy with Some text => migrate_identity text | None => mret None end;
  match migrated with
  | Some identity => mret identity
  | None =>
      existingId ← stored storedDeviceId (λ w, w);
      existingCredential ← stored storedCredential (λ w, w);
      match usable existingId, usable existingCredential with
      | Some id, Some c => mret {| deviceId := id; credential := c |}
      | _, _ =>
          id ← match usable existingId with Some id => mret id | None => randomHex 16 end;
          c ← randomHex 32;
          stored (λ _, ()) (λ w, w <| storedDeviceId := Some id |>);;
          stored (λ _, ()) (λ w, w <| storedCredential := Some c |>);;
          mret {| deviceId := id; credential := c |}
      end
  end.

(** ** Connecting *)

(** [api.setConfig('', ''); clearSecureConnection(); markDisconnected()]. *)
(* src: app/hooks/usePairingController.ts:150-152 [handleConnect] *)
Definition forget_connection : M unit := setConfig "" "";; clearSecureConnection;; dispatch MarkDisconnected.

(* src: app/hooks/usePairingController.ts:192-200 [handleConnect] *)
Definition saved_of (pairing : PairingPayload) (url : string) : SavedConnection :=
  {| sc_environment := pp_environment pairing; sc_serverId := pp_serverId pairing; sc_httpsUrl := url;
     sc_httpUrl := pp_httpUrl pairing;
     sc_certificateFingerprint := normalizeFingerprint (pp_certificateFingerprint pairing);
     sc_name := Some (pp_name pairing) |}.

Definition is_https (url : string) : bool := startsWith url "https://".

(** The approval by the receiver, from the identity to the stored trust. *)
(* src: app/hooks/usePairingController.ts:162-206 [handleConnect] *)
Definition pair (url : string) (pairing : option PairingPayload) (silent : bool) : M bool :=
  identity ← getDeviceIdentity;
  status ← awaitPairingApproval url identity
    (dispatch (PairingDesktop (Some (js_or (default "" (pp_name <$> pairing)) "the desktop"))));
  if bool_decide (status ≠ approved) then
    logClientEvent "WARN" "ios_https_pairing_failed" "Windows approval did not complete during HTTPS pairing."
      [("stage", JStr "pairing_approval"); ("status", JStr (match status with pending => "pending" | _ => "denied" end))];;
    forget_connection;;
    when (negb silent) (showAlertOnce "Connection not approved" "The desktop denied the request or the approval timed out.");;
    mret false
  else
  credentialActivated ← activatePairingCredential url (credential identity);
  if negb credentialActivated then
    logClientEvent "WARN" "ios_https_pairing_failed"
      "Windows approved pairing, but trusted credential verification did not become ready."
      [("stage", JStr "trusted_credential_activation")];;
    forget_connection;;
    when (negb silent) (showAlertOnce "Pairing Verification Failed" "Windows approved this iPhone, but the desktop did not accept the trusted credential in time. Scan the current Windows QR code again.");;
    mret false
  else
    match pairing with
    | Some p =>
        if is_https url then
          stored (λ _, ()) (λ w, w <| lastServer := Some (Some (saved_json (saved_of p url))) |>);;
          state ← securityState;
          dispatch (ConnectedSecure state.1 state.2);; mret true
        else dispatch ConnectedHttp;; mret true
    | None => dispatch ConnectedHttp;; mret true
    end.

(** The body of the [try]. *)
(* src: app/hooks/usePairingController.ts:136-211 [handleConnect] *)
Definition connect (effectiveAllowInsecureHttp : bool) (ipOrUrl token : string) (pairing : option PairingPayload)
    (silent : bool) : M bool :=
  confirmed ← get httpConfirmed;
  transport ← configurePairingTransport ipOrUrl token pairing silent effectiveAllowInsecureHttp confirmed;
  match transport with
  | None => mret false
  | Some (url, confirmed) =>
      modify (λ w, w <| httpConfirmed := confirmed |>);;
      setConfig url token;;
      ok ← ping;
      if negb ok then
        logClientEvent "WARN" "ios_https_pairing_failed"
          "QR session token validation failed during HTTPS pairing." [("stage", JStr "qr_token_validation")];;
        forget_connection;;
        reason ← get (λ w, connectionError (api w));
        when (negb silent) (showAlertOnce "Connection Failed"
          (js_or reason "The app reached the desktop, but the QR session token was not accepted. Scan the current Windows QR code again."));;
        mret false
      else
        connected ← (if (is_https url && bool_decide (is_Some pairing)) || startsWith token "pair-"
                     then pair url pairing silent else dispatch ConnectedHttp;; mret true);
        if connected : bool then setAppState screen_home;; mret true else mret false
  end.

(* src: app/hooks/usePairingController.ts:126-223 [handleConnect] *)
Definition handleConnect (effectiveAllowInsecureHttp : bool) (ipOrUrl token : string) (pairing : option PairingPayload)
    (silent : bool) : M bool :=
  attempt ← get connectionAttempt;
  if attempt : bool then mret false else
  setAttempt true;; dispatch (SetConnecting true);;
  try_finally
    (try_catch (connect effectiveAllowInsecureHttp ipOrUrl token pairing silent)
       (λ message, forget_connection;; when (negb silent) (showAlertOnce "Connection Failed" message);; mret false))
    (setAttempt false;; dispatch (SetConnecting false);; dispatch (PairingDesktop None)).

(* src: app/AppShell.tsx:89-93 [resetConnectionAttempt] *)
Definition resetConnectionAttempt : M unit :=
  setAttempt false;; dispatch (SetConnecting false);; dispatch (PairingDesktop None).

(* src: app/hooks/useTrustedConnection.ts:63-123 [connectTrusted] *)
Definition connectTrusted (saved : SavedConnection) (credential : string) (silent : bool) : M bool :=
  try_catch
    (expected ← get (λ w, expectedEnvironment (api w));
     (if bool_decide (sc_environment saved ≠ expected) then
        throw ("Saved trust belongs to the " +:+ environment_name (sc_environment saved) +:+ " environment, not "
               +:+ environment_name expected +:+ ".")
      else mret ());;
     configureSecureConnection (sc_httpsUrl saved) (sc_certificateFingerprint saved);;
     setConfig (sc_httpsUrl saved) credential;;
     ok ← ping;
     (if negb ok then
        reason ← get (λ w, connectionError (api w));
        throw (js_or reason "The trusted desktop did not accept this device credential.")
      else mret ());;
     state ← securityState;
     (if negb state.2 then throw "The desktop certificate was not verified." else mret ());;
     dispatch (SetSecurity {| mode := mode_https; tlsVersion := state.1; certificateVerified := true |});;
     dispatch (ServerConnected true);;
     setAppState screen_home;;
     mret true)
    (λ message,
     setConfig "" "";; clearSecureConnection;; dispatch (ServerConnected false);; dispatch (SetConnecting false);;
     dispatch (PairingDesktop None);; dispatch (SetSecurity disconnectedSecurity);; resetConnectionAttempt;;
     when (negb silent) (showAlertOnce "Could not reconnect"
       (message +:+ " Your saved trust was kept. Try this desktop again, or scan its current QR code if trust was revoked."));;
     mret false).

(** ** Reconnecting to a trusted desktop *)

(** The alert that asks for the QR code; its buttons do not belong to the attempt. *)
Definition ask_for_qr (title message : string) : M unit := showAlertOnce title message.

(* src: app/hooks/usePairingController.ts:248-250 [handleDiscoveredServer] *)
Definition same_trust (saved : SavedConnection) (server : DiscoveredServer) (expected : IosClientEnvironment) : bool :=
  bool_decide (sc_environment saved = ds_environment server) && bool_decide (ds_environment server = expected)
  && bool_decide (sc_serverId saved = ds_serverId server)
  && bool_decide (normalizeFingerprint (sc_certificateFingerprint saved)
                  = normalizeFingerprint (ds_certificateFingerprint server)).

(* src: app/hooks/usePairingController.ts:242-277 [handleDiscoveredServer] *)
Definition use_discovered (server : DiscoveredServer) : M unit :=
  storedValue ← stored lastServer (λ w, w);
  let saved := storedValue ≫= parseSavedConnection in
  when (bool_decide (is_Some storedValue) && negb (bool_decide (is_Some saved)))
    (try_catch (stored (λ _, ()) (λ w, w <| lastServer := None |>)) (λ _, mret ()));;
  expected ← get (λ w, expectedEnvironment (api w));
  match saved ≫= (λ saved, if same_trust saved server expected then Some saved else None) with
  | None =>
      ask_for_qr "Scan QR to trust this desktop" "Discovery can find a desktop, but the first secure connection requires its pairing QR code."
  | Some saved =>
      found ← stored storedCredential (λ w, w);
      match usable found with
      | None =>
          stored (λ _, ()) (λ w, w <| lastServer := None |>);;
          ask_for_qr "Pairing required" "The approved-device credential is missing. Scan the Windows QR again."
      | Some credential =>
          let refreshed := {| sc_environment := sc_environment saved; sc_serverId := sc_serverId saved;
            sc_httpsUrl := "https://" +:+ ds_address server +:+ ":" +:+ pretty (ds_httpsPort server);
            sc_httpUrl := sc_httpUrl saved; sc_certificateFingerprint := sc_certificateFingerprint saved;
            sc_name := sc_name saved |} in
          ok ← connectTrusted refreshed credential false;
          if ok : bool then stored (λ _, ()) (λ w, w <| lastServer := Some (Some (saved_json refreshed)) |>) else mret ()
      end
  end.

(* src: app/hooks/usePairingController.ts:238-291 [handleDiscoveredServer] *)
Definition handleDiscoveredServer (server : DiscoveredServer) : M unit :=
  attempt ← get connectionAttempt;
  if attempt : bool then mret () else
  setAttempt true;; dispatch (SetConnecting true);;
  try_finally
    (try_catch (use_discovered server)
       (λ _, ask_for_qr "Could not use nearby discovery" "The saved connection could not be read. Scan the Windows QR code to reconnect securely."))
    (setAttempt false;; dispatch (SetConnecting false)).

(** The saved receiver is the one the shell read when the screen was entered. *)
(* src: app/AppShell.tsx:176-191 [handleTrustedReconnect] *)
Definition handleTrustedReconnect (savedReceiver : option SavedConnection) : M unit :=
  attempt ← get connectionAttempt;
  match savedReceiver with
  | Some saved =>
      if attempt : bool then mret () else
      found ← try_catch (stored storedCredential (λ w, w)) (λ _, mret None);
      match usable found with
      | None => showAlertOnce "Pairing required" "The approved-device credential is missing. Scan the Windows QR code again."
      | Some credential =>
          setAttempt true;; dispatch (SetConnecting true);;
          try_finally (connectTrusted saved credential false;; mret ())
            (setAttempt false;; dispatch (SetConnecting false))
      end
  | None => mret ()
  end.

(** ** The preference for plain HTTP *)

(* src: app/hooks/usePairingController.ts:293-316 [updateAllowInsecureHttp] *)
Definition updateAllowInsecureHttp (persist : bool → M unit) (enabled : bool) : M unit :=
  if negb nativeAvailable then
    showAlertOnce "Expo Go uses HTTP" "Expo Go cannot use pinned HTTPS because the native module is not loaded. Install the IPA to use encrypted HTTPS."
  else
  confirmed ← (if enabled then confirmOnce "Allow unencrypted HTTP?" "Keep this off unless you need compatibility with an older desktop build. HTTPS stays preferred, and each HTTP session still asks for confirmation."
               else mret true);
  if negb confirmed then mret () else
  when (negb enabled) (modify (λ w, w <| httpConfirmed := false |>));;
  persist enabled;;
  http ← get (λ w, match mode (connectionSecurity (controller w)) with mode_http => true | _ => false end);
  if negb enabled && http then
    forget_connection;; setAppState screen_connect;;
    showAlertOnce "HTTP connection closed" "Unencrypted HTTP was turned off, so the current HTTP desktop connection was disconnected. Reconnect with encrypted HTTPS or enable HTTP again for compatibility."
  else mret ().

(** ** Entering an address by hand *)

(** What [connectManually] passes to [handleConnect]; [None]: an https address without the
    native module, refused with an alert. *)
(* src: features/connection/hooks/useManualConnection.ts:36-66 [connectManually] *)
Definition connectManually (ip fingerprint manualToken : string) (expected : IosClientEnvironment)
    : option (string * string * option PairingPayload) :=
  let normalized := normalizeFingerprint fingerprint in
  let input := trim ip in
  let secureUrl := if startsWith input "http" then input
                   else if nativeAvailable then "https://" +:+ input +:+ ":8443" else "http://" +:+ input +:+ ":8080" in
  if negb nativeAvailable && is_https secureUrl then None else
  let manualPairing :=
    if is_https secureUrl && (string_length normalized =? 64)%nat then
      Some {| pp_environment := expected; pp_serverId := ""; pp_name := "Manual desktop"; pp_httpsUrl := secureUrl;
              pp_certificateFingerprint := normalized; pp_token := trim manualToken; pp_httpUrl := None |}
    else None in
  Some (secureUrl, trim manualToken, manualPairing).

End attempts.
End Connection.
