(* ===== verification/ConnectionSafety.v ===== *)
(** * What a connection attempt may send, and whom it may trust

    [keeps P m]: the computation [m] preserves the property [P] of the world, whatever its
    environment answers. The properties of interest follow an attempt from its start [w0]:
    every request since then goes to one address and leaves under one pin. *)

From S2P Require Import Prelude Js UploadTypes Security Native Api Connection.
Import ApiClient Connection.

Create HintDb keeps.

(** ** Preservation *)

Definition keeps (P : world → Prop) {A} (m : M A) : Prop := ∀ w, P w → P (m w).1.

Section keeps.
Context (P : world → Prop).

Lemma keeps_ret {A} (a : A) : keeps P (mret a).
Proof. by intros w. Qed.

Lemma keeps_throw {A} message : keeps P (A:=A) (throw message).
Proof. by intros w. Qed.

Lemma keeps_get {A} (f : world → A) : keeps P (get f).
Proof. by intros w. Qed.

Lemma keeps_bind {A B} (m : M A) (f : A → M B) : keeps P m → (∀ a, keeps P (f a)) → keeps P (m ≫= f).
Proof.
  intros Hm Hf w Hw. unfold mbind, M_bind. specialize (Hm w Hw). destruct (m w) as [w1 [e|a]]; [done|]. by apply Hf.
Qed.

Lemma keeps_catch {A} (m : M A) (h : string → M A) : keeps P m → (∀ e, keeps P (h e)) → keeps P (try_catch m h).
Proof. intros Hm Hh w Hw. unfold try_catch. specialize (Hm w Hw). destruct (m w) as [w1 [e|a]]; [by apply Hh|done]. Qed.

Lemma keeps_when b m : keeps P m → keeps P (when b m).
Proof. destruct b; [done|]. intros _. apply keeps_ret. Qed.

Lemma keeps_modify f : (∀ w, P w → P (f w)) → keeps P (modify f).
Proof. intros Hf w Hw. by apply Hf. Qed.
End keeps.

#[export] Hint Resolve keeps_ret keeps_throw keeps_get keeps_when : keeps.

(** Takes a computation apart; what is left are its single effects. *)
Ltac keeps :=
  repeat first
    [ progress (intros; cbn beta)
    | apply keeps_bind | apply keeps_catch | apply keeps_when | apply keeps_ret | apply keeps_throw | apply keeps_get
    | match goal with
      | |- keeps _ (if ?b then _ else _) => destruct b
      | |- keeps _ (match ?x with _ => _ end) => destruct x
      | |- keeps _ (let _ := _ in _) => cbv zeta
      end
    | solve [eauto with keeps] ].

(** ** The traffic of an attempt *)

Section traffic.
Context (env : environment) (nativeAvailable : bool).
Context (w0 : world) (base : string) (pn : option (string * string)).

Definition ok_traffic (tr : traffic) : Prop :=
  startsWith (rq_url (tr_request tr)) (base +:+ "/") = true ∧ tr_pin tr = pn.

(** All that was sent since [w0] went to [base] under [pn]. *)
Record since (w : world) : Prop := {
  sn_sent : ∃ new, sent w = sent w0 ++ new ∧ Forall ok_traffic new;
  sn_clock : (clock w0 <= clock w)%nat;
  sn_confirmed : httpConfirmed w = httpConfirmed w0;
  sn_expected : expectedEnvironment (api w) = expectedEnvironment (api w0) }.

(** In addition the client talks to [base], and the pin is [pn]. *)
Definition on_target (w : world) : Prop := serverUrl (api w) = Some base ∧ pin w = pn ∧ since w.

(** Effects on the rest of the world. *)
Definition same_target (w w' : world) : Prop :=
  api w' = api w ∧ pin w' = pin w ∧ sent w' = sent w ∧ (clock w <= clock w')%nat ∧ httpConfirmed w' = httpConfirmed w.

Lemma since_same w w' : same_target w w' → since w → since w'.
Proof. intros (Ha & _ & Hs & Hc & Hh) [H1 H2 H3 H4]. split; rewrite ?Hs, ?Hh, ?Ha; try done. lia. Qed.

Lemma on_target_same w w' : same_target w w' → on_target w → on_target w'.
Proof.
  intros Hsame (Ht & Hp & Hs). pose proof (since_same w w' Hsame Hs). destruct Hsame as (Ha & Hpn & _).
  unfold on_target. by rewrite Ha, Hpn.
Qed.

(** An effect that touches neither the client, the pin nor the network keeps both. *)
Definition aside {A} (m : M A) : Prop := ∀ w, same_target w (m w).1.

Lemma aside_keeps {A} (m : M A) : aside m → keeps since m ∧ keeps on_target m.
Proof. intros Hm. split; intros w Hw; [by apply (since_same w)|by apply (on_target_same w)]. Qed.

Lemma aside_modify (f : world → world) : (∀ w, same_target w (f w)) → aside (modify f).
Proof. intros Hf w. apply Hf. Qed.

Lemma aside_dispatch a : aside (dispatch a).
Proof. intros w. split_and!; simpl; first [done|lia]. Qed.

Lemma aside_setAppState a : aside (setAppState a).
Proof. intros w. split_and!; simpl; first [done|lia]. Qed.

Lemma aside_setAttempt a : aside (setAttempt a).
Proof. intros w. split_and!; simpl; first [done|lia]. Qed.

Lemma aside_stored {A} (f : world → A) (g : world → world) :
  (∀ w, same_target w (g w)) → aside (stored env f g).
Proof.
  intros Hg w. unfold stored. destruct (storage env (clock w)); simpl; [split_and!; simpl; first [done|lia]|].
  destruct (Hg w) as (? & ? & ? & ? & ?). split_and!; simpl; first [done|lia].
Qed.

Lemma aside_alert title message : aside (showAlertOnce env title message).
Proof. intros w. unfold showAlertOnce. destruct (gate_open _ _); split_and!; simpl; first [done|lia]. Qed.

Lemma aside_confirm title message : aside (confirmOnce env title message).
Proof. intros w. unfold confirmOnce. destruct (gate_open _ _); split_and!; simpl; first [done|lia]. Qed.

Lemma aside_random n : aside (randomHex env n).
Proof. intros w. split_and!; simpl; first [done|lia]. Qed.

Lemma aside_security : aside (securityState env nativeAvailable).
Proof. intros w. unfold securityState. destruct nativeAvailable; split_and!; simpl; first [done|lia]. Qed.

(** ** Requests *)

Lemma since_traffic w c rqs n :
  pin w = pn → since w → (∀ rq, rq ∈ rqs → startsWith (rq_url rq) (base +:+ "/") = true) →
  expectedEnvironment c = expectedEnvironment (api w) →
  since (w <| api := c |> <| sent := sent w ++ ((λ r, {| tr_request := r; tr_pin := pin w |}) <$> rqs) |>
           <| clock := (clock w + n)%nat |>).
Proof.
  intros Hp [(new & Hs & Hnew) H2 H3 H4] Hrqs Hc. split; simpl; [|lia|done|congruence].
  exists (new ++ ((λ r, {| tr_request := r; tr_pin := pin w |}) <$> rqs)). split; [by rewrite Hs, app_assoc|].
  apply Forall_app. split; [done|]. apply Forall_fmap, Forall_forall. intros rq Hrq. split; [by apply Hrqs|done].
Qed.

(** A call to the client keeps the target when its requests go there and it leaves the address. *)
Lemma call_keeps {A} n (op : ApiClient.t → (nat → string + Response) → outcome A) :
  (∀ c net, serverUrl c = Some base →
     (∀ rq, rq ∈ requests (op c net) → startsWith (rq_url rq) (base +:+ "/") = true)
     ∧ serverUrl (client (op c net)) = Some base
     ∧ expectedEnvironment (client (op c net)) = expectedEnvironment c) →
  keeps on_target (call env n op).
Proof.
  intros Hop w (Ht & Hp & Hs). destruct (Hop (api w) (answers env w) Ht) as (Hrq & Hurl & Hexp).
  unfold call. split; [exact Hurl|]. split; [exact Hp|]. by apply since_traffic.
Qed.
Lemma verify_token_client c b notify net rqs n :
  serverUrl (client (verify_token c b notify net rqs n)) = serverUrl c
  ∧ expectedEnvironment (client (verify_token c b notify net rqs n)) = expectedEnvironment c.
Proof.
  unfold verify_token. destruct (headers c); [|done]. destruct (net 1%nat) as [|r]; [done|].
  destruct (ok r); [|done]. simpl. destruct (readJson r) as [|body]; [done|]. by destruct (requireExpectedEnvironment _ _).
Qed.

Lemma usable_base b u : usable (Some u) = Some b → u = b.
Proof. simpl. destruct (truthy u); naive_solver. Qed.

Lemma pingServer_effects c notify net :
  serverUrl c = Some base →
  (∀ rq, rq ∈ requests (pingServer c nativeAvailable notify net) → startsWith (rq_url rq) (base +:+ "/") = true)
  ∧ serverUrl (client (pingServer c nativeAvailable notify net)) = Some base
  ∧ expectedEnvironment (client (pingServer c nativeAvailable notify net)) = expectedEnvironment c.
Proof.
  intros Hc. unfold pingServer. rewrite Hc. destruct (usable (Some base)) as [u|] eqn:Hu; [|by split; [intros rq ?%elem_of_nil|]].
  apply usable_base in Hu as <-. destruct (transport_refuses _ _); [by split; [intros rq ?%elem_of_nil|]|].
  assert (∀ rq, rq ∈ [{| rq_url := base +:+ "/_health"; rq_method := "GET"; rq_token := headers c; rq_body := JUndefined |}] →
    startsWith (rq_url rq) (base +:+ "/") = true) as Hfirst by (intros rq ->%list_elem_of_singleton; apply startsWith_base).
  destruct (net 0%nat) as [m|r]; [done|]. destruct (ok r); simpl; [|done]. destruct (readJson r) as [e|body]; [done|].
  simpl. match goal with |- context [requireExpectedEnvironment ?c1 ?e] => destruct (requireExpectedEnvironment c1 e); [done|] end.
  match goal with |- context [verify_token ?c1 ?b ?nt ?ne ?rqs ?n] =>
    destruct (verify_token_client c1 b nt ne rqs n) as [H1 H2];
    destruct (verify_token_requests c1 b nt ne rqs n) as [H3 _] end.
  rewrite H1, H2. split; [|done]. intros rq Hrq. apply H3; [|done]. intros rq' Hrq'. split; [by apply Hfirst|].
  left. by apply list_elem_of_singleton in Hrq' as ->.
Qed.

Lemma one_request_effects {A} c net rq (k : Response → nat * (api_error + A)) :
  requests (one_request c nativeAvailable net rq k) ⊆ [rq] ∧ client (one_request c nativeAvailable net rq k) = c.
Proof.
  unfold one_request. destruct (transport_refuses _ _); [split; [apply list_subseteq_nil|done]|].
  destruct (net 0%nat); [done|]. by destruct (k r).
Qed.

Lemma ping_keeps : keeps on_target (ping env nativeAvailable).
Proof. apply call_keeps. intros c net Hc. by apply pingServer_effects. Qed.

Lemma one_request_keeps {A} rq (k : ApiClient.t → Response → nat * (api_error + A)) :
  (∀ c, startsWith (rq_url (rq c)) (base +:+ "/") = true) →
  keeps on_target (call env 1 (λ c net, one_request c nativeAvailable net (rq c) (k c))).
Proof.
  intros Hrq. apply call_keeps. intros c net Hc. destruct (one_request_effects c net (rq c) (k c)) as [Hr ->].
  split; [|done]. intros r Hin. apply Hr in Hin. apply list_elem_of_singleton in Hin as ->. apply Hrq.
Qed.

Lemma log_keeps level event message data : keeps on_target (logClientEvent nativeAvailable level event message data).
Proof.
  intros w (Ht & Hp & Hs). unfold logClientEvent. rewrite Ht. destruct (usable (Some base)) as [u|] eqn:Hu; [|done].
  apply usable_base in Hu as <-. destruct (transport_refuses _ _); [done|]. split; [done|]. split; [done|].
  pose proof (since_traffic w (api w) [post (base +:+ "/client_log") (headers (api w))
    (JObj [("session", JStr "ios"); ("level", JStr level); ("event", JStr event); ("message", JStr message);
           ("data", JObj data); ("client", JStr "expo-ios")])] 0 Hp Hs) as H.
  destruct H as [H1 H2 H3 H4]; [intros rq ->%list_elem_of_singleton; apply startsWith_base|done|].
  split; try done. simpl in H2. simpl. lia.
Qed.

Lemma forget_since : keeps since forget_connection.
Proof. intros w [H1 H2 H3 H4]. by split. Qed.

Lemma on_target_since w : on_target w → since w.
Proof. by intros (_ & _ & ?). Qed.

(** ** The parts of an attempt *)

Lemma identity_aside : aside (getDeviceIdentity env).
Proof.
  assert (∀ A B (m : M A) (f : A → M B), aside m → (∀ a, aside (f a)) → aside (m ≫= f)) as Hbind.
  { intros A B m f Hm Hf w. unfold mbind, M_bind. specialize (Hm w). destruct (m w) as [w1 [e|a]]; [done|].
    destruct Hm as (H1 & H2 & H3 & H4 & H5), (Hf a w1) as (G1 & G2 & G3 & G4 & G5). simpl in *.
    split_and!; try congruence. lia. }
  assert (∀ A (m : M A) h, aside m → (∀ e, aside (h e)) → aside (try_catch m h)) as Hcatch.
  { intros A m h Hm Hh w. unfold try_catch. specialize (Hm w). destruct (m w) as [w1 [e|a]]; [|done].
    destruct Hm as (H1 & H2 & H3 & H4 & H5), (Hh e w1) as (G1 & G2 & G3 & G4 & G5). simpl in *.
    split_and!; try congruence. lia. }
  assert (∀ A (a : A), aside (mret a)) as Hret by (intros A a w; split_and!; simpl; first [done|lia]).
  assert (∀ A (f : world → A) g, (∀ w, same_target w (g w)) → aside (stored env f g)) as Hst by (intros; by apply aside_stored).
  assert (∀ w, same_target w w) as Hrefl by (intros w; split_and!; first [done|lia]).
  unfold getDeviceIdentity, migrate_identity.
  repeat first [ apply Hret | apply Hbind; intros | apply Hcatch; intros | apply aside_random
    | apply Hst; intros; first [apply Hrefl|split_and!; simpl; first [done|lia]]
    | match goal with |- aside (match ?x with _ => _ end) => destruct x end ].
Qed.

End traffic.

Lemma strip_slash_path u path : startsWith (u +:+ "/" +:+ path) (strip_slash u +:+ "/") = true.
Proof.
  induction u as [|c u IH]; [apply (startsWith_app path "/")|].
  change (strip_slash (String c u)) with
    (match u with EmptyString => if bool_decide (c = Ascii.ascii_of_nat 47) then EmptyString else String c EmptyString
     | _ => String c (strip_slash u) end).
  destruct u as [|c' u].
  - case_bool_decide as Hc; [subst c; apply (startsWith_app ("/" +:+ path) "/")|]. simpl. by rewrite !bool_decide_eq_true_2.
  - simpl in *. rewrite bool_decide_eq_true_2 by done. exact IH.
Qed.

Section target.
Context (env : environment) (nativeAvailable : bool) (w0 : world) (u : string) (pn : option (string * string)).
Notation on_target := (on_target w0 (strip_slash u) pn).
Notation since := (since w0 (strip_slash u) pn).

Lemma keeps_aside {A} (m : M A) : aside m → keeps on_target m.
Proof. intros Hm. by apply aside_keeps. Qed.
Lemma keeps_aside_since {A} (m : M A) : aside m → keeps since m.
Proof. intros Hm. by apply aside_keeps. Qed.

Lemma requestPairing_keeps identity : keeps on_target (requestPairing env nativeAvailable u identity).
Proof.
  apply (one_request_keeps env nativeAvailable w0 (strip_slash u) pn
    (λ c, post (u +:+ "/pair/request") (headers c)
       (JObj [("deviceId", JStr (deviceId identity)); ("deviceName", JStr "iPhone"); ("credential", JStr (credential identity))]))
    (λ c r, (0%nat, readPairingStatus c r))).
  intros c. apply (strip_slash_path u "pair/request").
Qed.

Lemma pairingStatus_keeps identity : keeps on_target (pairingStatus env nativeAvailable u identity).
Proof.
  apply (one_request_keeps env nativeAvailable w0 (strip_slash u) pn
    (λ c, post (u +:+ "/pair/status") None (JObj [("deviceId", JStr (deviceId identity)); ("credential", JStr (credential identity))]))
    (λ c r, (0%nat, readPairingStatus c r))).
  intros c. apply (strip_slash_path u "pair/status").
Qed.

Lemma poll_keeps n identity : ∀ status, keeps on_target (poll_approval env nativeAvailable n u identity status).
Proof.
  induction n as [|n IH]; intros status; simpl; [apply keeps_ret|]. case_bool_decide; [|apply keeps_ret].
  apply keeps_bind; [apply pairingStatus_keeps|done].
Qed.

Lemma await_keeps identity onPending : aside onPending → keeps on_target (awaitPairingApproval env nativeAvailable u identity onPending).
Proof.
  intros Hp. apply keeps_bind; [apply requestPairing_keeps|]. intros status. case_bool_decide; [|apply keeps_ret].
  apply keeps_bind; [by apply keeps_aside|]. intros _. apply poll_keeps.
Qed.

Lemma setConfig_keeps token : keeps on_target (setConfig u token).
Proof. intros w (H1 & H2 & [S1 S2 S3 S4]). split; [done|]. split; [done|]. by split. Qed.

Lemma activation_keeps n : keeps on_target (try_activation env nativeAvailable n).
Proof.
  induction n as [|n IH]; simpl; [apply keeps_ret|]. apply keeps_bind; [apply ping_keeps|].
  intros []; [apply keeps_ret|done].
Qed.

Lemma activate_keeps c : keeps on_target (activatePairingCredential env nativeAvailable u c).
Proof. apply keeps_bind; [apply setConfig_keeps|]. intros _. apply activation_keeps. Qed.

(** How an attempt that has reached the network concludes. *)
Definition forgotten (w : world) : Prop :=
  serverUrl (api w) = Some "" ∧ token (api w) = Some "" ∧ pin w = None ∧ isServerConnected (controller w) = false.

Definition concluded (w : world) (r : string + bool) : Prop :=
  since w ∧ match r with
            | inr true => on_target w ∧ isServerConnected (controller w) = true
            | inr false => forgotten w
            | inl _ => True
            end.

Definition concludes (m : M bool) : Prop := ∀ w, on_target w → concluded (m w).1 (m w).2.

Lemma concludes_bind {A} (m : M A) (f : A → M bool) : keeps on_target m → (∀ a, concludes (f a)) → concludes (m ≫= f).
Proof.
  intros Hm Hf w Hw. unfold mbind, M_bind. specialize (Hm w Hw).
  destruct (m w) as [w1 [e|a]]; [split; [by eapply on_target_since|done]|]. by apply Hf.
Qed.

Lemma forget_concludes silent title message :
  concludes (forget_connection;; when (negb silent) (showAlertOnce env title message);; mret false).
Proof.
  intros w Hw. cbn -[showAlertOnce]. pose proof (forget_since w0 (strip_slash u) pn w (on_target_since _ _ _ _ Hw)) as Hs.
  set (w1 := (forget_connection w).1) in *. assert (forgotten w1) as Hf by done.
  change (concluded ((when (negb silent) (showAlertOnce env title message);; mret false : M bool) w1).1
    ((when (negb silent) (showAlertOnce env title message);; mret false : M bool) w1).2).
  clearbody w1. destruct silent; [by split|]. unfold mbind, M_bind, when. cbn [negb].
  pose proof (aside_alert env title message w1) as Hal.
  assert (controller (showAlertOnce env title message w1).1 = controller w1) as Hc
    by (unfold showAlertOnce; by destruct (gate_open env w1)).
  assert ((showAlertOnce env title message w1).2 = inr ()) as Hr by (unfold showAlertOnce; by destruct (gate_open env w1)).
  destruct (showAlertOnce env title message w1) as [w2 r2]. simpl in *. subst r2. split; [by apply (since_same _ _ _ w1)|].
  destruct Hal as (Ha & Hp & _). unfold forgotten. simpl. by rewrite Ha, Hp, Hc.
Qed.

Lemma connected_concludes (m : M unit) :
  keeps on_target m → (∀ w, (m w).2 = inr () → isServerConnected (controller (m w).1) = true) → concludes (m;; mret true).
Proof.
  intros Hk Hc w Hw. unfold mbind, M_bind. specialize (Hk w Hw). specialize (Hc w). destruct (m w) as [w1 [e|[]]].
  - split; [by eapply on_target_since|done].
  - split; [by eapply on_target_since|]. split; [done|]. by apply Hc.
Qed.

Lemma log_then level event message data (m : M bool) :
  concludes m → concludes (logClientEvent nativeAvailable level event message data;; m).
Proof. intros Hm. apply concludes_bind; [apply log_keeps|by intros _]. Qed.

Lemma dispatch_concludes a :
  isServerConnected (connectionControllerReducer initialConnectionControllerState a) = true →
  (∀ s, isServerConnected (connectionControllerReducer s a) = isServerConnected (connectionControllerReducer initialConnectionControllerState a)) →
  concludes (dispatch a;; mret true).
Proof.
  intros Ha Hs. apply connected_concludes; [apply keeps_aside, aside_dispatch|]. intros w _. simpl. by rewrite Hs.
Qed.

Lemma pair_concludes pairing silent : concludes (pair env nativeAvailable u pairing silent).
Proof.
  unfold pair. apply concludes_bind; [apply keeps_aside, identity_aside|]. intros identity.
  apply concludes_bind; [apply await_keeps, aside_dispatch|]. intros status. case_bool_decide.
  { apply log_then, forget_concludes. }
  apply concludes_bind; [apply activate_keeps|]. intros activated. destruct activated; cbn [negb].
  2:{ apply log_then, forget_concludes. }
  destruct pairing as [p|]; [|by apply dispatch_concludes]. destruct (is_https u); [|by apply dispatch_concludes].
  apply concludes_bind; [apply keeps_aside, aside_stored; intros w; split_and!; simpl; first [done|lia]|]. intros _.
  apply concludes_bind; [apply keeps_aside, aside_security|]. intros state. by apply dispatch_concludes.
Qed.

(** What follows the choice of the transport. *)
Definition after_transport (token : string) (pairing : option PairingPayload) (silent : bool) : M bool :=
  ok ← ping env nativeAvailable;
  if negb ok then
    logClientEvent nativeAvailable "WARN" "ios_https_pairing_failed"
      "QR session token validation failed during HTTPS pairing." [("stage", JStr "qr_token_validation")];;
    forget_connection;;
    reason ← get (λ w, connectionError (api w));
    when (negb silent) (showAlertOnce env "Connection Failed"
      (js_or reason "The app reached the desktop, but the QR session token was not accepted. Scan the current Windows QR code again."));;
    mret false
  else
    connected ← (if (is_https u && bool_decide (is_Some pairing)) || startsWith token "pair-"
                 then pair env nativeAvailable u pairing silent else dispatch ConnectedHttp;; mret true);
    if connected : bool then setAppState screen_home;; mret true else mret false.

Lemma after_transport_concludes token pairing silent : concludes (after_transport token pairing silent).
Proof.
  unfold after_transport. apply concludes_bind; [apply ping_keeps|]. intros ok. destruct ok; cbn [negb].
  2:{ apply log_then. intros w Hw. apply (forget_concludes silent "Connection Failed" _ w Hw). }
  assert (concludes (if (is_https u && bool_decide (is_Some pairing)) || startsWith token "pair-"
    then pair env nativeAvailable u pairing silent else dispatch ConnectedHttp;; mret true)) as Hp.
  { destruct (_ || _); [apply pair_concludes|by apply dispatch_concludes]. }
  set (m := if _ || _ then _ else _) in *. clearbody m. intros w Hw. specialize (Hp w Hw). unfold mbind, M_bind.
  destruct (m w) as [w1 [e|[]]]; [exact Hp| |exact Hp].
  destruct Hp as [Hs [Ht Hc]]. destruct (keeps_aside (setAppState screen_home) (aside_setAppState _) w1 Ht) as (H1 & H2 & H3).
  split; [done|]. split; [done|]. exact Hc.
Qed.
End target.

(** ** Choosing the transport *)

Section transport.
Context (env : environment) (nativeAvailable : bool).

(** Only alerts, time and the refs of the screens. *)
Definition quiet (w w' : world) : Prop :=
  api w' = api w ∧ pin w' = pin w ∧ sent w' = sent w ∧ (clock w <= clock w')%nat ∧ httpConfirmed w' = httpConfirmed w
  ∧ controller w' = controller w.

Lemma alert_spec title message w :
  ∃ w', showAlertOnce env title message w = (w', inr ()) ∧ quiet w w'.
Proof. unfold showAlertOnce. destruct (gate_open env w); eexists; (split; [done|]); split_and!; simpl; first [done|lia]. Qed.

Lemma when_alert_spec b title message w :
  ∃ w', when b (showAlertOnce env title message) w = (w', inr ()) ∧ quiet w w'.
Proof. destruct b; [apply alert_spec|]. exists w. split; [done|]. split_and!; first [done|lia]. Qed.

Lemma confirm_spec title message w :
  ∃ w' b, confirmOnce env title message w = (w', inr b) ∧ quiet w w'
    ∧ (b = true → (clock w < clock w')%nat ∧ confirms env (clock w) = true).
Proof.
  unfold confirmOnce. destruct (gate_open env w); eexists _, _; (split; [done|]); split.
  - split_and!; simpl; first [done|lia].
  - simpl. intros. split; [lia|done].
  - split_and!; simpl; first [done|lia].
  - done.
Qed.

(** The user allows plain HTTP, once per session with the native module. *)
Definition http_allowed (allow silent confirmed : bool) (w : world) : Prop :=
  allow = true ∧ silent = false ∧ (nativeAvailable = true → confirmed = true ∨ ∃ k, (clock w <= k)%nat ∧ confirms env k = true).

Definition transport_chosen (ip token : string) (pairing : option PairingPayload) (allow silent confirmed : bool)
    (w w' : world) (chosen : option (string * bool)) : Prop :=
  api w' = api w ∧ sent w' = sent w ∧ (clock w <= clock w')%nat ∧ httpConfirmed w' = httpConfirmed w
  ∧ controller w' = controller w
  ∧ match chosen with
    | None => pin w' = pin w
    | Some (u, confirmed') => u = address ip ∧
        ((startsWith u "http://" = true ∧ http_allowed allow silent confirmed w ∧ pin w' = pin w ∧ confirmed' = true)
         ∨ ∃ p k, pairing = Some p ∧ pp_environment p = expectedEnvironment (api w) ∧ token ≠ ""
             ∧ nativeAvailable = true ∧ configures env k u (pp_certificateFingerprint p) = None
             ∧ pin w' = Some (u, pp_certificateFingerprint p) ∧ confirmed' = confirmed)
    end.

Lemma refused_chosen ip token pairing allow silent confirmed title message b w :
  ∃ w', (when b (showAlertOnce env title message);; mret None : M (option (string * bool))) w = (w', inr None)
        ∧ transport_chosen ip token pairing allow silent confirmed w w' None.
Proof.
  destruct (when_alert_spec b title message w) as (w' & Hw & Ha & Hp & Hs & Hc & Hh & Hco).
  exists w'. unfold mbind, M_bind. rewrite Hw. split; [done|]. by split_and!.
Qed.

Lemma transport_spec ip token pairing silent allow confirmed w :
  ∃ w' chosen, configurePairingTransport env nativeAvailable ip token pairing silent allow confirmed w = (w', inr chosen)
    ∧ transport_chosen ip token pairing allow silent confirmed w w' chosen.
Proof.
  unfold configurePairingTransport. unfold mbind at 1, M_bind at 1, get.
  destruct (pairing ≫= _) as [p|] eqn:Hmatch.
  { edestruct (refused_chosen ip token pairing allow silent confirmed) as (w' & Hw & Hc).
    eexists w', None. split; [exact Hw|exact Hc]. }
  assert (∀ b title message, ∃ w' chosen,
    (when b (showAlertOnce env title message);; mret None : M (option (string * bool))) w = (w', inr chosen)
    ∧ transport_chosen ip token pairing allow silent confirmed w w' chosen) as Hrefuse.
  { intros b title message. destruct (refused_chosen ip token pairing allow silent confirmed title message b w) as (w' & ? & ?).
    by exists w', None. }
  destruct (startsWith (address ip) "http://") eqn:Hhttp.
  - destruct (silent || negb allow) eqn:Hoff; [apply Hrefuse|]. apply orb_false_iff in Hoff as [-> ->%negb_false_iff].
    destruct (nativeAvailable && negb confirmed) eqn:Hneeds.
    + unfold confirmHttpFallback. destruct (confirm_spec "Use unencrypted HTTP?" (if nativeAvailable then
        "Only use HTTP for older desktop builds on a private Wi-Fi network. Files and access credentials are not protected by HTTPS."
        else "Expo Go cannot use the native pinned-HTTPS or native upload module, so development uses HTTP plus the compatibility uploader. This has more overhead and can be slower. Use the installed IPA for encrypted, faster native transfers.") w)
        as (w1 & b & Hw1 & (Ha & Hp & Hs & Hc & Hh & Hco) & Hb).
      unfold mbind, M_bind. rewrite Hw1. destruct b; cbn.
      * exists w1, (Some (address ip, true)). split; [done|]. split_and!; try done. left. split_and!; try done.
        split_and!; try done. intros _. right. exists (clock w). destruct Hb; done.
      * exists w1, None. split; [done|]. by split_and!.
    + cbn. exists w, (Some (address ip, true)). split; [done|]. split_and!; try done. left. split_and!; try done.
      split_and!; try done. intros Hn. left. rewrite Hn in Hneeds. by destruct confirmed.
  - destruct pairing as [p|]; [|apply Hrefuse]. destruct (truthy (pp_certificateFingerprint p) && truthy token) eqn:Ht; [|apply Hrefuse].
    apply andb_prop in Ht as [_ Ht%truthy_true]. simpl in Hmatch. case_bool_decide as Henv; [done|].
    unfold configureSecureConnection, try_catch. unfold mbind at 1, M_bind at 1.
    destruct (Bool.bool_dec nativeAvailable true) as [Hna|Hna%not_true_is_false]; rewrite Hna; cbn [negb].
    + destruct (configures env (clock w) (address ip) (pp_certificateFingerprint p)) as [message|] eqn:Hconf.
      * destruct (refused_chosen ip token (Some p) allow silent confirmed "Secure connection unavailable" message (negb silent) (tick w))
          as (w' & Hw & (Ha & Hs & Hc & Hh & Hco & Hp)).
        exists w', None. split; [exact Hw|]. split_and!; try done. simpl in Hc. lia.
      * eexists _, (Some (address ip, confirmed)). split; [reflexivity|]. split_and!; try done; [simpl; lia|].
        right. by exists p, (clock w).
    + apply Hrefuse.
Qed.
End transport.

(** ** A whole attempt *)

Section attempt.
Context (env : environment) (nativeAvailable : bool).
Context (allow : bool) (ip token : string) (pairing : option PairingPayload) (silent : bool).
Notation u := (address ip).

(** The world when the transport is configured: the client talks to the address. *)
Definition configured (w1 : world) (confirmed : bool) : world :=
  w1 <| httpConfirmed := confirmed |> <| api := ApiClient.setConfig (api w1) u token |>.

(** What an attempt has done before its [finally]. *)
Definition attempted (w w' : world) (r : string + bool) : Prop :=
  (∃ w1, r = inr false ∧ w' = w1 ∧ transport_chosen env nativeAvailable ip token pairing allow silent (httpConfirmed w) w w1 None)
  ∨ ∃ w1 confirmed,
      transport_chosen env nativeAvailable ip token pairing allow silent (httpConfirmed w) w w1 (Some (u, confirmed))
      ∧ concluded (configured w1 confirmed) u (pin w1) w' r.

Lemma connect_spec w :
  attempted w (connect env nativeAvailable allow ip token pairing silent w).1
    (connect env nativeAvailable allow ip token pairing silent w).2.
Proof.
  destruct (transport_spec env nativeAvailable ip token pairing silent allow (httpConfirmed w) w) as (w1 & chosen & Hw1 & Hc).
  destruct chosen as [[u' confirmed]|].
  - assert (u' = u) as -> by (by destruct Hc as (_ & _ & _ & _ & _ & -> & _)).
    assert (connect env nativeAvailable allow ip token pairing silent w =
      after_transport env nativeAvailable u token pairing silent (configured w1 confirmed)) as ->.
    { unfold connect. unfold mbind at 1 2, M_bind at 1 2, get. rewrite Hw1. reflexivity. }
    right. exists w1, confirmed. split; [done|]. apply after_transport_concludes.
    split; [done|]. split; [done|]. split; try done. exists []. by rewrite app_nil_r.
  - assert (connect env nativeAvailable allow ip token pairing silent w = (w1, inr false)) as ->.
    { unfold connect. unfold mbind at 1 2, M_bind at 1 2, get. by rewrite Hw1. }
    left. by exists w1.
Qed.

Lemma forgotten_alert silent' title message w :
  let m := (forget_connection;; when (negb silent') (showAlertOnce env title message);; mret false : M bool) in
  ∃ w', m w = (w', inr false) ∧ forgotten w' ∧ sent w' = sent w ∧ expectedEnvironment (api w') = expectedEnvironment (api w).
Proof.
  set (w1 := (forget_connection w).1). assert (forgotten w1) as Hf by done.
  destruct (when_alert_spec env (negb silent') title message w1) as (w' & Hw & Ha & Hp & Hs & _ & _ & Hco).
  assert (forget_connection w = (w1, inr ())) as Hfw by done. clearbody w1.
  exists w'. split; [unfold mbind, M_bind; by rewrite Hfw, Hw|].
  unfold forgotten. rewrite Ha, Hp, Hs, Hco. split; [done|]. by injection Hfw as <-.
Qed.

(** Everything of [handleConnect] but the refs and flags of its [finally]. *)
Lemma handleConnect_spec w :
  connectionAttempt w = false →
  let '(w', r) := handleConnect env nativeAvailable allow ip token pairing silent w in
  connectionAttempt w' = false ∧ isConnecting (controller w') = false ∧ pairingDesktopName (controller w') = None
  ∧ ∃ w1 wa ra, attempted (w <| connectionAttempt := true |> <| controller := connectionControllerReducer (controller w) (SetConnecting true) |>) wa ra
    ∧ (match ra with
       | inr b => r = inr b ∧ w1 = wa
       | inl message => r = inr false ∧ forgotten w1 ∧ sent w1 = sent wa ∧ expectedEnvironment (api w1) = expectedEnvironment (api wa)
       end)
    ∧ api w' = api w1 ∧ pin w' = pin w1 ∧ sent w' = sent w1
    ∧ isServerConnected (controller w') = isServerConnected (controller w1) ∧ lastServer w' = lastServer w1.
Proof.
  intros Hw. unfold handleConnect. unfold mbind at 1, M_bind at 1, get. rewrite Hw. cbn iota beta.
  set (w0 := w <| connectionAttempt := true |> <| controller := _ |>).
  pose proof (connect_spec w0) as Hatt. destruct (connect env nativeAvailable allow ip token pairing silent w0) as [wa ra] eqn:Hrun.
  change (let '(w', r) := try_finally (try_catch (connect env nativeAvailable allow ip token pairing silent)
       (λ message, forget_connection;; when (negb silent) (showAlertOnce env "Connection Failed" message);; mret false))
    (setAttempt false;; dispatch (SetConnecting false);; dispatch (PairingDesktop None)) w0 in
   connectionAttempt w' = false ∧ isConnecting (controller w') = false ∧ pairingDesktopName (controller w') = None
  ∧ ∃ w1 wa ra, attempted w0 wa ra
    ∧ (match ra with
       | inr b => r = inr b ∧ w1 = wa
       | inl message => r = inr false ∧ forgotten w1 ∧ sent w1 = sent wa ∧ expectedEnvironment (api w1) = expectedEnvironment (api wa)
       end)
    ∧ api w' = api w1 ∧ pin w' = pin w1 ∧ sent w' = sent w1
    ∧ isServerConnected (controller w') = isServerConnected (controller w1) ∧ lastServer w' = lastServer w1).
  unfold try_finally, try_catch. rewrite Hrun. destruct ra as [message|b].
  - destruct (forgotten_alert silent "Connection Failed" message wa) as (w1 & Hw1 & Hf & Hs & He). rewrite Hw1.
    cbn. split_and!; try done. exists w1, wa, (inl message). by split_and!.
  - cbn. split_and!; try done. exists wa, wa, (inr b). by split_and!.
Qed.

End attempt.

(** The native module pins https addresses only. *)
Definition pins_https (env : environment) : Prop :=
  ∀ k u fingerprint, configures env k u fingerprint = None → startsWith (toLowerCase u) "https://" = true.

Lemma chosen_transport env na ip token pairing allow silent confirmed w w1 c new :
  pins_https env →
  transport_chosen env na ip token pairing allow silent confirmed w w1 (Some (address ip, c)) →
  Forall (ok_traffic (strip_slash (address ip)) (pin w1)) new →
  (startsWith (address ip) "http://" = true ∧ http_allowed env na allow silent confirmed w)
  ∨ ∃ p, pairing = Some p ∧ pp_environment p = expectedEnvironment (api w)
      ∧ startsWith (toLowerCase (address ip)) "https://" = true
      ∧ Forall (λ tr, tr_pin tr = Some (address ip, pp_certificateFingerprint p)) new.
Proof.
  intros Hpins (_ & _ & _ & _ & _ & _ & [(Hh & Hal & _)|(p & k & -> & Henv & _ & _ & Hconf & Hpin & _)]) Hnew; [by left|].
  right. exists p. split; [done|]. split; [done|]. split; [by apply (Hpins k _ _ Hconf)|].
  rewrite Hpin in Hnew. apply (Forall_impl _ _ _ Hnew). by intros tr [_ ?].
Qed.

(** C21: a connection attempt sends nothing but to the entered address, and nothing
    unprotected without consent. Every request of an attempt, the one-time token, the
    long-term credential and the log lines included, goes to the address the input means;
    over https it leaves under the pinned certificate of the scanned code, for a desktop of
    the app's environment, and over plain http only when the user has allowed http, and, in
    the installed app, confirmed it. The attempt always ends, with the guard released; it
    either succeeded and the client talks to that address, or it was refused before anything
    was sent, or the address, the token and the pin are forgotten. *)
Theorem pairing_confined env nativeAvailable allow ip token pairing silent w :
  pins_https env → connectionAttempt w = false →
  let '(w', r) := handleConnect env nativeAvailable allow ip token pairing silent w in
  let u := address ip in
  (∃ new, sent w' = sent w ++ new
     ∧ Forall (λ tr, startsWith (rq_url (tr_request tr)) (strip_slash u +:+ "/") = true) new
     ∧ (new = []
        ∨ (startsWith u "http://" = true ∧ http_allowed env nativeAvailable allow silent (httpConfirmed w) w)
        ∨ ∃ p, pairing = Some p ∧ pp_environment p = expectedEnvironment (api w)
            ∧ startsWith (toLowerCase u) "https://" = true
            ∧ Forall (λ tr, tr_pin tr = Some (u, pp_certificateFingerprint p)) new))
  ∧ connectionAttempt w' = false ∧ isConnecting (controller w') = false ∧ pairingDesktopName (controller w') = None
  ∧ ((r = inr true ∧ serverUrl (api w') = Some (strip_slash u) ∧ isServerConnected (controller w') = true)
     ∨ (r = inr false ∧ (forgotten w' ∨ (sent w' = sent w ∧ api w' = api w ∧ pin w' = pin w)))).
Proof.
  intros Hpins Hw. pose proof (handleConnect_spec env nativeAvailable allow ip token pairing silent w Hw) as H.
  destruct (handleConnect env nativeAvailable allow ip token pairing silent w) as [w' r].
  destruct H as (H1 & H2 & H3 & w1 & wa & ra & Hatt & Hra & Ha & Hp & Hs & Hc & _). cbv zeta.
  destruct Hatt as [(w2 & -> & -> & (Ea & Es & _ & _ & _ & Ep))|(w2 & c & Hch & [[(new & Hnew & Hall) _ _ _] Hend])].
  - destruct Hra as [-> ->]. simpl in *. split; [exists []; rewrite app_nil_r; split_and!; [congruence|done|by left]|].
    split_and!; try done. right. split; [done|]. right. split_and!; congruence.
  - pose proof Hch as (Ea & Es & _ & _ & _ & _).
    assert (sent w' = sent w ++ new) as Hsent.
    { rewrite Hs. transitivity (sent wa); [destruct ra as [m|b]; [apply Hra|by destruct Hra as [_ ->]]|].
      rewrite Hnew. simpl. by rewrite Es. }
    split; [|split_and!; try done].
    + exists new. split; [done|]. split; [apply (Forall_impl _ _ _ Hall); by intros tr [? _]|]. right.
      apply (chosen_transport env nativeAvailable ip token pairing allow silent (httpConfirmed w) _ w2 c new Hpins Hch Hall).
    + destruct ra as [m|[|]].
      * destruct Hra as (-> & Hf & _). right. split; [done|]. left. unfold forgotten in *. by rewrite Ha, Hp, Hc.
      * destruct Hra as [-> ->], Hend as [(Ht & _) Hcon]. left. split; [done|]. rewrite Ha, Hc. done.
      * destruct Hra as [-> ->]. right. split; [done|]. left. unfold forgotten in *. by rewrite Ha, Hp, Hc.
Qed.

(** ** An attempt that succeeds *)

(** Every question is answered alike by a desktop of the test environment that approves. *)
Definition friendly : environment :=
  {| net := λ _, inr {| status := 200; json := Some (JObj [("environment", JStr "test"); ("status", JStr "approved");
       ("version", JStr "1.2")]); text := None; statusText := "" |};
     configures := λ _ u _, if startsWith (toLowerCase u) "https://" then None else Some "not https";
     security := λ _, inr (Some "TLSv1.3", true);
     confirms := λ _, false; dismissed := λ _, true; storage := λ _, None; random := λ _ _, "07" |}.

Definition fresh_world : world :=
  {| api := ApiClient.new None None test; pin := None; connectionAttempt := false; httpConfirmed := false;
     controller := initialConnectionControllerState; appState := screen_connect; alertVisible := false; alerts := [];
     lastServer := None; legacyIdentity := None; storedDeviceId := None; storedCredential := None; sent := []; clock := 0 |}.

Definition scanned : PairingPayload :=
  {| pp_environment := test; pp_serverId := "desk"; pp_name := "Desk"; pp_httpsUrl := "https://10.0.0.2:8443";
     pp_certificateFingerprint := "AB"; pp_token := "pair-1"; pp_httpUrl := None |}.

Definition friendly_attempt : world * (string + bool) :=
  handleConnect friendly true false "https://10.0.0.2:8443" "pair-1" (Some scanned) false fresh_world.

Lemma pairing_confined_witness :
  friendly_attempt.2 = inr true ∧ length (sent friendly_attempt.1) = 5%nat
  ∧ ∃ new, sent friendly_attempt.1 = [] ++ new
      ∧ Forall (λ tr, startsWith (rq_url (tr_request tr)) "https://10.0.0.2:8443/" = true) new.
Proof.
  split; [vm_compute; reflexivity|]. split; [vm_compute; reflexivity|].
  assert (pins_https friendly) as Hpins by (intros k u fp; simpl; by destruct (startsWith _ _)).
  pose proof (pairing_confined friendly true false "https://10.0.0.2:8443" "pair-1" (Some scanned) false fresh_world
    Hpins eq_refl) as H. revert H. unfold friendly_attempt. destruct (handleConnect _ _ _ _ _ _ _ _) as [w' r]. intros H.
  destruct H as [(new & H1 & H2 & _) _]. exists new. split; [exact H1|exact H2].
Defined.
