(* ===== verification/ConnectionTrust.v ===== *)
(** * Which desktops the phone trusts

    The stored trust through an attempt: what has to have happened for it to change, what is
    stored, and how a desktop that is already trusted is met again. *)

From stdpp Require Import pretty.
From S2P Require Import Prelude Js UploadTypes Security Native Api Connection ConnectionSafety.
Import ApiClient Connection.

(** ** Whom the phone trusts *)

Lemma is_https_not_http a : is_https a = true → startsWith a "http://" = false.
Proof. unfold is_https. do 5 (destruct a as [|? a]; [done|]; simpl; case_bool_decide; [|done]). by subst. Qed.

Section trust.
Context (env : environment) (nativeAvailable : bool) (e : IosClientEnvironment) (u : string).

(** The [k]-th answer of the network is a desktop of environment [e] that approves. *)
Definition approves (k : nat) : Prop :=
  ∃ resp body, net env k = inr resp ∧ json resp = Some body
    ∧ field body "environment" = JStr (environment_name e) ∧ field body "status" = JStr "approved".

(** From the [k]-th answer on, a desktop of environment [e] accepts the token [t]. *)
Definition accepts (t : string) (k : nat) : Prop :=
  ∃ c, serverUrl c = Some (strip_slash u) ∧ token c = Some t ∧ expectedEnvironment c = e
    ∧ desktop_accepts c (λ j, net env (k + j)).

(** The client during an attempt, the stored trust, and the time. *)
Definition talking (t : option string) (trust : option (option jsval)) (k : nat) (w : world) : Prop :=
  serverUrl (api w) = Some (strip_slash u) ∧ token (api w) = t ∧ expectedEnvironment (api w) = e
  ∧ lastServer w = trust ∧ (k <= clock w)%nat.

Lemma talking_mono t trust k k' w : (k' <= k)%nat → talking t trust k w → talking t trust k' w.
Proof. intros Hk (H1 & H2 & H3 & H4 & H5). split_and!; try done. lia. Qed.

Lemma call_talking {A} n (op : ApiClient.t → (nat → string + Response) → outcome A) t trust k :
  (∀ c net, serverUrl (client (op c net)) = serverUrl c ∧ token (client (op c net)) = token c
            ∧ expectedEnvironment (client (op c net)) = expectedEnvironment c) →
  ∀ w, talking t trust k w → talking t trust (k + n) (call env n op w).1.
Proof.
  intros Hop w (H1 & H2 & H3 & H4 & H5). destruct (Hop (api w) (answers env w)) as (E1 & E2 & E3).
  unfold call. split_and!; simpl; try congruence. lia.
Qed.

Lemma pingServer_client c notify net :
  serverUrl (client (pingServer c nativeAvailable notify net)) = serverUrl c
  ∧ token (client (pingServer c nativeAvailable notify net)) = token c
  ∧ expectedEnvironment (client (pingServer c nativeAvailable notify net)) = expectedEnvironment c.
Proof.
  unfold pingServer. destruct (usable (serverUrl c)); [|done]. destruct (transport_refuses _ _); [done|].
  destruct (net 0%nat) as [m|r]; [done|]. destruct (ok r); simpl; [|done]. destruct (readJson r) as [er|body]; [done|]. simpl.
  match goal with |- context [requireExpectedEnvironment ?c1 ?x] => destruct (requireExpectedEnvironment c1 x); [done|] end.
  unfold verify_token. simpl. destruct (headers _); [|done]. destruct (net 1%nat) as [|r']; [done|].
  destruct (ok r'); [|done]. simpl. destruct (readJson r'); [done|]. by destruct (requireExpectedEnvironment _ _).
Qed.

Lemma one_request_client {A} c net rq (k : Response → nat * (api_error + A)) :
  client (one_request c nativeAvailable net rq k) = c.
Proof. unfold one_request. destruct (transport_refuses _ _); [done|]. destruct (net 0%nat); [done|]. by destruct (k r). Qed.

(** A successful ping is a desktop that accepts. *)
Lemma ping_accepts t trust k w w' :
  talking (Some t) trust k w → ping env nativeAvailable w = (w', inr true) →
  talking (Some t) trust (k + 2) w' ∧ accepts t (clock w).
Proof.
  intros Ht Hp. split; [change w' with (w', inr true : string + bool).1; rewrite <-Hp; apply call_talking; [|done]; intros; apply pingServer_client|].
  unfold ping, call in Hp. injection Hp as _ Hres. destruct Ht as (H1 & H2 & H3 & _).
  exists (api w). split_and!; try done.
  assert (result (pingServer (api w) nativeAvailable false (answers env w)) = inr true) as Hr by (destruct (result _); naive_solver).
  destruct (usable (serverUrl (api w))) as [base|] eqn:Hu; [|unfold pingServer in Hr; by rewrite Hu in Hr].
  destruct (transport_refuses nativeAvailable base) eqn:Href; [unfold pingServer in Hr; by rewrite Hu, Href in Hr|].
  apply (pingServer_correct (api w) nativeAvailable false (answers env w) base Hu Href). exact Hr.
Qed.

Lemma ping_talking t trust k w : talking t trust k w → talking t trust (k + 2) (ping env nativeAvailable w).1.
Proof. apply call_talking. intros. apply pingServer_client. Qed.

(** A question about the pairing that is answered "approved". *)
Lemma question_approved w w' rq :
  expectedEnvironment (api w) = e →
  call env 1 (λ c net, one_request c nativeAvailable net (rq c) (λ r, (0%nat, readPairingStatus c r))) w = (w', inr approved) →
  approves (clock w).
Proof.
  intros He Hc. unfold call in Hc. injection Hc as _ Hres. unfold one_request in Hres. destruct (transport_refuses _ _); [done|].
  unfold answers in Hres. rewrite Nat.add_0_r in Hres. destruct (net env (clock w)) as [m|r] eqn:Hnet; [done|]. simpl in Hres.
  pose proof (readPairingStatus_sound (api w) r) as Hs. destruct (readPairingStatus (api w) r) as [er|s]; [done|].
  injection Hres as ->. destruct Hs as (body & Hj & Henv & Hst); [done|]. rewrite He in Henv. by exists r, body.
Qed.

Lemma question_talking {A} rq (q : ApiClient.t → Response → nat * (api_error + A)) t trust k w :
  talking t trust k w →
  talking t trust (k + 1) (call env 1 (λ c net, one_request c nativeAvailable net (rq c) (q c)) w).1.
Proof. apply call_talking. intros. by rewrite one_request_client. Qed.

Lemma talking_now t trust k w : talking t trust k w → talking t trust (clock w) w.
Proof. intros (? & ? & ? & ? & ?). by split_and!. Qed.

Lemma poll_approved identity t trust n : ∀ status k w w',
  talking t trust k w → poll_approval env nativeAvailable n u identity status w = (w', inr approved) →
  talking t trust k w' ∧ (status = approved ∨ ∃ j, (k <= j < clock w')%nat ∧ approves j).
Proof.
  induction n as [|n IH]; intros status k w w' Ht Hp; simpl in Hp; [by injection Hp as <- ->; split; [|left]|].
  case_bool_decide as Hpend; [|by injection Hp as <- ->; split; [|left]].
  unfold mbind, M_bind in Hp. destruct (pairingStatus env nativeAvailable u identity w) as [w1 [er|s]] eqn:Hq; [done|].
  pose proof (question_talking (λ c, post (u +:+ "/pair/status") None (JObj [("deviceId", JStr (deviceId identity)); ("credential", JStr (credential identity))]))
    (λ c r, (0%nat, readPairingStatus c r)) t trust (clock w) w (talking_now _ _ _ _ Ht)) as Ht1.
  change (call env 1 _ w) with (pairingStatus env nativeAvailable u identity w) in Ht1. rewrite Hq in Ht1. simpl in Ht1.
  destruct (IH s (clock w + 1)%nat w1 w' Ht1 Hp) as [Ht2 Hcases]. pose proof Ht as (_ & _ & He & _ & Hk).
  split; [by apply (talking_mono _ _ (clock w + 1)); [lia|]|]. right. pose proof Ht2 as (_ & _ & _ & _ & Hk2).
  destruct Hcases as [->|(j & ? & ?)]; [|exists j; split; [lia|done]].
  exists (clock w). split; [lia|].
  apply (question_approved w w1 (λ c, post (u +:+ "/pair/status") None (JObj [("deviceId", JStr (deviceId identity)); ("credential", JStr (credential identity))])) He Hq).
Qed.

Lemma bind_inv {A B} (m : M A) (f : A → M B) w w' r :
  (m ≫= f) w = (w', r) →
  (∃ message, m w = (w', inl message) ∧ r = inl message) ∨ ∃ w1 a, m w = (w1, inr a) ∧ f a w1 = (w', r).
Proof.
  unfold mbind, M_bind. destruct (m w) as [w1 [message|a]]; intros H; [|by right; exists w1, a].
  injection H as <- <-. left. by exists message.
Qed.

(** The stored trust and the app's environment stay; time passes. *)
Definition steady (trust : option (option jsval)) (k : nat) (w : world) : Prop :=
  expectedEnvironment (api w) = e ∧ lastServer w = trust ∧ (k <= clock w)%nat.

Lemma talking_steady t trust k w : talking t trust k w → steady trust k w.
Proof. intros (? & ? & ? & ? & ?). by split_and!. Qed.

Section steady.
Context (trust : option (option jsval)) (k : nat).
Notation steady := (steady trust k).

Lemma stored_steady {A} (f : world → A) g :
  (∀ w, api (g w) = api w ∧ lastServer (g w) = lastServer w ∧ clock (g w) = clock w) → keeps steady (stored env f g).
Proof.
  intros Hg w (H1 & H2 & H3). unfold stored. destruct (Hg w) as (G1 & G2 & G3).
  destruct (storage env (clock w)); split_and!; simpl; try congruence; lia.
Qed.

Lemma call_steady {A} n (op : ApiClient.t → (nat → string + Response) → outcome A) :
  (∀ c net, expectedEnvironment (client (op c net)) = expectedEnvironment c) → keeps steady (call env n op).
Proof. intros Hop w (H1 & H2 & H3). unfold call. split_and!; simpl; [by rewrite Hop|done|lia]. Qed.

Lemma alert_steady title message : keeps steady (showAlertOnce env title message).
Proof. intros w (H1 & H2 & H3). unfold showAlertOnce. destruct (gate_open env w); split_and!; simpl; first [done|lia]. Qed.

Lemma log_steady level event message data : keeps steady (logClientEvent nativeAvailable level event message data).
Proof.
  intros w Hw. unfold logClientEvent. destruct (usable _); [|done]. destruct (transport_refuses _ _); [done|]. exact Hw.
Qed.

Lemma steady_modify f : (∀ w, api (f w) = api w ∧ lastServer (f w) = lastServer w ∧ clock (f w) = clock w) → keeps steady (modify f).
Proof. intros Hf w (H1 & H2 & H3). destruct (Hf w) as (G1 & G2 & G3). split_and!; simpl; [congruence|congruence|lia]. Qed.

Lemma dispatch_steady a : keeps steady (dispatch a).
Proof. by apply steady_modify. Qed.

Lemma forget_steady : keeps steady forget_connection.
Proof. intros w (H1 & H2 & H3). by split_and!. Qed.

Lemma security_steady : keeps steady (securityState env nativeAvailable).
Proof. intros w (H1 & H2 & H3). unfold securityState. destruct nativeAvailable; split_and!; simpl; first [done|lia]. Qed.

Lemma ping_steady : keeps steady (ping env nativeAvailable).
Proof. apply call_steady. intros. apply pingServer_client. Qed.

Lemma poll_steady n identity : ∀ status, keeps steady (poll_approval env nativeAvailable n u identity status).
Proof.
  induction n as [|n IH]; intros status; simpl; [apply keeps_ret|]. case_bool_decide; [|apply keeps_ret].
  apply keeps_bind; [|done]. apply call_steady. intros. unfold ApiClient.pairingStatus. by rewrite one_request_client.
Qed.

Lemma activation_steady n : keeps steady (try_activation env nativeAvailable n).
Proof.
  induction n as [|n IH]; simpl; [apply keeps_ret|]. apply keeps_bind; [apply ping_steady|]. intros []; [apply keeps_ret|done].
Qed.

Lemma setConfig_steady a t : keeps steady (setConfig a t).
Proof. intros w (H1 & H2 & H3). by split_and!. Qed.

Lemma random_steady n : keeps steady (randomHex env n).
Proof. intros w (H1 & H2 & H3). split_and!; simpl; first [done|lia]. Qed.

Lemma identity_steady : keeps steady (getDeviceIdentity env).
Proof.
  unfold getDeviceIdentity, migrate_identity.
  repeat first [ apply keeps_ret | apply keeps_bind; intros | apply keeps_catch; intros | apply random_steady
    | apply stored_steady; intros; by split_and!
    | match goal with |- keeps _ (match ?x with _ => _ end) => destruct x end ].
Qed.

Lemma forgetting_steady (b : bool) title message :
  keeps steady (forget_connection;; when b (showAlertOnce env title message);; mret false).
Proof.
  apply keeps_bind; [apply forget_steady|]. intros _. apply keeps_bind; [apply keeps_when, alert_steady|]. intros _. apply keeps_ret.
Qed.
End steady.

(** ** From the identity to the stored trust *)

Lemma activation_accepts t trust n : ∀ k w w',
  talking (Some t) trust k w → try_activation env nativeAvailable n w = (w', inr true) →
  talking (Some t) trust k w' ∧ ∃ j, (k <= j < clock w')%nat ∧ accepts t j.
Proof.
  induction n as [|n IH]; intros k w w' Ht Hrun; simpl in Hrun; [done|].
  apply bind_inv in Hrun as [(? & _ & ?)|(w1 & [] & Hp & Hrun)]; [done| |].
  - injection Hrun as <-. apply talking_now in Ht as Ht0.
    destruct (ping_accepts t trust (clock w) w w1 Ht0 Hp) as [Ht1 Hacc]. destruct Ht as (_ & _ & _ & _ & Hk), Ht1 as (? & ? & ? & ? & Hc).
    split; [split_and!; try done; lia|]. exists (clock w). split; [lia|done].
  - pose proof (ping_talking (Some t) trust k w Ht) as Ht1. rewrite Hp in Ht1. simpl in Ht1.
    destruct (IH _ w1 w' Ht1 Hrun) as [Ht2 (j & ? & ?)]. split; [by apply (talking_mono _ _ (k + 2)); [lia|]|].
    exists j. split; [lia|done].
Qed.

Lemma await_approved identity onPending t trust k w w' :
  (∀ k, keeps (talking t trust k) onPending) → talking t trust k w →
  awaitPairingApproval env nativeAvailable u identity onPending w = (w', inr approved) →
  talking t trust k w' ∧ ∃ j, (k <= j < clock w')%nat ∧ approves j.
Proof.
  intros Hon Ht Hrun. unfold awaitPairingApproval in Hrun.
  apply bind_inv in Hrun as [(? & _ & ?)|(w1 & status & Hq & Hrun)]; [done|].
  set (rq := λ c, post (u +:+ "/pair/request") (headers c)
       (JObj [("deviceId", JStr (deviceId identity)); ("deviceName", JStr "iPhone"); ("credential", JStr (credential identity))])).
  pose proof (question_talking rq (λ c r, (0%nat, readPairingStatus c r)) t trust (clock w) w (talking_now _ _ _ _ Ht)) as Ht1.
  change (call env 1 _ w) with (requestPairing env nativeAvailable u identity w) in Ht1. rewrite Hq in Ht1. simpl in Ht1.
  pose proof Ht as (_ & _ & He & _ & Hk). pose proof Ht1 as (_ & _ & _ & _ & Hk1).
  assert (status = approved → approves (clock w)) as Hfirst by (intros ->; exact (question_approved w w1 rq He Hq)).
  case_bool_decide as Hpend.
  - apply bind_inv in Hrun as [(? & _ & ?)|(w2 & [] & Hp & Hrun)]; [done|].
    pose proof (Hon (clock w + 1)%nat w1 Ht1) as Ht2. rewrite Hp in Ht2. simpl in Ht2.
    destruct (poll_approved identity t trust 24 status _ w2 w' Ht2 Hrun) as [Ht3 Hcases].
    split; [by apply (talking_mono _ _ (clock w + 1)); [lia|]|]. pose proof Ht3 as (_ & _ & _ & _ & Hk3).
    destruct Hcases as [->|(j & ? & ?)]; [done|]. exists j. split; [lia|done].
  - injection Hrun as <- ->. split; [by apply (talking_mono _ _ (clock w + 1)); [lia|]|].
    exists (clock w). split; [lia|by apply Hfirst].
Qed.

(** A desktop of the app's environment approved at [k1] and accepted a credential at [k2]. *)
Definition approved_between (k k' : nat) : Prop :=
  ∃ t k1 k2, (k <= k1 < k2)%nat ∧ (k2 < k')%nat ∧ approves k1 ∧ accepts t k2.

Lemma steady_run {A} trust k (m : M A) w w' r : keeps (steady trust k) m → steady trust k w → m w = (w', r) → lastServer w' = trust.
Proof. intros Hm Hw Hrun. specialize (Hm w Hw). rewrite Hrun in Hm. by destruct Hm as (_ & ? & _). Qed.

Lemma identity_talking t trust k : keeps (talking t trust k) (getDeviceIdentity env).
Proof.
  assert (∀ A (f : world → A) g, (∀ w, api (g w) = api w ∧ lastServer (g w) = lastServer w ∧ clock (g w) = clock w) →
    keeps (talking t trust k) (stored env f g)) as Hst.
  { intros A f g Hg w (H1 & H2 & H3 & H4 & H5). unfold stored. destruct (Hg w) as (G1 & G2 & G3).
    destruct (storage env (clock w)); split_and!; simpl; rewrite ?G1, ?G2, ?G3; try done; lia. }
  assert (∀ n, keeps (talking t trust k) (randomHex env n)) as Hr
    by (intros n w (H1 & H2 & H3 & H4 & H5); split_and!; simpl; first [done|lia]).
  unfold getDeviceIdentity, migrate_identity.
  repeat first [ apply keeps_ret | apply keeps_bind; intros | apply keeps_catch; intros | apply Hr
    | apply Hst; intros; by split_and!
    | match goal with |- keeps _ (match ?x with _ => _ end) => destruct x end ].
Qed.

Lemma dispatch_talking a t trust k : keeps (talking t trust k) (dispatch a).
Proof. by intros w Hw. Qed.

Definition never_true (m : M bool) : Prop := ∀ w, (m w).2 ≠ inr true.

Lemma never_true_bind {A} (m : M A) (f : A → M bool) : (∀ a, never_true (f a)) → never_true (m ≫= f).
Proof. intros Hf w. unfold mbind, M_bind. destruct (m w) as [w1 [message|a]]; [done|]. apply Hf. Qed.

Lemma never_true_false : never_true (mret false).
Proof. by intros w. Qed.

Lemma refusal_run trust k (m : M bool) w w' r :
  keeps (steady trust k) m → never_true m → steady trust k w → m w = (w', r) → lastServer w' = trust ∧ r ≠ inr true.
Proof.
  intros Hk Hn Hw Hrun. split; [by apply (steady_run trust k m w w' r)|]. specialize (Hn w). by rewrite Hrun in Hn.
Qed.

Lemma logged_refusal trust k level event message data b title text :
  let m := (logClientEvent nativeAvailable level event message data;; forget_connection;; when b (showAlertOnce env title text);; mret false) in
  keeps (steady trust k) m ∧ never_true m.
Proof.
  split.
  - apply keeps_bind; [apply log_steady|]. intros _. apply forgetting_steady.
  - do 3 (apply never_true_bind; intros []). apply never_true_false.
Qed.

Lemma await_steady trust k identity onPending :
  keeps (steady trust k) onPending → keeps (steady trust k) (awaitPairingApproval env nativeAvailable u identity onPending).
Proof.
  intros Hon. apply keeps_bind; [apply call_steady; intros; unfold ApiClient.requestPairing; by rewrite one_request_client|].
  intros s. case_bool_decide; [|apply keeps_ret]. apply keeps_bind; [done|]. intros _. apply poll_steady.
Qed.

Lemma store_trust_run p trust k w w' r :
  steady trust k w →
  (stored env (λ _, ()) (λ w, w <| lastServer := Some (Some (saved_json (saved_of p u))) |>);;
   state ← securityState env nativeAvailable; dispatch (ConnectedSecure state.1 state.2);; mret true) w = (w', r) →
  (lastServer w' = trust ∧ r ≠ inr true)
  ∨ (lastServer w' = Some (Some (saved_json (saved_of p u))) ∧ (clock w < clock w')%nat).
Proof.
  intros (He & Htr & Hk) Hrun. apply bind_inv in Hrun as [(m & Hst & ->)|(w1 & [] & Hst & Hrun)]; unfold stored in Hst.
  - left. destruct (storage env (clock w)); [|done]. by injection Hst as <-.
  - destruct (storage env (clock w)); [done|]. injection Hst as <-. right.
    match type of Hrun with ?m ?w1 = _ =>
      assert (keeps (steady (Some (Some (saved_json (saved_of p u)))) (S (clock w))) m) as Hm;
      [|assert (steady (Some (Some (saved_json (saved_of p u)))) (S (clock w)) w1) as Hw1 by (split_and!; simpl; [done|done|lia])] end.
    { apply keeps_bind; [apply security_steady|]. intros state. apply keeps_bind; [apply dispatch_steady|]. intros _. apply keeps_ret. }
    specialize (Hm _ Hw1). rewrite Hrun in Hm. destruct Hm as (_ & ? & ?). split; [done|]. simpl in *. lia.
Qed.

Lemma pair_trust pairing silent t trust k w w' r :
  talking t trust k w → pair env nativeAvailable u pairing silent w = (w', r) →
  (lastServer w' = trust ∧ (r = inr true → pairing = None ∨ is_https u = false))
  ∨ ∃ p, pairing = Some p ∧ is_https u = true
      ∧ lastServer w' = Some (Some (saved_json (saved_of p u))) ∧ approved_between k (clock w').
Proof.
  intros Ht Hrun. unfold pair in Hrun. set (goal := _ ∨ _).
  assert (lastServer w' = trust → r ≠ inr true → goal) as Hstays by (intros; left; by split).
  apply bind_inv in Hrun as [(m & Hi & ->)|(w1 & identity & Hi & Hrun)].
  { apply Hstays; [|done]. by apply (steady_run trust k (getDeviceIdentity env) w w' (inl m)); [apply identity_steady|apply (talking_steady t)|]. }
  pose proof (identity_talking t trust k w Ht) as Ht1. rewrite Hi in Ht1. simpl in Ht1.
  pose proof (await_steady trust k identity (dispatch (PairingDesktop (Some (js_or (default "" (pp_name <$> pairing)) "the desktop"))))
    (dispatch_steady _ _ _) w1 (talking_steady t trust k w1 Ht1)) as Hst.
  apply bind_inv in Hrun as [(m & Hi2 & ->)|(w2 & status & Hi2 & Hrun)]; rewrite Hi2 in Hst.
  { apply Hstays; [|done]. by destruct Hst as (_ & ? & _). }
  case_bool_decide as Hs; [edestruct logged_refusal as [Hm1 Hm2]; destruct (refusal_run trust k _ _ _ _ Hm1 Hm2 Hst Hrun); by apply Hstays|].
  subst status.
  destruct (await_approved identity _ t trust k w1 w2 (dispatch_talking _ t trust) Ht1 Hi2) as [Ht2 (k1 & Hk1 & Happ)].
  clear Hst Hi2 Hi Ht1. apply bind_inv in Hrun as [(m & Hi & ->)|(w3 & activated & Hi & Hrun)].
  { apply Hstays; [|done]. refine (steady_run trust k _ w2 w' (inl m) _ (talking_steady t trust k w2 Ht2) Hi).
    apply keeps_bind; [apply setConfig_steady|]. intros _. apply activation_steady. }
  assert (keeps (steady trust k) (activatePairingCredential env nativeAvailable u (credential identity))) as Hact
    by (apply keeps_bind; [apply setConfig_steady|]; intros _; apply activation_steady).
  specialize (Hact w2 (talking_steady t trust k w2 Ht2)). rewrite Hi in Hact. simpl in Hact.
  destruct activated; cbn [negb] in Hrun; [|edestruct logged_refusal as [Hm1 Hm2]; destruct (refusal_run trust k _ _ _ _ Hm1 Hm2 Hact Hrun); by apply Hstays].
  unfold activatePairingCredential in Hi. apply bind_inv in Hi as [(? & _ & ?)|(w2' & [] & Hset & Hi)]; [done|].
  assert (talking (Some (credential identity)) trust (clock w2) w2') as Ht3.
  { injection Hset as <-. destruct Ht2 as (? & ? & ? & ? & ?). by split_and!. }
  destruct (activation_accepts (credential identity) trust 3 _ w2' w3 Ht3 Hi) as [Ht4 (k2 & Hk2 & Hacc)].
  assert (∀ k', (clock w3 <= k')%nat → approved_between k k') as Hab.
  { intros k' Hk'. exists (credential identity), k1, k2. split_and!; try done; lia. }
  assert (∀ m : M bool, m = (dispatch ConnectedHttp;; mret true) → m w3 = (w', r) → lastServer w' = trust) as Hhttp.
  { intros m -> [= <- <-]. by destruct Hact as (_ & ? & _). }
  destruct pairing as [p|]; [destruct (is_https u) eqn:Hh|]; [|left; split; [by eapply Hhttp|by right]|left; split; [by eapply Hhttp|by left]].
  apply (store_trust_run p trust k) in Hrun as [[? ?]|[? ?]]; [by apply Hstays| |done].
  right. exists p. split_and!; try done. apply Hab. lia.
Qed.

(** ** The whole attempt *)

Lemma confirm_steady trust k title message : keeps (steady trust k) (confirmOnce env title message).
Proof. intros w (H1 & H2 & H3). unfold confirmOnce. destruct (gate_open env w); split_and!; simpl; first [done|lia]. Qed.

Lemma configure_steady trust k a fp : keeps (steady trust k) (configureSecureConnection env nativeAvailable a fp).
Proof.
  intros w (H1 & H2 & H3). unfold configureSecureConnection. destruct (negb nativeAvailable); [done|].
  destruct (configures env (clock w) a fp); split_and!; simpl; first [done|lia].
Qed.

Lemma transport_steady trust k ip token pairing silent allow confirmed :
  keeps (steady trust k) (configurePairingTransport env nativeAvailable ip token pairing silent allow confirmed).
Proof.
  unfold configurePairingTransport, confirmHttpFallback.
  repeat first [ apply keeps_ret | apply keeps_get | apply keeps_bind; intros | apply keeps_catch; intros | apply keeps_when
    | apply alert_steady | apply confirm_steady | apply configure_steady
    | match goal with
      | |- keeps _ (match ?x with _ => _ end) => destruct x
      | |- keeps _ (let _ := _ in _) => cbv zeta
      end ].
Qed.
End trust.

Section attempt_trust.
Context (env : environment) (nativeAvailable : bool).
Context (allow : bool) (ip token : string) (pairing : option PairingPayload) (silent : bool).
Notation u := (address ip).

(** The stored trust after an attempt that began with [trust] at time [k]. *)
Definition trusts (e : IosClientEnvironment) (trust : option (option jsval)) (k : nat) (w' : world) (r : string + bool) : Prop :=
  (lastServer w' = trust ∧ (r = inr true → is_https u = false))
  ∨ ∃ p, pairing = Some p ∧ is_https u = true ∧ pp_environment p = e
      ∧ lastServer w' = Some (Some (saved_json (saved_of p u))) ∧ approved_between env e u k (clock w').

Lemma trusts_later e trust k w r w' r' :
  trusts e trust k w r → lastServer w' = lastServer w → (clock w <= clock w')%nat → (r' = inr true → r = inr true) →
  trusts e trust k w' r'.
Proof.
  intros [[H1 H2]|(p & ? & ? & ? & H1 & t & k1 & k2 & ? & ? & ? & ?)] Hl Hc Hr.
  - left. split; [congruence|auto].
  - right. exists p. split_and!; try done; [congruence|]. exists t, k1, k2. split_and!; try done; lia.
Qed.

(** Over https, with the code that was scanned. *)
Lemma decided_trust e t trust k w w' r :
  (is_https u = true → ∃ p, pairing = Some p ∧ pp_environment p = e) → talking e u (Some t) trust k w →
  (if (is_https u && bool_decide (is_Some pairing)) || startsWith token "pair-"
   then pair env nativeAvailable u pairing silent else dispatch ConnectedHttp;; mret true) w = (w', r) →
  trusts e trust k w' r.
Proof.
  intros Hpaired Ht Hrun. destruct (_ || _) eqn:Hb.
  - destruct (pair_trust env nativeAvailable e u pairing silent (Some t) trust k w w' r Ht Hrun) as [[Hl Hr]|(p & -> & Hs & Hl & Ha)].
    + left. split; [done|]. intros ->. destruct (is_https u) eqn:Hs; [|done]. destruct (Hpaired eq_refl) as (p & -> & _).
      by destruct (Hr eq_refl).
    + right. exists p. split_and!; try done. by destruct (Hpaired Hs) as (? & [= <-] & ?).
  - injection Hrun as <- <-. left. split; [by destruct Ht as (_ & _ & _ & ? & _)|]. intros _.
    apply orb_false_iff in Hb as [Hb _]. destruct (is_https u); [|done]. destruct (Hpaired eq_refl) as (p & -> & _).
    by rewrite bool_decide_eq_true_2 in Hb.
Qed.

Lemma connect_trust e trust k w w' r :
  steady e trust k w → connect env nativeAvailable allow ip token pairing silent w = (w', r) → trusts e trust k w' r.
Proof.
  intros Hw Hrun. unfold connect in Hrun.
  assert (lastServer w' = trust → r ≠ inr true → trusts e trust k w' r) as Hstays by (intros; left; by split).
  apply bind_inv in Hrun as [(? & ? & _)|(w1 & confirmed & Hg & Hrun)]; [done|]. injection Hg as <- <-.
  pose proof (transport_steady env nativeAvailable e trust k ip token pairing silent allow (httpConfirmed w) w Hw) as Hst.
  destruct (transport_spec env nativeAvailable ip token pairing silent allow (httpConfirmed w) w) as (w1 & chosen & Hc & Hchosen).
  rewrite Hc in Hst. simpl in Hst. unfold mbind at 1, M_bind at 1 in Hrun. rewrite Hc in Hrun.
  destruct chosen as [[u' confirmed]|]; [|injection Hrun as <- <-; apply Hstays; [apply Hst|done]].
  destruct Hchosen as (Ha & _ & _ & _ & _ & -> & Hhow).
  assert (is_https u = true → ∃ p, pairing = Some p ∧ pp_environment p = e) as Hpaired.
  { intros Hs. destruct Hhow as [(Hh & _)|(p & _ & -> & Henv & _)]; [by rewrite (is_https_not_http _ Hs) in Hh|].
    exists p. split; [done|]. rewrite Henv. by destruct Hw. }
  clear Hhow Hc Ha Hw. apply bind_inv in Hrun as [(? & ? & _)|(w2 & [] & Hm & Hrun)]; [done|]. injection Hm as <-.
  apply bind_inv in Hrun as [(? & ? & _)|(w2 & [] & Hm & Hrun)]; [done|].
  assert (talking e u (Some token) trust k w2) as Ht by (injection Hm as <-; destruct Hst as (? & ? & ?); by split_and!).
  clear Hm Hst w1. pose proof (ping_steady env nativeAvailable e trust k w2 (talking_steady _ _ _ _ _ _ Ht)) as Hst.
  pose proof (ping_talking env nativeAvailable e u (Some token) trust k w2 Ht) as Ht1.
  apply bind_inv in Hrun as [(m & Hp & ->)|(w3 & okay & Hp & Hrun)]; rewrite Hp in Hst, Ht1; simpl in Hst, Ht1.
  { apply Hstays; [apply Hst|done]. }
  apply (talking_mono e u _ _ _ k) in Ht1; [|lia]. destruct okay; cbn [negb] in Hrun.
  - apply bind_inv in Hrun as [(m & Hpair & ->)|(w4 & connected & Hpair & Hrun)];
      apply (decided_trust e token trust k w3 _ _ Hpaired Ht1) in Hpair; [exact Hpair|].
    destruct connected; injection Hrun as <- <-; [|exact Hpair]. by apply (trusts_later _ _ _ _ _ _ _ Hpair).
  - apply (refusal_run e trust k) in Hrun as [? ?]; [by apply Hstays| | |exact Hst].
    + apply keeps_bind; [apply log_steady|]. intros _. apply keeps_bind; [apply forget_steady|]. intros _.
      apply keeps_bind; [apply keeps_get|]. intros reason. apply keeps_bind; [apply keeps_when, alert_steady|]. intros _. apply keeps_ret.
    + do 2 (apply never_true_bind; intros []). apply never_true_bind. intros reason. apply never_true_bind. intros []. apply never_true_false.
Qed.
End attempt_trust.

(** What an attempt does to the stored trust, in short. *)
Lemma handleConnect_trusts env nativeAvailable allow ip token pairing silent w :
  let '(w', r) := handleConnect env nativeAvailable allow ip token pairing silent w in
  trusts env ip pairing (expectedEnvironment (api w)) (lastServer w) (clock w) w' r.
Proof.
  destruct (handleConnect _ _ _ _ _ _ _ w) as [w' r] eqn:Hrun. unfold handleConnect in Hrun.
  unfold mbind at 1, M_bind at 1, get in Hrun. destruct (connectionAttempt w).
  { injection Hrun as <- <-. by left. }
  set (w0 := w <| connectionAttempt := true |> <| controller := connectionControllerReducer (controller w) (SetConnecting true) |>).
  change (try_finally (try_catch (connect env nativeAvailable allow ip token pairing silent)
       (λ message, forget_connection;; when (negb silent) (showAlertOnce env "Connection Failed" message);; mret false))
    (setAttempt false;; dispatch (SetConnecting false);; dispatch (PairingDesktop None)) w0 = (w', r)) in Hrun.
  set (e := expectedEnvironment (api w)). assert (steady e (lastServer w) (clock w) w0) as Hw0 by done. clearbody w0.
  unfold try_finally, try_catch in Hrun. destruct (connect env nativeAvailable allow ip token pairing silent w0) as [wa ra] eqn:Ha.
  apply (connect_trust env nativeAvailable allow ip token pairing silent e _ _ _ _ _ Hw0) in Ha. destruct ra as [message|b].
  - pose proof (forgetting_steady env (expectedEnvironment (api wa)) (lastServer wa) (clock wa) (negb silent)
      "Connection Failed" message wa) as Hf.
    destruct (forgotten_alert env silent "Connection Failed" message wa) as (wb & Hb & _).
    rewrite Hb in Hf, Hrun. cbn in Hrun. injection Hrun as <- <-. destruct Hf as (_ & Hl & Hc); [by split_and!|].
    by eapply (trusts_later _ _ _ _ _ _ _ _ _ _ Ha).
  - cbn in Hrun. injection Hrun as <- <-. by eapply (trusts_later _ _ _ _ _ _ _ _ _ _ Ha).
Qed.


(** ** What is stored can be read back *)

(** Reading what [JSON.stringify] wrote: the checks of [parseSavedConnection] decide. *)
Lemma parse_saved s :
  parseSavedConnection (Some (saved_json s)) =
    if truthy (sc_serverId s) && startsWith (sc_httpsUrl s) "https://"
       && (string_length (normalizeFingerprint (sc_certificateFingerprint s)) =? 64)%nat
       && match sc_httpUrl s with Some u => startsWith u "http://" | None => true end
    then Some s else None.
Proof.
  destruct s as [[|] sid url [http|] fp [name|]]; unfold parseSavedConnection, saved_json;
    cbn -[startsWith normalizeFingerprint truthy]; reflexivity.
Qed.

(** What an approved attempt stores is what later connections read: the record of a
    scanned code survives the trip through the storage, pin, addresses and all. *)
Lemma stored_trust_reads_back p url :
  payload_ok p → is_https url = true →
  parseSavedConnection (Some (saved_json (saved_of p url))) = Some (saved_of p url).
Proof.
  intros (Hfp & _ & Hid & _ & _ & Hhttp) Hurl. rewrite parse_saved. destruct p as [e sid name purl fp token http]. simpl in *.
  apply andb_prop in Hfp as [Hlen Hhex].
  assert (normalizeFingerprint fp = fp) as Hnorm by (unfold normalizeFingerprint; by rewrite toLowerCase_hex, string_filter_id).
  rewrite !Hnorm, (proj2 (truthy_true sid)), Hlen by done. unfold is_https in Hurl. rewrite Hurl.
  destruct http as [http|]; [|done]. by rewrite (Hhttp http eq_refl).
Qed.

Lemma stored_trust_reads_back_witness :
  payload_ok sample_payload
  ∧ parseSavedConnection (Some (saved_json (saved_of sample_payload "https://10.0.0.9:8443")))
    = Some (saved_of sample_payload "https://10.0.0.9:8443").
Proof.
  assert (payload_ok sample_payload) as Hok.
  { unfold payload_ok. split_and!; try done. intros u Hu. simpl in Hu. by simplify_eq. }
  split; [exact Hok|]. by apply (stored_trust_reads_back sample_payload "https://10.0.0.9:8443").
Defined.

(** C39: the trust of a desktop that was entered by hand is never read back. Entering an
    address, a fingerprint and a token asks for the same approval, and stores what was
    approved, but without the identity of the desktop, and without it the stored record is
    refused when it is read. *)
Theorem manual_trust_is_unreadable env nativeAvailable allow ip fingerprint manualToken silent w :
  let e := expectedEnvironment (api w) in
  match connectManually nativeAvailable ip fingerprint manualToken e with
  | None => nativeAvailable = false
  | Some (url, token, pairing) =>
      let '(w', r) := handleConnect env nativeAvailable allow url token pairing silent w in
      lastServer w' = lastServer w ∨ ∃ json, lastServer w' = Some json ∧ parseSavedConnection json = None
  end.
Proof.
  cbv zeta. destruct (connectManually _ _ _ _ _) as [[[url token] pairing]|] eqn:Hm.
  - pose proof (handleConnect_trusts env nativeAvailable allow url token pairing silent w) as H.
    destruct (handleConnect env nativeAvailable allow url token pairing silent w) as [w' r].
    destruct H as [[? _]|(p & -> & _ & _ & Hl & _)]; [by left|]. right. eexists. split; [exact Hl|].
    rewrite parse_saved. unfold connectManually in Hm. destruct (_ && _); [done|].
    destruct (_ && _); [|done]. by injection Hm as _ _ <-.
  - unfold connectManually in Hm. destruct (negb nativeAvailable && _) eqn:Hn; [|done].
    apply andb_prop in Hn as [Hn _]. by destruct nativeAvailable.
Qed.

(** The attempt succeeds, stores its trust, and the trust is refused when it is read. *)
Definition manual_attempt : world * (string + bool) :=
  match connectManually true "10.0.0.2" (pp_certificateFingerprint sample_payload) "pair-1" test with
  | Some (url, token, pairing) => handleConnect friendly true false url token pairing false fresh_world
  | None => (fresh_world, inr false)
  end.

Lemma manual_trust_is_unreadable_witness :
  manual_attempt.2 = inr true ∧ ∃ json, lastServer manual_attempt.1 = Some json ∧ parseSavedConnection json = None.
Proof.
  split; [vm_compute; reflexivity|].
  assert (lastServer manual_attempt.1 ≠ None) as Hstored by (vm_compute; discriminate).
  pose proof (manual_trust_is_unreadable friendly true false "10.0.0.2" (pp_certificateFingerprint sample_payload) "pair-1" false fresh_world) as H.
  revert H Hstored. unfold manual_attempt.
  change (expectedEnvironment (api fresh_world)) with test. cbv zeta.
  destruct (connectManually true "10.0.0.2" (pp_certificateFingerprint sample_payload) "pair-1" test) as [[[url token] pairing]|]; [|done].
  destruct (handleConnect _ _ _ _ _ _ _ _) as [w' r]. intros [H|H] Hstored; [done|exact H].
Defined.

(** ** Meeting a trusted desktop again *)

Section trusted.
Context (env : environment) (nativeAvailable : bool).

(** What an attempt at the saved address [u] did: [new] is its traffic. *)
Definition met (e : IosClientEnvironment) (u fingerprint credential : string) (w w' : world) (okay : bool) : Prop :=
  (∃ new, sent w' = sent w ++ new ∧ Forall (ok_traffic (strip_slash u) (Some (u, fingerprint))) new)
  ∧ lastServer w' = lastServer w ∧ expectedEnvironment (api w') = e ∧ (clock w <= clock w')%nat
  ∧ if okay then serverUrl (api w') = Some (strip_slash u) ∧ pin w' = Some (u, fingerprint)
              ∧ isServerConnected (controller w') = true ∧ certificateVerified (connectionSecurity (controller w')) = true
              ∧ ∃ k, (clock w <= k < clock w')%nat ∧ accepts env e u credential k
    else forgotten w'.

(** The body of the [try], after the check of the environment. *)
Definition meet (saved : SavedConnection) (credential : string) : M bool :=
  configureSecureConnection env nativeAvailable (sc_httpsUrl saved) (sc_certificateFingerprint saved);;
  setConfig (sc_httpsUrl saved) credential;;
  ok ← ping env nativeAvailable;
  (if negb ok then
     reason ← get (λ w, connectionError (api w));
     throw (js_or reason "The trusted desktop did not accept this device credential.")
   else mret ());;
  state ← securityState env nativeAvailable;
  (if negb state.2 then throw "The desktop certificate was not verified." else mret ());;
  dispatch (SetSecurity {| mode := mode_https; tlsVersion := state.1; certificateVerified := true |});;
  dispatch (ServerConnected true);;
  setAppState screen_home;;
  mret true.

Lemma meet_spec saved credential w w' r :
  let u := sc_httpsUrl saved in let pn := Some (u, sc_certificateFingerprint saved) in
  let e := expectedEnvironment (api w) in
  meet saved credential w = (w', r) →
  since w (strip_slash u) pn w' ∧ lastServer w' = lastServer w
  ∧ ∀ b, r = inr b → b = true ∧ met e u (sc_certificateFingerprint saved) credential w w' true.
Proof.
  intros u pn e Hrun. unfold meet in Hrun.
  assert (since w (strip_slash u) pn w) as Hsince by (split; [exists []; by rewrite app_nil_r|done..]).
  apply bind_inv in Hrun as [(m & Hc & ->)|(w1 & [] & Hc & Hrun)]; unfold configureSecureConnection in Hc.
  { destruct (negb nativeAvailable); [by injection Hc as <- _|]. destruct (configures _ _ _ _); [|done].
    injection Hc as <- _. split; [|done]. apply (since_same _ _ _ w); [split_and!; simpl; first [done|lia]|done]. }
  destruct (negb nativeAvailable); [done|]. destruct (configures _ _ _ _); [done|]. injection Hc as <-.
  apply bind_inv in Hrun as [(m & Hc & _)|(w2 & [] & Hc & Hrun)]; [done|].
  assert (on_target w (strip_slash u) pn w2) as Ht2.
  { injection Hc as <-. split; [done|]. split; [done|]. destruct Hsince as [? ? ? ?]. split; simpl; try done. lia. }
  assert (talking e u (Some credential) (lastServer w) (clock w) w2) as Htalk by (injection Hc as <-; split_and!; simpl; first [done|lia]).
  clear Hc. apply bind_inv in Hrun as [(m & Hp & ->)|(w3 & okay & Hp & Hrun)].
  all: pose proof (ping_keeps env nativeAvailable w (strip_slash u) pn w2 Ht2) as Ht3; rewrite Hp in Ht3; simpl in Ht3.
  all: pose proof (ping_talking env nativeAvailable e u _ _ _ w2 Htalk) as Htalk3; rewrite Hp in Htalk3; simpl in Htalk3.
  { split; [apply Ht3|]. split; [apply Htalk3|done]. }
  destruct okay; cbn [negb] in Hrun.
  2:{ injection Hrun as <- <-. split; [apply Ht3|]. split; [apply Htalk3|done]. }
  destruct (ping_accepts env nativeAvailable e u credential _ _ w2 w3 (talking_now _ _ _ _ _ _ Htalk) Hp) as [Htalk4 Hacc].
  unfold mbind at 1, M_bind at 1, mret at 1, M_ret at 1 in Hrun.
  assert (on_target w (strip_slash u) pn (tick w3)) as Ht4
    by (apply (on_target_same _ _ _ w3); [split_and!; simpl; first [done|lia]|done]).
  assert (∀ w' x, securityState env nativeAvailable w3 = (w', x) → w' = tick w3) as Htick
    by (unfold securityState; destruct nativeAvailable; naive_solver).
  destruct Htalk4 as (H1 & _ & H3 & H4 & Hclock), Htalk as (_ & _ & _ & _ & Hclock2).
  apply bind_inv in Hrun as [(m & Hs & ->)|(w4 & state & Hs & Hrun)]; apply Htick in Hs as ->.
  { by split; [apply Ht4|]. }
  destruct (state.2); cbn [negb] in Hrun; injection Hrun as <- <-; [|by split; [apply Ht4|]].
  destruct Ht4 as (T1 & T2 & T3). split; [by destruct T3|]. split; [exact H4|]. intros b [= <-]. split; [done|].
  destruct T3 as [T3 T4 T5 T6]. split; [exact T3|]. split; [exact H4|]. split; [exact T6|]. split; [exact T4|].
  split_and!; try done. exists (clock w2). split; [simpl; lia|exact Hacc].
Qed.

(** The [catch]: everything about the desktop is forgotten, but for its trust. *)
Definition part (silent : bool) (message : string) : M bool :=
  setConfig "" "";; clearSecureConnection;; dispatch (ServerConnected false);; dispatch (SetConnecting false);;
  dispatch (PairingDesktop None);; dispatch (SetSecurity disconnectedSecurity);; resetConnectionAttempt;;
  when (negb silent) (showAlertOnce env "Could not reconnect"
    (message +:+ " Your saved trust was kept. Try this desktop again, or scan its current QR code if trust was revoked."));;
  mret false.

Lemma alert_keeps_trust b title message w :
  ∃ w', when b (showAlertOnce env title message) w = (w', inr ()) ∧ quiet w w' ∧ lastServer w' = lastServer w.
Proof.
  destruct b; [|exists w; split; [done|]; split; [split_and!; first [done|lia]|done]].
  unfold when, showAlertOnce. destruct (gate_open env w); eexists; (split; [done|]); (split; [|done]); split_and!; simpl; first [done|lia].
Qed.

Lemma part_spec silent message w :
  ∃ w', part silent message w = (w', inr false) ∧ forgotten w' ∧ sent w' = sent w ∧ lastServer w' = lastServer w
    ∧ expectedEnvironment (api w') = expectedEnvironment (api w) ∧ (clock w <= clock w')%nat.
Proof.
  set (quit := (setConfig "" "";; clearSecureConnection;; dispatch (ServerConnected false);; dispatch (SetConnecting false);;
    dispatch (PairingDesktop None);; dispatch (SetSecurity disconnectedSecurity);; resetConnectionAttempt : M unit)).
  set (w1 := (quit w).1).
  destruct (alert_keeps_trust (negb silent) "Could not reconnect"
    (message +:+ " Your saved trust was kept. Try this desktop again, or scan its current QR code if trust was revoked.") w1)
    as (w' & Ha & (E1 & E2 & E3 & E4 & E5 & E6) & E7).
  assert (part silent message w = (when (negb silent) (showAlertOnce env "Could not reconnect"
    (message +:+ " Your saved trust was kept. Try this desktop again, or scan its current QR code if trust was revoked."));; mret false : M bool) w1)
    as -> by reflexivity.
  exists w'. unfold mbind, M_bind. rewrite Ha. split; [done|]. unfold forgotten. rewrite E1, E2, E3, E6, E7. by split_and!.
Qed.

Lemma connectTrusted_spec saved credential silent w :
  let e := expectedEnvironment (api w) in
  ∃ w' okay, connectTrusted env nativeAvailable saved credential silent w = (w', inr okay)
    ∧ met e (sc_httpsUrl saved) (sc_certificateFingerprint saved) credential w w' okay
    ∧ (sc_environment saved ≠ e → okay = false ∧ sent w' = sent w).
Proof.
  intros e. destruct (decide (sc_environment saved = e)) as [He|He].
  - assert (connectTrusted env nativeAvailable saved credential silent w =
      try_catch (meet saved credential) (part silent) w) as ->.
    { unfold connectTrusted, try_catch. unfold mbind at 1, M_bind at 1, get. rewrite bool_decide_eq_false_2 by tauto. reflexivity. }
    unfold try_catch. destruct (meet saved credential w) as [w1 r] eqn:Hm. pose proof (meet_spec saved credential w w1 r Hm) as (Hs & Hl & Hok).
    destruct r as [message|b].
    + destruct (part_spec silent message w1) as (w2 & -> & Hf & Hsent & Hl2 & He2 & Hc). exists w2, false. split; [done|].
      split; [|done]. destruct Hs as [S1 S2 S3 S4]. unfold met. rewrite Hsent, Hl2, He2, Hl, S4. split_and!; try done. lia.
    + destruct (Hok b eq_refl) as [-> ?]. by exists w1, true.
  - destruct (part_spec silent ("Saved trust belongs to the " +:+ environment_name (sc_environment saved) +:+ " environment, not "
      +:+ environment_name e +:+ ".") w) as (w2 & Hp & Hf & Hsent & Hl2 & He2 & Hc). exists w2, false. split; [|split; [|done]].
    + rewrite <-Hp. unfold connectTrusted, try_catch. unfold mbind at 1, M_bind at 1, get.
      rewrite bool_decide_eq_true_2 by done. reflexivity.
    + unfold met. rewrite Hsent, Hl2, He2. split_and!; try done. exists []. by rewrite app_nil_r.
Qed.

(** ** A desktop that was found nearby *)

Definition discovered_url (server : DiscoveredServer) : string :=
  "https://" +:+ ds_address server +:+ ":" +:+ pretty (ds_httpsPort server).

Definition refreshed (saved : SavedConnection) (server : DiscoveredServer) : SavedConnection :=
  {| sc_environment := sc_environment saved; sc_serverId := sc_serverId saved; sc_httpsUrl := discovered_url server;
     sc_httpUrl := sc_httpUrl saved; sc_certificateFingerprint := sc_certificateFingerprint saved; sc_name := sc_name saved |}.

(** Either nothing was sent, or the desktop is the trusted one. *)
Definition discovered (server : DiscoveredServer) (w w' : world) : Prop :=
  let e := expectedEnvironment (api w) in let u := discovered_url server in
  (sent w' = sent w ∧ api w' = api w ∧ pin w' = pin w
     ∧ (lastServer w' = lastServer w ∨ lastServer w' = None)
     ∧ isServerConnected (controller w') = isServerConnected (controller w))
  ∨ ∃ json saved credential new,
      lastServer w = Some json ∧ parseSavedConnection json = Some saved ∧ same_trust saved server e = true
      ∧ sent w' = sent w ++ new ∧ Forall (ok_traffic (strip_slash u) (Some (u, sc_certificateFingerprint saved))) new
      ∧ ((forgotten w' ∧ lastServer w' = lastServer w)
         ∨ (serverUrl (api w') = Some (strip_slash u) ∧ pin w' = Some (u, sc_certificateFingerprint saved)
            ∧ isServerConnected (controller w') = true ∧ certificateVerified (connectionSecurity (controller w')) = true
            ∧ (∃ k, (clock w <= k < clock w')%nat ∧ accepts env e u credential k)
            ∧ (lastServer w' = lastServer w ∨ lastServer w' = Some (Some (saved_json (refreshed saved server)))))).

Definition settles (w w' : world) : Prop :=
  api w' = api w ∧ pin w' = pin w ∧ sent w' = sent w ∧ lastServer w' = lastServer w ∧ (clock w <= clock w')%nat
  ∧ isServerConnected (controller w') = isServerConnected (controller w)
  ∧ connectionSecurity (controller w') = connectionSecurity (controller w).

Lemma discovered_settles server w w1 w2 : discovered server w w1 → settles w1 w2 → discovered server w w2.
Proof.
  intros H (Ha & Hp & Hs & Hl & Hc & Hi & Hv). unfold discovered, forgotten in *. rewrite Ha, Hp, Hs, Hl, Hi, Hv.
  destruct H as [?|(json & saved & credential & new & H1 & H2 & H3 & H4 & H5 & H6)]; [by left|right].
  exists json, saved, credential, new. split_and!; try done. destruct H6 as [?|(? & ? & ? & ? & (k & ? & ?) & ?)]; [by left|right].
  split_and!; try done. exists k. split; [lia|done].
Qed.

Lemma settles_refl w : settles w w.
Proof. by split_and!. Qed.

Lemma ask_settles title message w : ∃ w', ask_for_qr env title message w = (w', inr ()) ∧ settles w w'.
Proof. unfold ask_for_qr, showAlertOnce. destruct (gate_open env w); eexists; (split; [done|]); split_and!; simpl; first [done|lia]. Qed.

(** The states before anything is sent: only the trust may have been dropped. *)
Definition untouched (w w' : world) : Prop :=
  api w' = api w ∧ pin w' = pin w ∧ sent w' = sent w ∧ (lastServer w' = lastServer w ∨ lastServer w' = None)
  ∧ (clock w <= clock w')%nat ∧ isServerConnected (controller w') = isServerConnected (controller w).

Lemma untouched_discovered server w w' : untouched w w' → discovered server w w'.
Proof. intros (? & ? & ? & ? & ? & ?). by left. Qed.

Lemma untouched_settles w w1 w2 : untouched w w1 → settles w1 w2 → untouched w w2.
Proof.
  intros (A1 & A2 & A3 & A4 & A5 & A6) (B1 & B2 & B3 & B4 & B5 & B6 & B7). unfold untouched.
  rewrite B1, B2, B3, B4, B6. split_and!; try done. lia.
Qed.

(** Looking at the storage, and dropping the trust. *)
Lemma read_settles {A} (f : world → A) w : ∃ r, stored env f (λ w, w) w = (tick w, r) ∧ settles w (tick w) ∧ ∀ a, r = inr a → a = f w.
Proof.
  unfold stored. destruct (storage env (clock w)) as [m|]; eexists; (split; [done|]); (split; [|naive_solver]);
    split_and!; simpl; first [done|lia].
Qed.

Lemma drop_untouched w w1 w' r :
  untouched w w1 → stored env (λ _, ()) (λ w, w <| lastServer := None |>) w1 = (w', r) → untouched w w'.
Proof.
  intros (A1 & A2 & A3 & A4 & A5 & A6). unfold stored. destruct (storage env (clock w1)); intros [= <- _];
    split_and!; simpl; try done; try lia. by right.
Qed.

Lemma read_inv {A} (f : world → A) w w1 r : stored env f (λ w, w) w = (w1, r) → settles w w1 ∧ ∀ a, r = inr a → a = f w.
Proof. destruct (read_settles f w) as (r' & -> & ? & ?). by intros [= <- <-]. Qed.

(** The trusted desktop, from the look at the credential. *)
Lemma meet_discovered saved json server w w1 w' r :
  untouched w w1 → lastServer w1 = lastServer w → lastServer w = Some json → parseSavedConnection json = Some saved →
  same_trust saved server (expectedEnvironment (api w)) = true →
  (found ← stored env storedCredential (λ w, w);
   match usable found with
   | None =>
       stored env (λ _, ()) (λ w, w <| lastServer := None |>);;
       ask_for_qr env "Pairing required" "The approved-device credential is missing. Scan the Windows QR again."
   | Some credential =>
       ok ← connectTrusted env nativeAvailable (refreshed saved server) credential false;
       if ok : bool then stored env (λ _, ()) (λ w, w <| lastServer := Some (Some (saved_json (refreshed saved server))) |>) else mret ()
   end) w1 = (w', r) → discovered server w w'.
Proof.
  intros Hun Hl Hj Hp Hsame Hrun.
  apply bind_inv in Hrun as [(m & Hf & _)|(w2 & found & Hf & Hrun)]; apply read_inv in Hf as [Hset _].
  { by apply untouched_discovered, (untouched_settles w w1). }
  pose proof (untouched_settles _ _ _ Hun Hset) as Hun2. destruct (usable found) as [credential|].
  - destruct (connectTrusted_spec (refreshed saved server) credential false w2) as (w3 & okay & Hc & Hmet & _).
    unfold mbind, M_bind in Hrun. rewrite Hc in Hrun. destruct Hun2 as (A1 & A2 & A3 & _ & A5 & _).
    destruct Hset as (_ & _ & _ & Hl2 & _). rewrite A1 in Hmet. destruct Hmet as ((new & Hs & Hall) & Hl3 & He & Hclk & Hend).
    rewrite A3 in Hs. assert (lastServer w3 = lastServer w) as Hl4 by congruence. right. exists json, saved, credential, new.
    destruct okay.
    + destruct Hend as (E1 & E2 & E3 & E4 & k & Hk & Hacc).
      assert (∀ w', (clock w3 <= clock w')%nat → ∃ k, (clock w <= k < clock w')%nat ∧
        accepts env (expectedEnvironment (api w)) (discovered_url server) credential k) as Hacc'
        by (intros w'' ?; exists k; split; [lia|exact Hacc]).
      unfold stored in Hrun. destruct (storage env (clock w3)); injection Hrun as <- <-;
        refine (conj Hj (conj Hp (conj Hsame (conj Hs (conj Hall (or_intror _))))));
        refine (conj E1 (conj E2 (conj E3 (conj E4 (conj (Hacc' _ _) _))))); simpl; first [lia|by left|by right].
    + injection Hrun as <- <-. split_and!; try done. by left.
  - apply bind_inv in Hrun as [(m & Hd & _)|(w3 & [] & Hd & Hrun)]; apply (drop_untouched w) in Hd; try done.
    { by apply untouched_discovered. }
    edestruct (ask_settles) as (w4 & Hw4 & Hs4). rewrite Hw4 in Hrun. injection Hrun as <- _.
    by apply untouched_discovered, (untouched_settles w w3).
Qed.

Lemma use_discovered_spec server w w' r : use_discovered env nativeAvailable server w = (w', r) → discovered server w w'.
Proof.
  intros Hrun. unfold use_discovered in Hrun.
  apply bind_inv in Hrun as [(m & Hf & _)|(w1 & value & Hf & Hrun)]; apply read_inv in Hf as [Hset Hval].
  { apply untouched_discovered. apply (untouched_settles w w); [|done]. split_and!; try done. by left. }
  specialize (Hval _ eq_refl) as ->. assert (untouched w w1) as Hun.
  { apply (untouched_settles w w); [|done]. split_and!; try done. by left. }
  set (saved := lastServer w ≫= parseSavedConnection) in *.
  assert (untouched w w1 ∧ (is_Some saved → lastServer w1 = lastServer w)) as [_ Hkeep] by (split; [done|]; by destruct Hset as (_ & _ & _ & ? & _)).
  set (drop := when _ _) in Hrun.
  assert (∃ w2, drop w1 = (w2, inr ()) ∧ untouched w w2 ∧ (is_Some saved → lastServer w2 = lastServer w)) as (w2 & Hd & Hun2 & Hl2).
  { unfold drop. destruct (bool_decide (is_Some (lastServer w)) && negb (bool_decide (is_Some saved))) eqn:Hb; [|by exists w1].
    apply andb_prop in Hb as [_ Hb%negb_true_iff%bool_decide_eq_false].
    unfold when, try_catch. destruct (stored env _ _ w1) as [w2 r2] eqn:Hst. apply (drop_untouched w) in Hst; [|done].
    destruct r2 as [m|[]]; by exists w2. }
  unfold mbind at 1, M_bind at 1 in Hrun. rewrite Hd in Hrun. unfold mbind at 1, M_bind at 1, get in Hrun.
  assert (api w2 = api w) as Ha by apply Hun2. rewrite Ha in Hrun.
  destruct saved as [saved'|] eqn:Hsaved; subst saved; simpl in Hrun.
  - destruct (same_trust saved' server (expectedEnvironment (api w))) eqn:Hsame.
    + destruct (lastServer w) as [json|] eqn:Hj; [|done]. rewrite <-Hj in Hl2.
      apply (meet_discovered saved' json server w w2 w' r Hun2 (Hl2 (mk_is_Some _ _ eq_refl)) Hj Hsaved Hsame Hrun).
    + edestruct ask_settles as (w4 & Hw4 & Hs4). rewrite Hw4 in Hrun. injection Hrun as <- _.
      by apply untouched_discovered, (untouched_settles w w2).
  - edestruct ask_settles as (w4 & Hw4 & Hs4). rewrite Hw4 in Hrun. injection Hrun as <- _.
    by apply untouched_discovered, (untouched_settles w w2).
Qed.
End trusted.

Lemma same_trust_spec saved server e :
  same_trust saved server e = true →
  sc_environment saved = e ∧ ds_environment server = e ∧ sc_serverId saved = ds_serverId server
  ∧ normalizeFingerprint (sc_certificateFingerprint saved) = normalizeFingerprint (ds_certificateFingerprint server).
Proof.
  unfold same_trust. intros [[[H1%bool_decide_eq_true H2%bool_decide_eq_true]%andb_prop H3%bool_decide_eq_true]%andb_prop
    H4%bool_decide_eq_true]%andb_prop. split_and!; congruence.
Qed.

(** C23: a desktop found nearby gets the phone's credential only when it is the trusted one.
    Choosing a discovered desktop always ends with the guard released and without an error.
    Either nothing is sent and the client is as before, at most a trust that cannot be read
    or used is dropped; or the stored trust names the same environment, desktop and
    certificate as the announcement, every request goes to the announced address under the
    pin of the stored trust, and the attempt ends either connected, with a verified
    certificate, to a desktop that accepted the credential, or with the connection forgotten
    and the trust kept. *)
Theorem discovered_desktop_is_pinned env nativeAvailable server w :
  connectionAttempt w = false →
  let '(w', r) := handleDiscoveredServer env nativeAvailable server w in
  let u := discovered_url server in
  r = inr () ∧ connectionAttempt w' = false ∧ isConnecting (controller w') = false
  ∧ ((sent w' = sent w ∧ api w' = api w ∧ pin w' = pin w ∧ (lastServer w' = lastServer w ∨ lastServer w' = None))
     ∨ ∃ json saved credential new,
         lastServer w = Some json ∧ parseSavedConnection json = Some saved
         ∧ sc_environment saved = expectedEnvironment (api w) ∧ ds_environment server = expectedEnvironment (api w)
         ∧ sc_serverId saved = ds_serverId server
         ∧ normalizeFingerprint (sc_certificateFingerprint saved) = normalizeFingerprint (ds_certificateFingerprint server)
         ∧ sent w' = sent w ++ new
         ∧ Forall (λ tr, startsWith (rq_url (tr_request tr)) (strip_slash u +:+ "/") = true
                         ∧ tr_pin tr = Some (u, sc_certificateFingerprint saved)) new
         ∧ ((forgotten w' ∧ lastServer w' = lastServer w)
            ∨ (serverUrl (api w') = Some (strip_slash u) ∧ isServerConnected (controller w') = true
               ∧ certificateVerified (connectionSecurity (controller w')) = true
               ∧ (∃ k, (clock w <= k < clock w')%nat ∧ accepts env (expectedEnvironment (api w)) u credential k)
               ∧ (lastServer w' = lastServer w ∨ lastServer w' = Some (Some (saved_json (refreshed saved server))))))).
Proof.
  intros Hw. destruct (handleDiscoveredServer env nativeAvailable server w) as [w' r] eqn:Hrun. unfold handleDiscoveredServer in Hrun.
  unfold mbind at 1, M_bind at 1, get in Hrun. rewrite Hw in Hrun.
  set (w0 := w <| connectionAttempt := true |> <| controller := connectionControllerReducer (controller w) (SetConnecting true) |>).
  change (try_finally (try_catch (use_discovered env nativeAvailable server)
       (λ _, ask_for_qr env "Could not use nearby discovery" "The saved connection could not be read. Scan the Windows QR code to reconnect securely."))
    (setAttempt false;; dispatch (SetConnecting false)) w0 = (w', r)) in Hrun.
  assert (∃ wa, discovered env server w0 wa ∧ r = inr () ∧ w' = wa <| connectionAttempt := false |>
      <| controller := connectionControllerReducer (controller wa) (SetConnecting false) |>) as (wa & Hd & -> & ->).
  { unfold try_finally, try_catch in Hrun. destruct (use_discovered env nativeAvailable server w0) as [w1 [m|[]]] eqn:Hu;
      apply use_discovered_spec in Hu; [|injection Hrun as <- <-; by exists w1].
    edestruct (ask_settles env) as (w2 & Hw2 & Hs2). rewrite Hw2 in Hrun. injection Hrun as <- <-. exists w2.
    split; [by apply (discovered_settles env server w0 w1)|done]. }
  split_and!; try done. destruct Hd as [(? & ? & ? & ? & _)|(json & saved & credential & new & H1 & H2 & H3 & H4 & H5 & H6)]; [by left|].
  right. exists json, saved, credential, new. apply same_trust_spec in H3 as (? & ? & ? & ?).
  do 7 (split; [done|]). split; [exact H5|].
  destruct H6 as [?|(? & _ & ? & ? & ? & ?)]; [by left|right]. by repeat (split; [done|]).
Qed.

(** The trusted desktop is announced, met and accepted. *)
Definition nearby : DiscoveredServer :=
  {| ds_serverId := "s"; ds_name := "Desktop"; ds_address := "10.0.0.7"; ds_httpsPort := 8443;
     ds_certificateFingerprint := pp_certificateFingerprint sample_payload; ds_httpPort := None;
     ds_approvalRequired := true; ds_environment := test |}.

Definition trusting_world : world :=
  fresh_world <| lastServer := Some (Some (saved_json (saved_of sample_payload "https://10.0.0.2:8443"))) |>
              <| storedCredential := Some "credential" |>.

Definition nearby_attempt : world * (string + unit) := handleDiscoveredServer friendly true nearby trusting_world.

Lemma discovered_desktop_is_pinned_witness :
  isServerConnected (controller nearby_attempt.1) = true ∧ sent nearby_attempt.1 ≠ []
  ∧ nearby_attempt.2 = inr () ∧ connectionAttempt nearby_attempt.1 = false.
Proof.
  split; [vm_compute; reflexivity|]. split; [vm_compute; discriminate|].
  pose proof (discovered_desktop_is_pinned friendly true nearby trusting_world eq_refl) as H.
  revert H. unfold nearby_attempt. destruct (handleDiscoveredServer _ _ _ _) as [w' r]. intros (H1 & H2 & _).
  split; [exact H1|exact H2].
Defined.
