(* ===== verification/ConnectionHealth.v ===== *)
(** * The health of an open connection ([app/hooks/useConnectionHealth.ts])

    While a screen of the dashboard is shown the desktop is pinged again and again. The
    effect of the hook is a record of its variables; an effect that was cleaned up is
    [stopped]: what is left of it are its unanswered pings, whose answers it ignores. Timers
    are the times they are due; the clock of an event is [now]. *)

From S2P Require Import Prelude Connection.
Import Connection (ScreenState(..)).

Open Scope Z_scope.

Module ConnectionHealth.

Definition HEALTH_POLL_INTERVAL_MS : Z := 5000.
Definition HEALTH_RETRY_INTERVAL_MS : Z := 2000.
Definition MAX_CONSECUTIVE_FAILURES : Z := 3.

(* src: app/types.ts:5-5 [ConnectionHealthStatus] *)
Inductive status := idle | checking | connected | retrying | disconnected.
#[export] Instance status_eq_dec : EqDecision status.
Proof. solve_decision. Defined.

(** [pings]: calls of [api.pingServer] of this effect without an answer. *)
(* src: app/hooks/useConnectionHealth.ts:41-44 [useConnectionHealth] *)
Record monitor := { inFlight : bool; consecutiveFailures : Z; timer : option Z; pings : Z }.
#[export] Instance monitor_eta : Eta monitor := λ m, Build_monitor (inFlight m) (consecutiveFailures m) (timer m) (pings m).

#[export] Instance ScreenState_eq_dec : EqDecision ScreenState.
Proof. solve_decision. Defined.

(** [effect]: none while the screen is one that is not monitored. [serverConnected]: what
    [setIsServerConnected] was last called with. [stale]: the unanswered pings of the effects
    that were stopped. [asked]: how often [api.pingServer] was called. *)
(* src: app/hooks/useConnectionHealth.ts:34-38 [useConnectionHealth] *)
Record health := {
  appState : ScreenState;
  effect : option monitor;
  stale : Z;
  asked : Z;
  state : status;
  serverConnected : option bool }.
#[export] Instance health_eta : Eta health := λ h,
  Build_health (appState h) (effect h) (stale h) (asked h) (state h) (serverConnected h).

(* src: app/hooks/useConnectionHealth.ts:38-40 [useConnectionHealth] *)
Definition unmonitored (s : ScreenState) : bool :=
  match s with screen_connect | screen_picker | screen_transfer => true | _ => false end.

(* src: app/hooks/useConnectionHealth.ts:52-55 [validateConnection] *)
Definition validateConnection (m : monitor) (h : health) : health :=
  if inFlight m then h <| effect := Some m |>
  else h <| effect := Some (m <| inFlight := true |> <| pings := pings m + 1 |>) |> <| asked := asked h + 1 |>.

(* src: app/hooks/useConnectionHealth.ts:46-50 [schedule] *)
Definition schedule (now delayMs : Z) (m : monitor) : monitor := m <| timer := Some (now + delayMs) |>.

(** After [await api.pingServer], in an effect that is not stopped. *)
(* src: app/hooks/useConnectionHealth.ts:55-72 [validateConnection] *)
Definition ping_answered (now : Z) (ok : bool) (m : monitor) (h : health) : health :=
  let m := m <| inFlight := false |> <| pings := pings m - 1 |> in
  let h := h <| serverConnected := Some ok |> in
  if ok then
    h <| state := connected |> <| effect := Some (schedule now HEALTH_POLL_INTERVAL_MS (m <| consecutiveFailures := 0 |>)) |>
  else
    let m := m <| consecutiveFailures := consecutiveFailures m + 1 |> in
    if MAX_CONSECUTIVE_FAILURES <=? consecutiveFailures m then h <| state := disconnected |> <| effect := Some m |>
    else h <| state := retrying |> <| effect := Some (schedule now HEALTH_RETRY_INTERVAL_MS m) |>.

(** The cleanup of the effect that ran before: its timer is gone, its ping is not. *)
(* src: app/hooks/useConnectionHealth.ts:87-91 [useConnectionHealth] *)
Definition cleanup (h : health) : health :=
  match effect h with
  | Some m => h <| effect := None |> <| stale := stale h + pings m |>
  | None => h
  end.

(** The effect runs again when the screen or the number of manual retries changes. *)
(* src: app/hooks/useConnectionHealth.ts:37-92 [useConnectionHealth] *)
Definition run_effect (h : health) : health :=
  let h := cleanup h in
  if unmonitored (appState h) then h <| effect := None |>
  else validateConnection {| inFlight := false; consecutiveFailures := 0; timer := None; pings := 0 |}
         (h <| state := checking |>).

(* src: app/hooks/useConnectionHealth.ts:78-86 [useConnectionHealth] *)
Definition app_active (m : monitor) (h : health) : health :=
  validateConnection (m <| consecutiveFailures := 0 |> <| timer := None |>) (h <| state := checking |>).

(* src: app/hooks/useConnectionHealth.ts:94-97 [retryConnection] *)
Definition retryConnection (h : health) : health := run_effect (h <| state := checking |>).

(** What the hook returns. *)
(* src: app/hooks/useConnectionHealth.ts:99-102 [useConnectionHealth] *)
Definition shown_status (h : health) : status := if unmonitored (appState h) then idle else state h.

Definition mounted (screen : ScreenState) : health :=
  run_effect {| appState := screen; effect := None; stale := 0; asked := 0; state := idle; serverConnected := None |}.

Inductive health_event :=
  | PingAnswer (ok : bool)
  | StaleAnswer (ok : bool)       (** to a ping of a stopped effect *)
  | TimerFires
  | AppActive
  | ScreenChange (s : ScreenState)
  | RetryTap.

(** [None]: not possible now. The ids of fired timers are cleared by nothing, but clearing
    them is no event. *)
(* src: app/hooks/useConnectionHealth.ts:52-97 [useConnectionHealth] *)
Definition health_exec (now : Z) (e : health_event) (h : health) : option health :=
  match e, effect h with
  | PingAnswer ok, Some m => if 0 <? pings m then Some (ping_answered now ok m h) else None
  | StaleAnswer _, _ => if 0 <? stale h then Some (h <| stale := stale h - 1 |>) else None
  | TimerFires, Some m =>
      match timer m with
      | Some due => if due <=? now then Some (validateConnection (m <| timer := None |>) h) else None
      | None => None
      end
  | AppActive, Some m => Some (app_active m h)
  | AppActive, None => Some h
  | ScreenChange s, _ => if bool_decide (s = appState h) then None else Some (run_effect (h <| appState := s |>))
  | RetryTap, _ => Some (retryConnection h)
  | _, None => None
  end.

Definition health_run (screen : ScreenState) (es : list (Z * health_event)) : option health :=
  foldl (λ h e, h ≫= health_exec e.1 e.2) (Some (mounted screen)) es.

(** ** Theorems *)

(** Failed answers since the last good one, or since the monitoring began again. *)
Definition failed_in_a_row (es : list (Z * health_event)) : Z :=
  foldl (λ n (e : Z * health_event), match e.2 with PingAnswer false => n + 1 | TimerFires | StaleAnswer _ => n | _ => 0 end) 0 es.

(** How often the effect was stopped, at most. *)
Definition restarts (es : list (Z * health_event)) : Z :=
  foldl (λ n (e : Z * health_event), match e.2 with ScreenChange _ | RetryTap => n + 1 | _ => n end) 0 es.
Lemma restarts_snoc es e :
  restarts (es ++ [e]) = match e.2 with ScreenChange _ | RetryTap => restarts es + 1 | _ => restarts es end.
Proof. unfold restarts. by rewrite foldl_app. Qed.

Lemma failed_snoc es e :
  failed_in_a_row (es ++ [e]) = match e.2 with PingAnswer false => failed_in_a_row es + 1 | TimerFires | StaleAnswer _ => failed_in_a_row es | _ => 0 end.
Proof. unfold failed_in_a_row. by rewrite foldl_app. Qed.

Record monitor_ok (h : health) (failed : Z) (m : monitor) : Prop := {
  mo_pings : pings m = number_of_bool (inFlight m);
  mo_timer : inFlight m = true → timer m = None;
  mo_failures : consecutiveFailures m = failed ∧ 0 <= failed <= MAX_CONSECUTIVE_FAILURES;
  mo_state : match state h with
             | idle => False
             | checking => inFlight m = true ∧ failed < MAX_CONSECUTIVE_FAILURES
             | connected => failed = 0 ∧ serverConnected h = Some true
             | retrying => 0 < failed < MAX_CONSECUTIVE_FAILURES ∧ serverConnected h = Some false
             | disconnected => failed = MAX_CONSECUTIVE_FAILURES ∧ inFlight m = false ∧ timer m = None ∧ serverConnected h = Some false
             end;
  mo_goes_on : state h = disconnected ∨ inFlight m = true ∨ is_Some (timer m) }.

Definition health_ok (h : health) (failed : Z) : Prop :=
  match effect h with
  | None => unmonitored (appState h) = true
  | Some m => unmonitored (appState h) = false ∧ monitor_ok h failed m
  end.

Ltac health_lia := unfold MAX_CONSECUTIVE_FAILURES in *; destruct_and?; repeat split; try lia; try congruence.

Lemma run_effect_ok h : health_ok (run_effect h) 0.
Proof.
  unfold health_ok, run_effect. cbv zeta.
  assert (∀ h0, appState (cleanup h0) = appState h0) as Ha by (intros h0; unfold cleanup; by destruct (effect h0)).
  rewrite !Ha. destruct (unmonitored (appState h)) eqn:E; simpl; rewrite ?Ha; [done|]. split; [done|].
  split; simpl; auto; by unfold MAX_CONSECUTIVE_FAILURES.
Qed.

Lemma health_exec_ok now e h h' failed :
  health_ok h failed → health_exec now e h = Some h' →
  health_ok h' (match e with PingAnswer false => failed + 1 | TimerFires | StaleAnswer _ => failed | _ => 0 end).
Proof.
  unfold health_exec, health_ok. intros Hok. destruct e as [ok|ok| | |s|].
  - destruct (effect h) as [m|]; [|done]. destruct Hok as [Hu [H1 H2 [H3 H3'] H4 H5]]. destruct (0 <? pings m) eqn:Hp; [|done].
    intros [= <-]. assert (inFlight m = true) as Hi by (destruct (inFlight m); [done|]; rewrite H1 in Hp; done).
    specialize (H2 Hi). rewrite Hi in H1. simpl in H1.
    assert (failed < MAX_CONSECUTIVE_FAILURES) as Hlt by (destruct (state h); [done|health_lia..]).
    unfold ping_answered. destruct ok; simpl.
    + split; [done|]. split; simpl; eauto; health_lia.
    + rewrite H3. destruct (Z.leb_spec MAX_CONSECUTIVE_FAILURES (failed + 1)); simpl; (split; [done|]); split; simpl; eauto; health_lia.
  - destruct (0 <? stale h); [|by destruct (effect h)]. destruct (effect h) as [m|] eqn:Hm; intros [= <-]; simpl; rewrite Hm; [|done].
    destruct Hok as [Hu []]. by split.
  - destruct (effect h) as [m|]; [|done]. destruct Hok as [Hu [H1 H2 [H3 H3'] H4 H5]]. destruct (timer m) as [due|] eqn:Ht; [|done].
    destruct (due <=? now); [|done]. intros [= <-]. unfold validateConnection. simpl.
    destruct (inFlight m) eqn:Hi; [by specialize (H2 eq_refl)|]. simpl in *. split; [done|]. split; simpl; eauto; [lia|].
    destruct (state h); try done; health_lia.
  - destruct (effect h) as [m|] eqn:Hm; intros [= <-]; [|by rewrite Hm]. destruct Hok as [Hu [H1 H2 _ _ _]]. unfold app_active, validateConnection. simpl.
    destruct (inFlight m) eqn:Hi; simpl in *; (split; [done|]); split; simpl; rewrite ?Hi; eauto; health_lia.
  - case_bool_decide; [done|]. intros [= <-]. apply run_effect_ok.
  - intros [= <-]. apply run_effect_ok.
Qed.

(** A stopped effect leaves at most one ping behind. *)
Lemma health_exec_stale now e h h' failed :
  health_ok h failed → health_exec now e h = Some h' → 0 <= stale h →
  0 <= stale h' ∧ stale h' <= stale h + match e with ScreenChange _ | RetryTap => 1 | _ => 0 end.
Proof.
  intros Hok Hex Hs. assert (∀ h0, effect h0 = effect h → stale h0 = stale h → 0 <= stale (run_effect h0) <= stale h + 1) as Hrun.
  { intros h0 He Hst. unfold health_ok in Hok. unfold run_effect, cleanup. cbv zeta. rewrite He.
    destruct (effect h) as [m|]; simpl.
    - destruct Hok as [_ [H1 _ _ _ _]]. assert (0 <= pings m <= 1) by (rewrite H1; destruct (inFlight m); simpl; lia).
      destruct (unmonitored (appState h0)); simpl; lia.
    - destruct (unmonitored (appState h0)); simpl; lia. }
  unfold health_exec in Hex. destruct e as [ok|ok| | |s|].
  - destruct (effect h) as [m|]; [|done]. destruct (0 <? pings m); [|done]. injection Hex as <-. unfold ping_answered.
    cbv zeta. destruct ok; [simpl; lia|]. destruct (_ <=? _); simpl; lia.
  - destruct (0 <? stale h) eqn:Hlt; [|by destruct (effect h)]. apply Z.ltb_lt in Hlt.
    assert (h' = h <| stale := stale h - 1 |>) as -> by (destruct (effect h); by injection Hex). simpl. lia.
  - destruct (effect h) as [m|]; [|done]. destruct (timer m) as [due|]; [|done]. destruct (due <=? now); [|done].
    injection Hex as <-. unfold validateConnection. simpl. destruct (inFlight m); simpl; lia.
  - destruct (effect h) as [m|]; injection Hex as <-; [|simpl; lia].
    unfold app_active, validateConnection. simpl. destruct (inFlight m); simpl; lia.
  - assert (h' = run_effect (h <| appState := s |>)) as ->.
    { destruct (effect h); case_bool_decide; try done; by injection Hex. }
    by apply Hrun.
  - assert (h' = retryConnection h) as -> by (destruct (effect h); by injection Hex). unfold retryConnection. by apply Hrun.
Qed.

(** Answers that have come, and pings that still wait for one. *)
Definition ping_answers (es : list (Z * health_event)) : Z :=
  foldl (λ n (e : Z * health_event), match e.2 with PingAnswer _ | StaleAnswer _ => n + 1 | _ => n end) 0 es.
Lemma ping_answers_snoc es e :
  ping_answers (es ++ [e]) = match e.2 with PingAnswer _ | StaleAnswer _ => ping_answers es + 1 | _ => ping_answers es end.
Proof. unfold ping_answers. by rewrite foldl_app. Qed.
Definition unanswered (h : health) : Z := stale h + match effect h with Some m => pings m | None => 0 end.

Lemma run_effect_asked h : asked (run_effect h) - unanswered (run_effect h) = asked h - unanswered h.
Proof.
  unfold run_effect, cleanup, unanswered. cbv zeta. destruct (effect h) as [m|] eqn:Hm; simpl;
    destruct (unmonitored (appState h)); simpl; rewrite ?Hm; simpl; lia.
Qed.

(** Every call of [api.pingServer] is answered or waits for its answer. *)
Lemma health_exec_asked now e h h' :
  health_exec now e h = Some h' →
  asked h' - unanswered h' = asked h - unanswered h + match e with PingAnswer _ | StaleAnswer _ => 1 | _ => 0 end.
Proof.
  unfold health_exec. intros Hex. destruct e as [ok|ok| | |s|].
  - destruct (effect h) as [m|] eqn:Hm; [|done]. destruct (0 <? pings m); [|done]. injection Hex as <-.
    unfold ping_answered, unanswered. cbv zeta. rewrite Hm. destruct ok; [simpl; lia|]. destruct (_ <=? _); simpl; lia.
  - destruct (0 <? stale h); [|by destruct (effect h)].
    assert (h' = h <| stale := stale h - 1 |>) as -> by (destruct (effect h); by injection Hex). unfold unanswered. simpl. lia.
  - destruct (effect h) as [m|] eqn:Hm; [|done]. destruct (timer m) as [due|]; [|done]. destruct (due <=? now); [|done].
    injection Hex as <-. unfold validateConnection, unanswered. rewrite Hm. simpl. destruct (inFlight m); simpl; lia.
  - destruct (effect h) as [m|] eqn:Hm; injection Hex as <-; [|lia].
    unfold app_active, validateConnection, unanswered. rewrite Hm. simpl. destruct (inFlight m); simpl; lia.
  - assert (h' = run_effect (h <| appState := s |>)) as -> by (destruct (effect h); case_bool_decide; try done; by injection Hex).
    pose proof (run_effect_asked (h <| appState := s |>)) as H. unfold unanswered in *. simpl in H. lia.
  - assert (h' = retryConnection h) as -> by (destruct (effect h); by injection Hex). unfold retryConnection.
    pose proof (run_effect_asked (h <| state := checking |>)) as H. unfold unanswered in *. simpl in H. lia.
Qed.

Lemma health_run_ok screen es h :
  health_run screen es = Some h →
  health_ok h (failed_in_a_row es) ∧ 0 <= stale h <= restarts es ∧ asked h = ping_answers es + unanswered h.
Proof.
  revert h. unfold health_run. induction es as [|[now e] es IH] using rev_ind; intros h.
  - intros [= <-]. split; [apply run_effect_ok|]. unfold mounted, run_effect. cbv zeta. simpl. by destruct (unmonitored screen).
  - rewrite foldl_app. simpl. destruct (foldl _ _ es) as [h0|]; [|done]. simpl. intros Hx.
    destruct (IH h0 eq_refl) as (Hok & Hst & Hask). rewrite failed_snoc, restarts_snoc, ping_answers_snoc.
    split; [by apply (health_exec_ok now e h0 h)|].
    destruct (health_exec_stale now e h0 h _ Hok Hx) as [? ?]; [lia|]. pose proof (health_exec_asked now e h0 h Hx).
    simpl. destruct e; lia.
Qed.

(** C29: whatever the answers, timers, taps and changes of the screen. While a screen of the
    dashboard is shown the hook waits for at most one ping, and the desktop is pinged, or
    about to be, unless the last three pings failed in a row since the last good answer,
    return to the application, retry or change of the screen; the hook says disconnected
    exactly then, and connected only after a good answer. A change of the screen or a retry
    may leave one more ping of the effect it stops unanswered, besides those left before;
    its answer changes nothing. Every call of [api.pingServer] is answered, or waits for its
    answer as one of these. Elsewhere nothing is pinged. *)
Theorem monitoring_never_stalls screen es h :
  health_run screen es = Some h →
  (effect h = None ↔ unmonitored (appState h) = true)
  ∧ 0 <= stale h <= restarts es
  ∧ asked h = ping_answers es + stale h + match effect h with Some m => pings m | None => 0 end
  ∧ (∀ now ok h', health_exec now (StaleAnswer ok) h = Some h' → h' = h <| stale := stale h - 1 |>)
  ∧ ∀ m, effect h = Some m →
      0 <= pings m <= 1
      ∧ (shown_status h = disconnected ↔ 3 <= failed_in_a_row es)
      ∧ (shown_status h ≠ disconnected → pings m = 1 ∨ is_Some (timer m))
      ∧ (shown_status h = connected → serverConnected h = Some true ∧ failed_in_a_row es = 0)
      ∧ (shown_status h = retrying ∨ shown_status h = disconnected → serverConnected h = Some false).
Proof.
  intros (Hok & Hst & Hask)%health_run_ok. unfold unanswered in Hask. rewrite Z.add_assoc in Hask.
  assert (∀ now ok h', health_exec now (StaleAnswer ok) h = Some h' → h' = h <| stale := stale h - 1 |>) as Hstale.
  { intros now ok h' Hx. unfold health_exec in Hx. by destruct (0 <? stale h), (effect h); simplify_eq. }
  unfold health_ok in Hok. destruct (effect h) as [m|] eqn:Hm; [|by rewrite Hok].
  destruct Hok as [Hu [H1 H2 [H3 H3'] H4 H5]]. rewrite Hu. do 4 (split; [done|]).
  intros ? [= <-]. unfold shown_status. rewrite Hu.
  unfold MAX_CONSECUTIVE_FAILURES in *. split_and!.
  - rewrite H1. destruct (inFlight m); simpl; lia.
  - rewrite H1. destruct (inFlight m); simpl; lia.
  - destruct (state h); split; intros; try done; naive_solver lia.
  - intros Hs. destruct H5 as [|[Hi|]]; [done|left; by rewrite H1, Hi|by right].
  - intros Hs. rewrite Hs in H4. by destruct H4.
  - intros [Hs|Hs]; rewrite Hs in H4; tauto.
Qed.

(** A retry while the first ping is unanswered, then three failed pings. *)
Definition outage : list (Z * health_event) :=
  [(5, RetryTap); (10, PingAnswer true); (11, StaleAnswer false); (5010, TimerFires); (5020, PingAnswer false); (7020, TimerFires); (7030, PingAnswer false);
   (9030, TimerFires); (9040, PingAnswer false)].
Definition after_outage : health := default (mounted screen_home) (health_run screen_home outage).
End ConnectionHealth.

Lemma monitoring_never_stalls_witness :
  ConnectionHealth.shown_status ConnectionHealth.after_outage = ConnectionHealth.disconnected
  ∧ ∃ m, ConnectionHealth.effect ConnectionHealth.after_outage = Some m ∧ ConnectionHealth.pings m <= 1.
Proof.
  destruct (ConnectionHealth.monitoring_never_stalls screen_home ConnectionHealth.outage ConnectionHealth.after_outage
    ltac:(vm_compute; reflexivity)) as (_ & _ & _ & _ & Hm).
  destruct (ConnectionHealth.effect ConnectionHealth.after_outage) as [m|] eqn:E; [|vm_compute in E; discriminate].
  destruct (Hm m eq_refl) as (Hp & Hd & _). split; [apply Hd; vm_compute; discriminate|]. exists m. split; [reflexivity|apply Hp].
Defined.
