(* ===== verification/QrScanner.v ===== *)
(** * Scanning a code ([features/connection/hooks/useQrScanner.ts])

    The camera may report the same code many times; the hook handles the first one and hands
    it to [onConnect] ([handleConnect] of [Connection]). A scanned text comes with what
    [JSON.parse] makes of it and with what [parseLegacyConnectionUrl] does, which is the
    [URL] class of the platform. *)

From Stdlib Require Import QArith Qcanon.
From S2P Require Import Prelude Js Security.
Open Scope Z_scope.

Module QrScanner.

Inductive scan_alert := UnsupportedVersionAlert (version : jsnumber) | UnsupportedCode | ConnectionFailed | CameraPermission | CameraUnavailable.

(** A call of [onConnect]. *)
Record connect_call := { cc_address : string; cc_token : string; cc_pairing : option PairingPayload }.

(** [unanswered]: calls of [onConnect] still awaited; [openings]: calls of [startScanning]
    that wait for the permission. *)
(* src: features/connection/hooks/useQrScanner.ts:20-28 [useQrScanner] *)
Record scanner := {
  isScanning : bool;
  scanHandled : bool;
  connects : list connect_call;
  unanswered : Z;
  openings : Z;
  alerts : list scan_alert }.

#[export] Instance scanner_eta : Eta scanner := λ s,
  Build_scanner (isScanning s) (scanHandled s) (connects s) (unanswered s) (openings s) (alerts s).

Definition mounted : scanner :=
  {| isScanning := false; scanHandled := false; connects := []; unanswered := 0; openings := 0; alerts := [] |}.

Definition alert (a : scan_alert) (s : scanner) : scanner := s <| alerts := alerts s ++ [a] |>.

(** [native]: [nativeCapabilities.available]. *)
Section scanner.
Context (native : bool).

(* src: features/connection/hooks/useQrScanner.ts:38-49 [connectFromScan] *)
Definition connectFromScan (address token : string) (pairing : option PairingPayload) (s : scanner) : scanner :=
  s <| connects := connects s ++ [{| cc_address := address; cc_token := token; cc_pairing := pairing |}] |>
    <| unanswered := unanswered s + 1 |>.

Inductive connect_answer := Connected | NotConnected | ConnectThrew.

(* src: features/connection/hooks/useQrScanner.ts:50-59 [connectFromScan] *)
Definition connect_answered (a : connect_answer) (s : scanner) : scanner :=
  let s := s <| unanswered := unanswered s - 1 |> in
  match a with
  | Connected => s
  | NotConnected => s <| scanHandled := false |>
  | ConnectThrew => alert ConnectionFailed (s <| scanHandled := false |> <| isScanning := false |>)
  end.

(* src: features/connection/hooks/useQrScanner.ts:61-97 [handleBarCodeScanned] *)
Definition handleBarCodeScanned (json : option jsval) (legacy : option (string * string)) (s : scanner) : scanner :=
  if scanHandled s then s else
  let s := s <| scanHandled := true |> <| isScanning := false |> in
  match parsePairingPayload json with
  | UnsupportedVersion version => alert (UnsupportedVersionAlert version) s
  | Payload pairing =>
      match pp_httpUrl pairing with
      | Some url => if negb native && truthy url then connectFromScan url (pp_token pairing) None s
                    else connectFromScan (pp_httpsUrl pairing) (pp_token pairing) (Some pairing) s
      | None => connectFromScan (pp_httpsUrl pairing) (pp_token pairing) (Some pairing) s
      end
  | NotAPayload =>
      match legacy with
      | Some (baseUrl, token) => connectFromScan baseUrl token None s
      | None => alert UnsupportedCode s
      end
  end.

Inductive permission := Granted | Denied | PermissionThrew.

(** Once the permission is known. *)
(* src: features/connection/hooks/useQrScanner.ts:99-117 [startScanning] *)
Definition start_answered (p : permission) (s : scanner) : scanner :=
  let s := s <| openings := openings s - 1 |> in
  match p with
  | Granted => s <| scanHandled := false |> <| isScanning := true |>
  | Denied => alert CameraPermission s
  | PermissionThrew => alert CameraUnavailable s
  end.

(* src: features/connection/hooks/useQrScanner.ts:34-36 [stopScanning] *)
Definition stopScanning (s : scanner) : scanner := s <| isScanning := false |>.

Inductive scan_event :=
  | StartTap
  | PermissionKnown (p : permission)
  | StopTap
  | Scanned (json : option jsval) (legacy : option (string * string))
  | ConnectAnswer (a : connect_answer).

Definition scan_exec (e : scan_event) (s : scanner) : option scanner :=
  match e with
  | StartTap => Some (s <| openings := openings s + 1 |>)
  | PermissionKnown p => if 0 <? openings s then Some (start_answered p s) else None
  | StopTap => Some (stopScanning s)
  | Scanned json legacy => Some (handleBarCodeScanned json legacy s)
  | ConnectAnswer a => if 0 <? unanswered s then Some (connect_answered a s) else None
  end.

Definition scan_run (es : list scan_event) : option scanner := foldl (λ s e, s ≫= scan_exec e) (Some mounted) es.

(** ** Theorems *)

(** Events after which a code is handled again. *)
Definition rearms (e : scan_event) : bool :=
  match e with PermissionKnown Granted | ConnectAnswer NotConnected | ConnectAnswer ConnectThrew => true | _ => false end.

(** The call that a scanned code asks for. *)
Definition asked_for (es : list scan_event) (c : connect_call) : Prop :=
  ∃ json legacy, Scanned json legacy ∈ es ∧
    match parsePairingPayload json with
    | Payload p => payload_ok p ∧ cc_token c = pp_token p
        ∧ (cc_pairing c = Some p ∧ cc_address c = pp_httpsUrl p ∨ native = false ∧ cc_pairing c = None ∧ pp_httpUrl p = Some (cc_address c))
    | NotAPayload => cc_pairing c = None ∧ legacy = Some (cc_address c, cc_token c)
    | UnsupportedVersion _ => False
    end.

Definition scan_ok (es : list scan_event) (s : scanner) : Prop :=
  (∀ c, c ∈ connects s → asked_for es c)
  ∧ lengthZ (connects s) + number_of_bool (negb (scanHandled s)) <= 1 + sumZ (λ e, number_of_bool (rearms e)) es
  ∧ 0 <= unanswered s <= lengthZ (connects s).

Lemma asked_for_snoc es e c : asked_for es c → asked_for (es ++ [e]) c.
Proof. intros (j & l & Hin & H). exists j, l. split; [apply elem_of_app; by left|done]. Qed.

Lemma scan_ok_same es e s s' :
  connects s' = connects s → unanswered s' = unanswered s →
  number_of_bool (negb (scanHandled s')) <= number_of_bool (negb (scanHandled s)) + number_of_bool (rearms e) →
  scan_ok es s → scan_ok (es ++ [e]) s'.
Proof.
  intros E1 E2 E3 (H1 & H2 & H3). unfold scan_ok. rewrite E1, E2, sumZ_app, sumZ_singleton. split; [|split; [lia|done]].
  intros c Hc. by apply asked_for_snoc, H1.
Qed.

Lemma scan_ok_connect es e s address token pairing :
  scanHandled s = false → asked_for (es ++ [e]) {| cc_address := address; cc_token := token; cc_pairing := pairing |} →
  scan_ok es s → scan_ok (es ++ [e]) (connectFromScan address token pairing (s <| scanHandled := true |> <| isScanning := false |>)).
Proof.
  intros Hh Ha (H1 & H2 & H3). rewrite Hh in H2. unfold scan_ok. simpl in *. rewrite lengthZ_app, sumZ_app, sumZ_singleton.
  change (lengthZ [_]) with 1.
  assert (0 <= number_of_bool (rearms e)) by (by destruct (rearms e)). split; [|lia].
  intros c [Hc| ->%list_elem_of_singleton]%elem_of_app; [by apply asked_for_snoc, H1|done].
Qed.

Lemma scan_exec_ok es e s s' : scan_ok es s → scan_exec e s = Some s' → scan_ok (es ++ [e]) s'.
Proof.
  intros Hs. destruct e as [|p| |json legacy|a]; cbn [scan_exec].
  - intros [= <-]. apply (scan_ok_same es _ s); simpl; done || lia.
  - destruct (0 <? openings s); [|done]. intros [= <-]. apply (scan_ok_same es _ s); destruct p; simpl; try done; destruct (scanHandled s); simpl; lia.
  - intros [= <-]. apply (scan_ok_same es _ s); simpl; done || lia.
  - intros [= <-]. unfold handleBarCodeScanned. destruct (scanHandled s) eqn:Hh; [apply (scan_ok_same es _ s); simpl; done || lia|].
    assert (Scanned json legacy ∈ es ++ [Scanned json legacy]) as Hin by (apply elem_of_app; right; left).
    pose proof (parsePairingPayload_sound json) as Hp. destruct (parsePairingPayload json) as [p| |v] eqn:Ep.
    + destruct Hp as [Hok _]. assert (∀ c, (payload_ok p ∧ cc_token c = pp_token p
        ∧ (cc_pairing c = Some p ∧ cc_address c = pp_httpsUrl p ∨ native = false ∧ cc_pairing c = None ∧ pp_httpUrl p = Some (cc_address c))) →
        asked_for (es ++ [Scanned json legacy]) c) as Hask by (intros c Hc; exists json, legacy; split; [done|by rewrite Ep]).
      destruct (pp_httpUrl p) as [u|] eqn:Hu; [destruct native eqn:Hn; cbn [negb andb]; [|destruct (truthy u) eqn:Ht]|];
        apply scan_ok_connect; try done; apply Hask; split_and!; try done; simpl; auto.
    + destruct legacy as [[u t]|]; [|apply (scan_ok_same es _ s); simpl; rewrite ?Hh; simpl; done || lia].
      apply scan_ok_connect; [done| |done]. exists json, (Some (u, t)). split; [done|]. by rewrite Ep.
    + apply (scan_ok_same es _ s); simpl; rewrite ?Hh; simpl; done || lia.
  - destruct (Z.ltb_spec 0 (unanswered s)) as [Hu|]; [|done]. intros [= <-]. destruct Hs as (H1 & H2 & H3).
    unfold scan_ok. rewrite sumZ_app, sumZ_singleton. destruct a; simpl in *; (split; [intros c Hc; by apply asked_for_snoc, H1|]);
      destruct (scanHandled s); simpl in *; lia.
Qed.

(** C28: whatever codes the camera reports, however often. Every call to connect is one that
    a scanned code asks for: to the https address of a well-formed payload, with its full
    pin; to its http address only where nothing can pin a certificate; or to the address of
    a code that is just a link. And there is at most one call, more only after the scanner
    was opened again or a call failed. *)
Theorem scanned_code_connects_once es s :
  scan_run es = Some s →
  (∀ c, c ∈ connects s → asked_for es c)
  ∧ lengthZ (connects s) <= 1 + sumZ (λ e, number_of_bool (rearms e)) es.
Proof.
  assert (∀ s, scan_run es = Some s → scan_ok es s) as H.
  { unfold scan_run. induction es as [|e es' IH] using rev_ind; intros s0.
    - intros [= <-]. split_and!; try done. intros c Hc. by apply elem_of_nil in Hc.
    - rewrite foldl_app. simpl. destruct (foldl _ _ es') as [s1|]; [|done]. apply scan_exec_ok. by apply IH. }
  intros (H1 & H2 & _)%H. split; [done|]. destruct (scanHandled s); simpl in H2; lia.
Qed.
End scanner.

(** The camera reports the code twice. *)
Definition demo : list scan_event :=
  [StartTap; PermissionKnown Granted; Scanned (Some (payload_json sample_payload)) None; Scanned (Some (payload_json sample_payload)) None;
   ConnectAnswer Connected].
Definition demo_end : scanner := default mounted (scan_run true demo).
End QrScanner.

Lemma scanned_code_connects_once_witness :
  map QrScanner.cc_address (QrScanner.connects QrScanner.demo_end) = [pp_httpsUrl sample_payload]
  ∧ lengthZ (QrScanner.connects QrScanner.demo_end) <= 2.
Proof.
  destruct (QrScanner.scanned_code_connects_once true QrScanner.demo QrScanner.demo_end ltac:(vm_compute; reflexivity)) as [_ Hl].
  split; [vm_compute; reflexivity|]. exact Hl.
Defined.
