(* ===== verification/Preferences.v ===== *)
(** * Stored preferences ([app/hooks/useTransferPreferences.ts], [useConnectionPreferences.ts])

    A preference of the transfer is loaded once, guarded by a revision, and written through
    a chain of promises; one of the connection is loaded and written without either. A
    promise of the storage settles at any time and with any answer; [stored] is what the
    storage holds. *)

From S2P Require Import Prelude UploadTypes.
Open Scope Z_scope.

(** How a preference is kept as text. *)
Class Preference (V : Type) := {
  default_value : V;
  print : V → string;
  parse : string → option V;
  parse_print : ∀ v, parse (print v) = Some v }.

(* src: app/hooks/useTransferPreferences.ts:72-72 [useTransferPreferences] *)
Definition print_mode (m : PreparationMode) : string := match m with prepare_first => "prepare-first" | streaming => "streaming" end.
(* src: app/hooks/useTransferPreferences.ts:37-39 [useTransferPreferences] *)
Definition parse_mode (s : string) : option PreparationMode :=
  if bool_decide (s = "streaming") then Some streaming else if bool_decide (s = "prepare-first") then Some prepare_first else None.
(* src: app/hooks/useTransferPreferences.ts:83-83 [persistSkipExactDuplicates] *)
Definition print_bool (b : bool) : string := if b then "true" else "false".
(* src: app/hooks/useTransferPreferences.ts:49-50 [useTransferPreferences] *)
Definition parse_bool (s : string) : option bool :=
  if bool_decide (s = "true") then Some true else if bool_decide (s = "false") then Some false else None.

#[export] Instance mode_preference : Preference PreparationMode :=
  {| default_value := prepare_first; print := print_mode; parse := parse_mode; parse_print := ltac:(by intros []) |}.
(** [skipExactDuplicates] and [includeAdditionalMediaComponents] have different defaults. *)
Definition bool_preference (initial : bool) : Preference bool :=
  {| default_value := initial; print := print_bool; parse := parse_bool; parse_print := ltac:(by intros []) |}.

Module TransferPreferences.
Section preference.
Context `{Preference V}.

(** [loading]: the revision when the load began, while it is pending. [chain]: the writes
    that are not settled; the first is under way. [errors]: calls of [onPersistenceError]. *)
(* src: app/hooks/useTransferPreferences.ts:15-29 [useTransferPreferences] *)
Record preference := {
  value : V;
  revision : Z;
  loading : option Z;
  active : bool;
  chain : list string;
  stored : option string;
  errors : Z }.

#[export] Instance preference_eta : Eta preference := λ p,
  Build_preference (value p) (revision p) (loading p) (active p) (chain p) (stored p) (errors p).

Definition mounted (stored : option string) : preference :=
  {| value := default_value; revision := 0; loading := Some 0; active := true; chain := []; stored := stored; errors := 0 |}.

(** [answer]: [None] when the promise is rejected, else what [getItem] found. *)
(* src: app/hooks/useTransferPreferences.ts:32-42 [useTransferPreferences] *)
Definition loaded (answer : option (option string)) (p : preference) : option preference :=
  match loading p with
  | None => None
  | Some revisionAtLoadStart =>
      let p := p <| loading := None |> in
      match answer with
      | None => Some (p <| errors := errors p + 1 |>)
      | Some text =>
          Some (if active p && (revision p =? revisionAtLoadStart)
                then match text ≫= parse with Some v => p <| value := v |> | None => p end
                else p)
      end
  end.

(* src: app/hooks/useTransferPreferences.ts:67-74 [persistPreparationMode] *)
Definition persist (v : V) (p : preference) : preference :=
  p <| revision := revision p + 1 |> <| value := v |> <| chain := chain p ++ [print v] |>.

(** The write under way settles; the next one is started whether it failed or not. *)
(* src: app/hooks/useTransferPreferences.ts:70-73 [persistPreparationMode] *)
Definition write_settled (ok : bool) (p : preference) : option preference :=
  match chain p with
  | [] => None
  | text :: rest =>
      let p := p <| chain := rest |> in
      Some (if ok then p <| stored := Some text |> else p <| errors := errors p + 1 |>)
  end.

(* src: app/hooks/useTransferPreferences.ts:62-64 [useTransferPreferences] *)
Definition unmount (p : preference) : preference := p <| active := false |>.

Inductive event := Loaded (answer : option (option string)) | Chosen (v : V) | WriteSettled (ok : bool) | Unmounted.

Definition exec (e : event) (p : preference) : option preference :=
  match e with
  | Loaded answer => loaded answer p
  | Chosen v => Some (persist v p)
  | WriteSettled ok => write_settled ok p
  | Unmounted => Some (unmount p)
  end.

Definition run (stored : option string) (es : list event) : option preference :=
  foldl (λ p e, p ≫= exec e) (Some (mounted stored)) es.

Definition choices (es : list event) : list V := omap (λ e, match e with Chosen v => Some v | _ => None end) es.
Definition write_answers (es : list event) : list bool := omap (λ e, match e with WriteSettled ok => Some ok | _ => None end) es.
(** ** Theorems *)

(** What the storage holds after these answers to writes of [texts], in order. *)
Definition kept (initial : option string) (answers : list bool) (texts : list string) : option string :=
  foldl (λ held (e : bool * string), if e.1 then Some e.2 else held) initial (zip answers texts).

Lemma kept_more initial answers texts t : (length answers <= length texts)%nat → kept initial answers (texts ++ [t]) = kept initial answers texts.
Proof.
  intros Hl. unfold kept. rewrite <-(zip_with_take_r pair answers (texts ++ [t])).
  by rewrite take_app_le, zip_with_take_r.
Qed.

Lemma kept_snoc initial answers texts ok t :
  texts !! length answers = Some t → kept initial (answers ++ [ok]) texts = if ok then Some t else kept initial answers texts.
Proof.
  intros Ht. unfold kept. rewrite <-(zip_with_take_r pair answers texts).
  pose proof (lookup_lt_Some _ _ _ Ht). rewrite <-(take_drop_middle texts _ t Ht) at 1.
  rewrite zip_with_app by (rewrite length_take; lia). rewrite foldl_app. done.
Qed.

Definition inv (initial : option string) (es : list event) (p : preference) : Prop :=
  revision p = lengthZ (choices es)
  ∧ (loading p = None ∨ loading p = Some 0)
  ∧ (∀ v, last (choices es) = Some v → value p = v)
  ∧ chain p = drop (length (write_answers es)) (print <$> choices es)
  ∧ (length (write_answers es) <= length (choices es))%nat
  ∧ stored p = kept initial (write_answers es) (print <$> choices es).

Lemma choices_snoc es e : choices (es ++ [e]) = choices es ++ match e with Chosen v => [v] | _ => [] end.
Proof. unfold choices. rewrite omap_app. by destruct e. Qed.
Lemma answers_snoc es e : write_answers (es ++ [e]) = write_answers es ++ match e with WriteSettled ok => [ok] | _ => [] end.
Proof. unfold write_answers. rewrite omap_app. by destruct e. Qed.

Lemma inv_same initial es e p p' :
  (match e with Chosen _ | WriteSettled _ => False | _ => True end) →
  revision p' = revision p → (loading p' = None ∨ loading p' = loading p) → (choices es ≠ [] → value p' = value p) →
  chain p' = chain p → stored p' = stored p → inv initial es p → inv initial (es ++ [e]) p'.
Proof.
  intros He E1 E2 E3 E4 E5 (H1 & H2 & H3 & H4 & H5 & H6). unfold inv. rewrite choices_snoc, answers_snoc.
  assert (match e with Chosen v => [v] | _ => [] end = []) as -> by by destruct e.
  assert (match e with WriteSettled ok => [ok] | _ => [] end = []) as -> by by destruct e.
  rewrite !app_nil_r. split_and!; try congruence; [by destruct E2 as [|E2]; [left|rewrite E2]|].
  intros v Hv. rewrite E3; [by apply H3|]. intros Hn. by rewrite Hn in Hv.
Qed.

Lemma exec_inv initial es e p p' : inv initial es p → exec e p = Some p' → inv initial (es ++ [e]) p'.
Proof.
  intros Hinv. destruct e as [answer|v|ok|]; cbn [exec].
  - unfold loaded. destruct (loading p) as [r|] eqn:Hl; [|done]. pose proof Hinv as (H1 & H2 & _). rewrite Hl in H2.
    assert (r = 0) as -> by (destruct H2; congruence). destruct answer as [text|]; intros [= <-]; [|by apply (inv_same initial es _ p); try left].
    destruct (active p && _) eqn:Ha; [|by apply (inv_same initial es _ p); try left].
    apply andb_prop in Ha as [_ Ha]. simpl in Ha. rewrite H1 in Ha.
    assert (choices es = []) as Hn by (destruct (choices es); [done|unfold lengthZ in Ha; simpl in Ha; lia]).
    destruct (text ≫= parse) as [v|]; by apply (inv_same initial es _ p); try left.
  - intros [= <-]. destruct Hinv as (H1 & H2 & H3 & H4 & H5 & H6). unfold inv, persist. simpl. rewrite choices_snoc, answers_snoc, app_nil_r.
    rewrite fmap_app. split_and!.
    + rewrite H1, lengthZ_app. done.
    + done.
    + intros w. rewrite last_snoc. congruence.
    + rewrite drop_app_le by (by rewrite length_fmap). by rewrite H4.
    + rewrite length_app. lia.
    + rewrite H6. symmetry. apply kept_more. by rewrite length_fmap.
  - unfold write_settled. destruct (chain p) as [|text rest] eqn:Hc; [done|]. intros [= <-]. destruct Hinv as (H1 & H2 & H3 & H4 & H5 & H6).
    rewrite Hc in H4. assert ((print <$> choices es) !! length (write_answers es) = Some text) as Ht
      by (rewrite <-(Nat.add_0_r (length (write_answers es))), <-lookup_drop, <-H4; done).
    pose proof (lookup_lt_Some _ _ _ Ht) as Hlt. rewrite length_fmap in Hlt.
    unfold inv. rewrite choices_snoc, answers_snoc, app_nil_r, kept_snoc with (t := text) by done. rewrite length_app. simpl.
    rewrite <-drop_drop, <-H4. destruct ok; simpl; split_and!; done || lia.
  - intros [= <-]. by apply (inv_same initial es _ p); try right.
Qed.

Lemma run_inv initial es p : run initial es = Some p → inv initial es p.
Proof.
  revert p. unfold run. induction es as [|e es IH] using rev_ind; intros p; [intros [= <-]; split_and!; try done; by right|].
  rewrite foldl_app. simpl. destruct (foldl _ _ es) as [p0|]; [|done]. apply exec_inv. by apply IH.
Qed.

(** C31: what the user chooses last is what is shown, whenever the load of the old value
    completes, and the writes reach the storage one by one in the order of the choices:
    the unsettled ones are the last choices. When the writes are settled and the last one
    succeeded, the storage holds the last choice, and the next start shows it. *)
Theorem choice_is_kept initial es p v :
  run initial es = Some p → last (choices es) = Some v →
  value p = v
  ∧ chain p = drop (length (write_answers es)) (print <$> choices es)
  ∧ stored p = kept initial (write_answers es) (print <$> choices es)
  ∧ (chain p = [] → last (write_answers es) = Some true →
     stored p = Some (print v) ∧ value <$> run (stored p) [Loaded (Some (stored p))] = Some v).
Proof.
  intros (H1 & H2 & H3 & H4 & H5 & H6)%run_inv Hv. split_and!; [by apply H3|done|done|]. intros Hc Ha.
  assert (stored p = Some (print v)) as Hst.
  { apply last_Some in Ha as [answers Ha]. rewrite H6, Ha. rewrite Ha in H4, H5. rewrite H4 in Hc. rewrite length_app in H5, Hc. simpl in H5, Hc.
    assert (length answers + 1 = length (choices es))%nat as Hn
      by (pose proof (f_equal length Hc) as Hd; rewrite length_drop, length_fmap in Hd; simpl in Hd; lia).
    apply (kept_snoc _ _ _ true). rewrite list_lookup_fmap. replace (length answers) with (pred (length (choices es))) by lia.
    by rewrite <-last_lookup, Hv. }
  split; [done|]. rewrite Hst. cbn. by rewrite parse_print.
Qed.
End preference.
Arguments preference V : clear implicits.

(** The three preferences of a transfer. *)
(* src: app/hooks/useTransferPreferences.ts:67-74 [persistPreparationMode] *)
Definition persistPreparationMode : PreparationMode → preference PreparationMode → preference PreparationMode := persist.
(* src: app/hooks/useTransferPreferences.ts:76-86 [persistSkipExactDuplicates] *)
Definition persistSkipExactDuplicates : bool → preference bool → preference bool := persist (H := bool_preference true).
(* src: app/hooks/useTransferPreferences.ts:88-98 [persistIncludeAdditionalMediaComponents] *)
Definition persistIncludeAdditionalMediaComponents : bool → preference bool → preference bool := persist (H := bool_preference false).
(* src: app/hooks/useTransferPreferences.ts:54-61 [useTransferPreferences] *)
Definition loadSkipExactDuplicates : option (option string) → preference bool → option (preference bool) := loaded (H := bool_preference true).
(* src: app/hooks/useTransferPreferences.ts:43-53 [useTransferPreferences] *)
Definition loadIncludeAdditionalMediaComponents : option (option string) → preference bool → option (preference bool) :=
  loaded (H := bool_preference false).

(** The user chooses streaming and back before the old value is loaded. *)
Definition demo : list (event (V := PreparationMode)) :=
  [Chosen streaming; Chosen prepare_first; WriteSettled false; Loaded (Some (Some "streaming"%string)); WriteSettled true].
Definition demo_end : preference PreparationMode :=
  default (mounted None) (run (Some "streaming"%string) demo).
End TransferPreferences.

Lemma choice_is_kept_witness :
  TransferPreferences.value TransferPreferences.demo_end = prepare_first
  ∧ TransferPreferences.stored TransferPreferences.demo_end = Some "prepare-first"%string.
Proof.
  destruct (TransferPreferences.choice_is_kept (H := mode_preference) (Some "streaming"%string) TransferPreferences.demo TransferPreferences.demo_end prepare_first
    ltac:(vm_compute; reflexivity) ltac:(vm_compute; reflexivity)) as (Hv & _ & _ & Hs).
  split; [exact Hv|]. apply Hs; vm_compute; reflexivity.
Defined.

(** ** Preferences of the connection *)

Module ConnectionPreferences.
(** [writes]: the unsettled calls of [setItem]. *)
(* src: app/hooks/useConnectionPreferences.ts:7-13 [useConnectionPreferences] *)
Record preference := { value : bool; loading : bool; writes : list bool; stored : option string; errors : Z }.
#[export] Instance preference_eta : Eta preference := λ p,
  Build_preference (value p) (loading p) (writes p) (stored p) (errors p).

Definition mounted (stored : option string) : preference :=
  {| value := false; loading := true; writes := []; stored := stored; errors := 0 |}.

(* src: app/hooks/useConnectionPreferences.ts:24-31 [useConnectionPreferences] *)
Definition loaded (answer : option (option string)) (p : preference) : option preference :=
  if loading p then
    let p := p <| loading := false |> in
    Some (match answer with
          | Some text => p <| value := bool_decide (text = Some "true"%string) |>
          | None => p <| value := false |> <| errors := errors p + 1 |>
          end)
  else None.

(* src: app/hooks/useConnectionPreferences.ts:39-43 [persistAllowInsecureHttp] *)
Definition persist (enabled : bool) (p : preference) : preference := p <| value := enabled |> <| writes := writes p ++ [enabled] |>.

(* src: app/hooks/useConnectionPreferences.ts:41-42 [persistAllowInsecureHttp] *)
Definition write_settled (i : nat) (ok : bool) (p : preference) : option preference :=
  match writes p !! i with
  | None => None
  | Some enabled =>
      let p := p <| writes := delete i (writes p) |> in
      Some (if ok then p <| stored := Some (print_bool enabled) |> else p <| errors := errors p + 1 |>)
  end.

Inductive event := Loaded (answer : option (option string)) | Chosen (enabled : bool) | WriteSettled (i : nat) (ok : bool).

Definition exec (e : event) (p : preference) : option preference :=
  match e with
  | Loaded answer => loaded answer p
  | Chosen enabled => Some (persist enabled p)
  | WriteSettled i ok => write_settled i ok p
  end.

Definition run (stored : option string) (es : list event) : option preference :=
  foldl (λ p e, p ≫= exec e) (Some (mounted stored)) es.
Definition choices (es : list event) : list bool := omap (λ e, match e with Chosen b => Some b | _ => None end) es.

(** Both preferences of the connection. *)
(* src: app/hooks/useConnectionPreferences.ts:33-37 [persistNearbyDiscovery] *)
Definition persistNearbyDiscovery : bool → preference → preference := persist.
(* src: app/hooks/useConnectionPreferences.ts:15-22 [useConnectionPreferences] *)
Definition loadNearbyDiscovery : option (option string) → preference → option preference := loaded.

(** Unlike a preference of the transfer, one of the connection is shown as the old value
    says when that is loaded late, whatever the user chose since the start: so plain HTTP
    is allowed again after the user forbade it, though the storage was told not to allow it. *)
Lemma late_load_overrides_choice initial es p old :
  run initial es = Some p → loading p = true →
  ∃ p', run initial (es ++ [Loaded (Some old)]) = Some p' ∧ value p' = bool_decide (old = Some "true"%string)
    ∧ writes p' = writes p ∧ stored p' = stored p
    ∧ (∀ b, last (choices es) = Some b → value p = b).
Proof.
  intros Hr Hl. eexists. split_and!.
  - unfold run in *. rewrite foldl_app, Hr. simpl. unfold loaded. rewrite Hl. reflexivity.
  - done.
  - done.
  - done.
  - revert p Hr Hl. unfold run. induction es as [|e es IH] using rev_ind; intros p; [done|]. rewrite foldl_app. simpl.
    destruct (foldl _ _ es) as [p0|]; [|done]. simpl. intros Hx Hl b. unfold choices. rewrite omap_app. simpl.
    destruct e as [a|c|i ok]; cbn [exec] in Hx.
    + unfold loaded in Hx. destruct (loading p0); [|done]. injection Hx as <-. by destruct a.
    + injection Hx as <-. rewrite last_snoc. by intros [= <-].
    + unfold write_settled in Hx. destruct (writes p0 !! i); [|done]. injection Hx as <-. rewrite app_nil_r. intros Hb.
      destruct ok; apply (IH p0 eq_refl Hl b Hb).
Qed.
End ConnectionPreferences.

Lemma late_load_overrides_choice_witness :
  ∃ p, ConnectionPreferences.run (Some "true"%string)
         [ConnectionPreferences.Chosen false; ConnectionPreferences.WriteSettled 0 true; ConnectionPreferences.Loaded (Some (Some "true"%string))] = Some p
    ∧ ConnectionPreferences.value p = true ∧ ConnectionPreferences.stored p = Some "false"%string.
Proof.
  destruct (ConnectionPreferences.late_load_overrides_choice (Some "true"%string)
    [ConnectionPreferences.Chosen false; ConnectionPreferences.WriteSettled 0 true] _ (Some "true"%string) eq_refl eq_refl)
    as (p & Hr & Hv & _ & Hs & _).
  exists p. split; [exact Hr|]. split; [rewrite Hv; reflexivity|rewrite Hs; reflexivity].
Defined.
