(* ===== verification/Shell.v ===== *)
(** * The application around its screens ([app/AppShell.tsx], [app/AppNavigator.tsx],
      [app/hooks/useDiscoveryController.ts], [app/hooks/useAlertGate.ts])

    The alerts are those of [showAlertOnce] and [confirmOnce], each with what its buttons do
    to the shell ([useTrustedConnection.ts], [usePairingController.ts]).

    Which screen is shown, what a transfer is given, the desktops found nearby and the
    receiver trusted before. A handler's changes are rendered together; [commit] runs the
    effects whose inputs changed. Attempts to connect are those of [Connection]: here they
    succeed or fail at any time. [transferId]: which array of assets it is; [savedLoad]: a load of
    the trusted receiver that is still wanted. *)

From S2P Require Import Prelude Js UploadTypes Security Native Connection.
Import Connection (ScreenState(..), SavedConnection, parseSavedConnection).
Open Scope Z_scope.

Module Shell.

#[local] Instance screen_eq_dec : EqDecision ScreenState.
Proof. solve_decision. Defined.

(** ** Nearby desktops *)

(* src: app/hooks/useDiscoveryController.ts:4-7 [useDiscoveryController] *)
Record discovery := { discoveredServers : list DiscoveredServer; isDiscovering : bool; discoveryFailed : bool; searches : Z }.
#[export] Instance discovery_eta : Eta discovery := λ d,
  Build_discovery (discoveredServers d) (isDiscovering d) (discoveryFailed d) (searches d).

Section shell.
Context (nativeAvailable : bool).

(* src: app/hooks/useDiscoveryController.ts:9-12 [performDiscovery] *)
Definition performDiscovery (d : discovery) : discovery :=
  if negb nativeAvailable then d
  else d <| isDiscovering := true |> <| discoveryFailed := false |> <| searches := searches d + 1 |>.

(** [None]: the search failed. *)
(* src: app/hooks/useDiscoveryController.ts:13-21 [performDiscovery] *)
Definition discovery_answered (answer : option (list DiscoveredServer)) (d : discovery) : option discovery :=
  if searches d <=? 0 then None
  else
    let d := d <| searches := searches d - 1 |> in
    let d := match answer with
             | Some servers => d <| discoveredServers := servers |>
             | None => d <| discoveredServers := [] |> <| discoveryFailed := true |>
             end in
    Some (d <| isDiscovering := false |>).

(* src: app/hooks/useDiscoveryController.ts:28-31 [clearDiscoveredServers] *)
Definition clearDiscoveredServers (d : discovery) : discovery := d <| discoveredServers := [] |> <| discoveryFailed := false |>.

(** ** State *)

(** What a transfer is given besides its assets. *)
(* src: app/AppShell.tsx:26-34 [AppShell] *)
Record transfer_preferences := {
  preparationMode : PreparationMode; skipExactDuplicates : bool; includeAdditionalMediaComponents : bool }.
Definition default_preferences : transfer_preferences :=
  {| preparationMode := prepare_first; skipExactDuplicates := true; includeAdditionalMediaComponents := false |}.

(** An alert of the hooks that connect: one offers to scan a code or to give up after a failed
    reconnection, one offers to scan a code for a desktop that is not trusted, the others
    have no button that acts on the shell. *)
(* src: app/hooks/useTrustedConnection.ts:91-118 [connectTrusted] *)
Inductive other_alert := ReconnectFailed | ScanFirst | Notice.

(** The alert that is visible: the question of [updateNearbyDiscovery] or another one. *)
(* src: app/AppShell.tsx:210-217 [updateNearbyDiscovery] *)
Inductive shown_alert := NearbyQuestion | OtherAlert (a : other_alert).

(** The first button is the one that declines; [Dismissed]: [onDismiss]. *)
(* src: app/hooks/useAlertGate.ts:11-22 [showAlertOnce] *)
Inductive alert_answer := FirstButton | SecondButton | Dismissed.

(* src: app/AppShell.tsx:22-36 [AppShell] *)
Record shell := {
  appState : ScreenState;
  selectedAssets : list MediaAsset;
  transferId : Z;
  finishedTransfer : option Z;
  scanRequestId : Z;
  scanTimers : Z;
  scanRequests : Z;
  activeTransferPreferences : transfer_preferences;
  preferences : transfer_preferences;
  nearbyDiscoveryEnabled : bool;
  isServerConnected : bool;
  configured : bool;
  savedReceiver : option SavedConnection;
  savedLoad : bool;
  alert : option shown_alert;
  nearby : discovery;
  refreshes : Z }.

#[export] Instance shell_eta : Eta shell := λ s,
  Build_shell (appState s) (selectedAssets s) (transferId s) (finishedTransfer s) (scanRequestId s) (scanTimers s) (scanRequests s)
    (activeTransferPreferences s) (preferences s) (nearbyDiscoveryEnabled s) (isServerConnected s) (configured s) (savedReceiver s)
    (savedLoad s) (alert s) (nearby s) (refreshes s).

(** ** Effects *)

Definition loads_receiver (screen : ScreenState) : bool := match screen with screen_home | screen_connect => true | _ => false end.
Definition shows_history (screen : ScreenState) : bool := match screen with screen_home | screen_history => true | _ => false end.

(* src: app/AppShell.tsx:131-133 [AppShell] *)
Definition discovery_effect (old s : shell) : shell :=
  if bool_decide (appState s = appState old) && Bool.eqb (nearbyDiscoveryEnabled s) (nearbyDiscoveryEnabled old) then s
  else if bool_decide (appState s = screen_connect) && nearbyDiscoveryEnabled s then s <| nearby := performDiscovery (nearby s) |> else s.

(* src: app/AppShell.tsx:159-168 [AppShell] *)
Definition receiver_effect (old s : shell) : shell :=
  if bool_decide (appState s = appState old) then s else s <| savedLoad := loads_receiver (appState s) |>.

(* src: app/AppShell.tsx:170-174 [AppShell] *)
Definition history_effect (old s : shell) : shell :=
  if bool_decide (appState s = appState old) && Bool.eqb (isServerConnected s) (isServerConnected old) then s
  else if isServerConnected s && shows_history (appState s) then s <| refreshes := refreshes s + 1 |> else s.

Definition commit (old s : shell) : shell := history_effect old (receiver_effect old (discovery_effect old s)).

(** The first render; its effects run too. *)
Definition mounted : shell :=
  {| appState := screen_connect; selectedAssets := []; transferId := 0; finishedTransfer := None; scanRequestId := 0; scanTimers := 0; scanRequests := 0;
     activeTransferPreferences := default_preferences; preferences := default_preferences; nearbyDiscoveryEnabled := false;
     isServerConnected := false; configured := false; savedReceiver := None; savedLoad := true; alert := None;
     nearby := {| discoveredServers := []; isDiscovering := false; discoveryFailed := false; searches := 0 |}; refreshes := 0 |}.

(** ** Handlers *)

(* src: app/hooks/useAlertGate.ts:8-23 [showAlertOnce] *)
Definition showAlertOnce (a : shown_alert) (s : shell) : shell :=
  match alert s with Some _ => s | None => s <| alert := Some a |> end.

Definition set_assets (assets : list MediaAsset) (s : shell) : shell := s <| selectedAssets := assets |> <| transferId := transferId s + 1 |>.

(* src: app/AppShell.tsx:193-201 [handleTransfer] *)
Definition handleTransfer (assets : list MediaAsset) (s : shell) : shell :=
  set_assets assets (s <| activeTransferPreferences := preferences s |>) <| appState := screen_transfer |>.

(* src: app/AppShell.tsx:239-243 [onCompleteTransfer] *)
Definition onCompleteTransfer (s : shell) : shell :=
  let s := set_assets [] s <| appState := screen_home |> in s <| refreshes := refreshes s + 1 |>.

(** Whether the transfer that is shown is over. *)
(* src: app/AppNavigator.tsx:124-127 [handleTerminalStateChange] *)
Definition transferFinished (s : shell) : bool :=
  bool_decide (appState s = screen_transfer) && bool_decide (finishedTransfer s = Some (transferId s)).
Definition handleTerminalStateChange (finished : bool) (s : shell) : shell :=
  s <| finishedTransfer := if finished then Some (transferId s) else None |>.

(** [None]: the tab bar is locked. *)
(* src: app/AppNavigator.tsx:149-156 [selectTab] *)
Definition selectTab (tab : ScreenState) (s : shell) : option shell :=
  match appState s with
  | screen_picker => None
  | screen_transfer =>
      if negb (transferFinished s) then None
      else let s := onCompleteTransfer s in Some (if bool_decide (tab = screen_home) then s else s <| appState := tab |>)
  | _ => Some (s <| appState := tab |>)
  end.

(* src: app/AppShell.tsx:203-218 [updateNearbyDiscovery] *)
Definition updateNearbyDiscovery (enabled : bool) (s : shell) : shell :=
  if negb enabled then s <| nearbyDiscoveryEnabled := false |> <| nearby := clearDiscoveredServers (nearby s) |>
  else showAlertOnce NearbyQuestion s.

(** [setTimeout(requestQrScan, 500)]: nothing cancels the timer. *)
(* src: app/hooks/usePairingController.ts:118-124 [openQrScanner] *)
Definition openQrScanner (s : shell) : shell := s <| appState := screen_connect |> <| scanRequests := scanRequests s + 1 |>.

(** [button.onPress] of the buttons of the alerts. *)
(* src: app/hooks/useTrustedConnection.ts:97-118 [connectTrusted] *)
Definition pressed (a : shown_alert) (b : alert_answer) (s : shell) : shell :=
  match a, b with
  | NearbyQuestion, SecondButton => s <| nearbyDiscoveryEnabled := true |>
  | OtherAlert ReconnectFailed, FirstButton => s <| appState := screen_connect |>
  | OtherAlert ReconnectFailed, SecondButton | OtherAlert ScanFirst, SecondButton => openQrScanner s
  | _, _ => s
  end.

(* src: app/hooks/useAlertGate.ts:11-22 [showAlertOnce] *)
Definition alert_closed (b : alert_answer) (s : shell) : option shell :=
  match alert s with
  | None => None
  | Some a => Some (pressed a b (s <| alert := None |>))
  end.

(* src: app/AppShell.tsx:220-227 [handleDisconnect] *)
Definition handleDisconnect (s : shell) : shell :=
  s <| configured := false |> <| isServerConnected := false |> <| scanRequestId := 0 |> <| appState := screen_connect |>.

(** Besides, the stored receiver is removed. *)
(* src: app/AppShell.tsx:135-145 [AppShell] *)
Definition authentication_failed (s : shell) : shell := handleDisconnect s.

(** An attempt to connect that fails, and the alert it shows unless it is silent. *)
(* src: app/hooks/useTrustedConnection.ts:82-91 [connectTrusted] *)
Definition connect_failed (a : option other_alert) (s : shell) : shell :=
  let s := s <| configured := false |> <| isServerConnected := false |> in
  match a with Some a => showAlertOnce (OtherAlert a) s | None => s end.

(** Unencrypted HTTP is switched off while it is what the desktop is connected by. *)
(* src: app/hooks/usePairingController.ts:309-315 [updateAllowInsecureHttp] *)
Definition http_switched_off (s : shell) : shell :=
  showAlertOnce (OtherAlert Notice) (s <| configured := false |> <| isServerConnected := false |> <| appState := screen_connect |>).

(* src: app/AppShell.tsx:85-88 [requestQrScan] *)
Definition requestQrScan (s : shell) : shell := s <| appState := screen_connect |> <| scanTimers := scanTimers s + 1 |>.
(** The timer of [openQrScanner]. *)
(* src: app/AppShell.tsx:85-88 [requestQrScan] *)
Definition scan_requested (s : shell) : option shell :=
  if scanRequests s <=? 0 then None else Some (requestQrScan (s <| scanRequests := scanRequests s - 1 |>)).
(* src: app/AppShell.tsx:85-88 [requestQrScan] *)
Definition scan_timer (s : shell) : option shell :=
  if scanTimers s <=? 0 then None else Some (s <| scanTimers := scanTimers s - 1 |> <| scanRequestId := scanRequestId s + 1 |>).

(* src: app/AppShell.tsx:162-166 [AppShell] *)
Definition receiver_loaded (json : option jsval) (s : shell) : option shell :=
  if savedLoad s then Some (s <| savedLoad := false |> <| savedReceiver := parseSavedConnection json |>) else None.

Inductive shell_event :=
  | OpenPicker
  | Transfer (assets : list MediaAsset)
  | CancelPicker
  | CancelTransfer
  | CompleteTransfer
  | TerminalStateChange (finished : bool)
  | SelectTab (tab : ScreenState)
  | PreferencesChange (p : transfer_preferences)
  | NearbySwitch (enabled : bool)
  | NearbyLoaded (enabled : bool)
  | OtherAlertShown (a : other_alert)
  | AlertClosed (b : alert_answer)
  | RefreshDiscovery
  | DiscoveryAnswered (answer : option (list DiscoveredServer))
  | ConnectSucceeded
  | ConnectFailed (a : option other_alert)
  | HttpSwitchedOff
  | HealthReported (ok : bool)
  | AuthenticationFails
  | Disconnect
  | ScanRequestFires
  | ScanTimerFires
  | ReceiverLoaded (json : option jsval).

Definition is_tab (screen : ScreenState) : bool := match screen with screen_picker | screen_transfer => false | _ => true end.
Definition on_screen (screens : list ScreenState) (s : shell) (s' : shell) : option shell :=
  if bool_decide (appState s ∈ screens) then Some s' else None.

(** The handler of an event; [None]: not possible now. *)
(* src: app/AppShell.tsx:231-245 [AppShell] *)
Definition handle (e : shell_event) (s : shell) : option shell :=
  match e with
  | OpenPicker => on_screen [screen_home; screen_transfers] s (s <| appState := screen_picker |>)
  | Transfer assets => on_screen [screen_picker] s (handleTransfer assets s)
  | CancelPicker => on_screen [screen_picker] s (s <| appState := screen_home |>)
  | CancelTransfer => on_screen [screen_transfer] s (s <| appState := screen_home |>)
  | CompleteTransfer => on_screen [screen_transfer] s (onCompleteTransfer s)
  | TerminalStateChange finished => on_screen [screen_transfer] s (handleTerminalStateChange finished s)
  | SelectTab tab => if is_tab tab then selectTab tab s else None
  | PreferencesChange p => Some (s <| preferences := p |>)
  | NearbySwitch enabled => Some (updateNearbyDiscovery enabled s)
  | NearbyLoaded enabled => Some (s <| nearbyDiscoveryEnabled := enabled |>)
  | OtherAlertShown a => Some (showAlertOnce (OtherAlert a) s)
  | AlertClosed b => alert_closed b s
  | RefreshDiscovery => Some (if nearbyDiscoveryEnabled s then s <| nearby := performDiscovery (nearby s) |> else s)
  | DiscoveryAnswered answer => d ← discovery_answered answer (nearby s); Some (s <| nearby := d |>)
  | ConnectSucceeded => Some (s <| configured := true |> <| isServerConnected := true |> <| appState := screen_home |>)
  | ConnectFailed a => Some (connect_failed a s)
  | HttpSwitchedOff => Some (http_switched_off s)
  | HealthReported ok => Some (s <| isServerConnected := ok |>)
  | AuthenticationFails => Some (authentication_failed s)
  | Disconnect => Some (handleDisconnect s)
  | ScanRequestFires => scan_requested s
  | ScanTimerFires => scan_timer s
  | ReceiverLoaded json => receiver_loaded json s
  end.

Definition shell_exec (e : shell_event) (s : shell) : option shell := commit s <$> handle e s.
Definition shell_run (s0 : shell) (es : list shell_event) : option shell := foldl (λ s e, s ≫= shell_exec e) (Some s0) es.

(** What the navigator is given. *)
(* src: app/AppShell.tsx:263-271 [AppShell] *)
Definition shown_preferences (s : shell) : transfer_preferences :=
  if bool_decide (appState s = screen_transfer) then activeTransferPreferences s else preferences s.

(** ** Theorems *)

(** What rendering does not change. *)
Lemma commit_spec old s :
  let s' := commit old s in
  appState s' = appState s ∧ selectedAssets s' = selectedAssets s ∧ transferId s' = transferId s
  ∧ finishedTransfer s' = finishedTransfer s ∧ activeTransferPreferences s' = activeTransferPreferences s
  ∧ preferences s' = preferences s ∧ nearbyDiscoveryEnabled s' = nearbyDiscoveryEnabled s.
Proof.
  assert (∀ s, let s' := history_effect old s in appState s' = appState s ∧ selectedAssets s' = selectedAssets s ∧ transferId s' = transferId s
    ∧ finishedTransfer s' = finishedTransfer s ∧ activeTransferPreferences s' = activeTransferPreferences s
    ∧ preferences s' = preferences s ∧ nearbyDiscoveryEnabled s' = nearbyDiscoveryEnabled s) as Hh
    by (intros x; unfold history_effect; destruct (_ && _); [done|]; by destruct (_ && _)).
  unfold commit. specialize (Hh (receiver_effect old (discovery_effect old s))). cbn zeta in *. destruct Hh as (-> & -> & -> & -> & -> & -> & ->).
  unfold receiver_effect, discovery_effect. destruct (bool_decide _ && Bool.eqb _ _); [by destruct (bool_decide _)|].
  destruct (bool_decide _ && nearbyDiscoveryEnabled s); by destruct (bool_decide _).
Qed.

(** What leaves the screen of a transfer, besides a tab when it is over: the screen's own
    buttons, a connection made or lost, and the way to the scanner of codes, by the button of
    an alert about connecting or by the timer an earlier such button has set. *)
Definition leaves (e : shell_event) (s : shell) : bool :=
  match e with
  | CancelTransfer | CompleteTransfer | ConnectSucceeded | HttpSwitchedOff | AuthenticationFails | Disconnect | ScanRequestFires => true
  | AlertClosed b =>
      match alert s, b with
      | Some (OtherAlert ReconnectFailed), (FirstButton | SecondButton) => true
      | Some (OtherAlert ScanFirst), SecondButton => true
      | _, _ => false
      end
  | _ => false
  end.

Definition same_transfer (s s' : shell) : Prop :=
  appState s' = screen_transfer ∧ selectedAssets s' = selectedAssets s ∧ transferId s' = transferId s
  ∧ activeTransferPreferences s' = activeTransferPreferences s.

Lemma on_screen_some screens s x s' : on_screen screens s x = Some s' → appState s ∈ screens ∧ s' = x.
Proof. unfold on_screen. case_bool_decide; [|done]. by intros [= <-]. Qed.

Lemma handle_in_transfer e s s' :
  appState s = screen_transfer → handle e s = Some s' →
  (same_transfer s s' ∧ (finishedTransfer s' = finishedTransfer s ∨ e = TerminalStateChange false ∧ finishedTransfer s' = None
                         ∨ e = TerminalStateChange true ∧ finishedTransfer s' = Some (transferId s)))
  ∨ leaves e s = true ∨ ∃ tab, e = SelectTab tab ∧ transferFinished s = true.
Proof.
  intros Hs. destruct e as [|assets| | | |finished|tab|p|enabled|enabled|a|b| |answer| |a| |ok| | | | |json]; cbn [handle leaves]; intros He;
    try (right; left; reflexivity).
  - apply on_screen_some in He as [He _]. rewrite Hs in He. set_solver.
  - apply on_screen_some in He as [He _]. rewrite Hs in He. set_solver.
  - apply on_screen_some in He as [He _]. rewrite Hs in He. set_solver.
  - apply on_screen_some in He as [_ ->]. left. split; [done|]. destruct finished; simpl; auto.
  - right. right. exists tab. split; [done|]. destruct (is_tab tab); [|done]. unfold selectTab in He. rewrite Hs in He.
    by destruct (transferFinished s).
  - injection He as <-. left. split; [done|by left].
  - injection He as <-. left. unfold updateNearbyDiscovery, showAlertOnce. destruct (negb enabled); [split; [done|by left]|].
    destruct (alert s); (split; [done|by left]).
  - injection He as <-. left. split; [done|by left].
  - injection He as <-. left. unfold showAlertOnce. destruct (alert s); (split; [done|by left]).
  - unfold alert_closed in He. destruct (alert s) as [a|]; [|done]. injection He as <-.
    destruct a as [|[]], b; first [right; left; reflexivity|left; split; [done|by left]].
  - injection He as <-. left. destruct (nearbyDiscoveryEnabled s); (split; [done|by left]).
  - destruct (discovery_answered answer (nearby s)); [|done]. injection He as <-. left. split; [done|by left].
  - injection He as <-. left. unfold connect_failed, showAlertOnce. destruct a; simpl; [destruct (alert s)|]; (split; [done|by left]).
  - injection He as <-. left. split; [done|by left].
  - unfold scan_timer in He. destruct (scanTimers s <=? 0); [done|]. injection He as <-. left. split; [done|by left].
  - unfold receiver_loaded in He. destruct (savedLoad s); [|done]. injection He as <-. left. split; [done|by left].
Qed.

Lemma shell_run_snoc s0 es e : shell_run s0 (es ++ [e]) = shell_run s0 es ≫= shell_exec e.
Proof. unfold shell_run. by rewrite foldl_app. Qed.

Lemma exec_some e s s' : shell_exec e s = Some s' → ∃ x, handle e s = Some x ∧ s' = commit s x.
Proof. unfold shell_exec. destruct (handle e s) as [x|]; [|done]. intros [= <-]. by exists x. Qed.

(** Arrays of assets are new: the one that was finished last is none to come. *)
Definition finished_before (s : shell) : Prop := ∀ n, finishedTransfer s = Some n → n <= transferId s.

Lemma handle_finished e s s' : finished_before s → handle e s = Some s' → finished_before s'.
Proof.
  unfold finished_before. intros Hf. destruct e as [|assets| | | |finished|tab|p|enabled|enabled|a|b| |answer| |a| |ok| | | | |json]; cbn [handle]; intros He.
  all: try (apply on_screen_some in He as [_ ->]; simpl; try exact Hf; intros n Hn; specialize (Hf n Hn); lia).
  all: try (injection He as <-; exact Hf).
  - apply on_screen_some in He as [_ ->]. destruct finished; simpl; [intros n [= <-]; lia|done].
  - destruct (is_tab tab); [|done]. unfold selectTab in He.
    destruct (appState s); try (injection He as <-; exact Hf); [done|].
    destruct (negb (transferFinished s)); [done|]. injection He as <-. destruct (bool_decide _); simpl; intros n Hn; specialize (Hf n Hn); lia.
  - injection He as <-. unfold updateNearbyDiscovery, showAlertOnce. destruct (negb enabled); [exact Hf|]. by destruct (alert s).
  - injection He as <-. unfold showAlertOnce. by destruct (alert s).
  - unfold alert_closed in He. destruct (alert s) as [a|]; [|done]. injection He as <-. destruct a as [|[]], b; exact Hf.
  - injection He as <-. by destruct (nearbyDiscoveryEnabled s).
  - destruct (discovery_answered answer (nearby s)); [|done]. injection He as <-. exact Hf.
  - injection He as <-. unfold connect_failed, showAlertOnce. destruct a; simpl; [destruct (alert s)|]; exact Hf.
  - injection He as <-. unfold http_switched_off, showAlertOnce. simpl. by destruct (alert s).
  - unfold scan_requested in He. destruct (scanRequests s <=? 0); [done|]. injection He as <-. exact Hf.
  - unfold scan_timer in He. destruct (scanTimers s <=? 0); [done|]. injection He as <-. exact Hf.
  - unfold receiver_loaded in He. destruct (savedLoad s); [|done]. injection He as <-. exact Hf.
Qed.

Lemma run_finished es s : shell_run mounted es = Some s → finished_before s.
Proof.
  revert s. induction es as [|e es IH] using rev_ind; intros s; [by intros [= <-]|]. rewrite shell_run_snoc.
  destruct (shell_run mounted es) as [s0|]; [|done]. simpl. intros (x & Hx & ->)%exec_some.
  destruct (commit_spec s0 x) as (_ & _ & Ht & Hf & _). unfold finished_before. rewrite Ht, Hf. by apply (handle_finished e s0), Hx; apply IH.
Qed.

(** A transfer of [assets] is shown since the state [s1], with [es] since. *)
Record in_transfer (s1 : shell) (assets : list MediaAsset) (es : list shell_event) (s : shell) : Prop := {
  it_screen : appState s = screen_transfer;
  it_assets : selectedAssets s = assets;
  it_id : transferId s = transferId s1 + 1;
  it_preferences : activeTransferPreferences s = preferences s1;
  it_finished n : finishedTransfer s = Some n → n <= transferId s1 ∨ TerminalStateChange true ∈ es }.

Lemma transfer_started s1 assets s :
  finished_before s1 → shell_exec (Transfer assets) s1 = Some s → in_transfer s1 assets [] s.
Proof.
  intros Hf (x & Hx & ->)%exec_some. simpl in Hx. apply on_screen_some in Hx as [_ ->].
  destruct (commit_spec s1 (handleTransfer assets s1)) as (E1 & E2 & E3 & E4 & E5 & _).
  split; rewrite ?E1, ?E2, ?E3, ?E4, ?E5; try done. intros n Hn. left. by apply Hf.
Qed.

Lemma transfer_goes_on s1 assets es s e s' :
  in_transfer s1 assets es s → shell_exec e s = Some s' → appState s' = screen_transfer →
  leaves e s = false → (∀ tab, e = SelectTab tab → transferFinished s = false) → in_transfer s1 assets (es ++ [e]) s'.
Proof.
  intros [Hs Ha Hi Hp Hf] (x & Hx & ->)%exec_some Hs' Hl Ht.
  destruct (commit_spec s x) as (E1 & E2 & E3 & E4 & E5 & _).
  destruct (handle_in_transfer e s x Hs Hx) as [[(X1 & X2 & X3 & X4) X5]|[Hl'|(tab & -> & Hfin)]]; [|congruence|by rewrite (Ht tab eq_refl) in Hfin].
  split; rewrite ?E1, ?E2, ?E3, ?E4, ?E5; [congruence..|].
  intros n Hn. destruct X5 as [X5|[[-> X5]|[-> X5]]].
  - rewrite X5 in Hn. destruct (Hf n Hn) as [?|?]; [by left|right; set_solver].
  - congruence.
  - right. set_solver.
Qed.

Lemma leaving_leaves e s s' :
  appState s = screen_transfer → shell_exec e s = Some s' → leaves e s = true ∨ (∃ tab, e = SelectTab tab ∧ transferFinished s = true) →
  appState s' ≠ screen_transfer.
Proof.
  intros Hs (x & Hx & ->)%exec_some Hl. destruct (commit_spec s x) as (-> & _). destruct Hl as [Hl|(tab & -> & Hfin)].
  - destruct e as [| | | | | | | | | | |b| | | | | | | | | | |]; try done; cbn [handle leaves] in Hx, Hl; try (apply on_screen_some in Hx as [_ ->]; done);
      try (by injection Hx as <-).
    + unfold alert_closed in Hx. destruct (alert s) as [[|[]]|]; try done; destruct b; try done; by injection Hx as <-.
    + injection Hx as <-. unfold http_switched_off, showAlertOnce. simpl. by destruct (alert s).
    + unfold scan_requested in Hx. destruct (scanRequests s <=? 0); [done|]. by injection Hx as <-.
  - cbn [handle] in Hx. destruct (is_tab tab) eqn:Htab; [|done]. unfold selectTab in Hx. rewrite Hs, Hfin in Hx. simpl in Hx.
    injection Hx as <-. case_bool_decide; simpl; [done|]. by intros ->.
Qed.

(** C30: what a running transfer is given stays the same. From the tap that starts it on, as
    long as its screen is shown, the assets, their identity and the preferences it reads are
    those of the tap, whatever preferences are changed or loaded meanwhile and whatever else
    happens; so its effect never starts over. Its screen is left only by cancelling or
    completing it, by a connection made or lost (also when unencrypted HTTP is switched off),
    by the button of an alert about connecting or the request for a scan it set off, or by a
    tab once the transfer itself has reported its end: until then the tab bar is locked. *)
Theorem transfer_inputs_stay es1 s1 assets es2 s :
  shell_run mounted es1 = Some s1 → shell_run s1 (Transfer assets :: es2) = Some s →
  (∀ es3 es4 s3, es2 = es3 ++ es4 → shell_run s1 (Transfer assets :: es3) = Some s3 → appState s3 = screen_transfer) →
  selectedAssets s = assets ∧ transferId s = transferId s1 + 1 ∧ shown_preferences s = preferences s1
  ∧ (transferFinished s = true → TerminalStateChange true ∈ es2)
  ∧ ∀ e s', shell_exec e s = Some s' → appState s' ≠ screen_transfer →
      leaves e s = true ∨ ∃ tab, e = SelectTab tab ∧ transferFinished s = true.
Proof.
  intros Hrun1 Hrun2 Hstay. pose proof (run_finished es1 s1 Hrun1) as Hf1.
  assert (in_transfer s1 assets es2 s) as [Hs Ha Hi Hp Hf].
  { revert s Hrun2 Hstay. induction es2 as [|e es2 IH] using rev_ind; intros s Hrun2 Hstay.
    - by apply transfer_started.
    - rewrite app_comm_cons, shell_run_snoc in Hrun2. destruct (shell_run s1 (Transfer assets :: es2)) as [s0|] eqn:E; [|done].
      simpl in Hrun2. assert (in_transfer s1 assets es2 s0) as H0.
      { apply IH; [done|]. intros es3 es4 s3 -> H3. apply (Hstay es3 (es4 ++ [e]) s3); [by rewrite app_assoc|done]. }
      assert (appState s = screen_transfer) as Hs.
      { apply (Hstay (es2 ++ [e]) []); [by rewrite app_nil_r|]. rewrite app_comm_cons, shell_run_snoc, E. done. }
      pose proof (leaving_leaves e s0 s (it_screen _ _ _ _ H0) Hrun2) as Hl. apply (transfer_goes_on s1 assets es2 s0); try done.
      + destruct (leaves e s0) eqn:Hlv; [|done]. exfalso. apply Hl; [by left|done].
      + intros tab ->. destruct (transferFinished s0); [|done]. exfalso. apply Hl; [right; by exists tab|done]. }
  split; [done|]. split; [done|]. split; [unfold shown_preferences; by rewrite bool_decide_true|]. split.
  - unfold transferFinished. rewrite Hs, bool_decide_true by done. simpl. intros Hn%bool_decide_eq_true.
    destruct (Hf _ Hn) as [Hle|]; [lia|done].
  - intros e s' He Hne. destruct (exec_some e s s' He) as (x & Hx & ->). destruct (commit_spec s x) as (E1 & _). rewrite E1 in Hne.
    destruct (handle_in_transfer e s x Hs Hx) as [[(X1 & _) _]|Hl]; [by rewrite X1 in Hne|done].
Qed.

(** Nearby discovery is switched on by the button of the question only, or by what is stored. *)
Lemma nearby_needs_consent e s s' :
  shell_exec e s = Some s' → nearbyDiscoveryEnabled s = false → nearbyDiscoveryEnabled s' = true →
  (e = AlertClosed SecondButton ∧ alert s = Some NearbyQuestion) ∨ e = NearbyLoaded true.
Proof.
  intros (x & Hx & ->)%exec_some Hoff. destruct (commit_spec s x) as (_ & _ & _ & _ & _ & _ & ->). intros Hon. revert Hx.
  destruct e as [|assets| | | |finished|tab|p|enabled|enabled|a|b| |answer| |a| |ok| | | | |json]; cbn [handle]; intros Hx.
  all: try (apply on_screen_some in Hx as [_ ->]; try destruct finished; simpl in Hon; congruence).
  all: try (injection Hx as <-; simpl in Hon; congruence).
  - destruct (is_tab tab); [|done]. unfold selectTab in Hx. destruct (appState s); try (injection Hx as <-; simpl in Hon; congruence); [done|].
    destruct (negb _); [done|]. injection Hx as <-. destruct (bool_decide _); simpl in Hon; congruence.
  - injection Hx as <-. unfold updateNearbyDiscovery, showAlertOnce in Hon. destruct enabled; simpl in Hon; [destruct (alert s); simpl in Hon|]; congruence.
  - injection Hx as <-. simpl in Hon. subst. by right.
  - injection Hx as <-. unfold showAlertOnce in Hon. destruct (alert s); simpl in Hon; congruence.
  - unfold alert_closed in Hx. destruct (alert s) as [a|]; [|done]. injection Hx as <-.
    destruct a as [|[]], b; simpl in Hon; try congruence. by left.
  - injection Hx as <-. rewrite Hoff in Hon. simpl in Hon. congruence.
  - destruct (discovery_answered answer (nearby s)); [|done]. injection Hx as <-. simpl in Hon. congruence.
  - injection Hx as <-. unfold connect_failed, showAlertOnce in Hon. destruct a; simpl in Hon; [destruct (alert s); simpl in Hon|]; congruence.
  - injection Hx as <-. unfold http_switched_off, showAlertOnce in Hon. simpl in Hon. destruct (alert s); simpl in Hon; congruence.
  - unfold scan_requested in Hx. destruct (scanRequests s <=? 0); [done|]. injection Hx as <-. simpl in Hon. congruence.
  - unfold scan_timer in Hx. destruct (scanTimers s <=? 0); [done|]. injection Hx as <-. simpl in Hon. congruence.
  - unfold receiver_loaded in Hx. destruct (savedLoad s); [|done]. injection Hx as <-. simpl in Hon. congruence.
Qed.

(** A search that is answered after discovery was switched off fills the list again, and the
    first of two answers ends the searching that is shown. *)
Lemma late_search_refills s servers d :
  discovery_answered (Some servers) (nearby (updateNearbyDiscovery false s)) = Some d →
  discoveredServers (nearby (updateNearbyDiscovery false s)) = [] ∧ discoveredServers d = servers
  ∧ ∀ d', nativeAvailable = true → discovery_answered (Some servers) (performDiscovery (nearby s)) = Some d' →
      searches d' = searches (nearby s) ∧ isDiscovering d' = false.
Proof.
  unfold discovery_answered. simpl. destruct (searches (nearby s) <=? 0); [done|]. intros [= <-]. split; [done|]. split; [done|].
  intros d' Hn. unfold performDiscovery. rewrite Hn. simpl. destruct (_ <=? 0); [done|]. intros [= <-]. simpl. split; [lia|done].
Qed.
End shell.

(** A transfer during which the connection is lost and a preference is changed. *)
Definition sample_asset : MediaAsset := {| asset_id := "a1"; asset_uri := "ph://a1"; asset_type := photo; asset_filename := "A.HEIC" |}.
Definition changed_preferences : transfer_preferences :=
  {| preparationMode := streaming; skipExactDuplicates := false; includeAdditionalMediaComponents := true |}.
Definition sample_before : list shell_event := [ConnectSucceeded; OpenPicker].
Definition sample_during : list shell_event := [PreferencesChange changed_preferences; HealthReported false; TerminalStateChange true].
Definition sample_start : shell := default mounted (shell_run true mounted sample_before).
Definition sample_end : shell := default mounted (shell_run true sample_start (Transfer [sample_asset] :: sample_during)).

Lemma transfer_inputs_stay_witness :
  shell_run true sample_start (Transfer [sample_asset] :: sample_during) = Some sample_end
  ∧ selectedAssets sample_end = [sample_asset] ∧ shown_preferences sample_end = default_preferences
  ∧ preferences sample_end = changed_preferences ∧ transferFinished sample_end = true.
Proof.
  assert (shell_run true sample_start (Transfer [sample_asset] :: sample_during) = Some sample_end) as Hrun by (vm_compute; reflexivity).
  split; [exact Hrun|].
  destruct (transfer_inputs_stay true sample_before sample_start [sample_asset] sample_during sample_end) as (Ha & _ & Hp & _).
  - vm_compute. reflexivity.
  - exact Hrun.
  - intros es3 es4 s3 Heq H3. unfold sample_during in Heq.
    do 3 (destruct es3 as [|event es3]; [vm_compute in H3; injection H3 as H3; rewrite <-H3; reflexivity|];
          injection Heq as Hevent Heq; subst event).
    destruct es3 as [|event es3]; [|discriminate Heq]. vm_compute in H3. injection H3 as H3. rewrite <-H3. reflexivity.
  - split; [exact Ha|]. split; [exact Hp|]. split; vm_compute; reflexivity.
Defined.
End Shell.
