(* ===== verification/Browser.v ===== *)
(** * The browser's upload manager: its state ([upload/manager.js] of [src/src/Server/static/js])

    The page a desktop serves to phones and computers without the app queues files and
    uploads them with a few workers. [browser_manager] has the fields of [UploadManager] that
    its own code reads; a file of the queue ([queued]) is an object that queue, workers and
    preflight share, and is named by its index, since the queue does not change while they
    run. Elements of the page, texts and log events are left out. Byte counts and times are
    integers, speeds exact rationals. *)

From Stdlib Require Import QArith Qcanon.
From S2P Require Import Prelude Js.
Open Scope Z_scope.

(** ** Limits *)

Module BrowserLimits.
(* src: src/src/Server/static/js/core/transfer-limits.js:3-3 [MaxChunksPerFile] *)
Definition MaxChunksPerFile : Z := 10000.
(* src: src/src/Server/static/js/core/transfer-limits.js:4-4 [MaxFileBytes] *)
Definition MaxFileBytes : Z := 107374182400.
(* src: src/src/Server/static/js/core/transfer-limits.js:6-6 [NativeChunkBytes] *)
Definition NativeChunkBytes : Z := 8388608.
(* src: src/src/Server/static/js/core/transfer-limits.js:8-8 [WholeFileBytes] *)
Definition WholeFileBytes : Z := 104857600.
(* src: src/src/Server/static/js/core/transfer-limits.js:9-9 [MaxChunkBytes] *)
Definition MaxChunkBytes : Z := 67108864.
End BrowserLimits.

(** ** Files of the queue and the manager *)

(** The measurements of a file's requests; the durations a desktop reports are rational. *)
(* src: src/src/Server/static/js/upload/workers.js:420-427 [recordRequestTiming] *)
Record transfer_timing := {
  requestCount : Z; requestDurationMs : Z; serverDurationMs : Qc; serverWriteDurationMs : Qc;
  serverFinalizeDurationMs : Qc; maxRequestDurationMs : Z }.

(** [speedEpoch_]: [_speedEpoch], absent until a speed is recorded. [serverResult] is
    [undefined] until the upload ends. *)
(* src: src/src/Server/static/js/upload/manager.js:421-426 [addFiles] *)
Record queued := {
  q_id : string;
  q_name : string;
  q_size : Z;
  q_running : bool;
  q_done : bool;
  lastLoaded : Z;
  lastTime : Z;
  q_speed : Qc;
  q_speedEpoch : option Z;
  uploadedBytes : Z;
  completedBytes : Z;
  q_failed : bool;
  q_skipped : bool;
  preflightSkipped : bool;
  serverResult : jsval;
  transferTiming : option transfer_timing;
  lastUIUpdate : Z }.

#[export] Instance queued_eta : Eta queued := λ q,
  Build_queued (q_id q) (q_name q) (q_size q) (q_running q) (q_done q) (lastLoaded q) (lastTime q) (q_speed q)
    (q_speedEpoch q) (uploadedBytes q) (completedBytes q) (q_failed q) (q_skipped q) (preflightSkipped q)
    (serverResult q) (transferTiming q) (lastUIUpdate q).

(** [currentPhase]. *)
Inductive run_phase := phase_idle | phase_checking | phase_uploading | phase_verifying | phase_complete.

(* src: src/src/Server/static/js/upload/manager.js:9-46 [UploadManager] *)
Record browser_manager := {
  isMobile : bool;
  CONCURRENCY : Z;
  SINGLE_FILE_MAX_BYTES : Z;
  chunkSizeBytes : Z;
  fileQueue : list queued;
  running : Z;
  successCount : Z;
  errorCount : Z;
  totalBytes : Z;
  startTime : option Z;
  displaySpeedEMA : Qc;
  lastSpeedReportTs : Z;
  lastProgressTs : Z;
  isUploadInProgress : bool;
  checkDurationMs : Z;
  uploadDurationMs : Z;
  skippedBytes : Z;
  networkBytesUploaded : Z;
  peakSpeedBytesPerSecond : Qc;
  retryCount : Z;
  currentPhase : run_phase;
  nextUploadIndex : nat;
  pendingCount : Z;
  globalUploadedBytes : Z;
  globalCompletedBytes : Z;
  activeSpeedSum : Qc;
  speedEpoch : Z }.

#[export] Instance browser_manager_eta : Eta browser_manager := λ m,
  Build_browser_manager (isMobile m) (CONCURRENCY m) (SINGLE_FILE_MAX_BYTES m) (chunkSizeBytes m) (fileQueue m)
    (running m) (successCount m) (errorCount m) (totalBytes m) (startTime m) (displaySpeedEMA m) (lastSpeedReportTs m)
    (lastProgressTs m) (isUploadInProgress m) (checkDurationMs m) (uploadDurationMs m) (skippedBytes m)
    (networkBytesUploaded m) (peakSpeedBytesPerSecond m) (retryCount m) (currentPhase m) (nextUploadIndex m)
    (pendingCount m) (globalUploadedBytes m) (globalCompletedBytes m) (activeSpeedSum m) (speedEpoch m).

Definition MiB : Z := 1048576.

(* src: src/src/Server/static/js/upload/manager.js:9-46 [UploadManager] *)
Definition browser_initial (mobile : bool) : browser_manager :=
  {| isMobile := mobile; CONCURRENCY := 4; SINGLE_FILE_MAX_BYTES := BrowserLimits.WholeFileBytes;
     chunkSizeBytes := 16 * MiB; fileQueue := []; running := 0; successCount := 0; errorCount := 0; totalBytes := 0;
     startTime := None; displaySpeedEMA := 0; lastSpeedReportTs := 0; lastProgressTs := 0; isUploadInProgress := false;
     checkDurationMs := 0; uploadDurationMs := 0; skippedBytes := 0; networkBytesUploaded := 0;
     peakSpeedBytesPerSecond := 0; retryCount := 0; currentPhase := phase_idle; nextUploadIndex := 0; pendingCount := 0;
     globalUploadedBytes := 0; globalCompletedBytes := 0; activeSpeedSum := 0; speedEpoch := 0 |}.

(** Changing the [k]-th file of the queue, which is the file a reference names. *)
Definition at_file (k : nat) (f : queued → queued) (m : browser_manager) : browser_manager :=
  m <| fileQueue := alter f k (fileQueue m) |>.

Definition file_at (k : nat) (m : browser_manager) : option queued := fileQueue m !! k.

(** ** Byte counters *)

(** [Number.isFinite(loaded) ? Math.max(0, Math.min(loaded, size)) : 0]; [None] is no
    finite number. *)
Definition safe_loaded (loaded : option Z) (size : Z) : Z :=
  match loaded with Some loaded => Z.max 0 (Z.min loaded size) | None => 0 end.

(* src: src/src/Server/static/js/upload/manager.js:184-207 [updateFileTransferProgress] *)
Definition updateFileTransferProgress (k : nat) (loadedBytes : option Z) (m : browser_manager) : browser_manager :=
  match file_at k m with
  | None => m
  | Some file =>
      let safeLoaded := safe_loaded loadedBytes (q_size file) in
      let nextUploaded := Z.max (uploadedBytes file) safeLoaded in
      let nextCompleted := Z.max (completedBytes file) safeLoaded in
      let uploadDelta := Z.max 0 (nextUploaded - uploadedBytes file) in
      let completedDelta := Z.max 0 (nextCompleted - completedBytes file) in
      let m := if 0 <? uploadDelta then
                 m <| globalUploadedBytes := globalUploadedBytes m + uploadDelta |>
                   <| networkBytesUploaded := globalUploadedBytes m + uploadDelta |>
               else m in
      let m := if 0 <? completedDelta then m <| globalCompletedBytes := globalCompletedBytes m + completedDelta |> else m in
      at_file k (λ file, file <| uploadedBytes := nextUploaded |> <| completedBytes := nextCompleted |>) m
  end.

(* src: src/src/Server/static/js/upload/manager.js:209-224 [markFileCompletedWithoutUpload] *)
Definition markFileCompletedWithoutUpload (k : nat) (completed : option Z) (m : browser_manager) : browser_manager :=
  match file_at k m with
  | None => m
  | Some file =>
      let safeCompleted := match completed with Some c => Z.max 0 (Z.min c (q_size file)) | None => q_size file end in
      let completedDelta := Z.max 0 (safeCompleted - completedBytes file) in
      let m := if 0 <? completedDelta then m <| globalCompletedBytes := globalCompletedBytes m + completedDelta |> else m in
      at_file k (λ file, file <| completedBytes := safeCompleted |>) m
  end.

(** ** Speeds *)

Definition Qcmax (a b : Qc) : Qc := if Qclt_le_dec a b then b else a.
Definition positive_or_zero (q : Qc) : Qc := if Qclt_le_dec 0 q then q else 0%Qc.

(** [file._speedEpoch === this.speedEpoch ? file._speed : 0]. *)
Definition current_speed (epoch : Z) (file : queued) : Qc :=
  if bool_decide (q_speedEpoch file = Some epoch) then q_speed file else 0%Qc.

(* src: src/src/Server/static/js/upload/manager.js:226-237 [updateFileSpeed] *)
Definition updateFileSpeed (k : nat) (bytesPerSecond : Qc) (m : browser_manager) : browser_manager :=
  match file_at k m with
  | None => m
  | Some file =>
      let previousSpeed := current_speed (speedEpoch m) file in
      let nextSpeed := positive_or_zero bytesPerSecond in
      at_file k (λ file, file <| q_speed := nextSpeed |> <| q_speedEpoch := Some (speedEpoch m) |>)
        (m <| activeSpeedSum := Qcmax 0 (activeSpeedSum m + nextSpeed - previousSpeed)%Qc |>)
  end.

(* src: src/src/Server/static/js/upload/manager.js:239-241 [clearFileSpeed] *)
Definition clearFileSpeed (k : nat) (m : browser_manager) : browser_manager := updateFileSpeed k 0 m.

(* src: src/src/Server/static/js/upload/manager.js:243-254 [getCurrentSpeedForDisplay] *)
Definition getCurrentSpeedForDisplay (now : Z) (m : browser_manager) : browser_manager * Qc :=
  let idleMs := now - lastProgressTs m in
  let hasRecentProgress := idleMs <=? 2000 in
  let m := if negb hasRecentProgress && (if Qclt_le_dec 0 (activeSpeedSum m) then true else false)
           then m <| activeSpeedSum := 0%Qc |> <| speedEpoch := speedEpoch m + 1 |> else m in
  let m := if 5000 <=? idleMs then m <| displaySpeedEMA := 0%Qc |> else m in
  (m, if hasRecentProgress then activeSpeedSum m else 0%Qc).

Definition AGG_ALPHA : Qc := Q2Qc (1 # 5).
Definition SPEED_WINDOW_MS : Z := 2000.
Definition Qc_of_Z (z : Z) : Qc := Q2Qc (inject_Z z).

(** The smoothed speed; the caller stores it. *)
(* src: src/src/Server/static/js/ui/progress.js:268-294 [updateCurrentSpeedDisplay] *)
Definition updateCurrentSpeedDisplay (currentInstantSpeed displaySpeedEMA : Qc) : Qc :=
  let safeInstantSpeed := positive_or_zero currentInstantSpeed in
  if Qclt_le_dec 0 safeInstantSpeed then (displaySpeedEMA * (1 - AGG_ALPHA) + safeInstantSpeed * AGG_ALPHA)%Qc
  else let decayed := (displaySpeedEMA * Q2Qc (3 # 5))%Qc in if Qclt_le_dec decayed 1 then 0%Qc else decayed.

(** [manager.displaySpeedEMA = updateCurrentSpeedDisplay(manager.getCurrentSpeedForDisplay(), manager.displaySpeedEMA, ...)].
    The second argument is read after the first call. *)
(* src: src/src/Server/static/js/upload/workers.js:129-133 [uploadSingle] *)
Definition refresh_speed_display (now : Z) (m : browser_manager) : browser_manager :=
  let '(m, speed) := getCurrentSpeedForDisplay now m in
  m <| displaySpeedEMA := updateCurrentSpeedDisplay speed (displaySpeedEMA m) |>.

(** [instantSpeed] over [deltaTime] milliseconds, mixed into the speed of the file. *)
(* src: src/src/Server/static/js/upload/workers.js:161-166 [uploadWholeFile] *)
Definition mixed_speed (speed : Qc) (deltaLoaded deltaTime : Z) : Qc :=
  let instantSpeed := (Qc_of_Z deltaLoaded / Qc_of_Z deltaTime * Qc_of_Z 1000)%Qc in
  let alpha := (Qc_of_Z deltaTime / Qc_of_Z SPEED_WINDOW_MS)%Qc in
  let alpha := if Qclt_le_dec 1 alpha then 1%Qc else alpha in
  (speed * (1 - alpha) + instantSpeed * alpha)%Qc.

(** A sample for the desktop, [None] when the last one is less than a second old. *)
(* src: src/src/Server/static/js/upload/manager.js:160-182 [reportSpeedSample] *)
Definition reportSpeedSample (now : Z) (bytesPerSecond : Qc) (force : bool) (m : browser_manager)
    : browser_manager * option Qc :=
  if negb force && (now - lastSpeedReportTs m <? 1000) then (m, None)
  else (m <| lastSpeedReportTs := now |>, Some (positive_or_zero bytesPerSecond)).

(** ** The configuration of the desktop *)

(** [Number.isSafeInteger(value) && value > 0 && value <= maximum ? value : fallback]. *)
(* src: src/src/Server/static/js/upload/manager.js:275-277 [boundedInteger] *)
Definition boundedInteger (value : jsval) (maximum fallbackValue : Z) : Z :=
  match value with
  | JNum n => match integer_value n with
              | Some z => if (Z.abs z <=? 2 ^ 53 - 1) && (0 <? z) && (z <=? maximum) then z else fallbackValue
              | None => fallbackValue
              end
  | _ => fallbackValue
  end.

(* src: src/src/Server/static/js/upload/manager.js:257-259 [loadServerConfig] *)
Definition fallback_config (mobile : bool) : Z * Z := if mobile then (8 * MiB, 2) else (16 * MiB, 3).

(** The stretch before the answer. *)
(* src: src/src/Server/static/js/upload/manager.js:257-262 [loadServerConfig] *)
Definition config_requested (m : browser_manager) : browser_manager :=
  let '(chunk, parallel) := fallback_config (isMobile m) in
  m <| chunkSizeBytes := chunk |> <| CONCURRENCY := parallel |> <| SINGLE_FILE_MAX_BYTES := BrowserLimits.WholeFileBytes |>.

(** [a || b] on values. *)
Definition js_or_val (a b : jsval) : jsval := if js_truthy a then a else b.

(** [answer]: the body of a successful response; [None] for any error, abort, failed
    response or text that is no JSON. A [null] body reads like an empty one, for its members are
    read with [?.]. *)
(* src: src/src/Server/static/js/upload/manager.js:266-291 [loadServerConfig] *)
Definition config_answered (answer : option jsval) (m : browser_manager) : browser_manager :=
  match answer with
  | None => m
  | Some cfg =>
      let '(chunk, parallel) := fallback_config (isMobile m) in
      let single := SINGLE_FILE_MAX_BYTES m in
      let browserConfig :=
        if isMobile m then js_or_val (field (field cfg "browser") "mobile") (field cfg "mobile")
        else js_or_val (field (field cfg "browser") "desktop") (field cfg "desktop") in
      m <| SINGLE_FILE_MAX_BYTES := boundedInteger (field (field cfg "shared") "singleFileMaxBytes") single single |>
        <| chunkSizeBytes := boundedInteger (field browserConfig "chunkSizeBytes") BrowserLimits.MaxChunkBytes chunk |>
        <| CONCURRENCY := boundedInteger (field browserConfig "parallelFiles") 6 parallel |>
  end.

(** ** The queue *)

(** A file the user chose, with the id generated for it. *)
Record chosen_file := { c_id : string; c_name : string; c_size : Z }.

(* src: src/src/Server/static/js/upload/manager.js:420-427 [addFiles] *)
Definition fresh_meta (f : chosen_file) : queued :=
  {| q_id := c_id f; q_name := c_name f; q_size := c_size f; q_running := false; q_done := false; lastLoaded := 0;
     lastTime := 0; q_speed := 0; q_speedEpoch := None; uploadedBytes := 0; completedBytes := 0; q_failed := false;
     q_skipped := false; preflightSkipped := false; serverResult := JUndefined; transferTiming := None;
     lastUIUpdate := 0 |}.

(** The batches of 100 only group the rows of the page. *)
(* src: src/src/Server/static/js/upload/manager.js:394-449 [addFiles] *)
Definition addFiles (files : list chosen_file) (m : browser_manager) : browser_manager * bool :=
  if isUploadInProgress m then (m, false) else
  match files with
  | [] => (m, false)
  | _ => (m <| fileQueue := fileQueue m ++ (fresh_meta <$> files) |>
            <| totalBytes := totalBytes m + sumZ c_size files |>, true)
  end.

(* src: src/src/Server/static/js/upload/manager.js:736-790 [resetFiles] *)
Definition resetFiles (m : browser_manager) : browser_manager :=
  if isUploadInProgress m then m else
  m <| fileQueue := [] |> <| running := 0 |> <| successCount := 0 |> <| errorCount := 0 |> <| totalBytes := 0 |>
    <| displaySpeedEMA := 0%Qc |> <| startTime := None |> <| checkDurationMs := 0 |> <| uploadDurationMs := 0 |>
    <| skippedBytes := 0 |> <| networkBytesUploaded := 0 |> <| peakSpeedBytesPerSecond := 0%Qc |> <| retryCount := 0 |>
    <| currentPhase := phase_idle |> <| nextUploadIndex := 0%nat |> <| pendingCount := 0 |> <| globalUploadedBytes := 0 |>
    <| globalCompletedBytes := 0 |> <| activeSpeedSum := 0%Qc |> <| speedEpoch := speedEpoch m + 1 |>.

(** The next file that is neither running nor done, and the index after it. *)
(* src: src/src/Server/static/js/upload/manager.js:708-721 [worker] *)
Fixpoint next_candidate (queue : list queued) (index : nat) : option nat * nat :=
  match queue with
  | [] => (None, index)
  | candidate :: queue =>
      if q_running candidate || q_done candidate then next_candidate queue (S index) else (Some index, S index)
  end.

(** The loop's index is shared: whoever takes a file moves it. *)
(* src: src/src/Server/static/js/upload/manager.js:708-721 [worker] *)
Definition take_candidate (m : browser_manager) : browser_manager * option nat :=
  let '(next, index) := next_candidate (drop (nextUploadIndex m) (fileQueue m)) (nextUploadIndex m) in
  (m <| nextUploadIndex := index |>, next).

Definition pending_files (m : browser_manager) : list queued := filter (λ file, q_done file = false) (fileQueue m).

(** [fileQueue.reduce((count, file) => count + (file.done ? 0 : 1), 0)]. *)
Definition count_pending (m : browser_manager) : Z := lengthZ (pending_files m).
