(* ===== verification/BrowserUpload.v ===== *)
(** * One upload of the browser ([upload/workers.js] of [src/src/Server/static/js])

    A worker uploads a file in one request, or in chunks with up to two retries each. A
    JavaScript task runs to its end, with the promise reactions it caused, before the next
    one: each definition is what one task does, a request's event, the end of a pause, or the
    start of an upload. [transfer] is where a suspended upload continues. An error is the
    HTTP status it carries, 0 for all others; messages are left out. *)

From Stdlib Require Import QArith Qcanon.
From S2P Require Import Prelude Js Browser.
Open Scope Z_scope.

(** ** Requests and their answers *)

(** What [parseServerTiming] found: the application, write and finalize durations. *)
Record server_timing := { st_app : Qc; st_write : Qc; st_finalize : Qc }.

(** [x_empty]: the response has no text; [x_json]: [JSON.parse] of a text, [None] if it throws. *)
Record xhr_answer := { x_status : Z; x_empty : bool; x_json : option jsval; x_timing : server_timing }.

Inductive xhr_event :=
  | XProgress (lengthComputable : bool) (loaded total : Z)
  | XLoad (answer : xhr_answer)
  | XFail (timing : server_timing).            (** [onerror], [ontimeout], [onabort] *)

(** [JSON.parse(xhr.responseText || '{}')]. *)
Definition body_or_empty (a : xhr_answer) : option jsval := if x_empty a then Some (JObj []) else x_json a.
Definition success_status (status : Z) : bool := (200 <=? status) && (status <? 300).

(** A request that left the page. *)
Inductive upload_request :=
  | WholeRequest (k : nat)
  | ChunkRequest (k : nat) (fileId : string) (index totalChunks start stop : Z).

(** ** Sizes and limits *)

Definition IOS_MAX_CHUNK_BYTES : Z := BrowserLimits.NativeChunkBytes.
Definition MAX_CHUNK_RETRIES : Z := 2.

(* src: src/src/Server/static/js/upload/workers.js:19-21 [shouldUseChunkedUpload] *)
Definition shouldUseChunkedUpload (file : queued) (m : browser_manager) : bool :=
  SINGLE_FILE_MAX_BYTES m <? q_size file.

(* src: src/src/Server/static/js/upload/workers.js:23-30 [computeWholeFileTimeoutMs] *)
Definition computeWholeFileTimeoutMs (sizeBytes : Z) : Z :=
  if sizeBytes <=? 0 then 180000
  else Z.max 180000 (ceil_div (sizeBytes * 1000) 1572864 + 120000).

(* src: src/src/Server/static/js/upload/workers.js:274-276 [uploadChunked] *)
Definition chunk_size (iosLike : bool) (m : browser_manager) : Z :=
  if iosLike then Z.min (chunkSizeBytes m) IOS_MAX_CHUNK_BYTES else chunkSizeBytes m.

(* src: src/src/Server/static/js/upload/workers.js:392-396 [isRetryableUploadError] *)
Definition isRetryableUploadError (status : Z) : bool :=
  (status =? 0) || (status =? 408) || (status =? 425) || (status =? 429) || (500 <=? status).

(** ** Suspended uploads *)

(** The loop variables of [uploadChunked] and of [uploadChunkXHR]. *)
(* src: src/src/Server/static/js/upload/workers.js:284-311 [uploadChunked] *)
Record chunk_loop := {
  cl_chunkSize : Z;
  cl_totalChunks : Z;
  cl_fileId : string;
  cl_index : Z;
  cl_uploadedBytes : Z;
  cl_lastLoaded : Z;
  cl_attempt : Z }.

#[export] Instance chunk_loop_eta : Eta chunk_loop := λ c,
  Build_chunk_loop (cl_chunkSize c) (cl_totalChunks c) (cl_fileId c) (cl_index c) (cl_uploadedBytes c) (cl_lastLoaded c)
    (cl_attempt c).

Inductive transfer :=
  | InWhole (requestStartedAt : Z)
  | InChunk (c : chunk_loop) (requestStartedAt : Z)
  | InPause (c : chunk_loop).

(** How a task leaves an upload: suspended, or ended with a result or with an error. *)
Inductive progressed :=
  | Suspended (t : transfer) (sent : list upload_request)
  | Succeeded (result : jsval)
  | Failed (status : Z).

(** ** Timings *)

(* src: src/src/Server/static/js/upload/workers.js:415-438 [recordRequestTiming] *)
Definition recordRequestTiming (k : nat) (requestStartedAt now : Z) (server : server_timing) (m : browser_manager)
    : browser_manager :=
  let requestDurationMs_ := Z.min 86400000 (Z.max 0 (now - requestStartedAt)) in
  at_file k (λ file,
    let timing := default {| requestCount := 0; requestDurationMs := 0; serverDurationMs := 0; serverWriteDurationMs := 0;
                             serverFinalizeDurationMs := 0; maxRequestDurationMs := 0 |} (transferTiming file) in
    file <| transferTiming := Some
      {| requestCount := requestCount timing + 1;
         requestDurationMs := requestDurationMs timing + requestDurationMs_;
         serverDurationMs := serverDurationMs timing + st_app server;
         serverWriteDurationMs := serverWriteDurationMs timing + st_write server;
         serverFinalizeDurationMs := serverFinalizeDurationMs timing + st_finalize server;
         maxRequestDurationMs := Z.max (maxRequestDurationMs timing) requestDurationMs_ |} |>) m.

(** ** The whole file in one request *)

(* src: src/src/Server/static/js/upload/workers.js:153-179 [uploadWholeFile] *)
Definition whole_progress (k : nat) (now loaded total : Z) (m : browser_manager) : browser_manager :=
  match file_at k m with
  | None => m
  | Some file =>
      let m := m <| lastProgressTs := now |> in
      let deltaLoaded := loaded - lastLoaded file in
      let deltaTime := now - lastTime file in
      let m := if (0 <? deltaTime) && (0 <? lastTime file)
               then updateFileSpeed k (mixed_speed (q_speed file) deltaLoaded deltaTime) m else m in
      let m := at_file k (λ file, file <| lastLoaded := loaded |> <| lastTime := now |>) m in
      let m := updateFileTransferProgress k (Some loaded) m in
      if (lastUIUpdate file =? 0) || (100 <=? now - lastUIUpdate file) || (loaded =? total)
      then at_file k (λ file, file <| lastUIUpdate := now |>) m else m
  end.

(* src: src/src/Server/static/js/upload/workers.js:139-213 [uploadWholeFile] *)
Definition whole_event (k : nat) (now requestStartedAt : Z) (e : xhr_event) (m : browser_manager)
    : browser_manager * progressed :=
  match e with
  | XProgress lengthComputable loaded total =>
      (if lengthComputable then whole_progress k now loaded total m else m, Suspended (InWhole requestStartedAt) [])
  | XLoad a =>
      let m := recordRequestTiming k requestStartedAt now (x_timing a) m in
      if success_status (x_status a) then
        let m := updateFileTransferProgress k (q_size <$> file_at k m) (m <| lastProgressTs := now |>) in
        (m, match body_or_empty a with Some result => Succeeded result | None => Failed 0 end)
      else (m, Failed (x_status a))
  | XFail timing => (recordRequestTiming k requestStartedAt now timing m, Failed 0)
  end.

(** ** The file in chunks *)

(* src: src/src/Server/static/js/upload/workers.js:288-288 [uploadChunked] *)
Definition chunk_start (c : chunk_loop) : Z := cl_index c * cl_chunkSize c.
(* src: src/src/Server/static/js/upload/workers.js:289-289 [uploadChunked] *)
Definition chunk_stop (c : chunk_loop) (size : Z) : Z := Z.min (chunk_start c + cl_chunkSize c) size.

Definition chunk_request (k : nat) (c : chunk_loop) (size : Z) : upload_request :=
  ChunkRequest k (cl_fileId c) (cl_index c) (cl_totalChunks c) (chunk_start c) (chunk_stop c size).

(** The start of a turn of the loop: the first attempt at the chunk. *)
(* src: src/src/Server/static/js/upload/workers.js:287-311 [uploadChunked] *)
Definition send_chunk (k : nat) (now size : Z) (c : chunk_loop) (m : browser_manager) : browser_manager * progressed :=
  let c := c <| cl_lastLoaded := 0 |> <| cl_attempt := 0 |> in
  (at_file k (λ file, file <| lastTime := now |>) m, Suspended (InChunk c now) [chunk_request k c size]).

(* src: src/src/Server/static/js/upload/workers.js:273-286 [uploadChunked] *)
Definition uploadChunked (iosLike : bool) (k : nat) (now : Z) (fileId : string) (size : Z) (m : browser_manager)
    : browser_manager * progressed :=
  let chunkSize := chunk_size iosLike m in
  let totalChunks := ceil_div size chunkSize in
  if BrowserLimits.MaxChunksPerFile <? totalChunks then (m, Failed 0) else
  if BrowserLimits.MaxFileBytes <? size then (m, Failed 0) else
  send_chunk k now size {| cl_chunkSize := chunkSize; cl_totalChunks := totalChunks; cl_fileId := fileId; cl_index := 0;
    cl_uploadedBytes := 0; cl_lastLoaded := 0; cl_attempt := 0 |} m.

(* src: src/src/Server/static/js/upload/workers.js:326-358 [uploadChunked] *)
Definition chunk_progress (k : nat) (now loaded total : Z) (c : chunk_loop) (m : browser_manager)
    : browser_manager * chunk_loop :=
  match file_at k m with
  | None => (m, c)
  | Some file =>
      let m := m <| lastProgressTs := now |> in
      let deltaLoaded := loaded - cl_lastLoaded c in
      let deltaTime := Z.max 1 (now - lastTime file) in
      let m := if 0 <? deltaLoaded then updateFileSpeed k (mixed_speed (q_speed file) deltaLoaded deltaTime) m else m in
      let m := at_file k (λ file, file <| lastTime := now |>) m in
      let m :=
        if (lastUIUpdate file =? 0) || (200 <? now - lastUIUpdate file) || (loaded =? total) then
          let m := updateFileTransferProgress k (Some (cl_uploadedBytes c + loaded)) m in
          at_file k (λ file, file <| lastUIUpdate := now |>) (refresh_speed_display now m)
        else m in
      (m, c <| cl_lastLoaded := loaded |>)
  end.

(** [finalResult.complete === true] for the last chunk. *)
(* src: src/src/Server/static/js/upload/workers.js:365-374 [uploadChunked] *)
Definition final_result (a : xhr_answer) : option jsval :=
  match (if x_empty a then None else x_json a) with
  | Some result => if is_true (field result "complete") then Some result else None
  | None => None
  end.

(** A chunk was accepted: the rest of its turn, then the next turn or the end. *)
(* src: src/src/Server/static/js/upload/workers.js:365-382 [uploadChunked] *)
Definition chunk_accepted (k : nat) (now size : Z) (a : xhr_answer) (c : chunk_loop) (m : browser_manager)
    : browser_manager * progressed :=
  let last := cl_index c =? cl_totalChunks c - 1 in
  match (if last then final_result a else Some JNull) with
  | None => (m, Failed 0)
  | Some finalResult =>
      let uploaded := cl_uploadedBytes c + Z.max 0 (chunk_stop c size - chunk_start c) in
      let m := updateFileTransferProgress k (Some uploaded) (m <| lastProgressTs := now |>) in
      let c := c <| cl_uploadedBytes := uploaded |> <| cl_index := cl_index c + 1 |> in
      if last then (updateFileTransferProgress k (Some size) m, Succeeded finalResult) else send_chunk k now size c m
  end.

(** The [catch] of an attempt. *)
(* src: src/src/Server/static/js/upload/workers.js:264-269 [uploadChunkXHR] *)
Definition attempt_failed (status : Z) (c : chunk_loop) (m : browser_manager) : browser_manager * progressed :=
  if (MAX_CHUNK_RETRIES <=? cl_attempt c) || negb (isRetryableUploadError status) then (m, Failed status)
  else (m <| retryCount := retryCount m + 1 |>, Suspended (InPause (c <| cl_attempt := cl_attempt c + 1 |>)) []).

(* src: src/src/Server/static/js/upload/workers.js:230-261 [uploadChunkXHR] *)
Definition chunk_event (k : nat) (now size requestStartedAt : Z) (e : xhr_event) (c : chunk_loop) (m : browser_manager)
    : browser_manager * progressed :=
  match e with
  | XProgress lengthComputable loaded total =>
      if lengthComputable then let '(m, c) := chunk_progress k now loaded total c m in (m, Suspended (InChunk c requestStartedAt) [])
      else (m, Suspended (InChunk c requestStartedAt) [])
  | XLoad a =>
      let m := recordRequestTiming k requestStartedAt now (x_timing a) m in
      if success_status (x_status a) then
        let finalSize := chunk_stop c size - chunk_start c in
        let '(m, c) := if 0 <? finalSize then chunk_progress k now finalSize finalSize c m else (m, c) in
        chunk_accepted k now size a c m
      else attempt_failed (x_status a) c m
  | XFail timing => attempt_failed 0 c (recordRequestTiming k requestStartedAt now timing m)
  end.

(** The pause is over: the next attempt at the same chunk. *)
(* src: src/src/Server/static/js/upload/workers.js:217-229 [uploadChunkXHR] *)
Definition retry_chunk (k : nat) (now size : Z) (c : chunk_loop) (m : browser_manager) : browser_manager * progressed :=
  (m, Suspended (InChunk c now) [chunk_request k c size]).

(** ** The upload of one file *)

(** [uploadSingle] up to its first request; [wasFailedBefore] is kept for its end. *)
(* src: src/src/Server/static/js/upload/workers.js:66-79 [uploadSingle] *)
Definition start_upload (iosLike : bool) (k : nat) (now : Z) (fileId : string) (m : browser_manager)
    : browser_manager * bool * progressed :=
  match file_at k m with
  | None => (m, false, Failed 0)
  | Some file =>
      let m := at_file k (λ file, file <| q_failed := false |>) m in
      let m := clearFileSpeed k m in
      let m := at_file k (λ file, file <| uploadedBytes := 0 |> <| completedBytes := 0 |>) m in
      if shouldUseChunkedUpload file m then
        let '(m, p) := uploadChunked iosLike k now fileId (q_size file) m in (m, q_failed file, p)
      else (m, q_failed file, Suspended (InWhole now) [WholeRequest k])
  end.

(* src: src/src/Server/static/js/upload/workers.js:79-104 [uploadSingle] *)
Definition upload_succeeded (k : nat) (wasFailedBefore : bool) (result : jsval) (m : browser_manager) : browser_manager :=
  let m := clearFileSpeed k (at_file k (λ file, file <| serverResult := result |>) m) in
  let m := if wasFailedBefore && (0 <? errorCount m) then m <| errorCount := errorCount m - 1 |> else m in
  let m := updateFileTransferProgress k (q_size <$> file_at k m) m in
  let m := m <| successCount := successCount m + 1 |> in
  if js_truthy (field result "skipped") then at_file k (λ file, file <| q_skipped := true |>) m else m.

(* src: src/src/Server/static/js/upload/workers.js:106-111 [uploadSingle] *)
Definition upload_failed (k : nat) (wasFailedBefore : bool) (m : browser_manager) : browser_manager :=
  let m := clearFileSpeed k (at_file k (λ file, file <| q_failed := true |>) m) in
  if wasFailedBefore then m else m <| errorCount := errorCount m + 1 |>.

(** The [finally] of [uploadSingle] and of the worker's turn. *)
(* src: src/src/Server/static/js/upload/workers.js:118-135 [uploadSingle] *)
Definition upload_ended (k : nat) (now : Z) (m : browser_manager) : browser_manager :=
  let m := at_file k (λ file, file <| q_done := true |> <| q_running := false |>) m in
  let m := refresh_speed_display now m in
  m <| running := running m - 1 |> <| pendingCount := Z.max 0 (pendingCount m - 1) |>.
