(* ===== verification/BrowserPreflight.v ===== *)
(** * The browser's duplicate preflight ([upload/preflight.js] of [src/src/Server/static/js])

    [run] asks the desktop which files may be duplicates, hashes those with one or two hash
    workers, and asks again with the hashes. It is cut at its awaits: the answer to the first
    request, the end of a hash, the answer to the second request. A function answers [None]
    where the code throws, which [uploadFiles] takes as "upload normally". *)

From Stdlib Require Import QArith Qcanon.
From S2P Require Import Prelude Js Browser.
Open Scope Z_scope.

(** [items || []] of a response, which must then be an array to be mapped, and the pairs
    of an id and a value the code builds a [Map] of; reading a member of [null] or
    [undefined] throws. *)
Definition response_items (response : jsval) : option (list jsval) :=
  match response with
  | JUndefined | JNull => None
  | _ =>
      let files := field response "files" in
      if js_truthy files then match files with JArr items => Some items | _ => None end else Some []
  end.

Definition item_entry {A} (f : jsval → A) (item : jsval) : option (jsval * A) :=
  match item with JUndefined | JNull => None | _ => Some (field item "id", f item) end.

(** [new Map(items.map(...)).get(id)]: of equal keys the last counts. *)
Definition response_map {A} (f : jsval → A) (response : jsval) : option (list (jsval * A)) :=
  items ← response_items response; mapM (item_entry f) items.

Fixpoint map_get {A} (entries : list (jsval * A)) (id : string) : option A :=
  match entries with
  | [] => None
  | (key, value) :: entries =>
      match map_get entries id with
      | Some later => Some later
      | None => if is_str key id then Some value else None
      end
  end.

(** ** The first answer *)

(** The indices of the files a predicate selects, in the order of the queue. *)
Definition indices_where (P : queued → bool) (queue : list queued) : list nat :=
  omap (λ '(k, file), if P file then Some k else None) (zip (seq 0 (length queue)) queue).

(* src: src/src/Server/static/js/upload/preflight.js:107-110 [run] *)
Definition preflight_pending (queue : list queued) : list nat := indices_where (λ file, negb (q_done file)) queue.

(** Candidates for hashing. *)
(* src: src/src/Server/static/js/upload/preflight.js:119-122 [run] *)
Definition preflight_candidates (initial : jsval) (queue : list queued) : option (list nat) :=
  actionById ← response_map (λ item, field item "action") initial;
  Some (indices_where (λ file, negb (q_done file)
    && match map_get actionById (q_id file) with Some action => is_str action "hash_required" | None => false end) queue).

(** ** Hashing *)

(** Each runner works through the candidates; [hp_runners]: the candidate whose hash it
    waits for. [verifiedFiles] grows in the order in which hashes end. *)
(* src: src/src/Server/static/js/upload/preflight.js:124-168 [run] *)
Record hashing := {
  hp_candidates : list nat;
  hp_candidateIndex : nat;
  hp_runners : list (option nat);
  hp_verified : list (nat * string) }.

#[export] Instance hashing_eta : Eta hashing := λ h,
  Build_hashing (hp_candidates h) (hp_candidateIndex h) (hp_runners h) (hp_verified h).

(** A runner takes the next candidate, or ends. *)
(* src: src/src/Server/static/js/upload/preflight.js:161-164 [run] *)
Definition runner_takes (i : nat) (h : hashing) : hashing :=
  match hp_candidates h !! hp_candidateIndex h with
  | Some k => h <| hp_candidateIndex := S (hp_candidateIndex h) |> <| hp_runners := <[i := Some k]> (hp_runners h) |>
  | None => h <| hp_runners := <[i := None]> (hp_runners h) |>
  end.

(* src: src/src/Server/static/js/upload/preflight.js:24-33 [getHashWorkerCount] *)
Definition getHashWorkerCount (mobile : bool) (cores : Z) : Z :=
  if mobile then 1 else Z.max 1 (Z.min 2 ((if cores =? 0 then 2 else cores) - 1)).

(** The sequential loop is a single runner. *)
(* src: src/src/Server/static/js/upload/preflight.js:154-168 [run] *)
Definition start_hashing (hashWorkers : Z) (candidates : list nat) : hashing :=
  let workerCount :=
    if (hashWorkers =? 1) || (length candidates <=? 1)%nat then 1%nat
    else Nat.min (Z.to_nat hashWorkers) (length candidates) in
  foldl (λ h i, runner_takes i h)
    {| hp_candidates := candidates; hp_candidateIndex := 0; hp_runners := replicate workerCount None; hp_verified := [] |}
    (seq 0 workerCount).

(** The hash of runner [i] is there. *)
(* src: src/src/Server/static/js/upload/preflight.js:142-152 [run] *)
Definition hash_ended (i : nat) (sha256 : string) (h : hashing) : option hashing :=
  match hp_runners h !! i with
  | Some (Some k) => Some (runner_takes i (h <| hp_verified := hp_verified h ++ [(k, sha256)] |>))
  | _ => None
  end.

(** [Promise.all(runners)] settled. *)
Definition hashing_done (h : hashing) : bool := forallb (λ r, match r with None => true | Some _ => false end) (hp_runners h).

(** ** The second answer *)

(** A file the desktop has: done without an upload. *)
(* src: src/src/Server/static/js/upload/preflight.js:181-194 [run] *)
Definition skip_file (k : nat) (filename : jsval) (m : browser_manager) : browser_manager :=
  match file_at k m with
  | None => m
  | Some file =>
      let m := at_file k (λ file, file <| q_done := true |> <| q_skipped := true |> <| preflightSkipped := true |>
                                       <| uploadedBytes := 0 |>) m in
      let m := markFileCompletedWithoutUpload k (Some (q_size file)) m in
      at_file k (λ file, file <| serverResult := JObj [("skipped", JBool true); ("filename", filename)] |>) m
  end.

(** The manager, [skippedFiles] and [skippedBytes]. *)
(* src: src/src/Server/static/js/upload/preflight.js:179-209 [run] *)
Definition verify_candidate (resultById : list (jsval * jsval)) (acc : browser_manager * Z * Z) (k : nat)
    : browser_manager * Z * Z :=
  let '(m, skippedFiles, skipped) := acc in
  match file_at k m with
  | None => acc
  | Some file =>
      match map_get resultById (q_id file) with
      | Some result =>
          if is_str (field result "action") "skip"
          then (skip_file k (field result "filename") m, skippedFiles + 1, skipped + q_size file) else acc
      | None => acc
      end
  end.

(* src: src/src/Server/static/js/upload/preflight.js:175-210 [run] *)
Definition preflight_verified (verified : jsval) (candidates : list nat) (m : browser_manager)
    : option (browser_manager * Z * Z) :=
  resultById ← response_map (λ item, item) verified;
  Some (foldl (verify_candidate resultById) (m, 0, 0) candidates).

(** What [uploadFiles] does with the counts. *)
(* src: src/src/Server/static/js/upload/manager.js:543-552 [uploadFiles] *)
Definition preflight_counted (skippedFiles skipped : Z) (m : browser_manager) : browser_manager :=
  m <| skippedBytes := skipped |> <| globalCompletedBytes := Z.max (globalCompletedBytes m) skipped |>
    <| successCount := successCount m + skippedFiles |>.
