(* ===== verification/BrowserHashing.v ===== *)
(** * The hash workers of the browser ([upload/preflight.js] and [upload/hash-worker.js] of
      [src/src/Server/static/js])

    The page keeps a pool of one or two workers and a map of the promises it waits for; a
    worker hashes files slice by slice, several at once, and posts messages back, which
    arrive in order at any later time. A worker may die; a terminated one posts nothing.
    The incremental hash is that of a library: [init], [update] and [digest] are parameters,
    as is [sha256], what it computes of the whole. An id is the pair of numbers it is printed
    from. What is shown of progress is left out; nothing calls [dispose]. *)

From Stdlib Require Import Init.Byte.
From S2P Require Import Prelude Browser BrowserPreflight.
Open Scope Z_scope.

Module BrowserHashing.

(* src: src/src/Server/static/js/upload/hash-worker.js:6-6 [HASH_CHUNK_BYTES] *)
Definition HASH_CHUNK_BYTES : Z := 4 * 1024 * 1024.

Notation request_id := (Z * Z)%type.

Section hashing.
Context {H : Type} (init : H) (update : H → list byte → H) (digest : H → string) (sha256 : list byte → string).
Context (mobile : bool) (cores : Z).

(** ** A worker *)

Record hash_job := { j_request : request_id; j_file : list byte; j_offset : Z; j_hasher : H }.

(* src: src/src/Server/static/js/upload/hash-worker.js:24-41 [onmessage] *)
Inductive worker_message :=
  | Progress (r : request_id) (processedBytes totalBytes : Z)
  | Complete (r : request_id) (hash : string)
  | Failed (r : request_id) (error : string).

Record hash_worker := { wk_jobs : list hash_job; wk_outbox : list worker_message }.

Definition slice (file : list byte) (first last : Z) : list byte := take (Z.to_nat (last - first)) (drop (Z.to_nat first) file).

(** One turn of the loop, from the answer of [arrayBuffer] on. *)
(* src: src/src/Server/static/js/upload/hash-worker.js:18-30 [onmessage] *)
Definition hash_slice (j : hash_job) : hash_job * list worker_message :=
  let size := lengthZ (j_file j) in
  if j_offset j <? size then
    let last := Z.min (j_offset j + HASH_CHUNK_BYTES) size in
    ({| j_request := j_request j; j_file := j_file j; j_offset := last;
        j_hasher := update (j_hasher j) (slice (j_file j) (j_offset j) last) |},
     [Progress (j_request j) last size])
  else (j, []).

(* src: src/src/Server/static/js/upload/hash-worker.js:18-35 [onmessage] *)
Definition worker_turn (k : nat) (w : hash_worker) : option hash_worker :=
  match wk_jobs w !! k with
  | None => None
  | Some j =>
      let '(j, messages) := hash_slice j in
      Some (if j_offset j <? lengthZ (j_file j)
            then {| wk_jobs := <[k := j]> (wk_jobs w); wk_outbox := wk_outbox w ++ messages |}
            else {| wk_jobs := delete k (wk_jobs w); wk_outbox := wk_outbox w ++ messages ++ [Complete (j_request j) (digest (j_hasher j))] |})
  end.

(* src: src/src/Server/static/js/upload/hash-worker.js:36-42 [onmessage] *)
Definition worker_throws (k : nat) (error : option string) (w : hash_worker) : option hash_worker :=
  match wk_jobs w !! k with
  | None => None
  | Some j => Some {| wk_jobs := delete k (wk_jobs w);
                      wk_outbox := wk_outbox w ++ [Failed (j_request j) (js_or (default EmptyString error) "Unable to hash file")] |}
  end.

(* src: src/src/Server/static/js/upload/hash-worker.js:8-17 [onmessage] *)
Definition worker_asked (r : request_id) (file : list byte) (w : hash_worker) : hash_worker :=
  {| wk_jobs := wk_jobs w ++ [{| j_request := r; j_file := file; j_offset := 0; j_hasher := init |}]; wk_outbox := wk_outbox w |}.

(** ** The pool *)

(** [requests]: the pending promises, each with the index of its worker. [asked]: the calls
    of [hashFile]; [answers]: their settled promises, [inl] a hash and [inr] an error. *)
(* src: src/src/Server/static/js/upload/preflight.js:8-15 [DuplicatePreflight] *)
Record pool := {
  workers : gmap nat hash_worker;
  requests : list (request_id * nat);
  requestSequence : Z;
  nextWorkerIndex : nat;
  asked : list (request_id * list byte);
  answers : list (request_id * (string + string)) }.

#[export] Instance pool_eta : Eta pool := λ p,
  Build_pool (workers p) (requests p) (requestSequence p) (nextWorkerIndex p) (asked p) (answers p).

Definition fresh_pool : pool :=
  {| workers := ∅; requests := []; requestSequence := 0; nextWorkerIndex := 0; asked := []; answers := [] |}.

(* src: src/src/Server/static/js/upload/preflight.js:35-40 [ensureWorker] *)
Definition ensureWorker (index : nat) (p : pool) : hash_worker * pool :=
  match workers p !! index with
  | Some w => (w, p)
  | None => let w := {| wk_jobs := []; wk_outbox := [] |} in (w, p <| workers := <[index := w]> (workers p) |>)
  end.

(* src: src/src/Server/static/js/upload/preflight.js:75-83 [getNextWorker] *)
Definition getNextWorker (p : pool) : hash_worker * nat * pool :=
  let poolSize := Z.to_nat (getHashWorkerCount mobile cores) in
  let workerIndex := (nextWorkerIndex p `mod` poolSize)%nat in
  let '(w, p) := ensureWorker workerIndex (p <| nextWorkerIndex := S (nextWorkerIndex p) |>) in
  (w, workerIndex, p).

(* src: src/src/Server/static/js/upload/preflight.js:85-92 [hashFile] *)
Definition hashFile (now : Z) (file : list byte) (p : pool) : pool :=
  let '(worker, workerIndex, p) := getNextWorker p in
  let requestId := (now, requestSequence p + 1) in
  p <| requestSequence := requestSequence p + 1 |>
    <| requests := requests p ++ [(requestId, workerIndex)] |>
    <| workers := <[workerIndex := worker_asked requestId file worker]> (workers p) |>
    <| asked := asked p ++ [(requestId, file)] |>.

Definition settle (r : request_id) (answer : string + string) (p : pool) : pool :=
  p <| requests := filter (λ q, q.1 ≠ r) (requests p) |> <| answers := answers p ++ [(r, answer)] |>.

(* src: src/src/Server/static/js/upload/preflight.js:41-59 [ensureWorker] *)
Definition onmessage (m : worker_message) (p : pool) : pool :=
  let pending r := bool_decide (r ∈ (requests p).*1) in
  match m with
  | Progress _ _ _ => p
  | Complete r hash => if pending r then settle r (inl hash) p else p
  | Failed r error => if pending r then settle r (inr (js_or error "Hashing failed")) p else p
  end.

(* src: src/src/Server/static/js/upload/preflight.js:60-69 [ensureWorker] *)
Definition onerror (index : nat) (p : pool) : pool :=
  let lost := filter (λ q, q.2 = index) (requests p) in
  foldl (λ p q, settle q.1 (inr "Hash worker failed"%string) p) p lost <| workers := delete index (workers p) |>.

Inductive pool_event :=
  | HashFile (now : Z) (file : list byte)
  | WorkerTurns (index k : nat)
  | WorkerThrows (index k : nat) (error : option string)
  | MessageArrives (index : nat)
  | WorkerDies (index : nat).

Definition at_worker (index : nat) (f : hash_worker → option hash_worker) (p : pool) : option pool :=
  w ← workers p !! index; w' ← f w; Some (p <| workers := <[index := w']> (workers p) |>).

Definition pool_exec (e : pool_event) (p : pool) : option pool :=
  match e with
  | HashFile now file => Some (hashFile now file p)
  | WorkerTurns index k => at_worker index (worker_turn k) p
  | WorkerThrows index k error => at_worker index (worker_throws k error) p
  | MessageArrives index =>
      w ← workers p !! index;
      match wk_outbox w with
      | [] => None
      | m :: rest => Some (onmessage m (p <| workers := <[index := {| wk_jobs := wk_jobs w; wk_outbox := rest |}]> (workers p) |>))
      end
  | WorkerDies index => _ ← workers p !! index; Some (onerror index p)
  end.

Definition pool_run (es : list pool_event) : option pool := foldl (λ p e, p ≫= pool_exec e) (Some fresh_pool) es.

(** ** Open requests *)

Definition final_of (m : worker_message) : option request_id :=
  match m with Progress _ _ _ => None | Complete r _ | Failed r _ => Some r end.

(** What a worker still has to answer, or has answered without the page knowing. *)
Definition wk_open (w : hash_worker) : list request_id := (j_request <$> wk_jobs w) ++ omap final_of (wk_outbox w).

Definition job_ok (p : pool) (j : hash_job) : Prop :=
  (j_request j, j_file j) ∈ asked p ∧ 0 <= j_offset j <= lengthZ (j_file j)
  ∧ ∃ slices, j_hasher j = foldl update init slices ∧ concat slices = take (Z.to_nat (j_offset j)) (j_file j).

Definition message_ok (p : pool) (m : worker_message) : Prop :=
  match m with Complete r hash => ∃ file, (r, file) ∈ asked p ∧ hash = sha256 file | _ => True end.

Record worker_ok (p : pool) (index : nat) (w : hash_worker) : Prop := {
  wo_nodup : NoDup (wk_open w);
  wo_open r : r ∈ wk_open w ↔ (r, index) ∈ requests p;
  wo_jobs : Forall (job_ok p) (wk_jobs w);
  wo_messages : Forall (message_ok p) (wk_outbox w) }.

Record pool_ok (p : pool) : Prop := {
  po_workers index w : workers p !! index = Some w → worker_ok p index w;
  po_alive r index : (r, index) ∈ requests p → is_Some (workers p !! index);
  po_requests : NoDup (requests p).*1;
  po_asked : NoDup (asked p).*1;
  po_sequence r : r ∈ (asked p).*1 → r.2 <= requestSequence p;
  po_answers : NoDup (answers p).*1;
  po_settled r : r ∈ (asked p).*1 ↔ r ∈ (answers p).*1 ∨ r ∈ (requests p).*1;
  po_once r : r ∈ (answers p).*1 → r ∉ (requests p).*1;
  po_hashes r hash : (r, inl hash) ∈ answers p → ∃ file, (r, file) ∈ asked p ∧ hash = sha256 file }.

Context (Hhash : ∀ slices, digest (foldl update init slices) = sha256 (concat slices)).

Lemma elem_of_keys {A B} (l : list (A * B)) a : a ∈ l.*1 ↔ ∃ b, (a, b) ∈ l.
Proof. rewrite list_elem_of_fmap. split; [intros ([x b] & -> & Hx); by exists b|intros [b Hb]; by exists (a, b)]. Qed.

Lemma same_index l r i k : NoDup l.*1 → ((r, i) : request_id * nat) ∈ l → (r, k) ∈ l → i = k.
Proof.
  intros Hn [x Hx]%list_elem_of_lookup [y Hy]%list_elem_of_lookup.
  assert (x = y) as ->; [|congruence]. apply (NoDup_lookup _ _ _ r Hn); by rewrite list_lookup_fmap, ?Hx, ?Hy.
Qed.

(** ** Hashing a file *)

Lemma slice_take file first last :
  0 <= first <= last → take (Z.to_nat first) file ++ slice file first last = take (Z.to_nat last) file.
Proof.
  intros Hl. unfold slice. rewrite take_take_drop. f_equal. lia.
Qed.

Lemma hash_slice_ok p j j' messages :
  job_ok p j → hash_slice j = (j', messages) →
  job_ok p j' ∧ j_request j' = j_request j ∧ omap final_of messages = [] ∧ Forall (message_ok p) messages.
Proof.
  intros (Ha & Ho & slices & Hh & Hc). unfold hash_slice. destruct (Z.ltb_spec (j_offset j) (lengthZ (j_file j))) as [Hlt|Hge].
  - intros [= <- <-]. split; [|by repeat constructor]. split; [done|]. simpl. unfold HASH_CHUNK_BYTES. split; [lia|].
    exists (slices ++ [slice (j_file j) (j_offset j) (Z.min (j_offset j + 4 * 1024 * 1024) (lengthZ (j_file j)))]).
    rewrite foldl_app, Hh. split; [done|]. rewrite concat_app, Hc. simpl. rewrite app_nil_r. apply slice_take. lia.
  - intros [= <- <-]. split; [|by repeat constructor]. split; [done|]. split; [done|]. by exists slices.
Qed.

(** The hash posted at the end is that of the whole file. *)
Lemma finished_hash p j : job_ok p j → lengthZ (j_file j) <= j_offset j → digest (j_hasher j) = sha256 (j_file j).
Proof.
  intros (_ & Ho & slices & -> & Hc) Hge. rewrite Hhash, Hc, take_ge; [done|]. unfold lengthZ in *. lia.
Qed.

Lemma worker_ok_perm p i w w' :
  wk_open w' ≡ₚ wk_open w → Forall (job_ok p) (wk_jobs w') → Forall (message_ok p) (wk_outbox w') → worker_ok p i w → worker_ok p i w'.
Proof. intros Hp Hj Hm [Hn Ho _ _]. split; [by rewrite Hp|intros r; by rewrite Hp|done|done]. Qed.

(** A job is taken off the list for a final message. *)
Lemma final_perm w k j finals m :
  wk_jobs w !! k = Some j → omap final_of finals = [] → final_of m = Some (j_request j) →
  wk_open {| wk_jobs := delete k (wk_jobs w); wk_outbox := wk_outbox w ++ finals ++ [m] |} ≡ₚ wk_open w.
Proof.
  intros Hk Hf Hm. unfold wk_open. simpl. rewrite !omap_app, Hf. simpl. rewrite Hm.
  rewrite (delete_Permutation (wk_jobs w) k j Hk) at 2. simpl. by rewrite app_assoc, <-Permutation_cons_append.
Qed.

Lemma worker_turn_ok p i k w w' : worker_ok p i w → worker_turn k w = Some w' → worker_ok p i w'.
Proof.
  intros Hw. pose proof (wo_jobs _ _ _ Hw) as Hj. pose proof (wo_messages _ _ _ Hw) as Hm. unfold worker_turn.
  destruct (wk_jobs w !! k) as [j|] eqn:Hk; [|done]. pose proof (Forall_lookup_1 _ _ _ _ Hj Hk) as Hjk.
  destruct (hash_slice j) as [j' messages] eqn:Hs. destruct (hash_slice_ok p j j' messages Hjk Hs) as (Hj' & Hr & Hf & Hms).
  destruct (Z.ltb_spec (j_offset j') (lengthZ (j_file j'))) as [Hlt|Hge]; intros [= <-].
  - apply (worker_ok_perm p i w); [|by apply Forall_insert|by apply Forall_app|done].
    unfold wk_open. simpl. rewrite omap_app, Hf, app_nil_r, list_fmap_insert, Hr, list_insert_id; [done|].
    by rewrite list_lookup_fmap, Hk.
  - apply (worker_ok_perm p i w); [|by apply Forall_delete| |done].
    + apply (final_perm w k j); [done|done|]. simpl. by rewrite Hr.
    + simpl. apply Forall_app. split; [done|]. apply Forall_app. split; [done|]. constructor; [|done]. simpl.
      exists (j_file j'). split; [apply Hj'|]. by apply (finished_hash p).
Qed.

Lemma worker_throws_ok p i k error w w' : worker_ok p i w → worker_throws k error w = Some w' → worker_ok p i w'.
Proof.
  intros Hw. pose proof (wo_jobs _ _ _ Hw) as Hj. pose proof (wo_messages _ _ _ Hw) as Hm. unfold worker_throws.
  destruct (wk_jobs w !! k) as [j|] eqn:Hk; [|done]. intros [= <-].
  apply (worker_ok_perm p i w); [|by apply Forall_delete|apply Forall_app; split; [done|by repeat constructor]|done].
  by apply (final_perm w k j []).
Qed.

(** A worker goes on by itself. *)
Lemma at_worker_ok p p' index f :
  (∀ w w', worker_ok p index w → f w = Some w' → worker_ok p index w') → pool_ok p → at_worker index f p = Some p' → pool_ok p'.
Proof.
  intros Hf [Hw Ha Hr Has Hse Han Hset Ho Hh]. unfold at_worker. destruct (workers p !! index) as [w|] eqn:Hk; [|done]. simpl.
  destruct (f w) as [w'|] eqn:Hw'; [|done]. intros [= <-]. split; simpl; try done.
  - intros i v Hv. assert (worker_ok p i v) as [W1 W2 W3 W4]; [|by split].
    apply lookup_insert_Some in Hv as [[<- <-]|[_ Hv]]; [apply (Hf w); [by apply Hw|done]|by apply Hw].
  - intros r i Hri. destruct (decide (i = index)) as [->|Hne]; [rewrite lookup_insert_eq; eauto|rewrite lookup_insert_ne by done; by apply (Ha r)].
Qed.

Lemma job_ok_asked p p' j : (∀ x, x ∈ asked p → x ∈ asked p') → job_ok p j → job_ok p' j.
Proof. intros Hx (H1 & H2). split; [by apply Hx|done]. Qed.
Lemma message_ok_asked p p' m : (∀ x, x ∈ asked p → x ∈ asked p') → message_ok p m → message_ok p' m.
Proof. intros Hx. destruct m; simpl; try done. intros (file & Hf & ->). exists file. split; [by apply Hx|done]. Qed.

(** ** Asking for a hash *)

Lemma ensureWorker_spec index p w p1 :
  ensureWorker index p = (w, p1) → pool_ok p →
  pool_ok p1 ∧ workers p1 !! index = Some w ∧ requests p1 = requests p ∧ asked p1 = asked p ∧ requestSequence p1 = requestSequence p.
Proof.
  unfold ensureWorker. destruct (workers p !! index) as [v|] eqn:Hk; intros [= <- <-]; [done|]. intros [Hw Ha Hr Has Hse Han Hset Ho Hh].
  split; [|simpl; rewrite lookup_insert_eq; by split_and!]. split; simpl; try done.
  - intros i v Hv. apply lookup_insert_Some in Hv as [[<- <-]|[_ Hv]].
    + split; [constructor| |constructor|constructor]. intros r. split; [by intros ?%elem_of_nil|].
      intros Hri. apply Ha in Hri. rewrite Hk in Hri. by destruct Hri.
    + destruct (Hw i v Hv) as [W1 W2 W3 W4]. by split.
  - intros r i Hri. destruct (decide (i = index)) as [->|Hne]; [rewrite lookup_insert_eq; eauto|rewrite lookup_insert_ne by done; by apply (Ha r)].
Qed.

Lemma hashFile_ok now file p : pool_ok p → pool_ok (hashFile now file p).
Proof.
  intros Hp. unfold hashFile, getNextWorker. set (p0 := p <| nextWorkerIndex := _ |>).
  assert (pool_ok p0) as Hp0 by (destruct Hp; split; try done; intros i v Hv; destruct (po_workers0 i v Hv); by split).
  set (index := Nat.modulo _ _). destruct (ensureWorker index p0) as [w p1] eqn:He.
  destruct (ensureWorker_spec index p0 w p1 He Hp0) as ([Hw Ha Hr Has Hse Han Hset Ho Hh] & Hk & _). clear He Hp Hp0 p0. clearbody index.
  set (r := (now, requestSequence p1 + 1)).
  assert (r ∉ (asked p1).*1) as Hnew by (intros Hin; apply Hse in Hin; simpl in Hin; lia).
  assert (r ∉ (requests p1).*1) as Hnr by (intros Hin; apply Hnew, Hset; by right).
  assert (r ∉ (answers p1).*1) as Hna by (intros Hin; apply Hnew, Hset; by left).
  assert (∀ i, (r, i) ∉ requests p1) as Hni by (intros i Hin; apply Hnr, elem_of_keys; by exists i).
  split; simpl.
  - intros i v Hv. apply lookup_insert_Some in Hv as [[<- <-]|[Hne Hv]].
    + destruct (Hw index w Hk) as [W1 W2 W3 W4]. split; simpl.
      * unfold wk_open. simpl. rewrite fmap_app. simpl. rewrite <-app_assoc. simpl. rewrite <-Permutation_middle.
        constructor; [|done]. change (r ∉ wk_open w). rewrite W2. apply Hni.
      * intros q. unfold wk_open. simpl. rewrite fmap_app. simpl. rewrite elem_of_app, elem_of_app, list_elem_of_singleton, elem_of_app, list_elem_of_singleton.
        specialize (W2 q). unfold wk_open in W2. rewrite elem_of_app in W2. naive_solver congruence.
      * apply Forall_app. split; [eapply Forall_impl; [exact W3|intros j; apply job_ok_asked; simpl; set_solver]|].
        constructor; [|done]. split; [simpl; set_solver|]. simpl. split; [unfold lengthZ; lia|]. by exists [].
      * eapply Forall_impl; [exact W4|]. intros m. apply message_ok_asked. simpl. set_solver.
    + destruct (Hw i v Hv) as [W1 W2 W3 W4]. split; simpl; [done| | |].
      * intros q. rewrite W2, elem_of_app, list_elem_of_singleton. naive_solver congruence.
      * eapply Forall_impl; [exact W3|]. intros j. apply job_ok_asked. simpl. set_solver.
      * eapply Forall_impl; [exact W4|]. intros m. apply message_ok_asked. simpl. set_solver.
  - intros q i. rewrite elem_of_app, list_elem_of_singleton. intros [Hq|[= -> ->]]; [|rewrite lookup_insert_eq; eauto].
    destruct (decide (i = index)) as [->|Hne]; [rewrite lookup_insert_eq; eauto|rewrite lookup_insert_ne by done; by apply (Ha q)].
  - rewrite fmap_app. simpl. rewrite <-Permutation_cons_append. by constructor.
  - rewrite fmap_app. simpl. rewrite <-Permutation_cons_append. by constructor.
  - intros q. rewrite fmap_app, elem_of_app. simpl. rewrite list_elem_of_singleton. intros [Hq| ->]; [apply Hse in Hq; lia|simpl; lia].
  - done.
  - intros q. rewrite !fmap_app, !elem_of_app. simpl. rewrite Hset. tauto.
  - intros q Hq. rewrite fmap_app, elem_of_app. simpl. rewrite list_elem_of_singleton. intros [Hin| ->]; [by apply (Ho q)|done].
  - intros q hash Hq. destruct (Hh q hash Hq) as (f & Hf & ->). exists f. split; [|done]. rewrite elem_of_app. by left.
Qed.

(** ** Answers *)

Lemma keys_filter (r : request_id) l : (filter (λ q : request_id * nat, q.1 ≠ r) l).*1 = filter (λ q, q ≠ r) l.*1.
Proof. induction l as [|[q i] l IH]; [done|]. rewrite fmap_cons, !filter_cons. simpl. destruct (decide (q ≠ r)); [by rewrite fmap_cons, IH|done]. Qed.

(** The promise of an open request of worker [index] settles, and the worker's state is [w']. *)
Lemma promise_settles_ok r answer p index w w' :
  pool_ok p → workers p !! index = Some w → wk_open w ≡ₚ r :: wk_open w' →
  Forall (job_ok p) (wk_jobs w') → Forall (message_ok p) (wk_outbox w') →
  (∀ hash, answer = inl hash → ∃ file, (r, file) ∈ asked p ∧ hash = sha256 file) →
  pool_ok (settle r answer (p <| workers := <[index := w']> (workers p) |>)).
Proof.
  intros [Hw Ha Hr Has Hse Han Hset Ho Hh] Hk Hperm Hj Hm Hans.
  destruct (Hw index w Hk) as [W1 W2 _ _]. rewrite Hperm in W1. apply NoDup_cons in W1 as [Hnot Hnd].
  assert ((r, index) ∈ requests p) as Hri by (apply W2; rewrite Hperm; by left).
  assert (r ∈ (requests p).*1) as Hrk by (apply elem_of_keys; by exists index).
  split; simpl.
  - intros i v Hv. apply lookup_insert_Some in Hv as [[<- <-]|[Hne Hv]].
    + split; simpl; [done| |done|done]. intros q. rewrite list_elem_of_filter. simpl. rewrite <-W2, Hperm, elem_of_cons.
      split; [intros Hq; split; [intros ->; done|by right]|intros [Hq [?|?]]; done].
    + destruct (Hw i v Hv) as [V1 V2 V3 V4]. split; simpl; [done| |done|done]. intros q. rewrite list_elem_of_filter, V2. simpl.
      split; [intros Hq; split; [intros ->; apply Hne, (same_index (requests p) r); done|done]|by intros [_ ?]].
  - intros q i [_ Hq]%list_elem_of_filter.
    destruct (decide (i = index)) as [->|Hne]; [rewrite lookup_insert_eq; eauto|rewrite lookup_insert_ne by done; by apply (Ha q)].
  - rewrite keys_filter. by apply NoDup_filter.
  - done.
  - done.
  - rewrite fmap_app. simpl. rewrite <-Permutation_cons_append. constructor; [|done]. intros Hin. by apply (Ho r).
  - intros q. rewrite Hset, fmap_app, elem_of_app, keys_filter, list_elem_of_filter. simpl. rewrite list_elem_of_singleton.
    destruct (decide (q = r)) as [->|Hne]; tauto.
  - intros q. rewrite fmap_app, elem_of_app, keys_filter, list_elem_of_filter. simpl. rewrite list_elem_of_singleton.
    intros [Hq| ->] [Hne Hin]; [by apply (Ho q)|done].
  - intros q hash. rewrite elem_of_app, list_elem_of_singleton. intros [Hq|[= -> Hq]]; [by apply Hh|]. by apply Hans.
Qed.

Lemma message_arrives_ok index p p' : pool_ok p → pool_exec (MessageArrives index) p = Some p' → pool_ok p'.
Proof.
  intros Hp. simpl. destruct (workers p !! index) as [w|] eqn:Hk; [|done]. simpl.
  destruct (wk_outbox w) as [|m rest] eqn:Ho; [done|]. pose proof (po_workers p Hp index w Hk) as [W1 W2 W3 W4].
  rewrite Ho in W4. apply Forall_cons in W4 as [Hm Hrest]. set (w' := {| wk_jobs := wk_jobs w; wk_outbox := rest |}).
  assert (∀ r, final_of m = Some r → wk_open w ≡ₚ r :: wk_open w') as Hopen.
  { intros r Hr. unfold wk_open. rewrite Ho. simpl. rewrite Hr. by rewrite Permutation_middle. }
  assert (∀ r, final_of m = Some r → bool_decide (r ∈ (requests p).*1) = true) as Hpending.
  { intros r Hr. apply bool_decide_true, elem_of_keys. exists index. apply W2. rewrite (Hopen r Hr). by left. }
  intros [= <-]. destruct m as [r done_ total|r hash|r error].
  - apply (at_worker_ok p _ index (λ v, match wk_outbox v with Progress _ _ _ :: rest => Some {| wk_jobs := wk_jobs v; wk_outbox := rest |} | _ => None end)).
    + intros v v' [V1 V2 V3 V4]. destruct (wk_outbox v) as [|[] rest'] eqn:Hv; try done. intros [= <-].
      apply Forall_cons in V4 as [_ V4]. split; unfold wk_open in *; rewrite Hv in *; done.
    + done.
    + unfold at_worker. rewrite Hk. simpl. by rewrite Ho.
  - simpl. rewrite (Hpending r eq_refl). apply (promise_settles_ok r _ p index w w'); auto. intros h [= <-]. exact Hm.
  - simpl. rewrite (Hpending r eq_refl). by apply (promise_settles_ok r _ p index w w'); auto.
Qed.

Lemma settle_all_spec answer l : ∀ p,
  let p' := foldl (λ p (q : request_id * nat), settle q.1 answer p) p l in
  workers p' = workers p ∧ asked p' = asked p ∧ requestSequence p' = requestSequence p
  ∧ answers p' = answers p ++ ((λ q, (q.1, answer)) <$> l)
  ∧ ∀ q, q ∈ requests p' ↔ q ∈ requests p ∧ q.1 ∉ l.*1.
Proof.
  induction l as [|q l IH]; intros p; simpl.
  - rewrite app_nil_r. do 4 (split; [reflexivity|]). intros q. split; [intros Hq; split; [done|apply not_elem_of_nil]|by intros [? _]].
  - destruct (IH (settle q.1 answer p)) as (H1 & H2 & H3 & H4 & H5).
    split; [exact H1|]. split; [exact H2|]. split; [exact H3|]. split.
    + rewrite H4. simpl. by rewrite <-app_assoc.
    + intros x. rewrite H5. simpl. rewrite list_elem_of_filter, elem_of_cons. tauto.
Qed.

Lemma settle_all_keys answer l : ∀ p, NoDup (requests p).*1 → NoDup (requests (foldl (λ p (q : request_id * nat), settle q.1 answer p) p l)).*1.
Proof. induction l as [|q l IH]; intros p Hn; simpl; [done|]. apply IH. simpl. rewrite keys_filter. by apply NoDup_filter. Qed.

Lemma fmap_keys {A B C} (f : A * B → C) (l : list (A * B)) : ((λ q, (q.1, f q)) <$> l).*1 = l.*1.
Proof. rewrite <-list_fmap_compose. by apply list_fmap_ext. Qed.

Lemma onerror_ok index p : pool_ok p → pool_ok (onerror index p).
Proof.
  intros [Hw Ha Hr Has Hse Han Hset Ho Hh]. unfold onerror. set (lost := filter _ (requests p)).
  assert (∀ r, r ∈ lost.*1 ↔ (r, index) ∈ requests p) as Hlost.
  { intros r. rewrite elem_of_keys. unfold lost. split.
    - intros [i [Hi Hq]%list_elem_of_filter]. simpl in Hi. by subst.
    - intros Hq. exists index. by apply list_elem_of_filter. }
  destruct (settle_all_spec (inr "Hash worker failed"%string) lost p) as (E1 & E2 & E3 & E4 & E5).
  pose proof (settle_all_keys (inr "Hash worker failed"%string) lost p Hr) as E6. set (p' := foldl _ p lost) in *.
  assert (∀ r i, (r, i) ∈ requests p' ↔ (r, i) ∈ requests p ∧ i ≠ index) as Hreq.
  { intros r i. rewrite E5. simpl. rewrite Hlost. split; intros [Hq Hn]; (split; [done|]).
    - intros ->. by apply Hn.
    - intros Hq'. by apply Hn, (same_index (requests p) r). }
  assert (∀ r, r ∈ (requests p').*1 ↔ r ∈ (requests p).*1 ∧ r ∉ lost.*1) as Hkeys.
  { intros r. rewrite (elem_of_keys (requests p')), (elem_of_keys (requests p)). split.
    - intros [i Hq]. apply E5 in Hq as [Hq Hn]. split; [by exists i|exact Hn].
    - intros [[i Hq] Hn]. exists i. by apply E5. }
  clearbody p'. split; simpl; rewrite ?E1, ?E2, ?E3, ?E4; try done.
  - intros i v [Hne Hv]%lookup_delete_Some. destruct (Hw i v Hv) as [V1 V2 V3 V4].
    split; simpl; [done| | |].
    + intros r. rewrite Hreq, V2. split; [intros Hq; split; [exact Hq|exact (not_eq_sym Hne)]|by intros [Hq _]].
    + eapply Forall_impl; [exact V3|]. intros j. apply job_ok_asked. simpl. by rewrite E2.
    + eapply Forall_impl; [exact V4|]. intros m. apply message_ok_asked. simpl. by rewrite E2.
  - intros r i [Hq Hne]%Hreq. rewrite lookup_delete_ne by done. by apply (Ha r).
  - rewrite fmap_app, (fmap_keys (λ _, inr "Hash worker failed"%string)). apply NoDup_app. split; [done|]. split.
    + intros r Hin Hl. apply (Ho r Hin), elem_of_keys. exists index. by apply Hlost.
    + apply (sublist_NoDup _ (requests p).*1); [done|]. unfold lost. clear. induction (requests p) as [|q l IH]; [constructor|].
      rewrite filter_cons. destruct (decide _); simpl; by constructor.
  - intros r. rewrite fmap_app, (fmap_keys (λ _, inr "Hash worker failed"%string)), elem_of_app, Hset, Hkeys.
    destruct (decide (r ∈ lost.*1)) as [Hl|Hl]; [|tauto]. split; [tauto|]. intros [[?|?]|[??]]; [tauto| |done].
    right. apply elem_of_keys. exists index. by apply Hlost.
  - intros r. rewrite fmap_app, (fmap_keys (λ _, inr "Hash worker failed"%string)), elem_of_app, Hkeys. intros [Hin|Hl] [Hin' Hnl]; [by apply (Ho r)|done].
  - intros r hash. rewrite elem_of_app. intros [Hin|Hin]; [by apply Hh|]. apply list_elem_of_fmap in Hin as (q & Hq & _). discriminate Hq.
Qed.

Lemma pool_exec_ok e p p' : pool_ok p → pool_exec e p = Some p' → pool_ok p'.
Proof.
  intros Hp. destruct e as [now file|index k|index k error|index|index].
  - simpl. intros [= <-]. by apply hashFile_ok.
  - apply at_worker_ok; [|done]. intros w w'. apply worker_turn_ok.
  - apply at_worker_ok; [|done]. intros w w'. apply worker_throws_ok.
  - by apply message_arrives_ok.
  - simpl. destruct (workers p !! index); [|done]. intros [= <-]. by apply onerror_ok.
Qed.

Lemma fresh_pool_ok : pool_ok fresh_pool.
Proof.
  assert (∀ A (x : A), x ∈ @nil A → False) as no by (intros A x Hx; exact (not_elem_of_nil _ Hx)).
  split; simpl; try apply NoDup_nil_2.
  - intros index w Hw. by rewrite lookup_empty in Hw.
  - intros r index Hr. by apply no in Hr.
  - intros r Hr. by apply no in Hr.
  - intros r. split; [intros Hr; by apply no in Hr|intros [Hr|Hr]; by apply no in Hr].
  - intros r Hr. by apply no in Hr.
  - intros r hash Hr. by apply no in Hr.
Qed.

Lemma pool_run_ok es p : pool_run es = Some p → pool_ok p.
Proof.
  unfold pool_run. revert p. induction es as [|e es IH] using rev_ind; intros p; [intros [= <-]; exact fresh_pool_ok|].
  rewrite foldl_app. cbn [foldl]. destruct (foldl _ _ es) as [p0|]; [|done]. cbn [mbind option_bind]. apply pool_exec_ok. by apply IH.
Qed.

(** ** Turns end *)

Definition job_left (j : hash_job) : Z := lengthZ (j_file j) - j_offset j + 1.
Definition turns_left (w : hash_worker) : Z := sumZ job_left (wk_jobs w).

Lemma sum_delete l k j : l !! k = Some j → sumZ job_left l = job_left j + sumZ job_left (delete k l).
Proof.
  revert k. induction l as [|i l IH]; intros [|k]; simpl; [done|done|by intros [= ->]|]. intros Hk.
  rewrite !sumZ_cons, (IH k Hk). lia.
Qed.

Lemma sum_insert l k j j' : l !! k = Some j → sumZ job_left (<[k := j']> l) = sumZ job_left l - job_left j + job_left j'.
Proof.
  revert k. induction l as [|i l IH]; intros [|k]; simpl; [done|done|intros [= ->]; rewrite !sumZ_cons; lia|].
  intros Hk. rewrite !sumZ_cons, (IH k Hk). lia.
Qed.

Lemma jobs_left_nonneg p l : Forall (job_ok p) l → 0 <= sumZ job_left l.
Proof. intros Hl. apply sumZ_nonneg. intros j Hj. rewrite Forall_forall in Hl. destruct (Hl j Hj) as (_ & Ho & _). unfold job_left. lia. Qed.

Lemma worker_turn_left p i k w w' : worker_ok p i w → worker_turn k w = Some w' → 0 <= turns_left w' < turns_left w.
Proof.
  intros Hw Ht. split; [apply (jobs_left_nonneg p), (wo_jobs p i), (worker_turn_ok p i k w w' Hw Ht)|]. revert Ht.
  pose proof (wo_jobs _ _ _ Hw) as Hj. unfold worker_turn, turns_left. destruct (wk_jobs w !! k) as [j|] eqn:Hk; [|done].
  pose proof (Forall_lookup_1 _ _ _ _ Hj Hk) as (_ & Ho & _). unfold hash_slice.
  destruct (Z.ltb_spec (j_offset j) (lengthZ (j_file j))) as [Hlt|Hge]; cbn [j_offset j_file];
    match goal with |- context [if ?b then _ else _] => destruct b eqn:Hb end; intros [= <-]; cbn [wk_jobs].
  - rewrite (sum_insert _ k j) by done. unfold job_left. cbn [j_offset j_file]. unfold HASH_CHUNK_BYTES in *. lia.
  - rewrite (sum_delete (wk_jobs w) k j Hk). unfold job_left at 2. lia.
  - apply Z.ltb_lt in Hb. lia.
  - rewrite (sum_delete (wk_jobs w) k j Hk). unfold job_left at 2. lia.
Qed.

(** C16: no hash is lost, doubled or mixed up. Whatever the order in which hashes are asked
    for, workers go on, fail or die and messages arrive: the ids are different; every
    promise asked for is settled once or still registered, never both; one that resolves
    does so with the hash of its own whole file; the worker of one that is registered lives
    and is still to answer it, or its answer is on its way; and every turn of a worker brings
    it closer to its last message. *)
Theorem hashes_are_answered_once es p :
  pool_run es = Some p →
  NoDup (asked p).*1 ∧ NoDup (answers p).*1
  ∧ (∀ r, r ∈ (asked p).*1 ↔ r ∈ (answers p).*1 ∨ r ∈ (requests p).*1)
  ∧ (∀ r, r ∈ (answers p).*1 → r ∉ (requests p).*1)
  ∧ (∀ r file hash, (r, file) ∈ asked p → (r, inl hash) ∈ answers p → hash = sha256 file)
  ∧ (∀ r index, (r, index) ∈ requests p → ∃ w, workers p !! index = Some w ∧ r ∈ wk_open w)
  ∧ ∀ index w k w', workers p !! index = Some w → worker_turn k w = Some w' → 0 <= turns_left w' < turns_left w.
Proof.
  intros Hrun. pose proof (pool_run_ok es p Hrun) as Hp.
  split; [apply Hp|]. split; [apply Hp|]. split; [apply Hp|]. split; [apply Hp|]. split; [|split].
  - intros r file hash Hf Hh. destruct (po_hashes p Hp r hash Hh) as (file' & Hf' & ->).
    apply list_elem_of_lookup in Hf as [x Hx]. apply list_elem_of_lookup in Hf' as [y Hy].
    assert (x = y) as ->; [|congruence]. apply (NoDup_lookup _ _ _ r (po_asked p Hp)); by rewrite list_lookup_fmap, ?Hx, ?Hy.
  - intros r index Hr. destruct (po_alive p Hp r index Hr) as [w Hw]. exists w. split; [done|].
    by apply (wo_open p index w (po_workers p Hp index w Hw)).
  - intros index w k w' Hw. apply (worker_turn_left p index), (po_workers p Hp index w Hw).
Qed.
End hashing.

(** Two files, two workers; the second worker dies. The hash is the text itself. *)
Definition sample_update (h b : list byte) : list byte := h ++ b.
Definition sample_hashes : list pool_event :=
  [HashFile 5 (String.list_byte_of_string "ab"); HashFile 5 (String.list_byte_of_string "xyz"); WorkerTurns 1 0; WorkerTurns 0 0;
   MessageArrives 0; WorkerDies 1; MessageArrives 0; HashFile 9 (String.list_byte_of_string "c"); HashFile 9 []]%string.
Definition sample_pool : option pool := pool_run [] sample_update String.string_of_list_byte false 4 sample_hashes.

Lemma hashes_are_answered_once_witness :
  ∃ p, sample_pool = Some p ∧ answers p = [((5, 2), inr "Hash worker failed"); ((5, 1), inl "ab")]%string
    ∧ requests p = [((9, 3), 0%nat); ((9, 4), 1%nat)]
    ∧ (∀ r index, (r, index) ∈ requests p → ∃ w, workers p !! index = Some w ∧ r ∈ wk_open w).
Proof.
  destruct sample_pool as [p|] eqn:Hp; [|vm_compute in Hp; discriminate Hp]. exists p. split; [reflexivity|].
  split; [vm_compute in Hp; injection Hp as <-; reflexivity|]. split; [vm_compute in Hp; injection Hp as <-; reflexivity|].
  refine (proj1 (proj2 (proj2 (proj2 (proj2 (proj2
    (hashes_are_answered_once [] sample_update String.string_of_list_byte String.string_of_list_byte false 4 _ sample_hashes p Hp))))))).
  intros slices. f_equal. unfold sample_update. rewrite <-(app_nil_l (concat slices)). generalize (@nil byte).
  induction slices as [|b l IH]; intros h; simpl; [by rewrite app_nil_r|]. by rewrite IH, app_assoc.
Defined.
End BrowserHashing.
