(* ===== verification/BrowserRun.v ===== *)
(** * A run of the browser's upload manager ([uploadFiles] and [worker] of
      [upload/manager.js] in [src/src/Server/static/js])

    [exec] is the event loop: one event is one task, with the promise reactions it caused.
    [b_task] says where [uploadFiles] waits, and for every worker which upload it waits for;
    answers, timers, clicks and dropped files come in any order. [b_out] is what left the
    page: upload requests, speed samples and the history of the run. *)

From Stdlib Require Import QArith Qcanon.
From S2P Require Import Prelude Js Browser BrowserUpload BrowserPreflight.
Open Scope Z_scope.

(** ** The page *)

(** What a worker waits for: the upload of file [k]. [WorkerEnded]: [worker] returned. *)
Inductive browser_worker :=
  | WorkerUploads (k : nat) (wasFailedBefore : bool) (t : transfer)
  | WorkerEnded.

(** The times [uploadFiles] keeps. *)
Record run_times := { runStartedAt : Z; checkStartedAt : Z }.

(** Where [uploadFiles] waits. [started]: the files handed to a worker in this run. *)
Inductive browser_task :=
  | AtRest
  | AwaitConfig
  | AwaitPrecheck (times : run_times)
  | AwaitHashes (times : run_times) (h : hashing)
  | AwaitVerify (times : run_times) (h : hashing)
  | AwaitWorkers (times : run_times) (uploadStartedAt : Z) (started : list nat) (workers : list browser_worker)
  | AwaitCleanup (times : run_times)
  | AwaitHistory (times : run_times).

(** How [submitTransferHistory] describes a file. *)
Inductive history_outcome := outcome_failed | outcome_skipped | outcome_duplicate_after_upload | outcome_uploaded.

#[export] Instance history_outcome_eq_dec : EqDecision history_outcome.
Proof. solve_decision. Defined.

Record history_payload := {
  hi_selectedFiles : Z; hi_uploadedFiles : Z; hi_skippedFiles : Z; hi_failedFiles : Z;
  hi_selectedBytes : Z; hi_uploadedBytes : Z; hi_skippedBytes : Z;
  hi_checkDurationMs : Z; hi_uploadDurationMs : Z; hi_totalDurationMs : Z;
  hi_averageSpeedMBps : Qc; hi_peakSpeedMBps : Qc; hi_retries : Z;
  hi_outcomes : list (string * history_outcome) }.

Inductive browser_output :=
  | Uploads (r : upload_request)
  | Precheck (ids : list string)
  | Verify (hashes : list (string * string))
  | SpeedSample (bytesPerSecond : Qc)
  | History (payload : history_payload).

Record browser := {
  b_manager : browser_manager;
  b_task : browser_task;
  b_configReady : bool;
  b_out : list browser_output }.

#[export] Instance browser_eta : Eta browser := λ b, Build_browser (b_manager b) (b_task b) (b_configReady b) (b_out b).

(** The platform: mobile Safari, how many hash workers, the ids of chunked uploads. *)
Record platform := { iosLike : bool; hashWorkers : Z; chunkFileId : nat → Z → string }.

Inductive browser_event :=
  | AddFiles (files : list chosen_file)
  | Reset
  | ClickUpload
  | ConfigAnswer (answer : option jsval)
  | PrecheckAnswer (answer : option jsval)        (** [None]: [post] throws *)
  | HashEnds (runner : nat) (sha256 : option string)
  | VerifyAnswer (answer : option jsval)
  | XhrEvent (worker : nat) (e : xhr_event)
  | PauseEnds (worker : nat)
  | SpeedTick
  | CleanupEnds
  | HistoryAnswer.

Section run.
Context (pf : platform).

(** ** The end of a run *)

(* src: src/src/Server/static/js/upload/manager.js:674-680 [submitTransferHistory] *)
Definition outcome_of (file : queued) : history_outcome :=
  if q_failed file then outcome_failed else if preflightSkipped file then outcome_skipped
  else if q_skipped file then outcome_duplicate_after_upload else outcome_uploaded.

Definition is_skipped (file : queued) : bool := preflightSkipped file || q_skipped file.
Definition is_uploaded (file : queued) : bool := q_done file && negb (q_failed file) && negb (is_skipped file).
Definition selected (P : queued → bool) (m : browser_manager) : list queued := filter (λ file, P file = true) (fileQueue m).

(* src: src/src/Server/static/js/upload/manager.js:644-682 [submitTransferHistory] *)
Definition history_of (totalDurationMs : Z) (m : browser_manager) : history_payload :=
  {| hi_selectedFiles := lengthZ (fileQueue m);
     hi_uploadedFiles := lengthZ (selected is_uploaded m);
     hi_skippedFiles := lengthZ (selected is_skipped m);
     hi_failedFiles := errorCount m;
     hi_selectedBytes := totalBytes m;
     hi_uploadedBytes := sumZ q_size (selected is_uploaded m);
     hi_skippedBytes := sumZ q_size (selected is_skipped m);
     hi_checkDurationMs := checkDurationMs m;
     hi_uploadDurationMs := uploadDurationMs m;
     hi_totalDurationMs := totalDurationMs;
     hi_averageSpeedMBps :=
       if 0 <? uploadDurationMs m
       then (Qc_of_Z (networkBytesUploaded m) / Qc_of_Z 1000000 / (Qc_of_Z (uploadDurationMs m) / Qc_of_Z 1000))%Qc else 0%Qc;
     hi_peakSpeedMBps := (peakSpeedBytesPerSecond m / Qc_of_Z 1000000)%Qc;
     hi_retries := retryCount m;
     hi_outcomes := (λ file, (q_id file, outcome_of file)) <$> fileQueue m |}.

Definition out (o : list browser_output) (b : browser) : browser := b <| b_out := b_out b ++ o |>.
Definition on_manager (f : browser_manager → browser_manager) (b : browser) : browser := b <| b_manager := f (b_manager b) |>.

(** The workers are through, or there was nothing to upload. *)
(* src: src/src/Server/static/js/upload/manager.js:595-603 [uploadFiles] *)
Definition workers_ended (times : run_times) (uploadStartedAt now : Z) (b : browser) : browser :=
  on_manager (λ m, m <| uploadDurationMs := now - uploadStartedAt |> <| currentPhase := phase_verifying |>)
    (b <| b_task := AwaitCleanup times |>).

(* src: src/src/Server/static/js/upload/manager.js:604-605 [uploadFiles] *)
Definition cleanup_ended (times : run_times) (now : Z) (b : browser) : browser :=
  out [History (history_of (now - runStartedAt times) (b_manager b))] (b <| b_task := AwaitHistory times |>).

(** Whatever the answer: an error is only logged. *)
(* src: src/src/Server/static/js/upload/manager.js:606-641 [uploadFiles] *)
Definition history_answered (now : Z) (b : browser) : browser :=
  let '(m, sample) := reportSpeedSample now 0 true (b_manager b <| currentPhase := phase_complete |>) in
  out (match sample with Some s => [SpeedSample s] | None => [] end)
    (b <| b_manager := m <| startTime := None |> <| isUploadInProgress := false |> |> <| b_task := AtRest |>).

(** ** The workers *)

(** One turn of the loop of [worker] up to its first suspension: takes files until one
    suspends. A file that is refused before a request is sent ends in the same task. *)
(* src: src/src/Server/static/js/upload/manager.js:706-734 [worker] *)
Fixpoint worker_turns (fuel : nat) (now : Z) (m : browser_manager)
    : browser_manager * list nat * list upload_request * browser_worker :=
  match fuel with
  | O => (m, [], [], WorkerEnded)
  | S fuel =>
      let '(m, next) := take_candidate m in
      match next with
      | None => (m, [], [], WorkerEnded)
      | Some k =>
          let m := at_file k (λ file, file <| q_running := true |>) m <| running := running m + 1 |> in
          match start_upload (iosLike pf) k now (chunkFileId pf k now) m with
          | (m, wasFailedBefore, Suspended t sent) => (m, [k], sent, WorkerUploads k wasFailedBefore t)
          | (m, wasFailedBefore, Succeeded result) =>
              let '(m, ks, sent, w) := worker_turns fuel now (upload_ended k now (upload_succeeded k wasFailedBefore result m)) in
              (m, k :: ks, sent, w)
          | (m, wasFailedBefore, Failed _) =>
              let '(m, ks, sent, w) := worker_turns fuel now (upload_ended k now (upload_failed k wasFailedBefore m)) in
              (m, k :: ks, sent, w)
          end
      end
  end.

(** Every turn moves [nextUploadIndex] over at least one file of the queue. *)
Definition worker_next (now : Z) (m : browser_manager) : browser_manager * list nat * list upload_request * browser_worker :=
  worker_turns (S (length (fileQueue m))) now m.

(** [for (i = 0; i < CONCURRENCY; i++) workers.push(this.worker())]. *)
(* src: src/src/Server/static/js/upload/manager.js:589-592 [uploadFiles] *)
Fixpoint spawn_workers (n : nat) (now : Z) (m : browser_manager)
    : browser_manager * list nat * list upload_request * list browser_worker :=
  match n with
  | O => (m, [], [], [])
  | S n =>
      let '(m, ks, sent, w) := worker_next now m in
      let '(m, ks', sent', ws) := spawn_workers n now m in
      (m, ks ++ ks', sent ++ sent', w :: ws)
  end.

Definition all_ended (ws : list browser_worker) : bool :=
  forallb (λ w, match w with WorkerEnded => true | WorkerUploads _ _ _ => false end) ws.

(** [await Promise.all(workers)] goes on in the task that ends the last worker. *)
Definition await_workers (times : run_times) (uploadStartedAt : Z) (started : list nat) (ws : list browser_worker)
    (now : Z) (b : browser) : browser :=
  if all_ended ws then workers_ended times uploadStartedAt now b
  else b <| b_task := AwaitWorkers times uploadStartedAt started ws |>.

(** An event reached the upload of worker [i]. *)
Definition worker_progressed (times : run_times) (uploadStartedAt : Z) (started : list nat) (ws : list browser_worker)
    (i k : nat) (wasFailedBefore : bool) (now : Z) (mp : browser_manager * progressed) (b : browser) : browser :=
  let '(m, p) := mp in
  match p with
  | Suspended t sent =>
      out (Uploads <$> sent)
        (b <| b_manager := m |> <| b_task := AwaitWorkers times uploadStartedAt started (<[i := WorkerUploads k wasFailedBefore t]> ws) |>)
  | _ =>
      let m := match p with
               | Succeeded result => upload_succeeded k wasFailedBefore result m
               | _ => upload_failed k wasFailedBefore m
               end in
      let '(m, ks, sent, w) := worker_next now (upload_ended k now m) in
      await_workers times uploadStartedAt (started ++ ks) (<[i := w]> ws) now (out (Uploads <$> sent) (b <| b_manager := m |>))
  end.

(** ** The stretches of [uploadFiles] *)

(** After the preflight: count again, and start the workers. *)
(* src: src/src/Server/static/js/upload/manager.js:565-594 [uploadFiles] *)
Definition begin_uploads (times : run_times) (now : Z) (b : browser) : browser :=
  let m := b_manager b in
  let m := m <| checkDurationMs := now - checkStartedAt times |> <| pendingCount := count_pending m |> <| nextUploadIndex := 0%nat |> in
  if 0 <? pendingCount m then
    let m := m <| currentPhase := phase_uploading |> <| lastProgressTs := now |> in
    let '(m, ks, sent, ws) := spawn_workers (Z.to_nat (CONCURRENCY m)) now m in
    await_workers times now ks ws now (out (Uploads <$> sent) (b <| b_manager := m |>))
  else workers_ended times now now (b <| b_manager := m |>).

(** The preflight returned its counts, or threw. *)
(* src: src/src/Server/static/js/upload/manager.js:537-564 [uploadFiles] *)
Definition preflight_returned (times : run_times) (now : Z) (result : option (browser_manager * Z * Z)) (b : browser) : browser :=
  begin_uploads times now
    match result with
    | Some (m, skippedFiles, skipped) => b <| b_manager := preflight_counted skippedFiles skipped m |>
    | None => b
    end.

Definition verified_hashes (h : hashing) (m : browser_manager) : list (string * string) :=
  omap (λ '(k, sha256), file ← file_at k m; Some (q_id file, sha256)) (hp_verified h).

(** Hashing goes on, or all hashes are there. *)
(* src: src/src/Server/static/js/upload/preflight.js:167-174 [run] *)
Definition hashes_progressed (times : run_times) (now : Z) (h : hashing) (b : browser) : browser :=
  if negb (hashing_done h) then b <| b_task := AwaitHashes times h |>
  else match hp_verified h with
       | [] => preflight_returned times now (Some (b_manager b, 0, 0)) b
       | _ => out [Verify (verified_hashes h (b_manager b))] (b <| b_task := AwaitVerify times h |>)
       end.

(* src: src/src/Server/static/js/upload/preflight.js:112-123 [run] *)
Definition precheck_answered (times : run_times) (now : Z) (answer : option jsval) (b : browser) : browser :=
  match answer ≫= (λ initial, preflight_candidates initial (fileQueue (b_manager b))) with
  | None => preflight_returned times now None b
  | Some candidates => hashes_progressed times now (start_hashing (hashWorkers pf) candidates) b
  end.

(** Failed files are queued again. *)
(* src: src/src/Server/static/js/upload/manager.js:474-486 [uploadFiles] *)
Definition requeue (file : queued) : queued :=
  if q_done file && q_failed file then
    file <| q_done := false |> <| q_running := false |> <| uploadedBytes := 0 |> <| completedBytes := 0 |>
         <| lastLoaded := 0 |> <| lastTime := 0 |> <| q_speed := 0%Qc |>
  else file.

(* src: src/src/Server/static/js/upload/manager.js:495-515 [uploadFiles] *)
Definition reset_run (now : Z) (m : browser_manager) : browser_manager :=
  m <| lastSpeedReportTs := 0 |> <| startTime := Some now |> <| displaySpeedEMA := 0%Qc |> <| checkDurationMs := 0 |>
    <| uploadDurationMs := 0 |> <| skippedBytes := 0 |> <| networkBytesUploaded := 0 |> <| peakSpeedBytesPerSecond := 0%Qc |>
    <| retryCount := 0 |> <| globalUploadedBytes := 0 |> <| globalCompletedBytes := 0 |> <| activeSpeedSum := 0%Qc |>
    <| speedEpoch := speedEpoch m + 1 |> <| nextUploadIndex := 0%nat |> <| pendingCount := count_pending m |>
    <| currentPhase := phase_checking |>.

(** The configuration is there. *)
(* src: src/src/Server/static/js/upload/manager.js:474-541 [uploadFiles] *)
Definition begin_run (now : Z) (b : browser) : browser :=
  let m := b_manager b <| fileQueue := requeue <$> fileQueue (b_manager b) |> in
  if forallb q_done (fileQueue m) then b <| b_manager := m <| isUploadInProgress := false |> |> <| b_task := AtRest |>
  else out [Precheck (q_id <$> pending_files m)]
         (b <| b_manager := reset_run now m |> <| b_task := AwaitPrecheck {| runStartedAt := now; checkStartedAt := now |} |>).

(* src: src/src/Server/static/js/upload/manager.js:451-467 [uploadFiles] *)
Definition uploadFiles (now : Z) (b : browser) : browser :=
  let m := b_manager b in
  if isUploadInProgress m then b else
  match fileQueue m with
  | [] => b
  | _ =>
      let b := b <| b_manager := m <| isUploadInProgress := true |> |> in
      if b_configReady b then begin_run now b else b <| b_task := AwaitConfig |>
  end.

(** The callback of the interval of half a second, which runs only while [uploadFiles]
    waits for the workers or for what comes after them. *)
(* src: src/src/Server/static/js/upload/manager.js:577-587 [uploadFiles] *)
Definition speed_tick (now : Z) (b : browser) : browser :=
  let m := refresh_speed_display now (b_manager b) in
  let m := m <| peakSpeedBytesPerSecond := Qcmax (peakSpeedBytesPerSecond m) (displaySpeedEMA m) |> in
  let '(m, sample) := reportSpeedSample now (displaySpeedEMA m) false m in
  out (match sample with Some s => [SpeedSample s] | None => [] end) (b <| b_manager := m |>).

Definition ticking (t : browser_task) : bool :=
  match t with AwaitWorkers _ _ _ _ | AwaitCleanup _ | AwaitHistory _ => true | _ => false end.

(** ** The event loop *)

Definition exec (now : Z) (e : browser_event) (b : browser) : option browser :=
  match e, b_task b with
  | AddFiles files, _ => Some (on_manager (λ m, (addFiles files m).1) b)
  | Reset, _ => Some (on_manager resetFiles b)
  | ClickUpload, _ => Some (uploadFiles now b)
  | ConfigAnswer answer, t =>
      if b_configReady b then None else
      let b := on_manager (config_answered answer) (b <| b_configReady := true |>) in
      Some (match t with AwaitConfig => begin_run now b | _ => b end)
  | PrecheckAnswer answer, AwaitPrecheck times => Some (precheck_answered times now answer b)
  | HashEnds i (Some sha256), AwaitHashes times h => h ← hash_ended i sha256 h; Some (hashes_progressed times now h b)
  | HashEnds i None, AwaitHashes times h =>
      match hp_runners h !! i with Some (Some _) => Some (preflight_returned times now None b) | _ => None end
  | VerifyAnswer answer, AwaitVerify times h =>
      Some (preflight_returned times now (answer ≫= λ verified, preflight_verified verified (hp_candidates h) (b_manager b)) b)
  | XhrEvent i e, AwaitWorkers times at_ started ws =>
      match ws !! i with
      | Some (WorkerUploads k wasFailedBefore t) =>
          file ← file_at k (b_manager b);
          match t with
          | InWhole since =>
              Some (worker_progressed times at_ started ws i k wasFailedBefore now (whole_event k now since e (b_manager b)) b)
          | InChunk c since =>
              Some (worker_progressed times at_ started ws i k wasFailedBefore now
                (chunk_event k now (q_size file) since e c (b_manager b)) b)
          | InPause _ => None
          end
      | _ => None
      end
  | PauseEnds i, AwaitWorkers times at_ started ws =>
      match ws !! i with
      | Some (WorkerUploads k wasFailedBefore (InPause c)) =>
          file ← file_at k (b_manager b);
          Some (worker_progressed times at_ started ws i k wasFailedBefore now
            (retry_chunk k now (q_size file) c (b_manager b)) b)
      | _ => None
      end
  | SpeedTick, t => if ticking t then Some (speed_tick now b) else None
  | CleanupEnds, AwaitCleanup times => Some (cleanup_ended times now b)
  | HistoryAnswer, AwaitHistory _ => Some (history_answered now b)
  | _, _ => None
  end.

(** The page after [init], which asked for the configuration. *)
Definition browser_loaded (mobile : bool) : browser :=
  {| b_manager := config_requested (browser_initial mobile); b_task := AtRest; b_configReady := false; b_out := [] |}.

(** A file has a size, as the browser reports it. *)
Definition event_ok (e : browser_event) : Prop :=
  match e with AddFiles files => Forall (λ f, 0 <= c_size f) files | _ => True end.

Definition browser_step (b b' : browser) : Prop := ∃ now e, event_ok e ∧ exec now e b = Some b'.
Definition browser_reachable (mobile : bool) (b : browser) : Prop := rtc browser_step (browser_loaded mobile) b.

(** Events one after the other, for concrete runs. *)
Fixpoint run_events (events : list (Z * browser_event)) (b : browser) : option browser :=
  match events with
  | [] => Some b
  | (now, e) :: events => b ← exec now e b; run_events events b
  end.

End run.
