(* ===== verification/BrowserBooks.v ===== *)
(** * The books of the browser's upload manager: invariants

    The counters the manager keeps while files are uploaded, against the files of its queue.
    An upload in flight touches its manager only through [touch]; each book is kept by every
    touch, and by the few operations that start, end or skip an upload. *)

From Stdlib Require Import QArith Qcanon.
From S2P Require Import Prelude Js Browser BrowserUpload BrowserPreflight BrowserRun.
Open Scope Z_scope.

Create HintDb touch.

(** ** Touches *)

(** What the books read of a file and of the manager. *)
Definition tracked (f : queued) :=
  (q_id f, q_size f, (q_running f, q_done f, q_failed f, q_skipped f, preflightSkipped f),
   (uploadedBytes f, completedBytes f), (q_speed f, q_speedEpoch f)).

(** What the desktop configures. *)
Definition config (m : browser_manager) := (CONCURRENCY m, SINGLE_FILE_MAX_BYTES m, chunkSizeBytes m).

Definition counters (m : browser_manager) :=
  (running m, errorCount m, successCount m, totalBytes m, pendingCount m, nextUploadIndex m, isUploadInProgress m, config m).

Record untouched (m m' : browser_manager) : Prop := {
  un_files : tracked <$> fileQueue m' = tracked <$> fileQueue m;
  un_counters : counters m' = counters m;
  un_bytes : (globalUploadedBytes m', globalCompletedBytes m', networkBytesUploaded m')
             = (globalUploadedBytes m, globalCompletedBytes m, networkBytesUploaded m);
  un_speed : (activeSpeedSum m', speedEpoch m') = (activeSpeedSum m, speedEpoch m) }.

Inductive touch (k : nat) : browser_manager → browser_manager → Prop :=
  | touch_bytes m loaded : touch k m (updateFileTransferProgress k loaded m)
  | touch_speed m speed : touch k m (updateFileSpeed k speed m)
  | touch_display m now : touch k m (refresh_speed_display now m)
  | touch_rest m m' : untouched m m' → touch k m m'.

Definition touches (k : nat) : browser_manager → browser_manager → Prop := rtc (touch k).

Lemma untouched_refl m : untouched m m.
Proof. done. Qed.

Lemma at_file_untouched f k m : (∀ q, tracked (f q) = tracked q) → untouched m (at_file k f m).
Proof. intros Hf. split; try done. by apply (alter_proj tracked). Qed.

Lemma touches_then k m m' m'' : touches k m m' → touch k m' m'' → touches k m m''.
Proof. intros H1 H2. eapply rtc_r; eassumption. Qed.

Lemma touches_rest k m m' : untouched m m' → touches k m m'.
Proof. intros. by apply rtc_once, touch_rest. Qed.

Lemma touches_if k m m1 m2 (b : bool) : touches k m m1 → touches k m m2 → touches k m (if b then m1 else m2).
Proof. by destruct b. Qed.

#[export] Hint Constructors touch : touch.

(** Goes back through a chain of operations to the manager it began with. *)
Ltac touches_chain :=
  repeat first
    [ reflexivity
    | eapply touches_then; [|solve [ apply touch_bytes | apply touch_speed | apply touch_display ]]
    | apply touches_if
    | eapply touches_then; [|apply touch_rest; first
        [ apply at_file_untouched; intros []; reflexivity | split; reflexivity ]] ].

Lemma timing_touches k since now server m : touches k m (recordRequestTiming k since now server m).
Proof. apply touches_rest, at_file_untouched. by intros []. Qed.

Lemma whole_progress_touches k now loaded total m : touches k m (whole_progress k now loaded total m).
Proof.
  unfold whole_progress. destruct (file_at k m) as [file|]; [|reflexivity]. cbv zeta.
  destruct ((0 <? now - lastTime file) && (0 <? lastTime file)), (_ || _); touches_chain.
  all: by apply touches_rest.
Qed.

Lemma chunk_progress_touches k now loaded total c m : touches k m (chunk_progress k now loaded total c m).1.
Proof.
  unfold chunk_progress. destruct (file_at k m) as [file|]; [|reflexivity]. cbv zeta. simpl.
  destruct (0 <? loaded - cl_lastLoaded c), (_ || _); touches_chain.
  all: by apply touches_rest.
Qed.

Lemma whole_event_touches k now since e m : touches k m (whole_event k now since e m).1.
Proof.
  destruct e as [[] loaded total|a|timing]; simpl; [apply whole_progress_touches|reflexivity| |apply timing_touches].
  set (m1 := recordRequestTiming k since now (x_timing a) m).
  assert (touches k m m1) as H1 by apply timing_touches. clearbody m1. destruct (success_status _); simpl; [|done].
  eapply touches_then; [|apply touch_bytes]. eapply touches_then; [exact H1|]. by apply touch_rest.
Qed.

Lemma send_chunk_touches k now size c m : touches k m (send_chunk k now size c m).1.
Proof. apply touches_rest, at_file_untouched. by intros []. Qed.

Lemma chunk_accepted_touches k now size a c m : touches k m (chunk_accepted k now size a c m).1.
Proof.
  unfold chunk_accepted. cbv zeta. match goal with |- context [match ?x with None => _ | Some _ => _ end] => destruct x end; [|reflexivity].
  set (m0 := m <| lastProgressTs := now |>). assert (touches k m m0) as H0 by (by apply touches_rest). clearbody m0.
  set (m1 := updateFileTransferProgress k (Some (cl_uploadedBytes c + Z.max 0 (chunk_stop c size - chunk_start c))) m0).
  assert (touches k m m1) as H1 by (eapply touches_then; [exact H0|apply touch_bytes]). clearbody m1.
  destruct (_ =? _); [simpl; eapply touches_then; [exact H1|apply touch_bytes]|].
  etrans; [exact H1|]. apply send_chunk_touches.
Qed.

Lemma attempt_failed_touches k status c m : touches k m (attempt_failed status c m).1.
Proof. unfold attempt_failed. destruct (_ || _); [reflexivity|]. by apply touches_rest. Qed.

Lemma chunk_event_touches k now size since e c m : touches k m (chunk_event k now size since e c m).1.
Proof.
  destruct e as [[] loaded total|a|timing]; cbn [chunk_event].
  - pose proof (chunk_progress_touches k now loaded total c m) as H. by destruct (chunk_progress _ _ _ _ _ _).
  - reflexivity.
  - set (m1 := recordRequestTiming k since now (x_timing a) m).
    assert (touches k m m1) as H1 by apply timing_touches. clearbody m1. cbv zeta. destruct (success_status _).
    + destruct (0 <? _); [|etrans; [exact H1|]; apply chunk_accepted_touches].
      match goal with |- context [chunk_progress ?k ?n ?l ?t ?c ?m] => pose proof (chunk_progress_touches k n l t c m) as H2;
        destruct (chunk_progress k n l t c m) as [m2 c2] end.
      etrans; [exact H1|]. etrans; [exact H2|]. apply chunk_accepted_touches.
    + etrans; [exact H1|]. apply attempt_failed_touches.
  - etrans; [apply timing_touches|]. apply attempt_failed_touches.
Qed.

(** ** Sums over the queue *)

Definition sumQc (f : queued → Qc) (l : list queued) : Qc := foldr (λ (q : queued) (acc : Qc), (f q + acc)%Qc) 0%Qc l.
Definition countb (P : queued → bool) (l : list queued) : Z := sumZ (λ q, number_of_bool (P q)) l.

(** Sums that depend on the index of the file. *)
Definition sum_at (f : nat → queued → Z) (l : list queued) : Z := sumZ (λ kq : nat * queued, f kq.1 kq.2) (zip (seq 0 (length l)) l).

Lemma sumQc_alter f g k l q :
  l !! k = Some q → sumQc f (alter g k l) = (sumQc f l - f q + f (g q))%Qc.
Proof.
  revert k. induction l as [|x l IH]; intros [|k] Hk; simplify_eq/=; [ring|]. rewrite (IH k Hk). ring.
Qed.

Lemma sumZ_alter (f : queued → Z) g k l q :
  l !! k = Some q → sumZ f (alter g k l) = sumZ f l - f q + f (g q).
Proof.
  revert k. induction l as [|x l IH]; intros [|k] Hk; simplify_eq/=.
  - rewrite !sumZ_cons. lia.
  - rewrite !sumZ_cons, (IH k Hk). lia.
Qed.

Lemma sum_at_from f l n : sumZ (λ kq : nat * queued, f kq.1 kq.2) (zip (seq n (length l)) l) = sum_at (λ k q, f (n + k)%nat q) l.
Proof.
  unfold sum_at. enough (∀ n m, sumZ (λ kq : nat * queued, f kq.1 kq.2) (zip (seq (n + m) (length l)) l)
    = sumZ (λ kq : nat * queued, f (n + kq.1)%nat kq.2) (zip (seq m (length l)) l)) as H.
  { specialize (H n 0%nat). by rewrite Nat.add_0_r in H. }
  clear n. induction l as [|x l IH]; intros n m; [done|]. simpl. rewrite !sumZ_cons. f_equal.
  specialize (IH n (S m)). by rewrite Nat.add_succ_r in IH.
Qed.

Lemma sum_at_cons f x l : sum_at f (x :: l) = f 0%nat x + sum_at (λ k q, f (S k) q) l.
Proof. unfold sum_at at 1. simpl. rewrite sumZ_cons. f_equal. apply (sum_at_from f l 1). Qed.

Lemma sum_at_alter f g k l q :
  l !! k = Some q → sum_at f (alter g k l) = sum_at f l - f k q + f k (g q).
Proof.
  revert f k. induction l as [|x l IH]; intros f [|k] Hk; simplify_eq/=.
  - rewrite !sum_at_cons. lia.
  - rewrite !sum_at_cons, (IH _ k Hk). lia.
Qed.

Lemma sumZ_alter_same (h : queued → Z) g k l : (∀ q, h (g q) = h q) → sumZ h (alter g k l) = sumZ h l.
Proof.
  intros Hg. destruct (l !! k) as [q|] eqn:Hk; [rewrite (sumZ_alter h g k l q Hk), Hg; lia|].
  rewrite (list_alter_ext g (λ q, q) l l k); [by rewrite list_alter_id|intros; congruence|done].
Qed.

Lemma sum_at_alter_same f g k l : (∀ j q, f j (g q) = f j q) → sum_at f (alter g k l) = sum_at f l.
Proof.
  intros Hg. destruct (l !! k) as [q|] eqn:Hk; [rewrite (sum_at_alter f g k l q Hk), Hg; lia|].
  rewrite (list_alter_ext g (λ q, q) l l k); [by rewrite list_alter_id|intros; congruence|done].
Qed.

Lemma sum_at_ext f f' l l' :
  length l = length l' → (∀ k q q', l !! k = Some q → l' !! k = Some q' → f k q = f' k q') → sum_at f l = sum_at f' l'.
Proof.
  revert f f' l'. induction l as [|x l IH]; intros f f' [|x' l'] Hlen H; try done.
  rewrite !sum_at_cons. f_equal; [by apply H|]. apply IH; [by injection Hlen|]. intros k q q' Hq Hq'. by apply (H (S k)).
Qed.

Lemma sum_at_app f l l' : sum_at f (l ++ l') = sum_at f l + sum_at (λ k q, f (length l + k)%nat q) l'.
Proof.
  revert f. induction l as [|x l IH]; intros f; [done|].
  change ((x :: l) ++ l') with (x :: (l ++ l')). rewrite !sum_at_cons, IH. simpl. lia.
Qed.

Lemma sum_at_zero f l : (∀ k q, l !! k = Some q → f k q = 0) → sum_at f l = 0.
Proof.
  revert f. induction l as [|x l IH]; intros f H; [done|]. rewrite sum_at_cons, (H 0%nat x) by done.
  rewrite IH; [done|]. intros k q Hq. by apply (H (S k)).
Qed.

(** ** The roster: which files are being uploaded *)

(** [held]: the files with a worker, and whether they had failed in an earlier run. *)
Record roster (held : list (nat * bool)) (m : browser_manager) : Prop := {
  ro_nodup : NoDup held.*1;
  ro_held : ∀ k b, (k, b) ∈ held → ∃ f, file_at k m = Some f ∧ q_running f = true ∧ q_done f = false ∧ q_failed f = false;
  ro_running : ∀ k f, file_at k m = Some f → q_running f = true → k ∈ held.*1;
  ro_count : running m = lengthZ held;
  ro_errors : errorCount m = countb q_failed (fileQueue m) + sumZ (λ kb : nat * bool, number_of_bool kb.2) held }.

(** What a touch keeps of every file, and the roster reads. *)
Definition status_of (f : queued) := (q_id f, q_size f, (q_running f, q_done f, q_failed f)).

Lemma tracked_status (l l' : list queued) : tracked <$> l' = tracked <$> l → status_of <$> l' = status_of <$> l.
Proof.
  intros H. assert (∀ l : list queued, status_of <$> l = (λ t, let '(id, size, (r, d, f, _, _), _, _) := t in (id, size, (r, d, f))) <$> (tracked <$> l)) as E.
  { intros l0. rewrite <-list_fmap_compose. by apply list_fmap_ext. }
  by rewrite !E, H.
Qed.

(** Touches change neither the status of a file nor the counters. *)
Lemma touch_status k m m' : touch k m m' → status_of <$> fileQueue m' = status_of <$> fileQueue m ∧ counters m' = counters m.
Proof.
  intros [m0 loaded|m0 speed|m0 now|m0 m1 [Hf Hc _ _]].
  - unfold updateFileTransferProgress. destruct (file_at k m0) as [f|]; [|done]. cbv zeta.
    destruct (0 <? _), (0 <? _); (split; [apply (alter_proj status_of); by intros []|done]).
  - unfold updateFileSpeed. destruct (file_at k m0) as [f|]; [|done]. split; [apply (alter_proj status_of); by intros []|done].
  - unfold refresh_speed_display, getCurrentSpeedForDisplay. cbv zeta.
    destruct (_ && _), (5000 <=? _); done.
  - split; [by apply tracked_status|done].
Qed.

Lemma touches_status k m m' : touches k m m' → status_of <$> fileQueue m' = status_of <$> fileQueue m ∧ counters m' = counters m.
Proof.
  induction 1 as [|m m1 m' H1 _ IH]; [done|]. apply touch_status in H1 as [H1 H2]. destruct IH as [IH1 IH2].
  by rewrite IH1, IH2.
Qed.

Lemma countb_status P (l l' : list queued) :
  (∀ f g, status_of f = status_of g → P f = P g) → status_of <$> l' = status_of <$> l → countb P l' = countb P l.
Proof.
  intros HP. apply (sumZ_proj status_of). intros x y H. by rewrite (HP x y).
Qed.

Lemma roster_status held m m' :
  status_of <$> fileQueue m' = status_of <$> fileQueue m → counters m' = counters m → roster held m → roster held m'.
Proof.
  intros Hs Hc [H1 H2 H3 H4 H5]. unfold counters in Hc. simplify_eq. split; try done.
  - intros k b Hk. destruct (H2 k b Hk) as (f & Hf & ? & ? & ?). symmetry in Hs.
    destruct (proj_lookup status_of _ _ _ _ Hs Hf) as (g & Hg & Heq). unfold status_of in Heq. exists g. simplify_eq.
    split; [done|]. split_and!; congruence.
  - intros k f Hf Hr. destruct (proj_lookup status_of _ _ _ _ Hs Hf) as (g & Hg & Heq). unfold status_of in Heq. simplify_eq.
    apply (H3 k g Hg). congruence.
  - congruence.
  - rewrite (countb_status q_failed _ _ ltac:(unfold status_of; intros; congruence) Hs). congruence.
Qed.

Lemma touches_roster k held m m' : touches k m m' → roster held m → roster held m'.
Proof. intros [Hs Hc]%touches_status. by apply roster_status. Qed.

Lemma roster_perm held held' m : held ≡ₚ held' → roster held m → roster held' m.
Proof.
  intros Hp [H1 H2 H3 H4 H5]. split.
  - by rewrite <-Hp.
  - intros k b Hk. apply (H2 k b). by rewrite Hp.
  - intros k f Hf Hr. rewrite <-Hp. by apply (H3 k f).
  - rewrite H4. unfold lengthZ. by rewrite Hp.
  - rewrite H5. f_equal. by apply sumZ_Permutation.
Qed.

Lemma countb_alter P g k l q :
  l !! k = Some q → countb P (alter g k l) = countb P l - number_of_bool (P q) + number_of_bool (P (g q)).
Proof. apply (sumZ_alter (λ q, number_of_bool (P q))). Qed.

Lemma file_at_alter g k j m : file_at j (at_file k g m) = if decide (j = k) then g <$> file_at k m else file_at j m.
Proof.
  unfold file_at, at_file. simpl. destruct (decide (j = k)) as [->|Hj]; [apply list_lookup_alter_eq|by apply list_lookup_alter_ne].
Qed.

(** A worker takes a file. *)
Definition taken (k : nat) (m : browser_manager) : browser_manager :=
  at_file k (λ file, file <| q_running := true |>) m <| running := running m + 1 |>.

Definition retried (k : nat) (m : browser_manager) : browser_manager := at_file k (λ file, file <| q_failed := false |>) (taken k m).

Lemma file_at_retried k j m :
  file_at j (retried k m) = if decide (j = k) then (λ f, f <| q_running := true |> <| q_failed := false |>) <$> file_at k m else file_at j m.
Proof.
  unfold retried. rewrite file_at_alter. unfold taken. destruct (decide (j = k)) as [->|Hj].
  - change (file_at k (at_file k (λ file, file <| q_running := true |>) m <| running := running m + 1 |>))
      with (file_at k (at_file k (λ file, file <| q_running := true |>) m)).
    rewrite file_at_alter, decide_True by done. by destruct (file_at k m).
  - change (file_at j (at_file k (λ file, file <| q_running := true |>) m <| running := running m + 1 |>))
      with (file_at j (at_file k (λ file, file <| q_running := true |>) m)).
    by rewrite file_at_alter, decide_False.
Qed.

Lemma roster_retried held k f m :
  roster held m → file_at k m = Some f → q_running f = false → q_done f = false →
  roster ((k, q_failed f) :: held) (retried k m).
Proof.
  intros [H1 H2 H3 H4 H5] Hf Hr Hd.
  assert (k ∉ held.*1) as Hk.
  { intros ([k' b] & -> & Hin)%list_elem_of_fmap. destruct (H2 _ _ Hin) as (g & Hg & ? & _). simpl in *. congruence. }
  split.
  - rewrite fmap_cons. by apply NoDup_cons.
  - intros j b Hj. rewrite file_at_retried. apply elem_of_cons in Hj as [[= -> ->]|Hj].
    + rewrite decide_True, Hf by done. eexists. split; [done|]. by destruct f.
    + rewrite decide_False; [by apply (H2 j b)|]. intros ->. apply Hk, list_elem_of_fmap. by exists (k, b).
  - intros j g. rewrite file_at_retried. rewrite fmap_cons. destruct (decide (j = k)) as [->|Hj]; [intros _ _; left|].
    intros Hg Hgr. right. by apply (H3 j g).
  - change (running m + 1 = lengthZ ((k, q_failed f) :: held)). unfold lengthZ in *. simpl. lia.
  - change (errorCount m = countb q_failed (alter (λ file, file <| q_failed := false |>) k (alter (λ file, file <| q_running := true |>) k (fileQueue m)))
      + sumZ (λ kb, number_of_bool kb.2) ((k, q_failed f) :: held)).
    rewrite (countb_alter _ _ _ _ (f <| q_running := true |>)) by (rewrite list_lookup_alter_eq; unfold file_at in Hf; by rewrite Hf).
    rewrite (countb_alter _ _ _ _ f) by done. rewrite sumZ_cons, H5. destruct f; simpl. lia.
Qed.

Definition emptied (k : nat) (m : browser_manager) : browser_manager :=
  at_file k (λ file, file <| uploadedBytes := 0 |> <| completedBytes := 0 |>) m.

(** The start of an upload, from a file that was just taken. *)
Lemma start_upload_spec ios k now id f m m' b p :
  file_at k m = Some f → start_upload ios k now id (taken k m) = (m', b, p) →
  b = q_failed f
  ∧ touches k (emptied k (clearFileSpeed k (retried k m))) m'
  ∧ (∀ r, p ≠ Succeeded r).
Proof.
  intros Hf. unfold start_upload.
  assert (file_at k (taken k m) = Some (f <| q_running := true |>)) as Ht.
  { unfold taken. change (file_at k (at_file k (λ file, file <| q_running := true |>) m) = Some (f <| q_running := true |>)).
    by rewrite file_at_alter, decide_True, Hf. }
  rewrite Ht. cbv zeta. fold (retried k m).
  fold (emptied k (clearFileSpeed k (retried k m))). set (m2 := emptied k (clearFileSpeed k (retried k m))). clearbody m2.
  destruct (shouldUseChunkedUpload _ _).
  - assert (∀ q, touches k m2 (uploadChunked ios k now id q m2).1 ∧ ∀ r, (uploadChunked ios k now id q m2).2 ≠ Succeeded r) as Hu.
    { intros q. unfold uploadChunked. destruct (_ <? _); [done|]. destruct (_ <? _); [done|]. split; [apply send_chunk_touches|done]. }
    destruct (Hu (q_size (f <| q_running := true |>))) as [H2 H3].
    destruct (uploadChunked _ _ _ _ _ _) as [m3 p3]. intros [= <- <- <-]. split; [by destruct f|done].
  - intros [= <- <- <-]. split; [by destruct f|done].
Qed.

Lemma start_upload_roster ios k now id held f m m' b p :
  roster held m → file_at k m = Some f → q_running f = false → q_done f = false →
  start_upload ios k now id (taken k m) = (m', b, p) → roster ((k, b) :: held) m'.
Proof.
  intros Hro Hf Hr Hd Hs. apply (start_upload_spec _ _ _ _ f) in Hs as (-> & Ht & _); [|done].
  apply (touches_roster k _ _ _ Ht). apply (roster_status _ (clearFileSpeed k (retried k m))); [apply (alter_proj status_of); by intros []|done|].
  apply (touches_roster k _ (retried k m)); [apply rtc_once, touch_speed|]. by apply roster_retried.
Qed.

(** The end of an upload. *)
Definition ended_with (k : nat) (now : Z) (b : bool) (r : option jsval) (m : browser_manager) : browser_manager :=
  upload_ended k now (match r with Some result => upload_succeeded k b result m | None => upload_failed k b m end).

Definition roster_counters (m : browser_manager) := (running m, errorCount m).

Lemma roster_counters_status held m m' :
  status_of <$> fileQueue m' = status_of <$> fileQueue m → roster_counters m' = roster_counters m → roster held m → roster held m'.
Proof.
  intros Hs Hc [H1 H2 H3 H4 H5]. unfold roster_counters in Hc.
  assert (running m' = running m) as Hr by congruence. assert (errorCount m' = errorCount m) as He by congruence. clear Hc.
  split; try done; try congruence.
  - intros k b Hk. destruct (H2 k b Hk) as (f & Hf & ? & ? & ?). symmetry in Hs.
    destruct (proj_lookup status_of _ _ _ _ Hs Hf) as (g & Hg & Heq). unfold status_of in Heq. exists g.
    split; [done|]. split_and!; congruence.
  - intros k f Hf Hrf. destruct (proj_lookup status_of _ _ _ _ Hs Hf) as (g & Hg & Heq). unfold status_of in Heq.
    apply (H3 k g Hg). congruence.
  - rewrite (countb_status q_failed _ _ ltac:(unfold status_of; intros; congruence) Hs). congruence.
Qed.

(** The parts of an end that touch nothing the roster reads. *)
Lemma touch_roster_counters k m m' : touch k m m' → status_of <$> fileQueue m' = status_of <$> fileQueue m ∧ roster_counters m' = roster_counters m.
Proof. intros [Hs Hc]%touch_status. split; [done|]. unfold roster_counters, counters in *. congruence. Qed.

Lemma upload_ended_roster k now b held m :
  (∃ f, file_at k m = Some f) → NoDup (k :: held.*1) →
  (∀ j b, (j, b) ∈ held → ∃ f, file_at j m = Some f ∧ q_running f = true ∧ q_done f = false ∧ q_failed f = false) →
  (∀ j f, file_at j m = Some f → q_running f = true → j ∈ k :: held.*1) →
  running m = lengthZ ((k, b) :: held) → errorCount m = countb q_failed (fileQueue m) + sumZ (λ kb : nat * bool, number_of_bool kb.2) held →
  roster held (upload_ended k now m).
Proof.
  intros [f Hf] [Hk Hnd]%NoDup_cons H2 H3 H4 H5. unfold upload_ended.
  set (m1 := at_file k (λ file, file <| q_done := true |> <| q_running := false |>) m).
  assert (roster held (m1 <| running := running m - 1 |>)) as Hro.
  { split.
    - done.
    - intros j b' Hj. destruct (H2 j b' Hj) as (g & Hg & ?). exists g. split; [|done].
      change (file_at j m1 = Some g). unfold m1. rewrite file_at_alter, decide_False; [done|]. intros ->.
      apply Hk, list_elem_of_fmap. by exists (k, b').
    - intros j g Hg Hr. change (file_at j m1 = Some g) in Hg. unfold m1 in Hg. rewrite file_at_alter in Hg.
      destruct (decide (j = k)) as [->|Hj]; [rewrite Hf in Hg; simpl in Hg; simplify_eq; by destruct f|].
      destruct (proj1 (elem_of_cons _ _ _) (H3 j g Hg Hr)) as [|]; [done|done].
    - change (running m - 1 = lengthZ held). rewrite H4. unfold lengthZ. simpl. lia.
    - change (errorCount m = countb q_failed (alter (λ file, file <| q_done := true |> <| q_running := false |>) k (fileQueue m))
        + sumZ (λ kb, number_of_bool kb.2) held).
      rewrite (countb_alter _ _ _ _ f) by done. rewrite H5. destruct f; simpl. lia. }
  pose proof (touch_roster_counters k _ _ (touch_display k m1 now)) as [Hs Hc]. unfold roster_counters in Hc.
  apply (roster_counters_status held (m1 <| running := running m - 1 |>)); [exact Hs| |done].
  change ((running (refresh_speed_display now m1) - 1, errorCount (refresh_speed_display now m1)) = (running m1 - 1, errorCount m1)).
  congruence.
Qed.

(** The file leaves the roster, as failed or not. *)
Lemma roster_leaves k now b (fl : bool) held m m4 :
  roster ((k, b) :: held) m →
  status_of <$> fileQueue m4 = status_of <$> alter (λ f, f <| q_failed := fl |>) k (fileQueue m) →
  roster_counters m4 = (running m, errorCount m - number_of_bool b + number_of_bool fl) →
  roster held (upload_ended k now m4).
Proof.
  intros [H1 H2 H3 H4 H5] Hs Hc. destruct (H2 k b) as (f & Hf & Hr & Hd & Hfl); [left|].
  unfold roster_counters in Hc.
  assert (∀ j g, file_at j (at_file k (λ f, f <| q_failed := fl |>) m) = Some g → ∃ g', file_at j m4 = Some g' ∧ status_of g' = status_of g) as Hfwd.
  { intros j g Hg. symmetry in Hs. destruct (proj_lookup status_of _ _ _ _ Hs Hg) as (g' & ? & ?). by exists g'. }
  assert (∀ j g, file_at j m4 = Some g → ∃ g', file_at j (at_file k (λ f, f <| q_failed := fl |>) m) = Some g' ∧ status_of g' = status_of g) as Hbwd.
  { intros j g Hg. destruct (proj_lookup status_of _ _ _ _ Hs Hg) as (g' & ? & ?). by exists g'. }
  assert (k ∉ held.*1) as Hk by (by apply NoDup_cons in H1 as [? _]).
  apply (upload_ended_roster k now b); try done.
  - destruct (Hfwd k (f <| q_failed := fl |>)) as (g & ? & _); [by rewrite file_at_alter, decide_True, Hf|]. by exists g.
  - intros j b' Hj. destruct (H2 j b') as (g & Hg & ? & ? & ?); [by right|]. destruct (Hfwd j g) as (g' & ? & Hst).
    { rewrite file_at_alter, decide_False; [done|]. intros ->. apply Hk, list_elem_of_fmap. by exists (k, b'). }
    unfold status_of in Hst. exists g'. split; [done|]. split_and!; congruence.
  - intros j g Hg Hrg. destruct (Hbwd j g Hg) as (g' & Hg' & Hst). unfold status_of in Hst.
    rewrite file_at_alter in Hg'. destruct (decide (j = k)) as [->|Hj]; [left|]. apply (H3 j g' Hg'). congruence.
  - congruence.
  - rewrite (countb_status q_failed _ _ ltac:(unfold status_of; intros; congruence) Hs).
    rewrite (countb_alter _ _ _ _ f) by done. rewrite sumZ_cons in H5. simpl in H5. rewrite Hfl.
    assert (q_failed (f <| q_failed := fl |>) = fl) as -> by (by destruct f).
    assert (errorCount m4 = errorCount m - number_of_bool b + number_of_bool fl) by congruence. simpl. lia.
Qed.

Lemma succeeded_status k b result m :
  (b = true → 0 < errorCount m) →
  status_of <$> fileQueue (upload_succeeded k b result m) = status_of <$> fileQueue m
  ∧ roster_counters (upload_succeeded k b result m) = (running m, errorCount m - number_of_bool b).
Proof.
  intros Hb. unfold upload_succeeded.
  set (m1 := clearFileSpeed k (at_file k (λ file, file <| serverResult := result |>) m)).
  assert (status_of <$> fileQueue m1 = status_of <$> fileQueue m ∧ roster_counters m1 = roster_counters m) as [Hs1 Hc1].
  { destruct (touch_roster_counters k (at_file k (λ file, file <| serverResult := result |>) m) m1 (touch_speed k _ _)) as [E1 E2].
    split; [rewrite E1; apply (alter_proj status_of); by intros []|exact E2]. }
  clearbody m1. unfold roster_counters in Hc1. assert (errorCount m1 = errorCount m) as He by congruence.
  set (m2 := if b && (0 <? errorCount m1) then _ else m1).
  assert (fileQueue m2 = fileQueue m1 ∧ roster_counters m2 = (running m, errorCount m - number_of_bool b)) as [Hq2 Hc2].
  { unfold m2, roster_counters. destruct b; simpl; [|split; [done|]; rewrite Z.sub_0_r; congruence].
    destruct (Z.ltb_spec 0 (errorCount m1)) as [_|Hn]; [|specialize (Hb eq_refl); lia]. simpl. split; [done|]. congruence. }
  clearbody m2. rewrite <-Hq2 in Hs1. clear Hq2 Hc1 He m1.
  destruct (touch_roster_counters k _ _ (touch_bytes k m2 (q_size <$> file_at k m2))) as [Hs3 Hc3].
  set (m3 := updateFileTransferProgress k (q_size <$> file_at k m2) m2) in *. clearbody m3.
  rewrite Hs1 in Hs3. rewrite Hc2 in Hc3. clear Hs1 Hc2 m2. unfold roster_counters in Hc3.
  destruct (js_truthy _); [|split; [exact Hs3|exact Hc3]].
  split; [|exact Hc3]. simpl. rewrite (alter_proj status_of _ k); [exact Hs3|by intros []].
Qed.

Lemma failed_status k (b : bool) m :
  status_of <$> fileQueue (upload_failed k b m) = status_of <$> alter (λ f, f <| q_failed := true |>) k (fileQueue m)
  ∧ roster_counters (upload_failed k b m) = (running m, errorCount m - number_of_bool b + 1).
Proof.
  unfold upload_failed.
  set (m1 := clearFileSpeed k (at_file k (λ file, file <| q_failed := true |>) m)).
  destruct (touch_roster_counters k (at_file k (λ file, file <| q_failed := true |>) m) m1 (touch_speed k _ _)) as [E1 E2].
  clearbody m1. unfold roster_counters in *.
  destruct b; simpl; (split; [exact E1|]); simpl in E2.
  - rewrite Z.sub_add. congruence.
  - rewrite Z.sub_0_r. congruence.
Qed.

Lemma ended_roster k now b r held m : roster ((k, b) :: held) m → roster held (ended_with k now b r m).
Proof.
  intros Hro. pose proof Hro as [_ H2 _ _ H5]. destruct (H2 k b) as (f & Hf & Hr & Hd & Hfl); [left|].
  unfold ended_with. destruct r as [result|].
  - destruct (succeeded_status k b result m) as [Hs Hc].
    { intros ->. rewrite H5, sumZ_cons. simpl.
      assert (0 <= countb q_failed (fileQueue m)) by (apply sumZ_nonneg; intros q _; by destruct (q_failed q)).
      assert (0 <= sumZ (λ kb : nat * bool, number_of_bool kb.2) held) by (apply sumZ_nonneg; intros [? []] _; done). lia. }
    apply (roster_leaves k now b false held m); [done| |rewrite Hc; simpl; by rewrite Z.add_0_r].
    rewrite Hs. symmetry. apply (alter_proj_at status_of _ _ _ f); [done|]. by destruct f; simplify_eq/=.
  - destruct (failed_status k b m) as [Hs Hc]. by apply (roster_leaves k now b true held m).
Qed.

(** ** The books of bytes and of speeds *)

(** What those books read. *)
Definition booked (f : queued) :=
  (q_size f, (q_running f, q_done f), (uploadedBytes f, completedBytes f), (q_speed f, q_speedEpoch f)).
Definition book_counters (m : browser_manager) :=
  (totalBytes m, (globalUploadedBytes m, globalCompletedBytes m, networkBytesUploaded m), (activeSpeedSum m, speedEpoch m)).

Definition same_books (m m' : browser_manager) : Prop :=
  booked <$> fileQueue m' = booked <$> fileQueue m ∧ book_counters m' = book_counters m.

Definition moves (k : nat) : browser_manager → browser_manager → Prop := rtc (λ m m', touch k m m' ∨ same_books m m').

Lemma untouched_same_books m m' : untouched m m' → same_books m m'.
Proof.
  intros [H1 H2 H3 H4]. split.
  - assert (∀ l : list queued, booked <$> l = (λ t, let '(_, size, (r, d, _, _, _), bytes, speed) := t in (size, (r, d), bytes, speed)) <$> (tracked <$> l)) as E.
    { intros l0. rewrite <-list_fmap_compose. by apply list_fmap_ext. }
    by rewrite !E, H1.
  - unfold counters, book_counters in *. congruence.
Qed.

Lemma touches_moves k m m' : touches k m m' → moves k m m'.
Proof. intros H. eapply rtc_subrel; [|exact H]. by left. Qed.

Lemma same_books_moves k m m' : same_books m m' → moves k m m'.
Proof. intros. apply rtc_once. by right. Qed.

Lemma at_file_same_books f k m : (∀ q, booked (f q) = booked q) → same_books m (at_file k f m).
Proof. intros Hf. split; [by apply (alter_proj booked)|done]. Qed.

Lemma moves_then k m m' m'' : moves k m m' → touch k m' m'' ∨ same_books m' m'' → moves k m m''.
Proof. intros H1 H2. eapply rtc_r; eassumption. Qed.

Lemma succeeded_moves k b result m : moves k m (upload_succeeded k b result m).
Proof.
  unfold upload_succeeded.
  set (m1 := clearFileSpeed k (at_file k (λ file, file <| serverResult := result |>) m)).
  assert (moves k m m1) as H1.
  { eapply moves_then; [|left; apply touch_speed]. apply same_books_moves, at_file_same_books. by intros []. }
  clearbody m1. set (m2 := if b && (0 <? errorCount m1) then _ else m1).
  assert (moves k m m2) as H2 by (unfold m2; destruct (b && _); [eapply moves_then; [exact H1|by right]|done]). clearbody m2.
  assert (moves k m (updateFileTransferProgress k (q_size <$> file_at k m2) m2 <| successCount := successCount (updateFileTransferProgress k (q_size <$> file_at k m2) m2) + 1 |>)) as H3.
  { eapply moves_then; [eapply moves_then; [exact H2|left; apply touch_bytes]|by right]. }
  destruct (js_truthy _); [|exact H3]. eapply moves_then; [exact H3|]. right. apply at_file_same_books. by intros [].
Qed.

Lemma failed_moves k b m : moves k m (upload_failed k b m).
Proof.
  unfold upload_failed.
  assert (moves k m (clearFileSpeed k (at_file k (λ file, file <| q_failed := true |>) m))) as H1.
  { eapply moves_then; [|left; apply touch_speed]. apply same_books_moves, at_file_same_books. by intros []. }
  destruct b; [exact H1|]. eapply moves_then; [exact H1|by right].
Qed.

(** [moves] keep who is running and done. *)
Lemma moves_flags k m m' j f :
  moves k m m' → file_at j m = Some f → ∃ f', file_at j m' = Some f' ∧ q_running f' = q_running f ∧ q_done f' = q_done f.
Proof.
  intros H. revert f. induction H as [|m m1 m' H1 _ IH]; intros f Hf; [by exists f|].
  assert (∃ f1, file_at j m1 = Some f1 ∧ q_running f1 = q_running f ∧ q_done f1 = q_done f) as (f1 & Hf1 & E1 & E2).
  { destruct H1 as [Ht|[Hb _]].
    - apply touch_status in Ht as [Hs _]. symmetry in Hs. destruct (proj_lookup status_of _ _ _ _ Hs Hf) as (g & ? & Heq).
      unfold status_of in Heq. exists g. split; [done|]. split; congruence.
    - assert ((booked <$> fileQueue m1) !! j = Some (booked f)) as Hg by (unfold file_at in Hf; by rewrite Hb, list_lookup_fmap, Hf).
      rewrite list_lookup_fmap in Hg. unfold file_at. destruct (fileQueue m1 !! j) as [g|]; [|done]. apply (inj Some) in Hg.
      unfold booked in Hg. exists g. split; [done|]. split; congruence. }
  destruct (IH f1 Hf1) as (f' & ? & ? & ?). exists f'. split; [done|]. split; congruence.
Qed.
