(* ===== verification/BrowserBytes.v ===== *)
(** * The browser's byte and speed counters

    The manager counts bytes and adds up speeds incrementally. [byte_book]: its byte counters
    are the sums over the files of the run, those that were not done when it began ([old]
    marks the others). [speed_book]: the sum of speeds is the sum over the files of their
    speeds of the current epoch. *)

From Stdlib Require Import QArith Qcanon.
From S2P Require Import Prelude Js Browser BrowserUpload BrowserPreflight BrowserRun BrowserBooks.
Open Scope Z_scope.

Definition of_run (old : nat → bool) (g : queued → Z) (k : nat) (f : queued) : Z := if old k then 0 else g f.

Record byte_book (old : nat → bool) (m : browser_manager) : Prop := {
  bb_total : totalBytes m = sumZ q_size (fileQueue m);
  bb_file : ∀ k f, file_at k m = Some f → 0 <= uploadedBytes f <= completedBytes f ∧ completedBytes f <= q_size f;
  bb_clean : ∀ k f, file_at k m = Some f → q_done f = false → q_running f = false → completedBytes f = 0;
  bb_old : ∀ k f, file_at k m = Some f → old k = true → q_done f = true;
  bb_uploaded : globalUploadedBytes m = sum_at (of_run old uploadedBytes) (fileQueue m);
  bb_completed : globalCompletedBytes m = sum_at (of_run old completedBytes) (fileQueue m);
  bb_network : networkBytesUploaded m = globalUploadedBytes m }.

Record speed_book (m : browser_manager) : Prop := {
  sb_sum : activeSpeedSum m = sumQc (current_speed (speedEpoch m)) (fileQueue m);
  sb_speed : ∀ k f, file_at k m = Some f → (0 <= q_speed f)%Qc;
  sb_epoch : ∀ k f e, file_at k m = Some f → q_speedEpoch f = Some e → e <= speedEpoch m }.

(** ** What reads the same is kept *)

Definition byte_fields (f : queued) := (q_size f, (q_running f, q_done f), (uploadedBytes f, completedBytes f)).
Definition byte_counters (m : browser_manager) :=
  (totalBytes m, globalUploadedBytes m, globalCompletedBytes m, networkBytesUploaded m).
Definition speed_fields (f : queued) := (q_speed f, q_speedEpoch f).
Definition speed_counters (m : browser_manager) := (activeSpeedSum m, speedEpoch m).

Lemma booked_bytes (l l' : list queued) : booked <$> l' = booked <$> l → byte_fields <$> l' = byte_fields <$> l.
Proof.
  intros H. assert (∀ l : list queued, byte_fields <$> l = (λ t, let '(size, flags, bytes, _) := t in (size, flags, bytes)) <$> (booked <$> l)) as E.
  { intros l0. rewrite <-list_fmap_compose. by apply list_fmap_ext. }
  by rewrite !E, H.
Qed.

Lemma booked_speeds (l l' : list queued) : booked <$> l' = booked <$> l → speed_fields <$> l' = speed_fields <$> l.
Proof.
  intros H. assert (∀ l : list queued, speed_fields <$> l = (λ t, let '(_, _, _, speed) := t in speed) <$> (booked <$> l)) as E.
  { intros l0. rewrite <-list_fmap_compose. by apply list_fmap_ext. }
  by rewrite !E, H.
Qed.

Lemma sum_at_proj {B} (p : queued → B) g (l l' : list queued) :
  (∀ k f f', p f = p f' → g k f = g k f') → p <$> l' = p <$> l → sum_at g l' = sum_at g l.
Proof.
  intros Hg H. apply sum_at_ext; [by apply (f_equal length) in H; rewrite !length_fmap in H|].
  intros k q q' Hq Hq'. destruct (proj_lookup p _ _ _ _ H Hq) as (q2 & Hq2 & Heq). apply Hg.
  assert (q' = q2) as -> by congruence. done.
Qed.

Lemma sumQc_proj {B} (p : queued → B) (g : queued → Qc) (l l' : list queued) :
  (∀ f f', p f = p f' → g f = g f') → p <$> l' = p <$> l → sumQc g l' = sumQc g l.
Proof.
  intros Hg. revert l. induction l' as [|x l' IH]; intros [|y l] H; try done.
  rewrite !fmap_cons in H. pose proof (f_equal head H) as Hx. apply (inj Some) in Hx. apply (f_equal tail) in H.
  simpl. f_equal; [by apply Hg|by apply IH].
Qed.

Lemma of_run_fields old g k f f' : (∀ f f', byte_fields f = byte_fields f' → g f = g f') → byte_fields f = byte_fields f' →
  of_run old g k f = of_run old g k f'.
Proof. intros Hg H. unfold of_run. destruct (old k); [done|]. by apply Hg. Qed.

Lemma byte_book_same old m m' :
  byte_fields <$> fileQueue m' = byte_fields <$> fileQueue m → byte_counters m' = byte_counters m →
  byte_book old m → byte_book old m'.
Proof.
  intros Hq Hc [H1 H2 H3 H4 H5 H6 H7]. unfold byte_counters in Hc.
  assert (∀ k f, file_at k m' = Some f → ∃ g, file_at k m = Some g ∧ byte_fields g = byte_fields f) as Hl
    by (intros k f Hf; exact (proj_lookup byte_fields _ _ _ _ Hq Hf)).
  split.
  - rewrite (sumZ_proj byte_fields q_size _ _ ltac:(unfold byte_fields; intros; congruence) Hq). congruence.
  - intros k f Hf. destruct (Hl k f Hf) as (g & Hg & Heq). unfold byte_fields in Heq. specialize (H2 k g Hg).
    assert (uploadedBytes f = uploadedBytes g ∧ completedBytes f = completedBytes g ∧ q_size f = q_size g) as (-> & -> & ->)
      by (split_and!; congruence). done.
  - intros k f Hf Hd Hr. destruct (Hl k f Hf) as (g & Hg & Heq). unfold byte_fields in Heq.
    transitivity (completedBytes g); [congruence|]. apply (H3 k g Hg); congruence.
  - intros k f Hf Ho. destruct (Hl k f Hf) as (g & Hg & Heq). unfold byte_fields in Heq.
    transitivity (q_done g); [congruence|]. by apply (H4 k g Hg).
  - rewrite (sum_at_proj byte_fields _ _ _ (λ k f f', of_run_fields old uploadedBytes k f f' ltac:(unfold byte_fields; intros; congruence)) Hq). congruence.
  - rewrite (sum_at_proj byte_fields _ _ _ (λ k f f', of_run_fields old completedBytes k f f' ltac:(unfold byte_fields; intros; congruence)) Hq). congruence.
  - congruence.
Qed.

Lemma current_speed_fields epoch f f' : speed_fields f = speed_fields f' → current_speed epoch f = current_speed epoch f'.
Proof.
  unfold speed_fields, current_speed. intros H. assert (q_speedEpoch f = q_speedEpoch f') as -> by congruence. case_bool_decide; congruence.
Qed.

Lemma speed_book_same m m' :
  speed_fields <$> fileQueue m' = speed_fields <$> fileQueue m → speed_counters m' = speed_counters m →
  speed_book m → speed_book m'.
Proof.
  intros Hq Hc [H1 H2 H3]. unfold speed_counters in Hc.
  assert (∀ k f, file_at k m' = Some f → ∃ g, file_at k m = Some g ∧ speed_fields g = speed_fields f) as Hl
    by (intros k f Hf; exact (proj_lookup speed_fields _ _ _ _ Hq Hf)).
  assert (speedEpoch m' = speedEpoch m) as He by congruence. split.
  - rewrite He, (sumQc_proj speed_fields _ _ _ (current_speed_fields _) Hq). congruence.
  - intros k f Hf. destruct (Hl k f Hf) as (g & Hg & Heq). unfold speed_fields in Heq.
    assert (q_speed f = q_speed g) as -> by congruence. by apply (H2 k g).
  - intros k f e Hf Hfe. destruct (Hl k f Hf) as (g & Hg & Heq). unfold speed_fields in Heq. rewrite He.
    apply (H3 k g e Hg). congruence.
Qed.

(** ** Touches *)

Lemma safe_loaded_bounds loaded size : 0 <= size → 0 <= safe_loaded loaded size <= size.
Proof. unfold safe_loaded. destruct loaded; lia. Qed.

(** Setting the byte counts of a file of the run. *)
Lemma byte_book_set old m k f u c :
  byte_book old m → file_at k m = Some f → q_running f = true → q_done f = false →
  uploadedBytes f <= u <= c → completedBytes f <= c <= q_size f →
  byte_book old (at_file k (λ f, f <| uploadedBytes := u |> <| completedBytes := c |>) m
    <| globalUploadedBytes := globalUploadedBytes m + (u - uploadedBytes f) |>
    <| networkBytesUploaded := globalUploadedBytes m + (u - uploadedBytes f) |>
    <| globalCompletedBytes := globalCompletedBytes m + (c - completedBytes f) |>).
Proof.
  intros [H1 H2 H3 H4 H5 H6 H7] Hf Hr Hd Hu Hc.
  assert (old k = false) as Hold by (destruct (old k) eqn:Ho; [|done]; specialize (H4 k f Hf Ho); congruence).
  set (g := λ f, f <| uploadedBytes := u |> <| completedBytes := c |>).
  assert (∀ j q, file_at j (at_file k g m) = Some q → (j = k ∧ q = g f) ∨ (j ≠ k ∧ file_at j m = Some q)) as Hl.
  { intros j q. rewrite file_at_alter. destruct (decide (j = k)) as [->|Hj]; [rewrite Hf; simpl; intros; left; split; congruence|by right]. }
  pose proof (H2 k f Hf) as Hb. split; simpl.
  - rewrite (sumZ_alter q_size g k _ f) by done. destruct f; simpl in *. lia.
  - intros j q Hq. destruct (Hl j q Hq) as [[-> ->]|[_ ?]]; [destruct f; simpl in *; lia|by apply (H2 j)].
  - intros j q Hq. destruct (Hl j q Hq) as [[-> ->]|[_ ?]]; [destruct f; simpl in *; congruence|by apply (H3 j)].
  - intros j q Hq. destruct (Hl j q Hq) as [[-> ->]|[_ ?]]; [congruence|by apply (H4 j)].
  - rewrite (sum_at_alter _ g k _ f) by done. unfold of_run at 2 3. rewrite Hold, H5. destruct f; simpl. lia.
  - rewrite (sum_at_alter _ g k _ f) by done. unfold of_run at 2 3. rewrite Hold, H6. destruct f; simpl. lia.
  - done.
Qed.

Lemma updateFileTransferProgress_set k loaded m f :
  file_at k m = Some f → networkBytesUploaded m = globalUploadedBytes m →
  let u := Z.max (uploadedBytes f) (safe_loaded loaded (q_size f)) in
  let c := Z.max (completedBytes f) (safe_loaded loaded (q_size f)) in
  updateFileTransferProgress k loaded m =
    at_file k (λ f, f <| uploadedBytes := u |> <| completedBytes := c |>) m
    <| globalUploadedBytes := globalUploadedBytes m + (u - uploadedBytes f) |>
    <| networkBytesUploaded := globalUploadedBytes m + (u - uploadedBytes f) |>
    <| globalCompletedBytes := globalCompletedBytes m + (c - completedBytes f) |>.
Proof.
  intros Hf Hnet u c. unfold updateFileTransferProgress. rewrite Hf. fold u c. cbv zeta.
  rewrite !Z.max_r by lia.
  destruct (Z.ltb_spec 0 (u - uploadedBytes f)) as [|Hu], (Z.ltb_spec 0 (c - completedBytes f)) as [|Hc]; try reflexivity.
  all: try (assert (u - uploadedBytes f = 0) as E1 by lia); try (assert (c - completedBytes f = 0) as E2 by lia).
  all: rewrite ?E1, ?E2, ?Z.add_0_r; destruct m; simpl in *; by rewrite ?Hnet.
Qed.

Lemma byte_book_touch old k m m' f :
  touch k m m' → file_at k m = Some f → q_running f = true → q_done f = false → byte_book old m → byte_book old m'.
Proof.
  intros Ht Hf Hr Hd Hb. destruct Ht as [m loaded|m speed|m now|m m' Hun].
  - rewrite (updateFileTransferProgress_set k loaded m f Hf (bb_network _ _ Hb)). pose proof (bb_file _ _ Hb k f Hf).
    pose proof (safe_loaded_bounds loaded (q_size f)). apply byte_book_set; try done; lia.
  - apply (byte_book_same old m); [|by unfold updateFileSpeed; rewrite Hf|done].
    unfold updateFileSpeed. rewrite Hf. apply (alter_proj byte_fields). by intros [].
  - unfold refresh_speed_display, getCurrentSpeedForDisplay. cbv zeta.
    apply (byte_book_same old m); [| |done]; by destruct (_ && _), (5000 <=? _).
  - apply untouched_same_books in Hun as [Hq Hc]. apply (byte_book_same old m); [by apply booked_bytes| |done].
    unfold byte_counters, book_counters in *. congruence.
Qed.

Lemma byte_book_moves old k m m' f :
  moves k m m' → file_at k m = Some f → q_running f = true → q_done f = false → byte_book old m → byte_book old m'.
Proof.
  intros H. revert f. induction H as [|m m1 m' H1 _ IH]; intros f Hf Hr Hd Hb; [done|].
  destruct (moves_flags k m m1 k f) as (f1 & Hf1 & E1 & E2); [by apply rtc_once|done|].
  apply (IH f1); [done|congruence|congruence|]. destruct H1 as [Ht|[Hq Hc]].
  - by apply (byte_book_touch old k m m1 f).
  - apply (byte_book_same old m); [by apply booked_bytes| |done]. unfold byte_counters, book_counters in *. congruence.
Qed.

(** ** Speeds *)

Lemma sumQc_nonneg g l : (∀ f, f ∈ l → (0 <= g f)%Qc) → (0 <= sumQc g l)%Qc.
Proof.
  induction l as [|x l IH]; intros H; [done|]. simpl. rewrite <-(Qcplus_0_l 0). apply Qcplus_le_compat; [apply H; left|].
  apply IH. intros f Hf. apply H. by right.
Qed.

Lemma positive_or_zero_nonneg q : (0 <= positive_or_zero q)%Qc.
Proof. unfold positive_or_zero. destruct (Qclt_le_dec 0 q); [by apply Qclt_le_weak|done]. Qed.

Lemma Qcmax_nonneg q : (0 <= q)%Qc → Qcmax 0 q = q.
Proof. unfold Qcmax. destruct (Qclt_le_dec 0 q); [done|]. intros. by apply Qcle_antisym. Qed.

Lemma sumQc_ext g h l : (∀ f, f ∈ l → g f = h f) → sumQc g l = sumQc h l.
Proof.
  induction l as [|x l IH]; intros H; [done|]. simpl. rewrite (H x) by left. f_equal. apply IH. intros f Hf. apply H. by right.
Qed.

Lemma sumQc_zero g l : (∀ f, f ∈ l → g f = 0%Qc) → sumQc g l = 0%Qc.
Proof.
  induction l as [|x l IH]; intros H; [done|]. simpl. rewrite (H x) by left. rewrite IH; [done|]. intros f Hf. apply H. by right.
Qed.

Lemma sumQc_app g l l' : sumQc g (l ++ l') = (sumQc g l + sumQc g l')%Qc.
Proof. induction l as [|x l IH]; simpl; [ring|]. rewrite IH. ring. Qed.

(** A new epoch makes every recorded speed a thing of the past. *)
Lemma new_epoch_zero m e : speed_book m → speedEpoch m < e → sumQc (current_speed e) (fileQueue m) = 0%Qc.
Proof.
  intros [_ _ He] Hlt. apply sumQc_zero. intros f (k & Hk)%list_elem_of_lookup. unfold current_speed.
  case_bool_decide as H; [|done]. specialize (He k f e Hk H). lia.
Qed.

Lemma speed_book_update k speed m : speed_book m → speed_book (updateFileSpeed k speed m).
Proof.
  intros Hb. pose proof Hb as [H1 H2 H3]. unfold updateFileSpeed. destruct (file_at k m) as [f|] eqn:Hf; [|done].
  set (s := positive_or_zero speed). pose proof (positive_or_zero_nonneg speed) as Hs. fold s in Hs.
  set (g := λ file, file <| q_speed := s |> <| q_speedEpoch := Some (speedEpoch m) |>).
  assert (∀ j q, file_at j (at_file k g m) = Some q → (j = k ∧ q = g f) ∨ file_at j m = Some q) as Hl.
  { intros j q. rewrite file_at_alter. destruct (decide (j = k)) as [->|Hj]; [rewrite Hf; simpl; intros; left; split; congruence|by right]. }
  assert (current_speed (speedEpoch m) (g f) = s) as Hg by (unfold current_speed; destruct f; simpl; by rewrite bool_decide_eq_true_2).
  split.
  - change (Qcmax 0 (activeSpeedSum m + s - current_speed (speedEpoch m) f)%Qc = sumQc (current_speed (speedEpoch m)) (alter g k (fileQueue m))).
    rewrite (sumQc_alter _ g k _ f), Hg, <-H1 by done. rewrite Qcmax_nonneg; [ring|].
    replace (activeSpeedSum m + s - current_speed (speedEpoch m) f)%Qc with (sumQc (current_speed (speedEpoch m)) (alter g k (fileQueue m)))
      by (rewrite (sumQc_alter _ g k _ f), Hg, <-H1 by done; ring).
    apply sumQc_nonneg. intros q (j & Hj)%list_elem_of_lookup. unfold current_speed. case_bool_decide; [|done].
    destruct (Hl j q Hj) as [[-> ->]|Hq]; [by destruct f|by apply (H2 j)].
  - intros j q Hq. destruct (Hl j q Hq) as [[-> ->]|Hq']; [by destruct f|by apply (H2 j)].
  - intros j q e Hq He. change (e <= speedEpoch m). destruct (Hl j q Hq) as [[-> ->]|Hq']; [destruct f; simpl in He; simplify_eq; lia|by apply (H3 j q)].
Qed.

Lemma speed_book_display now m : speed_book m → speed_book (refresh_speed_display now m).
Proof.
  intros Hb. unfold refresh_speed_display, getCurrentSpeedForDisplay. cbv zeta.
  set (m1 := if negb (now - lastProgressTs m <=? 2000) && _ then _ else m).
  assert (speed_book m1) as H1.
  { unfold m1. destruct (_ && _); [|done]. pose proof (new_epoch_zero m (speedEpoch m + 1) Hb ltac:(lia)) as Hz.
    destruct Hb as [_ H2 H3]. split; [by symmetry|exact H2|]. intros k f e Hf He. specialize (H3 k f e Hf He). simpl. lia. }
  clearbody m1. apply (speed_book_same m1); [by destruct (5000 <=? _)..|done].
Qed.

Lemma speed_book_touch k m m' : touch k m m' → speed_book m → speed_book m'.
Proof.
  intros [m0 loaded|m0 speed|m0 now|m0 m1 Hun] Hb.
  - apply (speed_book_same m0); [| |done]; unfold updateFileTransferProgress; (destruct (file_at k m0); [|done]); cbv zeta;
      destruct (0 <? _), (0 <? _); try done; apply (alter_proj speed_fields); by intros [].
  - by apply speed_book_update.
  - by apply speed_book_display.
  - apply untouched_same_books in Hun as [Hq Hc]. apply (speed_book_same m0); [by apply booked_speeds| |done].
    unfold speed_counters, book_counters in *. congruence.
Qed.

Lemma speed_book_moves k m m' : moves k m m' → speed_book m → speed_book m'.
Proof.
  induction 1 as [|m m1 m' H1 _ IH]; [done|]. intros Hb. apply IH. destruct H1 as [Ht|[Hq Hc]]; [by apply (speed_book_touch k m)|].
  apply (speed_book_same m); [by apply booked_speeds| |done]. unfold speed_counters, book_counters in *. congruence.
Qed.
