(* ===== verification/BrowserTurns.v ===== *)
(** * The turns of the browser's workers

    [uploading]: the state of the manager while workers run, with the files they hold. Taking
    a file, every event of an upload and its end keep it; so do whole turns of a worker,
    which also move the index past every file that is done or held. *)

From Stdlib Require Import QArith Qcanon Sorting.Sorted.
From S2P Require Import Prelude Js Browser BrowserUpload BrowserPreflight BrowserRun BrowserBooks BrowserBytes.
Open Scope Z_scope.

Definition not_done (q : queued) : bool := negb (q_done q).

(** The limits a run works with: the fallback's, or those of the desktop in their bounds. *)
Definition config_ok (m : browser_manager) : Prop :=
  1 <= CONCURRENCY m <= 6 ∧ 0 < SINGLE_FILE_MAX_BYTES m ∧ 0 < chunkSizeBytes m <= BrowserLimits.MaxChunkBytes.

Lemma config_ok_same m m' : config m' = config m → config_ok m → config_ok m'.
Proof. unfold config, config_ok. intros [= -> -> ->]. done. Qed.

Record uploading (old : nat → bool) (held : list (nat * bool)) (m : browser_manager) : Prop := {
  up_roster : roster held m;
  up_bytes : byte_book old m;
  up_speed : speed_book m;
  up_behind : ∀ k f, file_at k m = Some f → (k < nextUploadIndex m)%nat → q_done f = true ∨ k ∈ held.*1;
  up_ahead : ∀ k, k ∈ held.*1 → (k < nextUploadIndex m)%nat;
  up_pending : pendingCount m = countb not_done (fileQueue m);
  up_progress : isUploadInProgress m = true;
  up_config : config_ok m }.

Lemma not_done_status f g : status_of f = status_of g → not_done f = not_done g.
Proof. unfold status_of, not_done. intros. f_equal. congruence. Qed.

(** What reads only the status and the counters. *)
Lemma uploading_rest old held m m' :
  status_of <$> fileQueue m' = status_of <$> fileQueue m → counters m' = counters m →
  byte_book old m' → speed_book m' → uploading old held m → uploading old held m'.
Proof.
  intros Hs Hc Hb Hsp [H1 H2 H3 H4 H5 H6 H7 H8]. pose proof (roster_status held m m' Hs Hc H1) as Hro. unfold counters in Hc.
  assert (nextUploadIndex m' = nextUploadIndex m) as Hn by congruence.
  assert (config m' = config m) as Hcf by congruence. split; try done.
  - intros k f Hf Hk. destruct (proj_lookup status_of _ _ _ _ Hs Hf) as (g & Hg & Heq). unfold status_of in Heq.
    destruct (H4 k g Hg) as [?|?]; [lia|left; congruence|by right].
  - intros k Hk. rewrite Hn. by apply H5.
  - rewrite (countb_status not_done _ _ not_done_status Hs). congruence.
  - congruence.
  - by apply (config_ok_same m).
Qed.

Lemma held_file old held m k b : uploading old held m → (k, b) ∈ held →
  ∃ f, file_at k m = Some f ∧ q_running f = true ∧ q_done f = false ∧ q_failed f = false.
Proof. intros Hup. apply (ro_held _ _ (up_roster _ _ _ Hup)). Qed.

Lemma uploading_touches old held m m' k b :
  touches k m m' → (k, b) ∈ held → uploading old held m →
  uploading old held m' ∧ status_of <$> fileQueue m' = status_of <$> fileQueue m
  ∧ nextUploadIndex m' = nextUploadIndex m ∧ config m' = config m.
Proof.
  intros Ht Hk Hup. destruct (held_file _ _ _ _ _ Hup Hk) as (f & Hf & Hr & Hd & _).
  pose proof (touches_moves k m m' Ht) as Hm. destruct (touches_status k m m' Ht) as [Hs Hc].
  split; [|unfold counters in Hc; split_and!; congruence]. apply (uploading_rest old held m m' Hs Hc); [| |done].
  - by apply (byte_book_moves old k m m' f); [..|apply Hup].
  - by apply (speed_book_moves k m); [|apply Hup].
Qed.

(** ** Taking a file *)

Lemma byte_book_retried old m k f :
  byte_book old m → file_at k m = Some f → q_running f = false → q_done f = false → byte_book old (retried k m).
Proof.
  intros [H1 H2 H3 H4 H5 H6 H7] Hf Hr Hd.
  set (g := λ f, f <| q_running := true |> <| q_failed := false |>).
  assert (∀ j q, file_at j (retried k m) = Some q → (j = k ∧ q = g f) ∨ (j ≠ k ∧ file_at j m = Some q)) as Hl.
  { intros j q. rewrite file_at_retried. destruct (decide (j = k)) as [->|Hj]; [rewrite Hf; simpl; intros [= <-]; by left|by right]. }
  split.
  - change (totalBytes m = sumZ q_size (alter (λ q, q <| q_failed := false |>) k (alter (λ q, q <| q_running := true |>) k (fileQueue m)))).
    by rewrite !(sumZ_alter_same q_size) by (by intros []).
  - intros j q Hq. destruct (Hl j q Hq) as [[-> ->]|[_ ?]]; [specialize (H2 k f Hf); by destruct f|by apply (H2 j)].
  - intros j q Hq. destruct (Hl j q Hq) as [[-> ->]|[_ ?]]; [by destruct f|by apply (H3 j)].
  - intros j q Hq. destruct (Hl j q Hq) as [[-> ->]|[_ ?]]; [intros Ho; specialize (H4 k f Hf Ho); congruence|by apply (H4 j)].
  - change (globalUploadedBytes m = sum_at (of_run old uploadedBytes) (alter (λ q, q <| q_failed := false |>) k (alter (λ q, q <| q_running := true |>) k (fileQueue m)))).
    by rewrite !sum_at_alter_same by (intros ? []; unfold of_run; by destruct (old _)).
  - change (globalCompletedBytes m = sum_at (of_run old completedBytes) (alter (λ q, q <| q_failed := false |>) k (alter (λ q, q <| q_running := true |>) k (fileQueue m)))).
    by rewrite !sum_at_alter_same by (intros ? []; unfold of_run; by destruct (old _)).
  - exact H7.
Qed.

Lemma speed_book_retried m k : speed_book m → speed_book (retried k m).
Proof.
  apply speed_book_same; [|done]. unfold retried, taken. simpl. rewrite !(alter_proj speed_fields) by (by intros []). done.
Qed.

Lemma uploading_start ios old held m k now id f m' b p :
  uploading old held m → (nextUploadIndex m <= k)%nat →
  (∀ j g, file_at j m = Some g → (nextUploadIndex m <= j < k)%nat → q_running g || q_done g = true) →
  file_at k m = Some f → q_running f = false → q_done f = false →
  start_upload ios k now id (taken k (m <| nextUploadIndex := S k |>)) = (m', b, p) →
  uploading old ((k, b) :: held) m' ∧ nextUploadIndex m' = S k ∧ status_of <$> fileQueue m' = status_of <$> fileQueue (retried k m)
  ∧ config m' = config m ∧ (∀ r, p ≠ Succeeded r).
Proof.
  intros [H1 H2 H3 H4 H5 H6 H7 H8] Hk Hskip Hf Hr Hd Hst.
  set (m0 := m <| nextUploadIndex := S k |>) in *.
  assert (roster held m0) as Hro by (by apply (roster_counters_status held m)).
  pose proof (start_upload_roster ios k now id held f m0 m' b p Hro Hf Hr Hd Hst) as Hro'.
  destruct (start_upload_spec ios k now id f m0 m' b p Hf Hst) as (-> & Ht & Hp).
  assert (byte_book old (retried k m0)) as Hb0 by (apply (byte_book_retried old m0 k f); [by apply (byte_book_same old m)|done..]).
  assert (file_at k (retried k m0) = Some (f <| q_running := true |> <| q_failed := false |>)) as Hf0
    by (rewrite file_at_retried, decide_True by done; change (file_at k m0) with (file_at k m); by rewrite Hf).
  set (m1 := clearFileSpeed k (retried k m0)) in *.
  assert (touches k (retried k m0) m1) as Ht1 by apply rtc_once, touch_speed.
  assert (byte_book old m1) as Hb1 by (apply (byte_book_moves old k (retried k m0) m1 _ (touches_moves _ _ _ Ht1) Hf0); [by destruct f..|done]).
  assert (speed_book m1) as Hs1 by (apply (speed_book_moves k (retried k m0) m1 (touches_moves _ _ _ Ht1)), speed_book_retried; by apply (speed_book_same m)).
  destruct (touches_status _ _ _ Ht1) as [Hst1 Hc1].
  destruct (moves_flags k _ m1 k _ (touches_moves _ _ _ Ht1) Hf0) as (f1 & Hf1 & Er & Ed).
  assert (same_books m1 (emptied k m1)) as Hem.
  { split; [|done]. apply (alter_proj_at booked _ _ _ f1); [exact Hf1|].
    pose proof (bb_file _ _ Hb1 k f1 Hf1). assert (completedBytes f1 = 0) as E.
    { assert (∀ q q', byte_fields q' = byte_fields q → completedBytes q' = completedBytes q) by (unfold byte_fields; intros; congruence).
      assert (completedBytes (f <| q_running := true |> <| q_failed := false |>) = 0) as E0.
      { pose proof (bb_clean _ _ H2 k f Hf Hd Hr) as E0. by destruct f. }
      unfold m1, clearFileSpeed, updateFileSpeed in Hf1. rewrite Hf0 in Hf1. rewrite file_at_alter, decide_True in Hf1 by done.
      change (file_at k (retried k m0 <| activeSpeedSum := _ |>)) with (file_at k (retried k m0)) in Hf1. rewrite Hf0 in Hf1.
      simpl in Hf1. injection Hf1 as <-. by destruct f. }
    assert (uploadedBytes f1 = 0) by lia. unfold booked. destruct f1. simpl in *. by subst. }
  assert (moves k m1 m') as Hmv by (eapply rtc_l; [right; exact Hem|by apply touches_moves]).
  destruct (touches_status _ _ _ Ht) as [Hst2 Hc2].
  assert (status_of <$> fileQueue m' = status_of <$> fileQueue (retried k m0)) as Hst'.
  { rewrite Hst2, <-Hst1. apply (alter_proj status_of). by intros []. }
  assert (counters m' = counters (retried k m0)) as Hc' by (rewrite Hc2, <-Hc1; done).
  unfold counters in Hc'.
  assert (nextUploadIndex m' = S k) as Hn by (by assert (nextUploadIndex m' = nextUploadIndex (retried k m0)) as -> by congruence).
  assert (config m' = config m) as Hcf by (by assert (config m' = config (retried k m0)) as -> by congruence).
  split; [|by split_and!]. split.
  - exact Hro'.
  - apply (byte_book_moves old k m1 m' f1 Hmv Hf1); [destruct f; simpl in *; congruence..|done].
  - by apply (speed_book_moves k m1 m' Hmv).
  - intros j g Hg Hj. rewrite Hn in Hj. rewrite fmap_cons. destruct (decide (j = k)) as [->|Hjk]; [right; left|].
    destruct (proj_lookup status_of _ _ _ _ Hst' Hg) as (g' & Hg' & Heq).
    change (file_at j (retried k m0) = Some g') in Hg'. rewrite file_at_retried, decide_False in Hg' by done.
    change (file_at j m = Some g') in Hg'. unfold status_of in Heq.
    assert (q_done g = q_done g') as -> by congruence.
    destruct (decide (j < nextUploadIndex m)%nat) as [Hlt|Hge]; [destruct (H4 j g' Hg' Hlt); [by left|by right; right]|].
    assert (q_running g' || q_done g' = true) as Hrd by (apply (Hskip j g' Hg'); lia).
    apply orb_true_iff in Hrd as [Hrun|?]; [|by left]. right. right. by apply (ro_running _ _ H1 j g').
  - intros j. rewrite fmap_cons, Hn. intros [->|Hj]%elem_of_cons; [simpl; lia|]. specialize (H5 j Hj). lia.
  - assert (pendingCount m' = pendingCount m) as -> by (by assert (pendingCount m' = pendingCount (retried k m0)) as -> by congruence).
    rewrite H6, (countb_status not_done _ _ not_done_status Hst').
    change (fileQueue (retried k m0)) with (alter (λ q, q <| q_failed := false |>) k (alter (λ q, q <| q_running := true |>) k (fileQueue m))).
    unfold countb. by rewrite !sumZ_alter_same by (by intros []).
  - by assert (isUploadInProgress m' = isUploadInProgress (retried k m0)) as -> by congruence.
  - by apply (config_ok_same m).
Qed.

(** ** The end of an upload *)

Definition finished (k : nat) (m : browser_manager) : browser_manager :=
  at_file k (λ file, file <| q_done := true |> <| q_running := false |>) m.

Lemma byte_book_finished old m k : byte_book old m → byte_book old (finished k m).
Proof.
  intros [H1 H2 H3 H4 H5 H6 H7]. destruct (file_at k m) as [f|] eqn:Hf.
  - set (g := λ f, f <| q_done := true |> <| q_running := false |>).
    assert (∀ j q, file_at j (finished k m) = Some q → (j = k ∧ q = g f) ∨ (j ≠ k ∧ file_at j m = Some q)) as Hl.
    { intros j q. unfold finished. rewrite file_at_alter. destruct (decide (j = k)) as [->|Hj]; [rewrite Hf; intros [= <-]; by left|by right]. }
    split.
    + change (totalBytes m = sumZ q_size (alter g k (fileQueue m))). by rewrite sumZ_alter_same by (by intros []).
    + intros j q Hq. destruct (Hl j q Hq) as [[-> ->]|[_ ?]]; [specialize (H2 k f Hf); by destruct f|by apply (H2 j)].
    + intros j q Hq. destruct (Hl j q Hq) as [[-> ->]|[_ ?]]; [by destruct f|by apply (H3 j)].
    + intros j q Hq. destruct (Hl j q Hq) as [[-> ->]|[_ ?]]; [by destruct f|by apply (H4 j)].
    + change (globalUploadedBytes m = sum_at (of_run old uploadedBytes) (alter g k (fileQueue m))).
      by rewrite sum_at_alter_same by (intros ? []; unfold of_run; by destruct (old _)).
    + change (globalCompletedBytes m = sum_at (of_run old completedBytes) (alter g k (fileQueue m))).
      by rewrite sum_at_alter_same by (intros ? []; unfold of_run; by destruct (old _)).
    + done.
  - assert (fileQueue (finished k m) = fileQueue m) as E.
    { simpl. rewrite (list_alter_ext _ (λ q, q) _ (fileQueue m) k); [by rewrite list_alter_id|unfold file_at in Hf; intros; congruence|done]. }
    apply (byte_book_same old m); [by rewrite E|done..].
Qed.

(** What the end of an upload leaves alone before its [finally]. *)
Definition cursor (m : browser_manager) := (nextUploadIndex m, pendingCount m, isUploadInProgress m, config m, q_done <$> fileQueue m).

Lemma touch_cursor k m m' : touch k m m' → cursor m' = cursor m.
Proof.
  intros Ht. apply touch_status in Ht as [Hs Hc]. unfold counters, cursor in *.
  assert (∀ l : list queued, q_done <$> l = (λ t, let '(_, _, (_, d, _)) := t in d) <$> (status_of <$> l)) as E
    by (intros l0; rewrite <-list_fmap_compose; by apply list_fmap_ext).
  rewrite !E, Hs. congruence.
Qed.

Lemma at_file_cursor f k m : (∀ q, q_done (f q) = q_done q) → cursor (at_file k f m) = cursor m.
Proof. intros Hf. unfold cursor, at_file. simpl. by rewrite (alter_proj q_done). Qed.

Lemma succeeded_cursor k b result m : cursor (upload_succeeded k b result m) = cursor m.
Proof.
  unfold upload_succeeded. set (a1 := clearFileSpeed k (at_file k (λ file, file <| serverResult := result |>) m)).
  assert (cursor a1 = cursor m) as H1
    by (rewrite (touch_cursor k (at_file k (λ file, file <| serverResult := result |>) m) a1 (touch_speed k _ _)); by apply at_file_cursor).
  clearbody a1. set (a2 := if b && (0 <? errorCount a1) then _ else a1).
  assert (cursor a2 = cursor m) as H2 by (unfold a2; by destruct (b && _)). clearbody a2.
  pose proof (touch_cursor k a2 _ (touch_bytes k a2 (q_size <$> file_at k a2))) as H3. rewrite H2 in H3.
  destruct (js_truthy _); [rewrite at_file_cursor by (by intros [])|]; exact H3.
Qed.

Lemma failed_cursor k b m : cursor (upload_failed k b m) = cursor m.
Proof.
  unfold upload_failed. set (a1 := clearFileSpeed k (at_file k (λ file, file <| q_failed := true |>) m)).
  assert (cursor a1 = cursor m) as H1
    by (rewrite (touch_cursor k (at_file k (λ file, file <| q_failed := true |>) m) a1 (touch_speed k _ _)); by apply at_file_cursor).
  by destruct b.
Qed.

Lemma uploading_end old held m k now b r :
  uploading old ((k, b) :: held) m →
  uploading old held (ended_with k now b r m) ∧ nextUploadIndex (ended_with k now b r m) = nextUploadIndex m
  ∧ q_done <$> fileQueue (ended_with k now b r m) = <[k := true]> (q_done <$> fileQueue m)
  ∧ config (ended_with k now b r m) = config m.
Proof.
  intros Hup. pose proof (ended_roster k now b r held m (up_roster _ _ _ Hup)) as Hro.
  destruct (held_file _ _ _ k b Hup) as (f & Hf & Hr & Hd & Hfl); [left|].
  unfold ended_with in *.
  set (m1 := match r with Some result => upload_succeeded k b result m | None => upload_failed k b m end) in *.
  assert (moves k m m1) as Hmv by (unfold m1; destruct r; [apply succeeded_moves|apply failed_moves]).
  assert (cursor m1 = cursor m) as Hcur by (unfold m1; destruct r; [apply succeeded_cursor|apply failed_cursor]).
  clearbody m1. destruct Hup as [_ H2 H3 H4 H5 H6 H7 H8]. unfold cursor in Hcur.
  assert (byte_book old m1) as Hb1 by (by apply (byte_book_moves old k m m1 f Hmv Hf)).
  assert (speed_book m1) as Hs1 by (by apply (speed_book_moves k m m1 Hmv)).
  destruct (moves_flags k m m1 k f Hmv Hf) as (f1 & Hf1 & _ & Hd1).
  set (m2 := refresh_speed_display now (finished k m1)).
  assert (speed_book m2) as Hs2.
  { apply speed_book_display, (speed_book_same m1); [|done|done]. apply (alter_proj speed_fields). by intros []. }
  assert (byte_fields <$> fileQueue m2 = byte_fields <$> fileQueue (finished k m1) ∧ byte_counters m2 = byte_counters (finished k m1)) as [Hq2 Hc2].
  { unfold m2, refresh_speed_display, getCurrentSpeedForDisplay. cbv zeta. by destruct (_ && _), (5000 <=? _). }
  assert (byte_book old m2) as Hb2 by (apply (byte_book_same old (finished k m1)); [done..|by apply byte_book_finished]).
  pose proof (touch_cursor k _ _ (touch_display k (finished k m1) now)) as Hcur2. fold m2 in Hcur2. unfold cursor in Hcur2.
  assert (q_done <$> fileQueue (finished k m1) = <[k := true]> (q_done <$> fileQueue m)) as Hdone.
  { replace (q_done <$> fileQueue m) with (q_done <$> fileQueue m1) by congruence. apply list_eq. intros j. rewrite list_lookup_fmap.
    change (q_done <$> file_at j (finished k m1) = <[k:=true]> (q_done <$> fileQueue m1) !! j). unfold finished. rewrite file_at_alter.
    destruct (decide (j = k)) as [->|Hj].
    - rewrite Hf1. simpl. rewrite list_lookup_insert_eq; [by destruct f1|]. rewrite length_fmap. by apply lookup_lt_Some in Hf1.
    - by rewrite list_lookup_insert_ne, list_lookup_fmap. }
  change (uploading old held (upload_ended k now m1) ∧ nextUploadIndex m2 = nextUploadIndex m ∧ q_done <$> fileQueue m2 = <[k := true]> (q_done <$> fileQueue m)
    ∧ config m2 = config m).
  assert (nextUploadIndex m2 = nextUploadIndex m) as Hn2 by (assert (nextUploadIndex (finished k m1) = nextUploadIndex m1) by done; congruence).
  assert (q_done <$> fileQueue m2 = <[k := true]> (q_done <$> fileQueue m)) as Hdone2 by congruence.
  assert (config m2 = config m) as Hcf by (assert (config (finished k m1) = config m1) by done; congruence).
  split; [|by split].
  assert (k ∉ held.*1) as Hkh.
  { intros Hin. pose proof Hro as [_ Hheld _ _ _]. apply list_elem_of_fmap in Hin as ([k' b'] & Hk' & Hin). simpl in Hk'. subst k'.
    destruct (Hheld k b' Hin) as (g & Hg & _ & Hgd & _). change (file_at k m2 = Some g) in Hg. unfold file_at in Hg.
    assert ((q_done <$> fileQueue m2) !! k = Some false) as E by (by rewrite list_lookup_fmap, Hg; simpl; rewrite Hgd).
    rewrite Hdone2, list_lookup_insert_eq in E; [done|]. rewrite length_fmap. by apply lookup_lt_Some in Hf. }
  split; try done.
  - by apply (byte_book_same old m2).
  - by apply (speed_book_same m2).
  - intros j g Hg Hj. change (file_at j m2 = Some g) in Hg. change (j < nextUploadIndex m2)%nat in Hj. rewrite Hn2 in Hj.
    assert ((q_done <$> fileQueue m2) !! j = Some (q_done g)) as E by (unfold file_at in Hg; by rewrite list_lookup_fmap, Hg).
    rewrite Hdone2 in E. destruct (decide (j = k)) as [->|Hjk].
    + rewrite list_lookup_insert_eq in E; [left; congruence|]. rewrite length_fmap. by apply lookup_lt_Some in Hf.
    + rewrite list_lookup_insert_ne, list_lookup_fmap in E by done. destruct (fileQueue m !! j) as [g'|] eqn:Hg'; [|done]. simpl in E.
      destruct (H4 j g' Hg' Hj) as [?|Hin]; [left; congruence|]. rewrite fmap_cons in Hin. apply elem_of_cons in Hin as [?|?]; [done|by right].
  - intros j Hj. change (j < nextUploadIndex m2)%nat. rewrite Hn2. apply H5. rewrite fmap_cons. by right.
  - change (Z.max 0 (pendingCount m2 - 1) = countb not_done (fileQueue m2)).
    assert (pendingCount m2 = pendingCount m) as -> by (assert (pendingCount (finished k m1) = pendingCount m1) by done; congruence).
    assert (∀ l : list queued, countb not_done l = sumZ (λ d, number_of_bool (negb d)) (q_done <$> l)) as E
      by (intros l; rewrite (sumZ_fmap (λ d, number_of_bool (negb d)) q_done l); reflexivity).
    rewrite H6, !E, Hdone2.
    rewrite (sumZ_insert (λ d, number_of_bool (negb d)) (q_done <$> fileQueue m) k false true)
      by (unfold file_at in Hf; by rewrite list_lookup_fmap, Hf; simpl; rewrite Hd).
    assert (0 <= sumZ (λ d, number_of_bool (negb d)) (q_done <$> fileQueue m) - 1); [|simpl; lia].
    rewrite <-E. assert (number_of_bool (not_done f) <= countb not_done (fileQueue m)); [|unfold not_done at 1 in H; rewrite Hd in H; simpl in H; lia].
    apply (sumZ_elem_le (λ q, number_of_bool (not_done q))); [intros q _; by destruct (not_done q)|by eapply list_elem_of_lookup_2].
  - change (isUploadInProgress m2 = true). assert (isUploadInProgress (finished k m1) = isUploadInProgress m1) by done. congruence.
  - by apply (config_ok_same m).
Qed.

(** ** The files ahead *)

(** The indices from [n] on of the files that are not done, given their flags. *)
Fixpoint pending_from (n : nat) (ds : list bool) : list nat :=
  match ds with
  | [] => []
  | d :: ds => if d then pending_from (S n) ds else n :: pending_from (S n) ds
  end.

Definition done_flags (m : browser_manager) : list bool := q_done <$> fileQueue m.

(** The files no worker has looked at yet. *)
Definition ahead (m : browser_manager) : list nat := pending_from (nextUploadIndex m) (drop (nextUploadIndex m) (done_flags m)).

Lemma elem_of_pending_from k n ds : k ∈ pending_from n ds ↔ (n <= k)%nat ∧ ds !! (k - n)%nat = Some false.
Proof.
  revert n. induction ds as [|d ds IH]; intros n; simpl.
  - split; [by intros ?%elem_of_nil|]. rewrite lookup_nil. by intros [_ ?].
  - assert (k ∈ pending_from (S n) ds ↔ (S n <= k)%nat ∧ (d :: ds) !! (k - n)%nat = Some false) as E.
    { rewrite IH. split; intros [H1 H2]; (split; [lia|]); replace (k - n)%nat with (S (k - S n)) in * by lia; done. }
    destruct d; [|rewrite elem_of_cons]; rewrite E; split; intros H.
    + destruct H. split; [lia|done].
    + destruct H as [H1 H2]. split; [|done]. destruct (decide (k = n)) as [->|]; [|lia]. by rewrite Nat.sub_diag in H2.
    + destruct H as [->|[H1 H2]]; [rewrite Nat.sub_diag; split; [lia|done]|split; [lia|done]].
    + destruct H as [H1 H2]. destruct (decide (k = n)) as [->|]; [by left|right; split; [lia|done]].
Qed.

Lemma pending_from_sorted n ds : StronglySorted lt (pending_from n ds).
Proof.
  revert n. induction ds as [|d ds IH]; intros n; simpl; [constructor|]. destruct d; [done|]. constructor; [done|].
  apply Forall_forall. intros k [H _]%elem_of_pending_from. lia.
Qed.

Lemma elem_of_ahead k m : k ∈ ahead m ↔ (nextUploadIndex m <= k)%nat ∧ ∃ f, file_at k m = Some f ∧ q_done f = false.
Proof.
  unfold ahead. rewrite elem_of_pending_from, lookup_drop. unfold done_flags, file_at.
  split; intros [H1 H2]; (split; [done|]); replace (nextUploadIndex m + (k - nextUploadIndex m))%nat with k in * by lia.
  - rewrite list_lookup_fmap in H2. destruct (fileQueue m !! k) as [f|]; [|done]. simplify_eq/=. by exists f.
  - destruct H2 as (f & Hf & Hd). by rewrite list_lookup_fmap, Hf; simpl; rewrite Hd.
Qed.

Lemma next_candidate_spec (l : list queued) n k n' :
  next_candidate l n = (k, n') →
  match k with
  | Some k => ∃ f, (n <= k)%nat ∧ n' = S k ∧ l !! (k - n)%nat = Some f ∧ q_running f = false ∧ q_done f = false
      ∧ (∀ j g, (j < k - n)%nat → l !! j = Some g → q_running g || q_done g = true)
  | None => n' = (n + length l)%nat ∧ ∀ g, g ∈ l → q_running g || q_done g = true
  end.
Proof.
  revert n. induction l as [|q l IH]; intros n; simpl.
  - intros [= <- <-]. split; [lia|]. by intros g ?%elem_of_nil.
  - destruct (q_running q || q_done q) eqn:Hq.
    + intros H%IH. destruct k as [k|].
      * destruct H as (f & H1 & H2 & H3 & H4 & H5 & H6). exists f. replace (k - n)%nat with (S (k - S n)) by lia.
        split_and!; try done; [lia|]. intros [|j] g Hj Hg; [by simplify_eq/=|]. apply (H6 j); [lia|done].
      * destruct H as [-> H]. split; [lia|]. intros g [->|Hg]%elem_of_cons; [done|by apply H].
    + intros [= <- <-]. apply orb_false_iff in Hq as [Hr Hd]. exists q. rewrite Nat.sub_diag. split_and!; try done.
      intros j g Hj. lia.
Qed.

Lemma pending_from_skip n k (ds : list bool) :
  (n <= k)%nat → (∀ j, (n <= j < k)%nat → ds !! j = Some true) → pending_from n (drop n ds) = pending_from k (drop k ds).
Proof.
  intros Hnk. remember (k - n)%nat as d eqn:Hd. revert n Hnk Hd. induction d as [|d IH]; intros n Hnk Hd H.
  - by assert (n = k) as -> by lia.
  - rewrite (drop_S ds true n) by (apply H; lia). simpl. apply IH; [lia|lia|]. intros j Hj. apply H. lia.
Qed.

Lemma pending_from_head k (ds : list bool) :
  ds !! k = Some false → pending_from k (drop k ds) = k :: pending_from (S k) (drop (S k) ds).
Proof. intros Hk. by rewrite (drop_S ds false k Hk). Qed.

Lemma ahead_idle old held m j g :
  uploading old held m → (nextUploadIndex m <= j)%nat → file_at j m = Some g → q_running g || q_done g = true → q_done g = true.
Proof.
  intros Hup Hj Hg [Hr|?]%orb_true_iff; [|done]. pose proof (ro_running _ _ (up_roster _ _ _ Hup) j g Hg Hr) as Hin.
  pose proof (up_ahead _ _ _ Hup j Hin). lia.
Qed.

Lemma flag_at j m g : file_at j m = Some g → done_flags m !! j = Some (q_done g).
Proof. intros Hg. unfold done_flags. unfold file_at in Hg. by rewrite list_lookup_fmap, Hg. Qed.

(** A worker looks for its next file. *)
Lemma take_candidate_spec old held m m1 next :
  uploading old held m → take_candidate m = (m1, next) →
  match next with
  | Some k => m1 = m <| nextUploadIndex := S k |> ∧ (nextUploadIndex m <= k)%nat
      ∧ (∃ f, file_at k m = Some f ∧ q_running f = false ∧ q_done f = false)
      ∧ (∀ j g, file_at j m = Some g → (nextUploadIndex m <= j < k)%nat → q_running g || q_done g = true)
      ∧ ahead m = k :: pending_from (S k) (drop (S k) (done_flags m))
  | None => uploading old held m1 ∧ done_flags m1 = done_flags m ∧ ahead m = [] ∧ ahead m1 = []
      ∧ (nextUploadIndex m <= nextUploadIndex m1)%nat ∧ (length (fileQueue m) <= nextUploadIndex m1)%nat ∧ config m1 = config m
  end.
Proof.
  intros Hup. unfold take_candidate. destruct (next_candidate _ _) as [next' n'] eqn:Hn. apply next_candidate_spec in Hn.
  intros [= <- <-]. destruct next' as [k|].
  - destruct Hn as (f & Hk & -> & Hf & Hr & Hd & Hskip). rewrite lookup_drop in Hf.
    replace (nextUploadIndex m + (k - nextUploadIndex m))%nat with k in Hf by lia.
    assert (∀ j g, file_at j m = Some g → (nextUploadIndex m <= j < k)%nat → q_running g || q_done g = true) as Hs.
    { intros j g Hg Hj. apply (Hskip (j - nextUploadIndex m)%nat g); [lia|]. rewrite lookup_drop.
      by replace (nextUploadIndex m + (j - nextUploadIndex m))%nat with j by lia. }
    split_and!; [done|done|by exists f|done|]. unfold ahead. rewrite (pending_from_skip _ k); [|done|].
    + apply pending_from_head. rewrite (flag_at k m f Hf). by rewrite Hd.
    + intros j Hj. assert (j < length (fileQueue m))%nat as Hlt by (apply lookup_lt_Some in Hf; lia).
      apply lookup_lt_is_Some in Hlt as [g Hg]. rewrite (flag_at j m g Hg). f_equal.
      apply (ahead_idle old held m j g); [done|lia|done|]. by apply (Hs j g Hg).
  - destruct Hn as [-> Hall]. rewrite length_drop.
    assert (∀ j g, file_at j m = Some g → (nextUploadIndex m <= j)%nat → q_done g = true) as Hdone.
    { intros j g Hg Hj. apply (ahead_idle old held m j g); [done..|]. apply Hall, (list_elem_of_lookup_2 _ (j - nextUploadIndex m)%nat).
      rewrite lookup_drop. by replace (nextUploadIndex m + (j - nextUploadIndex m))%nat with j by lia. }
    set (m1 := m <| nextUploadIndex := _ |>).
    assert (∀ m', fileQueue m' = fileQueue m → (nextUploadIndex m <= nextUploadIndex m')%nat → ahead m' = []) as Hempty.
    { intros m' Hq Hm'. destruct (ahead m') as [|x l] eqn:E; [done|]. assert (x ∈ ahead m') as Hx by (rewrite E; left).
      apply elem_of_ahead in Hx as (Hx & f & Hf & Hfd). unfold file_at in Hf. rewrite Hq in Hf. specialize (Hdone x f Hf ltac:(lia)). congruence. }
    split_and!; [|done|by apply Hempty|apply Hempty; [done|simpl; lia]|simpl; lia|simpl; lia|done].
    destruct Hup as [H1 H2 H3 H4 H5 H6 H7 H8]. split; try done.
    + by apply (roster_counters_status held m).
    + by apply (byte_book_same old m).
    + by apply (speed_book_same m).
    + intros j g Hg _. change (file_at j m = Some g) in Hg. destruct (decide (j < nextUploadIndex m)%nat); [by apply (H4 j)|].
      left. apply (Hdone j); [done|lia].
    + intros j Hj. specialize (H5 j Hj). simpl. lia.
Qed.

(** ** Whole turns *)

Definition held_by (w : browser_worker) : list (nat * bool) :=
  match w with WorkerUploads k b _ => [(k, b)] | WorkerEnded => [] end.

Lemma drop_flags_same n (ds ds' : list bool) : (∀ j, (n <= j)%nat → ds' !! j = ds !! j) → drop n ds' = drop n ds.
Proof. intros H. apply list_eq. intros j. rewrite !lookup_drop. apply H. lia. Qed.

Lemma status_flags (l l' : list queued) :
  status_of <$> l' = status_of <$> l → q_done <$> l' = q_done <$> l.
Proof.
  intros Hs. assert (∀ l : list queued, q_done <$> l = (λ t, let '(_, _, (_, d, _)) := t in d) <$> (status_of <$> l)) as E
    by (intros l0; rewrite <-list_fmap_compose; by apply list_fmap_ext).
  by rewrite !E, Hs.
Qed.

Lemma worker_turns_spec pf fuel now old held m m' ks sent w :
  uploading old held m → (length (fileQueue m) - nextUploadIndex m < fuel)%nat →
  worker_turns pf fuel now m = (m', ks, sent, w) →
  uploading old (held_by w ++ held) m' ∧ ahead m = ks ++ ahead m'
  ∧ (∀ k b, (k, b) ∈ held_by w → k ∈ ks)
  ∧ (w = WorkerEnded → ahead m' = [])
  ∧ length (fileQueue m') = length (fileQueue m)
  ∧ (∀ j, j ∉ ks → done_flags m' !! j = done_flags m !! j) ∧ config m' = config m.
Proof.
  revert m m' ks sent w. induction fuel as [|fuel IH]; intros m m' ks sent w Hup Hfuel; [lia|]. simpl.
  destruct (take_candidate m) as [m1 next] eqn:Ht. apply (take_candidate_spec old held) in Ht; [|done].
  destruct next as [k|].
  2:{ intros [= <- <- <- <-]. destruct Ht as (H1 & H2 & H3 & H4 & _ & _ & Hcf). split_and!; try done; [by rewrite H3, H4|by intros k b ?%elem_of_nil| |intros; by rewrite H2].
      apply (f_equal length) in H2. unfold done_flags in H2. by rewrite !length_fmap in H2. }
  destruct Ht as (-> & Hk & (f & Hf & Hr & Hd) & Hskip & Hah).
  change (at_file k (λ file, file <| q_running := true |>) (m <| nextUploadIndex := S k |>)
    <| running := running (m <| nextUploadIndex := S k |>) + 1 |>) with (taken k (m <| nextUploadIndex := S k |>)).
  destruct (start_upload _ _ _ _ _) as [[m2 b] p] eqn:Hst.
  apply (uploading_start _ old held m k now _ f) in Hst as (Hup2 & Hn2 & Hs2 & Hcf2 & Hns); [|done..].
  assert (done_flags m2 = done_flags m) as Hd2.
  { unfold done_flags. rewrite (status_flags _ _ Hs2). unfold retried, taken. simpl. by rewrite !(alter_proj q_done) by (by intros []). }
  assert (ahead m = k :: ahead m2) as Hah2 by (unfold ahead at 2; by rewrite Hn2, Hd2).
  assert (length (fileQueue m2) = length (fileQueue m)) as Hl2.
  { apply (f_equal length) in Hd2. unfold done_flags in Hd2. by rewrite !length_fmap in Hd2. }
  assert (k < length (fileQueue m))%nat as Hkl by (by apply lookup_lt_Some in Hf).
  destruct p as [t sent0|r|status]; [|by destruct (Hns r)|].
  { intros [= <- <- <- <-]. simpl. split_and!; try done; [intros k' b' Hin; apply list_elem_of_singleton in Hin; simplify_eq; left|by intros; rewrite Hd2]. }
  change (upload_ended k now (upload_failed k b m2)) with (ended_with k now b None m2).
  destruct (uploading_end old held m2 k now b None Hup2) as (Hup3 & Hn3 & Hd3 & Hcf3). set (m3 := ended_with k now b None m2) in *.
  assert (length (fileQueue m3) = length (fileQueue m2)) as Hl3.
  { apply (f_equal length) in Hd3. by rewrite length_fmap, length_insert, length_fmap in Hd3. }
  assert (ahead m3 = ahead m2) as Hah3.
  { unfold ahead. rewrite Hn3, Hn2. f_equal. apply drop_flags_same. intros j Hj. unfold done_flags. rewrite Hd3.
    apply list_lookup_insert_ne. lia. }
  destruct (worker_turns pf fuel now m3) as [[[m4 ks4] sent4] w4] eqn:Hw. intros [= <- <- <- <-].
  apply IH in Hw as (H1 & H2 & H3 & H4 & H5 & H6 & H7); [|done|lia]. split_and!; try done.
  - by rewrite Hah2, <-Hah3, H2.
  - intros j b' Hj. right. by apply (H3 j b').
  - lia.
  - intros j Hj. apply not_elem_of_cons in Hj as [Hj1 Hj2]. rewrite (H6 j Hj2). unfold done_flags. rewrite Hd3.
    rewrite list_lookup_insert_ne by done. apply (f_equal (.!! j) Hd2).
  - congruence.
Qed.

Definition held_of (ws : list browser_worker) : list (nat * bool) := ws ≫= held_by.

Lemma worker_next_spec pf now old held m m' ks sent w :
  uploading old held m → worker_next pf now m = (m', ks, sent, w) →
  uploading old (held_by w ++ held) m' ∧ ahead m = ks ++ ahead m'
  ∧ (∀ k b, (k, b) ∈ held_by w → k ∈ ks) ∧ (w = WorkerEnded → ahead m' = [])
  ∧ length (fileQueue m') = length (fileQueue m) ∧ (∀ j, j ∉ ks → done_flags m' !! j = done_flags m !! j) ∧ config m' = config m.
Proof. intros Hup. apply worker_turns_spec; [done|lia]. Qed.

Lemma uploading_perm old held held' m : held ≡ₚ held' → uploading old held m → uploading old held' m.
Proof.
  intros Hp [R ? ? B A ? ? ?]. split; try done; [by apply (roster_perm _ _ _ Hp)| |].
  - intros j g Hg Hj. destruct (B j g Hg Hj) as [?|Hin]; [by left|right]. by rewrite <-Hp.
  - intros j Hj. apply A. by rewrite Hp.
Qed.

Lemma spawn_workers_spec pf n now old held m m' ks sent ws :
  uploading old held m → spawn_workers pf n now m = (m', ks, sent, ws) →
  uploading old (held_of ws ++ held) m' ∧ ahead m = ks ++ ahead m' ∧ length ws = n
  ∧ (∀ k b, (k, b) ∈ held_of ws → k ∈ ks) ∧ (WorkerEnded ∈ ws → ahead m' = [])
  ∧ length (fileQueue m') = length (fileQueue m) ∧ (∀ j, j ∉ ks → done_flags m' !! j = done_flags m !! j) ∧ config m' = config m.
Proof.
  revert held m m' ks sent ws. induction n as [|n IH]; intros held m m' ks sent ws Hup; simpl.
  - intros [= <- <- <- <-]. split_and!; try done; [by intros k b ?%elem_of_nil|by intros ?%elem_of_nil].
  - destruct (worker_next pf now m) as [[[m1 ks1] sent1] w] eqn:Hw. destruct (spawn_workers pf n now m1) as [[[m2 ks2] sent2] ws2] eqn:Hws.
    intros [= <- <- <- <-]. apply (worker_next_spec pf now old held) in Hw as (H1 & H2 & H3 & H4 & H5 & H6 & H7); [|done].
    apply (IH (held_by w ++ held)) in Hws as (G1 & G2 & G3 & G4 & G5 & G6 & G7 & G8); [|done]. split_and!.
    + unfold held_of in *. simpl. apply (uploading_perm old (held_of ws2 ++ held_by w ++ held)); [|exact G1].
      rewrite !app_assoc. apply Permutation_app_tail, Permutation_app_comm.
    + by rewrite H2, G2, app_assoc.
    + simpl. lia.
    + intros k b. unfold held_of. simpl. rewrite elem_of_app, elem_of_app. intros [Hin|Hin]; [left; by apply (H3 k b)|right; by apply (G4 k b)].
    + intros [<-|Hin]%elem_of_cons; [|by apply G5]. specialize (H4 eq_refl). rewrite H4 in G2. by destruct ks2, (ahead m2).
    + congruence.
    + intros j Hj. apply not_elem_of_app in Hj as [Hj1 Hj2]. rewrite (G7 j Hj2). by apply H6.
    + congruence.
Qed.
