(* ===== verification/BrowserTransfers.v ===== *)
(** * Uploads of the browser that wait

    [transfer_ok]: what holds of a suspended upload. Every answer keeps it, and brings the
    upload closer to its end ([transfer_cost]): at most three attempts for every chunk. *)

From Stdlib Require Import QArith Qcanon.
From S2P Require Import Prelude Js Browser BrowserUpload BrowserPreflight BrowserRun BrowserBooks BrowserBytes BrowserTurns.
Open Scope Z_scope.

Record loop_ok (size : Z) (c : chunk_loop) : Prop := {
  lo_chunk : 0 < cl_chunkSize c;
  lo_total : cl_totalChunks c = ceil_div size (cl_chunkSize c);
  lo_most : cl_totalChunks c <= BrowserLimits.MaxChunksPerFile;
  lo_index : 0 <= cl_index c < cl_totalChunks c;
  lo_uploaded : cl_uploadedBytes c = chunk_start c;
  lo_attempt : 0 <= cl_attempt c <= MAX_CHUNK_RETRIES }.

Definition transfer_ok (size : Z) (t : transfer) : Prop :=
  match t with InWhole _ => True | InChunk c _ | InPause c => loop_ok size c end.

(** More than the answers an upload can still wait for. *)
Definition transfer_cost (t : transfer) : Z :=
  match t with
  | InWhole _ => 1
  | InChunk c _ => 6 * (cl_totalChunks c - cl_index c) - 2 * cl_attempt c
  | InPause c => 6 * (cl_totalChunks c - cl_index c) - 2 * cl_attempt c + 1
  end.

Definition FILE_COST : Z := 6 * BrowserLimits.MaxChunksPerFile + 1.
Arguments FILE_COST : simpl never.

Lemma transfer_cost_bounds size t : transfer_ok size t → 1 <= transfer_cost t <= FILE_COST.
Proof.
  destruct t as [?|c ?|c]; simpl; intros H; [unfold FILE_COST, BrowserLimits.MaxChunksPerFile; lia|..];
    destruct H as [? ? Hm Hi ? Ha]; unfold FILE_COST, BrowserLimits.MaxChunksPerFile, MAX_CHUNK_RETRIES in *; lia.
Qed.

(** An answer ends an attempt; a progress event does not. *)
Definition settles (e : xhr_event) : bool := match e with XProgress _ _ _ => false | _ => true end.

(** Where an upload may stand after what happened to it. *)
Definition closer (size bound : Z) (p : progressed) : Prop :=
  match p with Suspended t _ => transfer_ok size t ∧ transfer_cost t <= bound | _ => True end.

Lemma chunk_progress_loop k now loaded total c m m' c' :
  chunk_progress k now loaded total c m = (m', c') → ∃ l, c' = c <| cl_lastLoaded := l |>.
Proof.
  unfold chunk_progress. destruct (file_at k m) as [f|]; [intros [= _ <-]; by eexists|].
  intros [= _ <-]. exists (cl_lastLoaded c). by destruct c.
Qed.

(** A chunk inside the file starts before its end. *)
Lemma chunk_start_bound size c : loop_ok size c → 0 <= chunk_start c < size.
Proof.
  intros [H1 H2 H3 H4 H5 H6]. unfold chunk_start. rewrite H2 in H4. unfold ceil_div in H4. split; [nia|].
  destruct (Z.lt_ge_cases (cl_index c * cl_chunkSize c) size) as [|Hge]; [done|].
  assert ((size + cl_chunkSize c - 1) / cl_chunkSize c <= cl_index c); [|lia].
  assert ((size + cl_chunkSize c - 1) / cl_chunkSize c < cl_index c + 1); [|lia].
  apply Z.div_lt_upper_bound; lia.
Qed.

Lemma chunk_accepted_closer k now size a c m :
  loop_ok size c →
  match (chunk_accepted k now size a c m).2 with
  | Suspended t _ => ∃ c', t = InChunk c' now ∧ loop_ok size c' ∧ cl_index c' = cl_index c + 1 ∧ cl_attempt c' = 0
      ∧ cl_fileId c' = cl_fileId c ∧ cl_chunkSize c' = cl_chunkSize c ∧ cl_totalChunks c' = cl_totalChunks c
  | Succeeded r => cl_index c = cl_totalChunks c - 1 ∧ field r "complete" = JBool true
  | Failed _ => True
  end.
Proof.
  intros Hok. pose proof (chunk_start_bound size c Hok) as Hs. destruct Hok as [H1 H2 H3 H4 H5 H6].
  unfold chunk_accepted. destruct (Z.eqb_spec (cl_index c) (cl_totalChunks c - 1)) as [He|He]; cbv zeta.
  - unfold final_result. destruct (if x_empty a then None else x_json a) as [r|]; [|done].
    destruct (is_true (field r "complete")) eqn:Hr; [|done]. cbn. split; [done|]. unfold is_true in Hr.
    destruct (field r "complete") as [| |[]| | | |]; done.
  - cbn. eexists. split; [reflexivity|]. split; [|by destruct c].
    assert ((cl_index c + 1) * cl_chunkSize c < size) as Hlt.
    { assert (cl_index c + 1 < ceil_div size (cl_chunkSize c)) as Hl by lia. unfold ceil_div in Hl.
      pose proof (Z.mul_div_le (size + cl_chunkSize c - 1) (cl_chunkSize c) H1). nia. }
    destruct c as [cs tc fi ix up ll at_]. unfold chunk_start, chunk_stop in *. simpl in *. split; unfold chunk_start, MAX_CHUNK_RETRIES; simpl; try lia.
Qed.

Lemma attempt_failed_closer status size c m :
  loop_ok size c →
  match (attempt_failed status c m).2 with
  | Suspended t _ => t = InPause (c <| cl_attempt := cl_attempt c + 1 |>) ∧ cl_attempt c < MAX_CHUNK_RETRIES ∧ isRetryableUploadError status = true
  | Succeeded _ => False
  | Failed s => s = status ∧ (MAX_CHUNK_RETRIES <= cl_attempt c ∨ isRetryableUploadError status = false)
  end.
Proof.
  intros _. unfold attempt_failed. destruct (Z.leb_spec MAX_CHUNK_RETRIES (cl_attempt c)); simpl; [by split; [|left]|].
  destruct (isRetryableUploadError status); simpl; [done|by split; [|right]].
Qed.

Lemma whole_event_closer k now since e m :
  match (whole_event k now since e m).2 with
  | Suspended t sent => t = InWhole since ∧ settles e = false ∧ sent = []
  | Succeeded r => ∃ a, e = XLoad a ∧ success_status (x_status a) = true ∧ body_or_empty a = Some r
  | Failed _ => settles e = true
  end.
Proof.
  destruct e as [[] loaded total|a|timing]; simpl; try done. destruct (success_status (x_status a)) eqn:Hs; simpl; [|done].
  destruct (body_or_empty a) as [r|] eqn:Hb; [|done]. by exists a.
Qed.

Lemma chunk_event_closer k now size since e c m :
  loop_ok size c →
  closer size (transfer_cost (InChunk c since) - (if settles e then 1 else 0)) (chunk_event k now size since e c m).2.
Proof.
  intros Hok. destruct e as [lc loaded total|a|timing]; cbn [settles chunk_event].
  - assert (∀ l, closer size (transfer_cost (InChunk c since) - 0) (Suspended (InChunk (c <| cl_lastLoaded := l |>) since) [])) as Hc.
    { intros l. unfold closer. destruct Hok, c. split; [by split|simpl in *; lia]. }
    destruct lc; [|specialize (Hc (cl_lastLoaded c)); by destruct c].
    destruct (chunk_progress k now loaded total c m) as [m1 c1] eqn:H1. apply chunk_progress_loop in H1 as [l ->]. apply Hc.
  - cbv zeta. destruct (success_status _).
    + match goal with |- context [let '(m, c) := ?x in _] => destruct x as [m1 c1] eqn:H1 end.
      assert (∃ l, c1 = c <| cl_lastLoaded := l |>) as [l Hl].
      { destruct (0 <? _); [by apply chunk_progress_loop in H1|injection H1 as _ <-; exists (cl_lastLoaded c); by destruct c]. }
      assert (loop_ok size c1) as Hok1 by (rewrite Hl; destruct Hok, c; by split).
      pose proof (chunk_accepted_closer k now size a c1 m1 Hok1) as Hc. destruct (chunk_accepted _ _ _ _ _ _) as [m2 [t s|r|st]]; [|done..].
      destruct Hc as (c' & -> & Hok' & Hi & Ha & _ & _ & Ht). split; [done|]. pose proof (lo_attempt _ _ Hok). unfold MAX_CHUNK_RETRIES in *.
      assert (cl_index c1 = cl_index c ∧ cl_totalChunks c1 = cl_totalChunks c) as [E1 E2] by (rewrite Hl; by destruct c). simpl. lia.
    + match goal with |- context [attempt_failed ?s ?c ?m] => pose proof (attempt_failed_closer s size c m Hok) as Hc; destruct (attempt_failed s c m) as [m2 [t sn|r|st]] end; [|done..].
      destruct Hc as (-> & Hlt & _). destruct Hok, c. unfold MAX_CHUNK_RETRIES in *. simpl in *. split; [split; unfold MAX_CHUNK_RETRIES; simpl; try done; lia|lia].
  - match goal with |- context [attempt_failed ?s ?c ?m] => pose proof (attempt_failed_closer s size c m Hok) as Hc; destruct (attempt_failed s c m) as [m2 [t sn|r|st]] end; [|done..].
    destruct Hc as (-> & Hlt & _). destruct Hok, c. unfold MAX_CHUNK_RETRIES in *. simpl in *. split; [split; unfold MAX_CHUNK_RETRIES; simpl; try done; lia|lia].
Qed.

(** The start of an upload. *)
Lemma chunk_size_positive ios m : config_ok m → 0 < chunk_size ios m.
Proof. intros (_ & _ & H). unfold chunk_size, IOS_MAX_CHUNK_BYTES, BrowserLimits.NativeChunkBytes. destruct ios; lia. Qed.

Lemma start_upload_closer ios k now id m f m' b p :
  config_ok m → file_at k m = Some f → start_upload ios k now id m = (m', b, p) →
  closer (q_size f) FILE_COST p.
Proof.
  intros Hc Hf. unfold start_upload. rewrite Hf. cbv zeta.
  match goal with |- context [shouldUseChunkedUpload f ?m] => set (m1 := m) end.
  assert (config m1 = config m) as Hcf.
  { unfold m1. change (config (clearFileSpeed k (at_file k (λ file, file <| q_failed := false |>) m)) = config m).
    pose proof (proj2 (touch_status k _ _ (touch_speed k (at_file k (λ file, file <| q_failed := false |>) m) 0%Qc))) as H.
    unfold counters in H. change (config (updateFileSpeed k 0%Qc (at_file k (λ file, file <| q_failed := false |>) m)) = config (at_file k (λ file, file <| q_failed := false |>) m)). congruence. }
  clearbody m1. apply (config_ok_same _ _ Hcf) in Hc.
  unfold shouldUseChunkedUpload. destruct (Z.ltb_spec (SINGLE_FILE_MAX_BYTES m1) (q_size f)) as [Hs|_].
  - destruct (uploadChunked _ _ _ _ _ _) as [m2 p2] eqn:Hu. intros [= _ _ <-]. revert Hu. unfold uploadChunked. cbv zeta.
    pose proof (chunk_size_positive ios m1 Hc) as Hcs. set (cs := chunk_size ios m1) in *. clearbody cs.
    destruct (Z.ltb_spec BrowserLimits.MaxChunksPerFile (ceil_div (q_size f) cs)) as [_|Hle]; [by intros [= _ <-]|].
    destruct (_ <? _); [by intros [= _ <-]|]. unfold send_chunk. intros [= _ <-]. cbn.
    assert (0 < ceil_div (q_size f) cs). { unfold ceil_div. apply Z.div_str_pos. destruct Hc as (_ & ? & _). lia. }
    split; [|unfold FILE_COST; lia]. split; unfold MAX_CHUNK_RETRIES, chunk_start; simpl; lia.
  - intros [= _ _ <-]. simpl. split; [done|]. unfold FILE_COST, BrowserLimits.MaxChunksPerFile. lia.
Qed.

(** ** Sizes do not change while files are uploaded *)

Definition sizes (m : browser_manager) : list Z := q_size <$> fileQueue m.

Lemma status_sizes (l l' : list queued) : status_of <$> l' = status_of <$> l → q_size <$> l' = q_size <$> l.
Proof.
  intros Hs. assert (∀ l : list queued, q_size <$> l = (λ t, let '(_, size, _) := t in size) <$> (status_of <$> l)) as E
    by (intros l0; rewrite <-list_fmap_compose; by apply list_fmap_ext).
  by rewrite !E, Hs.
Qed.

Lemma moves_sizes k m m' : moves k m m' → sizes m' = sizes m.
Proof.
  induction 1 as [|m m1 m' H1 _ IH]; [done|]. rewrite IH. destruct H1 as [[Hs _]%touch_status|[Hb _]]; [by apply status_sizes|].
  unfold sizes. assert (∀ l : list queued, q_size <$> l = (λ t, let '(size, _, _, _) := t in size) <$> (booked <$> l)) as E
    by (intros l0; rewrite <-list_fmap_compose; by apply list_fmap_ext).
  by rewrite !E, Hb.
Qed.

Lemma ended_sizes k now b r m : sizes (ended_with k now b r m) = sizes m.
Proof.
  unfold ended_with.
  set (m1 := match r with Some result => upload_succeeded k b result m | None => upload_failed k b m end).
  assert (sizes m1 = sizes m) as <- by (unfold m1; destruct r; [eapply moves_sizes, succeeded_moves|eapply moves_sizes, failed_moves]).
  change (sizes (refresh_speed_display now (finished k m1)) = sizes m1).
  unfold sizes at 1. rewrite (status_sizes _ _ (proj1 (touch_status k _ _ (touch_display k (finished k m1) now)))).
  apply (alter_proj q_size). by intros [].
Qed.

Definition worker_ok (m : browser_manager) (w : browser_worker) : Prop :=
  match w with WorkerUploads k _ t => ∃ size, sizes m !! k = Some size ∧ transfer_ok size t | WorkerEnded => True end.

Lemma worker_ok_same m m' w : sizes m' = sizes m → worker_ok m w → worker_ok m' w.
Proof. intros Hs. destruct w; simpl; [|done]. by rewrite Hs. Qed.

Definition worker_cost (w : browser_worker) : Z :=
  match w with WorkerUploads _ _ t => transfer_cost t | WorkerEnded => 0 end.

Lemma file_sizes k m f : file_at k m = Some f → sizes m !! k = Some (q_size f).
Proof. intros Hf. unfold sizes. unfold file_at in Hf. by rewrite list_lookup_fmap, Hf. Qed.

Lemma worker_turns_transfer pf fuel now old held m m' ks sent w :
  uploading old held m → worker_turns pf fuel now m = (m', ks, sent, w) →
  sizes m' = sizes m ∧ worker_ok m' w ∧ worker_cost w <= FILE_COST * lengthZ ks.
Proof.
  assert (0 < FILE_COST) as Hpos by done.
  revert m m' ks sent w. induction fuel as [|fuel IH]; intros m m' ks sent w Hup; simpl; [by intros [= <- <- <- <-]|].
  destruct (take_candidate m) as [m1 next] eqn:Ht. apply (take_candidate_spec old held) in Ht as Hts; [|done].
  destruct next as [k|].
  2:{ intros [= <- <- <- <-]. split; [|done]. revert Ht. unfold take_candidate. destruct (next_candidate _ _). by intros [= <- _]. }
  destruct Hts as (-> & Hk & (f & Hf & Hr & Hd) & Hskip & Hah).
  change (at_file k (λ file, file <| q_running := true |>) (m <| nextUploadIndex := S k |>)
    <| running := running (m <| nextUploadIndex := S k |>) + 1 |>) with (taken k (m <| nextUploadIndex := S k |>)).
  destruct (start_upload _ _ _ _ _) as [[m2 b] p] eqn:Hst.
  assert (closer (q_size f) FILE_COST p) as Hcl.
  { change (q_size f) with (q_size (f <| q_running := true |>)). eapply start_upload_closer; [| |exact Hst]; [exact (up_config _ _ _ Hup)|].
    unfold taken. change (file_at k (at_file k (λ file, file <| q_running := true |>) m) = Some (f <| q_running := true |>)).
    by rewrite file_at_alter, decide_True, Hf. }
  apply (uploading_start _ old held m k now _ f) in Hst as (Hup2 & _ & Hs2 & _ & Hns); [|done..].
  assert (sizes m2 = sizes m) as Hsz2.
  { unfold sizes. rewrite (status_sizes _ _ Hs2). unfold retried, taken. simpl. by rewrite !(alter_proj q_size) by (by intros []). }
  destruct p as [t sent0|r|status]; [|by destruct (Hns r)|].
  { intros [= <- <- <- <-]. destruct Hcl as [Hok Hle]. split_and!; [done| |simpl; unfold lengthZ; simpl; lia].
    exists (q_size f). by rewrite Hsz2, (file_sizes k m f). }
  change (upload_ended k now (upload_failed k b m2)) with (ended_with k now b None m2).
  destruct (uploading_end old held m2 k now b None Hup2) as (Hup3 & _). pose proof (ended_sizes k now b None m2) as Hs3.
  set (m3 := ended_with k now b None m2) in *.
  destruct (worker_turns pf fuel now m3) as [[[m4 ks4] sent4] w4] eqn:Hw. intros [= <- <- <- <-].
  apply IH in Hw as (H1 & H2 & H3); [|done]. split_and!; [congruence|done|]. unfold lengthZ in *. simpl. lia.
Qed.

Lemma spawn_workers_transfer pf n now old held m m' ks sent ws :
  uploading old held m → spawn_workers pf n now m = (m', ks, sent, ws) →
  sizes m' = sizes m ∧ Forall (worker_ok m') ws ∧ sumZ worker_cost ws <= FILE_COST * lengthZ ks.
Proof.
  revert held m m' ks sent ws. induction n as [|n IH]; intros held m m' ks sent ws Hup; simpl; [by intros [= <- <- <- <-]|].
  destruct (worker_next pf now m) as [[[m1 ks1] sent1] w] eqn:Hw. destruct (spawn_workers pf n now m1) as [[[m2 ks2] sent2] ws2] eqn:Hws.
  intros [= <- <- <- <-]. pose proof (worker_next_spec pf now old held _ _ _ _ _ Hup Hw) as (H1 & _).
  apply (worker_turns_transfer pf _ now old held) in Hw as (E1 & E2 & E3); [|done].
  apply (IH (held_by w ++ held)) in Hws as (G1 & G2 & G3); [|done]. split_and!; [congruence|constructor; [by apply (worker_ok_same m1)|done]|].
  rewrite sumZ_cons. unfold lengthZ in *. rewrite length_app. lia.
Qed.
