(* ===== verification/BrowserInvariant.v ===== *)
(** * The invariant of the browser's event loop

    [browser_ok]: what holds of the page between two events, wherever [uploadFiles] waits.
    [browser_exec_ok]: every event keeps it. *)

From Stdlib Require Import QArith Qcanon Sorting.Sorted.
From S2P Require Import Prelude Js Browser BrowserUpload BrowserPreflight BrowserRun BrowserBooks BrowserBytes BrowserTurns BrowserTransfers.
Open Scope Z_scope.

(** ** Between runs *)

Record resting (m : browser_manager) : Prop := {
  re_roster : roster [] m;
  re_total : totalBytes m = sumZ q_size (fileQueue m);
  re_file : ∀ k f, file_at k m = Some f → 0 <= uploadedBytes f <= completedBytes f ∧ completedBytes f <= q_size f;
  re_clean : ∀ k f, file_at k m = Some f → q_done f = false → completedBytes f = 0;
  re_speed : speed_book m;
  re_config : config_ok m }.

Lemma resting_idle m k f : resting m → file_at k m = Some f → q_running f = false.
Proof.
  intros Hm Hf. destruct (q_running f) eqn:Hr; [|done]. pose proof (ro_running _ _ (re_roster _ Hm) k f Hf Hr) as Hin. by apply elem_of_nil in Hin.
Qed.

(** A run is over, or has not begun: the books of bytes close. *)
Lemma uploading_resting old m m' :
  uploading old [] m → fileQueue m' = fileQueue m → roster_counters m' = roster_counters m → totalBytes m' = totalBytes m →
  speed_counters m' = speed_counters m → config m' = config m → resting m'.
Proof.
  intros Hup Hq Hr Ht Hs Hc. pose proof Hup as [H1 [B1 B2 B3 _ _ _ _] H3 _ _ _ _ H8].
  assert (∀ k, file_at k m' = file_at k m) as Hf by (intros k; unfold file_at; by rewrite Hq). split.
  - apply (roster_counters_status [] m); [by rewrite Hq|done|done].
  - by rewrite Ht, Hq.
  - intros k f. rewrite Hf. apply B2.
  - intros k f Hk Hd. rewrite Hf in Hk. apply (B3 k f Hk Hd). destruct (q_running f) eqn:Hrun; [|done].
    pose proof (ro_running _ _ H1 k f Hk Hrun) as Hin. by apply elem_of_nil in Hin.
  - apply (speed_book_same m); [by rewrite Hq|done|done].
  - by apply (config_ok_same m).
Qed.

Lemma config_requested_ok mobile : config_ok (config_requested (browser_initial mobile)).
Proof. destruct mobile; unfold config_ok, config_requested, fallback_config, BrowserLimits.MaxChunkBytes, BrowserLimits.WholeFileBytes, MiB; cbn; lia. Qed.

Lemma boundedInteger_ok v maximum fallback : 0 < fallback <= maximum → 0 < boundedInteger v maximum fallback <= maximum.
Proof.
  intros H. unfold boundedInteger. destruct v as [| | |n| | |]; try done. destruct (integer_value n) as [z|]; [|done].
  destruct (_ && (0 <? z) && (z <=? maximum)) eqn:E; [|done]. apply andb_true_iff in E as [[_ E1]%andb_true_iff E2]. lia.
Qed.

Lemma config_answered_ok answer m : config_ok m → config_ok (config_answered answer m).
Proof.
  intros (H1 & H2 & H3). unfold config_answered. destruct answer as [cfg|]; [|done].
  destruct (fallback_config (isMobile m)) as [chunk parallel] eqn:Hf. unfold config_ok. simpl.
  assert (0 < chunk <= BrowserLimits.MaxChunkBytes ∧ 0 < parallel <= 6) as [Hc Hp].
  { unfold fallback_config, MiB, BrowserLimits.MaxChunkBytes in *. destruct (isMobile m); simplify_eq; lia. }
  pose proof (boundedInteger_ok (field (if isMobile m then js_or_val (field (field cfg "browser") "mobile") (field cfg "mobile")
    else js_or_val (field (field cfg "browser") "desktop") (field cfg "desktop")) "parallelFiles") 6 parallel Hp).
  pose proof (boundedInteger_ok (field (if isMobile m then js_or_val (field (field cfg "browser") "mobile") (field cfg "mobile")
    else js_or_val (field (field cfg "browser") "desktop") (field cfg "desktop")) "chunkSizeBytes") BrowserLimits.MaxChunkBytes chunk Hc).
  pose proof (boundedInteger_ok (field (field cfg "shared") "singleFileMaxBytes") (SINGLE_FILE_MAX_BYTES m) (SINGLE_FILE_MAX_BYTES m) ltac:(lia)).
  lia.
Qed.

Lemma resting_config m m' :
  fileQueue m' = fileQueue m → roster_counters m' = roster_counters m → totalBytes m' = totalBytes m →
  speed_counters m' = speed_counters m → config_ok m' → resting m → resting m'.
Proof.
  intros Hq Hr Ht Hs Hc [H1 H2 H3 H4 H5 _]. assert (∀ k, file_at k m' = file_at k m) as Hf by (intros k; unfold file_at; by rewrite Hq). split.
  - apply (roster_counters_status [] m); [by rewrite Hq|done|done].
  - by rewrite Ht, Hq.
  - intros k f. rewrite Hf. apply H3.
  - intros k f. rewrite Hf. apply H4.
  - apply (speed_book_same m); [by rewrite Hq|done|done].
  - done.
Qed.

Lemma resting_answered answer m : resting m → resting (config_answered answer m).
Proof.
  intros Hm. pose proof (config_answered_ok answer m (re_config _ Hm)) as Hc. revert Hc. unfold config_answered.
  destruct answer as [cfg|]; [|done]. destruct (fallback_config _) as [chunk parallel]. intros Hc. by apply (resting_config m).
Qed.

(** ** The files the user adds *)

Lemma file_at_app (l : list queued) m k f :
  (fileQueue m ++ l) !! k = Some f → file_at k m = Some f ∨ (f ∈ l ∧ (length (fileQueue m) <= k)%nat).
Proof.
  intros Hf. apply lookup_app_Some in Hf as [?|[? Hf]]; [by left|right]. split; [by eapply list_elem_of_lookup_2|done].
Qed.

Lemma resting_addFiles files m :
  Forall (λ f, 0 <= c_size f) files → resting m → resting (addFiles files m).1.
Proof.
  intros Hsz Hm. unfold addFiles. destruct (isUploadInProgress m); [done|]. destruct files as [|f0 fs]; [done|].
  set (files := f0 :: fs) in *. clearbody files. simpl. pose proof Hm as [[_ _ R3 R4 R5] H2 H3 H4 [S1 S2 S3] H6].
  assert (∀ q : queued, q ∈ fresh_meta <$> files → 0 <= q_size q ∧ q_running q = false ∧ q_failed q = false ∧ uploadedBytes q = 0
    ∧ completedBytes q = 0 ∧ q_speed q = 0%Qc ∧ q_speedEpoch q = None) as Hfresh.
  { intros q Hq. apply list_elem_of_fmap in Hq as (f & -> & Hf). rewrite Forall_forall in Hsz. specialize (Hsz f Hf). by split_and!. }
  assert (sumZ q_size (fresh_meta <$> files) = sumZ c_size files) as Htot by exact (sumZ_fmap q_size fresh_meta files).
  set (l := fresh_meta <$> files) in *. clearbody l.
  split.
  - split.
    + constructor.
    + by intros k b ?%elem_of_nil.
    + intros k f [Hf|[Hf _]]%file_at_app Hr; [by apply (R3 k f)|]. destruct (Hfresh f Hf) as (_ & E & _). congruence.
    + exact R4.
    + change (errorCount m = countb q_failed (fileQueue m ++ l) + 0). unfold countb in *. rewrite sumZ_app, R5.
      rewrite (sumZ_ext (λ q, number_of_bool (q_failed q)) (λ _, 0) l); [rewrite sumZ_zero, sumZ_nil; lia|].
      intros q Hq. by destruct (Hfresh q Hq) as (_ & _ & -> & _).
  - simpl. rewrite sumZ_app, Htot. lia.
  - intros k f [Hf|[Hf _]]%file_at_app; [by apply (H3 k)|]. destruct (Hfresh f Hf) as (? & _ & _ & -> & -> & _). lia.
  - intros k f [Hf|[Hf _]]%file_at_app Hd; [by apply (H4 k)|]. by destruct (Hfresh f Hf) as (? & _ & _ & _ & -> & _).
  - split; simpl.
    + rewrite sumQc_app, <-S1, (sumQc_zero _ l); [by rewrite Qcplus_0_r|].
      intros q Hq. destruct (Hfresh q Hq) as (_ & _ & _ & _ & _ & _ & E). unfold current_speed. by rewrite E.
    + intros k f [Hf|[Hf _]]%file_at_app; [by apply (S2 k)|]. by destruct (Hfresh f Hf) as (_ & _ & _ & _ & _ & -> & _).
    + intros k f e [Hf|[Hf _]]%file_at_app He; [by apply (S3 k f)|]. destruct (Hfresh f Hf) as (_ & _ & _ & _ & _ & _ & E). congruence.
  - exact H6.
Qed.

Lemma resting_resetFiles m : resting m → resting (resetFiles m).
Proof.
  intros Hm. unfold resetFiles. destruct (isUploadInProgress m); [done|]. split; simpl.
  - split; try done; [constructor|by intros k b ?%elem_of_nil].
  - done.
  - done.
  - done.
  - by split.
  - exact (re_config _ Hm).
Qed.

(** ** A run begins *)

(** The state during the preflight: [old], the files that were done before the run. *)
Record prepared (old : nat → bool) (m : browser_manager) : Prop := {
  pr_roster : roster [] m;
  pr_bytes : byte_book old m;
  pr_speed : speed_book m;
  pr_progress : isUploadInProgress m = true;
  pr_config : config_ok m }.

Lemma prepared_idle old m k f : prepared old m → file_at k m = Some f → q_running f = false.
Proof.
  intros Hm Hf. destruct (q_running f) eqn:Hr; [|done]. pose proof (ro_running _ _ (pr_roster _ _ Hm) k f Hf Hr) as Hin. by apply elem_of_nil in Hin.
Qed.

Definition requeued (m : browser_manager) : browser_manager := m <| fileQueue := requeue <$> fileQueue m |>.

Lemma file_at_requeued k m f : file_at k (requeued m) = Some f → ∃ g, file_at k m = Some g ∧ f = requeue g.
Proof. unfold file_at, requeued. simpl. rewrite list_lookup_fmap. destruct (fileQueue m !! k) as [g|]; [|done]. intros [= <-]. by exists g. Qed.

Lemma requeue_done (l : list queued) : forallb q_done (requeue <$> l) = true → requeue <$> l = l.
Proof.
  induction l as [|q l IH]; [done|]. simpl. intros [Hq Hl]%andb_true_iff. f_equal; [|by apply IH].
  unfold requeue in *. destruct (q_done q && q_failed q); [|done]. by destruct q.
Qed.

Lemma requeue_failed f : q_failed (requeue f) = q_failed f.
Proof. unfold requeue. destruct (_ && _); [by destruct f|done]. Qed.

Lemma requeue_running f : q_running f = false → q_running (requeue f) = false.
Proof. unfold requeue. destruct (_ && _); [by destruct f|done]. Qed.

Definition done_before (m : browser_manager) (k : nat) : bool := default false (done_flags (requeued m) !! k).

Lemma prepared_begin now m :
  resting m → isUploadInProgress m = true → prepared (done_before m) (reset_run now (requeued m)).
Proof.
  intros Hm Hp. pose proof Hm as [[_ _ R3 R4 R5] H2 H3 H4 [S1 S2 S3] H6].
  assert (∀ k f, file_at k (requeued m) = Some f → 0 <= q_size f ∧ 0 <= uploadedBytes f <= completedBytes f ∧ completedBytes f <= q_size f
    ∧ (q_done f = false → completedBytes f = 0) ∧ q_running f = false ∧ (0 <= q_speed f)%Qc ∧ (∀ e, q_speedEpoch f = Some e → e <= speedEpoch m)) as Hfile.
  { intros k f (g & Hg & ->)%file_at_requeued. specialize (H3 k g Hg). specialize (H4 k g Hg). specialize (S2 k g Hg). specialize (S3 k g).
    pose proof (resting_idle m k g Hm Hg) as Hr. unfold requeue. destruct (q_done g && q_failed g); [destruct g; simpl in *; split_and!; try done; try lia; auto|].
    split_and!; try done; try lia; auto. }
  assert (∀ g : queued → Z, (∀ f, 0 <= uploadedBytes f <= completedBytes f → completedBytes f = 0 → g f = 0) →
    sum_at (of_run (done_before m) g) (fileQueue (requeued m)) = 0) as Hzero.
  { intros g Hg. apply sum_at_zero. intros k f Hf. unfold of_run, done_before, done_flags. rewrite list_lookup_fmap, Hf. simpl.
    destruct (Hfile k f Hf) as (_ & ? & _ & Hc & _). destruct (q_done f); [done|]. by apply Hg; [|apply Hc]. }
  assert (∀ f, q_size (requeue f) = q_size f) as Hsz by (intros f; unfold requeue; destruct (_ && _); [by destruct f|done]).
  split.
  - split.
    + constructor.
    + by intros k b ?%elem_of_nil.
    + intros k f Hf Hr. destruct (Hfile k f Hf) as (_ & _ & _ & _ & E & _). congruence.
    + exact R4.
    + change (errorCount m = countb q_failed (requeue <$> fileQueue m) + 0). unfold countb in *. rewrite sumZ_fmap, R5, sumZ_nil. f_equal.
      apply sumZ_ext. intros q _. by rewrite requeue_failed.
  - split.
    + change (totalBytes m = sumZ q_size (requeue <$> fileQueue m)). rewrite sumZ_fmap, H2. apply sumZ_ext. intros q _. by rewrite Hsz.
    + intros k f Hf. by destruct (Hfile k f Hf) as (_ & ? & ? & _).
    + intros k f Hf Hd _. destruct (Hfile k f Hf) as (_ & _ & _ & Hc & _). by apply Hc.
    + intros k f Hf. unfold done_before, done_flags. rewrite list_lookup_fmap. unfold file_at in Hf. simpl in *. by rewrite Hf.
    + symmetry. apply (Hzero uploadedBytes). intros; lia.
    + symmetry. apply (Hzero completedBytes). done.
    + done.
  - split.
    + symmetry. apply sumQc_zero. intros f (k & Hk)%list_elem_of_lookup. unfold current_speed. case_bool_decide as He; [|done].
      destruct (Hfile k f Hk) as (_ & _ & _ & _ & _ & _ & Hle). specialize (Hle _ He). simpl in Hle. lia.
    + intros k f Hf. by destruct (Hfile k f Hf) as (_ & _ & _ & _ & _ & ? & _).
    + intros k f e Hf He. destruct (Hfile k f Hf) as (_ & _ & _ & _ & _ & _ & Hle). specialize (Hle _ He). simpl. lia.
  - done.
  - exact H6.
Qed.

(** ** The preflight *)

(** How the preflight leaves a file the desktop has. *)
Definition skipped_as (name : jsval) (f : queued) : queued :=
  f <| q_done := true |> <| q_skipped := true |> <| preflightSkipped := true |> <| uploadedBytes := 0 |>
    <| completedBytes := q_size f |> <| serverResult := JObj [("skipped", JBool true); ("filename", name)] |>.

Lemma skip_file_eq k name m f :
  file_at k m = Some f → completedBytes f = 0 → 0 <= q_size f →
  skip_file k name m = at_file k (skipped_as name) m <| globalCompletedBytes := globalCompletedBytes m + q_size f |>.
Proof.
  intros Hf Hc Hs. unfold skip_file. rewrite Hf. unfold markFileCompletedWithoutUpload.
  rewrite file_at_alter, decide_True, Hf by done. cbn [fmap option_fmap option_map]. cbv zeta.
  replace (Z.max 0 (Z.min (q_size f) (q_size (f <| q_done := true |> <| q_skipped := true |> <| preflightSkipped := true |> <| uploadedBytes := 0 |>))))
    with (q_size f) by (destruct f; simpl in *; lia).
  replace (completedBytes (f <| q_done := true |> <| q_skipped := true |> <| preflightSkipped := true |> <| uploadedBytes := 0 |>))
    with 0 by (destruct f; simpl in *; lia).
  rewrite Z.sub_0_r, Z.max_r by done. unfold file_at in Hf.
  set (g1 := λ file, file <| q_done := true |> <| q_skipped := true |> <| preflightSkipped := true |> <| uploadedBytes := 0 |>).
  set (g2 := λ file, file <| completedBytes := q_size f |>).
  set (g3 := λ file, file <| serverResult := JObj [("skipped", JBool true); ("filename", name)] |>).
  assert (alter g3 k (alter g2 k (alter g1 k (fileQueue m))) = alter (skipped_as name) k (fileQueue m)) as E.
  { apply list_eq. intros j. destruct (decide (j = k)) as [->|Hj]; [by rewrite !list_lookup_alter_eq, Hf|by rewrite !list_lookup_alter_ne]. }
  change (at_file k (skipped_as name) m) with (m <| fileQueue := alter (skipped_as name) k (fileQueue m) |>). rewrite <-E. destruct (Z.ltb_spec 0 (q_size f)) as [Hlt|Hle]; [reflexivity|].
  assert (q_size f = 0) as -> by lia. rewrite Z.add_0_r. by destruct m.
Qed.

Lemma skipped_as_keeps name f : q_running (skipped_as name f) = q_running f ∧ q_failed (skipped_as name f) = q_failed f
  ∧ q_size (skipped_as name f) = q_size f ∧ speed_fields (skipped_as name f) = speed_fields f.
Proof. by destruct f. Qed.

(** A file is skipped: a step of the run's books, like an upload in no time. *)
Lemma prepared_skip old k name m f :
  prepared old m → file_at k m = Some f → q_done f = false →
  prepared old (skip_file k name m) ∧ skip_file k name m = at_file k (skipped_as name) m <| globalCompletedBytes := globalCompletedBytes m + q_size f |>.
Proof.
  intros Hm Hf Hd. pose proof Hm as [[R1 R2 R3 R4 R5] [B1 B2 B3 B4 B5 B6 B7] HS Hp Hc].
  pose proof (B3 k f Hf Hd (prepared_idle _ _ _ _ Hm Hf)) as Hcz. pose proof (B2 k f Hf) as Hb.
  rewrite (skip_file_eq k name m f Hf Hcz) by lia. split; [|done].
  assert (old k = false) as Hold by (destruct (old k) eqn:Ho; [specialize (B4 k f Hf Ho); congruence|done]).
  assert (∀ j q, file_at j (at_file k (skipped_as name) m) = Some q → (j = k ∧ q = skipped_as name f) ∨ (j ≠ k ∧ file_at j m = Some q)) as Hl.
  { intros j q. rewrite file_at_alter. destruct (decide (j = k)) as [->|Hj]; [rewrite Hf; simpl; intros [= <-]; by left|by right]. }
  destruct (skipped_as_keeps name f) as (E1 & E2 & E3 & E4). split.
  - split.
    + done.
    + by intros j b ?%elem_of_nil.
    + intros j q Hq Hr. destruct (Hl j q Hq) as [[-> ->]|[_ Hq']]; [apply (R3 k f Hf); congruence|by apply (R3 j q)].
    + exact R4.
    + change (errorCount m = countb q_failed (alter (skipped_as name) k (fileQueue m)) + sumZ (λ kb : nat * bool, number_of_bool kb.2) []).
      rewrite (countb_alter _ _ _ _ f) by done. rewrite E2. lia.
  - split.
    + change (totalBytes m = sumZ q_size (alter (skipped_as name) k (fileQueue m))). by rewrite sumZ_alter_same by (by intros []).
    + intros j q Hq. destruct (Hl j q Hq) as [[-> ->]|[_ Hq']]; [destruct f; simpl in *; lia|by apply (B2 j)].
    + intros j q Hq Hdq Hrq. destruct (Hl j q Hq) as [[-> ->]|[_ Hq']]; [by destruct f|by apply (B3 j)].
    + intros j q Hq Ho. destruct (Hl j q Hq) as [[-> ->]|[_ Hq']]; [by destruct f|by apply (B4 j)].
    + change (globalUploadedBytes m = sum_at (of_run old uploadedBytes) (alter (skipped_as name) k (fileQueue m))).
      rewrite (sum_at_alter _ _ _ _ f) by done. unfold of_run at 2 3. rewrite Hold. destruct f. simpl in *. lia.
    + change (globalCompletedBytes m + q_size f = sum_at (of_run old completedBytes) (alter (skipped_as name) k (fileQueue m))).
      rewrite (sum_at_alter _ _ _ _ f) by done. unfold of_run at 2 3. rewrite Hold. destruct f. simpl in *. lia.
    + exact B7.
  - apply (speed_book_same m); [|done|done]. apply (alter_proj speed_fields). by intros [].
  - done.
  - exact Hc.
Qed.

(** The answer to the second request: what becomes of every candidate. *)
Definition skips (resultById : list (jsval * jsval)) (file : queued) : option jsval :=
  result ← map_get resultById (q_id file); if is_str (field result "action") "skip" then Some (field result "filename") else None.

Definition verified_file (resultById : list (jsval * jsval)) (f : queued) : queued :=
  match skips resultById f with Some name => skipped_as name f | None => f end.

Lemma verify_candidates_spec old r ks m n s m' n' s' :
  NoDup ks → (∀ k, k ∈ ks → ∃ f, file_at k m = Some f ∧ q_done f = false) → prepared old m → s <= globalCompletedBytes m →
  foldl (verify_candidate r) (m, n, s) ks = (m', n', s') →
  prepared old m' ∧ s' <= globalCompletedBytes m' ∧ sizes m' = sizes m ∧ config m' = config m
  ∧ (∀ j f, file_at j m = Some f → file_at j m' = Some (if decide (j ∈ ks) then verified_file r f else f)).
Proof.
  revert m n s. induction ks as [|k ks IH]; intros m n s Hnd Hks Hm Hs; [intros [= <- <- <-]; by split_and!|].
  apply NoDup_cons in Hnd as [Hk Hnd]. destruct (Hks k) as (f & Hf & Hd); [left|]. simpl. rewrite Hf.
  assert (∀ m1 n1 s1, prepared old m1 → s1 <= globalCompletedBytes m1 → sizes m1 = sizes m → config m1 = config m →
    (∀ j, file_at j m1 = if decide (j = k) then Some (verified_file r f) else file_at j m) →
    foldl (verify_candidate r) (m1, n1, s1) ks = (m', n', s') → prepared old m' ∧ s' <= globalCompletedBytes m' ∧ sizes m' = sizes m ∧ config m' = config m
    ∧ (∀ j f, file_at j m = Some f → file_at j m' = Some (if decide (j ∈ k :: ks) then verified_file r f else f))) as Hstep.
  { intros m1 n1 s1 Hm1 Hs1 Hz1 Hc1 Hj1 Hfold. destruct (IH m1 n1 s1 Hnd) as (I1 & I2 & I3 & I4 & I5); [|done..|].
    - intros j Hj. rewrite Hj1, decide_False by (intros ->; done). apply Hks. by right.
    - split_and!; [done|done|congruence|congruence|]. intros j g Hg. destruct (decide (j = k)) as [->|Hjk].
      + rewrite (I5 k (verified_file r f)) by (by rewrite Hj1, decide_True). rewrite (decide_False (P := k ∈ ks)) by done.
        rewrite decide_True by left. assert (g = f) as -> by congruence. done.
      + rewrite (I5 j g) by (by rewrite Hj1, decide_False). f_equal. destruct (decide (j ∈ ks)); [rewrite decide_True by (by right); done|].
        rewrite decide_False; [done|]. by intros [?|?]%elem_of_cons. }
  unfold verified_file, skips in Hstep. destruct (map_get r (q_id f)) as [result|]; simpl in Hstep.
  2:{ apply Hstep; try done. intros j. by destruct (decide (j = k)) as [->|]. }
  destruct (is_str (field result "action") "skip").
  2:{ apply Hstep; try done. intros j. by destruct (decide (j = k)) as [->|]. }
  destruct (prepared_skip old k (field result "filename") m f Hm Hf Hd) as [Hm1 E].
  apply Hstep; [done|rewrite E..].
  - simpl. lia.
  - apply (alter_proj q_size). by intros [].
  - done.
  - intros j. etrans; [exact (file_at_alter (skipped_as _) k j m)|]. destruct (decide _); [by rewrite Hf|done].
Qed.

Lemma elem_of_indices_where P (l : list queued) k :
  k ∈ indices_where P l ↔ ∃ f, l !! k = Some f ∧ P f = true.
Proof.
  unfold indices_where. rewrite list_elem_of_omap. split.
  - intros ([j f] & Hin & Hp). apply list_elem_of_lookup in Hin as [i Hi]. apply lookup_zip_with_Some in Hi as (j' & f' & [= -> ->] & Hj & Hf).
    apply lookup_seq in Hj as [-> _]. destruct (P f') eqn:E; [|done]. injection Hp as <-. by exists f'.
  - intros (f & Hf & Hp). exists (k, f). split; [|by rewrite Hp]. apply list_elem_of_lookup. exists k.
    apply lookup_zip_with_Some. exists k, f. split_and!; [done| |done]. apply lookup_seq. split; [done|by eapply lookup_lt_Some].
Qed.

Lemma indices_where_sorted P (l : list queued) : StronglySorted lt (indices_where P l).
Proof.
  unfold indices_where. generalize 0%nat as n. induction l as [|q l IH]; intros n; simpl; [constructor|].
  destruct (P q); [|apply IH]. constructor; [apply IH|]. apply Forall_forall. intros k Hk.
  apply list_elem_of_omap in Hk as ([j f] & Hin & Hp). destruct (P f); [|done]. injection Hp as <-.
  apply list_elem_of_lookup in Hin as [i Hi]. apply lookup_zip_with_Some in Hi as (j' & f' & [= -> ->] & Hj & _).
  apply lookup_seq in Hj as [-> _]. lia.
Qed.

Lemma sorted_nodup (l : list nat) : StronglySorted lt l → NoDup l.
Proof.
  induction 1 as [|x l _ IH Hx]; [constructor|]. constructor; [|done]. intros Hin. rewrite Forall_forall in Hx. specialize (Hx x Hin). lia.
Qed.

Definition hashing_ok (h : hashing) (m : browser_manager) : Prop :=
  NoDup (hp_candidates h) ∧ ∀ k, k ∈ hp_candidates h → ∃ f, file_at k m = Some f ∧ q_done f = false.

Lemma preflight_candidates_ok answer m ks :
  preflight_candidates answer (fileQueue m) = Some ks →
  NoDup ks ∧ ∀ k, k ∈ ks → ∃ f, file_at k m = Some f ∧ q_done f = false.
Proof.
  unfold preflight_candidates. destruct (response_map _ _); [|done]. intros [= <-]. split; [apply sorted_nodup, indices_where_sorted|].
  intros k (f & Hf & Hp)%elem_of_indices_where. exists f. split; [done|]. apply andb_true_iff in Hp as [Hd _]. by destruct (q_done f).
Qed.

Lemma runner_takes_candidates i h : hp_candidates (runner_takes i h) = hp_candidates h.
Proof. unfold runner_takes. by destruct (_ !! _). Qed.

Lemma start_hashing_candidates n ks : hp_candidates (start_hashing n ks) = ks.
Proof.
  unfold start_hashing. match goal with |- context [foldl _ ?h ?l] => generalize l; assert (hp_candidates h = ks) as H by done; revert H; generalize h end.
  intros h H l. revert h H. induction l as [|i l IH]; intros h H; [done|]. simpl. apply IH. by rewrite runner_takes_candidates.
Qed.

(** ** Wherever [uploadFiles] waits *)

(** The workers of a run: [started], the files they were handed in this run. *)
Record working (old : nat → bool) (started : list nat) (ws : list browser_worker) (m : browser_manager) : Prop := {
  wk_uploading : uploading old (held_of ws) m;
  wk_workers : lengthZ ws = CONCURRENCY m;
  wk_ok : Forall (worker_ok m) ws;
  wk_sorted : StronglySorted lt (started ++ ahead m);
  wk_started : ∀ k, k ∈ started → ∃ f, file_at k m = Some f ∧ (q_done f = true ∨ k ∈ (held_of ws).*1);
  wk_held : ∀ k, k ∈ (held_of ws).*1 → k ∈ started;
  wk_ended : WorkerEnded ∈ ws → ahead m = [];
  wk_busy : all_ended ws = false }.

(** The files are through. *)
Definition finished_run (old : nat → bool) (m : browser_manager) : Prop :=
  uploading old [] m ∧ ∀ k f, file_at k m = Some f → q_done f = true.

Definition browser_ok (b : browser) : Prop :=
  let m := b_manager b in
  match b_task b with
  | AtRest => resting m ∧ isUploadInProgress m = false
  | AwaitConfig => resting m ∧ isUploadInProgress m = true ∧ b_configReady b = false
  | AwaitPrecheck _ => b_configReady b = true ∧ ∃ old, prepared old m
  | AwaitHashes _ h => b_configReady b = true ∧ (∃ old, prepared old m) ∧ hashing_ok h m ∧ hashing_done h = false
  | AwaitVerify _ h => b_configReady b = true ∧ (∃ old, prepared old m) ∧ hashing_ok h m
  | AwaitWorkers _ _ started ws => b_configReady b = true ∧ ∃ old, working old started ws m
  | AwaitCleanup _ | AwaitHistory _ => b_configReady b = true ∧ ∃ old, finished_run old m
  end.

Lemma held_of_insert (ws : list browser_worker) i w0 :
  ws !! i = Some w0 → ∃ rest, held_of ws ≡ₚ held_by w0 ++ rest ∧ ∀ w, held_of (<[i := w]> ws) ≡ₚ held_by w ++ rest.
Proof.
  intros Hi. exists (held_of (take i ws) ++ held_of (drop (S i) ws)). unfold held_of. split.
  - rewrite <-(take_drop_middle ws i w0 Hi) at 1. rewrite bind_app. simpl. rewrite !app_assoc. apply Permutation_app_tail, Permutation_app_comm.
  - intros w. rewrite insert_take_drop by (by eapply lookup_lt_Some). rewrite bind_app. simpl. rewrite !app_assoc. apply Permutation_app_tail, Permutation_app_comm.
Qed.

Lemma all_ended_held ws : all_ended ws = true → held_of ws = [].
Proof. unfold all_ended, held_of. induction ws as [|[k b t|] ws IH]; simpl; [done|done|]. by intros H%IH. Qed.

Lemma all_ended_in ws : all_ended ws = true → ws ≠ [] → WorkerEnded ∈ ws.
Proof. destruct ws as [|[k b t|] ws]; [done|done|]. intros _ _. left. Qed.

(** All workers returned: every file is done. *)
Lemma uploading_over old m : uploading old [] m → ahead m = [] → finished_run old m.
Proof.
  intros Hup Ha. split; [done|]. intros k f Hf. destruct (decide (k < nextUploadIndex m)%nat) as [Hk|Hk].
  - destruct (up_behind _ _ _ Hup k f Hf Hk) as [?|Hin]; [done|]. by apply elem_of_nil in Hin.
  - destruct (q_done f) eqn:Hd; [done|]. assert (k ∈ ahead m) as Hin by (apply elem_of_ahead; split; [lia|by exists f]).
    rewrite Ha in Hin. by apply elem_of_nil in Hin.
Qed.

(** ** The workers *)

Lemma started_settled old held started m k f :
  uploading old held m → NoDup (started ++ ahead m) → k ∈ started → file_at k m = Some f → q_done f = true ∨ k ∈ held.*1.
Proof.
  intros Hup Hnd Hk Hf. destruct (decide (k < nextUploadIndex m)%nat) as [Hlt|Hge]; [by apply (up_behind _ _ _ Hup)|].
  left. destruct (q_done f) eqn:Hd; [done|]. apply NoDup_app in Hnd as (_ & Hno & _). destruct (Hno k Hk).
  apply elem_of_ahead. split; [lia|by exists f].
Qed.

Lemma finished_run_same old m m' :
  fileQueue m' = fileQueue m → counters m' = counters m → byte_counters m' = byte_counters m → speed_counters m' = speed_counters m →
  finished_run old m → finished_run old m'.
Proof.
  intros Hq Hc Hb Hs [Hup Hd]. split; [|unfold file_at; by rewrite Hq].
  apply (uploading_rest old [] m); [by rewrite Hq|done| | |done].
  - apply (byte_book_same old m); [by rewrite Hq|done|apply Hup].
  - apply (speed_book_same m); [by rewrite Hq|done|apply Hup].
Qed.

(** Suspended workers, or the end of all. *)
Lemma await_workers_ok old times at_ started ws now b :
  let m := b_manager b in
  b_configReady b = true → uploading old (held_of ws) m → lengthZ ws = CONCURRENCY m → Forall (worker_ok m) ws →
  StronglySorted lt (started ++ ahead m) → (∀ k, k ∈ started → (k < length (fileQueue m))%nat) →
  (∀ k, k ∈ (held_of ws).*1 → k ∈ started) → (WorkerEnded ∈ ws → ahead m = []) →
  browser_ok (await_workers times at_ started ws now b).
Proof.
  intros m Hcr Hup Hws Hok Hsort Hst Hheld Hend. unfold await_workers. destruct (all_ended ws) eqn:Hall.
  - assert (WorkerEnded ∈ ws) as Hin.
    { apply all_ended_in; [done|]. intros ->. pose proof (up_config _ _ _ Hup) as [Hc _]. unfold lengthZ in Hws. simpl in Hws. lia. }
    rewrite (all_ended_held ws Hall) in Hup. pose proof (uploading_over old m Hup (Hend Hin)) as Hfin.
    split; [done|]. exists old. by apply (finished_run_same old m).
  - split; [done|]. exists old. split; try done. intros k Hk. destruct (lookup_lt_is_Some_2 _ _ (Hst k Hk)) as [f Hf]. exists f. split; [done|].
    by apply (started_settled old (held_of ws) started m k f Hup (sorted_nodup _ Hsort)).
Qed.

Lemma count_pending_countb m : count_pending m = countb not_done (fileQueue m).
Proof.
  unfold count_pending, pending_files, countb, lengthZ. induction (fileQueue m) as [|q l IH]; [done|].
  rewrite sumZ_cons, <-IH, filter_cons. unfold not_done. destruct (q_done q); simpl; lia.
Qed.

Lemma ahead_bound m k : k ∈ ahead m → (k < length (fileQueue m))%nat.
Proof. intros (_ & f & Hf & _)%elem_of_ahead. by eapply lookup_lt_Some. Qed.

Lemma ahead_sorted m : StronglySorted lt (ahead m).
Proof. apply pending_from_sorted. Qed.

Lemma completed_nonneg old m : byte_book old m → 0 <= globalCompletedBytes m.
Proof.
  intros Hb. rewrite (bb_completed _ _ Hb). unfold sum_at. apply sumZ_nonneg. intros [k f] Hin. simpl. unfold of_run.
  destruct (old k); [done|]. apply list_elem_of_lookup in Hin as [i Hi].
  apply lookup_zip_with_Some in Hi as (k' & f' & [= -> ->] & Hk & Hf). apply lookup_seq in Hk as [-> _].
  pose proof (bb_file _ _ Hb i f' Hf). lia.
Qed.

(** The counters are set for the workers. *)
Lemma prepared_uploading old m m2 :
  prepared old m → fileQueue m2 = fileQueue m → roster_counters m2 = roster_counters m →
  byte_counters m2 = byte_counters m → speed_counters m2 = speed_counters m → config m2 = config m →
  isUploadInProgress m2 = isUploadInProgress m → nextUploadIndex m2 = 0%nat → pendingCount m2 = count_pending m → uploading old [] m2.
Proof.
  intros [H1 H2 H3 H4 H5] Eq Er Eb Es Ec Ep En Epc. split.
  - apply (roster_counters_status [] m); [by rewrite Eq|done|done].
  - apply (byte_book_same old m); [by rewrite Eq|done|done].
  - apply (speed_book_same m); [by rewrite Eq|done|done].
  - intros k f _. rewrite En. lia.
  - by intros k ?%elem_of_nil.
  - by rewrite Epc, Eq, count_pending_countb.
  - congruence.
  - by apply (config_ok_same m).
Qed.

Section page.
Context (pf : platform).

Lemma begin_uploads_ok old times now b :
  b_configReady b = true → prepared old (b_manager b) → browser_ok (begin_uploads pf times now b).
Proof.
  intros Hcr Hm. unfold begin_uploads. cbv zeta.
  set (m1 := b_manager b <| checkDurationMs := _ |> <| pendingCount := _ |> <| nextUploadIndex := 0%nat |>).
  destruct (Z.ltb_spec 0 (pendingCount m1)) as [Hpos|Hno].
  - set (m2 := m1 <| currentPhase := phase_uploading |> <| lastProgressTs := now |>).
    assert (uploading old [] m2) as Hup2 by (by apply (prepared_uploading old (b_manager b))).
    destruct (spawn_workers pf _ now m2) as [[[m3 ks] sent] ws] eqn:Hsp.
    pose proof (spawn_workers_transfer pf _ now old [] _ _ _ _ _ Hup2 Hsp) as (T1 & T2 & _).
    apply (spawn_workers_spec pf _ now old []) in Hsp as (S1 & S2 & S3 & S4 & S5 & S6 & _ & S8); [|done].
    rewrite app_nil_r in S1. apply (await_workers_ok old); simpl; try done.
    + unfold lengthZ. rewrite S3. unfold config in S8. assert (CONCURRENCY m3 = CONCURRENCY m2) as -> by congruence.
      pose proof (up_config _ _ _ Hup2) as [? _]. lia.
    + rewrite <-S2. apply ahead_sorted.
    + intros k Hk. rewrite S6. apply ahead_bound. rewrite S2. apply elem_of_app. by left.
    + intros k ([k' b'] & -> & Hk)%list_elem_of_fmap. by apply (S4 k' b').
  - assert (uploading old [] m1) as Hup1 by (by apply (prepared_uploading old (b_manager b))). split; [done|]. exists old.
    apply (finished_run_same old m1); try done. split; [done|]. intros k f Hf.
    pose proof (up_pending _ _ _ Hup1) as Hpc. rewrite Hpc in Hno.
    assert (number_of_bool (not_done f) <= countb not_done (fileQueue m1)) as Hle.
    { apply (sumZ_elem_le (λ q, number_of_bool (not_done q))); [intros q _; by destruct (not_done q)|by eapply list_elem_of_lookup_2]. }
    destruct (q_done f) eqn:Hd; [done|]. assert (not_done f = true) as E by (unfold not_done; by rewrite Hd). rewrite E in Hle. change (1 <= countb not_done (fileQueue m1)) in Hle. lia.
Qed.

(** An event reached the upload of a worker. *)
Lemma worker_progressed_ok old times at_ started ws i k wasFailed t now m1 p b :
  b_configReady b = true → working old started ws (b_manager b) → ws !! i = Some (WorkerUploads k wasFailed t) →
  touches k (b_manager b) m1 →
  (∀ size t' sent, sizes (b_manager b) !! k = Some size → p = Suspended t' sent → transfer_ok size t') →
  browser_ok (worker_progressed pf times at_ started ws i k wasFailed now (m1, p) b).
Proof.
  intros Hcr [W1 W2 W3 W4 W5 W6 W7 W8] Hi Ht Hp. set (m := b_manager b) in *.
  destruct (held_of_insert ws i _ Hi) as (rest & Hr & Hins). simpl in Hr.
  pose proof (uploading_perm _ _ _ _ Hr W1) as Hup0.
  destruct (uploading_touches old _ m m1 k wasFailed Ht ltac:(left) Hup0) as (Hup1 & Hst1 & Hn1 & Hc1).
  pose proof (status_sizes _ _ Hst1 : sizes m1 = sizes m) as Hsz1.
  assert (done_flags m1 = done_flags m) as Hd1 by (by apply status_flags).
  assert (ahead m1 = ahead m) as Ha1 by (unfold ahead; by rewrite Hn1, Hd1).
  assert (length (fileQueue m1) = length (fileQueue m)) as Hl1 by (apply (f_equal length) in Hsz1; unfold sizes in Hsz1; by rewrite !length_fmap in Hsz1).
  assert (∀ j, j ∈ started → (j < length (fileQueue m))%nat) as Hrange by (intros j Hj; destruct (W5 j Hj) as (f & Hf & _); by eapply lookup_lt_Some).
  assert (∀ m' w, sizes m' = sizes m → worker_ok m' w → Forall (worker_ok m') (<[i := w]> ws)) as Hoks.
  { intros m' w Hsz Hw. apply Forall_insert; [|done]. eapply Forall_impl; [exact W3|]. intros w' Hw'. by apply (worker_ok_same m). }
  assert (∀ w, lengthZ (<[i := w]> ws) = lengthZ ws) as Hlen by (intros w; unfold lengthZ; by rewrite length_insert).
  assert (∀ w, WorkerEnded ∈ <[i := w]> ws → w = WorkerEnded ∨ WorkerEnded ∈ ws) as Hend.
  { intros w [j Hj]%list_elem_of_lookup. destruct (decide (i = j)) as [<-|Hij].
    - rewrite list_lookup_insert_eq in Hj by (by eapply lookup_lt_Some). left. congruence.
    - rewrite list_lookup_insert_ne in Hj by done. right. by eapply list_elem_of_lookup_2. }
  assert (∀ r, browser_ok (let '(m, ks, sent, w) := worker_next pf now (ended_with k now wasFailed r m1) in
    await_workers times at_ (started ++ ks) (<[i := w]> ws) now (out (Uploads <$> sent) (b <| b_manager := m |>)))) as Hdone.
  { intros r. destruct (uploading_end old rest m1 k now wasFailed r Hup1) as (Hup2 & Hn2 & Hd2 & Hc2).
    pose proof (ended_sizes k now wasFailed r m1) as Hsz2. set (m2 := ended_with k now wasFailed r m1) in *. clearbody m2.
    assert (ahead m2 = ahead m1) as Ha2.
    { unfold ahead. rewrite Hn2. f_equal. apply drop_flags_same. intros j Hj. unfold done_flags. rewrite Hd2. apply list_lookup_insert_ne.
      pose proof (up_ahead _ _ _ Hup1 k ltac:(left)). lia. }
    destruct (worker_next pf now m2) as [[[m3 ks] sent] w] eqn:Hw.
    pose proof (worker_turns_transfer pf _ now old rest _ _ _ _ _ Hup2 Hw) as (T1 & T2 & _).
    apply (worker_next_spec pf now old rest) in Hw as (N1 & N2 & N3 & N4 & N5 & N6 & N7); [|done].
    assert (length (fileQueue m3) = length (fileQueue m)) as Hl3.
    { apply (f_equal length) in Hsz2. unfold sizes in Hsz2. rewrite !length_fmap in Hsz2. congruence. }
    apply (await_workers_ok old); simpl; try done.
    - apply (uploading_perm old (held_by w ++ rest)); [by rewrite Hins|done].
    - rewrite Hlen, W2. unfold config in *. congruence.
    - apply Hoks; [congruence|done].
    - by rewrite <-app_assoc, <-N2, Ha2, Ha1.
    - intros j Hj. rewrite Hl3. apply elem_of_app in Hj as [Hj|Hj]; [by apply Hrange|].
      apply ahead_bound. rewrite <-Ha1, <-Ha2, N2. apply elem_of_app. by left.
    - intros j Hj. rewrite Hins, fmap_app in Hj. apply elem_of_app. apply elem_of_app in Hj as [Hj|Hj].
      + right. apply list_elem_of_fmap in Hj as ([j' b'] & -> & Hj). by apply (N3 j' b').
      + left. apply W6. rewrite Hr, fmap_cons. by right.
    - intros [->|Hin]%Hend; [by apply N4|]. specialize (W7 Hin). rewrite <-Ha1, <-Ha2, N2 in W7. by destruct ks, (ahead m3). }
  unfold worker_progressed. destruct p as [t' sent|result|status]; [|exact (Hdone (Some result))|exact (Hdone None)].
  split; [done|]. exists old. simpl.
  assert (held_of (<[i:=WorkerUploads k wasFailed t']> ws) ≡ₚ held_of ws) as Hh by (rewrite Hins, Hr; done).
  pose proof (uploading_perm old _ _ m1 (symmetry Hr) Hup1) as Hup1'.
  split.
  - exact (uploading_perm old _ _ m1 (symmetry Hh) Hup1').
  - rewrite Hlen, W2. symmetry. exact (f_equal (λ c, c.1.1) Hc1).
  - apply Hoks; [done|]. rewrite Forall_forall in W3. destruct (W3 _ (list_elem_of_lookup_2 _ _ _ Hi)) as (size & Hs & _).
    exists size. rewrite Hsz1. split; [done|]. by apply (Hp size t' sent).
  - by rewrite Ha1.
  - intros j Hj. destruct (lookup_lt_is_Some_2 (fileQueue m1) j) as [f Hf]; [rewrite Hl1; by apply Hrange|]. exists f. split; [done|].
    rewrite Hh. apply (started_settled old (held_of ws) started m1 j f); [done|rewrite Ha1; by apply sorted_nodup|done|done].
  - intros j. rewrite Hh. apply W6.
  - intros [?|Hin]%Hend; [done|]. rewrite Ha1. by apply W7.
  - destruct (all_ended (<[i:=WorkerUploads k wasFailed t']> ws)) eqn:Hall; [|done]. apply all_ended_held in Hall. rewrite Hall in Hh.
    symmetry in Hh. apply Permutation_nil_r in Hh. rewrite Hh in Hr. by apply Permutation_nil_l in Hr.
Qed.

(** ** Every event *)

(** The books between runs read nothing of the run's clock, of its phase or of its speeds shown. *)
Lemma prepared_queue old m m' :
  fileQueue m' = fileQueue m → roster_counters m' = roster_counters m → byte_counters m' = byte_counters m →
  speed_counters m' = speed_counters m → config m' = config m → isUploadInProgress m' = isUploadInProgress m →
  prepared old m → prepared old m'.
Proof.
  intros Hq Hr Hb Hs Hc Hp [H1 H2 H3 H4 H5]. split.
  - apply (roster_counters_status [] m); [by rewrite Hq|done|done].
  - apply (byte_book_same old m); [by rewrite Hq|done|done].
  - apply (speed_book_same m); [by rewrite Hq|done|done].
  - congruence.
  - by apply (config_ok_same m).
Qed.

Lemma begin_run_ok now b :
  resting (b_manager b) → isUploadInProgress (b_manager b) = true → b_configReady b = true → browser_ok (begin_run now b).
Proof.
  intros Hm Hp Hcr. unfold begin_run. fold (requeued (b_manager b)). cbv zeta.
  destruct (forallb q_done (fileQueue (requeued (b_manager b)))) eqn:Hall.
  - split; [|done]. pose proof (requeue_done _ Hall) as Hq. apply (resting_config (b_manager b)); try done. apply Hm.
  - split; [done|]. exists (done_before (b_manager b)). by apply prepared_begin.
Qed.

Lemma preflight_returned_ok old times now result b :
  b_configReady b = true →
  match result with
  | Some (m, n, s) => prepared old m ∧ s <= globalCompletedBytes m
  | None => prepared old (b_manager b)
  end → browser_ok (preflight_returned pf times now result b).
Proof.
  intros Hcr Hr. unfold preflight_returned. apply (begin_uploads_ok old); [by destruct result as [[[m n] s]|]|].
  destruct result as [[[m n] s]|]; [|done]. destruct Hr as [Hm Hs]. apply (prepared_queue old m); try done.
  unfold byte_counters. simpl. by rewrite Z.max_l.
Qed.

Lemma hashes_progressed_ok old times now h b :
  b_configReady b = true → prepared old (b_manager b) → hashing_ok h (b_manager b) →
  browser_ok (hashes_progressed pf times now h b).
Proof.
  intros Hcr Hm Hh. unfold hashes_progressed. destruct (hashing_done h) eqn:Hd; simpl; [|split; [done|]; split; [by exists old|done]].
  destruct (hp_verified h).
  - apply (preflight_returned_ok old); [done|]. split; [done|]. apply (completed_nonneg old), Hm.
  - split; [done|]. split; [by exists old|done].
Qed.

(** Adding files and starting over do nothing while a run is in progress. *)
Lemma busy_addFiles files m : isUploadInProgress m = true → (addFiles files m).1 = m.
Proof. intros H. unfold addFiles. by rewrite H. Qed.

Lemma busy_resetFiles m : isUploadInProgress m = true → resetFiles m = m.
Proof. intros H. unfold resetFiles. by rewrite H. Qed.

Lemma browser_ok_busy b : browser_ok b → b_task b ≠ AtRest → isUploadInProgress (b_manager b) = true.
Proof.
  unfold browser_ok. destruct (b_task b); try done.
  - by intros (_ & ? & _).
  - by intros (_ & old & [? ? ? ? ?]).
  - by intros (_ & (old & [? ? ? ? ?]) & _).
  - by intros (_ & (old & [? ? ? ? ?]) & _).
  - intros (_ & old & [Hup ? ? ? ? ? ? ?]) _. apply Hup.
  - intros (_ & old & [Hup ?]) _. apply Hup.
  - intros (_ & old & [Hup ?]) _. apply Hup.
Qed.

Lemma on_manager_id (f : browser_manager → browser_manager) b : f (b_manager b) = b_manager b → on_manager f b = b.
Proof. intros H. unfold on_manager. rewrite H. by destruct b. Qed.

Lemma at_rest_ok f b :
  (∀ m, resting m → resting (f m)) → (∀ m, isUploadInProgress (f m) = isUploadInProgress m) →
  (∀ m, isUploadInProgress m = true → f m = m) → browser_ok b → browser_ok (on_manager f b).
Proof.
  intros H1 H2 H3 Hb. destruct (isUploadInProgress (b_manager b)) eqn:Hp.
  - rewrite on_manager_id; [done|]. by apply H3.
  - assert (b_task b = AtRest) as Ht by (destruct (b_task b) eqn:E; [done|..]; pose proof (browser_ok_busy b Hb) as Hn; rewrite E in Hn; specialize (Hn ltac:(done)); congruence).
    unfold browser_ok in *. simpl. rewrite Ht in *. destruct Hb as [Hm _]. split; [by apply H1|]. by rewrite H2.
Qed.

(** A tick of the speed display: only speeds, and not those of the files. *)
Lemma speed_tick_spec now b :
  let m := b_manager b in let m' := b_manager (speed_tick now b) in
  fileQueue m' = fileQueue m ∧ counters m' = counters m ∧ byte_counters m' = byte_counters m
  ∧ speed_counters m' = speed_counters (refresh_speed_display now m).
Proof.
  cbv zeta. unfold speed_tick. set (m0 := b_manager b).
  assert (fileQueue (refresh_speed_display now m0) = fileQueue m0 ∧ byte_counters (refresh_speed_display now m0) = byte_counters m0) as [Hq Hbc].
  { unfold refresh_speed_display, getCurrentSpeedForDisplay. cbv zeta. by destruct (_ && _), (5000 <=? _). }
  destruct (touch_status 0 _ _ (touch_display 0 m0 now)) as [_ <-]. rewrite <-Hq, <-Hbc.
  unfold reportSpeedSample. by destruct (negb false && _).
Qed.

Lemma speed_tick_books old now b :
  byte_book old (b_manager b) → speed_book (b_manager b) →
  byte_book old (b_manager (speed_tick now b)) ∧ speed_book (b_manager (speed_tick now b)).
Proof.
  intros Hb Hs. destruct (speed_tick_spec now b) as (Eq & _ & Eb & Es). split.
  - apply (byte_book_same old (b_manager b)); [by rewrite Eq|done|done].
  - apply (speed_book_same (refresh_speed_display now (b_manager b))); [|done|by apply speed_book_display].
    rewrite Eq. unfold refresh_speed_display, getCurrentSpeedForDisplay. cbv zeta. by destruct (_ && _), (5000 <=? _).
Qed.

Lemma uploading_speed_tick old held now b : uploading old held (b_manager b) → uploading old held (b_manager (speed_tick now b)).
Proof.
  intros Hup. destruct (speed_tick_spec now b) as (Eq & Ec & _). destruct (speed_tick_books old now b) as [H1 H2]; [apply Hup..|].
  apply (uploading_rest old held (b_manager b)); [by rewrite Eq|done..].
Qed.

Lemma finished_speed_tick old now b : finished_run old (b_manager b) → finished_run old (b_manager (speed_tick now b)).
Proof.
  intros [Hup Hd]. destruct (speed_tick_spec now b) as (Eq & _). split; [by apply uploading_speed_tick|]. unfold file_at. by rewrite Eq.
Qed.

Lemma speed_tick_ahead now b : ahead (b_manager (speed_tick now b)) = ahead (b_manager b).
Proof.
  destruct (speed_tick_spec now b) as (Eq & Ec & _). unfold ahead, done_flags. rewrite Eq.
  by assert (nextUploadIndex (b_manager (speed_tick now b)) = nextUploadIndex (b_manager b)) as -> by exact (f_equal (λ c, c.1.1.2) Ec).
Qed.

Lemma working_speed_tick old started ws now b : working old started ws (b_manager b) → working old started ws (b_manager (speed_tick now b)).
Proof.
  intros [W1 W2 W3 W4 W5 W6 W7 W8]. destruct (speed_tick_spec now b) as (Eq & Ec & _). split; rewrite ?speed_tick_ahead; try done.
  - by apply uploading_speed_tick.
  - rewrite W2. symmetry. exact (f_equal (λ c, c.2.1.1) Ec).
  - eapply Forall_impl; [exact W3|]. intros w. apply worker_ok_same. unfold sizes. by rewrite Eq.
  - intros k Hk. unfold file_at. rewrite Eq. by apply W5.
Qed.

Lemma hash_ended_candidates i sha h h' : hash_ended i sha h = Some h' → hp_candidates h' = hp_candidates h.
Proof. unfold hash_ended. destruct (hp_runners h !! i) as [[k|]|]; [|done|done]. intros [= <-]. by rewrite runner_takes_candidates. Qed.

Lemma uploadFiles_ok now b : browser_ok b → browser_ok (uploadFiles now b).
Proof.
  intros Hb. unfold uploadFiles. destruct (isUploadInProgress (b_manager b)) eqn:Hp; [done|].
  assert (b_task b = AtRest) as Ht by (destruct (b_task b) eqn:E; [done|..]; pose proof (browser_ok_busy b Hb) as Hn; rewrite E in Hn; specialize (Hn ltac:(done)); congruence).
  unfold browser_ok in Hb. rewrite Ht in Hb. destruct Hb as [Hm _].
  destruct (fileQueue (b_manager b)) as [|f fs] eqn:Hq; [unfold browser_ok; by rewrite Ht|].
  assert (resting (b_manager b <| isUploadInProgress := true |>)) as Hm' by (apply (resting_config (b_manager b)); try done; apply Hm).
  cbv zeta. match goal with |- context [if ?x then _ else _] => destruct x eqn:Hcr end; [by apply begin_run_ok|done].
Qed.

Lemma config_answer_ok now answer b b' :
  browser_ok b → exec pf now (ConfigAnswer answer) b = Some b' → browser_ok b'.
Proof.
  intros Hb. cbn [exec]. destruct (b_configReady b) eqn:Hcr; [done|]. intros [= <-]. unfold browser_ok in Hb.
  assert (∀ m, isUploadInProgress (config_answered answer m) = isUploadInProgress m) as Hp
    by (intros m; unfold config_answered; destruct answer; [by destruct (fallback_config _)|done]).
  destruct (b_task b) eqn:Ht; try (destruct Hb as [? _]; congruence).
  - unfold browser_ok. simpl. rewrite Ht, Hp. destruct Hb as [Hm Hi]. split; [by apply resting_answered|done].
  - destruct Hb as (Hm & Hi & _). apply begin_run_ok; [by apply resting_answered|simpl; by rewrite Hp|done].
Qed.

Lemma speed_tick_ok now b b' : browser_ok b → exec pf now SpeedTick b = Some b' → browser_ok b'.
Proof.
  intros Hb. cbn [exec]. destruct (ticking (b_task b)) eqn:Htick; [|done]. intros [= <-].
  assert (b_task (speed_tick now b) = b_task b ∧ b_configReady (speed_tick now b) = b_configReady b) as [E1 E2]
    by (unfold speed_tick; by destruct (reportSpeedSample _ _ _ _)).
  unfold browser_ok in *. rewrite E1, E2. destruct (b_task b); try done; destruct Hb as (Hcr & old & Hb); (split; [done|]); exists old.
  - by apply working_speed_tick.
  - by apply finished_speed_tick.
  - by apply finished_speed_tick.
Qed.

Lemma worker_size old started ws m i k w t :
  working old started ws m → ws !! i = Some (WorkerUploads k w t) → ∃ size, sizes m !! k = Some size ∧ transfer_ok size t.
Proof. intros Hw Hi. pose proof (wk_ok _ _ _ _ Hw) as H. rewrite Forall_forall in H. exact (H _ (list_elem_of_lookup_2 _ _ _ Hi)). Qed.

Lemma xhr_event_ok now i e b b' : browser_ok b → exec pf now (XhrEvent i e) b = Some b' → browser_ok b'.
Proof.
  intros Hb. cbn [exec]. unfold browser_ok in Hb. destruct (b_task b) as [| | | | |times at_ started ws| |] eqn:Ht; try done.
  destruct Hb as (Hcr & old & Hw). destruct (ws !! i) as [[k wf t|]|] eqn:Hi; [|done..].
  destruct (worker_size _ _ _ _ _ _ _ _ Hw Hi) as (size & Hs & Hok).
  destruct (file_at k (b_manager b)) as [f|] eqn:Hf; [|done]. simpl. rewrite (file_sizes k _ f Hf) in Hs. injection Hs as <-.
  destruct t as [since|c since|c]; [..|done]; intros [= <-].
  - pose proof (whole_event_touches k now since e (b_manager b)) as Htch. pose proof (whole_event_closer k now since e (b_manager b)) as Hc.
    destruct (whole_event _ _ _ _ _) as [m1 p]. apply (worker_progressed_ok old _ _ _ _ _ _ _ (InWhole since)); try done.
    intros size t' sent _ ->. by destruct Hc as (-> & _).
  - pose proof (chunk_event_touches k now (q_size f) since e c (b_manager b)) as Htch.
    pose proof (chunk_event_closer k now (q_size f) since e c (b_manager b) Hok) as Hc.
    destruct (chunk_event _ _ _ _ _ _ _) as [m1 p]. apply (worker_progressed_ok old _ _ _ _ _ _ _ (InChunk c since)); try done.
    intros size t' sent Hsz ->. rewrite (file_sizes k _ f Hf) in Hsz. injection Hsz as <-. apply Hc.
Qed.

Lemma pause_ends_ok now i b b' : browser_ok b → exec pf now (PauseEnds i) b = Some b' → browser_ok b'.
Proof.
  intros Hb. cbn [exec]. unfold browser_ok in Hb. destruct (b_task b) as [| | | | |times at_ started ws| |] eqn:Ht; try done.
  destruct Hb as (Hcr & old & Hw). destruct (ws !! i) as [[k wf t|]|] eqn:Hi; [|done..].
  destruct (worker_size _ _ _ _ _ _ _ _ Hw Hi) as (size & Hs & Hok).
  destruct t as [since|c since|c]; [done..|].
  destruct (file_at k (b_manager b)) as [f|] eqn:Hf; [|done].
  intros H. apply (inj Some) in H. subst b'. unfold retry_chunk.
  apply (worker_progressed_ok old _ _ _ _ _ _ _ (InPause c)); try done.
  intros size' t' sent Hsz [= <- _]. rewrite Hs in Hsz. by injection Hsz as <-.
Qed.

Lemma browser_exec_ok now e b b' : event_ok e → browser_ok b → exec pf now e b = Some b' → browser_ok b'.
Proof.
  intros He Hb. destruct e as [files| | |answer|answer|i sha|answer|i e|i| | |].
  - intros [= <-]. apply at_rest_ok; [intros m; by apply resting_addFiles| |intros m; apply busy_addFiles|done].
    intros m. unfold addFiles. destruct (isUploadInProgress m) eqn:E; [done|]. by destruct files.
  - intros [= <-]. apply at_rest_ok; [apply resting_resetFiles| |apply busy_resetFiles|done].
    intros m. unfold resetFiles. by destruct (isUploadInProgress m) eqn:E.
  - intros [= <-]. by apply uploadFiles_ok.
  - by apply config_answer_ok.
  - cbn [exec]. unfold browser_ok in Hb. destruct (b_task b); try done. destruct Hb as (Hcr & old & Hm). intros [= <-].
    unfold precheck_answered. destruct (answer ≫= _) as [ks|] eqn:Hks; [|by apply (preflight_returned_ok old)].
    apply (hashes_progressed_ok old); [done..|]. destruct answer as [initial|]; [|done]. simpl in Hks.
    unfold hashing_ok. rewrite start_hashing_candidates. by apply preflight_candidates_ok in Hks.
  - cbn [exec]. unfold browser_ok in Hb. destruct (b_task b) as [| | |times h| | | |] eqn:Ht; try (by destruct sha).
    destruct Hb as (Hcr & (old & Hm) & Hh & _). destruct sha as [sha|].
    + destruct (hash_ended i sha h) as [h'|] eqn:Hend; [|done]. intros [= <-]. apply (hashes_progressed_ok old); [done..|].
      unfold hashing_ok. by rewrite (hash_ended_candidates _ _ _ _ Hend).
    + destruct (hp_runners h !! i) as [[k|]|]; [|done..]. intros [= <-]. by apply (preflight_returned_ok old).
  - cbn [exec]. unfold browser_ok in Hb. destruct (b_task b) as [| | | |times h| | |] eqn:Ht; try done.
    destruct Hb as (Hcr & (old & Hm) & [Hnd Hh]). intros [= <-]. apply (preflight_returned_ok old); [done|].
    destruct answer as [verified|]; [|done]. simpl. unfold preflight_verified. destruct (response_map _ _) as [r|]; [|done]. simpl.
    destruct (foldl (verify_candidate r) (b_manager b, 0, 0) (hp_candidates h)) as [[m n] s] eqn:Hfold.
    apply (verify_candidates_spec old) in Hfold as (H1 & H2 & _); try done. apply (completed_nonneg old), Hm.
  - by apply xhr_event_ok.
  - by apply pause_ends_ok.
  - by apply speed_tick_ok.
  - cbn [exec]. unfold browser_ok in Hb. destruct (b_task b); try done. intros [= <-]. destruct Hb as (Hcr & old & Hf).
    split; [done|]. by exists old.
  - cbn [exec]. unfold browser_ok in Hb. destruct (b_task b); try done. intros [= <-]. destruct Hb as (Hcr & old & [Hup Hd]).
    unfold history_answered. destruct (reportSpeedSample _ _ _ _) as [m s] eqn:Hs. split; [|done].
    revert Hs. unfold reportSpeedSample. simpl. intros [= <- _]. by apply (uploading_resting old (b_manager b)).
Qed.

Lemma loaded_ok mobile : browser_ok (browser_loaded mobile).
Proof.
  split; [|by destruct mobile]. split; [| | | | |apply config_requested_ok].
  - split; [apply NoDup_nil_2|by intros k b ?%elem_of_nil|intros k f Hf; by destruct mobile|by destruct mobile|by destruct mobile].
  - by destruct mobile.
  - intros k f Hf. by destruct mobile.
  - intros k f Hf. by destruct mobile.
  - split; [by destruct mobile|intros k f Hf; by destruct mobile|intros k f e Hf; by destruct mobile].
Qed.

Lemma reachable_ok mobile b : browser_reachable pf mobile b → browser_ok b.
Proof.
  unfold browser_reachable. intros Hr. apply (rtc_ind_r browser_ok (browser_loaded mobile)) in Hr; [done|apply loaded_ok|].
  intros b1 b2 _ (now & e & He & Hx) H1. by apply (browser_exec_ok now e b1).
Qed.

End page.
