(* ===== verification/BrowserEnd.v ===== *)
(** * Every run of the browser's upload manager ends

    [browser_cost] bounds the answers a run still waits for: answers to requests, ends of
    hashes and of pauses. Every answer lowers it, no other event raises it, and an answer is
    always awaited until the run is over. *)

From Stdlib Require Import QArith Qcanon Sorting.Sorted.
From S2P Require Import Prelude Js Browser BrowserUpload BrowserPreflight BrowserRun BrowserBooks BrowserBytes BrowserTurns BrowserTransfers BrowserInvariant.
Open Scope Z_scope.

Definition busy_runners (h : hashing) : Z := sumZ (λ r : option nat, if r is Some _ then 1 else 0) (hp_runners h).
Definition hash_cost (h : hashing) : Z := Z.of_nat (length (hp_candidates h) - hp_candidateIndex h) + busy_runners h.

Definition browser_cost (b : browser) : Z :=
  let n := lengthZ (fileQueue (b_manager b)) in
  match b_task b with
  | AtRest => 0
  | AwaitConfig => FILE_COST * n + n + 5
  | AwaitPrecheck _ => FILE_COST * n + n + 4
  | AwaitHashes _ h => FILE_COST * n + hash_cost h + 3
  | AwaitVerify _ _ => FILE_COST * n + 3
  | AwaitWorkers _ _ _ ws => sumZ worker_cost ws + FILE_COST * lengthZ (ahead (b_manager b)) + 2
  | AwaitCleanup _ => 2
  | AwaitHistory _ => 1
  end.

(** The events a run waits for. *)
Definition answers (e : browser_event) : bool :=
  match e with
  | ConfigAnswer _ | PrecheckAnswer _ | HashEnds _ _ | VerifyAnswer _ | PauseEnds _ | CleanupEnds | HistoryAnswer => true
  | XhrEvent _ e => settles e
  | AddFiles _ | Reset | ClickUpload | SpeedTick => false
  end.

(** ** Hashes *)

Lemma runner_takes_cost i r h :
  hp_runners h !! i = Some r → hash_cost (runner_takes i h) <= hash_cost h - (if r is Some _ then 1 else 0).
Proof.
  intros Hi. unfold runner_takes, hash_cost, busy_runners. destruct (hp_candidates h !! hp_candidateIndex h) as [k|] eqn:Hk; simpl.
  - apply lookup_lt_Some in Hk. rewrite (sumZ_insert _ _ _ r (Some k) Hi). destruct r; lia.
  - rewrite (sumZ_insert _ _ _ r None Hi). destruct r; lia.
Qed.

Lemma runner_takes_runners i h : length (hp_runners (runner_takes i h)) = length (hp_runners h).
Proof. unfold runner_takes. destruct (_ !! _); simpl; by rewrite length_insert. Qed.

Lemma runners_take_cost order h :
  Forall (λ i, (i < length (hp_runners h))%nat) order → hash_cost (foldl (λ h i, runner_takes i h) h order) <= hash_cost h.
Proof.
  revert h. induction order as [|i order IH]; intros h Hf; [done|]. apply Forall_cons in Hf as [Hi Hf]. simpl.
  etrans; [apply IH; by rewrite runner_takes_runners|]. apply lookup_lt_is_Some in Hi as [r Hr].
  pose proof (runner_takes_cost i r h Hr). destruct r; lia.
Qed.

Lemma start_hashing_cost n ks : hash_cost (start_hashing n ks) <= lengthZ ks.
Proof.
  unfold start_hashing. etrans; [apply runners_take_cost|].
  - apply Forall_forall. intros i Hi. simpl. rewrite length_replicate. apply elem_of_seq in Hi. lia.
  - unfold hash_cost, busy_runners, lengthZ. simpl. rewrite Nat.sub_0_r.
    generalize (if (n =? 1) || (length ks <=? 1)%nat then 1%nat else Nat.min (Z.to_nat n) (length ks)). intros w.
    enough (sumZ (λ r : option nat, if r is Some _ then 1 else 0) (replicate w None) = 0) by lia.
    induction w as [|w IH]; [done|]. simpl. by rewrite sumZ_cons, IH.
Qed.

Lemma hash_ended_cost i sha h h' : hash_ended i sha h = Some h' → hash_cost h' <= hash_cost h - 1.
Proof.
  unfold hash_ended. destruct (hp_runners h !! i) as [[k|]|] eqn:Hi; [|done..]. intros [= <-].
  set (h0 := h <| hp_verified := _ |>). assert (hash_cost h = hash_cost h0) as -> by done. by apply (runner_takes_cost i (Some k) h0).
Qed.

Lemma hash_cost_nonneg h : 0 <= hash_cost h.
Proof. unfold hash_cost, busy_runners. assert (0 <= sumZ (λ r : option nat, if r is Some _ then 1 else 0) (hp_runners h)); [|lia]. apply sumZ_nonneg. intros [] _; lia. Qed.

(** ** Workers *)

Lemma ahead_length m : lengthZ (ahead m) <= lengthZ (fileQueue m).
Proof.
  unfold lengthZ. apply Nat2Z.inj_le. transitivity (length (seq 0 (length (fileQueue m)))); [|by rewrite length_seq].
  apply submseteq_length, NoDup_submseteq; [apply sorted_nodup, ahead_sorted|]. intros k Hk. apply elem_of_seq. pose proof (ahead_bound m k Hk). lia.
Qed.

Lemma workers_cost_ok m ws : Forall (worker_ok m) ws → ∀ w, w ∈ ws → 0 <= worker_cost w.
Proof.
  intros Hf w Hw. rewrite Forall_forall in Hf. specialize (Hf w Hw). destruct w as [k b t|]; [|done].
  destruct Hf as (size & _ & Hok). simpl. pose proof (transfer_cost_bounds size t Hok). lia.
Qed.

Lemma busy_cost m ws : Forall (worker_ok m) ws → all_ended ws = false → 1 <= sumZ worker_cost ws.
Proof.
  intros Hf Hb. unfold all_ended in Hb. assert (∃ k b t, WorkerUploads k b t ∈ ws) as (k & b & t & Hin).
  { clear Hf. induction ws as [|[k b t|] ws IH]; simpl in Hb; [done|exists k, b, t; left|].
    destruct (IH Hb) as (k & b & t & ?). exists k, b, t. by right. }
  pose proof (sumZ_elem_le worker_cost ws _ (workers_cost_ok m ws Hf) Hin) as Hle. simpl in Hle.
  rewrite Forall_forall in Hf. destruct (Hf _ Hin) as (size & _ & Hok). pose proof (transfer_cost_bounds size t Hok). lia.
Qed.

Section page.
Context (pf : platform).

Lemma await_workers_cost times at_ started ws now b :
  (∀ w, w ∈ ws → 0 <= worker_cost w) →
  2 <= browser_cost (await_workers times at_ started ws now b)
    <= sumZ worker_cost ws + FILE_COST * lengthZ (ahead (b_manager b)) + 2.
Proof.
  intros Hw. pose proof (sumZ_nonneg worker_cost ws Hw). assert (0 <= lengthZ (ahead (b_manager b))) by (unfold lengthZ; lia).
  assert (0 < FILE_COST) by done. unfold await_workers. destruct (all_ended ws); unfold browser_cost; cbn -[FILE_COST]; nia.
Qed.

Lemma begin_uploads_cost old times now b :
  prepared old (b_manager b) → browser_cost (begin_uploads pf times now b) <= FILE_COST * lengthZ (fileQueue (b_manager b)) + 2.
Proof.
  intros Hm. assert (0 < FILE_COST) as Hpos by done. assert (0 <= lengthZ (fileQueue (b_manager b))) by (unfold lengthZ; lia).
  unfold begin_uploads. cbv zeta.
  set (m1 := b_manager b <| checkDurationMs := _ |> <| pendingCount := _ |> <| nextUploadIndex := 0%nat |>).
  destruct (0 <? pendingCount m1); [|unfold browser_cost; cbn -[FILE_COST]; nia].
  set (m2 := m1 <| currentPhase := phase_uploading |> <| lastProgressTs := now |>).
  assert (uploading old [] m2) as Hup by (by apply (prepared_uploading old (b_manager b))).
  destruct (spawn_workers pf _ now m2) as [[[m3 ks] sent] ws] eqn:Hsp.
  pose proof (spawn_workers_transfer pf _ now old [] _ _ _ _ _ Hup Hsp) as (T1 & T2 & T3).
  apply (spawn_workers_spec pf _ now old []) in Hsp as (_ & S2 & _); [|done].
  etrans; [apply await_workers_cost; by apply (workers_cost_ok m3)|]. cbn -[FILE_COST].
  pose proof (ahead_length m2) as Hl. rewrite S2 in Hl. unfold lengthZ in *. rewrite length_app in Hl. change (fileQueue m2) with (fileQueue (b_manager b)) in Hl. nia.
Qed.

Lemma worker_progressed_cost old times at_ started ws i k wasFailed t now m1 p b :
  b_task b = AwaitWorkers times at_ started ws →
  working old started ws (b_manager b) → ws !! i = Some (WorkerUploads k wasFailed t) →
  touches k (b_manager b) m1 →
  browser_cost (worker_progressed pf times at_ started ws i k wasFailed now (m1, p) b)
    <= browser_cost b - transfer_cost t + (if p is Suspended t' _ then transfer_cost t' else 0).
Proof.
  intros Htask [W1 W2 W3 W4 W5 W6 W7 W8] Hi Ht. unfold browser_cost at 2. rewrite Htask. set (m := b_manager b) in *. cbv zeta.
  destruct (held_of_insert ws i _ Hi) as (rest & Hr & Hins). simpl in Hr.
  pose proof (uploading_perm _ _ _ _ Hr W1) as Hup0.
  destruct (uploading_touches old _ m m1 k wasFailed Ht ltac:(left) Hup0) as (Hup1 & Hst1 & Hn1 & Hc1).
  assert (done_flags m1 = done_flags m) as Hd1 by (by apply status_flags).
  assert (ahead m1 = ahead m) as Ha1 by (unfold ahead; by rewrite Hn1, Hd1).
  assert (∀ w, sumZ worker_cost (<[i := w]> ws) = sumZ worker_cost ws - transfer_cost t + worker_cost w) as Hsum
    by (intros w; rewrite (sumZ_insert worker_cost ws i _ w Hi); simpl; lia).
  assert (∀ r, browser_cost (let '(m, ks, sent, w) := worker_next pf now (ended_with k now wasFailed r m1) in
    await_workers times at_ (started ++ ks) (<[i := w]> ws) now (out (Uploads <$> sent) (b <| b_manager := m |>)))
    <= sumZ worker_cost ws + FILE_COST * lengthZ (ahead m) + 2 - transfer_cost t + 0) as Hdone.
  { intros r. destruct (uploading_end old rest m1 k now wasFailed r Hup1) as (Hup2 & Hn2 & Hd2 & Hc2).
    set (m2 := ended_with k now wasFailed r m1) in *. clearbody m2.
    assert (ahead m2 = ahead m1) as Ha2.
    { unfold ahead. rewrite Hn2. f_equal. apply drop_flags_same. intros j Hj. unfold done_flags. rewrite Hd2. apply list_lookup_insert_ne.
      pose proof (up_ahead _ _ _ Hup1 k ltac:(left)). lia. }
    destruct (worker_next pf now m2) as [[[m3 ks] sent] w] eqn:Hw.
    pose proof (worker_turns_transfer pf _ now old rest _ _ _ _ _ Hup2 Hw) as (_ & T2 & T3).
    apply (worker_next_spec pf now old rest) in Hw as (_ & N2 & _); [|done].
    etrans; [apply await_workers_cost|].
    - intros w' Hw'. apply list_elem_of_lookup in Hw' as [j Hj]. destruct (decide (i = j)) as [<-|Hij].
      + rewrite list_lookup_insert_eq in Hj by (by eapply lookup_lt_Some). injection Hj as <-.
        destruct w as [k' b' t'|]; [|done]. destruct T2 as (size & _ & Hok). simpl. pose proof (transfer_cost_bounds size t' Hok). lia.
      + rewrite list_lookup_insert_ne in Hj by done. apply (workers_cost_ok m ws W3 w'). by eapply list_elem_of_lookup_2.
    - rewrite Hsum. cbn -[FILE_COST]. rewrite <-Ha1, <-Ha2, N2. unfold lengthZ in *. rewrite length_app. lia. }
  unfold worker_progressed. destruct p as [t' sent|result|status]; [|exact (Hdone (Some result))|exact (Hdone None)].
  unfold browser_cost. cbn -[FILE_COST]. rewrite Hsum, Ha1. simpl. lia.
Qed.

(** ** Every event *)

Lemma preflight_returned_cost old times now result b :
  match result with
  | Some (m, n, s) => prepared old m ∧ s <= globalCompletedBytes m ∧ sizes m = sizes (b_manager b)
  | None => prepared old (b_manager b)
  end → browser_cost (preflight_returned pf times now result b) <= FILE_COST * lengthZ (fileQueue (b_manager b)) + 2.
Proof.
  intros Hr. unfold preflight_returned. destruct result as [[[m n] s]|]; [|by apply (begin_uploads_cost old)].
  destruct Hr as (Hm & Hs & Hsz). etrans; [apply (begin_uploads_cost old)|].
  - apply (prepared_queue old m); try done. unfold byte_counters. simpl. by rewrite Z.max_l.
  - cbn -[FILE_COST]. apply (f_equal length) in Hsz. unfold sizes in Hsz. rewrite !length_fmap in Hsz. unfold lengthZ. by rewrite Hsz.
Qed.

Lemma hashes_progressed_cost old times now h b :
  prepared old (b_manager b) →
  browser_cost (hashes_progressed pf times now h b) <= FILE_COST * lengthZ (fileQueue (b_manager b)) + hash_cost h + 3.
Proof.
  intros Hm. pose proof (hash_cost_nonneg h). unfold hashes_progressed. destruct (hashing_done h); [|done]. simpl.
  destruct (hp_verified h) as [|v vs]; [|unfold browser_cost; cbn -[FILE_COST]; lia].
  etrans; [apply (preflight_returned_cost old); split; [done|]; split; [by apply (completed_nonneg old), Hm|done]|]. lia.
Qed.

Lemma begin_run_cost now b :
  browser_cost (begin_run now b) <= FILE_COST * lengthZ (fileQueue (b_manager b)) + lengthZ (fileQueue (b_manager b)) + 4.
Proof.
  assert (0 < FILE_COST) by done. assert (0 <= lengthZ (fileQueue (b_manager b))) by (unfold lengthZ; lia).
  unfold begin_run. cbv zeta. destruct (forallb _ _); unfold browser_cost; cbn -[FILE_COST]; [nia|].
  unfold lengthZ at 1 2. rewrite length_fmap. done.
Qed.

Lemma preflight_candidates_length answer (l : list queued) ks : preflight_candidates answer l = Some ks → lengthZ ks <= lengthZ l.
Proof.
  unfold preflight_candidates. destruct (response_map _ _) as [r|]; [|done]. simpl. intros [= <-].
  unfold lengthZ. apply Nat2Z.inj_le. transitivity (length (seq 0 (length l))); [|by rewrite length_seq].
  apply submseteq_length, NoDup_submseteq; [apply sorted_nodup, indices_where_sorted|].
  intros k (f & Hf & _)%elem_of_indices_where. apply elem_of_seq. apply lookup_lt_Some in Hf. lia.
Qed.

(** The other events of a run: the page takes them, and nothing comes of them for the run. *)
Lemma exec_waits now e b b' :
  browser_ok b → b_task b ≠ AtRest → answers e = false → exec pf now e b = Some b' → browser_cost b' <= browser_cost b.
Proof.
  intros Hb Hrest He Hx. pose proof (browser_ok_busy b Hb Hrest) as Hp. destruct e as [files| | |answer|answer|i sha|answer|i e|i| | |]; try done.
  - injection Hx as <-. rewrite on_manager_id; [done|]. by apply busy_addFiles.
  - injection Hx as <-. rewrite on_manager_id; [done|]. by apply busy_resetFiles.
  - injection Hx as <-. unfold uploadFiles. by rewrite Hp.
  - revert Hx. cbn [exec]. unfold browser_ok in Hb. destruct (b_task b) as [| | | | |times at_ started ws| |] eqn:Ht; try done.
    destruct Hb as (_ & old & Hw). destruct (ws !! i) as [[k wf t|]|] eqn:Hi; [|done..].
    destruct (worker_size _ _ _ _ _ _ _ _ Hw Hi) as (size & Hs & Hok).
    destruct (file_at k (b_manager b)) as [f|] eqn:Hf; [|done]. rewrite (file_sizes k _ f Hf) in Hs. injection Hs as <-.
    destruct t as [since|c since|c]; [..|done]; intros Hx; apply (inj Some) in Hx; subst b'.
    + pose proof (whole_event_touches k now since e (b_manager b)) as Htch. pose proof (whole_event_closer k now since e (b_manager b)) as Hc.
      destruct (whole_event _ _ _ _ _) as [m1 p].
      etrans; [apply (worker_progressed_cost old _ _ _ _ _ _ _ (InWhole since)); done|].
      simpl in Hc. destruct p as [t' sent|r|st]; [destruct Hc as (-> & _)|..]; simpl; lia.
    + pose proof (chunk_event_touches k now (q_size f) since e c (b_manager b)) as Htch.
      pose proof (chunk_event_closer k now (q_size f) since e c (b_manager b) Hok) as Hc.
      destruct (chunk_event _ _ _ _ _ _ _) as [m1 p].
      etrans; [apply (worker_progressed_cost old _ _ _ _ _ _ _ (InChunk c since)); done|].
      pose proof (transfer_cost_bounds _ _ Hok). simpl in He. rewrite He in Hc. cbn [snd closer] in Hc.
      destruct p as [t' sent|r|st]; [destruct Hc as [_ Hc]|..]; lia.
  - revert Hx. cbn [exec]. destruct (ticking (b_task b)); [|done]. intros [= <-].
    destruct (speed_tick_spec now b) as (Eq & _). unfold browser_cost. rewrite speed_tick_ahead, Eq.
    assert (b_task (speed_tick now b) = b_task b) as -> by (unfold speed_tick; by destruct (reportSpeedSample _ _ _ _)). done.
Qed.

Lemma exec_answers now e b b' :
  browser_ok b → b_task b ≠ AtRest → answers e = true → exec pf now e b = Some b' → browser_cost b' < browser_cost b.
Proof.
  intros Hb Hrest He Hx. assert (0 < FILE_COST) as Hpos by done.
  assert (0 <= lengthZ (fileQueue (b_manager b))) as Hn by (unfold lengthZ; lia).
  destruct e as [files| | |answer|answer|i sha|answer|i e|i| | |]; try done.
  - revert Hx. cbn [exec]. destruct (b_configReady b) eqn:Hcr; [done|]. intros [= <-]. unfold browser_ok in Hb.
    destruct (b_task b) eqn:Ht; try (destruct Hb as [? _]; congruence).
    unfold browser_cost at 2. rewrite Ht. pose proof (begin_run_cost now (on_manager (config_answered answer) (b <| b_configReady := true |>))) as Hc.
    change (b_manager (on_manager (config_answered answer) (b <| b_configReady := true |>))) with (config_answered answer (b_manager b)) in Hc.
    assert (fileQueue (config_answered answer (b_manager b)) = fileQueue (b_manager b)) as Eq
      by (unfold config_answered; destruct answer; [by destruct (fallback_config _)|done]).
    rewrite Eq in Hc. cbv zeta. lia.
  - revert Hx. cbn [exec]. unfold browser_ok in Hb. destruct (b_task b) eqn:Ht; try done. destruct Hb as (Hcr & old & Hm). intros [= <-].
    unfold browser_cost at 2. rewrite Ht. cbv zeta. unfold precheck_answered.
    destruct (answer ≫= _) as [ks|] eqn:Hks; [|pose proof (preflight_returned_cost old times now None b Hm); lia].
    pose proof (hashes_progressed_cost old times now (start_hashing (hashWorkers pf) ks) b Hm). destruct answer as [initial|]; [|done]. simpl in Hks. apply preflight_candidates_length in Hks.
    pose proof (start_hashing_cost (hashWorkers pf) ks). lia.
  - revert Hx. cbn [exec]. unfold browser_ok in Hb. destruct (b_task b) as [| | |times h| | | |] eqn:Ht; try (by destruct sha).
    destruct Hb as (Hcr & (old & Hm) & Hh & _). unfold browser_cost at 2. rewrite Ht. cbv zeta. pose proof (hash_cost_nonneg h). destruct sha as [sha|].
    + destruct (hash_ended i sha h) as [h'|] eqn:Hend; [|done]. intros [= <-]. apply hash_ended_cost in Hend.
      pose proof (hashes_progressed_cost old times now h' b Hm). lia.
    + destruct (hp_runners h !! i) as [[k|]|]; [|done..]. intros [= <-].
      pose proof (preflight_returned_cost old times now None b Hm). lia.
  - revert Hx. cbn [exec]. unfold browser_ok in Hb. destruct (b_task b) as [| | | |times h| | |] eqn:Ht; try done.
    destruct Hb as (Hcr & (old & Hm) & [Hnd Hh]). unfold browser_cost at 2. rewrite Ht. cbv zeta. intros [= <-].
    match goal with |- browser_cost (preflight_returned _ _ _ ?r _) < _ => enough (browser_cost (preflight_returned pf times now r b) <= FILE_COST * lengthZ (fileQueue (b_manager b)) + 2) by lia end.
    apply (preflight_returned_cost old). destruct answer as [verified|]; [|done]. simpl. unfold preflight_verified.
    destruct (response_map _ _) as [r|]; [|done]. simpl.
    destruct (foldl (verify_candidate r) (b_manager b, 0, 0) (hp_candidates h)) as [[m n] s] eqn:Hfold.
    apply (verify_candidates_spec old) in Hfold as (H1 & H2 & H3 & _); try done. apply (completed_nonneg old), Hm.
  - revert Hx. cbn [exec]. unfold browser_ok in Hb. destruct (b_task b) as [| | | | |times at_ started ws| |] eqn:Ht; try done.
    destruct Hb as (_ & old & Hw). destruct (ws !! i) as [[k wf t|]|] eqn:Hi; [|done..].
    destruct (worker_size _ _ _ _ _ _ _ _ Hw Hi) as (size & Hs & Hok).
    destruct (file_at k (b_manager b)) as [f|] eqn:Hf; [|done]. rewrite (file_sizes k _ f Hf) in Hs. injection Hs as <-.
    pose proof (transfer_cost_bounds _ _ Hok) as Hbnd.
    destruct t as [since|c since|c]; [..|done]; intros Hx; apply (inj Some) in Hx; subst b'.
    + pose proof (whole_event_touches k now since e (b_manager b)) as Htch. pose proof (whole_event_closer k now since e (b_manager b)) as Hc.
      destruct (whole_event _ _ _ _ _) as [m1 p].
      pose proof (worker_progressed_cost old times at_ started ws i k wf (InWhole since) now m1 p b Ht Hw Hi Htch) as Hcost.
      simpl in Hc, He. destruct p as [t' sent|r|st]; [destruct Hc as (_ & ? & _); congruence|cbn [transfer_cost] in Hcost; lia..].
    + pose proof (chunk_event_touches k now (q_size f) since e c (b_manager b)) as Htch.
      pose proof (chunk_event_closer k now (q_size f) since e c (b_manager b) Hok) as Hc.
      destruct (chunk_event _ _ _ _ _ _ _) as [m1 p].
      pose proof (worker_progressed_cost old times at_ started ws i k wf (InChunk c since) now m1 p b Ht Hw Hi Htch) as Hcost.
      simpl in He. rewrite He in Hc. cbn [snd closer] in Hc. destruct p as [t' sent|r|st]; [destruct Hc as [_ Hc]|..]; lia.
  - revert Hx. cbn [exec]. unfold browser_ok in Hb. destruct (b_task b) as [| | | | |times at_ started ws| |] eqn:Ht; try done.
    destruct Hb as (_ & old & Hw). destruct (ws !! i) as [[k wf t|]|] eqn:Hi; [|done..].
    destruct t as [since|c since|c]; [done..|]. destruct (file_at k (b_manager b)) as [f|] eqn:Hf; [|done].
    intros Hx. apply (inj Some) in Hx. subst b'. unfold retry_chunk.
    pose proof (worker_progressed_cost old times at_ started ws i k wf (InPause c) now (b_manager b) (Suspended (InChunk c now) [chunk_request k c (q_size f)]) b Ht Hw Hi ltac:(reflexivity)) as Hcost.
    cbn [transfer_cost] in Hcost. lia.
  - revert Hx. cbn [exec]. destruct (b_task b) eqn:Ht; try done. intros [= <-]. unfold browser_cost. by rewrite Ht.
  - revert Hx. cbn [exec]. destruct (b_task b) eqn:Ht; try done. intros [= <-]. unfold browser_cost at 2. rewrite Ht.
    unfold history_answered. by destruct (reportSpeedSample _ _ _ _).
Qed.

Lemma browser_cost_nonneg b : browser_ok b → 0 <= browser_cost b.
Proof.
  intros Hb. assert (0 < FILE_COST) as Hpos by done. assert (0 <= lengthZ (fileQueue (b_manager b))) as Hn by (unfold lengthZ; lia).
  unfold browser_cost. cbv zeta. destruct (b_task b) as [| | |times h| |times at_ started ws| |] eqn:Ht; try nia.
  - pose proof (hash_cost_nonneg h). nia.
  - unfold browser_ok in Hb. rewrite Ht in Hb. destruct Hb as (_ & old & Hw). pose proof (busy_cost _ ws (wk_ok _ _ _ _ Hw) (wk_busy _ _ _ _ Hw)).
    assert (0 <= lengthZ (ahead (b_manager b))) by (unfold lengthZ; lia). nia.
Qed.

(** While a run is in progress, something it waits for can come. *)
Lemma answer_awaited now b :
  browser_ok b → b_task b ≠ AtRest → ∃ e b', event_ok e ∧ answers e = true ∧ exec pf now e b = Some b'.
Proof.
  intros Hb Hrest. unfold browser_ok in Hb. destruct (b_task b) as [| |times|times h|times h|times at_ started ws|times|times] eqn:Ht; [done|..].
  - destruct Hb as (_ & _ & Hcr). exists (ConfigAnswer None). eexists. cbn [exec]. by rewrite Hcr.
  - exists (PrecheckAnswer None). eexists. cbn [exec]. by rewrite Ht.
  - destruct Hb as (_ & _ & _ & Hd). assert (∃ i k, hp_runners h !! i = Some (Some k)) as (i & k & Hi).
    { unfold hashing_done in Hd. induction (hp_runners h) as [|[k|] rs IH]; simpl in Hd; [done|by exists 0%nat, k|].
      destruct (IH Hd) as (i & k & Hi). by exists (S i), k. }
    exists (HashEnds i None). eexists. cbn [exec]. by rewrite Ht, Hi.
  - exists (VerifyAnswer None). eexists. cbn [exec]. by rewrite Ht.
  - destruct Hb as (_ & old & Hw). assert (∃ i k wf t, ws !! i = Some (WorkerUploads k wf t)) as (i & k & wf & t & Hi).
    { pose proof (wk_busy _ _ _ _ Hw) as Hbusy. unfold all_ended in Hbusy. clear Hw Ht Hrest.
      induction ws as [|[k wf t|] ws IH]; simpl in Hbusy; [done|by exists 0%nat, k, wf, t|].
      destruct (IH Hbusy) as (i & k & wf & t & Hi). by exists (S i), k, wf, t. }
    destruct (worker_size _ _ _ _ _ _ _ _ Hw Hi) as (size & Hs & _). unfold sizes in Hs. rewrite list_lookup_fmap in Hs.
    destruct (fileQueue (b_manager b) !! k) as [f|] eqn:Hf; [|done]. change (file_at k (b_manager b) = Some f) in Hf.
    set (timing := {| st_app := 0%Qc; st_write := 0%Qc; st_finalize := 0%Qc |}).
    destruct t as [since|c since|c]; [exists (XhrEvent i (XFail timing))|exists (XhrEvent i (XFail timing))|exists (PauseEnds i)];
      eexists; cbn [exec]; by rewrite Ht, Hi, Hf.
  - exists CleanupEnds. eexists. cbn [exec]. by rewrite Ht.
  - exists HistoryAnswer. eexists. cbn [exec]. by rewrite Ht.
Qed.

End page.
