(* ===== verification/BrowserProperties.v ===== *)
(** * What the browser's upload manager promises

    The theorems about a run on the page: who uploads which file, what the counters say, what
    the progress is a sum of, and that a run ends. All are about the states the event loop
    reaches from the page as it is loaded. *)

From Stdlib Require Import QArith Qcanon Sorting.Sorted.
From S2P Require Import Prelude Js Browser BrowserUpload BrowserPreflight BrowserRun BrowserBooks BrowserBytes BrowserTurns BrowserTransfers BrowserInvariant BrowserEnd.
Open Scope Z_scope.

(** ** The workers share the queue *)

(** The workers that upload a file. *)
Definition busy_workers (ws : list browser_worker) : Z := lengthZ (held_of ws).

Lemma finished_reachable pf mobile b :
  browser_reachable pf mobile b → (∃ times, b_task b = AwaitCleanup times ∨ b_task b = AwaitHistory times) →
  ∃ old, finished_run old (b_manager b).
Proof.
  intros Hr%reachable_ok (times & Ht). unfold browser_ok in Hr. destruct Ht as [Ht|Ht]; rewrite Ht in Hr; by destruct Hr as (_ & old & ?); exists old.
Qed.

Lemma working_reachable pf mobile b times at_ started ws :
  browser_reachable pf mobile b → b_task b = AwaitWorkers times at_ started ws → ∃ old, working old started ws (b_manager b).
Proof. intros Hr%reachable_ok Ht. unfold browser_ok in Hr. rewrite Ht in Hr. by destruct Hr as (_ & old & ?); exists old. Qed.

(** C2: during a run the manager has as many workers as the configuration says, at most six,
    and its count of running uploads is theirs. The files were handed out in the order of
    the queue and none twice; each is done or with exactly one worker. A file that is not
    done is with a worker, or it is behind the index no worker has passed and all workers
    are busy. When the workers are through, every file is done. *)
Theorem browser_uploads_each_file_once pf mobile b :
  browser_reachable pf mobile b →
  let m := b_manager b in
  (∀ times at_ started ws, b_task b = AwaitWorkers times at_ started ws →
     lengthZ ws = CONCURRENCY m ∧ 1 <= CONCURRENCY m <= 6 ∧ running m = busy_workers ws ∧ 1 <= busy_workers ws
     ∧ StronglySorted lt started ∧ NoDup (held_of ws).*1
     ∧ (∀ k, k ∈ (held_of ws).*1 → k ∈ started ∧ ∃ f, file_at k m = Some f ∧ q_running f = true ∧ q_done f = false)
     ∧ (∀ k, k ∈ started → ∃ f, file_at k m = Some f ∧ (q_done f = true ∨ k ∈ (held_of ws).*1))
     ∧ (∀ k f, file_at k m = Some f → q_done f = false →
          k ∈ (held_of ws).*1 ∨ (k ∉ started ∧ (nextUploadIndex m <= k)%nat ∧ WorkerEnded ∉ ws)))
  ∧ (∀ times, b_task b = AwaitCleanup times ∨ b_task b = AwaitHistory times →
       running m = 0 ∧ ∀ k f, file_at k m = Some f → q_done f = true).
Proof.
  intros Hr m. split.
  - intros times at_ started ws Ht. destruct (working_reachable _ _ _ _ _ _ _ Hr Ht) as (old & Hw). fold m in Hw.
    pose proof Hw as [Hup W2 W3 W4 W5 W6 W7 W8]. pose proof (up_roster _ _ _ Hup) as Hro. pose proof (up_config _ _ _ Hup) as [Hc _].
    pose proof (sorted_nodup _ W4) as Hnd.
    assert (1 <= busy_workers ws) as Hbusy.
    { unfold busy_workers, lengthZ. destruct (held_of ws) eqn:Hh; [|simpl; lia]. exfalso. clear - W8 Hh. induction ws as [|[k b t|] ws IH]; [done|done|].
      simpl in W8. by apply IH. }
    split_and!; try done; try lia.
    + apply Hro.
    + clear - W4. induction started as [|x l IH]; [constructor|]. apply StronglySorted_inv in W4 as [W4 Hx]. constructor; [by apply IH|].
      by apply Forall_app in Hx as [? _].
    + apply Hro.
    + intros k Hk. split; [by apply W6|]. apply list_elem_of_fmap in Hk as ([k' b'] & -> & Hk).
      destruct (ro_held _ _ Hro k' b' Hk) as (f & ? & ? & ? & _). by exists f.
    + intros k f Hf Hd. destruct (decide (k < nextUploadIndex m)%nat) as [Hlt|Hge].
      * left. destruct (up_behind _ _ _ Hup k f Hf Hlt) as [?|?]; [congruence|done].
      * right. assert (k ∈ ahead m) as Ha by (apply elem_of_ahead; split; [lia|by exists f]). split_and!; [|lia|].
        -- intros Hin. apply NoDup_app in Hnd as (_ & Hno & _). by apply (Hno k).
        -- intros He. rewrite (W7 He) in Ha. by apply elem_of_nil in Ha.
  - intros times Ht. destruct (finished_reachable _ _ _ Hr ltac:(by exists times)) as (old & Hup & Hd). split; [|done].
    exact (ro_count _ _ (up_roster _ _ _ Hup)).
Qed.

(** ** The counters *)

(** Either no worker runs and nobody holds a file, or the workers run. *)
Lemma browser_ok_cases b :
  browser_ok b →
  (roster [] (b_manager b) ∧ totalBytes (b_manager b) = sumZ q_size (fileQueue (b_manager b))
     ∧ ∀ times at_ started ws, b_task b ≠ AwaitWorkers times at_ started ws)
  ∨ ∃ times at_ started ws old, b_task b = AwaitWorkers times at_ started ws ∧ working old started ws (b_manager b).
Proof.
  intros Hb. unfold browser_ok in Hb. destruct (b_task b) as [| |times|times h|times h|times at_ started ws|times|times] eqn:Ht.
  - destruct Hb as [[? ? ? ? ? ?] _]. by left.
  - destruct Hb as [[? ? ? ? ? ?] _]. by left.
  - destruct Hb as (_ & old & [? [? ? ? ? ? ? ?] ? ? ?]). by left.
  - destruct Hb as (_ & (old & [? [? ? ? ? ? ? ?] ? ? ?]) & _). by left.
  - destruct Hb as (_ & (old & [? [? ? ? ? ? ? ?] ? ? ?]) & _). by left.
  - destruct Hb as (_ & old & Hw). right. by exists times, at_, started, ws, old.
  - destruct Hb as (_ & old & [[? [? ? ? ? ? ? ?] ? ? ? ? ? ?] ?]). by left.
  - destruct Hb as (_ & old & [[? [? ? ? ? ? ? ?] ? ? ? ? ? ?] ?]). by left.
Qed.

Lemma browser_ok_books b :
  browser_ok b →
  speed_book (b_manager b)
  ∧ (∀ k f, file_at k (b_manager b) = Some f → 0 <= uploadedBytes f <= completedBytes f ∧ completedBytes f <= q_size f)
  ∧ (b_task b ≠ AtRest → b_task b ≠ AwaitConfig → ∃ old, byte_book old (b_manager b)).
Proof.
  intros Hb. unfold browser_ok in Hb. destruct (b_task b) as [| |times|times h|times h|times at_ started ws|times|times] eqn:Ht.
  - destruct Hb as [[? ? ? ? ? ?] _]. by split_and!.
  - destruct Hb as [[? ? ? ? ? ?] _]. by split_and!.
  - destruct Hb as (_ & old & [? Hbk ? ? ?]). split_and!; [done|apply Hbk|by exists old].
  - destruct Hb as (_ & (old & [? Hbk ? ? ?]) & _). split_and!; [done|apply Hbk|by exists old].
  - destruct Hb as (_ & (old & [? Hbk ? ? ?]) & _). split_and!; [done|apply Hbk|by exists old].
  - destruct Hb as (_ & old & [[? Hbk ? ? ? ? ? ?] ? ? ? ? ? ? ?]). split_and!; [done|apply Hbk|by exists old].
  - destruct Hb as (_ & old & [[? Hbk ? ? ? ? ? ?] ?]). split_and!; [done|apply Hbk|by exists old].
  - destruct Hb as (_ & old & [[? Hbk ? ? ? ? ? ?] ?]). split_and!; [done|apply Hbk|by exists old].
Qed.

(** C13: what the manager counts is what its files say. With no upload running the errors are
    the failed files; while workers run, a file that failed before still counts as an error
    until its retry ends. The files not done are counted, and the total is the size of all
    files. Between two runs, and only then, the page says that none is in progress. *)
Theorem browser_counts_match_files pf mobile b :
  browser_reachable pf mobile b →
  let m := b_manager b in
  totalBytes m = sumZ q_size (fileQueue m)
  ∧ (∀ times at_ started ws, b_task b = AwaitWorkers times at_ started ws →
       pendingCount m = countb not_done (fileQueue m)
       ∧ errorCount m = countb q_failed (fileQueue m) + sumZ (λ kb : nat * bool, number_of_bool kb.2) (held_of ws))
  ∧ ((∀ times at_ started ws, b_task b ≠ AwaitWorkers times at_ started ws) →
       running m = 0 ∧ errorCount m = countb q_failed (fileQueue m) ∧ (∀ k f, file_at k m = Some f → q_running f = false))
  ∧ (isUploadInProgress m = true ↔ b_task b ≠ AtRest).
Proof.
  intros Hr%reachable_ok m. pose proof (browser_ok_busy b Hr) as Hbusy. fold m in Hbusy.
  assert (b_task b = AtRest → isUploadInProgress m = false) as Hrest by (intros Ht; unfold browser_ok in Hr; rewrite Ht in Hr; apply Hr).
  assert (isUploadInProgress m = true ↔ b_task b ≠ AtRest) as Hp by (split; [intros Hp Ht; specialize (Hrest Ht); congruence|done]).
  destruct (browser_ok_cases b Hr) as [(H1 & H2 & Hno)|(times & at_ & started & ws & old & Ht & Hw)].
  - split_and!; [done|intros times at_ started ws Ht; by destruct (Hno times at_ started ws)| |done].
    intros _. split_and!; [exact (ro_count _ _ H1)|pose proof (ro_errors _ _ H1) as He; rewrite sumZ_nil in He; fold m in He; lia|].
    intros k f Hf. destruct (q_running f) eqn:Hrun; [|done]. pose proof (ro_running _ _ H1 k f Hf Hrun) as Hin. by apply elem_of_nil in Hin.
  - pose proof (wk_uploading _ _ _ _ Hw) as Hup. split_and!; [apply Hup| |intros Hno; by destruct (Hno times at_ started ws)|done].
    intros times' at_' started' ws' Ht'. rewrite Ht in Ht'. injection Ht' as <- <- <- <-. split; [apply Hup|].
    apply (ro_errors _ _ (up_roster _ _ _ Hup)).
Qed.

(** ** The progress *)

(** The sums of a run's progress: over the files that were not done when it began. *)
Definition run_sum (old : nat → bool) (g : queued → Z) (m : browser_manager) : Z := sum_at (of_run old g) (fileQueue m).

Lemma run_sum_le old (g h : queued → Z) m :
  (∀ k f, file_at k m = Some f → 0 <= h f ∧ g f <= h f) → run_sum old g m <= sumZ h (fileQueue m).
Proof.
  intros H. unfold run_sum, sum_at. assert (∀ k f, (k, f) ∈ zip (seq 0 (length (fileQueue m))) (fileQueue m) → 0 <= h f ∧ g f <= h f) as Hin.
  { intros k f [i Hi]%list_elem_of_lookup. apply lookup_zip_with_Some in Hi as (k' & f' & [= -> ->] & _ & Hf). by apply (H i f'). }
  assert (sumZ h (fileQueue m) = sumZ (λ kf : nat * queued, h kf.2) (zip (seq 0 (length (fileQueue m))) (fileQueue m))) as ->.
  { rewrite <-(sumZ_fmap h snd). f_equal. symmetry. apply snd_zip. by rewrite length_seq. }
  induction (zip _ _) as [|[k f] l IH]; [done|]. rewrite !sumZ_cons. simpl. destruct (Hin k f) as [H1 H2]; [left|].
  assert (of_run old g k f <= h f) by (unfold of_run; destruct (old k); lia).
  assert (sumZ (λ kq, of_run old g kq.1 kq.2) l <= sumZ (λ kf, h kf.2) l); [|lia]. apply IH. intros k' f' Hf'. apply (Hin k' f'). by right.
Qed.

Lemma run_sum_mono old (g h : queued → Z) m :
  (∀ k f, file_at k m = Some f → g f <= h f) → run_sum old g m <= run_sum old h m.
Proof.
  intros H. unfold run_sum, sum_at. assert (∀ k f, (k, f) ∈ zip (seq 0 (length (fileQueue m))) (fileQueue m) → g f <= h f) as Hin.
  { intros k f [i Hi]%list_elem_of_lookup. apply lookup_zip_with_Some in Hi as (k' & f' & [= -> ->] & _ & Hf). by apply (H i f'). }
  induction (zip _ _) as [|[k f] l IH]; [done|]. rewrite !sumZ_cons. simpl. specialize (Hin k f ltac:(left)) as H1.
  assert (of_run old g k f <= of_run old h k f) by (unfold of_run; destruct (old k); lia).
  assert (sumZ (λ kq, of_run old g kq.1 kq.2) l <= sumZ (λ kq, of_run old h kq.1 kq.2) l); [|lia]. apply IH. intros k' f' Hf'. apply (Hin k' f'). by right.
Qed.

(** C11: what the page shows of a run. Its bytes are the sums over the files that were not
    done when it began (the others are done), uploaded at most completed at most the size, and
    the bytes of the network are those uploaded. The speed is the sum of the speeds its files
    have now; no delta drifts, and no late speed of an older epoch counts. *)
Theorem browser_progress_is_the_sum pf mobile b :
  browser_reachable pf mobile b →
  let m := b_manager b in
  activeSpeedSum m = sumQc (current_speed (speedEpoch m)) (fileQueue m)
  ∧ (∀ k f, file_at k m = Some f → 0 <= uploadedBytes f <= completedBytes f ∧ completedBytes f <= q_size f)
  ∧ (b_task b ≠ AtRest → b_task b ≠ AwaitConfig →
     ∃ old, (∀ k f, file_at k m = Some f → old k = true → q_done f = true)
       ∧ globalUploadedBytes m = run_sum old uploadedBytes m ∧ globalCompletedBytes m = run_sum old completedBytes m
       ∧ networkBytesUploaded m = globalUploadedBytes m
       ∧ globalUploadedBytes m <= globalCompletedBytes m <= totalBytes m).
Proof.
  intros Hr%reachable_ok m. destruct (browser_ok_books b Hr) as (Hs & Hf & Hrun). fold m in Hs, Hf, Hrun.
  split_and!; [apply Hs|done|]. intros H1 H2. destruct (Hrun H1 H2) as (old & Hb). exists old. pose proof Hb as [B1 B2 B3 B4 B5 B6 B7].
  split_and!; [done..| |].
  - rewrite B5, B6. apply run_sum_mono. intros k f Hk. specialize (Hf k f Hk). lia.
  - rewrite B6, B1. apply run_sum_le. intros k f Hk. specialize (Hf k f Hk). lia.
Qed.

(** ** A run ends *)

Section ends.
Context (pf : platform).

(** Events from [b] to [b'], none of them at rest before the last; [n] of them answers. *)
Inductive waiting : nat → browser → browser → Prop :=
  | waiting_here b : waiting 0 b b
  | waiting_for n now e b b1 b2 :
      b_task b ≠ AtRest → event_ok e → exec pf now e b = Some b1 → waiting n b1 b2 →
      waiting (if answers e then S n else n) b b2.

(** C12: a run of the page ends. From any state of it, whatever the order of events, it takes
    at most [browser_cost] answers until [uploadFiles] returns; when the run begins, these
    are 60,002 for every file of the queue, and five. And as long as it has not returned, an
    answer it waits for can come. *)
Theorem browser_run_ends mobile b n b' :
  browser_reachable pf mobile b → waiting n b b' →
  Z.of_nat n <= browser_cost b
  ∧ (b_task b = AwaitConfig ∨ (∃ times, b_task b = AwaitPrecheck times) → Z.of_nat n <= 60002 * lengthZ (fileQueue (b_manager b)) + 5)
  ∧ (b_task b' ≠ AtRest → ∀ now, ∃ e b2, answers e = true ∧ exec pf now e b' = Some b2).
Proof.
  intros Hr%reachable_ok Hw.
  assert (Z.of_nat n + browser_cost b' <= browser_cost b ∧ browser_ok b') as [H1 H2].
  { revert Hr. induction Hw as [b|n now e b b1 b2 Hrest He Hx Hw IH]; intros Hb; [split; [lia|done]|].
    destruct (IH (browser_exec_ok pf now e b b1 He Hb Hx)) as [H1 H2]. split; [|done]. destruct (answers e) eqn:Ha.
    - pose proof (exec_answers pf now e b b1 Hb Hrest Ha Hx). lia.
    - pose proof (exec_waits pf now e b b1 Hb Hrest Ha Hx). lia. }
  pose proof (browser_cost_nonneg b' H2) as Hn. split_and!; [lia| |].
  - intros Hs. transitivity (browser_cost b); [lia|]. assert (FILE_COST = 60001) as HF by done.
    unfold browser_cost. cbv zeta. destruct Hs as [->|[times ->]]; rewrite HF; lia.
  - intros Hrest now. destruct (answer_awaited pf now b' H2 Hrest) as (e & b2 & _ & ? & ?). by exists e, b2.
Qed.

End ends.

(** ** The history of a run *)

Lemma selected_count P m : lengthZ (selected P m) = countb P (fileQueue m).
Proof.
  unfold selected, lengthZ, countb. induction (fileQueue m) as [|q l IH]; [done|]. rewrite sumZ_cons, <-IH, filter_cons.
  destruct (P q); simpl; lia.
Qed.

Lemma selected_sum P m : sumZ q_size (selected P m) = sumZ (λ f, if P f then q_size f else 0) (fileQueue m).
Proof.
  unfold selected. induction (fileQueue m) as [|q l IH]; [done|]. rewrite sumZ_cons, filter_cons, <-IH.
  by destruct (P q); simpl; rewrite ?sumZ_cons.
Qed.

(** Every done file is uploaded, skipped, or failed; a failed one may be skipped too. *)
Lemma done_files_count (files : list queued) :
  (∀ f, f ∈ files → q_done f = true) →
  lengthZ files = countb is_uploaded files + countb is_skipped files + countb q_failed files - countb (λ f, q_failed f && is_skipped f) files.
Proof.
  intros Hdone. unfold lengthZ, countb. rewrite <-sumZ_const_one. induction files as [|q l IH]; [done|].
  rewrite !sumZ_cons. rewrite IH by (intros f Hf; apply Hdone; by right).
  unfold is_uploaded at 2. rewrite (Hdone q) by left. destruct (q_failed q), (is_skipped q); simpl; lia.
Qed.

Lemma done_files_bytes (files : list queued) :
  (∀ f, f ∈ files → q_done f = true) →
  sumZ q_size files = sumZ (λ f, if is_uploaded f then q_size f else 0) files + sumZ (λ f, if is_skipped f then q_size f else 0) files
    + sumZ (λ f, if q_failed f && negb (is_skipped f) then q_size f else 0) files.
Proof.
  intros Hdone. induction files as [|q l IH]; [done|]. rewrite !sumZ_cons. rewrite IH by (intros f Hf; apply Hdone; by right).
  unfold is_uploaded at 2. rewrite (Hdone q) by left. destruct (q_failed q), (is_skipped q); simpl; lia.
Qed.

(** C17: the history a page reports of its run, when all its files are done. A file is counted
    as uploaded, as skipped, or as failed without being skipped, and so are its bytes; the
    errors reported are the files reported as failed. So the three counts add up exactly if
    no failed file was skipped: one that failed in an earlier run and that the desktop has
    now is counted both as skipped and as failed. *)
Theorem browser_history_adds_up pf mobile b times now b' :
  browser_reachable pf mobile b → b_task b = AwaitCleanup times → exec pf now CleanupEnds b = Some b' →
  let files := fileQueue (b_manager b) in
  let both := countb (λ f, q_failed f && is_skipped f) files in
  ∃ h, b_out b' = b_out b ++ [History h]
    ∧ hi_selectedFiles h = hi_uploadedFiles h + hi_skippedFiles h + hi_failedFiles h - both
    ∧ hi_selectedBytes h = hi_uploadedBytes h + hi_skippedBytes h + sumZ (λ f, if q_failed f && negb (is_skipped f) then q_size f else 0) files
    ∧ hi_failedFiles h = countb (λ f, bool_decide (outcome_of f = outcome_failed)) files
    ∧ hi_outcomes h = (λ f, (q_id f, outcome_of f)) <$> files.
Proof.
  intros Hr Ht Hx files both. destruct (finished_reachable _ _ _ Hr ltac:(exists times; by left)) as (old & Hup & Hd).
  cbn [exec] in Hx. rewrite Ht in Hx. injection Hx as <-. eexists. split; [reflexivity|].
  cbn [hi_selectedFiles hi_uploadedFiles hi_skippedFiles hi_failedFiles hi_selectedBytes hi_uploadedBytes hi_skippedBytes hi_outcomes history_of].
  pose proof (ro_errors _ _ (up_roster _ _ _ Hup)) as He. rewrite sumZ_nil, Z.add_0_r in He.
  assert (∀ f, f ∈ files → q_done f = true) as Hdone by (intros f [k Hk]%list_elem_of_lookup; by apply (Hd k)).
  change (b_manager (b <| b_task := AwaitHistory times |>)) with (b_manager b). fold files in He |- *.
  rewrite !selected_count, !selected_sum, He. split_and!.
  - fold files. rewrite (done_files_count files Hdone). unfold both. lia.
  - rewrite (bb_total _ _ (up_bytes _ _ _ Hup)). by apply done_files_bytes.
  - unfold countb. apply sumZ_ext. intros f _. unfold outcome_of. by destruct (q_failed f), (preflightSkipped f), (q_skipped f).
  - done.
Qed.

(** ** The preflight *)

(** What the skips of candidates amount to: [g] summed over the files the desktop has. *)
Definition skipped_sum (r : list (jsval * jsval)) (g : queued → Z) (m : browser_manager) (ks : list nat) : Z :=
  sumZ (λ k, if file_at k m is Some f then if skips r f is Some _ then g f else 0 else 0) ks.

Lemma skipped_sum_frame r g m m1 ks : (∀ k, k ∈ ks → file_at k m1 = file_at k m) → skipped_sum r g m1 ks = skipped_sum r g m ks.
Proof. intros H. apply sumZ_ext. intros k Hk. by rewrite H. Qed.

Lemma verify_candidates_counts old r ks m n s m' n' s' :
  NoDup ks → (∀ k, k ∈ ks → ∃ f, file_at k m = Some f ∧ q_done f = false) → prepared old m →
  foldl (verify_candidate r) (m, n, s) ks = (m', n', s') →
  n' = n + skipped_sum r (λ _, 1) m ks ∧ s' = s + skipped_sum r q_size m ks
  ∧ globalCompletedBytes m' = globalCompletedBytes m + skipped_sum r q_size m ks.
Proof.
  revert m n s. induction ks as [|k ks IH]; intros m n s Hnd Hks Hm; [intros [= <- <- <-]; unfold skipped_sum; rewrite !sumZ_nil; lia|].
  apply NoDup_cons in Hnd as [Hk Hnd]. destruct (Hks k) as (f & Hf & Hd); [left|].
  assert (∀ g, skipped_sum r g m (k :: ks) = (if skips r f is Some _ then g f else 0) + skipped_sum r g m ks) as Hcons
    by (intros g; unfold skipped_sum; by rewrite sumZ_cons, Hf).
  rewrite !Hcons. simpl. rewrite Hf. unfold skips.
  assert (∀ n1 s1, foldl (verify_candidate r) (m, n1, s1) ks = (m', n', s') →
    n' = n1 + skipped_sum r (λ _, 1) m ks ∧ s' = s1 + skipped_sum r q_size m ks ∧ globalCompletedBytes m' = globalCompletedBytes m + skipped_sum r q_size m ks) as Hstay.
  { intros n1 s1. apply IH; [done| |done]. intros j Hj. apply Hks. by right. }
  destruct (map_get r (q_id f)) as [result|]; simpl; [|intros H%Hstay; lia].
  destruct (is_str (field result "action") "skip"); [|intros H%Hstay; lia]. intros Hfold.
  destruct (prepared_skip old k (field result "filename") m f Hm Hf Hd) as [Hm1 E].
  set (m1 := skip_file k (field result "filename") m) in *.
  assert (∀ j, j ≠ k → file_at j m1 = file_at j m) as Hframe.
  { intros j Hj. rewrite E. etrans; [exact (file_at_alter (skipped_as _) k j m)|]. by rewrite decide_False. }
  apply IH in Hfold as (-> & -> & ->); [|done| |done].
  - rewrite !(skipped_sum_frame r _ m m1) by (intros j Hj; apply Hframe; intros ->; done).
    assert (globalCompletedBytes m1 = globalCompletedBytes m + q_size f) as -> by (by rewrite E). lia.
  - intros j Hj. rewrite Hframe by (intros ->; done). apply Hks. by right.
Qed.

(** C15: the answer to the second request of the preflight, in any run of the page. A file is
    touched only if it was a candidate, which was not done, and the desktop answered "skip"
    to its id; it is then done, with all its bytes completed, none uploaded and the name the
    desktop gave. The files and bytes counted as skipped are these, and the progress grows
    by exactly their bytes. *)
Theorem browser_preflight_skips_duplicates pf mobile b times h verified m n s :
  browser_reachable pf mobile b → b_task b = AwaitVerify times h →
  preflight_verified verified (hp_candidates h) (b_manager b) = Some (m, n, s) →
  ∃ r, response_map (λ item, item) verified = Some r
    ∧ (∀ k f, file_at k (b_manager b) = Some f →
         file_at k m = Some (if decide (k ∈ hp_candidates h) then if skips r f is Some name then skipped_as name f else f else f))
    ∧ (∀ k, k ∈ hp_candidates h → ∃ f, file_at k (b_manager b) = Some f ∧ q_done f = false)
    ∧ n = skipped_sum r (λ _, 1) (b_manager b) (hp_candidates h)
    ∧ s = skipped_sum r q_size (b_manager b) (hp_candidates h)
    ∧ globalCompletedBytes m = globalCompletedBytes (b_manager b) + s.
Proof.
  intros Hr%reachable_ok Ht. unfold browser_ok in Hr. rewrite Ht in Hr. destruct Hr as (_ & (old & Hm) & [Hnd Hh]).
  unfold preflight_verified. destruct (response_map (λ item, item) verified) as [r|]; [|done]. simpl. intros [= Hfold].
  exists r. split; [done|]. pose proof (verify_candidates_counts old r _ _ _ _ _ _ _ Hnd Hh Hm Hfold) as (E1 & E2 & E3).
  apply (verify_candidates_spec old) in Hfold as (_ & _ & _ & _ & H5); [|done..|apply (completed_nonneg old), Hm].
  split_and!; [intros k f Hf; exact (H5 k f Hf)|done|lia..].
Qed.

(** ** A concrete page *)

Module BrowserDemo.
Definition pf : platform := {| iosLike := false; hashWorkers := 1; chunkFileId := λ _ _, "chunks" |}.
Definition two_files : list chosen_file :=
  [{| c_id := "a"; c_name := "a.jpg"; c_size := 10 |}; {| c_id := "b"; c_name := "b.jpg"; c_size := 20 |}].
Definition no_times : server_timing := {| st_app := 0%Qc; st_write := 0%Qc; st_finalize := 0%Qc |}.
Definition stored : xhr_event := XLoad {| x_status := 200; x_empty := true; x_json := None; x_timing := no_times |}.
Definition refused : xhr_event := XLoad {| x_status := 500; x_empty := true; x_json := None; x_timing := no_times |}.
Definition first_run : list (Z * browser_event) :=
  [(0, AddFiles two_files); (1, ConfigAnswer None); (10, ClickUpload); (20, PrecheckAnswer None)].
Definition with_progress : list (Z * browser_event) :=
  first_run ++ [(30, XhrEvent 1 (XProgress true 5 20)); (130, XhrEvent 1 (XProgress true 15 20))].
Definition one_failed : list (Z * browser_event) := first_run ++ [(30, XhrEvent 0 refused); (31, XhrEvent 1 stored)].
Definition answer_for (id action : string) : jsval :=
  JObj [("files", JArr [JObj [("id", JStr id); ("action", JStr action); ("filename", JStr "old.jpg")]])].
(** The failed file again: the desktop has it by now. *)
Definition second_run : list (Z * browser_event) :=
  one_failed ++ [(32, CleanupEnds); (33, HistoryAnswer); (40, ClickUpload);
    (50, PrecheckAnswer (Some (answer_for "a" "hash_required"))); (60, HashEnds 0 (Some "sha"))].
Definition skipped_run : list (Z * browser_event) := second_run ++ [(70, VerifyAnswer (Some (answer_for "a" "skip")))].

Definition page (events : list (Z * browser_event)) : browser :=
  default (browser_loaded false) (run_events pf events (browser_loaded false)).

Lemma run_events_reachable events b b' :
  browser_reachable pf false b → Forall (λ te, event_ok te.2) events → run_events pf events b = Some b' → browser_reachable pf false b'.
Proof.
  revert b. induction events as [|[now e] events IH]; intros b Hb Hf; simpl; [by intros [= <-]|].
  apply Forall_cons in Hf as [He Hf]. destruct (exec pf now e b) as [b1|] eqn:Hx; [|done]. simpl. apply IH; [|done].
  eapply rtc_r; [exact Hb|]. by exists now, e.
Qed.

Lemma page_reachable events : Forall (λ te, event_ok te.2) events → browser_reachable pf false (page events).
Proof.
  intros Hf. unfold page. destruct (run_events pf events (browser_loaded false)) as [b|] eqn:Hr; simpl; [|apply rtc_refl].
  apply (run_events_reachable events (browser_loaded false)); [apply rtc_refl|done..].
Qed.

Lemma demo_reachable events :
  events = with_progress ∨ events = second_run ∨ events = skipped_run → browser_reachable pf false (page events).
Proof.
  assert (Forall (λ te, event_ok te.2) skipped_run) as H by (repeat constructor; simpl; lia).
  intros Hd. apply page_reachable. destruct Hd as [->|[->| ->]]; repeat constructor; simpl; lia.
Qed.
End BrowserDemo.

Lemma browser_uploads_each_file_once_witness :
  let b := BrowserDemo.page BrowserDemo.with_progress in
  ∃ times at_ started ws, b_task b = AwaitWorkers times at_ started ws ∧ started = [0; 1]%nat ∧ WorkerEnded ∈ ws
    ∧ running (b_manager b) = busy_workers ws ∧ ∀ k f, file_at k (b_manager b) = Some f → q_done f = false → k ∈ (held_of ws).*1.
Proof.
  intros b. destruct (b_task b) as [| | | | |times at_ started ws| |] eqn:Ht; try (by vm_compute in Ht).
  assert (started = [0; 1]%nat ∧ WorkerEnded ∈ ws) as [Hs He].
  { revert Ht. vm_compute. intros [= <- <- <- <-]. split; [done|]. apply elem_of_cons. right. apply elem_of_cons. right. left. }
  destruct (browser_uploads_each_file_once BrowserDemo.pf false b) as [H _]; [apply BrowserDemo.demo_reachable; by left|].
  destruct (H times at_ started ws Ht) as (_ & _ & H3 & _ & _ & _ & _ & _ & H9). exists times, at_, started, ws.
  split_and!; [done..|]. intros k f Hf Hd. destruct (H9 k f Hf Hd) as [Hk|(_ & _ & Hno)]; [exact Hk|destruct (Hno He)].
Defined.

Lemma browser_counts_match_files_witness :
  let b := BrowserDemo.page BrowserDemo.second_run in
  errorCount (b_manager b) = countb q_failed (fileQueue (b_manager b)) ∧ errorCount (b_manager b) = 1 ∧ totalBytes (b_manager b) = 30.
Proof.
  intros b. destruct (browser_counts_match_files BrowserDemo.pf false b) as (_ & _ & H & _); [apply BrowserDemo.demo_reachable; by right; left|].
  destruct H as (_ & H & _); [intros times at_ started ws; by vm_compute|]. split; [done|]. split; vm_compute; reflexivity.
Defined.

Lemma browser_progress_is_the_sum_witness :
  let m := b_manager (BrowserDemo.page BrowserDemo.with_progress) in
  globalUploadedBytes m = 15 ∧ globalUploadedBytes m <= globalCompletedBytes m <= totalBytes m.
Proof.
  intros m. split; [vm_compute; reflexivity|].
  destruct (browser_progress_is_the_sum BrowserDemo.pf false (BrowserDemo.page BrowserDemo.with_progress)) as (_ & _ & H);
    [apply BrowserDemo.demo_reachable; by left|].
  destruct H as (old & _ & _ & _ & _ & H); [by vm_compute..|]. exact H.
Defined.

Lemma browser_run_ends_witness :
  let b := BrowserDemo.page BrowserDemo.with_progress in
  browser_cost b = 4 ∧ ∀ n b', waiting BrowserDemo.pf n b b' → Z.of_nat n <= 4.
Proof.
  intros b. assert (browser_cost b = 4) as Hc by (vm_compute; reflexivity). split; [done|]. intros n b' Hw. rewrite <-Hc.
  apply (browser_run_ends BrowserDemo.pf false b n b'); [apply BrowserDemo.demo_reachable; by left|done].
Defined.

Lemma browser_history_adds_up_witness :
  let b := BrowserDemo.page BrowserDemo.skipped_run in
  ∃ h b', exec BrowserDemo.pf 80 CleanupEnds b = Some b' ∧ b_out b' = b_out b ++ [History h]
    ∧ hi_selectedFiles h = hi_uploadedFiles h + hi_skippedFiles h + hi_failedFiles h - 1 ∧ errorCount (b_manager b) = 1.
Proof.
  intros b. assert (∃ times, b_task b = AwaitCleanup times) as [times Ht] by (eexists; vm_compute; reflexivity).
  assert (∃ b', exec BrowserDemo.pf 80 CleanupEnds b = Some b') as [b' Hx] by (cbn [exec]; rewrite Ht; by eexists).
  destruct (browser_history_adds_up BrowserDemo.pf false b times 80 b') as (h & H1 & H2 & _);
    [apply BrowserDemo.demo_reachable; by right; right|done|done|].
  exists h, b'. split_and!; [done|done|rewrite H2; f_equal; vm_compute; reflexivity|vm_compute; reflexivity].
Defined.

Lemma browser_preflight_skips_duplicates_witness :
  let b := BrowserDemo.page BrowserDemo.second_run in
  ∃ times h m n s, b_task b = AwaitVerify times h
    ∧ preflight_verified (BrowserDemo.answer_for "a" "skip") (hp_candidates h) (b_manager b) = Some (m, n, s)
    ∧ n = 1 ∧ s = 10 ∧ globalCompletedBytes m = globalCompletedBytes (b_manager b) + s.
Proof.
  intros b. destruct (b_task b) as [| | | |times h| | |] eqn:Ht; try (by vm_compute in Ht).
  assert (hp_candidates h = [0%nat]) as Hh by (revert Ht; vm_compute; by intros [= _ <-]).
  destruct (preflight_verified (BrowserDemo.answer_for "a" "skip") (hp_candidates h) (b_manager b)) as [[[m n] s]|] eqn:Hv.
  2:{ exfalso. rewrite Hh in Hv. revert Hv. unfold preflight_verified. destruct (response_map _ _) eqn:E; [done|by vm_compute in E]. }
  exists times, h, m, n, s. destruct (browser_preflight_skips_duplicates BrowserDemo.pf false b times h (BrowserDemo.answer_for "a" "skip") m n s) as (r & Hr & _ & _ & Hn & Hs & Hg);
    [apply BrowserDemo.demo_reachable; by right; left|done|exact Hv|].
  apply (inj Some) in Hr. subst r. rewrite Hh in Hn, Hs. split_and!; [done|done|rewrite Hn; vm_compute; reflexivity|rewrite Hs; vm_compute; reflexivity|done].
Defined.
