(* ===== verification/BrowserChunks.v ===== *)
(** * A chunked upload of the browser, from its first request to its end

    [drive] follows one upload through what happens to it. The theorem says what the desktop
    has when the upload succeeds: every slice of the file once and in order. *)

From Stdlib Require Import QArith Qcanon.
From S2P Require Import Prelude Js Browser BrowserUpload BrowserPreflight BrowserRun BrowserBooks BrowserBytes BrowserTurns BrowserTransfers.
Open Scope Z_scope.

(** What happens to an upload: an event of its request, or the end of its pause. *)
Inductive upload_input := UXhr (e : xhr_event) | UPause.

(** As [exec] does it for a worker. *)
Definition advance (k : nat) (now size : Z) (i : upload_input) (t : transfer) (m : browser_manager)
    : option (browser_manager * progressed) :=
  match t, i with
  | InWhole since, UXhr e => Some (whole_event k now since e m)
  | InChunk c since, UXhr e => Some (chunk_event k now size since e c m)
  | InPause c, UPause => Some (retry_chunk k now size c m)
  | _, _ => None
  end.

(** The slice the desktop took with an answer: from where, up to where. *)
Definition taken_slice (size : Z) (i : upload_input) (t : transfer) : list (Z * Z) :=
  match t, i with
  | InChunk c _, UXhr (XLoad a) => if success_status (x_status a) then [(chunk_start c, chunk_stop c size)] else []
  | _, _ => []
  end.

(** All inputs of an upload: the slices taken, the requests sent, and how it stands after. *)
Fixpoint drive (k : nat) (size : Z) (inputs : list (Z * upload_input)) (t : transfer) (m : browser_manager)
    : option (list (Z * Z) * list upload_request * progressed) :=
  match inputs with
  | [] => Some ([], [], Suspended t [])
  | (now, i) :: inputs =>
      '(m, p) ← advance k now size i t m;
      match p with
      | Suspended t' sent =>
          '(acc, sent', p) ← drive k size inputs t' m; Some (taken_slice size i t ++ acc, sent ++ sent', p)
      | _ => match inputs with [] => Some (taken_slice size i t, [], p) | _ => None end
      end
  end.

(** [file.slice(start, stop)]. *)
Definition slice {A} (content : list A) (range : Z * Z) : list A :=
  take (Z.to_nat (range.2 - range.1)) (drop (Z.to_nat range.1) content).

(** The requests for one chunk. *)
Definition is_chunk_request (index : Z) (r : upload_request) : bool :=
  match r with ChunkRequest _ _ i _ _ _ => i =? index | WholeRequest _ => false end.
Definition requests_for (index : Z) (sent : list upload_request) : Z := sumZ (λ r, number_of_bool (is_chunk_request index r)) sent.

(** A request is for the slice its index says. *)
Definition request_ok (k : nat) (size chunkSize total : Z) (fileId : string) (r : upload_request) : Prop :=
  ∃ i, r = ChunkRequest k fileId i total (i * chunkSize) (Z.min (i * chunkSize + chunkSize) size) ∧ 0 <= i < total.

Section drive.
Context {A : Type} (content : list A) (k : nat) (chunkSize total : Z) (fileId : string).
Let size := lengthZ content.

Definition loop_of (c : chunk_loop) : Prop :=
  loop_ok size c ∧ cl_chunkSize c = chunkSize ∧ cl_totalChunks c = total ∧ cl_fileId c = fileId.

(** The loop a suspended upload is in, and the attempts at its chunk that were sent. *)
Definition at_loop (t : transfer) (c : chunk_loop) (attempts : Z) : Prop :=
  match t with InChunk c' _ => c' = c ∧ attempts = cl_attempt c + 1 | InPause c' => c' = c ∧ attempts = cl_attempt c | InWhole _ => False end.

(** One input of a chunked upload: an attempt goes on, a new one begins for the same chunk or
    for the next, or the upload ends. *)
Inductive chunk_moved (c : chunk_loop) (attempts : Z) (slices : list (Z * Z)) (sent : list upload_request) (p : progressed) : Prop :=
  | moved_same t c' :
      p = Suspended t sent → at_loop t c' (attempts + requests_for (cl_index c) sent) → loop_of c' → cl_index c' = cl_index c →
      slices = [] → Forall (request_ok k size chunkSize total fileId) sent → (∀ i, i ≠ cl_index c → requests_for i sent = 0) →
      chunk_moved c attempts slices sent p
  | moved_next t c' :
      p = Suspended t sent → at_loop t c' 1 → loop_of c' → cl_index c' = cl_index c + 1 →
      slices = [(chunk_start c, chunk_stop c size)] → Forall (request_ok k size chunkSize total fileId) sent →
      (∀ i, requests_for i sent = if decide (i = cl_index c + 1) then 1 else 0) → chunk_moved c attempts slices sent p
  | moved_done r :
      p = Succeeded r → cl_index c = total - 1 → field r "complete" = JBool true →
      slices = [(chunk_start c, chunk_stop c size)] → sent = [] → chunk_moved c attempts slices sent p
  | moved_failed s : p = Failed s → sent = [] → chunk_moved c attempts slices sent p.

Lemma requests_for_one i r : requests_for i [r] = number_of_bool (is_chunk_request i r).
Proof. unfold requests_for. by rewrite sumZ_singleton. Qed.

Lemma chunk_request_ok c : loop_of c → request_ok k size chunkSize total fileId (chunk_request k c size).
Proof. intros (Hok & E1 & E2 & E3). exists (cl_index c). unfold chunk_request, chunk_stop, chunk_start. rewrite E1, E2, E3. split; [done|]. rewrite <-E2. apply Hok. Qed.

Lemma loop_of_lastLoaded c l : loop_of c → loop_of (c <| cl_lastLoaded := l |>).
Proof. intros (Hok & ? & ? & ?). split; [destruct Hok, c; by split|by destruct c]. Qed.

Lemma moved_lastLoaded c l attempts slices sent p :
  chunk_moved (c <| cl_lastLoaded := l |>) attempts slices sent p → chunk_moved c attempts slices sent p.
Proof.
  destruct c as [cs tc fi ix up ll at_]. intros [t c' Hp Hat Hl Hi Hs Hr Ho|t c' Hp Hat Hl Hi Hs Hr Ho|r Hp Hi Hr Hs Hn|st Hp Hs].
  - by eapply moved_same.
  - by eapply moved_next.
  - by eapply moved_done.
  - by eapply moved_failed.
Qed.

Lemma accepted_moved now a c m attempts :
  loop_of c → let mp := chunk_accepted k now size a c m in
  chunk_moved c attempts [(chunk_start c, chunk_stop c size)] (if mp.2 is Suspended _ sent then sent else []) mp.2.
Proof.
  intros Hl mp. pose proof Hl as (Hok & E1 & E2 & E3). pose proof (chunk_accepted_closer k now size a c m Hok) as Hc. fold mp in Hc.
  assert (∀ t sent, mp.2 = Suspended t sent → ∃ c', t = InChunk c' now ∧ sent = [chunk_request k c' size]) as Hs.
  { unfold mp, chunk_accepted. cbv zeta. intros t sent. destruct (if cl_index c =? cl_totalChunks c - 1 then _ else _); [|done].
    destruct (cl_index c =? _); [done|]. unfold send_chunk. intros [= <- <-]. by eexists. }
  destruct mp.2 as [t sent|r|st] eqn:Ep.
  - destruct Hc as (c' & -> & Hok' & Hi & Ha & Hf & Hcs & Ht). destruct (Hs _ _ eq_refl) as (c'' & [= <-] & ->).
    assert (loop_of c') as Hl' by (split; [done|]; split_and!; congruence).
    eapply moved_next; [reflexivity| |exact Hl'|done|done| |].
    + split; [done|lia].
    + constructor; [by apply chunk_request_ok|constructor].
    + intros i. rewrite requests_for_one. unfold chunk_request, is_chunk_request. rewrite Hi.
      destruct (decide (i = cl_index c + 1)) as [->|Hne]; [by rewrite Z.eqb_refl|]. destruct (Z.eqb_spec (cl_index c + 1) i); [congruence|done].
  - destruct Hc as [Hlast Hr]. eapply moved_done; try done. congruence.
  - by eapply moved_failed.
Qed.

Lemma failed_attempt_moved status c m :
  loop_of c → let mp := attempt_failed status c m in
  chunk_moved c (cl_attempt c + 1) [] (if mp.2 is Suspended _ sent then sent else []) mp.2.
Proof.
  intros Hl mp. pose proof Hl as (Hok & E1 & E2 & E3). pose proof (attempt_failed_closer status size c m Hok) as Hc. fold mp in Hc.
  assert (∀ t sent, mp.2 = Suspended t sent → sent = []) as Hs by (unfold mp, attempt_failed; intros t sent; destruct (_ || _); by intros [= _ <-]).
  destruct mp.2 as [t sent|r|st] eqn:Ep; [|done|by eapply moved_failed].
  rewrite (Hs _ _ eq_refl). destruct Hc as (-> & Hlt & _). eapply (moved_same _ _ _ _ _ _ (c <| cl_attempt := cl_attempt c + 1 |>)); try done.
  - split; [done|]. unfold requests_for. rewrite sumZ_nil. destruct c. simpl. lia.
  - split; [|by destruct c]. destruct Hok, c. unfold MAX_CHUNK_RETRIES in *. simpl in *. split; unfold MAX_CHUNK_RETRIES; simpl; try done; lia.
Qed.

Lemma advance_moved now i t c attempts m m' p :
  at_loop t c attempts → loop_of c → advance k now size i t m = Some (m', p) →
  chunk_moved c attempts (taken_slice size i t) (if p is Suspended _ sent then sent else []) p.
Proof.
  intros Hat Hl. destruct t as [|c0 since|c0]; [done|..]; destruct Hat as [-> ->]; destruct i as [e|]; cbn [advance]; try done.
  - destruct e as [lc loaded tot|a|timing]; cbn [chunk_event taken_slice].
    + assert (∀ l, chunk_moved c (cl_attempt c + 1) [] [] (Suspended (InChunk (c <| cl_lastLoaded := l |>) since) [])) as Hsame.
      { intros l. eapply moved_same; [reflexivity| |by apply loop_of_lastLoaded|by destruct c|done|constructor|done].
        split; [done|]. unfold requests_for. rewrite sumZ_nil. destruct c. simpl. lia. }
      destruct lc; [|intros [= _ <-]; specialize (Hsame (cl_lastLoaded c)); by destruct c].
      destruct (chunk_progress k now loaded tot c m) as [m1 c1] eqn:H1. apply chunk_progress_loop in H1 as [l ->]. intros [= _ <-]. apply Hsame.
    + cbv zeta. destruct (success_status (x_status a)).
      * match goal with |- context [let '(m, c) := ?x in _] => destruct x as [m1 c1] eqn:H1 end.
        assert (∃ l, c1 = c <| cl_lastLoaded := l |>) as [l ->].
        { destruct (0 <? _); [by apply chunk_progress_loop in H1|injection H1 as _ <-; exists (cl_lastLoaded c); by destruct c]. }
        pose proof (accepted_moved now a (c <| cl_lastLoaded := l |>) m1 (cl_attempt c + 1) (loop_of_lastLoaded c l Hl)) as Hm.
        intros H. injection H as H. rewrite H in Hm. by apply moved_lastLoaded in Hm.
      * intros H. apply (inj Some) in H. pose proof (failed_attempt_moved (x_status a) c (recordRequestTiming k since now (x_timing a) m) Hl) as Hm.
        rewrite H in Hm. exact Hm.
    + intros H. apply (inj Some) in H. pose proof (failed_attempt_moved 0 c (recordRequestTiming k since now timing m) Hl) as Hm.
      rewrite H in Hm. exact Hm.
  - unfold retry_chunk. intros [= _ <-]. eapply moved_same; [reflexivity| |exact Hl|done|done| |].
    + split; [done|]. rewrite requests_for_one. simpl. rewrite Z.eqb_refl. simpl. lia.
    + constructor; [by apply chunk_request_ok|constructor].
    + intros j Hj. rewrite requests_for_one. simpl. by destruct (Z.eqb_spec (cl_index c) j).
Qed.

(** ** The whole upload *)

Lemma loop_start c : loop_of c → 0 < chunkSize ∧ chunk_start c = cl_index c * chunkSize ∧ 0 <= chunk_start c < size
  ∧ (cl_index c + 1 = total → chunk_stop c size = size) ∧ (chunk_start c + chunkSize < size → chunk_stop c size = chunk_start c + chunkSize).
Proof.
  intros (Hok & <- & <- & _). pose proof (chunk_start_bound size c Hok). destruct Hok as [H1 H2 H3 H4 H5 H6].
  split_and!; [done|done|lia|lia| |]; unfold chunk_stop; intros H7; [|lia].
  pose proof (ceil_div_spec size (cl_chunkSize c) H1). rewrite <-H2 in H0. unfold chunk_start in *. nia.
Qed.

Lemma slice_rest start stop : 0 <= start <= stop → slice content (start, stop) ++ drop (Z.to_nat stop) content = drop (Z.to_nat start) content.
Proof.
  intros H. unfold slice. simpl. rewrite <-(take_drop (Z.to_nat (stop - start)) (drop (Z.to_nat start) content)) at 2. f_equal.
  rewrite drop_drop. f_equal. lia.
Qed.

Lemma requests_for_app i l l' : requests_for i (l ++ l') = requests_for i l + requests_for i l'.
Proof. apply sumZ_app. Qed.

Lemma requests_for_nonneg i l : 0 <= requests_for i l.
Proof. apply sumZ_nonneg. intros r _. by destruct (is_chunk_request i r). Qed.

Lemma at_loop_attempts t c attempts : at_loop t c attempts → loop_of c → 0 <= attempts <= 3.
Proof.
  intros Hat (Hok & _). pose proof (lo_attempt _ _ Hok). unfold MAX_CHUNK_RETRIES in *.
  destruct t as [|c0 since|c0]; [done|..]; destruct Hat as [-> ->]; lia.
Qed.

(** What is left of the upload, from a loop on. *)
Definition rest_sent (c : chunk_loop) (attempts : Z) (acc : list (Z * Z)) (sent : list upload_request) : Prop :=
  concat (slice content <$> acc) = drop (Z.to_nat (chunk_start c)) content
  ∧ Forall (request_ok k size chunkSize total fileId) sent
  ∧ (attempts + requests_for (cl_index c) sent <= 3)
  ∧ (∀ i, cl_index c < i < total → 1 <= requests_for i sent <= 3)
  ∧ (∀ i, i < cl_index c → requests_for i sent = 0).

Lemma drive_rest inputs t c attempts m acc sent r :
  at_loop t c attempts → loop_of c → drive k size inputs t m = Some (acc, sent, Succeeded r) →
  rest_sent c attempts acc sent ∧ field r "complete" = JBool true.
Proof.
  revert t c attempts m acc sent. induction inputs as [|[now i] inputs IH]; intros t c attempts m acc sent Hat Hl; [done|].
  pose proof (at_loop_attempts t c attempts Hat Hl) as Hatt. cbn [drive].
  destruct (advance k now size i t m) as [[m1 p]|] eqn:Hadv; [|done].
  apply (advance_moved now i t c attempts m m1 p Hat Hl) in Hadv. cbn [mbind option_bind].
  destruct (loop_start c Hl) as (Hcs & Hst & Hb & Hlast & Hnext).
  assert (0 <= requests_for (cl_index c) []) as H0 by done.
  destruct Hadv as [t' c' -> Hat' Hl' Hi Hs Hr Ho|t' c' -> Hat' Hl' Hi Hs Hr Ho|r' -> Hi Hrc Hs Hn|st -> Hn].
  - destruct (drive k size inputs t' m1) as [[[acc' sent'] p']|] eqn:Hd; [|done]. intros [= <- <- ->].
    destruct (IH _ _ _ _ _ _ Hat' Hl' Hd) as ((R1 & R2 & R3 & R4 & R5) & Hcomp). split; [|done]. rewrite Hs. split_and!.
    + destruct (loop_start c' Hl') as (_ & Hst' & _). rewrite Hst, <-Hi, <-Hst'. exact R1.
    + apply Forall_app. by split.
    + rewrite requests_for_app, <-Hi. rewrite Hi in *. lia.
    + intros j Hj. rewrite requests_for_app, Ho by lia. apply R4. lia.
    + intros j Hj. rewrite requests_for_app, Ho by lia. apply R5. lia.
  - destruct (drive k size inputs t' m1) as [[[acc' sent'] p']|] eqn:Hd; [|done]. intros [= <- <- ->].
    destruct (IH _ _ _ _ _ _ Hat' Hl' Hd) as ((R1 & R2 & R3 & R4 & R5) & Hcomp). split; [|done].
    destruct (loop_start c' Hl') as (_ & Hst' & Hb' & _). assert (chunk_start c' = chunk_start c + chunkSize) as Hstep by (rewrite Hst', Hi, Hst; lia).
    rewrite Hs. split_and!.
    + rewrite fmap_app, concat_app, R1. cbn [fmap list_fmap concat]. rewrite app_nil_r, Hstep, <-Hnext by lia. apply slice_rest. rewrite Hnext; lia.
    + apply Forall_app. by split.
    + rewrite requests_for_app, Ho, decide_False, (R5 (cl_index c)) by lia. lia.
    + intros j Hj. rewrite requests_for_app, Ho. destruct (decide (j = cl_index c + 1)) as [->|Hne].
      * rewrite <-Hi. pose proof (requests_for_nonneg (cl_index c') sent'). lia.
      * apply R4. lia.
    + intros j Hj. rewrite requests_for_app, Ho, decide_False by lia. apply R5. lia.
  - destruct inputs; [|done]. intros [= <- <- <-]. split; [|done]. rewrite Hs. split_and!.
    + simpl. rewrite app_nil_r, Hlast by lia. unfold slice. simpl. apply take_ge. rewrite length_drop. unfold size, lengthZ. lia.
    + constructor.
    + unfold requests_for. rewrite sumZ_nil. lia.
    + intros j Hj. lia.
    + done.
  - by destruct inputs.
Qed.

End drive.

(** C14: a chunked upload that succeeds, however its requests went, be it with delays, progress
    events, failed attempts and pauses. The slices the desktop took are the file, in order and
    without gap or overlap; every request was for the slice its index stands for, of the one
    id; each chunk was requested at least once and at most three times; and the answer to
    the last chunk said that the file is complete. *)
Theorem chunked_upload_complete {A} (content : list A) ios k now fileId m m0 t sent0 inputs acc sent r :
  config_ok m → 0 < lengthZ content →
  uploadChunked ios k now fileId (lengthZ content) m = (m0, Suspended t sent0) →
  drive k (lengthZ content) inputs t m0 = Some (acc, sent, Succeeded r) →
  let chunkSize := chunk_size ios m in
  let total := ceil_div (lengthZ content) chunkSize in
  concat (slice content <$> acc) = content ∧ field r "complete" = JBool true
  ∧ Forall (request_ok k (lengthZ content) chunkSize total fileId) (sent0 ++ sent)
  ∧ ∀ i, 0 <= i < total → 1 <= requests_for i (sent0 ++ sent) <= 3.
Proof.
  intros Hc Hsize. unfold uploadChunked. cbv zeta. pose proof (chunk_size_positive ios m Hc) as Hcs.
  set (cs := chunk_size ios m) in *. set (total := ceil_div (lengthZ content) cs).
  destruct (Z.ltb_spec BrowserLimits.MaxChunksPerFile total) as [_|Hmost]; [done|]. destruct (_ <? _); [done|].
  unfold send_chunk. intros [= <- <- <-] Hd.
  set (c := {| cl_chunkSize := cs; cl_totalChunks := total; cl_fileId := fileId; cl_index := 0; cl_uploadedBytes := 0;
    cl_lastLoaded := 0; cl_attempt := 0 |}) in *. change (c <| cl_lastLoaded := 0 |> <| cl_attempt := 0 |>) with c in *.
  pose proof (ceil_div_spec (lengthZ content) cs Hcs) as Hspec. fold total in Hspec.
  assert (loop_of content cs total fileId c) as Hl.
  { split; [|done]. split; unfold MAX_CHUNK_RETRIES, chunk_start; simpl; try done; nia. }
  apply (drive_rest content k cs total fileId inputs _ c 1) in Hd as ((R1 & R2 & R3 & R4 & R5) & Hcomp); [|by split|done].
  split_and!; [exact R1|done|apply Forall_app; split; [|done]; constructor; [by apply chunk_request_ok|constructor]|].
  intros i Hi. rewrite requests_for_app, requests_for_one. unfold is_chunk_request, chunk_request.
  destruct (Z.eqb_spec (cl_index c) i) as [<-|Hne]; simpl number_of_bool.
  - pose proof (requests_for_nonneg (cl_index c) sent). lia.
  - rewrite Z.add_0_l. apply R4. simpl in *. lia.
Qed.

(** Three bytes in chunks of two: the first attempt at the first chunk fails. *)
Definition chunk_page : browser_manager :=
  config_requested (browser_initial false) <| chunkSizeBytes := 2 |> <| SINGLE_FILE_MAX_BYTES := 2 |>
    <| fileQueue := [fresh_meta {| c_id := "a"; c_name := "a.jpg"; c_size := 3 |}] |>.
Definition no_timing : server_timing := {| st_app := 0%Qc; st_write := 0%Qc; st_finalize := 0%Qc |}.
Definition chunk_inputs : list (Z * upload_input) :=
  [(1, UXhr (XProgress true 1 2)); (2, UXhr (XFail no_timing)); (252, UPause);
   (253, UXhr (XLoad {| x_status := 200; x_empty := true; x_json := None; x_timing := no_timing |}));
   (254, UXhr (XLoad {| x_status := 200; x_empty := false; x_json := Some (JObj [("complete", JBool true)]); x_timing := no_timing |}))].

Lemma chunked_upload_complete_witness :
  let content := [7; 8; 9]%nat in
  match uploadChunked false 0 0 "f" 3 chunk_page with
  | (m0, Suspended t sent0) =>
      match drive 0 3 chunk_inputs t m0 with
      | Some (acc, sent, Succeeded r) => acc = [(0, 2); (2, 3)] ∧ concat (slice content <$> acc) = content ∧ requests_for 0 (sent0 ++ sent) <= 3
      | _ => False
      end
  | _ => False
  end.
Proof.
  intros content.
  assert (match uploadChunked false 0 0 "f" 3 chunk_page with
          | (m0, Suspended t sent0) => match drive 0 3 chunk_inputs t m0 with
              | Some (acc, sent, Succeeded r) => bool_decide (acc = [(0, 2); (2, 3)]) | _ => false end
          | _ => false end = true) as H by (vm_compute; reflexivity).
  destruct (uploadChunked false 0 0 "f" 3 chunk_page) as [m0 [t sent0|r|s]] eqn:Hu; [|done..].
  destruct (drive 0 3 chunk_inputs t m0) as [[[acc sent] [|r|]]|] eqn:Hd; try done. apply bool_decide_eq_true in H.
  destruct (chunked_upload_complete content false 0 0 "f" chunk_page m0 t sent0 chunk_inputs acc sent r) as (H1 & _ & _ & H4); [|done|done|done|].
  - apply (bool_decide_unpack _). vm_compute. exact I.
  - split_and!; [done|done|]. by apply H4.
Defined.
