(* ===== verification/BrowserSecurity.v ===== *)
(** * The credential of the browser page ([static/js/core/security.js])

    The page takes its token from the one-time code of the link, from the link itself or
    from the browser's storage, asks the desktop whether it is valid, and unlocks its
    controls. The two requests are awaited: a phase says which. The storage may be missing
    or refuse to be written. *)

From Stdlib Require Import QArith Qcanon.
From S2P Require Import Prelude Js.
Open Scope Z_scope.

Module SecurityManager.

(** [available]: [localStorage] is there and can be read; [writable]: [setItem] works. *)
Record storage := { available : bool; writable : bool; entry : option string }.
#[export] Instance storage_eta : Eta storage := λ s, Build_storage (available s) (writable s) (entry s).

Inductive reason := invalid | missing.
#[export] Instance reason_eq_dec : EqDecision reason.
Proof. solve_decision. Defined.

Inductive security_phase := not_started | exchanging (bootstrap : string) | verifying (t : string) | ready.

(** [locked]: [None] before the controls were ever set. [modals]: what the dialog showed. *)
(* src: src/src/Server/static/js/core/security.js:5-10 [SecurityManager] *)
Record security := {
  token : option string;
  isValid : bool;
  failureReason : option reason;
  localStorage : storage;
  locked : option bool;
  banner : bool;
  modals : list reason;
  credential_in_address : bool;
  phase : security_phase }.

#[export] Instance security_eta : Eta security := λ s,
  Build_security (token s) (isValid s) (failureReason s) (localStorage s) (locked s) (banner s) (modals s)
    (credential_in_address s) (phase s).

Definition page_loaded (stored : storage) : security :=
  {| token := None; isValid := false; failureReason := None; localStorage := stored; locked := None; banner := false;
     modals := []; credential_in_address := true; phase := not_started |}.

(** *** The storage *)

(* src: src/src/Server/static/js/core/security.js:91-99 [restoreBrowserAuthorization] *)
Definition restoreBrowserAuthorization (s : security) : option string :=
  if available (localStorage s) then entry (localStorage s) else None.

(* src: src/src/Server/static/js/core/security.js:101-107 [persistBrowserAuthorization] *)
Definition persistBrowserAuthorization (t : string) (s : security) : security :=
  if available (localStorage s) && writable (localStorage s)
  then s <| localStorage := localStorage s <| entry := Some t |> |> else s.

(* src: src/src/Server/static/js/core/security.js:109-116 [clearBrowserAuthorization] *)
Definition clearBrowserAuthorization (expectedToken : string) (s : security) : security :=
  if available (localStorage s) && (negb (truthy expectedToken) || bool_decide (entry (localStorage s) = Some expectedToken))
  then s <| localStorage := localStorage s <| entry := None |> |> else s.

(** *** The controls *)

(* src: src/src/Server/static/js/core/security.js:145-171 [disableControls] *)
Definition disableControls (s : security) : security := s <| locked := Some true |> <| banner := true |>.
(* src: src/src/Server/static/js/core/security.js:173-190 [enableControls] *)
Definition enableControls (s : security) : security := s <| locked := Some false |> <| banner := false |>.
(* src: src/src/Server/static/js/core/security.js:51-57 [showAccessError] *)
Definition showAccessError (r : reason) (s : security) : security := s <| modals := modals s ++ [r] |>.

(* src: src/src/Server/static/js/core/security.js:30-35 [initializeCredential] *)
Definition refuse (r : reason) (s : security) : security :=
  disableControls (showAccessError r (s <| failureReason := Some r |> <| phase := ready |>)).

(** *** Initialisation *)

(** [token] in the query and [bootstrap] in the fragment of the address. *)
Section page.
Context (legacyToken bootstrap : option string) (address_writable : bool).

Definition truthy_opt (o : option string) : option string := match o with Some s => if truthy s then Some s else None | None => None end.

(** After the token is known. *)
(* src: src/src/Server/static/js/core/security.js:26-38 [initializeCredential] *)
Definition token_known (t : option string) (s : security) : security :=
  let s := s <| token := t |> in
  match truthy_opt t with
  | None => refuse (if truthy_opt bootstrap then invalid else missing) s
  | Some t => s <| phase := verifying t |>
  end.

(** [exchangeBootstrap] answers at once on a malformed code. *)
(* src: src/src/Server/static/js/core/security.js:18-28 [initializeCredential] *)
Definition init (s : security) : security :=
  match phase s with
  | not_started =>
      let s := if address_writable then s <| credential_in_address := false |> else s in
      match truthy_opt bootstrap with
      | Some code => if is_hex64 code then s <| phase := exchanging code |> else token_known None s
      | None => token_known (match truthy_opt legacyToken with Some t => Some t | None => restoreBrowserAuthorization s end) s
      end
  | _ => s
  end.

(** An answer of [fetch]: it may throw, and so may [response.json()]. *)
Inductive fetched := Threw | Answered (status : Z) (body : option jsval).
Definition is_ok (status : Z) : bool := (200 <=? status) && (status <=? 299).

(* src: src/src/Server/static/js/core/security.js:69-89 [exchangeBootstrap] *)
Definition exchanged (a : fetched) (s : security) : option string * security :=
  match a with
  | Answered status (Some payload) =>
      if is_ok status then
        match field payload "token" with
        | JStr t => if truthy t then (Some t, persistBrowserAuthorization t s) else (None, s)
        | _ => (None, s)
        end
      else (None, s)
  | _ => (None, s)
  end.

Definition exchange_answered (a : fetched) (s : security) : option security :=
  match phase s with
  | exchanging _ => let '(t, s) := exchanged a s in Some (token_known t s)
  | _ => None
  end.

(** [j.valid] of a body that is [null] throws. *)
(* src: src/src/Server/static/js/core/security.js:118-143 [verifyTokenWithServer] *)
Definition verified (t : string) (a : fetched) (s : security) : bool * security :=
  match a with
  | Threw => (false, s)
  | Answered status body =>
      if negb (is_ok status)
      then (false, if (status =? 401) || (status =? 403) then clearBrowserAuthorization t s else s)
      else match body with
           | None | Some JNull | Some JUndefined => (false, s)
           | Some j =>
               let s := match field j "valid" with JBool false => clearBrowserAuthorization t s | _ => s end in
               (js_truthy (field j "valid"), s)
           end
  end.

(* src: src/src/Server/static/js/core/security.js:37-49 [initializeCredential] *)
Definition verify_answered (a : fetched) (s : security) : option security :=
  match phase s with
  | verifying t =>
      let '(valid, s) := verified t a s in
      Some (if valid then enableControls (s <| failureReason := None |> <| isValid := true |> <| phase := ready |>)
            else refuse invalid s)
  | _ => None
  end.

(** The upload manager's own look at the token, once [init] is through. *)
(* src: src/src/Server/static/js/upload/manager.js:378-389 [init] *)
Definition manager_init (s : security) : security :=
  if bool_decide (truthy_opt (token s) = None) || negb (isValid s) then disableControls s else s.

Inductive security_event := Init | ExchangeAnswer (a : fetched) | VerifyAnswer (a : fetched) | ManagerInit.

Definition security_exec (e : security_event) (s : security) : option security :=
  match e with
  | Init => Some (init s)
  | ExchangeAnswer a => exchange_answered a s
  | VerifyAnswer a => verify_answered a s
  | ManagerInit => match phase s with ready => Some (manager_init s) | _ => None end
  end.

Definition security_run (stored : storage) (es : list security_event) : option security :=
  foldl (λ s e, s ≫= security_exec e) (Some (page_loaded stored)) es.
End page.

(** ** Theorems *)

(** The desktop takes the token, or says that it is not valid (any more). *)
Definition accepts (a : fetched) : bool :=
  match a with Answered status (Some j) => is_ok status && js_truthy (field j "valid") | _ => false end.
Definition rejects (a : fetched) : bool :=
  match a with
  | Answered status body =>
      (status =? 401) || (status =? 403)
      || is_ok status && match body with Some j => match field j "valid" with JBool false => true | _ => false end | None => false end
  | Threw => false
  end.

Section runs.
Context (legacyToken bootstrap : option string) (address_writable : bool) (stored : storage).

Notation run := (security_run legacyToken bootstrap address_writable stored).

Lemma run_snoc es e : run (es ++ [e]) = run es ≫= security_exec legacyToken bootstrap address_writable e.
Proof. unfold security_run. by rewrite foldl_app. Qed.

(** The desktop answered [a] when asked about [t]. *)
Definition asked (P : fetched → bool) (es : list security_event) (t : string) : Prop :=
  ∃ es1 a es2 s1, es = es1 ++ VerifyAnswer a :: es2 ∧ run es1 = Some s1 ∧ phase s1 = verifying t ∧ P a = true.

Lemma asked_snoc P es e t : asked P es t → asked P (es ++ [e]) t.
Proof. intros (es1 & a & es2 & s1 & -> & H). exists es1, a, (es2 ++ [e]), s1. split; [by rewrite <-app_assoc|exact H]. Qed.

Lemma asked_now P es s t a : run es = Some s → phase s = verifying t → P a = true → asked P (es ++ [VerifyAnswer a]) t.
Proof. intros. by exists es, a, [], s. Qed.

(** The desktop handed over [t] in exchange for the code of the link. *)
Definition hands_over (a : fetched) (t : string) : Prop :=
  match a with Answered status (Some j) => is_ok status = true ∧ field j "token" = JStr t | _ => False end.
Definition gave (es : list security_event) (t : string) : Prop :=
  ∃ es1 a es2 s1 code, es = es1 ++ ExchangeAnswer a :: es2 ∧ run es1 = Some s1 ∧ phase s1 = exchanging code ∧ hands_over a t.

Lemma gave_snoc es e t : gave es t → gave (es ++ [e]) t.
Proof. intros (es1 & a & es2 & s1 & code & -> & H). exists es1, a, (es2 ++ [e]), s1, code. split; [by rewrite <-app_assoc|exact H]. Qed.

(** Where a token comes from. *)
Definition credential (es : list security_event) (t : string) : Prop :=
  truthy t = true ∧
  match truthy_opt bootstrap with
  | Some code => is_hex64 code = true ∧ gave es t
  | None => legacyToken = Some t ∨ truthy_opt legacyToken = None ∧ available stored = true ∧ entry stored = Some t
  end.

Lemma credential_snoc es e t : credential es t → credential (es ++ [e]) t.
Proof. intros [Ht H]. split; [done|]. destruct (truthy_opt bootstrap); [|done]. destruct H. split; [done|by apply gave_snoc]. Qed.

Definition state_ok (es : list security_event) (s : security) : Prop :=
  match phase s with
  | not_started => isValid s = false ∧ locked s = None ∧ localStorage s = stored
  | exchanging code => isValid s = false ∧ locked s = None ∧ bootstrap = Some code ∧ is_hex64 code = true ∧ localStorage s = stored
  | verifying t => isValid s = false ∧ locked s = None ∧ token s = Some t ∧ credential es t
  | ready =>
      (isValid s = true ∧ locked s = Some false ∧ failureReason s = None ∧ ∃ t, token s = Some t ∧ credential es t ∧ asked accepts es t)
      ∨ isValid s = false ∧ locked s = Some true ∧ banner s = true ∧ is_Some (failureReason s)
  end.

Definition storage_ok (es : list security_event) (s : security) : Prop :=
  available (localStorage s) = available stored ∧
  (entry (localStorage s) = entry stored
   ∨ (∃ t, entry (localStorage s) = Some t ∧ token s = Some t ∧ gave es t)
   ∨ entry (localStorage s) = None ∧ ∃ t, token s = Some t ∧ asked rejects es t).

Lemma clear_storage t s : available (localStorage (clearBrowserAuthorization t s)) = available (localStorage s)
  ∧ (entry (localStorage (clearBrowserAuthorization t s)) = entry (localStorage s) ∨ entry (localStorage (clearBrowserAuthorization t s)) = None).
Proof. unfold clearBrowserAuthorization. destruct (_ && _); [by split; [|right]|by split; [|left]]. Qed.

Lemma clear_fields t s : let s' := clearBrowserAuthorization t s in
  token s' = token s ∧ isValid s' = isValid s ∧ locked s' = locked s ∧ banner s' = banner s ∧ phase s' = phase s ∧ failureReason s' = failureReason s.
Proof. unfold clearBrowserAuthorization. cbv zeta. by destruct (_ && _). Qed.

(** What [verifyTokenWithServer] does. *)
Lemma verified_spec t a s : let r := verified t a s in
  r.1 = accepts a ∧ r.2 = if rejects a then clearBrowserAuthorization t s else s.
Proof.
  unfold verified, accepts, rejects. destruct a as [|status body]; [done|]. destruct (is_ok status) eqn:E; cbn [negb].
  - assert ((status =? 401) || (status =? 403) = false) as -> by (unfold is_ok in E; lia).
    destruct body as [[]|]; try (split; reflexivity). cbn [andb orb]. split; [done|]. by destruct (field _ "valid") as [| |[]| | | |].
  - destruct body; cbn [andb orb]; rewrite orb_false_r; done.
Qed.

Lemma credential_of_link es s t : truthy_opt bootstrap = None → localStorage s = stored →
  (match truthy_opt legacyToken with Some t => Some t | None => restoreBrowserAuthorization s end) = Some t → truthy t = true → credential es t.
Proof.
  intros Hb Hs Ht Htt. split; [done|]. rewrite Hb. unfold truthy_opt in Ht |- *. destruct legacyToken as [l|].
  - destruct (truthy l); [injection Ht as ->; by left|]. unfold restoreBrowserAuthorization in Ht. rewrite Hs in Ht. destruct (available stored); [by right|done].
  - unfold restoreBrowserAuthorization in Ht. rewrite Hs in Ht. destruct (available stored); [by right|done].
Qed.

Lemma token_known_ok es o s :
  isValid s = false → locked s = None → (∀ t, o = Some t → truthy t = true → credential es t) → state_ok es (token_known bootstrap o s).
Proof.
  intros Hv Hl Ho. unfold token_known. destruct o as [t|]; cbn [truthy_opt].
  - destruct (truthy t) eqn:Ht; [by apply (conj Hv), (conj Hl), (conj eq_refl), Ho|].
    unfold state_ok. cbn [phase refuse disableControls]. right. by destruct bootstrap as [b|]; simpl; try destruct (truthy b); eauto.
  - unfold state_ok. right. by destruct bootstrap as [b|]; simpl; try destruct (truthy b); eauto.
Qed.

Definition run_inv (es : list security_event) (s : security) : Prop :=
  state_ok es s ∧ storage_ok es s.

Lemma token_known_same o s : let s' := token_known bootstrap o s in
  localStorage s' = localStorage s ∧ token s' = o ∧ phase s' ≠ not_started.
Proof. unfold token_known. cbv zeta. by destruct (truthy_opt o). Qed.

Lemma storage_ok_snoc es e s : storage_ok es s → storage_ok (es ++ [e]) s.
Proof.
  intros (Ha & Hs). split; [done|]. destruct Hs as [|[(t & ? & ? & ?)|(Hn & t & Ht & Hasked)]];
    [by left|right; left; exists t; split_and!; [done..|by apply gave_snoc]|right; right].
  split; [done|]. exists t. split; [done|]. by apply asked_snoc.
Qed.

Lemma token_known_inv es o s :
  isValid s = false → locked s = None → available (localStorage s) = available stored →
  (entry (localStorage s) = entry stored ∨ ∃ t, entry (localStorage s) = Some t ∧ o = Some t ∧ gave es t) →
  (∀ t, o = Some t → truthy t = true → credential es t) → run_inv es (token_known bootstrap o s).
Proof.
  intros Hv Hl Ha He Ho. split; [by apply token_known_ok|]. destruct (token_known_same o s) as (E1 & E2 & _).
  split; [by rewrite E1|]. rewrite E1, E2. destruct He as [|He]; [by left|by right; left].
Qed.

Lemma started_again es s : phase s ≠ not_started → run_inv es s → run_inv (es ++ [Init]) s.
Proof.
  intros Hp [Hok Hst]. split; [|by apply storage_ok_snoc]. unfold state_ok in *. destruct (phase s); try done.
  - destruct Hok as (? & ? & ? & ?). split_and!; [done..|by apply credential_snoc].
  - destruct Hok as [(? & ? & ? & t & ? & ? & ?)|?]; [left|by right]. split_and!; [done..|]. exists t.
    split_and!; [done|by apply credential_snoc|by apply asked_snoc].
Qed.

Lemma init_inv es s : run_inv es s → run_inv (es ++ [Init]) (init legacyToken bootstrap address_writable s).
Proof.
  intros Hinv. unfold init. destruct (phase s) eqn:Hp; try (apply started_again; [congruence|done]).
  destruct Hinv as [Hok _]. set (s1 := if address_writable then _ else s).
  assert (localStorage s1 = stored ∧ isValid s1 = false ∧ locked s1 = None) as (Hs1 & Hv1 & Hl1)
    by (unfold state_ok in Hok; rewrite Hp in Hok; unfold s1; destruct address_writable; tauto).
  clearbody s1. destruct (truthy_opt bootstrap) as [code|] eqn:Hb.
  - assert (bootstrap = Some code) as Hb'.
    { destruct bootstrap as [c|]; [|done]. simpl in Hb. destruct (truthy c); [exact Hb|done]. }
    destruct (is_hex64 code) eqn:Hx.
    + split; [unfold state_ok; simpl; by split_and!|]. split; [simpl; by rewrite Hs1|left; simpl; by rewrite Hs1].
    + apply token_known_inv; rewrite ?Hs1; try done. by left.
  - apply token_known_inv; rewrite ?Hs1; try done; [by left|]. intros t. by apply credential_of_link.
Qed.

Lemma exchanged_storage a s : let r := exchanged a s in
  isValid r.2 = isValid s ∧ locked r.2 = locked s ∧ available (localStorage r.2) = available (localStorage s)
  ∧ (entry (localStorage r.2) = entry (localStorage s) ∨ is_Some r.1 ∧ entry (localStorage r.2) = r.1)
  ∧ ∀ t, r.1 = Some t → hands_over a t.
Proof.
  unfold exchanged, persistBrowserAuthorization, hands_over. destruct a as [|st [j|]]; [by split_and!; try left| |by split_and!; try left].
  destruct (is_ok st); [|by split_and!; try left]. destruct (field j "token") as [| | | |t| |]; try by split_and!; try left.
  destruct (truthy t); [|by split_and!; try left].
  destruct (_ && _); split_and!; try done; first [by right|by left|by intros ? [= ->]].
Qed.

Lemma exchange_inv es a s s' : run es = Some s → run_inv es s → exchange_answered bootstrap a s = Some s' → run_inv (es ++ [ExchangeAnswer a]) s'.
Proof.
  intros Hr [Hok _]. unfold exchange_answered. destruct (phase s) as [|code| |] eqn:Hp; try done.
  unfold state_ok in Hok. rewrite Hp in Hok. destruct Hok as (Hv & Hl & Hb & Hx & Hs).
  assert (truthy_opt bootstrap = Some code) as Hbt by (rewrite Hb; simpl; by rewrite is_hex64_truthy).
  pose proof (exchanged_storage a s) as (E1 & E2 & E3 & E4 & E5). destruct (exchanged a s) as [o s1]. cbn [fst snd] in E1, E2, E3, E4, E5.
  assert (∀ t, o = Some t → gave (es ++ [ExchangeAnswer a]) t) as Hgave
    by (intros t Ht; exists es, a, [], s, code; split_and!; [done|done|done|by apply E5]).
  intros [= <-]. rewrite Hs in E3, E4. apply token_known_inv; [congruence|congruence|done| |].
  - destruct E4 as [|[[t Ho] E4]]; [by left|right]. exists t. rewrite E4. split_and!; [done|done|by apply Hgave].
  - intros t Ho Ht. split; [done|]. rewrite Hbt. split; [done|by apply Hgave].
Qed.

Lemma verify_inv es a s s' :
  run es = Some s → run_inv es s → verify_answered a s = Some s' → run_inv (es ++ [VerifyAnswer a]) s'.
Proof.
  intros Hr [Hok (Ha & Hst)]. unfold verify_answered. destruct (phase s) as [| |t|] eqn:Hp; try done.
  unfold state_ok in Hok. rewrite Hp in Hok. destruct Hok as (Hv & Hl & Ht & Hc).
  destruct (verified_spec t a s) as [E1 E2]. destruct (verified t a s) as [valid s1]. cbn [fst snd] in E1, E2. intros [= <-].
  assert (token s1 = Some t ∧ available (localStorage s1) = available stored
    ∧ (entry (localStorage s1) = entry (localStorage s) ∨ entry (localStorage s1) = None ∧ rejects a = true)
    ∧ isValid s1 = false) as (Ht1 & Ha1 & He1 & Hv1).
  { rewrite E2. destruct (rejects a); [|by split_and!; try left]. destruct (clear_storage t s) as [C1 C2].
    destruct (clear_fields t s) as (F1 & F2 & _). split_and!; [congruence|congruence|tauto|congruence]. }
  assert (storage_ok (es ++ [VerifyAnswer a]) s1) as Hs1.
  { split; [done|]. destruct He1 as [He1|[He1 Hrej]].
    - rewrite He1, Ht1, <-Ht. by apply (storage_ok_snoc es (VerifyAnswer a) s).
    - right. right. split; [done|]. exists t. split; [done|]. by apply (asked_now _ _ s). }
  destruct valid; (split; [|exact Hs1]); unfold state_ok; cbn [phase].
  - left. split_and!; [done..|]. exists t. split_and!; [done|by apply credential_snoc|]. by apply (asked_now _ _ s).
  - right. by split_and!; [..|eexists].
Qed.

Lemma manager_inv es s : phase s = ready → run_inv es s → run_inv (es ++ [ManagerInit]) (manager_init s).
Proof.
  intros Hp [Hok Hst]. pose proof (storage_ok_snoc es ManagerInit s Hst) as Hst'. unfold state_ok in Hok. rewrite Hp in Hok.
  unfold manager_init. destruct Hok as [(Hv & Hl & Hf & t & Ht & Hc & Hasked)|(Hv & Hl & Hb & Hf)].
  - rewrite Hv, Ht. cbn [truthy_opt]. pose proof (credential_snoc es ManagerInit t Hc) as Hc'. destruct Hc as [Htt _]. rewrite Htt, bool_decide_false by done. cbn [orb negb]. split; [|exact Hst']. unfold state_ok. rewrite Hp. left.
    split_and!; [done..|]. exists t. split_and!; [done|exact Hc'|]. by apply asked_snoc.
  - rewrite Hv, orb_true_r. split; [|exact Hst']. unfold state_ok.
    assert (phase (disableControls s) = ready) as -> by exact Hp. right. by split_and!.
Qed.

Lemma run_ok es s : run es = Some s → run_inv es s.
Proof.
  revert s. induction es as [|e es IH] using rev_ind; intros s; [intros [= <-]; split; [done|split; [done|by left]]|].
  rewrite run_snoc. destruct (run es) as [s0|] eqn:Hr; [|done]. cbn [mbind option_bind]. specialize (IH s0 eq_refl).
  destruct e as [|a|a|]; cbn [security_exec].
  - intros [= <-]. by apply init_inv.
  - by apply exchange_inv.
  - by apply verify_inv.
  - destruct (phase s0) eqn:Hp; try done. intros [= <-]. by apply manager_inv.
Qed.

(** An unlocked page stays so. *)
Lemma run_app es1 es2 : run (es1 ++ es2) = foldl (λ s e, s ≫= security_exec legacyToken bootstrap address_writable e) (run es1) es2.
Proof. unfold security_run. by rewrite foldl_app. Qed.

Lemma unlocked_stays es e s s' :
  run es = Some s → phase s = ready → locked s = Some false →
  security_exec legacyToken bootstrap address_writable e s = Some s' → phase s' = ready ∧ locked s' = Some false ∧ token s' = token s.
Proof.
  intros [Hok _]%run_ok Hp Hl. unfold state_ok in Hok. rewrite Hp in Hok.
  destruct Hok as [(Hv & _ & _ & t & Ht & [Htt _] & _)|(_ & Hl' & _)]; [|congruence].
  destruct e; cbn [security_exec].
  - unfold init. rewrite Hp. by intros [= <-].
  - unfold exchange_answered. by rewrite Hp.
  - unfold verify_answered. by rewrite Hp.
  - rewrite Hp. intros [= <-]. unfold manager_init. rewrite Hv, Ht. cbn [truthy_opt]. rewrite Htt, bool_decide_false by done.
    done.
Qed.

Lemma confirmed_unlocks es s t : run es = Some s → asked accepts es t → locked s = Some false.
Proof.
  intros Hr (es1 & a & es2 & s1 & -> & Hr1 & Hp1 & Ha). pose proof (run_ok es1 s1 Hr1) as [Hok _].
  change (es1 ++ VerifyAnswer a :: es2) with (es1 ++ [VerifyAnswer a] ++ es2) in Hr. rewrite app_assoc in Hr.
  assert (∃ s2, run (es1 ++ [VerifyAnswer a]) = Some s2 ∧ phase s2 = ready ∧ locked s2 = Some false) as (s2 & Hr2 & Hp2 & Hl2).
  { rewrite run_snoc, Hr1. simpl. unfold verify_answered. rewrite Hp1.
    destruct (verified_spec t a s1) as [E _]. destruct (verified t a s1) as [v s1']. simpl in E. rewrite E, Ha. by eexists. }
  clear Hr1 Hp1 Hok. revert s Hr. induction es2 as [|e es2 IH] using rev_ind; intros s Hr.
  - rewrite app_nil_r in Hr. congruence.
  - rewrite app_assoc, run_snoc in Hr. destruct (run ((es1 ++ [VerifyAnswer a]) ++ es2)) as [s3|] eqn:Hr3; [|done].
    specialize (IH s3 eq_refl).
    assert (phase s3 = ready) as Hp3.
    { apply run_ok in Hr3 as [Hok _]. unfold state_ok in Hok. destruct (phase s3); [by destruct Hok as (_ & ? & _); congruence..|done]. }
    simpl in Hr. by eapply (unlocked_stays _ e s3 s).
Qed.

(** C20: whatever the answers of the desktop and the order of events. The controls are
    unlocked exactly when the desktop, asked about the page's token, has said that it is
    valid; that token is the one the desktop handed over for the well-formed code of the
    link, or without a code the one of the link or, without either, of the storage. Once
    the start is over the controls are unlocked or locked, and locked comes with the banner
    and a reason. The stored credential stays, is replaced by the token that the desktop
    handed over for the code, or is removed because the desktop said of this page's token
    that it is not valid. *)
Theorem controls_need_a_valid_token es s :
  run es = Some s →
  (locked s = Some false ↔ ∃ t, token s = Some t ∧ credential es t ∧ asked accepts es t)
  ∧ (locked s = Some false ↔ isValid s = true)
  ∧ (phase s = ready → locked s ≠ Some false → locked s = Some true ∧ banner s = true ∧ is_Some (failureReason s))
  ∧ (entry (localStorage s) = entry stored
     ∨ (∃ t, entry (localStorage s) = Some t ∧ token s = Some t ∧ gave es t)
     ∨ entry (localStorage s) = None ∧ ∃ t, token s = Some t ∧ asked rejects es t).
Proof.
  intros Hr. pose proof (run_ok es s Hr) as [Hok [_ Hst]]. unfold state_ok in Hok. split_and!; [| | |exact Hst].
  - split; [|by intros (t & _ & _ & Ha); eapply confirmed_unlocks]. destruct (phase s).
    + destruct Hok as (_ & -> & _). done.
    + destruct Hok as (_ & -> & _). done.
    + destruct Hok as (_ & -> & _). done.
    + destruct Hok as [(_ & _ & _ & H)|(_ & -> & _)]; [by intros _|done].
  - destruct (phase s); [by destruct Hok as (-> & -> & _)..|]. destruct Hok as [(-> & -> & _)|(-> & -> & _)]; by split.
  - destruct (phase s); try done. intros _ Hl. destruct Hok as [(_ & Hl' & _)|(_ & Hl' & Hb & Hf)]; [by destruct Hl|by split_and!].
Qed.
End runs.

(** A link with a code: it is exchanged, and the token is valid. *)
Definition demo_code : string := "0123456789abcdef0123456789abcdef0123456789abcdef0123456789abcdef".
Definition demo_events : list security_event :=
  [Init; ExchangeAnswer (Answered 200 (Some (JObj [("token"%string, JStr "secret")])));
   VerifyAnswer (Answered 200 (Some (JObj [("valid"%string, JBool true)]))); ManagerInit].
Definition demo_storage : storage := {| available := true; writable := true; entry := Some "old"%string |}.
Definition demo_end : security :=
  default (page_loaded demo_storage) (security_run None (Some demo_code) true demo_storage demo_events).
End SecurityManager.

Lemma controls_need_a_valid_token_witness :
  SecurityManager.locked SecurityManager.demo_end = Some false ∧ ∃ t, SecurityManager.token SecurityManager.demo_end = Some t
    ∧ SecurityManager.gave None (Some SecurityManager.demo_code) true SecurityManager.demo_storage SecurityManager.demo_events t.
Proof.
  destruct (SecurityManager.controls_need_a_valid_token None (Some SecurityManager.demo_code) true SecurityManager.demo_storage
    SecurityManager.demo_events SecurityManager.demo_end ltac:(vm_compute; reflexivity)) as ([Ht _] & _).
  assert (SecurityManager.locked SecurityManager.demo_end = Some false) as Hl by (vm_compute; reflexivity).
  split; [exact Hl|]. destruct (Ht Hl) as (t & E & [_ Hc] & _). exists t. split; [exact E|].
  assert (SecurityManager.truthy_opt (Some SecurityManager.demo_code) = Some SecurityManager.demo_code) as Hd by (vm_compute; reflexivity).
  rewrite Hd in Hc. exact (proj2 Hc).
Defined.
