(* ===== verification/DiagnosticStorage.v ===== *)
(** * Stored diagnostic reports ([services/diagnostics/DiagnosticStorage.ts])

    A directory holds one file per transfer, written through a temporary file and pruned by
    age, number and size; the reports are listed and shared from there. The directory is a
    list of names in the order the file system reads them, each with its file. A call is the
    list of its file operations: a crash, or an operation that fails, leaves the directory
    after some of them. The text of a file is the JSON value it stands for, or no JSON at
    all (fields that are undefined are not written, and read as undefined); [text_size] is the length [JSON.stringify] gives. A call runs alone. *)

From Stdlib Require Import QArith Qcanon Sorted.
From S2P Require Import Prelude JsSort Js SelectionStore.
Open Scope Z_scope.

Module DiagnosticStorage.

(** ** Numbers in comparators *)

(** The sign of [a - b] as [sort] reads it: [NaN] counts as zero. *)
Definition diff_sign (a b : jsnumber) : comparison :=
  match a, b with
  | Num p, Num q => Qccompare p q
  | NaN, _ | _, NaN | PosInfinity, PosInfinity | NegInfinity, NegInfinity => Eq
  | PosInfinity, _ | _, NegInfinity => Gt
  | NegInfinity, _ | _, PosInfinity => Lt
  end.

(** ** What is written of a report *)

(** [field] of an object that is there; [...(x === undefined ? {} : { name: x })]. *)
Definition picked (r : jsval) (names : list string) : list (string * jsval) := (λ name, (name, field r name)) <$> names.
Definition if_defined (r : jsval) (name : string) : list (string * jsval) :=
  match field r name with JUndefined => [] | v => [(name, v)] end.
Definition is_undefined (v : jsval) : bool := match v with JUndefined => true | _ => false end.
Definition items (v : jsval) : list jsval := match v with JArr l => l | _ => [] end.
(** [a ?? b]. *)
Definition coalesce (a b : jsval) : jsval := match a with JUndefined | JNull => b | _ => a end.
(** [{ ...v }] of an object. *)
Definition spread (v : jsval) : list (string * jsval) := match v with JObj fields => fields | _ => [] end.
(** A number the types promise. *)
Definition num (v : jsval) : jsnumber := match v with JNum n => n | _ => NaN end.

(* src: services/diagnostics/DiagnosticAggregation.ts:107-146 [copyPreflightMetrics] *)
Definition preflight_metric_names : list string :=
  ["componentsConsidered"; "bypassedFiles"; "metadataUploadFiles"; "metadataFallbackFiles"; "receiverCandidateFiles";
   "localCandidateFiles"; "hashCandidateFiles"; "hashedFiles"; "hashAttemptCount"; "hashCacheHits"; "hashFailureFiles";
   "hashedBytes"; "hashedThenUploadedFiles"; "hashedThenUploadedBytes"; "receiverSkippedFiles"; "receiverSkippedBytes";
   "outgoingSkippedFiles"; "outgoingSkippedBytes"; "metadataRequestCount"; "metadataFailureCount";
   "verificationRequestCount"; "verificationFailureCount"; "verificationInconclusiveFiles"; "metadataDurationMs";
   "hashingDurationMs"; "verificationDurationMs"; "candidateResolutionDurationMs"; "totalHashWorkerDurationMs";
   "longestHashDurationMs"; "largestHashedFileBytes"; "nonCandidateFilesBlockedByHash"; "nonCandidateBytesBlockedByHash";
   "preparedBytesHeldDuringPreflight"; "temporaryBytesHeldDuringPreflight"]%string.
Definition copyPreflightMetrics (metrics : jsval) : list (string * jsval) := picked metrics preflight_metric_names.

(* src: services/diagnostics/DiagnosticAggregation.ts:148-158 [copyUploadTiming] *)
Definition copyUploadTiming (timing : jsval) : jsval :=
  JObj (picked timing ["measuredFiles"; "fileReadDurationMs"; "httpRequestDurationMs"; "interChunkGapDurationMs";
    "serverWriteDurationMs"; "serverFinalizeDurationMs"; "maxServerFinalizeDurationMs"]%string).

(* src: services/diagnostics/DiagnosticAggregation.ts:160-171 [copyWindowPreflight] *)
Definition copyWindowPreflight (preflight : jsval) : jsval :=
  JObj (copyPreflightMetrics preflight ++ picked preflight ["allUploadWorkersIdleDuringPreflightMs"; "queueDepthAtStart";
    "queueDepthAtEnd"; "activeUploadWorkersAtStart"; "activeUploadWorkersAtEnd"]%string).

(** *** Samples of windows *)

Definition MAX_PREFLIGHT_WINDOW_SAMPLES : nat := 64.

Definition windowIndex (w : jsval) : jsnumber := num (field w "windowIndex").

(** The comparator of [take]: negative for [left] before [right]. *)
(* src: services/diagnostics/DiagnosticAggregation.ts:188-188 [selectPreflightWindowSamples] *)
Definition sample_before (score : jsval → jsnumber) (left right : jsval) : bool :=
  match diff_sign (score right) (score left) with
  | Lt => true
  | Gt => false
  | Eq => match diff_sign (windowIndex left) (windowIndex right) with Lt => true | _ => false end
  end.

(** A map from window indices, in the order of insertion. *)
Definition samples := list (jsnumber * jsval).
Definition set_sample (i : jsnumber) (w : jsval) (m : samples) : samples :=
  if bool_decide (i ∈ m.*1) then (λ e : jsnumber * jsval, if bool_decide (e.1 = i) then (i, w) else e) <$> m else m ++ [(i, w)].

(* src: services/diagnostics/DiagnosticAggregation.ts:189-192 [selectPreflightWindowSamples] *)
Fixpoint take_loop (windows : list jsval) (selected : samples) : samples :=
  match windows with
  | [] => selected
  | w :: rest =>
      if (MAX_PREFLIGHT_WINDOW_SAMPLES <=? length selected)%nat then selected
      else take_loop rest (set_sample (windowIndex w) w selected)
  end.

(* src: services/diagnostics/DiagnosticAggregation.ts:183-193 [selectPreflightWindowSamples] *)
Definition take_samples (eligible : list jsval) (count : nat) (score : jsval → jsnumber) (selected : samples) : samples :=
  take_loop (take count (js_sort (sample_before score) eligible)) selected.

(* src: services/diagnostics/DiagnosticAggregation.ts:173-182 [selectPreflightWindowSamples] *)
Definition eligible_windows (windows : list jsval) : list jsval :=
  filter (λ w, is_undefined (field w "preflight") || is_undefined (field w "uploadTiming") = false) windows.

(* src: services/diagnostics/DiagnosticAggregation.ts:194-197 [selectPreflightWindowSamples] *)
Definition selected_samples (windows : list jsval) : samples :=
  let eligible := eligible_windows windows in
  let preflight name w := num (field (field w "preflight") name) in
  let s := take_samples eligible 24 (λ w, num (field w "preflightDurationMs")) [] in
  let s := take_samples eligible 16 (preflight "allUploadWorkersIdleDuringPreflightMs"%string) s in
  let s := take_samples eligible 16 (preflight "temporaryBytesHeldDuringPreflight"%string) s in
  take_samples eligible 8 (λ w, num (field (field w "uploadTiming") "maxServerFinalizeDurationMs")) s.

(* src: services/diagnostics/DiagnosticAggregation.ts:200-217 [selectPreflightWindowSamples] *)
Definition window_sample (w : jsval) : jsval :=
  JObj (picked w ["windowIndex"; "preparationDurationMs"; "preflightDurationMs"; "plannedUploadBytes";
      "uploadCapacityWaitDurationMs"; "uploadCapacityWaitCount"; "startedElapsedMs"]%string
    ++ if_defined w "readyElapsedMs" ++ if_defined w "enqueueCompletedElapsedMs" ++ if_defined w "firstUploadStartedElapsedMs"
    ++ [("preflight", copyWindowPreflight (field w "preflight")); ("uploadTiming", copyUploadTiming (field w "uploadTiming"))]%string).

(* src: services/diagnostics/DiagnosticAggregation.ts:198-218 [selectPreflightWindowSamples] *)
Definition selectPreflightWindowSamples (windows : list jsval) : list jsval :=
  window_sample <$>
    js_sort (λ left right, match diff_sign (windowIndex left) (windowIndex right) with Lt => true | _ => false end)
      (selected_samples windows).*2.

(** *** The allow list *)

(* src: services/diagnostics/DiagnosticStorage.ts:112-143 [allowListedReport] *)
Definition allowed_window (w : jsval) : jsval :=
  JObj (picked w ["windowIndex"; "status"; "selectedCount"; "preparedCount"; "failedCount"; "discoveredBytes";
      "selectedMediaBytes"; "additionalComponentsBytes"; "selectedMediaFiles"; "additionalComponentsFiles";
      "plannedUploadBytes"; "preflightSkippedFiles"; "preflightSkippedBytes"; "appleFilenameCount"; "fallbackFilenameCount";
      "startedElapsedMs"]%string
    ++ if_defined w "readyElapsedMs" ++ if_defined w "enqueueCompletedElapsedMs"
    ++ picked w ["uploadCapacityWaitDurationMs"; "uploadCapacityWaitCount"; "preparationDurationMs"; "filenameDurationMs";
      "preflightDurationMs"]%string
    ++ if_defined w "firstUploadStartedElapsedMs").

(* src: services/diagnostics/DiagnosticStorage.ts:95-109 [allowListedReport] *)
Definition allowed_preflight (p : jsval) : jsval :=
  JObj (copyPreflightMetrics p ++ picked p ["windowCount"; "totalWindowDurationMs"; "maxWindowDurationMs"; "windowsWithHashing";
    "windowsWithBlockedNonCandidates"; "windowsWithAllUploadWorkersIdle"; "allUploadWorkersIdleDuringPreflightMs";
    "maxPreparedBytesHeldDuringPreflight"; "maxTemporaryBytesHeldDuringPreflight"]%string).

Definition map_items (f : jsval → jsval) (v : jsval) : jsval := JArr (f <$> items v).

(* src: services/diagnostics/DiagnosticStorage.ts:30-161 [allowListedReport] *)
Definition allowListedReport (report : jsval) : jsval :=
  let preparationMode := coalesce (field report "preparationMode") (JStr "prepare-first") in
  JObj ([("schemaVersion"%string, JNum 6)]
    ++ picked report ["sessionRef"; "appVersion"; "environment"; "transport"]%string
    ++ [("requestedPreparationMode", coalesce (field report "requestedPreparationMode") preparationMode);
        ("preparationMode", preparationMode)]%string
    ++ if_defined report "automaticPreparationReason"
    ++ picked report ["includeAdditionalMediaComponents"; "startedAt"; "updatedAt"]%string
    ++ if_defined report "completedAt" ++ if_defined report "sessionDurationMs"
    ++ if_defined report "firstUploadStartedElapsedMs" ++ if_defined report "firstAcknowledgementElapsedMs"
    ++ if_defined report "preparationCompletedElapsedMs" ++ if_defined report "uploadPhaseDurationMs"
    ++ picked report ["completionStatus"; "selectedAssets"; "preparedAssets"; "expandedFiles"; "selectedFiles"; "preparedFiles";
        "uploadedFiles"; "skippedFiles"; "failedFiles"; "discoveredBytes"; "selectedMediaBytes"; "additionalComponentsBytes";
        "selectedMediaFiles"; "additionalComponentsFiles"; "plannedUploadBytes"; "acknowledgedBytes"; "skippedBytes";
        "preflightSkippedFiles"; "preflightSkippedBytes"; "serverSkippedFiles"; "serverSkippedBytes"; "retryCount";
        "averageMediaMBps"; "peakMediaMBps"; "queueMaxDepth"; "uploadCapacityWaitDurationMs"; "uploadCapacityWaitCount";
        "maxUploadCapacityWaitDurationMs"; "maxActiveUploadWorkers"; "filenameResolvedAppleFiles"; "filenameFallbackFiles";
        "peakNativeResidentMemoryBytes"]%string
    ++ [("preflight", allowed_preflight (field report "preflight"));
        ("uploadTiming", copyUploadTiming (field report "uploadTiming"));
        ("materialization", map_items (λ summary, JObj (spread summary)) (field report "materialization"));
        ("windows", map_items allowed_window (field report "windows"));
        ("preflightWindowSamples", JArr (selectPreflightWindowSamples (items (field report "windows"))));
        ("failures", map_items (λ f, JObj (picked f ["fileRef"; "stage"; "code"; "retryCount"])) (field report "failures"));
        ("failureCounts", map_items (λ f, JObj (picked f ["stage"; "code"; "count"])) (field report "failureCounts"))]%string
    ++ picked report ["omittedFailureDetails"]%string
    ++ [("thermalTransitions"%string, map_items (λ t, JObj (picked t ["state"; "elapsedMs"]%string)) (field report "thermalTransitions"))]).

(** ** The directory *)

(** The text of a file: that of a JSON value, or no JSON (a write cut short: an object's text
    is balanced only at its end). *)
Inductive content := Json (v : jsval) | NotJson.
(** [modified]: [modificationTime] in milliseconds, when it is a number. *)
Record stored := { text : content; size : Z; modified : option Z; isDirectory : bool }.
Notation directory := (list (string * stored)).

Definition MAX_REPORTS : nat := 5.
Definition MAX_TOTAL_BYTES : Z := 5 * 1024 * 1024.
Definition MAX_AGE_MS : Z := 7 * 24 * 60 * 60 * 1000.

(** [[a-z0-9-]] under [/i]. *)
Definition ref_char (c : Ascii.ascii) : bool :=
  let n := Ascii.N_of_ascii (ascii_lower c) in
  ((97 <=? n) && (n <=? 122) || (48 <=? n) && (n <=? 57) || (n =? 45))%N.

(* src: services/diagnostics/DiagnosticStorage.ts:23-28 [reportPath] *)
Definition valid_ref (sessionRef : string) : bool :=
  string_forallb ref_char sessionRef && (1 <=? string_length sessionRef)%nat && (string_length sessionRef <=? 64)%nat.
Definition report_name (sessionRef : string) : string := "transfer-" +:+ sessionRef +:+ ".json".

Fixpoint strip_prefix (p s : string) : option string :=
  match p, s with
  | EmptyString, _ => Some s
  | String a p, String b s => if bool_decide (a = b) then strip_prefix p s else None
  | _, _ => None
  end.
(** The longest run of [ref_char]s and the rest; the rest of a match starts with a dot. *)
Fixpoint span_ref (s : string) : string * string :=
  match s with
  | String c s' => if ref_char c then let (run, rest) := span_ref s' in (String c run, rest) else (EmptyString, s)
  | EmptyString => (EmptyString, EmptyString)
  end.
Definition matches_name (suffix name : string) : bool :=
  match strip_prefix "transfer-" (toLowerCase name) with
  | Some rest => let (run, tail) := span_ref rest in truthy run && bool_decide (tail = suffix)
  | None => false
  end.
(** [/^transfer-[a-z0-9-]+\.json$/i] and [/^transfer-[a-z0-9-]+\.json\.tmp$/i]. *)
(* src: services/diagnostics/DiagnosticStorage.ts:172-173 [pruneReports] *)
Definition is_report (name : string) : bool := matches_name ".json" name.
(* src: services/diagnostics/DiagnosticStorage.ts:168-169 [pruneReports] *)
Definition is_temporary (name : string) : bool := matches_name ".json.tmp" name.

Inductive file_op :=
  | DeleteFile (name : string)
  | WriteFile (name : string) (v : jsval)
  | MoveFile (from to : string).

Section storage.
Context (text_size : jsval → Z).

Definition written (now : Z) (v : jsval) : stored :=
  {| text := Json v; size := text_size v; modified := Some now; isDirectory := false |}.

(** [deleteAsync] is idempotent; a moved file keeps its time. *)
Definition run_op (now : Z) (d : directory) (op : file_op) : directory :=
  match op with
  | DeleteFile name => map_delete name d
  | WriteFile name v => map_set name (written now v) d
  | MoveFile from to =>
      match map_get from d with Some f => map_set to f (map_delete from d) | None => d end
  end.
Definition run_ops (now : Z) (ops : list file_op) (d : directory) : directory := foldl (run_op now) d ops.

(** A write cut short. *)
Definition torn (op : file_op) (d : directory) (size now : Z) : directory :=
  match op with
  | WriteFile name _ => map_set name {| text := NotJson; size := size; modified := Some now; isDirectory := false |} d
  | _ => d
  end.

(** The directories a crash or a failing operation leaves behind. *)
Inductive interrupted (now : Z) : list file_op → directory → directory → Prop :=
  | stops_here ops d : interrupted now ops d d
  | tears op ops d n : interrupted now (op :: ops) d (torn op d n now)
  | goes_on op ops d d' : interrupted now ops (run_op now d op) d' → interrupted now (op :: ops) d d'.

(** *** Pruning *)

(* src: services/diagnostics/DiagnosticStorage.ts:174-184 [pruneReports] *)
Record report_file := { rf_name : string; rf_size : Z; rf_modifiedAt : Z }.

(* src: services/diagnostics/DiagnosticStorage.ts:175-183 [pruneReports] *)
Definition info_of (e : string * stored) : report_file :=
  {| rf_name := e.1; rf_size := if isDirectory e.2 then 0 else size e.2; rf_modifiedAt := default 0 (modified e.2) |}.

(* src: services/diagnostics/DiagnosticStorage.ts:185-185 [pruneReports] *)
Definition report_files (d : directory) : list report_file :=
  js_sort (higher_first rf_modifiedAt) (info_of <$> filter (λ e, is_report e.1 = true) d).

Definition expired (now : Z) (r : report_file) : bool := (0 <? rf_modifiedAt r) && (MAX_AGE_MS <? now - rf_modifiedAt r).

(** What the loop deletes. *)
(* src: services/diagnostics/DiagnosticStorage.ts:186-197 [pruneReports] *)
Fixpoint prune_loop (now : Z) (index : nat) (retainedBytes : Z) (reports : list report_file) : list string :=
  match reports with
  | [] => []
  | report :: rest =>
      let overCount := (MAX_REPORTS <=? index)%nat in
      let overBytes := MAX_TOTAL_BYTES <? retainedBytes + rf_size report in
      if expired now report || overCount || overBytes
      then rf_name report :: prune_loop now (S index) retainedBytes rest
      else prune_loop now (S index) (retainedBytes + rf_size report) rest
  end.

(** [deleteAsync] of the temporary files first: they are no reports. *)
(* src: services/diagnostics/DiagnosticStorage.ts:164-198 [pruneReports] *)
Definition prune_ops (now : Z) (d : directory) : list file_op :=
  DeleteFile <$> (filter (λ name, is_temporary name = true) d.*1 ++ prune_loop now 0 0 (report_files d)).
(* src: services/diagnostics/DiagnosticStorage.ts:164-198 [pruneReports] *)
Definition pruneReports (now : Z) (d : directory) : directory := run_ops now (prune_ops now d) d.

(** *** Writing a report *)

(* src: services/diagnostics/DiagnosticStorage.ts:205-211 [persistDiagnosticReport] *)
Definition replace_ops (destination : string) (sanitizedReport : jsval) : list file_op :=
  let temporary := destination +:+ ".tmp" in
  [DeleteFile temporary; WriteFile temporary sanitizedReport; DeleteFile destination; MoveFile temporary destination].

(** All operations of a call; [None]: it throws before the first. *)
(* src: services/diagnostics/DiagnosticStorage.ts:200-213 [persistDiagnosticReport] *)
Definition persist_ops (now : Z) (report : jsval) (d : directory) : option (list file_op) :=
  let sanitizedReport := allowListedReport report in
  match field sanitizedReport "sessionRef" with
  | JStr sessionRef =>
      if valid_ref sessionRef then
        let ops := replace_ops (report_name sessionRef) sanitizedReport in
        Some (ops ++ prune_ops now (run_ops now ops d))
      else None
  | _ => None
  end.
Definition persistDiagnosticReport (now : Z) (report : jsval) (d : directory) : option directory :=
  (λ ops, run_ops now ops d) <$> persist_ops now report d.

(** *** Listing and sharing *)

Definition directory_path (documentDirectory : option string) : string := default EmptyString documentDirectory +:+ "lmt-diagnostics".

Inductive environment := production | test.
Inductive completion := running | completed | mixed | cancelled | fatal.
Definition environment_of (v : jsval) : option environment := str_literal [("production", production); ("test", test)]%string v.
Definition completion_of (v : jsval) : option completion :=
  str_literal [("running", running); ("completed", completed); ("mixed", mixed); ("cancelled", cancelled); ("fatal", fatal)]%string v.

(** [DiagnosticReportSummary] with [modifiedAt], the path by its name. *)
(* src: services/diagnostics/DiagnosticTypes.ts:173-182 [DiagnosticReportSummary] *)
Record report_summary := {
  rs_name : string;
  rs_schemaVersion : jsnumber;
  rs_startedAt : jsnumber;
  rs_completedAt : option jsnumber;
  rs_completionStatus : completion;
  rs_selectedAssets : jsnumber;
  rs_selectedFiles : jsnumber;
  rs_environment : environment;
  rs_modifiedAt : Z }.

(** [None]: the file is skipped. *)
(* src: services/diagnostics/DiagnosticStorage.ts:222-261 [listDiagnosticReports] *)
Definition summary_of (e : string * stored) : option report_summary :=
  match text e.2 with
  | NotJson => None
  | Json parsed =>
      match field parsed "startedAt", field parsed "selectedFiles",
            environment_of (field parsed "environment"), completion_of (field parsed "completionStatus") with
      | JNum startedAt, JNum selectedFiles, Some environment, Some completionStatus =>
          Some {| rs_name := e.1;
                  rs_schemaVersion := match field parsed "schemaVersion" with JNum n => n | _ => 0 end;
                  rs_startedAt := startedAt;
                  rs_completedAt := opt_num (field parsed "completedAt");
                  rs_completionStatus := completionStatus;
                  rs_selectedAssets := match field parsed "selectedAssets" with JNum n => n | _ => selectedFiles end;
                  rs_selectedFiles := selectedFiles;
                  rs_environment := environment;
                  rs_modifiedAt := default 0 (modified e.2) |}
      | _, _, _, _ => None
      end
  end.

(* src: services/diagnostics/DiagnosticStorage.ts:263-264 [listDiagnosticReports] *)
Definition summary_before (left right : report_summary) : bool :=
  match diff_sign (rs_startedAt right) (rs_startedAt left) with
  | Lt => true
  | Gt => false
  | Eq => rs_modifiedAt right <? rs_modifiedAt left
  end.

(* src: services/diagnostics/DiagnosticStorage.ts:219-265 [listDiagnosticReports] *)
Definition summaries (d : directory) : list report_summary :=
  take MAX_REPORTS (js_sort summary_before (omap summary_of (filter (λ e, is_report e.1 = true) d))).

(** With the directory the call leaves behind. *)
(* src: services/diagnostics/DiagnosticStorage.ts:215-266 [listDiagnosticReports] *)
Definition listDiagnosticReports (now : Z) (d : directory) : directory * list report_summary :=
  let d := pruneReports now d in (d, summaries d).

(* src: services/diagnostics/DiagnosticStorage.ts:268-271 [latestDiagnosticReportPath] *)
Definition latestDiagnosticReportPath (now : Z) (d : directory) : directory * option string :=
  let '(d, reports) := listDiagnosticReports now d in (d, rs_name <$> head reports).

(** What is shared, when anything is. *)
(* src: services/diagnostics/DiagnosticStorage.ts:273-281 [exportDiagnosticReport] *)
Definition exportDiagnosticReport (now : Z) (name : string) (d : directory) : directory * option string :=
  let '(d, reports) := listDiagnosticReports now d in
  (d, if bool_decide (name ∈ rs_name <$> reports) then Some name else None).

(* src: services/diagnostics/DiagnosticStorage.ts:283-287 [exportLatestDiagnosticReport] *)
Definition exportLatestDiagnosticReport (now : Z) (d : directory) : directory * option string :=
  let '(d, path) := latestDiagnosticReportPath now d in
  match path with
  | Some path => if truthy path then exportDiagnosticReport now path d else (d, None)
  | None => (d, None)
  end.

(** The value shared as one file, which is deleted again. *)
(* src: services/diagnostics/DiagnosticStorage.ts:289-312 [exportAllDiagnosticReports] *)
Definition exportAllDiagnosticReports (now : Z) (exportRoot : option string) (d : directory) : directory * option jsval :=
  let '(d, reports) := listDiagnosticReports now d in
  if bool_decide (reports = []) || negb (truthy (default EmptyString exportRoot)) then (d, None) else
  let body r := match text <$> map_get (rs_name r) d with Some (Json v) => v | _ => JUndefined end in
  (d, Some (JObj [("schemaVersion", JNum 1); ("exportedAt", JNum now); ("reports", JArr (body <$> reports))]%string)).
End storage.
End DiagnosticStorage.
