(* ===== verification/DiagnosticPruning.v ===== *)
(** * What stored reports survive

    The theorems about [DiagnosticStorage]: pruning keeps the newest reports within its
    limits, and writing a report never leaves a torn one. *)

From Stdlib Require Import QArith Qcanon Sorted.
From S2P Require Import Prelude JsSort Js SelectionStore DiagnosticStorage.
Import DiagnosticStorage.
Open Scope Z_scope.

#[export] Instance report_file_eq_dec : EqDecision report_file.
Proof. solve_decision. Defined.

(** ** Fields of objects built from names *)

Lemma lookup_field_app a b name :
  lookup_field (a ++ b) name = match lookup_field b name with JUndefined => lookup_field a name | later => later end.
Proof.
  induction a as [|[k v] a IH]; [simpl; by destruct (lookup_field b name)|]. simpl. rewrite IH. by destruct (lookup_field b name).
Qed.

Lemma lookup_picked r names name : lookup_field (picked r names) name = if bool_decide (name ∈ names) then field r name else JUndefined.
Proof.
  induction names as [|n names IH]; [done|]. unfold picked in *. rewrite fmap_cons. cbn [lookup_field]. rewrite IH.
  destruct (decide (name ∈ names)) as [Hin|Hin].
  - rewrite (bool_decide_true (name ∈ names)), (bool_decide_true (name ∈ n :: names)) by (done || by right).
    destruct (field r name) eqn:E; try done. clear IH. case_bool_decide as Hn; [congruence|done].
  - rewrite (bool_decide_false (name ∈ names)) by done.
    destruct (decide (n = name)) as [->|Hne]; [rewrite !bool_decide_true; (done || left)|].
    rewrite !bool_decide_false; [done|by rewrite elem_of_cons; intros [?|?]|done].
Qed.

Lemma lookup_if_defined r n name : lookup_field (if_defined r n) name = if bool_decide (n = name) then field r n else JUndefined.
Proof. unfold if_defined. destruct (field r n) eqn:E; simpl; by destruct (bool_decide (n = name)). Qed.

(** Computes the tests of names, which are literals. *)
Ltac literal_tests :=
  repeat match goal with |- context [bool_decide ?P] => let b := eval vm_compute in (bool_decide P) in change (bool_decide P) with b end.

(** ** Deleting files *)

Section operations.
Context (text_size : jsval → Z).

Lemma run_deletes now names d :
  run_ops text_size now (DeleteFile <$> names) d = filter (λ e, e.1 ∉ names) d.
Proof.
  revert d. induction names as [|name names IH]; intros d.
  - transitivity d; [done|]. induction d as [|e d IH]; [done|]. rewrite filter_cons, decide_True by apply not_elem_of_nil. by rewrite <-IH.
  - change (run_ops text_size now (DeleteFile <$> names) (map_delete name d) = filter (λ e, e.1 ∉ name :: names) d).
    rewrite IH. unfold map_delete. rewrite list_filter_filter. apply list_filter_iff.
    intros e. rewrite not_elem_of_cons. tauto.
Qed.

Lemma run_ops_app now a b d : run_ops text_size now (a ++ b) d = run_ops text_size now b (run_ops text_size now a d).
Proof. apply foldl_app. Qed.

(** ** The loop *)

Fixpoint keep_loop (now : Z) (index : nat) (retained : Z) (reports : list report_file) : list report_file :=
  match reports with
  | [] => []
  | r :: rest =>
      if expired now r || (MAX_REPORTS <=? index)%nat || (MAX_TOTAL_BYTES <? retained + rf_size r)
      then keep_loop now (S index) retained rest else r :: keep_loop now (S index) (retained + rf_size r) rest
  end.

Lemma keep_sublist now i ret l : keep_loop now i ret l `sublist_of` l.
Proof. revert i ret. induction l as [|r l IH]; intros i ret; simpl; [constructor|]. destruct (_ || _); by constructor. Qed.

Lemma keep_elem now i ret l r : r ∈ keep_loop now i ret l → r ∈ l.
Proof. intros H. by apply (elem_of_submseteq _ _ _ H), sublist_submseteq, keep_sublist. Qed.

Lemma keep_app now i ret l1 l2 :
  keep_loop now i ret (l1 ++ l2) =
  keep_loop now i ret l1 ++ keep_loop now (i + length l1) (ret + sumZ rf_size (keep_loop now i ret l1)) l2.
Proof.
  revert i ret. induction l1 as [|r l1 IH]; intros i ret; simpl; [by rewrite Nat.add_0_r, Z.add_0_r|].
  rewrite Nat.add_succ_r, <-Nat.add_succ_l. destruct (_ || _); rewrite IH; [done|]. by rewrite sumZ_cons, Z.add_assoc.
Qed.

Lemma keep_full now i ret l : (MAX_REPORTS <= i)%nat → keep_loop now i ret l = [].
Proof.
  revert i ret. induction l as [|r l IH]; intros i ret Hi; cbn [keep_loop]; [done|]. rewrite IH by lia.
  by rewrite (proj2 (Nat.leb_le _ _) Hi), orb_true_r.
Qed.

Lemma keep_length now i ret l : (i <= MAX_REPORTS → i + length (keep_loop now i ret l) <= MAX_REPORTS)%nat.
Proof.
  revert i ret. induction l as [|r l IH]; intros i ret Hi; cbn [keep_loop]; [simpl; lia|].
  destruct (Nat.leb_spec MAX_REPORTS i) as [Hle|Hlt].
  - rewrite orb_true_r, keep_full by lia. simpl. by rewrite Nat.add_0_r.
  - destruct (_ || _); [specialize (IH (S i) ret ltac:(lia)); lia|]. cbn [length].
    specialize (IH (S i) (ret + rf_size r) ltac:(lia)). lia.
Qed.

Lemma keep_within now i ret l :
  ret <= MAX_TOTAL_BYTES → ret + sumZ rf_size (keep_loop now i ret l) <= MAX_TOTAL_BYTES.
Proof.
  revert i ret. induction l as [|r l IH]; intros i ret Hr; cbn [keep_loop]; [rewrite sumZ_nil; lia|].
  destruct (Z.ltb_spec MAX_TOTAL_BYTES (ret + rf_size r)); [rewrite orb_true_r; by apply IH|].
  destruct (_ || _); [by apply IH|]. rewrite sumZ_cons. specialize (IH (S i) (ret + rf_size r) ltac:(done)). lia.
Qed.

Lemma keep_fresh now i ret l : Forall (λ r, expired now r = false) (keep_loop now i ret l).
Proof.
  revert i ret. induction l as [|r l IH]; intros i ret; cbn [keep_loop]; [constructor|].
  destruct (expired now r) eqn:E; [apply IH|]. destruct (_ || _); [apply IH|]. by constructor.
Qed.

(** Kept reports are kept again. *)
Lemma keep_again now i j ret l : (j <= i)%nat → keep_loop now j ret (keep_loop now i ret l) = keep_loop now i ret l.
Proof.
  revert i j ret. induction l as [|r l IH]; intros i j ret Hj; cbn [keep_loop]; [done|].
  destruct (expired now r) eqn:E1; [apply IH; lia|]. destruct (Nat.leb_spec MAX_REPORTS i); [apply IH; lia|].
  destruct (Z.ltb_spec MAX_TOTAL_BYTES (ret + rf_size r)); [apply IH; lia|]. cbn [orb keep_loop]. rewrite E1.
  destruct (Nat.leb_spec MAX_REPORTS j); [lia|]. destruct (Z.ltb_spec MAX_TOTAL_BYTES (ret + rf_size r)); [lia|]. cbn [orb].
  f_equal. apply IH. lia.
Qed.

(** What the code deletes is what is not kept. *)
Lemma prune_loop_names now i ret l name :
  NoDup (rf_name <$> l) → name ∈ rf_name <$> l →
  name ∈ prune_loop now i ret l ↔ name ∉ rf_name <$> keep_loop now i ret l.
Proof.
  revert i ret. induction l as [|r l IH]; intros i ret Hnd Hin; [by apply elem_of_nil in Hin|].
  rewrite fmap_cons in Hnd. apply NoDup_cons in Hnd as [Hr Hnd]. cbn [prune_loop keep_loop].
  assert (∀ j b, rf_name r ∉ rf_name <$> keep_loop now j b l) as Hk.
  { intros j b H. apply Hr. apply list_elem_of_fmap in H as (r' & -> & H). apply list_elem_of_fmap_2.
    apply (elem_of_submseteq _ _ _ H), sublist_submseteq, keep_sublist. }
  assert (∀ j b, name ∈ prune_loop now j b l → name ∈ rf_name <$> l) as Hp.
  { clear. induction l as [|r l IH]; intros j b; simpl; [done|]. destruct (_ || _); [|by right; eapply IH].
    rewrite !elem_of_cons. intros [->|H]; [by left|right; by eapply IH]. }
  rewrite fmap_cons in Hin. apply elem_of_cons in Hin as [->|Hin].
  - destruct (_ || _); [split; [intros _; apply Hk|intros _; by left]|].
    rewrite fmap_cons, elem_of_cons. split; [intros H%Hp; by destruct Hr|intros H; by destruct H; left].
  - assert (name ≠ rf_name r) as Hne by (by intros ->). specialize (IH) as IH'.
    destruct (_ || _); [rewrite elem_of_cons, IH by done; naive_solver|].
    rewrite fmap_cons, elem_of_cons, IH by done. naive_solver.
Qed.

Lemma keep_filter `{EqDecision B} (f : report_file → B) (kept l : list report_file) :
  NoDup (f <$> l) → kept `sublist_of` l → filter (λ r, f r ∈ f <$> kept) l = kept.
Proof.
  intros Hnd Hs. induction Hs as [|r l1 l2 Hs IH|r l1 l2 Hs IH]; [done| |]; rewrite fmap_cons in Hnd; apply NoDup_cons in Hnd as [Hr Hnd].
  - rewrite filter_cons, decide_True by (rewrite fmap_cons; left). f_equal. etrans; [|exact (IH Hnd)]. apply filter_iff_in.
    intros r' Hin. rewrite fmap_cons, elem_of_cons. split; [|by right]. intros [E|]; [|done].
    destruct Hr. rewrite <-E. by apply list_elem_of_fmap_2.
  - rewrite filter_cons, decide_False; [by apply IH|]. intros H. apply Hr. apply list_elem_of_fmap in H as (r' & -> & H).
    apply list_elem_of_fmap_2, (elem_of_submseteq _ _ _ H), sublist_submseteq, Hs.
Qed.

Lemma keep_filter_self (kept l : list report_file) : NoDup l → kept `sublist_of` l → filter (λ r, r ∈ kept) l = kept.
Proof. intros Hl Hs. pose proof (keep_filter id kept l) as H. rewrite !list_fmap_id in H. by apply H. Qed.

(** ** Pruning a directory *)

Definition kept_reports (now : Z) (d : directory) : list report_file := keep_loop now 0 0 (report_files d).

Lemma report_not_temporary name : is_report name = true → is_temporary name = false.
Proof.
  unfold is_report, is_temporary, matches_name. destruct (strip_prefix _ _) as [rest|]; [|done].
  destruct (span_ref rest) as [run tail]. intros [Hr ->%bool_decide_eq_true]%andb_prop. by rewrite Hr.
Qed.

Lemma report_files_perm d : report_files d ≡ₚ info_of <$> filter (λ e, is_report e.1 = true) d.
Proof. apply js_sort_perm. Qed.

Lemma report_names d : rf_name <$> (info_of <$> filter (λ e, is_report e.1 = true) d) = (filter (λ e, is_report e.1 = true) d).*1.
Proof. by rewrite <-list_fmap_compose. Qed.

Lemma report_names_NoDup d : NoDup d.*1 → NoDup (rf_name <$> report_files d).
Proof. intros Hd. rewrite report_files_perm, report_names. by apply NoDup_fmap_filter. Qed.

Lemma report_name_elem d (e : string * stored) : e ∈ d → is_report e.1 = true → e.1 ∈ rf_name <$> report_files d.
Proof. intros He Hr. rewrite report_files_perm, report_names. apply list_elem_of_fmap_2. by apply list_elem_of_filter. Qed.

Lemma prune_loop_reports now i ret d name :
  name ∈ prune_loop now i ret (report_files d) → name ∈ rf_name <$> report_files d.
Proof.
  generalize (report_files d) as l. intros l. revert i ret. induction l as [|r l IH]; intros i ret; cbn [prune_loop]; [done|].
  rewrite fmap_cons. destruct (_ || _); [|by right; eapply IH]. rewrite !elem_of_cons. intros [->|H]; [by left|right; by eapply IH].
Qed.

Lemma prune_filter now d :
  NoDup d.*1 →
  pruneReports text_size now d =
  filter (λ e, is_temporary e.1 = false ∧ (is_report e.1 = true → e.1 ∈ rf_name <$> kept_reports now d)) d.
Proof.
  intros Hd. unfold pruneReports, prune_ops. rewrite run_deletes. apply filter_iff_in. intros e He.
  rewrite not_elem_of_app, list_elem_of_filter. pose proof (report_names_NoDup d Hd) as Hnd.
  assert (e.1 ∈ d.*1) by by apply list_elem_of_fmap_2. split.
  - intros [Ht Hp]. split; [by destruct (is_temporary e.1); [destruct Ht|]|]. intros Hr.
    pose proof (prune_loop_names now 0 0 (report_files d) e.1 Hnd (report_name_elem d e He Hr)) as Hi.
    unfold kept_reports. destruct (decide (e.1 ∈ rf_name <$> keep_loop now 0 0 (report_files d))) as [|Hn]; [done|].
    destruct (Hp (proj2 Hi Hn)).
  - intros [Ht Hk]. split; [rewrite Ht; by intros []|]. intros Hin.
    pose proof (prune_loop_reports _ _ _ _ _ Hin) as Hn. apply (prune_loop_names now 0 0 _ e.1 Hnd Hn) in Hin. apply Hin, Hk.
    rewrite report_files_perm, report_names in Hn. apply list_elem_of_fmap in Hn as (e' & -> & He'). by apply list_elem_of_filter in He' as [? _].
Qed.

Lemma report_files_pruned now d : NoDup d.*1 → report_files (pruneReports text_size now d) = kept_reports now d.
Proof.
  intros Hd. rewrite prune_filter by done. unfold report_files at 1.
  transitivity (filter (λ r, rf_name r ∈ rf_name <$> kept_reports now d) (report_files d)).
  - unfold report_files. rewrite <-js_sort_filter by (apply higher_first_asym || apply higher_first_trans). f_equal.
    rewrite filter_fmap, !list_filter_filter. f_equal. apply filter_iff_in. intros e He. simpl.
    pose proof (report_not_temporary e.1). naive_solver.
  - apply keep_filter; [by apply report_names_NoDup|]. apply keep_sublist.
Qed.

Lemma kept_test now before r after d :
  NoDup d.*1 → report_files d = before ++ r :: after →
  r ∈ kept_reports now d ↔
  expired now r = false ∧ (length before < MAX_REPORTS)%nat
  ∧ sumZ rf_size (filter (λ b, b ∈ kept_reports now d) before) + rf_size r <= MAX_TOTAL_BYTES.
Proof.
  intros Hd Hl. pose proof (report_names_NoDup d Hd) as Hnd%NoDup_fmap_1. unfold kept_reports. rewrite Hl in *.
  rewrite keep_app. set (k1 := keep_loop now 0 0 before). set (k2 := keep_loop now (0 + length before) (0 + sumZ rf_size k1) (r :: after)).
  apply NoDup_app in Hnd as (Hb & Hdis & Hra). apply NoDup_cons in Hra as [Hr _].
  assert (filter (λ b, b ∈ k1 ++ k2) before = k1) as ->.
  { transitivity (filter (λ b, b ∈ k1) before); [|by apply keep_filter_self, keep_sublist].
    apply filter_iff_in. intros x Hx. rewrite elem_of_app. split; [|by left]. intros [|Hx2%keep_elem]; [done|]. by destruct (Hdis x Hx). }
  rewrite elem_of_app. assert (r ∉ k1) as Hk1 by (intros Hk%keep_elem; apply (Hdis r Hk); left).
  unfold k2. cbn [keep_loop Nat.add Z.add]. rewrite Z.add_0_l. assert (∀ i b, r ∉ keep_loop now i b after) as Hk2 by (by intros i b Hk%keep_elem).
  destruct (expired now r); [naive_solver|]. destruct (Nat.leb_spec MAX_REPORTS (length before)); [naive_solver lia|].
  destruct (Z.ltb_spec MAX_TOTAL_BYTES (sumZ rf_size k1 + rf_size r)); [naive_solver lia|]. cbn [orb].
  rewrite elem_of_cons. naive_solver lia.
Qed.

Lemma prune_again now d : NoDup d.*1 → pruneReports text_size now (pruneReports text_size now d) = pruneReports text_size now d.
Proof.
  intros Hd. assert (NoDup (pruneReports text_size now d).*1) as Hd' by (rewrite prune_filter by done; by apply NoDup_fmap_filter).
  rewrite (prune_filter now (pruneReports text_size now d)) by done.
  assert (kept_reports now (pruneReports text_size now d) = kept_reports now d) as ->
    by (unfold kept_reports at 1; rewrite report_files_pruned by done; by apply keep_again).
  rewrite (prune_filter now d) by done. rewrite list_filter_filter. apply list_filter_iff. tauto.
Qed.

Lemma prune_get now d name :
  NoDup d.*1 →
  map_get name (pruneReports text_size now d) =
  if is_temporary name || is_report name && bool_decide (name ∉ rf_name <$> kept_reports now d) then None else map_get name d.
Proof.
  intros Hd. rewrite prune_filter by done. clear. generalize (rf_name <$> kept_reports now d) as names. intros names.
  induction d as [|[k f] d IH]; [simpl; by destruct (_ || _)|]. rewrite filter_cons. cbn [fst map_get].
  destruct (decide (k = name)) as [->|Hne].
  - destruct (is_temporary name), (is_report name); cbn [orb andb].
    all: destruct (decide _) as [Hn|Hn]; try case_bool_decide; cbn [map_get]; rewrite ?decide_True, ?IH by done; naive_solver.
  - destruct (decide _); cbn [map_get]; [by rewrite decide_False by done|done].
Qed.

Lemma map_get_elem {V} (m : list (string * V)) k v : NoDup m.*1 → (k, v) ∈ m ↔ map_get k m = Some v.
Proof. intros Hm. rewrite map_get_list_to_map. by apply elem_of_list_to_map. Qed.

Lemma report_files_newest_first d : StronglySorted (λ a b, rf_modifiedAt b <= rf_modifiedAt a) (report_files d).
Proof.
  assert (StronglySorted (in_order (higher_first rf_modifiedAt)) (report_files d)) as H
    by (apply js_sort_sorted; [apply higher_first_asym|apply higher_first_trans]).
  induction H as [|a l _ IH Ha]; constructor; [done|]. eapply Forall_impl; [done|]. unfold in_order, higher_first. intros b. simpl. lia.
Qed.

(** A report newer than all others stays, if it is small enough. *)
Lemma newest_kept now d name f :
  NoDup d.*1 → is_report name = true → map_get name d = Some f → expired now (info_of (name, f)) = false →
  rf_size (info_of (name, f)) <= MAX_TOTAL_BYTES →
  (∀ e, e ∈ d → is_report e.1 = true → e.1 ≠ name → default 0 (modified e.2) < rf_modifiedAt (info_of (name, f))) →
  map_get name (pruneReports text_size now d) = Some f.
Proof.
  intros Hd Hr Hf Hx Hs Hnew. set (r := info_of (name, f)) in *.
  assert (r ∈ report_files d) as Hin.
  { rewrite report_files_perm. apply list_elem_of_fmap_2, list_elem_of_filter. split; [done|]. by apply map_get_elem. }
  assert (r ∈ kept_reports now d) as Hk.
  { pose proof (report_files_newest_first d) as Hsort. destruct (report_files d) as [|h t] eqn:Hl; [by apply elem_of_nil in Hin|].
    assert (h = r) as ->; [|apply (kept_test now [] r t d); [done|done|]; split_and!; [done|unfold MAX_REPORTS; simpl; lia|done]].
    apply elem_of_cons in Hin as [|Hin]; [done|]. inversion_clear Hsort as [|? ? _ Hh]. rewrite Forall_forall in Hh. specialize (Hh r Hin).
    assert (h ∈ report_files d) as He by (rewrite Hl; left). rewrite report_files_perm in He.
    apply list_elem_of_fmap in He as ([n g] & -> & [Hrep He]%list_elem_of_filter).
    destruct (decide (n = name)) as [->|Hne]; [apply map_get_elem in He; [|done]; rewrite Hf in He; by injection He as <-|].
    specialize (Hnew (n, g) He Hrep Hne). simpl in Hnew, Hh. lia. }
  rewrite prune_get, report_not_temporary, Hr, bool_decide_false by (done || (intros H; by apply H; apply (list_elem_of_fmap_2 rf_name) in Hk)). done.
Qed.

(** C35: pruning deletes nothing but temporary files and reports, and every temporary file.
    A report stays exactly when it is not older than seven days, fewer than five reports
    come before it, the newest first, and it fits into the five megabytes with those of
    them that stay. At most five stay, and pruning again deletes nothing. *)
Theorem prune_keeps_newest now d :
  NoDup d.*1 →
  let d' := pruneReports text_size now d in
  let kept := report_files d' in
  (∀ name, map_get name d' =
     if is_temporary name || is_report name && bool_decide (name ∉ rf_name <$> kept) then None else map_get name d)
  ∧ kept `sublist_of` report_files d ∧ StronglySorted (λ a b, rf_modifiedAt b <= rf_modifiedAt a) (report_files d)
  ∧ (∀ before r after, report_files d = before ++ r :: after →
       r ∈ kept ↔ expired now r = false ∧ (length before < 5)%nat
                  ∧ sumZ rf_size (filter (λ b, b ∈ kept) before) + rf_size r <= MAX_TOTAL_BYTES)
  ∧ (length kept <= 5)%nat ∧ sumZ rf_size kept <= MAX_TOTAL_BYTES
  ∧ pruneReports text_size now d' = d'.
Proof.
  intros Hd d' kept. assert (kept = kept_reports now d) as -> by by apply report_files_pruned. split_and!.
  - intros name. by apply prune_get.
  - apply keep_sublist.
  - apply report_files_newest_first.
  - intros before r after Hl. by apply (kept_test now before r after d).
  - apply (keep_length now 0 0). unfold MAX_REPORTS. lia.
  - apply (keep_within now 0 0). done.
  - by apply prune_again.
Qed.

(** ** Writing a report *)

Lemma allowed_ref report : field (allowListedReport report) "sessionRef" = field report "sessionRef".
Proof.
  unfold allowListedReport. cbv zeta. cbn [field]. rewrite !lookup_field_app, !lookup_picked, !lookup_if_defined. cbn [lookup_field].
  literal_tests. by destruct (field report "sessionRef").
Qed.

Lemma persist_ops_ref now report d ops :
  persist_ops text_size now report d = Some ops →
  ∃ ref, field report "sessionRef" = JStr ref ∧ valid_ref ref = true
    ∧ let first := replace_ops (report_name ref) (allowListedReport report) in
      ops = first ++ prune_ops now (run_ops text_size now first d).
Proof.
  unfold persist_ops. cbv zeta. rewrite allowed_ref. destruct (field report "sessionRef") as [| | | |ref| |]; try done.
  destruct (valid_ref ref) eqn:Hv; [|done]. intros [= <-]. by exists ref.
Qed.

Lemma span_ref_app run rest : string_forallb ref_char run = true →
  span_ref (run +:+ "." +:+ rest) = (run, "." +:+ rest)%string.
Proof. induction run as [|c run IH]; [done|]. simpl. intros [-> Hr]%andb_prop. by rewrite (IH Hr). Qed.

Lemma strip_prefix_app p s : strip_prefix p (p +:+ s) = Some s.
Proof. induction p as [|a p IH]; [by destruct s|]. simpl. by rewrite bool_decide_true. Qed.

Lemma toLowerCase_app a c : toLowerCase (a +:+ c) = toLowerCase a +:+ toLowerCase c.
Proof. induction a as [|x a IH]; [done|]. exact (f_equal (String (ascii_lower x)) IH). Qed.

Lemma ref_char_lower x : ref_char x = true → ref_char (ascii_lower x) = true.
Proof. destruct x as [[] [] [] [] [] [] [] []]; vm_compute; done. Qed.

Lemma ref_lower ref : string_forallb ref_char ref = true → string_forallb ref_char (toLowerCase ref) = true.
Proof. induction ref as [|x ref IH]; [done|]. simpl. intros [Hx Hr]%andb_prop. by rewrite (ref_char_lower x Hx), (IH Hr). Qed.

Lemma matches_ref ref suffix : valid_ref ref = true → toLowerCase suffix = suffix →
  matches_name ("." +:+ suffix) ("transfer-" +:+ ref +:+ "." +:+ suffix) = true.
Proof.
  unfold valid_ref. intros [[Hc Hl]%andb_prop _]%andb_prop Hs. unfold matches_name.
  rewrite !toLowerCase_app, Hs. change (toLowerCase "transfer-") with "transfer-". change (toLowerCase ".") with ".".
  rewrite strip_prefix_app, span_ref_app by (by apply ref_lower).
  rewrite bool_decide_true, andb_true_r by done. destruct ref; [simpl in Hl; lia|done].
Qed.

Lemma report_name_ok ref : valid_ref ref = true → is_report (report_name ref) = true.
Proof. intros Hr. by apply (matches_ref ref "json"). Qed.

Lemma append_assoc (a b c : string) : a +:+ b +:+ c = (a +:+ b) +:+ c.
Proof. induction a as [|x a IH]; [done|]. exact (f_equal (String x) IH). Qed.

Lemma temporary_name_ok ref : valid_ref ref = true → is_temporary (report_name ref +:+ ".tmp") = true.
Proof.
  intros Hr. pose proof (matches_ref ref "json.tmp" Hr eq_refl) as H. unfold is_temporary, report_name.
  by rewrite <-!append_assoc.
Qed.

Lemma prune_ops_names now d : ∃ names, prune_ops now d = DeleteFile <$> names ∧ ∀ name, name ∈ names → is_temporary name = true ∨ is_report name = true.
Proof.
  eexists. split; [done|]. intros name. rewrite elem_of_app, list_elem_of_filter. intros [[Ht _]|Hp%prune_loop_reports]; [by left|right].
  rewrite report_files_perm, report_names in Hp. apply list_elem_of_fmap in Hp as (e & -> & He). by apply list_elem_of_filter in He as [? _].
Qed.

Lemma interrupted_deletes now names d d' name :
  interrupted text_size now (DeleteFile <$> names) d d' →
  map_get name d' = map_get name d ∨ name ∈ names ∧ map_get name d' = None.
Proof.
  revert d. induction names as [|n names IH]; intros d H; inversion H; subst; try by left.
  destruct (IH _ ltac:(eassumption)) as [E|[Hin E]]; [|by right; split; [right|]].
  simpl in E. rewrite map_get_delete in E. destruct (decide (name = n)) as [->|]; [|by left]. right. split; [left|done].
Qed.

(** What a reader of reports finds under a name: the old file, nothing, or the new report. *)
Definition whole (report : jsval) (now : Z) (ref : string) (d d' : directory) : Prop :=
  ∀ name, is_temporary name = false →
    map_get name d' = map_get name d ∨ is_report name = true ∧ map_get name d' = None
    ∨ name = report_name ref ∧ map_get name d' = Some (written text_size now (allowListedReport report)).

Lemma interrupted_app now a b d d' :
  interrupted text_size now (a ++ b) d d' →
  interrupted text_size now a d d' ∨ interrupted text_size now b (run_ops text_size now a d) d'.
Proof.
  revert d. induction a as [|op a IH]; intros d H; [by right|]. inversion H; subst; [left; constructor|left; constructor|].
  destruct (IH _ ltac:(eassumption)); [left; by constructor|by right].
Qed.

Section replacing.
Context (now : Z) (dest : string) (report : jsval).
Hypothesis dest_report : is_report dest = true.
Hypothesis tmp_temporary : is_temporary (dest +:+ ".tmp") = true.

Lemma temporary_differs : dest +:+ ".tmp" ≠ dest.
Proof. intros E. rewrite E in tmp_temporary. by rewrite report_not_temporary in tmp_temporary. Qed.

(** The directory once the report is replaced. *)
Lemma replaced d name :
  map_get name (run_ops text_size now (replace_ops dest report) d) =
  if decide (name = dest) then Some (written text_size now report)
  else if decide (name = dest +:+ ".tmp") then None else map_get name d.
Proof.
  unfold run_ops, replace_ops. cbn [foldl run_op]. pose proof temporary_differs as Hne.
  rewrite map_get_delete, decide_False, map_get_set, decide_True by done.
  rewrite map_get_set, !map_get_delete, map_get_set, map_get_delete. by repeat case_decide.
Qed.

Lemma replacing d d' name :
  interrupted text_size now (replace_ops dest report) d d' → is_temporary name = false →
  map_get name d' = map_get name d ∨ name = dest ∧ map_get name d' = None
  ∨ name = dest ∧ map_get name d' = Some (written text_size now report).
Proof.
  intros H Hn. assert (name ≠ dest +:+ ".tmp") as Hne by (intros ->; congruence). pose proof temporary_differs as Hdt.
  assert (∀ d0, map_get name d0 = map_get name d → map_get name (map_delete dest d0) = map_get name d
    ∨ name = dest ∧ map_get name (map_delete dest d0) = None) as Hdel.
  { intros d0 E. rewrite map_get_delete. case_decide; [right; by subst|by left]. }
  unfold replace_ops in H. inversion H as [| |? ? ? ? H1]; subst; [by left|by left|]. cbn [run_op] in H1.
  assert (map_get name (map_delete (dest +:+ ".tmp") d) = map_get name d) as E1 by (by rewrite map_get_delete, decide_False).
  inversion H1 as [| |? ? ? ? H2]; subst; [by left|left; simpl; by rewrite map_get_set, decide_False|]. cbn [run_op] in H2.
  set (d2 := map_set _ _ _) in *. assert (map_get name d2 = map_get name d) as E2 by (unfold d2; by rewrite map_get_set, decide_False).
  inversion H2 as [| |? ? ? ? H3]; subst; [by left|by left|]. cbn [run_op] in H3.
  inversion H3 as [| |? ? ? ? H4]; subst; [naive_solver|naive_solver|]. inversion H4; subst.
  cbn [run_op]. unfold d2. rewrite map_get_delete, decide_False, map_get_set, decide_True by done. fold d2.
  rewrite map_get_set, !map_get_delete. case_decide; [right; right; by subst|]. rewrite decide_False by done. by left.
Qed.
End replacing.

Lemma replaced_NoDup now dest report d : NoDup d.*1 → NoDup (run_ops text_size now (replace_ops dest report) d).*1.
Proof.
  intros Hd. unfold run_ops, replace_ops. cbn [foldl run_op].
  assert (NoDup (map_delete dest (map_set (dest +:+ ".tmp") (written text_size now report) (map_delete (dest +:+ ".tmp") d))).*1) as H
    by (apply map_delete_NoDup, map_set_NoDup, map_delete_NoDup, Hd).
  destruct (map_get _ _); [|done]. by apply map_set_NoDup, map_delete_NoDup.
Qed.

(** C36: wherever writing a report is interrupted, by a crash in the middle of an operation
    too, no report is torn: whatever is no temporary file is as it was, deleted if it is a
    report, or the whole new report under its name. When nothing interrupts it, the new
    report is there, if it is newer than the others and not above five megabytes. *)
Theorem persist_never_tears now report d ops :
  persist_ops text_size now report d = Some ops → NoDup d.*1 →
  ∃ ref, field report "sessionRef" = JStr ref
    ∧ (∀ d', interrupted text_size now ops d d' → whole report now ref d d')
    ∧ (text_size (allowListedReport report) <= MAX_TOTAL_BYTES →
       (∀ e, e ∈ d → is_report e.1 = true → e.1 ≠ report_name ref → default 0 (modified e.2) < now) →
       map_get (report_name ref) (run_ops text_size now ops d) = Some (written text_size now (allowListedReport report))).
Proof.
  intros (ref & Href & Hv & ->)%persist_ops_ref Hd. exists ref. split; [done|].
  set (dest := report_name ref). set (new := written text_size now (allowListedReport report)).
  set (first := replace_ops dest (allowListedReport report)). cbv zeta. fold first.
  pose proof (report_name_ok ref Hv) as Hrep. pose proof (temporary_name_ok ref Hv) as Htmp. split.
  - intros d' H name Hn. apply interrupted_app in H as [H|H].
    + destruct (replacing now dest _ Hrep Htmp d d' name H Hn) as [|[[-> ?]|[-> ?]]]; [by left|by right; left|by right; right].
    + destruct (prune_ops_names now (run_ops text_size now first d)) as (names & E & Hnames). rewrite E in H.
      destruct (interrupted_deletes _ _ _ _ name H) as [E'|[Hin E']].
      * rewrite E'. unfold first. rewrite (replaced now dest _ Hrep Htmp). case_decide; [by right; right|].
        case_decide as Ht; [rewrite Ht in Hn; unfold dest in Hn; congruence|by left].
      * right. left. split; [|done]. destruct (Hnames _ Hin) as [Ht|]; [congruence|done].
  - intros Hsize Hnew. rewrite run_ops_app. set (d1 := run_ops text_size now first d). fold (pruneReports text_size now d1).
    assert (NoDup d1.*1) as Hd1 by by apply replaced_NoDup. pose proof (replaced now dest (allowListedReport report) Hrep Htmp d) as Hget.
    fold first d1 in Hget. apply newest_kept; [done|done|by rewrite Hget, decide_True| |done|].
    + unfold expired. apply andb_false_iff. right. apply Z.ltb_ge. unfold MAX_AGE_MS. simpl. lia.
    + intros [n f] He Hr Hne. apply map_get_elem in He; [|done]. rewrite Hget, decide_False in He by done.
      case_decide; [done|]. apply (Hnew (n, f)); [|done|done]. by apply map_get_elem.
Qed.

(** A report is replaced by deleting the old file before the new one takes its name. A
    crash in between leaves the whole new report, but as a temporary file only, which the
    next call to prune deletes: neither the old report nor the new one is left. *)
Lemma crash_loses_report now report d ops :
  persist_ops text_size now report d = Some ops → NoDup d.*1 →
  ∃ ref d', field report "sessionRef" = JStr ref ∧ interrupted text_size now ops d d'
    ∧ map_get (report_name ref +:+ ".tmp") d' = Some (written text_size now (allowListedReport report))
    ∧ map_get (report_name ref) d' = None
    ∧ ∀ later, let d'' := pruneReports text_size later d' in
        map_get (report_name ref) d'' = None ∧ map_get (report_name ref +:+ ".tmp") d'' = None.
Proof.
  intros (ref & Href & Hv & ->)%persist_ops_ref Hd. cbv zeta. set (dest := report_name ref). set (new := allowListedReport report).
  pose proof (report_name_ok ref Hv) as Hrep. pose proof (temporary_name_ok ref Hv) as Htmp.
  pose proof (temporary_differs dest Hrep Htmp) as Hne.
  set (d3 := map_delete dest (map_set (dest +:+ ".tmp") (written text_size now new) (map_delete (dest +:+ ".tmp") d))).
  assert (NoDup d3.*1) as Hd3 by (by apply map_delete_NoDup, map_set_NoDup, map_delete_NoDup).
  assert (map_get dest d3 = None) as Hdest by (unfold d3; by rewrite map_get_delete, decide_True).
  exists ref, d3. split_and!; [done| | |done|].
  - apply goes_on, goes_on, goes_on, stops_here.
  - unfold d3. by rewrite map_get_delete, decide_False, map_get_set, decide_True.
  - intros later. fold dest in Htmp |- *. cbv zeta. rewrite !prune_get by done.
    rewrite Hdest, Htmp. split; [by destruct (_ || _)|done].
Qed.
End operations.

(** ** What a stored report says *)

Definition keys (v : jsval) : list string := (spread v).*1.
(** All names of fields are among [names]. *)
Definition only (names : list string) (v : jsval) : Prop := Forall (λ k, k ∈ names) (keys v).

Lemma only_picked (names : list string) r (l : list string) : Forall (λ k, k ∈ names) l → Forall (λ k, k ∈ names) (picked r l).*1.
Proof.
  assert ((picked r l).*1 = l) as ->; [|done]. unfold picked. rewrite <-list_fmap_compose. apply list_fmap_id.
Qed.

Lemma only_if_defined (names : list string) r (n : string) : n ∈ names → Forall (λ k, k ∈ names) (if_defined r n).*1.
Proof. intros Hn. unfold if_defined. destruct (field r n); simpl; by repeat constructor. Qed.

(** Literal names are looked up by computation. *)
Ltac literal_names := apply (bool_decide_unpack _); vm_compute; exact I.
Ltac only_names :=
  unfold only, keys; cbn [spread]; rewrite ?fmap_app, ?Forall_app; split_and?;
  first [apply only_picked; literal_names | apply only_if_defined; literal_names | cbn [fmap list_fmap fst]; literal_names].

Definition window_keys : list string :=
  ["windowIndex"; "status"; "selectedCount"; "preparedCount"; "failedCount"; "discoveredBytes"; "selectedMediaBytes";
   "additionalComponentsBytes"; "selectedMediaFiles"; "additionalComponentsFiles"; "plannedUploadBytes"; "preflightSkippedFiles";
   "preflightSkippedBytes"; "appleFilenameCount"; "fallbackFilenameCount"; "startedElapsedMs"; "readyElapsedMs";
   "enqueueCompletedElapsedMs"; "uploadCapacityWaitDurationMs"; "uploadCapacityWaitCount"; "preparationDurationMs";
   "filenameDurationMs"; "preflightDurationMs"; "firstUploadStartedElapsedMs"]%string.

Lemma allowed_window_keys w : only window_keys (allowed_window w).
Proof. unfold allowed_window. only_names. Qed.

Definition sample_keys : list string :=
  ["windowIndex"; "preparationDurationMs"; "preflightDurationMs"; "plannedUploadBytes"; "uploadCapacityWaitDurationMs";
   "uploadCapacityWaitCount"; "startedElapsedMs"; "readyElapsedMs"; "enqueueCompletedElapsedMs"; "firstUploadStartedElapsedMs";
   "preflight"; "uploadTiming"]%string.

Lemma window_sample_keys w : only sample_keys (window_sample w).
Proof. unfold window_sample. only_names. Qed.

(** *** Samples *)

Lemma set_sample_length i w m : (length (set_sample i w m) <= S (length m))%nat.
Proof. unfold set_sample. case_bool_decide; [rewrite length_fmap; lia|rewrite length_app; simpl; lia]. Qed.

Lemma take_loop_length l m : (length m <= MAX_PREFLIGHT_WINDOW_SAMPLES → length (take_loop l m) <= MAX_PREFLIGHT_WINDOW_SAMPLES)%nat.
Proof.
  revert m. induction l as [|w l IH]; intros m Hm; cbn [take_loop]; [done|].
  destruct (Nat.leb_spec MAX_PREFLIGHT_WINDOW_SAMPLES (length m)); [done|]. apply IH.
  pose proof (set_sample_length (windowIndex w) w m). lia.
Qed.

Lemma selected_samples_length l : (length (selected_samples l) <= MAX_PREFLIGHT_WINDOW_SAMPLES)%nat.
Proof. unfold selected_samples. cbv zeta. do 4 apply take_loop_length. apply Nat.le_0_l. Qed.

Lemma samples_length l : (length (selectPreflightWindowSamples l) <= 64)%nat.
Proof.
  unfold selectPreflightWindowSamples. rewrite length_fmap, js_sort_length, length_fmap. apply selected_samples_length.
Qed.

(** Every sample is of a window with a preflight and upload timing. *)
Definition sampled (windows : list jsval) (m : samples) : Prop := ∀ e, e ∈ m → e.2 ∈ eligible_windows windows.

Lemma take_loop_sampled windows l m :
  (∀ w, w ∈ l → w ∈ eligible_windows windows) → sampled windows m → sampled windows (take_loop l m).
Proof.
  revert m. induction l as [|w l IH]; intros m Hl Hm; cbn [take_loop]; [done|]. destruct (_ <=? _)%nat; [done|].
  apply IH; [intros; apply Hl; by right|]. intros e. unfold set_sample. case_bool_decide.
  - intros (e' & -> & He')%list_elem_of_fmap. case_bool_decide; [apply Hl; left|by apply Hm].
  - rewrite elem_of_app, list_elem_of_singleton. intros [He| ->]; [by apply Hm|apply Hl; left].
Qed.

Lemma take_samples_sampled windows count score m :
  sampled windows m → sampled windows (take_samples (eligible_windows windows) count score m).
Proof.
  apply take_loop_sampled. intros w Hw. apply (elem_of_submseteq _ _ _ Hw).
  rewrite (sublist_submseteq _ _ (sublist_take _ _)). by rewrite js_sort_perm.
Qed.

Lemma samples_sampled windows s : s ∈ selectPreflightWindowSamples windows → ∃ w, w ∈ eligible_windows windows ∧ s = window_sample w.
Proof.
  unfold selectPreflightWindowSamples. rewrite js_sort_perm. intros (w & -> & (e & -> & He)%list_elem_of_fmap)%list_elem_of_fmap.
  exists e.2. split; [|done]. revert e He. change (sampled windows (selected_samples windows)).
  unfold selected_samples. cbv zeta. do 4 apply take_samples_sampled. by intros e ?%elem_of_nil.
Qed.

Definition report_keys : list string :=
  ["schemaVersion"; "sessionRef"; "appVersion"; "environment"; "transport"; "requestedPreparationMode"; "preparationMode";
   "automaticPreparationReason"; "includeAdditionalMediaComponents"; "startedAt"; "updatedAt"; "completedAt";
   "sessionDurationMs"; "firstUploadStartedElapsedMs"; "firstAcknowledgementElapsedMs"; "preparationCompletedElapsedMs";
   "uploadPhaseDurationMs"; "completionStatus"; "selectedAssets"; "preparedAssets"; "expandedFiles"; "selectedFiles";
   "preparedFiles"; "uploadedFiles"; "skippedFiles"; "failedFiles"; "discoveredBytes"; "selectedMediaBytes";
   "additionalComponentsBytes"; "selectedMediaFiles"; "additionalComponentsFiles"; "plannedUploadBytes"; "acknowledgedBytes";
   "skippedBytes"; "preflightSkippedFiles"; "preflightSkippedBytes"; "serverSkippedFiles"; "serverSkippedBytes"; "retryCount";
   "averageMediaMBps"; "peakMediaMBps"; "queueMaxDepth"; "uploadCapacityWaitDurationMs"; "uploadCapacityWaitCount";
   "maxUploadCapacityWaitDurationMs"; "maxActiveUploadWorkers"; "filenameResolvedAppleFiles"; "filenameFallbackFiles";
   "peakNativeResidentMemoryBytes"; "preflight"; "uploadTiming"; "materialization"; "windows"; "preflightWindowSamples";
   "failures"; "failureCounts"; "omittedFailureDetails"; "thermalTransitions"]%string.

(** A field of the stored report. *)
Ltac stored_field :=
  unfold allowListedReport; cbv zeta; cbn [field];
  rewrite !lookup_field_app, !lookup_picked, !lookup_if_defined; cbn [lookup_field]; literal_tests; reflexivity.

Lemma stored_windows r : field (allowListedReport r) "windows" = map_items allowed_window (field r "windows").
Proof. stored_field. Qed.
Lemma stored_samples r :
  field (allowListedReport r) "preflightWindowSamples" = JArr (selectPreflightWindowSamples (items (field r "windows"))).
Proof. stored_field. Qed.
Lemma stored_failures r :
  field (allowListedReport r) "failures" = map_items (λ f, JObj (picked f ["fileRef"; "stage"; "code"; "retryCount"]%string)) (field r "failures").
Proof. stored_field. Qed.

Lemma items_map f v x : x ∈ items (map_items f v) → ∃ y, y ∈ items v ∧ x = f y.
Proof. unfold map_items. simpl. intros (y & -> & Hy)%list_elem_of_fmap. by exists y. Qed.

(** C40: whatever else a report in memory carries, the stored one has only the fields of the
    allow list, and so have its windows, failures and samples: no name of a file. It has a
    sample of at most 64 windows, each of a window with a preflight and upload timing. *)
Theorem stored_report_is_allow_listed report :
  let s := allowListedReport report in
  only report_keys s
  ∧ (∀ w, w ∈ items (field s "windows") → only window_keys w)
  ∧ (∀ f, f ∈ items (field s "failures") → keys f = ["fileRef"; "stage"; "code"; "retryCount"]%string)
  ∧ (length (items (field s "preflightWindowSamples")) <= 64)%nat
  ∧ (∀ x, x ∈ items (field s "preflightWindowSamples") →
       only sample_keys x ∧ ∃ w, w ∈ eligible_windows (items (field report "windows")) ∧ x = window_sample w).
Proof.
  intros s. unfold s. rewrite stored_windows, stored_failures, stored_samples. split_and!.
  - unfold allowListedReport. cbv zeta. only_names.
  - intros w (y & _ & ->)%items_map. apply allowed_window_keys.
  - intros f (y & _ & ->)%items_map. done.
  - apply samples_length.
  - intros x (w & Hw & ->)%samples_sampled. split; [apply window_sample_keys|by exists w].
Qed.

(** ** A small directory *)

Module StorageDemo.
(** Every text is 100 bytes long. *)
Definition text_size (_ : jsval) : Z := 100.
Definition report : jsval := JObj [("sessionRef", JStr "c"); ("startedAt", JNum 9); ("secret", JStr "IMG_1.heic")]%string.
Definition file (size modified : Z) : stored := {| text := NotJson; size := size; modified := Some modified; isDirectory := false |}.
Definition large : Z := 3 * 1024 * 1024.
(** [b] is newer than [a]; together they are too large. *)
Definition shelf : directory :=
  [("notes.txt", file 10 0); ("transfer-a.json", file large 1000); ("transfer-b.json", file large 2000);
   ("transfer-x.json.tmp", file 10 500)]%string.

Lemma shelf_names : NoDup shelf.*1.
Proof. literal_names. Qed.

Definition ops : list file_op := default [] (persist_ops text_size 3000 report shelf).
Lemma ops_ok : persist_ops text_size 3000 report shelf = Some ops.
Proof. vm_compute. reflexivity. Qed.
End StorageDemo.

Lemma prune_keeps_newest_witness :
  (pruneReports StorageDemo.text_size 3000 StorageDemo.shelf).*1 = ["notes.txt"; "transfer-b.json"]%string
  ∧ sumZ rf_size (report_files (pruneReports StorageDemo.text_size 3000 StorageDemo.shelf)) <= MAX_TOTAL_BYTES.
Proof.
  destruct (prune_keeps_newest StorageDemo.text_size 3000 StorageDemo.shelf StorageDemo.shelf_names) as (_ & _ & _ & _ & _ & Hs & _).
  split; [vm_compute; reflexivity|exact Hs].
Defined.

Lemma persist_never_tears_witness :
  ∃ f, map_get "transfer-c.json" (run_ops StorageDemo.text_size 3000 StorageDemo.ops StorageDemo.shelf) = Some f
    ∧ text f = Json (allowListedReport StorageDemo.report).
Proof.
  destruct (persist_never_tears StorageDemo.text_size 3000 StorageDemo.report StorageDemo.shelf StorageDemo.ops
    StorageDemo.ops_ok StorageDemo.shelf_names) as (ref & Href & _ & Hdone).
  injection Href as <-. eexists. split; [apply Hdone|reflexivity].
  - unfold StorageDemo.text_size, MAX_TOTAL_BYTES. lia.
  - intros e He _ _. repeat (apply elem_of_cons in He as [->|He]; [vm_compute; reflexivity|]). by apply not_elem_of_nil in He.
Defined.

Lemma crash_loses_report_witness :
  ∃ d', interrupted StorageDemo.text_size 3000 StorageDemo.ops StorageDemo.shelf d'
    ∧ map_get "transfer-c.json" (pruneReports StorageDemo.text_size 4000 d') = None.
Proof.
  destruct (crash_loses_report StorageDemo.text_size 3000 StorageDemo.report StorageDemo.shelf StorageDemo.ops
    StorageDemo.ops_ok StorageDemo.shelf_names) as (ref & d' & Href & Hi & _ & _ & Hp).
  injection Href as <-. exists d'. split; [exact Hi|]. exact (proj1 (Hp 4000)).
Defined.
