(* ===== verification/TransferView.v ===== *)
(** * The transfer screen ([features/transfer])

    [useTransferController.ts]: the hook that starts a transfer and turns its callbacks into
    what the screen shows; [QueueNotice.ts]: the notice that the queue is waiting;
    [transferPresentation.ts]: the grouping of failures. The refs and local variables of the
    hook's effect are one record, the states given to React another: a setter writes the
    screen at once, since React applies setters in order. Timers are the times they are due.
    Thumbnails, media types and roles of a file, and the metrics hook (rates shown, elapsed
    time, ETA) are left out. *)

From Stdlib Require Import QArith Qcanon.
From S2P Require Import Prelude JsSort Js UploadTypes SelectionStore UploadSession.
Open Scope Z_scope.

(** ** [QueueNotice] *)

Module QueueNotice.
(* src: features/transfer/QueueNotice.ts:2-10 [QueueNotice] *)
Record notice := {
  isWaiting : bool;
  shown : bool;
  showTimer : option Z;
  hideTimer : option Z }.

#[export] Instance notice_eta : Eta notice := λ n, Build_notice (isWaiting n) (shown n) (showTimer n) (hideTimer n).

Definition new : notice := {| isWaiting := false; shown := false; showTimer := None; hideTimer := None |}.

Definition SHOW_DELAY_MS : Z := 1000.
Definition HIDE_DELAY_MS : Z := 750.

(* src: features/transfer/QueueNotice.ts:12-36 [update] *)
Definition update (isActive uploadStarted : bool) (now : Z) (waiting : bool) (n : notice) : notice :=
  if negb isActive then n else
  let n := n <| isWaiting := waiting |> in
  if waiting then
    let n := n <| hideTimer := None |> in
    if negb uploadStarted || shown n || bool_decide (is_Some (showTimer n)) then n
    else n <| showTimer := Some (now + SHOW_DELAY_MS) |>
  else
    let n := n <| showTimer := None |> in
    if negb (shown n) || bool_decide (is_Some (hideTimer n)) then n
    else n <| hideTimer := Some (now + HIDE_DELAY_MS) |>.

(** The notice and what [setVisible] is called with. *)
(* src: features/transfer/QueueNotice.ts:19-24 [update] *)
Definition show_fires (isActive uploadStarted : bool) (n : notice) : notice * option bool :=
  let n := n <| showTimer := None |> in
  if negb isActive || negb (isWaiting n) || negb uploadStarted then (n, None)
  else (n <| shown := true |>, Some true).

(* src: features/transfer/QueueNotice.ts:30-35 [update] *)
Definition hide_fires (isActive : bool) (n : notice) : notice * option bool :=
  let n := n <| hideTimer := None |> in
  if negb isActive || isWaiting n then (n, None) else (n <| shown := false |>, Some false).

(* src: features/transfer/QueueNotice.ts:38-42 [dispose] *)
Definition dispose (n : notice) : notice := n <| showTimer := None |> <| hideTimer := None |>.
End QueueNotice.

(** ** What the screen shows *)

(* src: features/transfer/transferPresentation.ts:7-20 [FileState] *)
Record file_state := {
  fs_id : string;
  fs_assetId : string;
  fs_filename : string;
  fs_status : FileStatus;
  fs_msg : option string;
  fs_stage : option TransferStage;
  fs_errorCode : option TransferErrorCode }.

#[export] Instance FileStatus_eq_dec : EqDecision FileStatus.
Proof. solve_decision. Defined.
#[export] Instance file_state_eq_dec : EqDecision file_state.
Proof. solve_decision. Defined.

Record tally := { t_success : Z; t_skipped : Z; t_failed : Z }.
#[export] Instance tally_eta : Eta tally := λ t, Build_tally (t_success t) (t_skipped t) (t_failed t).
#[export] Instance tally_eq_dec : EqDecision tally.
Proof. solve_decision. Defined.
Definition no_files : tally := {| t_success := 0; t_skipped := 0; t_failed := 0 |}.

Inductive screen_phase := screen_preparing | screen_checking | screen_waiting | screen_uploading.

(** A report of progress, with its optional members. *)
(* src: services/upload/types.ts:143-171 [GlobalProgress] *)
Record progress_report := {
  pr_currentAssetId : string;
  pr_bytesSent : Z;
  pr_totalBytes : Z;
  pr_acknowledgedMediaBytes : Z;
  pr_plannedUploadMediaBytes : Z;
  pr_currentMediaMBps : Qc;
  pr_status : option ProgressStatus;
  pr_preparationActivity : option PreparationActivity;
  pr_preparedFiles : option Z;
  pr_readyFiles : option Z;
  pr_preparationComplete : bool;
  pr_totalFiles : option Z;
  pr_checkedFiles : option Z;
  pr_duplicateCandidates : option Z;
  pr_duplicateCheckStage : option DuplicateCheckStage;
  pr_thermalState : option ThermalState;
  pr_preparationMode : option PreparationMode;
  pr_automaticallyStreamsLargeSelection : bool }.

(** [currentProgress]: the asset, its bytes, and one of four statuses. *)
Inductive shown_status := shown_skipped | shown_failed | shown_uploading | shown_pending.

(* src: features/transfer/useTransferController.ts:34-59 [useTransferController] *)
Record screen := {
  currentProgress : option (string * Z * Z * shown_status);
  completionExpandedFiles : option Z;              (** of [completionSummary] *)
  isFinished : bool;
  phase : screen_phase;
  hasUploadStarted : bool;
  queueCatchUpVisible : bool;
  preparedFiles : Z;
  readyFiles : Z;
  preparationComplete : bool;
  activePreparationMode : PreparationMode;
  automaticallyStreams : bool;
  totalTransferFiles : Z;
  duplicateCheck : DuplicateCheckStage * Z * Z;
  summary : tally;
  recentFiles : list file_state;
  resultList : list file_state;
  thermalState : ThermalState }.

#[export] Instance screen_eta : Eta screen := λ s,
  Build_screen (currentProgress s) (completionExpandedFiles s) (isFinished s) (phase s) (hasUploadStarted s)
    (queueCatchUpVisible s) (preparedFiles s) (readyFiles s) (preparationComplete s) (activePreparationMode s)
    (automaticallyStreams s) (totalTransferFiles s) (duplicateCheck s) (summary s) (recentFiles s) (resultList s)
    (thermalState s).

(** The refs and the variables of the effect. [alerts]: the fatal alerts shown;
    [cancels]: calls of [uploadManager.cancel]. *)
(* src: features/transfer/useTransferController.ts:60-109 [useTransferController] *)
Record view := {
  v_screen : screen;
  statusById : list (string * FileStatus);
  resultById : list (string * file_state);
  recentFilesRef : list file_state;
  summaryRef : tally;
  callbacksEnabled : bool;
  active : bool;
  finished : bool;
  pendingProgress : option progress_report;
  fileUiDirty : bool;
  uiTimer : option Z;
  actualUploadObserved : bool;
  lastUiFlushAt : Z;
  queueNotice : QueueNotice.notice;
  alerts : list string;
  cancels : Z }.

#[export] Instance view_eta : Eta view := λ v,
  Build_view (v_screen v) (statusById v) (resultById v) (recentFilesRef v) (summaryRef v) (callbacksEnabled v) (active v)
    (finished v) (pendingProgress v) (fileUiDirty v) (uiTimer v) (actualUploadObserved v) (lastUiFlushAt v)
    (queueNotice v) (alerts v) (cancels v).

Definition UI_UPDATE_INTERVAL_MS : Z := 100.
Definition MAX_RECENT_FILES : nat := 60.

Definition on_screen (f : screen → screen) (v : view) : view := v <| v_screen := f (v_screen v) |>.

Section controller.
Context (assets : list MediaAsset) (preparationMode : PreparationMode).

(* src: features/transfer/useTransferController.ts:66-69 [filenameById] *)
Definition filenameById : list (string * string) := foldl (λ m a, map_set (asset_id a) (asset_filename a) m) [] assets.

(* src: features/transfer/useTransferController.ts:102-123 [useTransferController] *)
Definition started_view (now : Z) : view :=
  {| v_screen := {| currentProgress := None; completionExpandedFiles := None; isFinished := false; phase := screen_preparing;
       hasUploadStarted := false; queueCatchUpVisible := false; preparedFiles := 0; readyFiles := 0;
       preparationComplete := false; activePreparationMode := preparationMode; automaticallyStreams := false;
       totalTransferFiles := lengthZ assets; duplicateCheck := (finding_matches, 0, 0); summary := no_files;
       recentFiles := []; resultList := []; thermalState := nominal |};
     statusById := []; resultById := []; recentFilesRef := []; summaryRef := no_files; callbacksEnabled := true;
     active := true; finished := false; pendingProgress := None; fileUiDirty := false; uiTimer := None;
     actualUploadObserved := false; lastUiFlushAt := now; queueNotice := QueueNotice.new; alerts := []; cancels := 0 |}.

Definition isActive (v : view) : bool := active v && callbacksEnabled v.

(** [updateQueueWaiting]: the notice is given the two callbacks of the effect. *)
(* src: features/transfer/useTransferController.ts:118-122 [updateQueueWaiting] *)
Definition updateQueueWaiting (now : Z) (waiting : bool) (v : view) : view :=
  v <| queueNotice := QueueNotice.update (isActive v && negb (finished v)) (actualUploadObserved v) now waiting (queueNotice v) |>.

(** The first sign of an upload. *)
(* src: features/transfer/useTransferController.ts:147-151 [applyProgress] *)
Definition observe_upload (now : Z) (v : view) : view :=
  if actualUploadObserved v then v else
  let v := on_screen (λ s, s <| hasUploadStarted := true |>) (v <| actualUploadObserved := true |>) in
  if QueueNotice.isWaiting (queueNotice v) then updateQueueWaiting now true v else v.

(** [prog.status === 'uploading' && (acknowledgedMediaBytes > 0 || currentMediaMBps > 0)]. *)
(* src: features/transfer/useTransferController.ts:144-146 [applyProgress] *)
Definition upload_started_now (p : progress_report) : bool :=
  match pr_status p with
  | Some progress_uploading =>
      (0 <? pr_acknowledgedMediaBytes p) || (if Qclt_le_dec 0 (pr_currentMediaMBps p) then true else false)
  | _ => false
  end.

(* src: features/transfer/useTransferController.ts:152-164 [applyProgress] *)
Definition shown_status_of (s : option ProgressStatus) : shown_status :=
  match s with
  | Some progress_skipped => shown_skipped
  | Some progress_failed => shown_failed
  | Some progress_uploading => shown_uploading
  | _ => shown_pending
  end.

(** Values first. *)
(* src: features/transfer/useTransferController.ts:124-143 [applyProgress] *)
Definition progress_values (p : progress_report) (s : screen) : screen :=
  let s := match pr_preparedFiles p with Some n => s <| preparedFiles := Z.max (preparedFiles s) n |> | None => s end in
  let s := match pr_readyFiles p with Some n => s <| readyFiles := Z.max (readyFiles s) n |> | None => s end in
  let s := if bool_decide (is_Some (pr_totalFiles p)) || bool_decide (is_Some (pr_readyFiles p))
           then s <| totalTransferFiles := Z.max (Z.max (totalTransferFiles s) (default 0 (pr_totalFiles p))) (default 0 (pr_readyFiles p)) |>
           else s in
  let s := if pr_preparationComplete p then s <| preparationComplete := true |> else s in
  let s := match pr_preparationMode p with Some mode => s <| activePreparationMode := mode |> | None => s end in
  let s := if pr_automaticallyStreamsLargeSelection p then s <| automaticallyStreams := true |> else s in
  match pr_thermalState p with Some t => s <| thermalState := t |> | None => s end.

Definition is_activity (a : PreparationActivity) (p : progress_report) : bool :=
  match pr_preparationActivity p, a with
  | Some activity_waiting, activity_waiting | Some activity_checking, activity_checking
  | Some activity_preparing, activity_preparing => true
  | _, _ => false
  end.
Definition has_status (s : ProgressStatus) (p : progress_report) : bool :=
  match pr_status p, s with
  | Some progress_checking, progress_checking | Some progress_preparing, progress_preparing => true
  | _, _ => false
  end.

(* src: features/transfer/useTransferController.ts:124-192 [applyProgress] *)
Definition applyProgress (now : Z) (p : progress_report) (v : view) : view :=
  let v := on_screen (progress_values p) v in
  let v := if upload_started_now p then observe_upload now v else v in
  let v := on_screen (λ s, s <| currentProgress :=
    Some (pr_currentAssetId p, pr_bytesSent p, pr_totalBytes p, shown_status_of (pr_status p)) |>) v in
  if is_activity activity_waiting p && negb (pr_preparationComplete p) then
    on_screen (λ s, s <| phase := screen_waiting |>) (updateQueueWaiting now true v)
  else
    let v := updateQueueWaiting now false v in
    if (is_activity activity_checking p || has_status progress_checking p) && negb (pr_preparationComplete p) then
      on_screen (λ s, s <| phase := screen_checking |>
        <| duplicateCheck := (default finding_matches (pr_duplicateCheckStage p), default 0 (pr_checkedFiles p),
                              default 0 (pr_duplicateCandidates p)) |>) v
    else if (is_activity activity_preparing p || has_status progress_preparing p) && negb (pr_preparationComplete p) then
      on_screen (λ s, s <| phase := screen_preparing |>
        <| preparedFiles := Z.max (preparedFiles s) (default 0 (pr_preparedFiles p)) |>) v
    else on_screen (λ s, s <| phase := screen_uploading |>) v.

(* src: features/transfer/useTransferController.ts:194-206 [flushUi] *)
Definition flushUi (now : Z) (v : view) : view :=
  if negb (isActive v) then v else
  let v := match pendingProgress v with
           | Some latest => applyProgress now latest (v <| pendingProgress := None |>)
           | None => v
           end in
  if fileUiDirty v
  then on_screen (λ s, s <| summary := summaryRef v |> <| recentFiles := recentFilesRef v |>) (v <| fileUiDirty := false |>)
  else v.

(* src: features/transfer/useTransferController.ts:208-219 [scheduleUiFlush] *)
Definition scheduleUiFlush (now : Z) (v : view) : view :=
  if negb (isActive v) || finished v || bool_decide (is_Some (uiTimer v)) then v
  else v <| uiTimer := Some (now + Z.max 0 (UI_UPDATE_INTERVAL_MS - (now - lastUiFlushAt v))) |>.

(* src: features/transfer/useTransferController.ts:211-217 [scheduleUiFlush] *)
Definition ui_timer_fires (now : Z) (v : view) : view :=
  let v := flushUi now (v <| uiTimer := None |> <| lastUiFlushAt := now |>) in
  if bool_decide (is_Some (pendingProgress v)) || fileUiDirty v then scheduleUiFlush now v else v.

(** [finish]; the answer is whether it finished now. *)
(* src: features/transfer/useTransferController.ts:221-240 [finish] *)
Definition finish_transfer (now : Z) (expandedFiles : option Z) (v : view) : view * bool :=
  if negb (isActive v) || finished v then (v, false) else
  let v := v <| finished := true |> <| uiTimer := None |> in
  let v := v <| queueNotice := QueueNotice.dispose (queueNotice v) |> in
  let v := flushUi now v in
  let v := on_screen (λ s, s <| resultList := (resultById v).*2 |>) v in
  let v := match expandedFiles with
           | Some n => on_screen (λ s, s <| completionExpandedFiles := Some n |>
                                         <| totalTransferFiles := Z.max (totalTransferFiles s) n |>) v
           | None => v
           end in
  (on_screen (λ s, s <| isFinished := true |>) v, true).

(** *** Outcomes of files *)

Definition is_terminal (s : option FileStatus) : bool :=
  match s with Some file_success | Some file_error | Some file_skipped => true | _ => false end.

(* src: features/transfer/useTransferController.ts:267-271 [updateFileStatus] *)
Definition tally_add (s : FileStatus) (t : tally) : tally :=
  {| t_success := t_success t + number_of_bool (bool_decide (s = file_success));
     t_skipped := t_skipped t + number_of_bool (bool_decide (s = file_skipped));
     t_failed := t_failed t + number_of_bool (bool_decide (s = file_error)) |}.

(** The newest first, without an older entry of the same file, at most 60. *)
(* src: features/transfer/useTransferController.ts:286-286 [updateFileStatus] *)
Definition add_recent (f : file_state) (recent : list file_state) : list file_state :=
  take MAX_RECENT_FILES (f :: filter (λ g, fs_id g ≠ fs_id f) recent).

(* src: features/transfer/useTransferController.ts:242-289 [updateFileStatus] *)
Definition updateFileStatus (now : Z) (u : FileStatusUpdate) (v : view) : view :=
  if negb (isActive v) || finished v then v else
  let v := match u_status u with file_uploading => observe_upload now v | _ => v end in
  let statusId := js_or (u_itemId u) (u_assetId u) in
  let previous := map_get statusId (statusById v) in
  let v := v <| statusById := map_set statusId (u_status u) (statusById v) |> in
  let v := match previous with
           | None => on_screen (λ s, s <| totalTransferFiles := Z.max (totalTransferFiles s) (lengthZ (statusById v)) |>) v
           | Some _ => v
           end in
  let v := if is_terminal (Some (u_status u)) && negb (is_terminal previous)
           then v <| summaryRef := tally_add (u_status u) (summaryRef v) |> else v in
  let next := {| fs_id := statusId; fs_assetId := u_assetId u;
                 fs_filename := js_or (u_transferFilename u) (js_or (default EmptyString (map_get (u_assetId u) filenameById)) (u_assetId u));
                 fs_status := u_status u; fs_msg := u_message u; fs_stage := u_stage u; fs_errorCode := u_errorCode u |} in
  scheduleUiFlush now
    (v <| resultById := map_set statusId next (resultById v) |> <| recentFilesRef := add_recent next (recentFilesRef v) |>
       <| fileUiDirty := true |>).

(** One asset of the loop. *)
(* src: features/transfer/useTransferController.ts:78-96 [markUnfinishedAsFailed] *)
Definition mark_asset (message : string) (vn : view * Z) (asset : MediaAsset) : view * Z :=
  let '(v, newlyFailed) := vn in
  if is_terminal (map_get (asset_id asset) (statusById v)) then (v, newlyFailed) else
  let next := {| fs_id := asset_id asset; fs_assetId := asset_id asset;
                 fs_filename := js_or (default EmptyString (map_get (asset_id asset) filenameById)) (asset_filename asset);
                 fs_status := file_error; fs_msg := Some message; fs_stage := None; fs_errorCode := None |} in
  (v <| statusById := map_set (asset_id asset) file_error (statusById v) |>
     <| resultById := map_set (asset_id asset) next (resultById v) |>
     <| recentFilesRef := add_recent next (recentFilesRef v) |>, newlyFailed + 1).

(* src: features/transfer/useTransferController.ts:76-100 [markUnfinishedAsFailed] *)
Definition markUnfinishedAsFailed (message : string) (v : view) : view :=
  let '(v, newlyFailed) := foldl (mark_asset message) (v, 0) assets in
  if 0 <? newlyFailed then v <| summaryRef := summaryRef v <| t_failed := t_failed (summaryRef v) + newlyFailed |> |> else v.

Definition unknownError : string := "Unknown error".
Definition unfinishedFileError : string := "Upload failed before this file completed.".

(** [error]: the message of an [Error], [None] for anything else. *)
(* src: features/transfer/useTransferController.ts:291-297 [reportFatalError] *)
Definition reportFatalError (now : Z) (error : option string) (expandedFiles : option Z) (v : view) : view :=
  if negb (isActive v) || finished v then v else
  let message := default unknownError error in
  let v := markUnfinishedAsFailed (js_or message unfinishedFileError) v in
  let '(v, done) := finish_transfer now expandedFiles (v <| fileUiDirty := true |>) in
  if done then v <| alerts := alerts v ++ [message] |> else v.

(** *** The other callbacks and the end of the effect *)

(* src: features/transfer/useTransferController.ts:303-318 [startTransfer] *)
Definition onProgress (now : Z) (p : progress_report) (v : view) : view :=
  if isActive v && negb (finished v) then
    let v := if upload_started_now p then observe_upload now v else v in
    scheduleUiFlush now (v <| pendingProgress := Some p |>)
  else v.

(* src: features/transfer/useTransferController.ts:322-324 [startTransfer] *)
Definition onThermalStateChange (t : ThermalState) (v : view) : view :=
  if isActive v && negb (finished v) then on_screen (λ s, s <| thermalState := t |>) v else v.

(* src: features/transfer/useTransferController.ts:337-346 [useTransferController] *)
Definition unmount (v : view) : view :=
  v <| active := false |> <| callbacksEnabled := false |> <| pendingProgress := None |> <| uiTimer := None |>
    <| queueNotice := QueueNotice.dispose (queueNotice v) |> <| cancels := cancels v + 1 |>.

(* src: features/transfer/useTransferController.ts:358-367 [cancelTransfer] *)
Definition cancelTransfer (v : view) : view :=
  on_screen (λ s, s <| isFinished := true |>)
    (v <| callbacksEnabled := false |> <| uiTimer := None |> <| queueNotice := QueueNotice.dispose (queueNotice v) |>
       <| cancels := cancels v + 1 |>).

(** *** Events *)

Inductive view_event :=
  | Progress (p : progress_report)
  | FileUpdate (u : FileStatusUpdate)
  | Complete (expandedFiles : option Z)
  | Fatal (error : option string) (expandedFiles : option Z)
  | Thermal (t : ThermalState)
  | UiTimer
  | ShowTimer
  | HideTimer
  | CancelTap
  | Unmount.

(** [setVisible] of a timer of the notice. *)
Definition set_visible (r : QueueNotice.notice * option bool) (v : view) : view :=
  let v := v <| queueNotice := r.1 |> in
  match r.2 with Some visible => on_screen (λ s, s <| queueCatchUpVisible := visible |>) v | None => v end.

(** [None]: the event is not possible; a timer fires when it is due, or later. *)
(* src: features/transfer/useTransferController.ts:300-334 [startTransfer] *)
Definition view_exec (now : Z) (e : view_event) (v : view) : option view :=
  let due t := match t with Some t => t <=? now | None => false end in
  match e with
  | Progress p => Some (onProgress now p v)
  | FileUpdate u => Some (updateFileStatus now u v)
  | Complete n => Some (finish_transfer now n v).1
  | Fatal error n => Some (reportFatalError now error n v)
  | Thermal t => Some (onThermalStateChange t v)
  | UiTimer => if due (uiTimer v) then Some (ui_timer_fires now v) else None
  | ShowTimer =>
      if due (QueueNotice.showTimer (queueNotice v))
      then Some (set_visible (QueueNotice.show_fires (isActive v && negb (finished v)) (actualUploadObserved v) (queueNotice v)) v)
      else None
  | HideTimer =>
      if due (QueueNotice.hideTimer (queueNotice v))
      then Some (set_visible (QueueNotice.hide_fires (isActive v && negb (finished v)) (queueNotice v)) v) else None
  | CancelTap => Some (cancelTransfer v)
  | Unmount => if active v then Some (unmount v) else None
  end.

Definition view_step (v v' : view) : Prop := ∃ now e, view_exec now e v = Some v'.

End controller.

(** ** Failures grouped for the result screen *)

(* src: features/transfer/transferPresentation.ts:22-27 [TransferFailureGroup] *)
Record failure_group := { fg_index : Z; fg_count : Z; fg_message : string; fg_samples : list string }.

#[export] Instance failure_group_eta : Eta failure_group := λ g,
  Build_failure_group (fg_index g) (fg_count g) (fg_message g) (fg_samples g).

(** [file.msg?.trim() || 'The file did not complete.'] *)
(* src: features/transfer/transferPresentation.ts:33-33 [groupFailureResults] *)
Definition failure_message (f : file_state) : string := js_or (default EmptyString (trim <$> fs_msg f)) "The file did not complete.".

(* src: features/transfer/transferPresentation.ts:31-47 [groupFailureResults] *)
Definition group_failure (groups : list (string * failure_group)) (f : file_state) : list (string * failure_group) :=
  if bool_decide (fs_status f = file_error) then
    let message := failure_message f in
    match map_get message groups with
    | Some g => map_set message (g <| fg_count := fg_count g + 1 |>
                  <| fg_samples := if (length (fg_samples g) <? 3)%nat then fg_samples g ++ [fs_filename f] else fg_samples g |>) groups
    | None => map_set message {| fg_index := lengthZ groups + 1; fg_count := 1; fg_message := message; fg_samples := [fs_filename f] |} groups
    end
  else groups.

(* src: features/transfer/transferPresentation.ts:30-46 [groupFailureResults] *)
Definition failure_groups (files : list file_state) : list (string * failure_group) := foldl group_failure [] files.
(* src: features/transfer/transferPresentation.ts:29-48 [groupFailureResults] *)
Definition groupFailureResults (files : list file_state) : list failure_group :=
  js_sort (higher_first fg_count) (failure_groups files).*2.

Inductive badge := badge_failed | badge_mixed | badge_success.

(* src: features/transfer/transferPresentation.ts:82-98 [summaryBadgePresentation] *)
Definition summaryBadge (errorCount successCount skipCount : Z) : badge :=
  if (0 <? errorCount) && (successCount =? 0) && (skipCount =? 0) then badge_failed
  else if (0 <? errorCount) || (0 <? skipCount) then badge_mixed else badge_success.
