(* ===== verification/TransferViewProperties.v ===== *)
(** * What the transfer screen shows

    [view_ok]: the invariant of the hook; the theorems: the summary and the lists are those of
    the files, no update of a file is lost, and nothing moves once the transfer is over. *)

From Stdlib Require Import QArith Qcanon Sorted.
From S2P Require Import Prelude JsSort Js UploadTypes SelectionStore UploadSession TransferView.
Open Scope Z_scope.

(** ** Maps in the order of insertion *)

Section maps.
Context {V W : Type} (f : V → W).

Definition map_values (m : list (string * V)) : list (string * W) := (λ e, (e.1, f e.2)) <$> m.

Lemma map_get_values id m : map_get id (map_values m) = f <$> map_get id m.
Proof. induction m as [|[k a] m IH]; [done|]. simpl. destruct (decide (k = id)); [done|exact IH]. Qed.

Lemma map_set_values id a m : map_set id (f a) (map_values m) = map_values (map_set id a m).
Proof.
  unfold map_set. rewrite map_get_values. destruct (map_get id m) as [b|]; simpl.
  - unfold map_values. rewrite <-!list_fmap_compose. apply list_fmap_ext. intros i [k c] _. simpl. by destruct (decide (k = id)).
  - unfold map_values. by rewrite fmap_app.
Qed.
End maps.

Section sums.
Context {V : Type} (g : V → Z).

Definition map_sum (m : list (string * V)) : Z := sumZ (λ e : string * V, g e.2) m.

Lemma map_sum_set id a m :
  NoDup m.*1 → map_sum (map_set id a m) = map_sum m - (if map_get id m is Some b then g b else 0) + g a.
Proof.
  intros Hnd. unfold map_set. destruct (map_get id m) as [b|] eqn:Hb; [|unfold map_sum; rewrite sumZ_app, sumZ_singleton; simpl; lia].
  unfold map_sum. rewrite sumZ_fmap. revert Hb. induction m as [|[k c] m IH]; [done|]. apply NoDup_cons in Hnd as [Hk Hnd].
  rewrite !sumZ_cons. simpl. destruct (decide (k = id)) as [->|Hne]; simpl.
  - intros [= ->]. rewrite (sumZ_ext _ (λ e : string * V, g e.2)); [lia|]. intros [k' c'] Hin. simpl. rewrite decide_False; [done|].
    intros ->. apply Hk, list_elem_of_fmap. by exists (id, c').
  - intros Hb. rewrite (IH Hnd Hb). lia.
Qed.
End sums.

Lemma elem_of_map_set {V} id (a : V) m k b : (k, b) ∈ map_set id a m → (k = id ∧ b = a) ∨ (k ≠ id ∧ (k, b) ∈ m).
Proof.
  unfold map_set. destruct (map_get id m) as [c|] eqn:Hc.
  - intros ([k' b'] & Heq & Hin)%list_elem_of_fmap. simpl in Heq. destruct (decide (k' = id)) as [->|Hne]; injection Heq as -> ->; [by left|by right].
  - rewrite elem_of_app, list_elem_of_singleton. intros [Hin|[= -> ->]]; [|by left]. right. split; [|done]. intros ->.
    assert (id ∈ m.*1) as Hk by (apply list_elem_of_fmap; by exists (id, b)). apply map_get_keys in Hk as [? Hk]. congruence.
Qed.

(** ** The invariant *)

Definition status_count (s : FileStatus) (m : list (string * FileStatus)) : Z := map_sum (λ t, number_of_bool (bool_decide (t = s))) m.

(** How many files ended in which way. *)
Definition tally_of (m : list (string * FileStatus)) : tally :=
  {| t_success := status_count file_success m; t_skipped := status_count file_skipped m; t_failed := status_count file_error m |}.

Lemma tally_set id s m :
  NoDup m.*1 → is_terminal (map_get id m) = false →
  tally_of (map_set id s m) = if is_terminal (Some s) then tally_add s (tally_of m) else tally_of m.
Proof.
  intros Hnd Ht. unfold tally_of, tally_add, status_count. rewrite !map_sum_set by done.
  assert (∀ t, t = file_success ∨ t = file_skipped ∨ t = file_error →
    (if map_get id m is Some b then number_of_bool (bool_decide (b = t)) else 0) = 0) as H0
    by (intros t Hs; destruct (map_get id m) as [[]|]; try done; by destruct Hs as [->|[->| ->]]).
  rewrite !H0 by auto. destruct s; simpl; f_equal; lia.
Qed.

Record files_ok (v : view) : Prop := {
  vo_status : statusById v = map_values fs_status (resultById v);
  vo_ids : ∀ k f, (k, f) ∈ resultById v → fs_id f = k;
  vo_nodup : NoDup (resultById v).*1;
  vo_tally : summaryRef v = tally_of (statusById v);
  vo_recent : NoDup (fs_id <$> recentFilesRef v) ∧ (length (recentFilesRef v) <= MAX_RECENT_FILES)%nat
    ∧ ∀ f, f ∈ recentFilesRef v → map_get (fs_id f) (resultById v) = Some f;
  vo_shown : fileUiDirty v = false → summary (v_screen v) = summaryRef v ∧ recentFiles (v_screen v) = recentFilesRef v;
  vo_finished : finished v = true → resultList (v_screen v) = (resultById v).*2 ∧ isFinished (v_screen v) = true ∧ fileUiDirty v = false }.

(** No update is lost: what is not shown yet has a timer that will show it. *)
Definition timer_ok (v : view) : Prop :=
  isActive v = true → finished v = false → fileUiDirty v = true ∨ is_Some (pendingProgress v) → is_Some (uiTimer v).

Definition view_ok (v : view) : Prop := files_ok v ∧ timer_ok v.

(** What the files and their lists consist of, and what the effect needs of its timer. *)
Definition files_of (v : view) :=
  (statusById v, resultById v, recentFilesRef v, summaryRef v, (callbacksEnabled v, active v, finished v)).
Definition shown_files (s : screen) := (summary s, recentFiles s, resultList s, isFinished s).

(** Keeps all the invariant reads, except for the schedule. *)
Definition same_files (v v' : view) : Prop :=
  files_of v' = files_of v ∧ shown_files (v_screen v') = shown_files (v_screen v) ∧ fileUiDirty v' = fileUiDirty v.

Lemma files_ok_same v v' : same_files v v' → files_ok v → files_ok v'.
Proof.
  intros (Hf & Hs & Hd) [H1 H2 H3 H4 H5 H6 H8]. unfold files_of, shown_files in *.
  assert (statusById v' = statusById v ∧ resultById v' = resultById v ∧ recentFilesRef v' = recentFilesRef v ∧ summaryRef v' = summaryRef v
    ∧ finished v' = finished v) as (E1 & E2 & E3 & E4 & E5) by (split_and!; congruence).
  assert (summary (v_screen v') = summary (v_screen v) ∧ recentFiles (v_screen v') = recentFiles (v_screen v)
    ∧ resultList (v_screen v') = resultList (v_screen v) ∧ isFinished (v_screen v') = isFinished (v_screen v)) as (G1 & G2 & G3 & G4) by (split_and!; congruence).
  split; rewrite ?E1, ?E2, ?E3, ?E4, ?E5, ?G1, ?G2, ?G3, ?G4, ?Hd; try done.
Qed.

Lemma same_files_active v v' : same_files v v' → isActive v' = isActive v ∧ finished v' = finished v.
Proof. intros (Hf & _ & _). unfold files_of in Hf. unfold isActive. split; [f_equal; congruence|congruence]. Qed.

Lemma timer_ok_same v v' : same_files v v' → uiTimer v' = uiTimer v → pendingProgress v' = pendingProgress v → timer_ok v → timer_ok v'.
Proof.
  intros Hs Ht Hp H. destruct (same_files_active v v' Hs) as [E1 E2]. destruct Hs as (_ & _ & Hd).
  unfold timer_ok. by rewrite E1, E2, Ht, Hp, Hd.
Qed.

Lemma same_files_trans v1 v2 v3 : same_files v1 v2 → same_files v2 v3 → same_files v1 v3.
Proof. intros (H1 & H2 & H3) (H4 & H5 & H6). unfold same_files. by rewrite H4, H5, H6. Qed.

Lemma observe_same now v : same_files v (observe_upload now v) ∧ uiTimer (observe_upload now v) = uiTimer v
  ∧ pendingProgress (observe_upload now v) = pendingProgress v ∧ lastUiFlushAt (observe_upload now v) = lastUiFlushAt v.
Proof. unfold observe_upload, updateQueueWaiting. destruct (actualUploadObserved v); [done|]. by destruct (QueueNotice.isWaiting _). Qed.

Lemma progress_values_files p s : shown_files (progress_values p s) = shown_files s.
Proof.
  unfold progress_values. by destruct (pr_preparedFiles p), (pr_readyFiles p), (_ || _), (pr_preparationComplete p), (pr_preparationMode p),
    (pr_automaticallyStreamsLargeSelection p), (pr_thermalState p).
Qed.

Lemma apply_same now p v : same_files v (applyProgress now p v) ∧ uiTimer (applyProgress now p v) = uiTimer v
  ∧ pendingProgress (applyProgress now p v) = pendingProgress v.
Proof.
  unfold applyProgress. set (v1 := on_screen (progress_values p) v).
  assert (same_files v v1 ∧ uiTimer v1 = uiTimer v ∧ pendingProgress v1 = pendingProgress v) as (A1 & A2 & A3)
    by (split; [split_and!; [done|apply progress_values_files|done]|done]).
  clearbody v1. set (v2 := if upload_started_now p then observe_upload now v1 else v1).
  assert (same_files v v2 ∧ uiTimer v2 = uiTimer v ∧ pendingProgress v2 = pendingProgress v) as (B1 & B2 & B3).
  { unfold v2. destruct (upload_started_now p); [|done]. destruct (observe_same now v1) as (? & -> & -> & _). split_and!; try done.
    by eapply same_files_trans. }
  clearbody v2. cbv zeta. destruct B1 as (B1 & B4 & B5).
  destruct (_ && _); [split; [split_and!; done|done]|]. destruct (_ && _); [split; [split_and!; done|done]|].
  destruct (_ && _); split; [split_and!; done|done|split_and!; done|done].
Qed.

Lemma schedule_ok now v : files_ok v → view_ok (scheduleUiFlush now v).
Proof.
  intros Hv. assert (same_files v (scheduleUiFlush now v)) as Hs by (unfold scheduleUiFlush; by destruct (_ || _)).
  split; [by apply (files_ok_same v)|]. destruct (same_files_active _ _ Hs) as [E1 E2]. intros Ha Hf _. rewrite E1 in Ha. rewrite E2 in Hf.
  unfold scheduleUiFlush. rewrite Ha, Hf. simpl. case_bool_decide; [done|by eexists].
Qed.

(** Showing everything there is to show. *)
Lemma flush_ok now v :
  files_ok v → (finished v = true → fileUiDirty v = false) →
  files_ok (flushUi now v)
  ∧ (isActive v = true → fileUiDirty (flushUi now v) = false ∧ pendingProgress (flushUi now v) = None)
  ∧ files_of (flushUi now v) = files_of v ∧ uiTimer (flushUi now v) = uiTimer v.
Proof.
  intros Hv Hfin. unfold flushUi. destruct (isActive v) eqn:Ha; simpl; [|done].
  set (v1 := match pendingProgress v with Some latest => _ | None => v end).
  assert (same_files v v1 ∧ uiTimer v1 = uiTimer v ∧ pendingProgress v1 = None) as (A1 & A2 & A3).
  { unfold v1. destruct (pendingProgress v) as [p|] eqn:Hp; [|done].
    destruct (apply_same now p (v <| pendingProgress := None |>)) as (H1 & -> & ->). done. }
  clearbody v1. pose proof (files_ok_same v v1 A1 Hv) as Hv1. destruct A1 as (B1 & B2 & B3).
  destruct (fileUiDirty v1) eqn:Hd; [|split_and!; done].
  split; [|split_and!; done]. destruct Hv1 as [H1 H2 H3 H4 H5 H6 H8]. split; try done.
  intros Hf. assert (finished v1 = true) as Hf1 by done. destruct (H8 Hf1) as (? & ? & ?). congruence.
Qed.

Lemma recent_cons next recent (m : list (string * file_state)) id :
  fs_id next = id → NoDup (fs_id <$> recent) → (∀ f, f ∈ recent → map_get (fs_id f) m = Some f) →
  NoDup (fs_id <$> add_recent next recent) ∧ (length (add_recent next recent) <= MAX_RECENT_FILES)%nat
  ∧ ∀ f, f ∈ add_recent next recent → map_get (fs_id f) (map_set id next m) = Some f.
Proof.
  intros <- Hnd Hall. unfold add_recent. set (l := next :: filter (λ g, fs_id g ≠ fs_id next) recent).
  assert (NoDup (fs_id <$> l)) as Hl.
  { unfold l. rewrite fmap_cons. constructor.
    - intros (g & Heq & Hg)%list_elem_of_fmap. by apply list_elem_of_filter in Hg as [? _].
    - clear - Hnd. induction recent as [|g recent IH]; [constructor|]. rewrite fmap_cons in Hnd. apply NoDup_cons in Hnd as [Hg Hnd].
      rewrite filter_cons. destruct (decide _); [|by apply IH]. rewrite fmap_cons. constructor; [|by apply IH].
      intros (h & Heq & Hh)%list_elem_of_fmap. apply list_elem_of_filter in Hh as [_ Hh]. apply Hg, list_elem_of_fmap. by exists h. }
  split_and!.
  - rewrite <-(take_drop MAX_RECENT_FILES l), fmap_app in Hl. by apply NoDup_app in Hl as [? _].
  - rewrite length_take. lia.
  - intros f Hf. rewrite map_get_set. assert (f ∈ l) as Hin.
    { rewrite <-(take_drop MAX_RECENT_FILES l). apply elem_of_app. by left. }
    apply elem_of_cons in Hin as [->|Hin]; [by rewrite decide_True|]. apply list_elem_of_filter in Hin as [Hne Hin].
    rewrite decide_False by done. by apply Hall.
Qed.

(** A file gets a new state: what the refs become. *)
Lemma files_ok_set v v' id next :
  files_ok v → fs_id next = id → is_terminal (map_get id (statusById v)) = false →
  statusById v' = map_set id (fs_status next) (statusById v) → resultById v' = map_set id next (resultById v) →
  recentFilesRef v' = add_recent next (recentFilesRef v) →
  summaryRef v' = (if is_terminal (Some (fs_status next)) then tally_add (fs_status next) (summaryRef v) else summaryRef v) →
  fileUiDirty v' = true → finished v' = false → files_ok v'.
Proof.
  intros [H1 H2 H3 H4 (H5a & H5b & H5c) H6 H8] Hid Ht E1 E2 E3 E4 Ed Ef.
  assert (NoDup (statusById v).*1) as Hnd by (rewrite H1; unfold map_values; by rewrite <-list_fmap_compose).
  split.
  - rewrite E1, E2, H1. apply map_set_values.
  - intros k f. rewrite E2. intros [[-> ->]|[_ Hin]]%elem_of_map_set; [done|by apply H2].
  - rewrite E2. by apply map_set_NoDup.
  - rewrite E4, E1, tally_set, H4 by done. done.
  - rewrite E2, E3. by apply recent_cons.
  - by rewrite Ed.
  - by rewrite Ef.
Qed.

(** ** Every event *)

Section events.
Context (assets : list MediaAsset) (preparationMode : PreparationMode).

(** What the transfer promises of its callbacks: no update of a file after the one that ended
    it (its outcomes are counted once, [Accounting]). *)
Definition update_ok (v : view) (e : view_event) : Prop :=
  match e with FileUpdate u => is_terminal (map_get (js_or (u_itemId u) (u_assetId u)) (statusById v)) = false | _ => True end.

Lemma view_ok_same v v' :
  same_files v v' → uiTimer v' = uiTimer v → pendingProgress v' = pendingProgress v → view_ok v → view_ok v'.
Proof. intros Hs Ht Hp [H1 H2]. split; [by apply (files_ok_same v)|by apply (timer_ok_same v)]. Qed.

Lemma update_view_ok now u v : update_ok v (FileUpdate u) → view_ok v → view_ok (updateFileStatus assets now u v).
Proof.
  intros Hu Hv. unfold updateFileStatus. destruct (negb (isActive v) || finished v) eqn:Hn; [done|].
  apply orb_false_iff in Hn as [_ Hfin]. destruct Hv as [Hv _]. cbv zeta.
  set (v1 := match u_status u with file_uploading => observe_upload now v | _ => v end).
  assert (same_files v v1) as Hs1 by (unfold v1; destruct (u_status u); try done; apply observe_same).
  pose proof (files_ok_same v v1 Hs1 Hv) as Hv1. destruct (same_files_active _ _ Hs1) as [_ Hf1]. rewrite Hfin in Hf1.
  assert (statusById v1 = statusById v) as Est by (destruct Hs1 as (Hf & _); unfold files_of in Hf; congruence).
  clearbody v1. simpl in Hu. rewrite <-Est in *. set (id := js_or (u_itemId u) (u_assetId u)) in *.
  match goal with |- context [add_recent ?x _] => set (next := x) end. set (v2 := v1 <| statusById := _ |>).
  set (v3 := match map_get id (statusById v1) with None => _ | Some _ => v2 end).
  assert (same_files v2 v3) as Hs3 by (unfold v3; by destruct (map_get id (statusById v1))). clearbody v3. destruct Hs3 as (Hf3 & _ & _).
  unfold files_of in Hf3. rewrite Hu, andb_true_r.
  set (v4 := if is_terminal (Some (u_status u)) then _ else v3).
  assert (statusById v4 = statusById v2 ∧ resultById v4 = resultById v1 ∧ recentFilesRef v4 = recentFilesRef v1 ∧ finished v4 = finished v1
    ∧ summaryRef v4 = if is_terminal (Some (u_status u)) then tally_add (u_status u) (summaryRef v1) else summaryRef v1) as (E1 & E2 & E3 & E4 & E5).
  { assert (statusById v3 = statusById v2 ∧ resultById v3 = resultById v2 ∧ recentFilesRef v3 = recentFilesRef v2 ∧ finished v3 = finished v2
      ∧ summaryRef v3 = summaryRef v2) as (G1 & G2 & G3 & G4 & G5) by (split_and!; congruence).
    unfold v4. destruct (is_terminal (Some (u_status u))); simpl; rewrite ?G1, ?G2, ?G3, ?G4, ?G5; done. }
  clearbody v4. apply schedule_ok. apply (files_ok_set v1 _ id next); try done; simpl; by rewrite ?E1, ?E2, ?E3, ?E4, ?E5.
Qed.

Lemma finish_files_ok now n v : files_ok v → isActive v = true → finished v = false → view_ok (finish_transfer now n v).1.
Proof.
  intros Hv Ha Hfin. unfold finish_transfer. rewrite Ha, Hfin. simpl negb. cbv iota beta. simpl orb.
  set (v1 := v <| finished := true |> <| uiTimer := None |> <| queueNotice := _ |>).
  (* the flush of a finished transfer shows all, and then the results follow *)
  set (v2 := flushUi now v1).
  assert (statusById v2 = statusById v ∧ resultById v2 = resultById v ∧ recentFilesRef v2 = recentFilesRef v ∧ summaryRef v2 = summaryRef v
    ∧ fileUiDirty v2 = false ∧ summary (v_screen v2) = summaryRef v ∧ recentFiles (v_screen v2) = recentFilesRef v ∧ finished v2 = true) as (E1 & E2 & E3 & E4 & E5 & E6 & E7 & E8).
  { unfold v2, flushUi. assert (isActive v1 = true) as -> by done. simpl.
    set (v3 := match pendingProgress v with Some latest => _ | None => v1 end).
    assert (same_files v1 v3) as (Hf & Hs & Hd).
    { unfold v3. destruct (pendingProgress v) as [p|]; [|done]. destruct (apply_same now p (v1 <| pendingProgress := None |>)) as (H & _). exact H. }
    clearbody v3. unfold files_of, shown_files in Hf, Hs. pose proof (vo_shown _ Hv) as Hshown.
    assert (statusById v3 = statusById v ∧ resultById v3 = resultById v ∧ recentFilesRef v3 = recentFilesRef v ∧ summaryRef v3 = summaryRef v
      ∧ finished v3 = true ∧ summary (v_screen v3) = summary (v_screen v) ∧ recentFiles (v_screen v3) = recentFiles (v_screen v) ∧ fileUiDirty v3 = fileUiDirty v)
      as (G1 & G2 & G3 & G4 & G5 & G6 & G7 & G8) by (split_and!; simpl in *; congruence).
    destruct (fileUiDirty v3) eqn:Hd3; simpl; [split_and!; done|]. destruct Hshown as [S1 S2]; [congruence|]. split_and!; congruence. }
  clearbody v2. cbv zeta. destruct Hv as [H1 H2 H3 H4 H5 H6 H8].
  assert (∀ v', files_of v' = files_of v2 → fileUiDirty v' = false → summary (v_screen v') = summary (v_screen v2) →
    recentFiles (v_screen v') = recentFiles (v_screen v2) → resultList (v_screen v') = (resultById v2).*2 → isFinished (v_screen v') = true → view_ok v') as Hgoal.
  { intros v' Gf Gd Gs Gr Gl Gi. unfold files_of in Gf.
    assert (statusById v' = statusById v ∧ resultById v' = resultById v ∧ recentFilesRef v' = recentFilesRef v ∧ summaryRef v' = summaryRef v ∧ finished v' = true)
      as (F1 & F2 & F3 & F4 & F5) by (split_and!; congruence).
    split; [|intros _ Hf; congruence]. split; rewrite ?F1, ?F2, ?F3, ?F4; try done.
    - intros _. split; congruence.
    - intros _. split_and!; [congruence|done|done]. }
  destruct n; apply Hgoal; try done.
Qed.

(** The loop over the assets counts its failures only after it. *)
Definition with_marks (n : Z) (v : view) : view :=
  v <| fileUiDirty := true |> <| summaryRef := summaryRef v <| t_failed := t_failed (summaryRef v) + n |> |>.

Definition flags (v : view) := (callbacksEnabled v, active v, finished v).

Lemma mark_asset_ok message a v n v' n' :
  finished v = false → files_ok (with_marks n v) → mark_asset assets message (v, n) a = (v', n') →
  files_ok (with_marks n' v') ∧ flags v' = flags v ∧ n <= n'.
Proof.
  intros Hf Hv. unfold mark_asset. destruct (is_terminal (map_get (asset_id a) (statusById v))) eqn:Ht; [intros [= <- <-]; by split_and!|].
  match goal with |- context [add_recent ?x _] => set (next := x) end. intros [= <- <-]. split_and!; [|done|lia].
  apply (files_ok_set (with_marks n v) _ (asset_id a) next); try done.
  unfold with_marks, tally_add, next. simpl. rewrite !Z.add_0_r, Z.add_assoc. by destruct (summaryRef v).
Qed.

Lemma mark_assets_ok message l v n v' n' :
  finished v = false → files_ok (with_marks n v) → foldl (mark_asset assets message) (v, n) l = (v', n') →
  files_ok (with_marks n' v') ∧ flags v' = flags v ∧ n <= n'.
Proof.
  revert v n. induction l as [|a l IH]; intros v n Hf Hv; cbn [foldl]; [intros [= <- <-]; by split_and!|].
  destruct (mark_asset assets message (v, n) a) as [v1 n1] eqn:H1. apply mark_asset_ok in H1 as (Hv1 & Hf1 & Hn1); [|done..].
  intros H. unfold flags in *. apply IH in H as (Hv' & Hf' & Hn'); [|congruence|done]. split_and!; [done|congruence|lia].
Qed.

Lemma mark_assets_flags message l v n v' n' : foldl (mark_asset assets message) (v, n) l = (v', n') → flags v' = flags v.
Proof.
  revert v n. induction l as [|a l IH]; intros v n; cbn [foldl]; [by intros [= <- <-]|]. unfold mark_asset at 2.
  destruct (is_terminal _); [apply IH|]. intros H%IH. exact H.
Qed.

Lemma fatal_view_ok now error n v : view_ok v → view_ok (reportFatalError assets now error n v).
Proof.
  intros [Hv Ht]. unfold reportFatalError. destruct (negb (isActive v) || finished v) eqn:Hn; [by split|].
  apply orb_false_iff in Hn as [Ha%negb_false_iff Hfin]. cbv zeta.
  set (message := js_or (default unknownError error) unfinishedFileError). unfold markUnfinishedAsFailed.
  destruct (foldl (mark_asset assets message) (v, 0) assets) as [v1 n1] eqn:Hfold.
  apply mark_assets_ok in Hfold as (Hv1 & Hf1 & Hn1); [|done|].
  2:{ unfold with_marks. destruct Hv as [H1 H2 H3 H4 H5 H6 H8]. split; try done; [simpl; rewrite Z.add_0_r; by destruct (summaryRef v)|].
      simpl. congruence. }
  set (v2 := (if 0 <? n1 then v1 <| summaryRef := _ |> else v1) <| fileUiDirty := true |>).
  assert (files_ok v2) as Hv2.
  { unfold v2. destruct (Z.ltb_spec 0 n1) as [Hpos|Hz]; [exact Hv1|]. assert (n1 = 0) as -> by lia.
    apply (files_ok_same (with_marks 0 v1)); [|done]. split_and!; [|done|done]. unfold with_marks, files_of. simpl.
    rewrite Z.add_0_r. by destruct (summaryRef v1). }
  assert (flags v2 = flags v) as Hf2 by (unfold v2; by destruct (0 <? n1)). unfold flags in Hf2.
  assert (isActive v2 = true ∧ finished v2 = false) as [Ha2 Hfin2] by (unfold isActive in *; split; [rewrite <-Ha; f_equal|]; congruence).
  pose proof (finish_files_ok now n v2 Hv2 Ha2 Hfin2) as Hv3. destruct (finish_transfer now n v2) as [v3 done]. simpl in Hv3.
  destruct done; [|done]. by apply (view_ok_same v3).
Qed.
Lemma view_exec_ok now e v v' : update_ok v e → view_ok v → view_exec assets now e v = Some v' → view_ok v'.
Proof.
  intros Hu Hv. destruct e as [p|u|n|error n|t| | | | |]; cbn [view_exec].
  - intros [= <-]. unfold onProgress. destruct (isActive v && negb (finished v)) eqn:Ha; [|done].
    set (v1 := if upload_started_now p then observe_upload now v else v).
    assert (same_files v v1) as Hs by (unfold v1; destruct (upload_started_now p); [apply observe_same|done]).
    apply schedule_ok. apply (files_ok_same v1); [done|]. apply (files_ok_same v); [done|apply Hv].
  - intros [= <-]. by apply update_view_ok.
  - intros [= <-]. destruct (negb (isActive v) || finished v) eqn:Hn; [unfold finish_transfer; by rewrite Hn|].
    apply orb_false_iff in Hn as [Ha%negb_false_iff Hfin]. apply finish_files_ok; [apply Hv|done|done].
  - intros [= <-]. by apply fatal_view_ok.
  - intros [= <-]. unfold onThermalStateChange. destruct (_ && _); [|done]. by apply (view_ok_same v).
  - destruct (match uiTimer v with Some t => t <=? now | None => false end); [|done]. intros [= <-]. unfold ui_timer_fires.
    set (v1 := v <| uiTimer := None |> <| lastUiFlushAt := now |>). destruct Hv as [Hv _].
    assert (files_ok v1) as Hv1 by (by apply (files_ok_same v)).
    destruct (flush_ok now v1 Hv1) as (H1 & H2 & H3 & H4); [intros Hf; by apply (vo_finished _ Hv1)|].
    cbv zeta. destruct (_ || _) eqn:Hd; [by apply schedule_ok|]. split; [done|]. intros _ _ [Hdirty|Hp].
    + rewrite Hdirty, orb_true_r in Hd. done.
    + rewrite bool_decide_eq_true_2 in Hd by done. done.
  - destruct (match QueueNotice.showTimer _ with Some t => t <=? now | None => false end); [|done]. intros [= <-].
    unfold set_visible. destruct (QueueNotice.show_fires _ _ _) as [q [b|]]; by apply (view_ok_same v).
  - destruct (match QueueNotice.hideTimer _ with Some t => t <=? now | None => false end); [|done]. intros [= <-].
    unfold set_visible. destruct (QueueNotice.hide_fires _ _) as [q [b|]]; by apply (view_ok_same v).
  - intros [= <-]. destruct Hv as [[H1 H2 H3 H4 H5 H6 H8] _]. split.
    + split; try done. intros Hf. destruct (H8 Hf) as (? & ? & ?). by split_and!.
    + intros Ha. unfold isActive, cancelTransfer in Ha. simpl in Ha. by rewrite andb_false_r in Ha.
  - destruct (active v); [|done]. intros [= <-]. destruct Hv as [[H1 H2 H3 H4 H5 H6 H8] _]. split; [by split|]. done.
Qed.

(** The screen after any callbacks of a transfer, timers and taps. *)
Inductive view_reachable : view → Prop :=
  | view_starts now : view_reachable (started_view assets preparationMode now)
  | view_goes_on now e v v' : view_reachable v → update_ok v e → view_exec assets now e v = Some v' → view_reachable v'.

Lemma view_reachable_ok v : view_reachable v → view_ok v.
Proof.
  induction 1 as [now|now e v v' _ IH Hu Hx]; [|by apply (view_exec_ok now e v)].
  split; [|intros _ _ [?|[]]; done]. split; try done; [by intros k f ?%elem_of_nil|constructor|].
  split_and!; [constructor|unfold MAX_RECENT_FILES; simpl; lia|by intros f ?%elem_of_nil].
Qed.

(** ** Theorems *)

(** The files in their last states, and how many of them ended in each way. *)
Definition files_shown (v : view) : list file_state := (resultById v).*2.
Definition count_status (s : FileStatus) (files : list file_state) : Z :=
  sumZ (λ f, number_of_bool (bool_decide (fs_status f = s))) files.

Lemma status_count_files v s : files_ok v → status_count s (statusById v) = count_status s (files_shown v).
Proof.
  intros Hv. rewrite (vo_status _ Hv). unfold status_count, map_sum, map_values, count_status, files_shown. by rewrite !sumZ_fmap.
Qed.

(** C18: whatever order callbacks, timers and taps come in. Each file has one state, under its
    own id, and the summary kept for it counts the files that ended in each way. Nothing is
    lost on the way to the screen: while anything is not shown, the timer that shows it is
    set, and when nothing is left the screen has the summary and the most recent files, at
    most 60, none twice and each in its current state. When the transfer is over the screen
    lists every file. *)
Theorem screen_shows_every_file v :
  view_reachable v →
  NoDup (fs_id <$> files_shown v)
  ∧ summaryRef v = {| t_success := count_status file_success (files_shown v);
                      t_skipped := count_status file_skipped (files_shown v);
                      t_failed := count_status file_error (files_shown v) |}
  ∧ (isActive v = true → finished v = false → fileUiDirty v = true ∨ is_Some (pendingProgress v) → is_Some (uiTimer v))
  ∧ (fileUiDirty v = false →
       summary (v_screen v) = summaryRef v ∧ NoDup (fs_id <$> recentFiles (v_screen v))
       ∧ (length (recentFiles (v_screen v)) <= 60)%nat ∧ ∀ f, f ∈ recentFiles (v_screen v) → f ∈ files_shown v)
  ∧ (finished v = true → resultList (v_screen v) = files_shown v ∧ summary (v_screen v) = summaryRef v ∧ isFinished (v_screen v) = true).
Proof.
  intros [Hv Ht]%view_reachable_ok. pose proof Hv as [H1 H2 H3 H4 (H5 & H6 & H7) H8 H9]. split_and!.
  - assert (fs_id <$> files_shown v = (resultById v).*1) as ->; [|done]. unfold files_shown. rewrite <-list_fmap_compose.
    apply list_fmap_ext. intros i [k f] Hi. simpl. apply (H2 k f). by eapply list_elem_of_lookup_2.
  - rewrite H4. unfold tally_of. by rewrite !status_count_files.
  - exact Ht.
  - intros Hd. destruct (H8 Hd) as [-> ->]. split_and!; try done. intros f Hf. specialize (H7 f Hf).
    assert (∃ k, (k, f) ∈ resultById v) as [k Hk].
    { clear - H7. induction (resultById v) as [|[k g] m IH]; [done|]. simpl in H7. destruct (decide (k = fs_id f)) as [_|_].
      - injection H7 as ->. exists k. left.
      - destruct (IH H7) as [k' ?]. exists k'. by right. }
    unfold files_shown. apply list_elem_of_fmap. by exists (k, f).
  - intros Hf. destruct (H9 Hf) as (? & ? & Hd). split_and!; [done| |done]. by apply H8.
Qed.

(** *** The end *)

Lemma negb_orb_compat (a b : bool) : negb (negb a || b) = a && negb b.
Proof. by destruct a, b. Qed.

(** The transfer is over, the screen is gone, or the user cancelled. *)
Definition closed (v : view) : bool := negb (isActive v) || finished v.

Definition no_timers (v : view) : Prop :=
  uiTimer v = None ∧ QueueNotice.showTimer (queueNotice v) = None ∧ QueueNotice.hideTimer (queueNotice v) = None.

Definition closed_quiet (v : view) : Prop := closed v = true → no_timers v.

Lemma closed_quiet_open v : closed v = false → closed_quiet v.
Proof. intros H Hc. congruence. Qed.

Lemma same_files_closed v v' : same_files v v' → closed v' = closed v.
Proof. intros [E1 E2]%same_files_active. unfold closed. by rewrite E1, E2. Qed.

Lemma closed_step now e v v' :
  closed v = true → no_timers v → view_exec assets now e v = Some v' →
  closed v' = true ∧ no_timers v' ∧ alerts v' = alerts v
  ∧ (v_screen v' = v_screen v ∨ e = CancelTap ∧ v_screen v' = v_screen v <| isFinished := true |>).
Proof.
  intros Hc (H1 & H2 & H3). unfold closed in Hc.
  destruct e as [p|u|n|error n|t| | | | |]; cbn [view_exec].
  - intros [= <-]. unfold onProgress. rewrite <-negb_orb_compat, Hc. simpl. split_and!; [done|done|done|by left].
  - intros [= <-]. unfold updateFileStatus. rewrite Hc. split_and!; [done|done|done|by left].
  - intros [= <-]. unfold finish_transfer. rewrite Hc. split_and!; [done|done|done|by left].
  - intros [= <-]. unfold reportFatalError. rewrite Hc. split_and!; [done|done|done|by left].
  - intros [= <-]. unfold onThermalStateChange. rewrite <-negb_orb_compat, Hc. simpl. split_and!; [done|done|done|by left].
  - by rewrite H1.
  - by rewrite H2.
  - by rewrite H3.
  - intros [= <-]. split_and!; [unfold closed, isActive, cancelTransfer; simpl; by rewrite andb_false_r|done|done|by right].
  - destruct (active v); [|done]. intros [= <-]. split_and!; [done|done|done|by left].
Qed.

(** A closed effect does not wake the notice. *)
Lemma update_waiting_closed now w v : closed v = true → updateQueueWaiting now w v = v.
Proof.
  intros Hc. unfold updateQueueWaiting. unfold closed in Hc. rewrite <-negb_orb_compat, Hc. unfold QueueNotice.update. simpl. by destruct v.
Qed.

Lemma observe_closed now v : closed v = true → queueNotice (observe_upload now v) = queueNotice v.
Proof.
  intros Hc. unfold observe_upload. destruct (actualUploadObserved v); [done|].
  set (v1 := on_screen _ _). destruct (QueueNotice.isWaiting _); [|done]. by rewrite update_waiting_closed.
Qed.

Lemma apply_closed now p v : closed v = true → queueNotice (applyProgress now p v) = queueNotice v.
Proof.
  intros Hc. unfold applyProgress. set (v1 := on_screen (progress_values p) v).
  set (v2 := if upload_started_now p then observe_upload now v1 else v1).
  assert (queueNotice v2 = queueNotice v ∧ closed v2 = true) as [Hq2 Hc2].
  { unfold v2. destruct (upload_started_now p); [|done]. split; [exact (observe_closed now v1 Hc)|].
    rewrite (same_files_closed v1); [done|apply observe_same]. }
  clearbody v2. cbv zeta. set (v3 := on_screen _ v2). assert (closed v3 = true) as Hc3 by done.
  rewrite !update_waiting_closed by done. destruct (_ && _); [exact Hq2|]. destruct (_ && _); [exact Hq2|]. by destruct (_ && _).
Qed.

Lemma finish_quiet now n v : closed v = false → no_timers (finish_transfer now n v).1.
Proof.
  intros Hc. unfold finish_transfer. unfold closed in Hc. rewrite Hc.
  set (v1 := v <| finished := true |> <| uiTimer := None |> <| queueNotice := _ |>).
  assert (closed v1 = true) as Hc1 by (unfold closed; by rewrite orb_true_r).
  assert (no_timers v1) as Hn1 by done.
  set (v2 := flushUi now v1). assert (no_timers v2) as Hn2.
  { unfold v2, flushUi. destruct (negb (isActive v1)); [done|].
    set (v3 := match pendingProgress v1 with Some latest => _ | None => v1 end).
    assert (no_timers v3) as Hn3; [|by destruct (fileUiDirty v3)].
    unfold v3. destruct (pendingProgress v1) as [p|]; [|done].
    destruct (apply_same now p (v1 <| pendingProgress := None |>)) as (_ & Hu & _).
    unfold no_timers. rewrite Hu, apply_closed by done. exact Hn1. }
  clearbody v2. cbv zeta. by destruct n.
Qed.

Lemma flags_closed v v' : flags v' = flags v → closed v' = closed v.
Proof. unfold flags, closed, isActive. intros [= -> -> ->]. done. Qed.

Lemma same_files_flags v v' : same_files v v' → flags v' = flags v.
Proof. intros (Hf & _). unfold files_of in Hf. unfold flags. congruence. Qed.

Lemma update_flags now u v : flags (updateFileStatus assets now u v) = flags v.
Proof.
  unfold updateFileStatus. destruct (negb (isActive v) || finished v); [done|]. cbv zeta.
  set (v1 := match u_status u with file_uploading => observe_upload now v | _ => v end).
  assert (flags v1 = flags v) as <- by (apply same_files_flags; unfold v1; destruct (u_status u); try done; apply observe_same).
  clearbody v1. set (id := js_or (u_itemId u) (u_assetId u)). set (v2 := v1 <| statusById := _ |>).
  set (v3 := match map_get id (statusById v1) with None => _ | Some _ => v2 end).
  assert (flags v3 = flags v1) as <- by (unfold v3; by destruct (map_get id (statusById v1))). clearbody v3.
  set (v4 := if is_terminal (Some (u_status u)) && _ then _ else v3).
  assert (flags v4 = flags v3) as <- by (unfold v4; by destruct (is_terminal (Some (u_status u)) && _)). clearbody v4.
  unfold scheduleUiFlush. by match goal with |- context [if ?x then _ else _] => destruct x end.
Qed.

Lemma view_exec_quiet now e v v' : closed_quiet v → view_exec assets now e v = Some v' → closed_quiet v'.
Proof.
  intros Hq Hx. destruct (closed v) eqn:Hc; [intros _; by destruct (closed_step now e v v' Hc (Hq Hc) Hx) as (_ & ? & _)|].
  assert (∀ w, closed w = false → closed_quiet w) as Hopen by (intros; by apply closed_quiet_open).
  revert Hx. destruct e as [p|u|n|error n|t| | | | |]; cbn [view_exec].
  - intros [= <-]. unfold onProgress. destruct (_ && _); [|by apply Hopen]. apply Hopen.
    set (v1 := if upload_started_now p then observe_upload now v else v).
    assert (same_files v v1) as Hs by (unfold v1; destruct (upload_started_now p); [apply observe_same|done]).
    unfold scheduleUiFlush. destruct (_ || _); by rewrite <-Hc, <-(same_files_closed v v1).
  - intros [= <-]. apply Hopen. by rewrite (flags_closed v _ (update_flags now u v)).
  - intros [= <-] _. by apply finish_quiet.
  - intros [= <-] _. unfold reportFatalError. unfold closed in Hc. rewrite Hc. cbv zeta.
    set (v1 := markUnfinishedAsFailed _ _ _ <| fileUiDirty := true |>).
    assert (closed v1 = false) as Hc1.
    { unfold v1, markUnfinishedAsFailed. destruct (foldl _ _ _) as [v2 n2] eqn:Hf. apply mark_assets_flags in Hf.
      unfold flags in Hf. assert (closed v2 = closed v) as E by (unfold closed, isActive; f_equal; [do 2 f_equal|]; congruence).
      unfold closed in E at 2. rewrite Hc in E. by destruct (0 <? n2). }
    pose proof (finish_quiet now n v1 Hc1) as Hf. destruct (finish_transfer now n v1) as [v3 []]; exact Hf.
  - intros [= <-]. apply Hopen. unfold onThermalStateChange. by destruct (_ && _).
  - destruct (match uiTimer v with Some t => t <=? now | None => false end); [|done]. intros [= <-]. apply Hopen. rewrite <-Hc.
    unfold ui_timer_fires. set (v1 := v <| uiTimer := None |> <| lastUiFlushAt := now |>). cbv zeta.
    assert (closed (flushUi now v1) = closed v1) as E.
    { unfold flushUi. destruct (negb _); [done|]. set (v3 := match pendingProgress v1 with Some latest => _ | None => v1 end).
      assert (closed v3 = closed v1) as <-; [|by destruct (fileUiDirty v3)]. unfold v3. destruct (pendingProgress v1) as [p|]; [|done].
      exact (same_files_closed (v1 <| pendingProgress := None |>) _ (proj1 (apply_same now p _))). }
    destruct (_ || _); [|exact E]. unfold scheduleUiFlush. destruct (_ || _); exact E.
  - destruct (match QueueNotice.showTimer _ with Some t => t <=? now | None => false end); [|done]. intros [= <-].
    apply Hopen. unfold set_visible. by destruct (QueueNotice.show_fires _ _ _) as [q [b|]].
  - destruct (match QueueNotice.hideTimer _ with Some t => t <=? now | None => false end); [|done]. intros [= <-].
    apply Hopen. unfold set_visible. by destruct (QueueNotice.hide_fires _ _) as [q [b|]].
  - by intros [= <-] _.
  - destruct (active v); [|done]. by intros [= <-] _.
Qed.

(** C19: once the transfer is over, the screen is gone or the user cancelled, late callbacks
    do nothing: no timer is set any more, no alert is shown, and no event changes the
    screen, but that a tap on cancel says the transfer is finished. *)
Theorem closed_screen_is_still v now e v' :
  view_reachable v → closed v = true → view_exec assets now e v = Some v' →
  closed v' = true ∧ no_timers v' ∧ alerts v' = alerts v
  ∧ (v_screen v' = v_screen v ∨ e = CancelTap ∧ v_screen v' = v_screen v <| isFinished := true |>).
Proof.
  intros Hr Hc. apply closed_step; [done|]. assert (closed_quiet v) as Hq; [|by apply Hq]. clear Hc.
  induction Hr as [now'|now' e' v0 v1 _ IH Hu Hx]; [intros _; by split_and!|]. by apply (view_exec_quiet now' e' v0).
Qed.

(** *** Fatal errors *)

Lemma mark_all message l v n :
  NoDup (asset_id <$> l) → (∀ a, a ∈ l → map_get (asset_id a) (statusById v) = None) →
  statusById v = map_values fs_status (resultById v) →
  let r := foldl (mark_asset assets message) (v, n) l in
  r.2 = n + lengthZ l ∧ summaryRef r.1 = summaryRef v ∧ lengthZ (resultById r.1) = lengthZ (resultById v) + lengthZ l.
Proof.
  revert v n. induction l as [|a l IH]; intros v n Hnd Hno Hv; cbn [foldl]; [unfold lengthZ; simpl; split_and!; [lia|done|lia]|].
  rewrite fmap_cons in Hnd. apply NoDup_cons in Hnd as [Ha Hnd].
  assert (∃ v1 next, mark_asset assets message (v, n) a = (v1, n + 1) ∧ statusById v1 = map_set (asset_id a) file_error (statusById v)
    ∧ fs_status next = file_error ∧ resultById v1 = map_set (asset_id a) next (resultById v) ∧ summaryRef v1 = summaryRef v)
    as (v1 & next & -> & E1 & E2 & E3 & E4) by (unfold mark_asset; rewrite (Hno a) by left; do 2 eexists; refine (conj eq_refl (conj eq_refl (conj _ (conj eq_refl eq_refl)))); done).
  destruct (IH v1 (n + 1) Hnd) as (H1 & H2 & H3).
  - intros b Hb. rewrite E1, map_get_set, decide_False; [apply Hno; by right|].
    intros E. apply Ha, list_elem_of_fmap. by exists b.
  - rewrite E1, E3, Hv, <-E2. apply map_set_values.
  - rewrite H1, H2, H3, E3, E4. split_and!; [unfold lengthZ; simpl; lia|done|]. unfold lengthZ, map_set.
    assert (map_get (asset_id a) (resultById v) = None) as ->.
    { specialize (Hno a ltac:(left)). rewrite Hv, map_get_values in Hno. by destruct (map_get (asset_id a) (resultById v)). }
    rewrite length_app. simpl. lia.
Qed.

Lemma finish_files now n v :
  closed v = false → files_of (finish_transfer now n v).1 = files_of (v <| finished := true |>) ∧ (finish_transfer now n v).2 = true.
Proof.
  intros Hc. unfold finish_transfer. unfold closed in Hc. rewrite Hc. split; [|done]. cbv zeta.
  set (w1 := v <| finished := true |> <| uiTimer := None |> <| queueNotice := _ |>).
  assert (files_of (flushUi now w1) = files_of w1) as E; [|destruct n; exact E].
  unfold flushUi. destruct (negb (isActive w1)); [done|]. set (w2 := match pendingProgress w1 with Some latest => _ | None => w1 end).
  assert (files_of w2 = files_of w1) as E; [|destruct (fileUiDirty w2); exact E].
  unfold w2. destruct (pendingProgress w1) as [p|]; [|done]. by destruct (apply_same now p (w1 <| pendingProgress := None |>)) as ((? & _) & _).
Qed.

Lemma fatal_marks_all v now error n :
  closed v = false → NoDup (asset_id <$> assets) → statusById v = map_values fs_status (resultById v) →
  (∀ a, a ∈ assets → map_get (asset_id a) (statusById v) = None) →
  let v' := reportFatalError assets now error n v in
  finished v' = true ∧ summaryRef v' = summaryRef v <| t_failed := t_failed (summaryRef v) + lengthZ assets |>
  ∧ lengthZ (resultById v') = lengthZ (resultById v) + lengthZ assets.
Proof.
  intros Hc Hnd Hst Hno. cbv zeta. unfold reportFatalError. pose proof Hc as Hc'. unfold closed in Hc'. rewrite Hc'. cbv zeta.
  unfold markUnfinishedAsFailed. set (message := js_or (default unknownError error) unfinishedFileError).
  pose proof (mark_all message assets v 0 Hnd Hno Hst) as (M1 & M2 & M3).
  destruct (foldl (mark_asset assets message) (v, 0) assets) as [v1 n1] eqn:Hfold. apply mark_assets_flags in Hfold.
  simpl in M1, M2, M3. set (v2 := (if 0 <? n1 then _ else v1) <| fileUiDirty := true |>).
  assert (flags v2 = flags v) as Hf2 by (unfold v2; by destruct (0 <? n1)).
  destruct (finish_files now n v2 ltac:(by rewrite (flags_closed v v2))) as [E1 E2].
  destruct (finish_transfer now n v2) as [v3 b]. simpl in E1, E2. subst b. unfold files_of in E1.
  assert (summaryRef v2 = summaryRef v <| t_failed := t_failed (summaryRef v) + lengthZ assets |> ∧ resultById v2 = resultById v1) as [F1 F2].
  { unfold v2. destruct (Z.ltb_spec 0 n1) as [Hpos|Hz]; simpl; rewrite M2; split; try done; [by rewrite M1|].
    assert (lengthZ assets = 0) as -> by (unfold lengthZ in *; lia). rewrite Z.add_0_r. by destruct (summaryRef v). }
  injection E1 as _ G2 _ G4 _ _ G7. split_and!; [exact G7|exact (eq_trans G4 F1)|].
  rewrite <-M3, <-F2. exact (f_equal lengthZ G2).
Qed.

(** C27: the states of files are kept under the ids of items, which in a transfer are never
    ids of assets, but a fatal error looks assets up under their own ids: it marks every
    selected asset as failed, also those whose files were all saved. The screen then says
    that as many more files failed as assets were selected, and lists them besides. *)
Theorem fatal_error_fails_saved_assets v now error n :
  view_reachable v → closed v = false → NoDup (asset_id <$> assets) →
  (∀ a, a ∈ assets → map_get (asset_id a) (statusById v) = None) →
  let s := v_screen (reportFatalError assets now error n v) in
  t_failed (summary s) = t_failed (summaryRef v) + lengthZ assets
  ∧ t_success (summary s) = t_success (summaryRef v)
  ∧ lengthZ (resultList s) = lengthZ (files_shown v) + lengthZ assets.
Proof.
  intros Hr Hc Hnd Hno s. pose proof (view_reachable_ok v Hr) as Hv.
  destruct (fatal_marks_all v now error n Hc Hnd (vo_status _ (proj1 Hv)) Hno) as (Hf & Hsum & Hlen).
  pose proof (fatal_view_ok now error n v Hv) as [Hv' _]. unfold s. set (v' := reportFatalError assets now error n v) in *.
  destruct (vo_finished _ Hv' Hf) as (Hl & _ & Hd). destruct (vo_shown _ Hv' Hd) as [Hs _]. rewrite Hs, Hsum, Hl.
  split_and!; [done|done|]. unfold files_shown, lengthZ in *. rewrite !length_fmap. lia.
Qed.

End events.

(** ** Failures *)

Lemma group_failure_keys g f : NoDup g.*1 → NoDup (group_failure g f).*1.
Proof.
  intros Hg. unfold group_failure. case_bool_decide; [|done]. destruct (map_get _ g); by apply map_set_NoDup.
Qed.

Lemma group_failure_sum g f :
  NoDup g.*1 → map_sum fg_count (group_failure g f) = map_sum fg_count g + number_of_bool (bool_decide (fs_status f = file_error)).
Proof.
  intros Hg. unfold group_failure. case_bool_decide; [|simpl; lia]. destruct (map_get (failure_message f) g) as [old|] eqn:E;
    rewrite map_sum_set, E by done; simpl; lia.
Qed.

(** Every failed file is in one group, the groups are listed from the largest to the smallest
    and no message has two of them. *)
Lemma failures_are_grouped files :
  sumZ fg_count (groupFailureResults files) = count_status file_error files
  ∧ StronglySorted (λ a b, fg_count b <= fg_count a) (groupFailureResults files)
  ∧ NoDup (failure_groups files).*1.
Proof.
  assert (∀ g, NoDup g.*1 → NoDup (foldl group_failure g files).*1
    ∧ map_sum fg_count (foldl group_failure g files) = map_sum fg_count g + count_status file_error files) as H.
  { unfold count_status. induction files as [|f files IH]; intros g Hg; cbn [foldl]; [rewrite sumZ_nil; split; [done|lia]|].
    destruct (IH (group_failure g f) (group_failure_keys g f Hg)) as [H1 H2]. split; [done|].
    rewrite H2, group_failure_sum, sumZ_cons by done. lia. }
  destruct (H [] ltac:(constructor)) as [H1 H2]. unfold groupFailureResults. split_and!; [| |done].
  - rewrite (sumZ_Permutation _ _ _ (js_sort_perm _ _)), sumZ_fmap. exact H2.
  - assert (StronglySorted (in_order (higher_first fg_count)) (js_sort (higher_first fg_count) (failure_groups files).*2)) as Hs
      by (apply js_sort_sorted; [apply higher_first_asym|apply higher_first_trans]).
    induction Hs as [|a l _ IH Ha]; constructor; [done|]. eapply Forall_impl; [done|]. unfold in_order, higher_first. intros b. simpl. lia.
Qed.

(** ** A small transfer *)

Module ViewDemo.
Definition picture (id name : string) : MediaAsset :=
  {| asset_id := id; asset_uri := ("ph://" ++ id)%string; asset_type := photo; asset_filename := name |}.
Definition assets : list MediaAsset := [picture "a" "a.jpg"; picture "b" "b.jpg"].

Definition update_of (asset item : string) (ref : Z) (s : FileStatus) : view_event :=
  FileUpdate {| u_assetId := asset; u_itemId := item; u_mediaRole := None; u_componentSemantics := None; u_fileRef := ref;
    u_status := s; u_transferFilename := EmptyString; u_savedFilename := None; u_message := None; u_stage := None;
    u_errorCode := None |}.

(** Both photos are sent: [a] is saved, [b] was there already. *)
Definition sent : list (Z * view_event) :=
  [(10, update_of "a" "s-1" 1 file_uploading); (110, UiTimer); (120, update_of "a" "s-1" 1 file_success);
   (130, update_of "b" "s-2" 2 file_skipped); (210, UiTimer); (220, CancelTap)].

Definition step_of (o : option view) (te : Z * view_event) : option view :=
  v ← o;
  let ok := match te.2 with FileUpdate u => negb (is_terminal (map_get (js_or (u_itemId u) (u_assetId u)) (statusById v))) | _ => true end in
  if ok then view_exec assets te.1 te.2 v else None.

Definition run (es : list (Z * view_event)) : option view :=
  foldl step_of (Some (started_view assets streaming 0)) es.

Lemma run_reachable es v : run es = Some v → view_reachable assets streaming v.
Proof.
  revert v. induction es as [|[now e] es IH] using rev_ind; intros v; unfold run.
  - intros [= <-]. constructor.
  - rewrite foldl_app. cbn [foldl]. change (foldl step_of _ es) with (run es). destruct (run es) as [w|] eqn:Hw; [|done].
    cbn [step_of mbind option_bind fst snd]. specialize (IH w eq_refl). intros Hx. eapply (view_goes_on _ _ now e w v IH); [destruct e; try exact I|destruct e; try exact Hx];
      unfold update_ok; destruct (is_terminal _); try done; exact Hx.
Qed.

Definition was_sent : view := default (started_view assets streaming 0) (run (take 5 sent)).
Lemma was_sent_reachable : view_reachable assets streaming was_sent.
Proof. apply (run_reachable (take 5 sent)). vm_compute. reflexivity. Qed.

Definition was_cancelled : view := default (started_view assets streaming 0) (run sent).
Lemma was_cancelled_reachable : view_reachable assets streaming was_cancelled.
Proof. apply (run_reachable sent). vm_compute. reflexivity. Qed.
End ViewDemo.

Lemma screen_shows_every_file_witness :
  summary (v_screen ViewDemo.was_sent) = summaryRef ViewDemo.was_sent
  ∧ summaryRef ViewDemo.was_sent = {| t_success := 1; t_skipped := 1; t_failed := 0 |}.
Proof.
  destruct (screen_shows_every_file ViewDemo.assets streaming ViewDemo.was_sent ViewDemo.was_sent_reachable)
    as (_ & Hs & _ & Hd & _).
  split; [apply Hd; vm_compute; reflexivity|]. rewrite Hs. vm_compute. reflexivity.
Defined.

Lemma closed_screen_is_still_witness :
  match view_exec ViewDemo.assets 300 (Fatal None None) ViewDemo.was_cancelled with
  | Some v => no_timers v ∧ alerts v = [] | None => False end.
Proof.
  destruct (view_exec ViewDemo.assets 300 (Fatal None None) ViewDemo.was_cancelled) as [v|] eqn:Hx; [|vm_compute in Hx; discriminate].
  destruct (closed_screen_is_still ViewDemo.assets streaming ViewDemo.was_cancelled 300 (Fatal None None) v
    ViewDemo.was_cancelled_reachable ltac:(vm_compute; reflexivity) Hx) as (_ & Hn & Ha & _).
  split; [exact Hn|]. rewrite Ha. vm_compute. reflexivity.
Defined.

Lemma fatal_error_fails_saved_assets_witness :
  let s := v_screen (reportFatalError ViewDemo.assets 230 (Some "offline"%string) None ViewDemo.was_sent) in
  t_failed (summary s) = 2 ∧ t_success (summary s) = 1 ∧ lengthZ (resultList s) = 4.
Proof.
  destruct (fatal_error_fails_saved_assets ViewDemo.assets streaming ViewDemo.was_sent 230 (Some "offline"%string) None
    ViewDemo.was_sent_reachable) as (Hf & Hs & Hl).
  - vm_compute. reflexivity.
  - apply (bool_decide_unpack _). vm_compute. exact I.
  - intros a Ha. repeat (apply elem_of_cons in Ha as [->|Ha]; [vm_compute; reflexivity|]). by apply not_elem_of_nil in Ha.
  - split; [rewrite Hf; vm_compute; reflexivity|]. split; [rewrite Hs; vm_compute; reflexivity|]. rewrite Hl. vm_compute. reflexivity.
Defined.
