(* ===== verification/TransferEta.v ===== *)
(** * Rates and remaining time on the screen ([features/transfer/TransferEtaEstimator.ts],
      [useTransferMetrics.ts])

    The estimator of the remaining time and the hook that samples it once a second. Numbers
    are rationals, so rounding is not modelled; [Math.pow(2, x)] of a fraction is no
    rational, so the decay over [deltaMs] milliseconds is a parameter. *)

From Stdlib Require Import QArith Qminmax Qround Lqa.
From stdpp Require Import pretty.
From S2P Require Import Prelude Throughput.
Open Scope Z_scope.

Module TransferEta.

Definition BYTES_PER_MB : Z := 1000000.
Definition ETA_HALF_LIFE_MS : Z := 5000.
Definition ETA_WARMUP_MS : Z := 5000.

(* src: features/transfer/TransferEtaEstimator.ts:6-11 [EtaObservation] *)
Record EtaObservation := {
  acknowledgedMediaBytes : Z;
  plannedUploadMediaBytes : Z;
  currentMediaMBps : Q;
  sampledAt : Z }.

(* src: features/transfer/TransferEtaEstimator.ts:13-19 [TransferEtaEstimator] *)
Record estimator := {
  firstSampleAt : option Z;
  lastSampleAt : option Z;
  smoothedSeconds : option Q;
  warmedUp : bool;
  staleAfterMs : Q;
  remainingBytes : Z }.

#[export] Instance estimator_eta : Eta estimator := λ e,
  Build_estimator (firstSampleAt e) (lastSampleAt e) (smoothedSeconds e) (warmedUp e) (staleAfterMs e) (remainingBytes e).

Definition new : estimator :=
  {| firstSampleAt := None; lastSampleAt := None; smoothedSeconds := None; warmedUp := false; staleAfterMs := 5000; remainingBytes := 0 |}.

Definition seconds (ms : Z) : Q := (inject_Z ms / 1000)%Q.

Definition remaining_of (o : EtaObservation) : Z := Z.max 0 (plannedUploadMediaBytes o - acknowledgedMediaBytes o).
(* src: features/transfer/TransferEtaEstimator.ts:31-31 [observe] *)
Definition rawSeconds (o : EtaObservation) : Q := (inject_Z (remaining_of o) / inject_Z BYTES_PER_MB / currentMediaMBps o)%Q.

Section decay.
(** [Math.pow(2, -deltaMs / ETA_HALF_LIFE_MS)]. *)
Context (decay : Z → Q).

(** The next smoothed value of a warm estimator. *)
(* src: features/transfer/TransferEtaEstimator.ts:53-56 [observe] *)
Definition smoothed (old : Q) (deltaMs : Z) (raw : Q) : Q :=
  let agedEstimate := Qmax 0 (old - seconds deltaMs)%Q in
  let alpha := (1 - decay deltaMs)%Q in
  (agedEstimate + alpha * (raw - agedEstimate))%Q.

(* src: features/transfer/TransferEtaEstimator.ts:21-58 [observe] *)
Definition observe (o : EtaObservation) (e : estimator) : estimator :=
  let e := e <| remainingBytes := remaining_of o |> in
  if Qle_bool (currentMediaMBps o) 0 || (sampledAt o <=? 0) then e else
  if match lastSampleAt e with Some last => sampledAt o <=? last | None => false end then e else
  let e := e <| staleAfterMs := rateStaleAfterMs (Some (currentMediaMBps o)) |> in
  match firstSampleAt e, lastSampleAt e, smoothedSeconds e with
  | Some first, Some last, Some old =>
      if warmedUp e then e <| smoothedSeconds := Some (smoothed old (sampledAt o - last) (rawSeconds o)) |> <| lastSampleAt := Some (sampledAt o) |>
      else e <| lastSampleAt := Some (sampledAt o) |> <| smoothedSeconds := Some (rawSeconds o) |>
             <| warmedUp := ETA_WARMUP_MS <=? sampledAt o - first |>
  | _, _, _ =>
      e <| firstSampleAt := Some (sampledAt o) |> <| lastSampleAt := Some (sampledAt o) |> <| smoothedSeconds := Some (rawSeconds o) |>
  end.

(* src: features/transfer/TransferEtaEstimator.ts:60-68 [estimateSeconds] *)
Definition estimateSeconds (now : Z) (e : estimator) : option Q :=
  if remainingBytes e <=? 0 then Some 0%Q else
  match firstSampleAt e, lastSampleAt e, smoothedSeconds e with
  | Some first, Some last, Some s =>
      if negb (warmedUp e) || (now - first <? ETA_WARMUP_MS) then None
      else if negb (Qle_bool (inject_Z (now - last)) (staleAfterMs e)) then None
      else Some (Qmax 0 (s - seconds (now - last))%Q)
  | _, _, _ => None
  end.

(* src: features/transfer/TransferEtaEstimator.ts:70-72 [hasRemainingBytes] *)
Definition hasRemainingBytes (e : estimator) : bool := 0 <? remainingBytes e.

Definition observe_all (os : list EtaObservation) : estimator := foldl (λ e o, observe o e) new os.

(** ** The text *)

(** [Math.round]: halves are rounded up. *)
Definition js_round (x : Q) : Z := Qfloor (x + (1 # 2))%Q.

(* src: features/transfer/TransferEtaEstimator.ts:75-99 [formatTransferEta] *)
Definition formatTransferEta (estimatedSeconds : option Q) (hasRemainingBytes isFinished : bool) : string :=
  if isFinished then "Done"
  else if negb hasRemainingBytes then "Finishing…"
  else match estimatedSeconds with
       | None => "Calculating…"
       | Some s =>
           if negb (Qle_bool 10 s) then "A few seconds"
           else if negb (Qle_bool 60 s) then
             let n := Z.max 10 (js_round (s / 10)%Q * 10) in
             if 60 <=? n then "About 1 min" else ("About " +:+ pretty n +:+ "s")%string
           else if negb (Qle_bool 3600 s) then ("About " +:+ pretty (Z.max 1 (js_round (s / 60)%Q)) +:+ " min")%string
           else if Qle_bool s 86400 then ("About " +:+ pretty (Z.max 1 (js_round (s / 3600)%Q)) +:+ " hr")%string
           else "Over 1 day"
       end.
End decay.

(** ** [useTransferMetrics] *)

(** What the hook reads of a report of progress. *)
Record metrics_progress := {
  mp_observation : EtaObservation;
  mp_averageMediaMBps : Q;
  mp_peakMediaMBps : Q;
  mp_preparationComplete : bool;
  mp_preparing_or_checking : bool }.

(* src: features/transfer/useTransferMetrics.ts:8-9 [useTransferMetrics] *)
Record shown_metrics := { sm_currentMediaMBps : Q; sm_averageMediaMBps : Q; sm_peakMediaMBps : Q; sm_etaText : string; sm_elapsedSeconds : Z }.
#[export] Instance shown_metrics_eta : Eta shown_metrics := λ m,
  Build_shown_metrics (sm_currentMediaMBps m) (sm_averageMediaMBps m) (sm_peakMediaMBps m) (sm_etaText m) (sm_elapsedSeconds m).

(** [ticking]: the interval is set. *)
(* src: features/transfer/useTransferMetrics.ts:7-15 [useTransferMetrics] *)
Record metrics := {
  shown : shown_metrics;
  startedAt : option Z;
  latest : option metrics_progress;
  eta_estimator : estimator;
  preparationComplete : bool;
  uploadObserved : bool;
  ticking : bool }.
#[export] Instance metrics_eta : Eta metrics := λ m,
  Build_metrics (shown m) (startedAt m) (latest m) (eta_estimator m) (preparationComplete m) (uploadObserved m) (ticking m).

Definition calculating : string := "Calculating…".
Definition unstarted : metrics :=
  {| shown := {| sm_currentMediaMBps := 0; sm_averageMediaMBps := 0; sm_peakMediaMBps := 0; sm_etaText := calculating; sm_elapsedSeconds := 0 |};
     startedAt := None; latest := None; eta_estimator := new; preparationComplete := false; uploadObserved := false; ticking := false |}.

(* src: features/transfer/useTransferMetrics.ts:16-19 [stopMetrics] *)
Definition stopMetrics (m : metrics) : metrics := m <| ticking := false |>.

(* src: features/transfer/useTransferMetrics.ts:22-30 [beginMetrics] *)
Definition beginMetrics (now : Z) (m : metrics) : metrics :=
  stopMetrics m <| startedAt := Some now |> <| latest := None |> <| eta_estimator := new |> <| preparationComplete := false |>
    <| uploadObserved := false |> <| ticking := true |>.

Definition elapsed_ms (now : Z) (m : metrics) : Z := now - default now (startedAt m).

(* src: features/transfer/useTransferMetrics.ts:29-43 [beginMetrics] *)
Definition metrics_tick (isActive : bool) (now : Z) (m : metrics) : metrics :=
  if negb isActive then m else
  let old := shown m in
  m <| shown :=
    {| sm_currentMediaMBps :=
         match latest m with
         | Some p => let o := mp_observation p in if isRateFresh (sampledAt o) (currentMediaMBps o) now then currentMediaMBps o else 0
         | None => 0
         end;
       sm_averageMediaMBps := match latest m with Some p => mp_averageMediaMBps p | None => sm_averageMediaMBps old end;
       sm_peakMediaMBps := match latest m with Some p => mp_peakMediaMBps p | None => sm_peakMediaMBps old end;
       sm_etaText := if uploadObserved m
                     then formatTransferEta (estimateSeconds now (eta_estimator m)) (hasRemainingBytes (eta_estimator m)) false
                     else calculating;
       sm_elapsedSeconds := Z.max 0 (elapsed_ms now m `div` 1000) |} |>.

(* src: features/transfer/useTransferMetrics.ts:46-59 [observeMetrics] *)
Definition observeMetrics (decay : Z → Q) (p : metrics_progress) (m : metrics) : metrics :=
  let m := m <| latest := Some p |> in
  let m := if mp_preparationComplete p && negb (preparationComplete m)
           then m <| preparationComplete := true |> <| eta_estimator := new |> <| uploadObserved := false |> else m in
  if mp_preparationComplete p && negb (mp_preparing_or_checking p)
  then m <| uploadObserved := true |> <| eta_estimator := observe decay (mp_observation p) (eta_estimator m) |> else m.

Definition rounded_elapsed (now : Z) (m : metrics) : Z := Z.max 1 (js_round (inject_Z (elapsed_ms now m) / 1000)%Q).

(** [summary]: its average and peak, when there is one. *)
(* src: features/transfer/useTransferMetrics.ts:61-67 [finishMetrics] *)
Definition finishMetrics (now : Z) (summary : option (Q * Q)) (m : metrics) : metrics :=
  let m := stopMetrics m in
  m <| shown := shown m <| sm_etaText := "Done" |> <| sm_elapsedSeconds := rounded_elapsed now m |>
         <| sm_averageMediaMBps := match summary with Some s => s.1 | None => sm_averageMediaMBps (shown m) end |>
         <| sm_peakMediaMBps := match summary with Some s => s.2 | None => sm_peakMediaMBps (shown m) end |> |>.

(* src: features/transfer/useTransferMetrics.ts:68-72 [cancelMetrics] *)
Definition cancelMetrics (now : Z) (m : metrics) : metrics :=
  let m := stopMetrics m in m <| shown := shown m <| sm_elapsedSeconds := rounded_elapsed now m |> |>.

(** ** Theorems *)

Lemma raw_nonneg o : (0 < currentMediaMBps o)%Q → (0 <= rawSeconds o)%Q.
Proof.
  intros Hr. unfold rawSeconds. apply Qle_shift_div_l; [done|]. rewrite Qmult_0_l. apply Qle_shift_div_l; [done|]. rewrite Qmult_0_l.
  change 0%Q with (inject_Z 0). rewrite <-Zle_Qle. unfold remaining_of. lia.
Qed.

(** The samples the estimator takes. *)
Definition sample (o : EtaObservation) : Prop := (0 < currentMediaMBps o)%Q ∧ 0 < sampledAt o.

Section theorems.
Context (decay : Z → Q).

(** A property of the smoothed value and the time of its sample, kept by every sample. *)
Lemma observe_smoothed (P : Z → Q → Prop) os :
  (∀ o, o ∈ os → sample o → P (sampledAt o) (rawSeconds o)) →
  (∀ o last old, o ∈ os → sample o → last < sampledAt o → P last old → P (sampledAt o) (smoothed decay old (sampledAt o - last) (rawSeconds o))) →
  ∀ last s, lastSampleAt (observe_all decay os) = Some last → smoothedSeconds (observe_all decay os) = Some s → P last s.
Proof.
  unfold observe_all. induction os as [|o os IH] using rev_ind; intros Hraw Hstep last s; [done|]. rewrite foldl_app. simpl.
  set (e := foldl _ new os) in *. assert (∀ l a, lastSampleAt e = Some l → smoothedSeconds e = Some a → P l a) as He.
  { apply IH; [intros o' Ho'; apply Hraw|intros o' l a Ho'; apply Hstep]; apply elem_of_app; by left. }
  clearbody e. clear IH. specialize (Hraw o ltac:(apply elem_of_app; right; left)). specialize (λ l a, Hstep o l a ltac:(apply elem_of_app; right; left)).
  unfold observe. destruct (Qle_bool (currentMediaMBps o) 0 || (sampledAt o <=? 0)) eqn:Hskip; [apply He|].
  apply orb_false_iff in Hskip as [Hr Ht].
  assert (sample o) as Hs by (split; [apply Qnot_le_lt; rewrite <-Qle_bool_iff; congruence|lia]). specialize (Hraw Hs). simpl.
  destruct (match lastSampleAt e with Some l => sampledAt o <=? l | None => false end) eqn:Hold; [apply He|].
  destruct (firstSampleAt e) as [first|]; simpl; [|congruence]. destruct (lastSampleAt e) as [l|]; simpl; [|congruence].
  destruct (smoothedSeconds e) as [a|]; simpl; [|congruence]. destruct (warmedUp e); simpl; [|congruence].
  intros [= <-] [= <-]. apply Hstep; [done|lia|]. by apply He.
Qed.

Lemma seconds_sub a b : (seconds (a - b) == seconds a - seconds b)%Q.
Proof. unfold seconds, Z.sub. rewrite inject_Z_plus, inject_Z_opp. field. Qed.

(** An estimate that only ages stays as it is. *)
Lemma smoothed_exact old delta raw : (0 <= raw)%Q → (old - seconds delta == raw)%Q → (smoothed decay old delta raw == raw)%Q.
Proof.
  intros Hr E. unfold smoothed. cbv zeta. rewrite E. rewrite (Q.max_r 0 raw) by done. ring.
Qed.

Lemma constant_rate os T :
  (∀ o, o ∈ os → sample o → rawSeconds o == seconds (T - sampledAt o))%Q →
  ∀ last s, lastSampleAt (observe_all decay os) = Some last → smoothedSeconds (observe_all decay os) = Some s → (s == seconds (T - last))%Q.
Proof.
  intros Hraw. apply observe_smoothed; [done|]. intros o last old Ho Hs _ Hold.
  rewrite <-(Hraw o Ho Hs). apply smoothed_exact; [by apply raw_nonneg, Hs|]. rewrite (Hraw o Ho Hs), Hold, !seconds_sub. ring.
Qed.

Lemma smoothed_between old delta raw M :
  (0 <= decay delta <= 1)%Q → 0 <= delta → (0 <= old <= M)%Q → (0 <= raw <= M)%Q → (0 <= smoothed decay old delta raw <= M)%Q.
Proof.
  intros [Hd0 Hd1] Hdelta [Ho0 Ho1] [Hr0 Hr1]. unfold smoothed. cbv zeta. set (a := Qmax 0 (old - seconds delta)%Q).
  assert (0 <= seconds delta)%Q as Hsec
    by (unfold seconds; apply Qle_shift_div_l; [done|]; rewrite Qmult_0_l; change 0%Q with (inject_Z 0); by rewrite <-Zle_Qle).
  assert (0 <= a <= M)%Q as [Ha0 Ha1] by (unfold a; split; [apply Q.le_max_l|apply Q.max_lub; lra]).
  assert (a + (1 - decay delta) * (raw - a) == decay delta * a + (1 - decay delta) * raw)%Q as -> by ring.
  assert (0 <= decay delta * a <= decay delta * M)%Q by (split; nra).
  assert (0 <= (1 - decay delta) * raw <= (1 - decay delta) * M)%Q by (split; nra). lra.
Qed.

Lemma smoothed_bound os M :
  (∀ d, 0 <= d → (0 <= decay d <= 1)%Q) → (∀ o, o ∈ os → sample o → rawSeconds o <= M)%Q →
  ∀ last s, lastSampleAt (observe_all decay os) = Some last → smoothedSeconds (observe_all decay os) = Some s → (0 <= s <= M)%Q.
Proof.
  intros Hd Hraw. apply (observe_smoothed (λ _ s, (0 <= s <= M)%Q)).
  - intros o Ho Hs. split; [by apply raw_nonneg, Hs|by apply Hraw].
  - intros o last old Ho Hs Hlt Hold. apply smoothed_between; [apply Hd; lia|lia|done|]. split; [by apply raw_nonneg, Hs|by apply Hraw].
Qed.

(** C34: the remaining time the estimator gives. It is zero when no bytes are left. Otherwise
    it waits for five seconds of samples, stays between zero and
    the largest of the naive estimates of the samples, and is exact while these all point
    at the same end, whatever the decay: smoothing costs nothing at a constant rate. *)
Theorem eta_is_exact_and_bounded os now s :
  (∀ d, 0 <= d → (0 <= decay d <= 1)%Q) →
  let e := observe_all decay os in
  estimateSeconds now e = Some s →
  (hasRemainingBytes e = false → s = 0%Q)
  ∧ (hasRemainingBytes e = true →
      ∃ first last, firstSampleAt e = Some first ∧ lastSampleAt e = Some last ∧ ETA_WARMUP_MS <= now - first
      ∧ (inject_Z (now - last) <= staleAfterMs e)%Q
      ∧ (∀ M, last <= now → (∀ o, o ∈ os → sample o → rawSeconds o <= M)%Q → (0 <= s <= M)%Q)
      ∧ (∀ T, (∀ o, o ∈ os → sample o → rawSeconds o == seconds (T - sampledAt o))%Q → (s == Qmax 0 (seconds (T - now)))%Q)).
Proof.
  intros Hd e. unfold estimateSeconds, hasRemainingBytes. destruct (Z.leb_spec (remainingBytes e) 0) as [Hle|Hgt].
  { intros [= <-]. split; [done|]. lia. }
  destruct (firstSampleAt e) as [first|] eqn:Hf; [|done]. destruct (lastSampleAt e) as [last|] eqn:Hl; [|done].
  destruct (smoothedSeconds e) as [a|] eqn:Ha; [|done]. destruct (negb (warmedUp e) || _) eqn:Hw; [done|].
  apply orb_false_iff in Hw as [_ Hw]. destruct (Qle_bool _ (staleAfterMs e)) eqn:Hst; [|done]. cbn [negb]. intros [= <-].
  split; [lia|]. intros _. exists first, last. split_and!; [done|done|lia|by apply Qle_bool_iff| |].
  - intros M Hnow Hraw. destruct (smoothed_bound os M Hd Hraw last a Hl Ha) as [H0 HM].
    assert (0 <= seconds (now - last))%Q by (unfold seconds; apply Qle_shift_div_l; [done|]; rewrite Qmult_0_l;
      change 0%Q with (inject_Z 0); rewrite <-Zle_Qle; lia).
    split; [apply Q.le_max_l|apply Q.max_lub; lra].
  - intros T Hraw. rewrite (constant_rate os T Hraw last a Hl Ha).
    assert (seconds (T - last) - seconds (now - last) == seconds (T - now))%Q as -> by (rewrite !seconds_sub; ring). done.
Qed.
End theorems.

(** ** The hook *)

(** The reports whose samples count. *)
Definition usable (p : metrics_progress) : bool := mp_preparationComplete p && negb (mp_preparing_or_checking p).
Definition observed (decay : Z → Q) (ps : list metrics_progress) (m : metrics) : metrics := foldl (λ m p, observeMetrics decay p m) m ps.

(** The estimator of the hook has seen the samples of the upload phase, all of them and no
    other, though it is made anew when preparation completes; the last report is the one
    shown. *)
Lemma metrics_estimator decay now m ps :
  let m' := observed decay ps (beginMetrics now m) in
  eta_estimator m' = observe_all decay (mp_observation <$> filter (λ p, usable p = true) ps)
  ∧ latest m' = last ps
  ∧ preparationComplete m' = existsb mp_preparationComplete ps
  ∧ uploadObserved m' = existsb usable ps.
Proof.
  unfold observed. induction ps as [|p ps IH] using rev_ind; [done|]. rewrite foldl_app. cbn [foldl].
  set (m1 := foldl _ _ ps) in *. destruct IH as (H1 & H2 & H3 & H4). clearbody m1.
  assert (existsb mp_preparationComplete ps = false → filter (λ p, usable p = true) ps = [] ∧ existsb usable ps = false) as Hnone.
  { clear. induction ps as [|q ps IH]; [done|]. simpl. intros [Hq Hps]%orb_false_iff. destruct (IH Hps) as [I1 I2].
    assert (usable q = false) as Hu by (unfold usable; by rewrite Hq). rewrite filter_cons, decide_False by congruence. by rewrite Hu. }
  rewrite filter_app, fmap_app, last_snoc, !existsb_app. cbn [existsb]. rewrite !orb_false_r. unfold observeMetrics.
  set (m2 := m1 <| latest := Some p |>). set (m3 := if mp_preparationComplete p && _ then _ else m2). fold (usable p).
  assert (eta_estimator m3 = observe_all decay (mp_observation <$> filter (λ p, usable p = true) ps) ∧ latest m3 = Some p
    ∧ preparationComplete m3 = existsb mp_preparationComplete ps || mp_preparationComplete p ∧ uploadObserved m3 = existsb usable ps) as (E1 & E2 & E3 & E4).
  { unfold m3. destruct (mp_preparationComplete p) eqn:Hp; cbn [andb]; [|by rewrite orb_false_r]. simpl. rewrite H3, orb_true_r.
    destruct (existsb mp_preparationComplete ps); cbn [negb]; [by split_and!|]. destruct (Hnone eq_refl) as [-> ->]. by split_and!. }
  clearbody m3. rewrite filter_cons. destruct (usable p) eqn:Hu.
  - rewrite decide_True by done. simpl. unfold observe_all in *. rewrite foldl_app, orb_true_r. simpl. by rewrite E1.
  - rewrite decide_False by done. simpl. rewrite app_nil_r, orb_false_r. by split_and!.
Qed.

(** A transfer at 1 MB/s that ends at 120 s, sampled every three seconds. *)
Definition demo_decay (d : Z) : Q := (5000 / (5000 + inject_Z d))%Q.
Definition demo_sample (t : Z) : EtaObservation :=
  {| acknowledgedMediaBytes := t * 1000; plannedUploadMediaBytes := 120000000; currentMediaMBps := 1; sampledAt := t |}.
Definition demo : list EtaObservation := demo_sample <$> [3000; 6000; 9000; 12000].

Lemma demo_decay_ok d : 0 <= d → (0 <= demo_decay d <= 1)%Q.
Proof.
  intros Hd. unfold demo_decay. assert (0 <= inject_Z d)%Q by (change 0%Q with (inject_Z 0); by rewrite <-Zle_Qle).
  assert (0 < 5000 + inject_Z d)%Q by lra. split; [apply Qle_shift_div_l; lra|apply Qle_shift_div_r; lra].
Qed.
End TransferEta.

Lemma eta_is_exact_and_bounded_witness :
  match TransferEta.estimateSeconds 14000 (TransferEta.observe_all TransferEta.demo_decay TransferEta.demo) with
  | Some s => (s == 106)%Q
  | None => False
  end.
Proof.
  destruct (TransferEta.estimateSeconds 14000 (TransferEta.observe_all TransferEta.demo_decay TransferEta.demo)) as [s|] eqn:E;
    [|vm_compute in E; discriminate].
  destruct (TransferEta.eta_is_exact_and_bounded TransferEta.demo_decay TransferEta.demo 14000 s TransferEta.demo_decay_ok E) as [_ H].
  destruct (H ltac:(vm_compute; reflexivity)) as (first & last & _ & _ & _ & _ & _ & Hexact).
  rewrite (Hexact 120000); [vm_compute; reflexivity|]. intros o Ho _. unfold TransferEta.demo in Ho.
  apply list_elem_of_fmap in Ho as (t & -> & Ht).
  repeat (apply elem_of_cons in Ht as [->|Ht]; [vm_compute; reflexivity|]). exact (False_ind _ (not_elem_of_nil t Ht)).
Defined.
