(* ===== verification/History.v ===== *)
(** * The history of transfers ([features/history/useReceiverHistory.ts],
      [features/dashboard/hooks/useDashboardHistory.ts])

    The keys and states of history items, and the hook that loads and deletes the history the
    desktop keeps. Answers of the desktop come in any order; [url] is the address the client
    is configured for. Dates are not formatted. *)

From Stdlib Require Import Ascii.
From stdpp Require Import pretty.
From S2P Require Import Prelude Js SelectionStore.
Open Scope Z_scope.

Module History.

(** ** Items *)

Inductive completion := completed | mixed | cancelled | fatal.
#[export] Instance completion_eq_dec : EqDecision completion.
Proof. solve_decision. Defined.
Inductive completed_at := AtNumber (n : Z) | AtText (s : string).

(** The fields of an item that are read here. *)
(* src: api/types.ts:71-97 [TransferHistoryItem] *)
Record item := {
  sessionId : option string;
  clientHistoryId : option string;
  completedAt : option completed_at;
  uploadedFiles : option Z;
  skippedFiles : option Z;
  failedFiles : option Z;
  selectedFiles : option Z;
  expandedFiles : option Z;
  completionStatus : option completion }.

#[export] Instance item_eta : Eta item := λ i,
  Build_item (sessionId i) (clientHistoryId i) (completedAt i) (uploadedFiles i) (skippedFiles i) (failedFiles i)
    (selectedFiles i) (expandedFiles i) (completionStatus i).

Definition count (n : option Z) : Z := default 0 n.

(* src: features/dashboard/hooks/useDashboardHistory.ts:22-30 [fallbackHistoryKey] *)
Definition fallbackHistoryKey (i : item) : string :=
  "history:" +:+ match completedAt i with None => "unknown-date" | Some (AtNumber n) => pretty n | Some (AtText s) => s end
  +:+ ":" +:+ pretty (count (uploadedFiles i)) +:+ ":" +:+ pretty (count (skippedFiles i)) +:+ ":" +:+ pretty (count (failedFiles i)).

(* src: features/dashboard/hooks/useDashboardHistory.ts:32-34 [historyItemKey] *)
Definition historyItemKey (i : item) : string :=
  js_or (default EmptyString (sessionId i)) (js_or (default EmptyString (clientHistoryId i)) (fallbackHistoryKey i)).

Definition has_session (i : item) : bool := truthy (default EmptyString (sessionId i)).

(* src: features/dashboard/hooks/useDashboardHistory.ts:46-46 [normalizeHistoryItems] *)
Definition numbered (baseKey : string) (occurrence : Z) : string :=
  if bool_decide (occurrence = 0) then baseKey else baseKey +:+ ":duplicate-" +:+ pretty occurrence.

(** The items after those that gave [seen]. *)
(* src: features/dashboard/hooks/useDashboardHistory.ts:39-48 [normalizeHistoryItems] *)
Fixpoint normalize_items (seen : list (string * Z)) (items : list item) : list item :=
  match items with
  | [] => []
  | i :: rest =>
      if has_session i then i :: normalize_items seen rest
      else
        let baseKey := fallbackHistoryKey i in
        let occurrence := default 0 (map_get baseKey seen) in
        i <| clientHistoryId := Some (numbered baseKey occurrence) |> :: normalize_items (map_set baseKey (occurrence + 1) seen) rest
  end.

(** [None]: not an array. *)
(* src: features/dashboard/hooks/useDashboardHistory.ts:36-49 [normalizeHistoryItems] *)
Definition normalizeHistoryItems (value : option (list item)) : list item :=
  match value with Some items => normalize_items [] items | None => [] end.

Inductive status_text := Canceled | Failed | CompletedWithErrors | SkippedDuplicates | Completed.
#[export] Instance status_text_eq_dec : EqDecision status_text.
Proof. solve_decision. Defined.

(* src: features/dashboard/hooks/useDashboardHistory.ts:51-67 [historyStatus] *)
Definition historyStatus (i : item) : status_text :=
  if bool_decide (completionStatus i = Some cancelled) then Canceled
  else if bool_decide (completionStatus i = Some fatal) then Failed
  else
    let failed := count (failedFiles i) in
    let uploaded := count (uploadedFiles i) in
    let skipped := count (skippedFiles i) in
    let terminalFiles := uploaded + skipped + failed in
    let expanded := match expandedFiles i with Some n => Some n | None => selectedFiles i end in
    if (failed =? 0) && match expanded with Some n => terminalFiles <? n | None => false end then Canceled
    else if 0 <? failed then if failed =? uploaded + skipped + failed then Failed else CompletedWithErrors
    else if (uploaded =? 0) && (0 <? skipped) then SkippedDuplicates
    else if bool_decide (completionStatus i = Some mixed) then CompletedWithErrors
    else Completed.

(** ** The history of the connected desktop *)

(** [requests]: calls of [getHistory] without an answer, by their [activeRequest];
    [clearing]: calls of [clearHistory], by their scope. *)
(* src: features/history/useReceiverHistory.ts:9-13 [useReceiverHistory] *)
Record receiver := {
  isConnected : bool;
  url : string;
  shown : list item;
  loading : bool;
  error : option string;
  requestId : Z;
  requests : list Z;
  clearing : list string;
  alerts : Z }.

#[export] Instance receiver_eta : Eta receiver := λ r,
  Build_receiver (isConnected r) (url r) (shown r) (loading r) (error r) (requestId r) (requests r) (clearing r) (alerts r).

Definition mounted (connected : bool) (address : string) : receiver :=
  {| isConnected := connected; url := address; shown := []; loading := false; error := None;
     requestId := if connected then 0 else 1; requests := []; clearing := []; alerts := 0 |}.

Definition invalidate (r : receiver) : receiver :=
  r <| requestId := requestId r + 1 |> <| shown := [] |> <| error := None |> <| loading := false |>.

(* src: features/history/useReceiverHistory.ts:15-26 [refresh] *)
Definition refresh (r : receiver) : receiver :=
  if negb (isConnected r) then invalidate r
  else
    let activeRequest := requestId r + 1 in
    r <| requestId := activeRequest |> <| loading := true |> <| error := None |> <| requests := requests r ++ [activeRequest] |>.

(** [inl]: the items; [inr]: the message. *)
(* src: features/history/useReceiverHistory.ts:27-35 [refresh] *)
Definition history_answered (i : nat) (answer : option (list item) + string) (r : receiver) : option receiver :=
  match requests r !! i with
  | None => None
  | Some activeRequest =>
      let r := r <| requests := delete i (requests r) |> in
      Some (if requestId r =? activeRequest then
              match answer with
              | inl value => r <| shown := normalizeHistoryItems value |> <| loading := false |>
              | inr message => r <| error := Some message |> <| loading := false |>
              end
            else r)
  end.

(* src: features/history/useReceiverHistory.ts:38-47 [useReceiverHistory] *)
Definition connection_changed (connected : bool) (address : string) (r : receiver) : receiver :=
  let changed := negb (Bool.eqb connected (isConnected r)) in
  let r := r <| isConnected := connected |> <| url := address |> in
  if changed && negb connected then invalidate r else r.

(** The user confirms the dialog that was opened for [scope]. *)
(* src: features/history/useReceiverHistory.ts:59-62 [confirmClear] *)
Definition clear_confirmed (scope : string) (r : receiver) : receiver :=
  if bool_decide (url r = scope) then r <| clearing := clearing r ++ [scope] |> else r <| alerts := alerts r + 1 |>.

(* src: features/history/useReceiverHistory.ts:62-72 [confirmClear] *)
Definition clear_answered (i : nat) (ok : bool) (r : receiver) : option receiver :=
  match clearing r !! i with
  | None => None
  | Some scope =>
      let r := r <| clearing := delete i (clearing r) |> in
      Some (if ok then if bool_decide (url r = scope) then invalidate r else r else r <| alerts := alerts r + 1 |>)
  end.

Inductive receiver_event :=
  | Refresh
  | HistoryAnswer (i : nat) (answer : option (list item) + string)
  | ConnectionChange (connected : bool) (address : string)
  | ClearConfirmed (scope : string)
  | ClearAnswer (i : nat) (ok : bool).

Definition receiver_exec (e : receiver_event) (r : receiver) : option receiver :=
  match e with
  | Refresh => Some (refresh r)
  | HistoryAnswer i answer => history_answered i answer r
  | ConnectionChange connected address => Some (connection_changed connected address r)
  | ClearConfirmed scope => Some (clear_confirmed scope r)
  | ClearAnswer i ok => clear_answered i ok r
  end.

Definition receiver_run (connected : bool) (address : string) (es : list receiver_event) : option receiver :=
  foldl (λ r e, r ≫= receiver_exec e) (Some (mounted connected address)) es.

(** ** Keys *)

Definition colon : Ascii.ascii := ":"%char.
Fixpoint has_colon (s : string) : bool := match s with EmptyString => false | String c s => bool_decide (c = colon) || has_colon s end.
(** What follows the last colon. *)
Fixpoint after_last (s : string) : string :=
  match s with
  | EmptyString => EmptyString
  | String c s' => if has_colon s' then after_last s' else if bool_decide (c = colon) then s' else s
  end.

Lemma append_cons c a b : String c a +:+ b = String c (a +:+ b).
Proof. done. Qed.

Lemma has_colon_app a b : has_colon (a +:+ b) = has_colon a || has_colon b.
Proof. induction a as [|c a IH]; [done|]. rewrite append_cons. cbn [has_colon]. rewrite IH. apply orb_assoc. Qed.

Lemma after_last_app a b : has_colon b = true → after_last (a +:+ b) = after_last b.
Proof. intros Hb. induction a as [|c a IH]; [done|].
  rewrite append_cons. cbn [after_last]. by rewrite has_colon_app, Hb, orb_true_r.
Qed.

Lemma after_last_part a t : has_colon t = false → after_last (a +:+ String colon t) = t.
Proof. intros Ht. rewrite after_last_app by done. cbn [after_last]. by rewrite Ht. Qed.

Lemma append_inj_r a b s : a +:+ s = b +:+ s → a = b.
Proof.
  assert (∀ x y : string, String.length (x +:+ y) = (String.length x + String.length y)%nat) as Hlen
    by (intros x y; induction x as [|c x IH]; [done|]; rewrite append_cons; cbn [String.length]; by rewrite IH).
  revert b. induction a as [|c a IH]; intros [|d b] E; [done| | |].
  - apply (f_equal String.length) in E. rewrite !Hlen in E. simpl in E. lia.
  - apply (f_equal String.length) in E. rewrite !Hlen in E. simpl in E. lia.
  - rewrite !append_cons in E. injection E as -> E. f_equal. by apply IH.
Qed.

(** The text of a number has no colon and no [d]. *)
Definition plain (c : Ascii.ascii) : bool := negb (bool_decide (c = colon)) && negb (bool_decide (c = "d"%char)).

Lemma pretty_go_plain x s : string_forallb plain s = true → string_forallb plain (pretty_N_go x s) = true.
Proof.
  revert s. induction (N.lt_wf_0 x) as [x _ IH]; intros s Hs. destruct (decide (x = 0)%N) as [->|Hx]; [done|].
  rewrite pretty_N_go_step by lia. apply IH; [by apply N.div_lt; lia|]. simpl. rewrite Hs, andb_true_r.
  unfold pretty_N_char. by repeat case_match.
Qed.

Lemma pretty_plain (z : Z) : string_forallb plain (pretty z) = true.
Proof.
  assert (∀ n : N, string_forallb plain (pretty n) = true) as Hn
    by (intros n; unfold pretty, pretty_N; case_decide; [done|by apply pretty_go_plain]).
  destruct z as [|p|p]; [done|apply (Hn (Npos p))|]. change (pretty (Z.neg p)) with ("-" +:+ pretty p). simpl. apply (Hn (Npos p)).
Qed.

Lemma plain_colon s : string_forallb plain s = true → has_colon s = false.
Proof. induction s as [|c s IH]; [done|]. simpl. intros [[Hc _]%andb_prop Hs]%andb_prop. rewrite IH by done. by destruct (bool_decide (c = colon)). Qed.

Lemma after_last_key i : after_last (fallbackHistoryKey i) = pretty (count (failedFiles i)).
Proof.
  unfold fallbackHistoryKey. set (a := match completedAt i with None => _ | _ => _ end).
  change (after_last ("history:" +:+ (a +:+ (":" +:+ (pretty (count (uploadedFiles i)) +:+ (":" +:+ (pretty (count (skippedFiles i))
    +:+ String colon (pretty (count (failedFiles i)))))))))= pretty (count (failedFiles i))).
  rewrite !after_last_app by (rewrite ?has_colon_app; cbn; rewrite ?orb_true_r; done).
  cbn [after_last]. by rewrite plain_colon by apply pretty_plain.
Qed.

Lemma after_last_numbered b n : n ≠ 0 → after_last (numbered b n) = "duplicate-" +:+ pretty n.
Proof.
  intros Hn. unfold numbered. rewrite bool_decide_false by done.
  apply (after_last_part b ("duplicate-" +:+ pretty n)). rewrite has_colon_app. cbn. apply plain_colon, pretty_plain.
Qed.

Lemma pretty_not_duplicate (a n : Z) : pretty a ≠ "duplicate-" +:+ pretty n.
Proof. intros E. pose proof (pretty_plain a) as H. by rewrite E in H. Qed.

Lemma numbered_inj i j m n :
  numbered (fallbackHistoryKey i) m = numbered (fallbackHistoryKey j) n → fallbackHistoryKey i = fallbackHistoryKey j ∧ m = n.
Proof.
  intros E. pose proof (f_equal after_last E) as El.
  destruct (decide (m = 0)) as [->|Hm], (decide (n = 0)) as [->|Hn].
  - done.
  - change (numbered (fallbackHistoryKey i) 0) with (fallbackHistoryKey i) in El. rewrite after_last_key, after_last_numbered in El by done.
    by apply pretty_not_duplicate in El.
  - change (numbered (fallbackHistoryKey j) 0) with (fallbackHistoryKey j) in El. rewrite after_last_key, after_last_numbered in El by done.
    by symmetry in El; apply pretty_not_duplicate in El.
  - rewrite !after_last_numbered in El by done. apply (inj (String.append "duplicate-")) in El. apply (inj pretty) in El as ->. split; [|done].
    unfold numbered in E. rewrite bool_decide_false in E by done. by apply append_inj_r in E.
Qed.

Definition client_keys (items : list item) : list string := omap (λ i, if has_session i then None else clientHistoryId i) items.

Lemma normalize_keys seen items k :
  (∀ b, 0 <= default 0 (map_get b seen)) → k ∈ client_keys (normalize_items seen items) →
  ∃ i n, k = numbered (fallbackHistoryKey i) n ∧ default 0 (map_get (fallbackHistoryKey i) seen) <= n.
Proof.
  revert seen. induction items as [|i items IH]; intros seen Hs; [by intros ?%elem_of_nil|]. cbn [normalize_items].
  unfold client_keys. destruct (has_session i) eqn:Hi; cbn [omap list_omap].
  - rewrite Hi. by apply IH.
  - change (has_session (i <| clientHistoryId := _ |>)) with (has_session i). rewrite Hi. simpl.
    rewrite elem_of_cons. intros [->|Hk]; [by exists i, (default 0 (map_get (fallbackHistoryKey i) seen))|].
    apply IH in Hk as (j & n & -> & Hn).
    + exists j, n. split; [done|]. rewrite map_get_set in Hn. pose proof (Hs (fallbackHistoryKey i)). case_decide as E; simpl in Hn; [rewrite E; lia|done].
    + intros b. rewrite map_get_set. pose proof (Hs (fallbackHistoryKey i)). case_decide; simpl; [lia|apply Hs].
Qed.

(** Items the desktop gave no session id are shown under different keys, however alike. *)
Lemma normalized_keys_differ value : NoDup (client_keys (normalizeHistoryItems value)).
Proof.
  destruct value as [items|]; [|constructor]. unfold normalizeHistoryItems.
  assert (∀ b, 0 <= default 0 (map_get b ([] : list (string * Z)))) as Hs by done. revert Hs. generalize ([] : list (string * Z)) as seen.
  induction items as [|i items IH]; intros seen Hs; [constructor|]. cbn [normalize_items]. unfold client_keys.
  destruct (has_session i) eqn:Hi; cbn [omap list_omap]; [rewrite Hi; by apply IH|].
  change (has_session (i <| clientHistoryId := _ |>)) with (has_session i). rewrite Hi. simpl.
  assert (∀ b, 0 <= default 0 (map_get b (map_set (fallbackHistoryKey i) (default 0 (map_get (fallbackHistoryKey i) seen) + 1) seen))) as Hs'.
  { intros b. rewrite map_get_set. pose proof (Hs (fallbackHistoryKey i)). case_decide; simpl; [lia|apply Hs]. }
  apply NoDup_cons. split; [|by apply IH].
  intros (j & n & E & Hn)%normalize_keys; [|done]. apply numbered_inj in E as [E En]. rewrite <-E, map_get_set, decide_True in Hn by done. rewrite <-En in Hn. simpl in Hn. lia.
Qed.

(** ** The shown history *)

Record receiver_ok (r : receiver) : Prop := {
  ro_loading : loading r = bool_decide (requestId r ∈ requests r);
  ro_old : ∀ x, x ∈ requests r → x <= requestId r;
  ro_nodup : NoDup (requests r);
  ro_disconnected : isConnected r = false → shown r = [] ∧ error r = None ∧ loading r = false }.

Lemma newer_not_pending r : receiver_ok r → requestId r + 1 ∉ requests r.
Proof. intros [_ H _ _] Hin%H. lia. Qed.

Lemma invalidate_ok r : receiver_ok r → receiver_ok (invalidate r).
Proof.
  intros Hr. pose proof (newer_not_pending r Hr) as Hn. destruct Hr as [H1 H2 H3 H4]. split; simpl.
  - by rewrite bool_decide_false.
  - intros x Hx%H2. lia.
  - done.
  - done.
Qed.

Lemma refresh_ok r : receiver_ok r → receiver_ok (refresh r).
Proof.
  intros Hr. unfold refresh. destruct (isConnected r) eqn:Hc; cbn [negb]; [|by apply invalidate_ok].
  pose proof (newer_not_pending r Hr) as Hn. destruct Hr as [H1 H2 H3 H4]. split; simpl.
  - rewrite bool_decide_true; [done|]. apply elem_of_app. right. left.
  - intros x [Hx%H2| ->%list_elem_of_singleton]%elem_of_app; lia.
  - apply NoDup_app. split; [done|]. split; [|apply NoDup_singleton]. intros x Hx ->%list_elem_of_singleton. done.
  - congruence.
Qed.

Lemma elem_of_delete_NoDup {A} (l : list A) i x y : NoDup l → l !! i = Some x → y ∈ delete i l ↔ y ∈ l ∧ y ≠ x.
Proof.
  intros Hl Hi. pose proof (delete_Permutation l i x Hi) as Hp. rewrite Hp in Hl. apply NoDup_cons in Hl as [Hx _].
  rewrite Hp at 2. rewrite elem_of_cons. split; [intros Hy; split; [by right|by intros ->]|naive_solver].
Qed.

Lemma history_answered_ok i a r r' : receiver_ok r → history_answered i a r = Some r' → receiver_ok r'.
Proof.
  intros [H1 H2 H3 H4]. unfold history_answered. destruct (requests r !! i) as [x|] eqn:Hi; [|done]. intros [= <-].
  pose proof (elem_of_delete_NoDup _ i x (requestId r) H3 Hi) as Hdel.
  assert (∀ y, y ∈ delete i (requests r) → y ≤ requestId r) as H2'
    by (intros y Hy; apply H2; rewrite (delete_Permutation _ _ _ Hi); by right).
  assert (NoDup (delete i (requests r))) as H3' by (rewrite (delete_Permutation _ _ _ Hi) in H3; by apply NoDup_cons in H3 as [_ ?]).
  simpl. destruct (Z.eqb_spec (requestId r) x) as [E|Hne].
  - assert (loading r = true) as Hl by (rewrite H1, bool_decide_true; [done|]; rewrite E; by eapply list_elem_of_lookup_2).
    assert (requestId r ∉ delete i (requests r)) as Hn by (rewrite Hdel; naive_solver).
    destruct a; split; simpl; try done; try (by rewrite bool_decide_false); intros Hc; destruct (H4 Hc) as (_ & _ & ?); congruence.
  - split; simpl; try done. rewrite H1. apply bool_decide_ext. rewrite Hdel. naive_solver.
Qed.

Lemma receiver_exec_ok e r r' : receiver_ok r → receiver_exec e r = Some r' → receiver_ok r'.
Proof.
  intros Hr. destruct e as [|i a|connected address|scope|i ok]; cbn [receiver_exec].
  - intros [= <-]. by apply refresh_ok.
  - by apply history_answered_ok.
  - intros [= <-]. unfold connection_changed. set (r1 := r <| isConnected := connected |> <| url := address |>).
    destruct Hr as [H1 H2 H3 H4]. destruct (negb (Bool.eqb connected (isConnected r)) && negb connected) eqn:Hc.
    + assert (receiver_ok (r1 <| isConnected := true |>)) as Hr1 by (by split).
      apply invalidate_ok in Hr1 as [I1 I2 I3 _]. by split.
    + split; try done. intros Hf. simpl in Hf. subst connected. destruct (isConnected r); [done|by apply H4].
  - intros [= <-]. unfold clear_confirmed. destruct Hr as [H1 H2 H3 H4]. destruct (bool_decide (url r = scope)); by split.
  - unfold clear_answered. destruct (clearing r !! i) as [scope|]; [|done]. intros [= <-].
    assert (receiver_ok (r <| clearing := delete i (clearing r) |>)) as Hr1 by (destruct Hr; by split).
    destruct ok; [destruct (bool_decide _); [by apply invalidate_ok|done]|]. destruct Hr1; by split.
Qed.

Lemma receiver_run_ok connected address es r : receiver_run connected address es = Some r → receiver_ok r.
Proof.
  revert r. unfold receiver_run. induction es as [|e es IH] using rev_ind; intros r.
  - intros [= <-]. split; simpl; try done; [intros x Hx; by apply elem_of_nil in Hx|constructor].
  - rewrite foldl_app. simpl. destruct (foldl _ _ es) as [r0|]; [|done]. by apply receiver_exec_ok, IH.
Qed.

(** C32: whatever the order of refreshes, answers, disconnections and deletions. The hook is
    loading exactly while its newest request is unanswered; an answer is shown if it is that
    request's and changes nothing that is shown otherwise; without a connection nothing is
    shown. A disconnection, or a deletion on the desktop still connected, empties the list,
    and no request made before can fill it again. *)
Theorem history_shows_newest connected address es r :
  receiver_run connected address es = Some r →
  (loading r = true ↔ requestId r ∈ requests r)
  ∧ (isConnected r = false → shown r = [] ∧ error r = None ∧ loading r = false)
  ∧ (∀ i a r', receiver_exec (HistoryAnswer i a) r = Some r' →
       if bool_decide (requests r !! i = Some (requestId r))
       then loading r' = false ∧ shown r' = match a with inl value => normalizeHistoryItems value | inr _ => shown r end
       else loading r' = loading r ∧ shown r' = shown r ∧ error r' = error r)
  ∧ (∀ e r', receiver_exec e r = Some r' →
       (∃ i, e = ClearAnswer i true ∧ clearing r !! i = Some (url r)) ∨ (isConnected r = true ∧ isConnected r' = false) →
       shown r' = [] ∧ loading r' = false ∧ requestId r' ∉ requests r').
Proof.
  intros Hr%receiver_run_ok. pose proof Hr as [H1 H2 H3 H4]. split_and!.
  - rewrite H1. apply bool_decide_eq_true.
  - done.
  - intros i a r'. cbn [receiver_exec]. unfold history_answered. destruct (requests r !! i) as [x|] eqn:Hi; [|done]. intros [= <-]. simpl.
    destruct (Z.eqb_spec (requestId r) x) as [E|Hne].
    + rewrite bool_decide_true by congruence. destruct a; by split.
    + rewrite bool_decide_false by congruence. by split_and!.
  - intros e r' Hx Hcase. assert (∀ r0, receiver_ok r0 → let r1 := invalidate r0 in shown r1 = [] ∧ loading r1 = false ∧ requestId r1 ∉ requests r1) as Hinv.
    { intros r0 Hr0. split_and!; [done|done|]. apply (newer_not_pending r0 Hr0). }
    destruct Hcase as [(i & -> & Hi)|[Hc Hc']].
    + cbn [receiver_exec] in Hx. unfold clear_answered in Hx. rewrite Hi in Hx. injection Hx as <-. rewrite bool_decide_true by done.
      apply Hinv. destruct Hr; by split.
    + pose proof (receiver_exec_ok e r r' Hr Hx) as [I1 _ _ I4]. destruct (I4 Hc') as (-> & _ & Hl). split_and!; [done|done|].
      rewrite Hl in I1. symmetry in I1. by apply bool_decide_eq_false in I1.
Qed.

(** The history is deleted while a refresh is under way; the late answer is ignored. *)
Definition deleted : list receiver_event := [Refresh; ClearConfirmed "desktop"; ClearAnswer 0 true]%string.
Definition after_deletion : receiver := default (mounted true "desktop") (receiver_run true "desktop" deleted).
End History.

Lemma history_shows_newest_witness :
  match History.receiver_exec (History.HistoryAnswer 0 (inr "late"%string)) History.after_deletion with
  | Some r => History.shown r = [] ∧ History.error r = None
  | None => False
  end.
Proof.
  destruct (History.receiver_exec (History.HistoryAnswer 0 (inr "late"%string)) History.after_deletion) as [r|] eqn:Hx; [|vm_compute in Hx; discriminate].
  destruct (History.history_shows_newest true "desktop" History.deleted History.after_deletion ltac:(vm_compute; reflexivity)) as (_ & _ & Ha & _).
  specialize (Ha 0%nat (inr "late"%string) r Hx). vm_compute in Ha. destruct Ha as (_ & Hs & He). split; [exact Hs|exact He].
Defined.
