(* ===== verification/ProblemPreviews.v ===== *)
(** * Previews of files that had problems ([services/history/ProblemPreviewStore.ts])

    An index of previews and one image per asset in the storage of the application, changed
    by jobs that run one after the other on a chain of promises. A job stops at every call
    of the storage or of the native module; an answer applies the effect of the call and
    runs to the next one. The keys given to images (time and random digits) are inputs.
    [images]: the keys of this store that are in use. *)

From Stdlib Require Import QArith Qcanon.
From S2P Require Import Prelude Js UploadTypes SelectionStore.
Open Scope Z_scope.

Module ProblemPreviews.

Definition MAX_PROBLEM_PREVIEWS : nat := 200.
Definition RETENTION_MS : Z := 30 * 24 * 60 * 60 * 1000.
Definition MAX_PENDING : Z := 3.
Definition BATCH : nat := 20.

(* src: services/history/ProblemPreviewStore.ts:10-13 [ProblemPreview] *)
Record entry := {
  scope : string;
  sessionId : string;
  fileId : string;
  assetId : string;
  mediaType : MediaType;
  createdAt : Qc;
  imageKey : option string }.

#[export] Instance entry_eta : Eta entry := λ e,
  Build_entry (scope e) (sessionId e) (fileId e) (assetId e) (mediaType e) (createdAt e) (imageKey e).

(** [slice(-n)]. *)
Definition last_n {A} (n : nat) (l : list A) : list A := drop (length l - n) l.

(** [indexKey()] depends on the environment. *)
Section store.
Context (indexKey : string).

Definition imagePrefix : string := indexKey +:+ ":image:".

(** [[a-z0-9-]+]. *)
Definition key_char (c : Ascii.ascii) : bool :=
  let n := Ascii.N_of_ascii c in ((97 <=? n) && (n <=? 122) || (48 <=? n) && (n <=? 57) || (n =? 45))%N.
Fixpoint after_prefix (p s : string) : option string :=
  match p, s with
  | EmptyString, _ => Some s
  | String a p, String b s => if bool_decide (a = b) then after_prefix p s else None
  | _, _ => None
  end.
(* src: services/history/ProblemPreviewStore.ts:24-26 [ownedKey] *)
Definition ownedKey (key : string) : bool :=
  match after_prefix imagePrefix key with Some rest => truthy rest && string_forallb key_char rest | None => false end.

(** ** The index *)

(** What the filter does with an item: [startsWith] of a key that is no string throws. *)
Inductive filtered := Keep (e : entry) | Drop | Throws.

(* src: services/history/ProblemPreviewStore.ts:33-38 [readIndex] *)
Definition read_item (v : jsval) : filtered :=
  match is_object v, field v "scope", field v "sessionId", field v "fileId", field v "assetId",
        str_literal [("photo", photo); ("video", video)]%string (field v "mediaType"), field v "createdAt" with
  | true, JStr scope, JStr sessionId, JStr fileId, JStr assetId, Some mediaType, JNum (Num createdAt) =>
      let item k := Keep {| scope := scope; sessionId := sessionId; fileId := fileId; assetId := assetId; mediaType := mediaType;
                            createdAt := createdAt; imageKey := k |} in
      match field v "imageKey" with
      | JStr key => if truthy key then if ownedKey key then item (Some key) else Drop else item None
      | other => if js_truthy other then Throws else item None
      end
  | _, _, _, _, _, _, _ => Drop
  end.

Definition throws (f : filtered) : bool := match f with Throws => true | _ => false end.

(** [raw]: [None] when nothing is stored or the text is no JSON. *)
(* src: services/history/ProblemPreviewStore.ts:27-40 [readIndex] *)
Definition readIndex (raw : option jsval) : list entry :=
  match raw with
  | Some (JArr items) =>
      if existsb (λ v, throws (read_item v)) items then []
      else omap (λ v, match read_item v with Keep e => Some e | _ => None end) items
  | _ => []
  end.

Definition write_item (e : entry) : jsval :=
  JObj ([("scope", JStr (scope e)); ("sessionId", JStr (sessionId e)); ("fileId", JStr (fileId e)); ("assetId", JStr (assetId e));
         ("mediaType", JStr match mediaType e with photo => "photo" | video => "video" end); ("createdAt", JNum (Num (createdAt e)))]%string
        ++ match imageKey e with Some k => [("imageKey"%string, JStr k)] | None => [] end).
Definition write_index (kept : list entry) : jsval := JArr (write_item <$> kept).

Definition fresh (now : Z) (e : entry) : bool := num_ge (Num (createdAt e)) (now - RETENTION_MS).

(* src: services/history/ProblemPreviewStore.ts:42-42 [persist] *)
Definition kept_entries (now : Z) (entries : list entry) : list entry :=
  last_n MAX_PROBLEM_PREVIEWS (filter (λ e, fresh now e = true) entries).

Definition used_keys (kept : list entry) : list string := omap imageKey kept.
(* src: services/history/ProblemPreviewStore.ts:45-46 [persist] *)
Definition unused_keys (kept : list entry) (images : list string) : list string :=
  filter (λ k, ownedKey k = true ∧ k ∉ used_keys kept) images.

(** ** Jobs *)

(* src: services/history/ProblemPreviewStore.ts:14-14 [PreviewRequest] *)
Record request := { rq_fileId : string; rq_assetId : string; rq_type : MediaType }.

Inductive job :=
  | Save (sc session : string) (generation : Z) (selected : list request)
  | Clear (sc : string)
  | Prune.

(** The variables of a save job; [offset] is the loop's. *)
(* src: services/history/ProblemPreviewStore.ts:60-67 [saveProblemPreviews] *)
Record saving := { old : list entry; records : list entry; ids : list string; offset : nat }.

Inductive stage :=
  | Reading
  | Writing (kept : list entry) (next : option saving)
  | Listing (kept : list entry) (next : option saving)
  | Removing (unused : list string) (next : option saving)
  | Asking (s : saving)
  | Storing (s : saving) (key asset : string) (rest : list (string * string)).

(** [queue]: the jobs not begun; [settled]: the promises of the callers; [notified]: calls of
    the listeners. *)
(* src: services/history/ProblemPreviewStore.ts:15-18 [ProblemPreviewStore] *)
Record store := {
  index : option jsval;
  images : list string;
  pending : Z;
  generations : list (string * Z);
  queue : list job;
  running : option (job * stage);
  settled : list (job * bool);
  notified : Z }.

#[export] Instance store_eta : Eta store := λ s,
  Build_store (index s) (images s) (pending s) (generations s) (queue s) (running s) (settled s) (notified s).

Definition generation_of (sc : string) (s : store) : Z := default 0 (map_get sc (generations s)).

(* src: services/history/ProblemPreviewStore.ts:53-57 [saveProblemPreviews] *)
Definition saveProblemPreviews (sc session : string) (requests : list request) (s : store) : store :=
  if negb (truthy sc) || negb (truthy session) || bool_decide (requests = []) || (MAX_PENDING <=? pending s) then s
  else s <| pending := pending s + 1 |>
         <| queue := queue s ++ [Save sc session (generation_of sc s) (take MAX_PROBLEM_PREVIEWS requests)] |>.

(* src: services/history/ProblemPreviewStore.ts:96-101 [clearProblemPreviews] *)
Definition clearProblemPreviews (sc : string) (s : store) : store :=
  s <| generations := map_set sc (generation_of sc s + 1) (generations s) |> <| queue := queue s ++ [Clear sc] |>.

(* src: services/history/ProblemPreviewStore.ts:103-107 [pruneProblemPreviews] *)
Definition pruneProblemPreviews (s : store) : store := s <| queue := queue s ++ [Prune] |>.

(** A job ends; the promise of a save never rejects. *)
(* src: services/history/ProblemPreviewStore.ts:78-79 [saveProblemPreviews] *)
Definition ended (j : job) (ok : bool) (s : store) : store :=
  let s := s <| running := None |> in
  match j with
  | Save _ _ _ _ => s <| pending := pending s - 1 |> <| settled := settled s ++ [(j, true)] |>
  | _ => s <| settled := settled s ++ [(j, ok)] |>
  end.

Definition outdated (j : job) (s : store) : bool :=
  match j with Save sc _ generation _ => negb (generation_of sc s =? generation) | _ => false end.

(* src: services/history/ProblemPreviewStore.ts:58-59 [saveProblemPreviews] *)
Definition begin_job (s : store) : option store :=
  match running s, queue s with
  | None, j :: rest =>
      let s := s <| queue := rest |> in
      Some (if outdated j s then ended j true s else s <| running := Some (j, Reading) |>)
  | _, _ => None
  end.

Definition entries_of (s : saving) : list entry := last_n MAX_PROBLEM_PREVIEWS (old s ++ records s).

(** Distinct, in order. *)
Definition distinct (l : list string) : list string := foldl (λ ids id, if bool_decide (id ∈ ids) then ids else ids ++ [id]) [] l.

(* src: services/history/ProblemPreviewStore.ts:60-66 [saveProblemPreviews] *)
Definition begin_saving (now : Z) (sc session : string) (selected : list request) (read : list entry) : saving :=
  let records := (λ r, {| scope := sc; sessionId := session; fileId := rq_fileId r; assetId := rq_assetId r; mediaType := rq_type r;
                          createdAt := Q2Qc (inject_Z now); imageKey := None |}) <$> selected in
  {| old := filter (λ e, negb (bool_decide (scope e = sc) && bool_decide (sessionId e = session)) = true) read;
     records := records; ids := distinct (assetId <$> records); offset := 0 |}.

(** The index is read. *)
(* src: services/history/ProblemPreviewStore.ts:60-65 [saveProblemPreviews] *)
Definition index_read (now : Z) (s : store) (j : job) : stage :=
  let read := readIndex (index s) in
  match j with
  | Save sc session _ selected => let v := begin_saving now sc session selected read in Writing (kept_entries now (entries_of v)) (Some v)
  | Clear sc => Writing (kept_entries now (filter (λ e, scope e ≠ sc) read)) None
  | Prune => Writing (kept_entries now read) None
  end.

(** After [persist]: the loop over the assets goes on, or the job ends. *)
(* src: services/history/ProblemPreviewStore.ts:66-70 [saveProblemPreviews] *)
Definition persisted (j : job) (next : option saving) (s : store) : store :=
  let s := s <| notified := notified s + 1 |> in
  match next with
  | Some v =>
      if (offset v <? length (ids v))%nat then
        if outdated j s then ended j true s else s <| running := Some (j, Asking v) |>
      else ended j true s
  | None => ended j true s
  end.

Definition with_image (key asset : string) (v : saving) : saving :=
  {| old := old v; records := (λ e, if bool_decide (assetId e = asset) then e <| imageKey := Some key |> else e) <$> records v;
     ids := ids v; offset := offset v |}.

(** The next thumbnail is stored, or the batch is persisted. *)
(* src: services/history/ProblemPreviewStore.ts:71-76 [saveProblemPreviews] *)
Definition store_next (now : Z) (thumbnails : list (string * string)) (v : saving) : stage :=
  match thumbnails with
  | (key, asset) :: rest => Storing v key asset rest
  | [] => let v' := {| old := old v; records := records v; ids := ids v; offset := offset v + BATCH |} in
          Writing (kept_entries now (entries_of v)) (Some v')
  end.

Inductive store_event :=
  | SaveCall (sc session : string) (requests : list request)
  | ClearCall (sc : string)
  | PruneCall
  | JobBegins
  | Answer (ok : bool)
  | Thumbnails (found : list (string * string)).

(** [Answer]: of the storage; when it fails the job ends. [Thumbnails]: the new key and the
    asset of each image the native module found, none when it failed. *)
(* src: services/history/ProblemPreviewStore.ts:41-49 [persist] *)
Definition answered (now : Z) (ok : bool) (s : store) : option store :=
  match running s with
  | None | Some (_, Asking _) => None
  | Some (j, st) =>
      if negb ok then Some (ended j false s)
      else match st with
           | Reading => Some (s <| running := Some (j, index_read now s j) |>)
           | Writing kept next => Some (s <| index := Some (write_index kept) |> <| running := Some (j, Listing kept next) |>)
           | Listing kept next =>
               let unused := unused_keys kept (images s) in
               Some (if bool_decide (unused = []) then persisted j next s else s <| running := Some (j, Removing unused next) |>)
           | Removing unused next => Some (persisted j next (s <| images := filter (λ k, k ∉ unused) (images s) |>))
           | Storing v key asset rest =>
               let s := s <| images := key :: images s |> in
               Some (s <| running := Some (j, store_next now rest (with_image key asset v)) |>)
           | Asking _ => None
           end
  end.

(* src: services/history/ProblemPreviewStore.ts:69-75 [saveProblemPreviews] *)
Definition thumbnails_found (now : Z) (found : list (string * string)) (s : store) : option store :=
  match running s with
  | Some (j, Asking v) => Some (if outdated j s then ended j true s else s <| running := Some (j, store_next now found v) |>)
  | _ => None
  end.

Definition store_exec (now : Z) (e : store_event) (s : store) : option store :=
  match e with
  | SaveCall sc session requests => Some (saveProblemPreviews sc session requests s)
  | ClearCall sc => Some (clearProblemPreviews sc s)
  | PruneCall => Some (pruneProblemPreviews s)
  | JobBegins => begin_job s
  | Answer ok => answered now ok s
  | Thumbnails found => thumbnails_found now found s
  end.

(** The previews of a session, by file; the images are looked up afterwards. *)
(* src: services/history/ProblemPreviewStore.ts:82-85 [loadProblemPreviews] *)
Definition loadProblemPreviews (now : Z) (sc session : string) (s : store) : list entry :=
  if negb (truthy session) then []
  else last_n MAX_PROBLEM_PREVIEWS
         (filter (λ e, (bool_decide (scope e = sc) && bool_decide (sessionId e = session) && fresh now e) = true) (readIndex (index s))).

Definition store_run (s0 : store) (es : list (Z * store_event)) : option store := foldl (λ s e, s ≫= store_exec e.1 e.2) (Some s0) es.

(** ** Round trip of the index *)

Definition valid_entry (e : entry) : Prop := ∀ k, imageKey e = Some k → ownedKey k = true.

Lemma after_prefix_empty p c q : after_prefix (p +:+ String c q) EmptyString = None.
Proof. by destruct p. Qed.
Lemma owned_truthy k : ownedKey k = true → truthy k = true.
Proof. unfold ownedKey, imagePrefix. destruct k as [|c k]; [|done]. by rewrite after_prefix_empty. Qed.

Lemma read_write_item e : valid_entry e → read_item (write_item e) = Keep e.
Proof.
  intros He. destruct e as [sc se fi asset ty at' k]. unfold read_item, write_item, valid_entry in *. simpl in *.
  destruct k as [k|]; simpl; [|by destruct ty]. specialize (He k eq_refl). pose proof (owned_truthy k He) as Ht.
  destruct ty; simpl; rewrite Ht, He; done.
Qed.

Lemma read_write kept : Forall valid_entry kept → readIndex (Some (write_index kept)) = kept.
Proof.
  intros Hk. unfold readIndex, write_index. assert (existsb (λ v, throws (read_item v)) (write_item <$> kept) = false) as ->.
  { induction Hk as [|e kept He _ IH]; [done|]. simpl. by rewrite (read_write_item e He). }
  induction Hk as [|e kept He _ IH]; [done|]. rewrite fmap_cons. cbn [omap list_omap]. rewrite (read_write_item e He). by rewrite IH.
Qed.

Lemma read_item_valid v e : read_item v = Keep e → valid_entry e.
Proof.
  unfold read_item, valid_entry. destruct (is_object v); [|done].
  destruct (field v "scope"); try done. destruct (field v "sessionId"); try done. destruct (field v "fileId"); try done.
  destruct (field v "assetId"); try done. destruct (str_literal _ _); [|done]. destruct (field v "createdAt") as [| | |[]| | |]; try done.
  destruct (field v "imageKey") as [| | | |key| |]; try (destruct (js_truthy _); [done|]; by intros [= <-]).
  - destruct (truthy key); [|by intros [= <-]]. destruct (ownedKey key) eqn:Hk; [|done]. intros [= <-]. simpl. congruence.
Qed.

Lemma readIndex_valid raw : Forall valid_entry (readIndex raw).
Proof.
  unfold readIndex. destruct raw as [[]|]; try constructor. destruct (existsb _ _); [constructor|]. apply Forall_forall.
  intros e (v & _ & Hv)%list_elem_of_omap. destruct (read_item v) eqn:E; [|done|done]. injection Hv as ->. by apply (read_item_valid v).
Qed.

(** ** The invariant *)

Lemma last_n_length {A} n (l : list A) : (length (last_n n l) <= n)%nat.
Proof. unfold last_n. rewrite length_drop. lia. Qed.
Lemma last_n_elem {A} n (l : list A) x : x ∈ last_n n l → x ∈ l.
Proof. unfold last_n. intros H. by apply (elem_of_submseteq _ _ _ H), sublist_submseteq, sublist_drop. Qed.

Lemma kept_entries_elem now l e : e ∈ kept_entries now l → e ∈ l.
Proof. intros He%last_n_elem. by apply list_elem_of_filter in He as [_ ?]. Qed.

(** What a job may write: few, valid entries, and none of a cleared scope. *)
Definition writable (j : job) (kept : list entry) : Prop :=
  (length kept <= MAX_PROBLEM_PREVIEWS)%nat ∧ Forall valid_entry kept
  ∧ match j with Clear sc => Forall (λ e, scope e ≠ sc) kept | _ => True end.

Lemma kept_writable j now l :
  Forall valid_entry l → match j with Clear sc => Forall (λ e, scope e ≠ sc) l | _ => True end → writable j (kept_entries now l).
Proof.
  rewrite Forall_forall. intros Hl Hj. split; [apply last_n_length|]. split; [apply Forall_forall; intros e He%kept_entries_elem; by apply Hl|].
  destruct j as [|sc|]; try done. rewrite Forall_forall in Hj. apply Forall_forall. intros e He%kept_entries_elem. by apply Hj.
Qed.

Definition saving_ok (v : saving) : Prop := Forall valid_entry (old v) ∧ Forall valid_entry (records v).
Definition next_ok (j : job) (next : option saving) : Prop :=
  match next, j with Some v, Save _ _ _ _ => saving_ok v | None, Save _ _ _ _ => False | Some _, _ => False | None, _ => True end.

Definition stage_ok (s : store) (j : job) (st : stage) : Prop :=
  match st with
  | Reading => True
  | Writing kept next => writable j kept ∧ next_ok j next
  | Listing kept next => writable j kept ∧ index s = Some (write_index kept) ∧ next_ok j next
  | Removing unused next => ∃ kept, writable j kept ∧ index s = Some (write_index kept) ∧ unused = unused_keys kept (images s) ∧ next_ok j next
  | Asking v => next_ok j (Some v)
  | Storing v key _ rest => next_ok j (Some v) ∧ ownedKey key = true ∧ Forall (λ t, ownedKey t.1 = true) rest
  end.

Definition is_save (j : job) : bool := match j with Save _ _ _ _ => true | _ => false end.
Definition saves (js : list job) : Z := sumZ (λ j, number_of_bool (is_save j)) js.
Definition running_job (s : store) : list job := match running s with Some (j, _) => [j] | None => [] end.

Record store_ok (s : store) : Prop := {
  so_pending : pending s = saves (running_job s ++ queue s) ∧ pending s <= MAX_PENDING;
  so_index : (length (readIndex (index s)) <= MAX_PROBLEM_PREVIEWS)%nat;
  so_images : Forall (λ k, ownedKey k = true) (images s);
  so_stage : ∀ j st, running s = Some (j, st) → stage_ok s j st }.

Lemma saving_entries_ok v : saving_ok v → Forall valid_entry (entries_of v).
Proof.
  intros [Ho Hr]. rewrite Forall_forall in Ho, Hr. apply Forall_forall. intros e He%last_n_elem.
  apply elem_of_app in He as [He|He]; [by apply Ho|by apply Hr].
Qed.

Lemma saves_app l1 l2 : saves (l1 ++ l2) = saves l1 + saves l2.
Proof. unfold saves. by rewrite sumZ_app. Qed.
Lemma saves_cons j l : saves (j :: l) = number_of_bool (is_save j) + saves l.
Proof. done. Qed.

Lemma stage_ok_ext s s' j st : index s' = index s → images s' = images s → stage_ok s j st → stage_ok s' j st.
Proof. intros Hi Hm. destruct st; simpl; rewrite ?Hi, ?Hm; done. Qed.

(** Queueing a job. *)
Lemma queued_ok s s' j :
  store_ok s → index s' = index s → images s' = images s → running s' = running s → queue s' = queue s ++ [j] →
  pending s' = pending s + number_of_bool (is_save j) → pending s' <= MAX_PENDING → store_ok s'.
Proof.
  intros [[Hp _] Hi Hm Hst] Ei Em Er Eq Ep Hle. split.
  - split; [|done]. unfold running_job in *. rewrite Er, Eq, Ep, Hp, app_assoc, (saves_app _ [j]), (saves_cons j []). change (saves []) with 0. lia.
  - by rewrite Ei.
  - by rewrite Em.
  - intros k st Hk. rewrite Er in Hk. apply (stage_ok_ext s); auto.
Qed.

(** The running job goes on. *)
Lemma moved_ok s s' j st st' :
  store_ok s → running s = Some (j, st) → running s' = Some (j, st') → queue s' = queue s → pending s' = pending s →
  (length (readIndex (index s')) <= MAX_PROBLEM_PREVIEWS)%nat → Forall (λ k, ownedKey k = true) (images s') →
  stage_ok s' j st' → store_ok s'.
Proof.
  intros [Hp _ _ _] Hr Hr' Eq Ep Hi Hm Hst. split; [|done|done|].
  - unfold running_job in *. rewrite Hr in Hp. by rewrite Hr', Eq, Ep.
  - rewrite Hr'. by intros k t [= <- <-].
Qed.

(** The running job ends. *)
Lemma ended_ok s s' j st ok :
  store_ok s → running s = Some (j, st) → queue s' = queue s → pending s' = pending s →
  (length (readIndex (index s')) <= MAX_PROBLEM_PREVIEWS)%nat → Forall (λ k, ownedKey k = true) (images s') →
  store_ok (ended j ok s').
Proof.
  intros [Hp _ _ _] Hr Eq Ep Hi Hm. unfold running_job in Hp. rewrite Hr in Hp. cbn [app] in Hp. rewrite saves_cons in Hp.
  split; [|by destruct j|by destruct j|by destruct j].
  destruct j; simpl in *; rewrite ?Eq, ?Ep; lia.
Qed.

Lemma begin_job_ok s s' : store_ok s → begin_job s = Some s' → store_ok s'.
Proof.
  intros [[Hp Hle] Hi Hm _]. unfold begin_job. destruct (running s) eqn:Hr; [done|]. destruct (queue s) as [|j rest] eqn:Hq; [done|].
  unfold running_job in Hp. rewrite Hr in Hp. cbn [app] in Hp. rewrite saves_cons in Hp.
  intros [= <-]. destruct (outdated j _) eqn:Ho.
  - split; [|by destruct j|by destruct j|by destruct j]. destruct j; simpl in *; lia.
  - split; [|done|done|by intros k st [= <- <-]]. split; [|done]. unfold running_job. simpl. by rewrite saves_cons.
Qed.

Lemma begin_saving_ok now sc session selected read : Forall valid_entry read → saving_ok (begin_saving now sc session selected read).
Proof.
  rewrite Forall_forall. intros Hr. split; apply Forall_forall; simpl.
  - intros e [_ He]%list_elem_of_filter. by apply Hr.
  - intros e (r & -> & _)%list_elem_of_fmap. by intros k.
Qed.

Lemma index_read_ok now s j : stage_ok s j (index_read now s j).
Proof.
  pose proof (readIndex_valid (index s)) as Hv. destruct j as [sc session g selected|sc|]; simpl.
  - split; [|by apply begin_saving_ok]. apply kept_writable; [|done]. by apply saving_entries_ok, begin_saving_ok.
  - split; [|done]. rewrite Forall_forall in Hv. apply kept_writable; apply Forall_forall; intros e [He ?]%list_elem_of_filter; auto.
  - split; [|done]. by apply kept_writable.
Qed.

Lemma with_image_ok key asset v : ownedKey key = true → saving_ok v → saving_ok (with_image key asset v).
Proof.
  intros Hk [Ho Hr]. split; [done|]. simpl. rewrite Forall_forall in Hr. apply Forall_forall.
  intros e (e0 & -> & He)%list_elem_of_fmap. case_bool_decide; [|by apply Hr]. by intros k [= <-].
Qed.

Lemma store_next_ok now s j found v :
  Forall (λ t, ownedKey t.1 = true) found → next_ok j (Some v) → stage_ok s j (store_next now found v).
Proof.
  intros Hf Hv. destruct Hf as [|[key asset] found Hk Hf]; simpl; [|done]. destruct j; simpl in *; try done.
  split; [|done]. apply kept_writable; [|done]. by apply saving_entries_ok.
Qed.

Lemma persisted_ok s s' j st next :
  store_ok s → running s = Some (j, st) → running s' = running s → queue s' = queue s → pending s' = pending s →
  (length (readIndex (index s')) <= MAX_PROBLEM_PREVIEWS)%nat → Forall (λ k, ownedKey k = true) (images s') →
  next_ok j next → store_ok (persisted j next s').
Proof.
  intros Hok Hr Er Eq Ep Hi Hm Hn. unfold persisted. destruct next as [v|]; [|by apply (ended_ok s _ _ st)].
  destruct (_ <? _)%nat; [|by apply (ended_ok s _ _ st)]. destruct (outdated j _); [by apply (ended_ok s _ _ st)|].
  by apply (moved_ok s _ j st (Asking v)).
Qed.

Lemma filter_owned (P : string → Prop) `{∀ k, Decision (P k)} l : Forall (λ k, ownedKey k = true) l → Forall (λ k, ownedKey k = true) (filter P l).
Proof. rewrite !Forall_forall. intros Hl k [_ Hk]%list_elem_of_filter. by apply Hl. Qed.

Lemma answer_arrived_ok now ok s s' : store_ok s → answered now ok s = Some s' → store_ok s'.
Proof.
  intros Hok. unfold answered. destruct (running s) as [[j st]|] eqn:Hr; [|done].
  pose proof (so_index s Hok) as Hi. pose proof (so_images s Hok) as Hm. pose proof (so_stage s Hok j st Hr) as Hst.
  assert (negb ok = true → store_ok (ended j false s)) as Hend by (intros _; by apply (ended_ok s _ _ st)).
  destruct st as [|kept next|kept next|unused next|v|v key asset rest]; try done;
    (destruct (negb ok); [intros [= <-]; by apply Hend|]); intros [= <-]; simpl in Hst.
  - by apply (moved_ok s _ j Reading (index_read now s j)); try done; apply (stage_ok_ext s); [..|apply index_read_ok].
  - destruct Hst as [(Hl & Hv & Hc) Hn]. apply (moved_ok s _ j (Writing kept next) (Listing kept next)); try done.
    change (length (readIndex (Some (write_index kept))) <= MAX_PROBLEM_PREVIEWS)%nat. by rewrite read_write.
  - destruct Hst as (Hw & Hx & Hn). case_bool_decide; [by apply (persisted_ok s _ _ (Listing kept next))|].
    apply (moved_ok s _ j (Listing kept next) (Removing (unused_keys kept (images s)) next)); try done. by exists kept.
  - destruct Hst as (kept & Hw & Hx & -> & Hn). apply (persisted_ok s _ _ (Removing (unused_keys kept (images s)) next)); try done.
    simpl. by apply filter_owned.
  - destruct Hst as (Hn & Hk & Hrest). apply (moved_ok s _ j (Storing v key asset rest) (store_next now rest (with_image key asset v))); try done.
    + simpl. by constructor.
    + apply store_next_ok; [done|]. destruct j; try done. by apply with_image_ok.
Qed.

Lemma thumbnails_ok now found s s' :
  Forall (λ t, ownedKey t.1 = true) found → store_ok s → thumbnails_found now found s = Some s' → store_ok s'.
Proof.
  intros Hf Hok. unfold thumbnails_found. destruct (running s) as [[j st]|] eqn:Hr; [|done]. destruct st as [| | | |v|]; try done.
  pose proof (so_index s Hok) as Hi. pose proof (so_images s Hok) as Hm. pose proof (so_stage s Hok j _ Hr) as Hst.
  intros [= <-]. destruct (outdated j s); [by apply (ended_ok s _ _ (Asking v))|].
  apply (moved_ok s _ j (Asking v) (store_next now found v)); try done. by apply store_next_ok.
Qed.

(** Keys of images are made by the store. *)
Definition event_ok (e : store_event) : Prop :=
  match e with Thumbnails found => Forall (λ t, ownedKey t.1 = true) found | _ => True end.

Lemma store_exec_ok now e s s' : event_ok e → store_ok s → store_exec now e s = Some s' → store_ok s'.
Proof.
  intros He Hok. destruct (so_pending s Hok) as [Hp Hle]. destruct e as [sc session requests|sc| | |ok|found]; simpl.
  - unfold saveProblemPreviews. destruct (MAX_PENDING <=? pending s) eqn:Hmax; [rewrite orb_true_r; by intros [= <-]|].
    intros [= <-]. destruct (_ || _); [done|]. eapply (queued_ok s); try done. simpl. lia.
  - intros [= <-]. eapply (queued_ok s); try done; simpl; lia.
  - intros [= <-]. eapply (queued_ok s); try done; simpl; lia.
  - by apply begin_job_ok.
  - by apply answer_arrived_ok.
  - by apply thumbnails_ok.
Qed.

Definition fresh_store (raw : option jsval) (keys : list string) : store :=
  {| index := raw; images := keys; pending := 0; generations := []; queue := []; running := None; settled := []; notified := 0 |}.

Lemma store_run_ok s es s' :
  store_ok s → Forall (λ e, event_ok e.2) es → store_run s es = Some s' → store_ok s'.
Proof.
  unfold store_run. revert s. induction es as [|[now e] es IH]; intros s Hok He; cbn [foldl mbind option_bind fst snd]; [by intros [= <-]|].
  inversion He; subst. destruct (store_exec now e s) as [s1|] eqn:E.
  - apply IH; [|done]. by apply (store_exec_ok now e s).
  - clear. by induction es as [|? es IH]; simpl.
Qed.

(** What the end of a clearing leaves. *)
Definition cleared (sc : string) (s : store) : Prop :=
  Forall (λ e, scope e ≠ sc) (readIndex (index s)) ∧ Forall (λ k, k ∈ used_keys (readIndex (index s))) (images s).

Lemma used_of kept imgs k : Forall (λ k, ownedKey k = true) imgs → k ∈ imgs → k ∉ unused_keys kept imgs → k ∈ used_keys kept.
Proof.
  rewrite Forall_forall. intros Hm Hk Hu. destruct (decide (k ∈ used_keys kept)) as [|Hn]; [done|]. destruct Hu.
  apply list_elem_of_filter. auto.
Qed.

Lemma clearing_ends now s s' sc st :
  store_ok s → running s = Some (Clear sc, st) → answered now true s = Some s' → running s' = None → cleared sc s'.
Proof.
  intros [_ _ Hm Hst] Hr. unfold answered. rewrite Hr. specialize (Hst _ _ Hr).
  destruct st as [|kept next|kept next|unused next|v|v key asset rest]; try done; cbn [negb]; simpl in Hst;
    try (intros [= <-] Hnone; discriminate Hnone).
  - destruct Hst as ((_ & Hv & Hc) & Hx & Hn). destruct next; [done|]. case_bool_decide as Hu; [|intros [= <-] Hnone; discriminate Hnone].
    intros [= <-] _. unfold cleared. cbn. rewrite Hx, read_write by done. split; [done|].
    apply Forall_forall. intros k Hk. apply (used_of _ (images s)); [done|done|]. rewrite Hu. apply not_elem_of_nil.
  - destruct Hst as (kept & (_ & Hv & Hc) & Hx & -> & Hn). destruct next; [done|].
    intros [= <-] _. unfold cleared. cbn. rewrite Hx, read_write by done. split; [done|].
    apply Forall_forall. intros k Hk. change (k ∈ filter (λ k, k ∉ unused_keys kept (images s)) (images s)) in Hk.
    apply list_elem_of_filter in Hk as [Hk1 Hk]. by apply (used_of _ (images s)).
Qed.

(** C33: from any stored index of at most 200 entries and images of this store, in every
    run of calls, of answers of the storage and of thumbnails of the native module:
    the pending count is the number of saves queued or running and never above 3, the index
    never has more than 200 entries; and when the last answer of a clearing of a scope
    arrives and is a success, the index has no entry of the scope and every image left
    belongs to an entry. *)
Theorem previews_bounded_and_cleared raw keys es s :
  (length (readIndex raw) <= MAX_PROBLEM_PREVIEWS)%nat → Forall (λ k, ownedKey k = true) keys →
  Forall (λ e, event_ok e.2) es → store_run (fresh_store raw keys) es = Some s →
  pending s = saves (running_job s ++ queue s) ∧ pending s <= MAX_PENDING
  ∧ (length (readIndex (index s)) <= MAX_PROBLEM_PREVIEWS)%nat
  ∧ ∀ sc st now s', running s = Some (Clear sc, st) → answered now true s = Some s' → running s' = None → cleared sc s'.
Proof.
  intros Hraw Hkeys He Hrun. assert (store_ok s) as Hok.
  { apply (store_run_ok (fresh_store raw keys) es); [|done|done]. by split. }
  destruct (so_pending s Hok) as [Hp Hle]. split; [done|]. split; [done|]. split; [apply (so_index s Hok)|].
  intros sc st now s'. by apply clearing_ends.
Qed.
End store.

(** A save of one photo with its thumbnail, then a clearing up to its last answer. *)
Definition example_key : string := "lmt:image:k1"%string.
Definition example_events : list (Z * store_event) :=
  (λ e, (1000, e)) <$>
  ([SaveCall "desktop" "s1" [{| rq_fileId := "f1"; rq_assetId := "a1"; rq_type := photo |}]; JobBegins; Answer true; Answer true; Answer true;
    Thumbnails [(example_key, "a1")]; Answer true; Answer true; Answer true;
    ClearCall "desktop"; JobBegins; Answer true; Answer true; Answer true])%string.

Lemma previews_bounded_and_cleared_witness :
  ∃ s s', store_run "lmt" (fresh_store None []) example_events = Some s
    ∧ running s = Some (Clear "desktop", Removing [example_key] None) ∧ images s = [example_key]
    ∧ answered "lmt" 1000 true s = Some s' ∧ cleared "lmt" "desktop" s' ∧ images s' = [] ∧ pending s = 0.
Proof.
  destruct (store_run "lmt" (fresh_store None []) example_events) as [s|] eqn:Hs; [|vm_compute in Hs; discriminate Hs].
  destruct (answered "lmt" 1000 true s) as [s'|] eqn:Hs'.
  2: { vm_compute in Hs. injection Hs as <-. vm_compute in Hs'. discriminate Hs'. }
  assert (running s = Some (Clear "desktop", Removing [example_key] None) ∧ images s = [example_key] ∧ pending s = 0) as (Hr & Hm & Hp).
  { vm_compute in Hs. injection Hs as <-. by repeat split. }
  exists s, s'. split; [first [exact Hs | reflexivity]|]. split; [exact Hr|]. split; [exact Hm|]. split; [exact Hs'|].
  pose proof (previews_bounded_and_cleared "lmt" None [] example_events s) as H.
  destruct H as (_ & _ & _ & H); [simpl; lia|constructor|repeat constructor|done|].
  assert (running s' = None ∧ images s' = []) as [Hn Hi].
  { vm_compute in Hs. injection Hs as <-. vm_compute in Hs'. injection Hs' as <-. by split. }
  split; [exact (H "desktop"%string _ 1000 s' Hr Hs' Hn)|]. split; [exact Hi|exact Hp].
Defined.
End ProblemPreviews.
